(* ===== verification/_CoqProject ===== *)
-Q . S2P
Prelude.v
Constants.v
LinkedList.v
HTable.v
HSet.v
ArrayList.v
DiskFile.v
PhysicalDatabase.v
Page.v
PageCache.v
PageCacheInv.v
PageCacheProps.v
HeaderPage.v
Records.v
HeapFile.v
HeapFileInv.v
HeapRecords.v
HeapStore.v
Chains.v
Incidence.v
HeapDelete.v
Traversal.v
HeapProps.v
Doubles.v
Queries.v
Walks.v
Searches.v
Paths.v
Degrees.v
QueryProps.v
MemGraph.v
MemGraphInv.v
MemTraversal.v
Rounding.v
DoubleOrder.v
FibHeap.v
FibTable.v
FibRing.v
FibForest.v
FibHeapInv.v
FibExtract.v
FibConsolidate.v
FibProps.v
FibDestroy.v
WeightedQueries.v
ShortestPaths.v
AStar.v
Orders.v
RandomOrders.v
Renaming.v
RecordKinds.v
SwapRecords.v
SwapRels.v
Reordering.v
SwapPages.v
IncidenceSort.v
OrderProps.v
Importer.v
ImportProps.v
HeapSteps.v
Backends.v
