(* ===== verification/Prelude.v ===== *)
(** * goedb: a graph database on disk

    The program stores a directed multigraph with labels and weights.  A node record holds a
    label and its first relationship; a relationship record holds its two nodes and, for the
    circular doubly-linked chain of either node, the previous and the next relationship.
    Records live in slots of pages of a record file, one file per kind of record; a bit per
    slot in a header file says whether the slot is in use.  Pages reach memory through a page
    cache with pin counts, least-recently-used replacement and write back.  The layers, from
    below, and the files of this development that model them (paths under src/):

    - Prelude (this file): the outcomes of a C function ([res]), machine integers with
      their wrap-around, byte strings and words, lists.
    - Constants (include/constants.h, src/data-struct/cbs.c): the page size is a field of the
      class [Sysconf]; the other constants, the hash function, the comparison callbacks.
    - LinkedList (include/data-struct/linked_list.h): lists, queues and stacks at pointer
      level, a heap of nodes in which freed nodes are absent; [rep] relates it to a sequence.
    - HTable, HSet, ArrayList (htable.h, set.h, array_list.h in include/data-struct): hash
      tables and their iterator, hash sets, growing arrays, as the macros expand, for any
      element type; they refine finite maps, finite sets and sequences.
    - DiskFile, PhysicalDatabase (src/io): page files with their counters, growth, shrinking;
      creation, opening, validation and page allocation of the files of a database.
    - Page, PageCache, PageCacheInv, PageCacheProps (src/cache): typed access to a page;
      pinning, both evictions, flushing, new pages, resizing, destruction; the invariant of a
      cache between operations ([quiescent]), what a client sees of a page ([view]), and the
      properties.
    - HeaderPage (src/access/header_page.c): bit arrays and bits on pages.
    - Records (src/access/node.c, relationship.c): the structs and their layout on a page.
    - HeapFile (src/access/heap_file.c): all operations of the heap file.  HeapFileInv,
      HeapRecords and HeapStore show that the records are a pair of finite maps
      ([holds_store]); Chains, Incidence, HeapDelete and Traversal that the chains make them a
      graph whose nodes know their relationships in insertion order ([graph_file]);
      HeapProps has the properties and their witnesses.
    - Doubles (C's double and float as the queries compute with them): bit patterns of
      binary64 read into the Standard Library's specification of IEEE arithmetic.
    - Queries (src/query: bfs, dfs, degree, random_walk, result_types): the queries, as
      clients of the heap file.  Walks has the graph theory they are stated with (steps,
      walks, distances) and the interface between a heap file and the graph it serves
      ([serves]); Searches treats breadth and depth first search as instances of one search
      over a work list, Paths the construction of paths from predecessor tables, Degrees the
      degrees; QueryProps has the properties and their witnesses.
    - MemGraph, MemGraphInv, MemTraversal (src/access/in_memory_graph.c): the graph in memory,
      with structs in arenas; [mem_graph] relates it to the same graphs as the heap file, so
      that the two copies of creation and traversal have the same theorems.
    - FibHeap (include/data-struct/fibonacci_heap.h): the Fibonacci heap at the level of nodes
      and pointers.  FibRing has the rings of siblings, FibForest the trees ([forest]),
      FibHeapInv the representation of a heap ([heap_rep]) and insertion, FibTable the size of
      the table of consolidate, FibExtract and FibConsolidate the steps of extraction, FibProps
      the properties over contents ([fheap]), FibDestroy destruction.  The allocator is a class ([Malloc]): it may
      return any address that is not in use, freed ones again, and fails when as many nodes
      are live as it has room for.
    - Rounding, DoubleOrder: rounding to nearest on integers and that SpecFloat computes it;
      the order of doubles as integers, and that sums of doubles that are not negative are
      monotone.
    - WeightedQueries (src/query: dijkstra, a-star, alt): the queries, as clients of the heap
      file and the Fibonacci heap.  ShortestPaths has the termination and correctness of
      Dijkstra's algorithm, by label correction over [serves] and [fheap], AStar those of A*;
      each has an example of a run that goes wrong.
    - Orders (src/order: random_order, reorder_records): identity and random orders of the
      records, exchanges of two records or two pages, reordering by a table or a sequence,
      sorting of chains.  The functions on nodes and on relationships are instances of one
      definition where the code is the same.  RandomOrders has permutations as tables
      ([order_on]), Renaming what it means to rename a graph ([renamed]) and the records that
      stand for it, RecordKinds the interface to records of either kind; SwapRecords and
      SwapRels treat the exchanges, Reordering the loop over the slots, SwapPages the pages,
      IncidenceSort the chains; OrderProps has the properties.
    - Importer (src/query/snap_importer.c): the scanning of a text of edges, and the loop
      that fills a heap file or a graph in memory through the class [EdgeSink]; ImportProps
      has printing and the properties.
    - Backends: the heap file and the graph in memory agree on the same graph.
    - HeapSteps: the operations on the heap file and its records as a labelled transition
      system that simulates one on graphs.

    Every C function is a function of the same name into [res]: the state it changes is an
    argument and part of the result.  [Exit] is the path that prints an error and ends the
    program, [Undef] is undefined behaviour, [NoFuel] a loop that used up its fuel.  Null
    pointer guards have no counterpart: a model value is never null, except where the code
    makes it so (options).  Log files are lists of lines.  fopen and fclose succeed, and malloc
    does except for the nodes of the Fibonacci heap; failures of fseek, fread, fwrite and
    ftruncate that depend on sizes are modelled.  Where the code keeps two pointers to one
    struct (create_relationship, delete_relationship), the model has a store of structs and
    indices into it.

    ** Fuel and bounds

    A loop over a list or a chain gets one unit of fuel per element; loops over the slots of a
    file get [scan_fuel], one more than the file has slots, and the theorems show that this is
    enough (or, for contains_relationship_from_to, when no amount is).  A search gets one unit
    per node and two more, since a node enters its queue or stack once per marking; following
    a predecessor table back to the source gets one more unit than the table has entries.  The
    walk of consolidate gets the square of the number of cells in memory, since a round advances
    or links two roots; Dijkstra's algorithm and A* get [2 ^ 124] rounds, run by [while_fuel]:
    a node is put into the heap only when its distance, a double that is not negative, gets
    smaller, which [2 ^ 59] nodes can do less than [2 ^ 122] times.  The import gets one more
    unit than the text has characters, each line being at least one.  Unsigned longs are
    integers modulo 2^64 and unsigned chars modulo 2^8; doubles are their bit patterns, with
    IEEE comparison and sums.  The heap file is treated for pages of 16 to 256 slots, a
    multiple of four ([RecordPages], with the 4096-byte pages of the target as an instance);
    [room] states that the files may still grow.

    ** What the theorems show

    - A graph: creating nodes and relationships adds them to the graph, deleting removes
      them, expand lists them in chain order, searches find the first match, and all this is
      kept over closing and reopening; deleting a relationship that is alone in the chain of
      its source only, and a search whose first relationship is off the direction, go wrong.
    - Queries: breadth first search numbers exactly the reachable nodes with their distance
      and its predecessor table yields shortest paths; depth first search leaves a tree that
      spans the reachable nodes; degrees count edges, and the average degree obeys the
      handshake equation; a random walk is a walk of the graph.
    - The graph in memory: creating nodes and relationships adds them to the graph, expand and
      the lists return what the graph has; the search for a relationship goes round forever
      when the first one is off the direction.
    - The Fibonacci heap: insertion adds a node; extraction, on heaps whose keys were never
      decreased and with bounds on the C library's logf, returns a least node, stays within
      its table and ends, but may lose nodes; destruction frees exactly the nodes of the heap;
      examples show a loss, and an access out of the table after a key was decreased.
    - Orders: exchanging records or pages and reordering rename the graph, random orders are
      permutations, the chains get sorted; a node that is moved to a free id leaves its
      relationships behind.
    - Import: printed data sets are read back and build the graph of their lines in memory;
      weighted ones run into undefined behaviour.
    - Composition: whatever admissible operations a client calls on a heap file, each returns
      and the heap file stands for the graph after the corresponding steps; expand lists the
      same edges in the same order on disk and in memory.
    - Shortest paths: Dijkstra's algorithm and A* end on weights and estimates that are not
      negative, since sums of distances decrease.  Dijkstra's algorithm returns shortest
      distances, A* a walk to the target or that there is none; or they exit, and then from a
      state in which the heap has lost nodes or the memory is short.  Examples show the exit,
      and that the walk of A* need not be shortest.
    - Records: reading, updating, scanning and searching are operations on finite maps, and an
      id is accepted exactly when its bits are set.
    - The page cache: pages keep their contents through pinning, eviction, resizing and
      destruction; which frames eviction frees; the guards; the queue of the replacement
      policy can be left with a dangling pointer by nested pins.
    - Files: allocation keeps a database consistent, closing and opening is a round trip,
      pages that are written are read back.
    - Bits and records on pages; the data structures refine their mathematical models.

    ** Not modelled

    heap_file_destroy and the other destructors that only free; the printers, and the messages
    about the progress of an import; disk_file_sync and the log swap of a single disk file.  The
    download and the decompression of a data set are calls to curl and zlib, whose results are
    arguments, and the conversions of doubles by printf and sscanf are arguments too.  Of the
    Fibonacci heap, union and cuts are defined and have no theorem of their own, and neither
    have ALT, the orders by sequences, and the import into a heap file, which runs
    with the cache's queue turned off.  main.c, strace.c and the benchmark are drivers that call
    the other parts and print. *)

From Stdlib Require Import ZArith Lia.
From stdpp Require Import base list option gmap strings.

#[global] Open Scope Z_scope.

(** ** Outcomes of a C function

    [Ok a] is a normal return.  [Exit] is the program's error path: print a
    message, print the stack trace, [exit(EXIT_FAILURE)].  [Undef] is undefined
    behaviour of C (a dereference of a null or freed pointer, an array access
    out of bounds).  [NoFuel] is the value of a loop whose fuel ran out; the
    termination theorems show that it does not occur with the fuel given. *)
Inductive res (A : Type) : Type :=
  | Ok (a : A)
  | Exit
  | Undef
  | NoFuel.
Arguments Ok {A} a.
Arguments Exit {A}.
Arguments Undef {A}.
Arguments NoFuel {A}.

#[export] Instance res_ret : MRet res := fun A a => Ok a.
#[export] Instance res_bind : MBind res := fun A B f m =>
  match m with
  | Ok a => f a
  | Exit => Exit
  | Undef => Undef
  | NoFuel => NoFuel
  end.
#[export] Instance res_fmap : FMap res := fun A B f m =>
  match m with
  | Ok a => Ok (f a)
  | Exit => Exit
  | Undef => Undef
  | NoFuel => NoFuel
  end.

(** [if (c) exit(EXIT_FAILURE);] *)
Definition exit_if (c : bool) : res unit := if c then Exit else Ok tt.

(** An access that is undefined behaviour when there is nothing to access. *)
Definition deref {A} (o : option A) : res A :=
  match o with Some a => Ok a | None => Undef end.

(** An access whose failure ends the program. *)
Definition or_exit {A} (o : option A) : res A :=
  match o with Some a => Ok a | None => Exit end.

Definition is_ok {A} (m : res A) : bool :=
  match m with Ok _ => true | _ => false end.

(** [for (i = start; i < start + n; ++i) body(i)] over a state. *)
Fixpoint for_loop {S : Type} (n : nat) (i : Z) (body : Z -> S -> res S)
    (s : S) : res S :=
  match n with
  | O => Ok s
  | S n' => s' ← body i s; for_loop n' (i + 1) body s'
  end.

(** ** Machine integers

    [unsigned long] and [size_t] have 64 bits, [unsigned int] 32, [unsigned
    short] 16 and [unsigned char] 8 (x86-64 Linux); arithmetic on them wraps. *)
Definition u64 (z : Z) : Z := z mod 2 ^ 64.
Definition u32 (z : Z) : Z := z mod 2 ^ 32.
Definition u16 (z : Z) : Z := z mod 2 ^ 16.
Definition u8 (z : Z) : Z := z mod 2 ^ 8.

Definition ULONG_MAX : Z := 2 ^ 64 - 1.
Definition SIZE_MAX : Z := 2 ^ 64 - 1.
Definition LONG_MAX : Z := 2 ^ 63 - 1.
Definition UCHAR_MAX : Z := 255.
Definition CHAR_BIT : Z := 8.
Definition sizeof_ulong : Z := 8.
Definition sizeof_double : Z := 8.

Definition is_byte (b : Z) : Prop := 0 <= b < 256.
Definition is_u64 (z : Z) : Prop := 0 <= z < 2 ^ 64.

(** ** Byte sequences *)

(** The object representation of an integer of [n] bytes, least significant
    byte first, and back: what [memcpy] from and to an integer does on x86-64. *)
Fixpoint le_split (n : nat) (z : Z) : list Z :=
  match n with
  | O => []
  | S n' => z mod 256 :: le_split n' (z / 256)
  end.
Fixpoint le_combine (bs : list Z) : Z :=
  match bs with
  | [] => 0
  | b :: bs' => b + 256 * le_combine bs'
  end.

(** [memcpy(dst + off, src, |src|)] inside an object: the bytes of [src] replace
    those of [l] from [off]. *)
Definition splice {A} (l : list A) (off : nat) (src : list A) : list A :=
  take off l ++ src ++ drop (off + length src) l.

(** [memcpy(dst, src + off, n)]. *)
Definition slice {A} (l : list A) (off n : nat) : list A := take n (drop off l).

(** [memmove(a + dst, a + src, n)] within an array [a]; outside of it the
    behaviour is undefined. *)
Definition mem_move {A} (a : list A) (dst src n : nat) : res (list A) :=
  if (Nat.leb (src + n) (length a) && Nat.leb (dst + n) (length a))%bool
  then Ok (splice a dst (slice a src n)) else Undef.

(** [a[i] = v;] *)
Definition mem_set {A} (a : list A) (i : nat) (v : A) : res (list A) :=
  if Nat.ltb i (length a) then Ok (<[i := v]> a) else Undef.

(** ** Log files

    A [FILE*] opened for appending: its path and the lines written to it, a line
    being its format's tag and its arguments. *)
Inductive log_arg :=
  | LStr (s : string)
  | LNum (z : Z).
Definition log_line : Type := list log_arg.
Record log_file := LogFile { log_path : string; log_lines : list log_line }.

(** [if (log) fprintf(log_file, line);] *)
Definition log_when (log : bool) (line : log_line) (f : log_file) : log_file :=
  if log then LogFile (log_path f) (log_lines f ++ [line]) else f.
Definition log_open (path : string) : log_file := LogFile path [].

(** ** Automation *)

Create HintDb goedb.
Create Rewrite HintDb goedb_len.

Ltac Zify.zify_post_hook ::= Z.div_mod_to_equations.

(** Invert hypotheses of the form [bind = Ok _] and equations between results. *)
Ltac inv_res1 :=
  match goal with
  | H : Ok _ = Ok _ |- _ => injection H as H; simplify_eq
  | H : Ok _ = Exit |- _ => discriminate H
  | H : Ok _ = Undef |- _ => discriminate H
  | H : Exit = Ok _ |- _ => discriminate H
  | H : Undef = Ok _ |- _ => discriminate H
  | H : NoFuel = Ok _ |- _ => discriminate H
  | H : mret _ = Ok _ |- _ => unfold mret, res_ret in H
  | H : (?m ≫= ?f) = Ok _ |- _ =>
      let E := fresh "E" in destruct m eqn:E; simpl in H
  | H : exit_if ?c = Ok _ |- _ =>
      let E := fresh "E" in destruct c eqn:E; simpl in H; [discriminate H|]
  | H : (if ?c then Exit else _) = Ok _ |- _ =>
      let E := fresh "E" in destruct c eqn:E; [discriminate H|]
  | H : (let '(_, _) := ?p in _) = Ok _ |- _ => destruct p; simpl in H
  end.
Ltac inv_res := repeat (inv_res1; simpl in *).

(** Turn the boolean comparisons of the code into propositions. *)
Ltac bool_prop :=
  repeat match goal with
  | H : (_ || _) = false |- _ => apply orb_false_iff in H as [? ?]
  | H : (_ && _) = true |- _ => apply andb_true_iff in H as [? ?]
  | H : negb _ = true |- _ => apply negb_true_iff in H
  | H : negb _ = false |- _ => apply negb_false_iff in H
  | H : Z.eqb _ _ = true |- _ => apply Z.eqb_eq in H
  | H : Z.eqb _ _ = false |- _ => apply Z.eqb_neq in H
  | H : Z.ltb _ _ = true |- _ => apply Z.ltb_lt in H
  | H : Z.ltb _ _ = false |- _ => apply Z.ltb_ge in H
  | H : Z.leb _ _ = true |- _ => apply Z.leb_le in H
  | H : Z.leb _ _ = false |- _ => apply Z.leb_gt in H
  | H : Nat.eqb _ _ = true |- _ => apply Nat.eqb_eq in H
  | H : Nat.eqb _ _ = false |- _ => apply Nat.eqb_neq in H
  | H : Nat.leb _ _ = true |- _ => apply Nat.leb_le in H
  | H : Nat.leb _ _ = false |- _ => apply Nat.leb_gt in H
  | H : Nat.ltb _ _ = true |- _ => apply Nat.ltb_lt in H
  | H : Nat.ltb _ _ = false |- _ => apply Nat.ltb_ge in H
  | H : bool_decide _ = true |- _ => apply bool_decide_eq_true in H
  | H : bool_decide _ = false |- _ => apply bool_decide_eq_false in H
  end.

(** Length goals. *)
Ltac len := autorewrite with goedb_len in *; simpl in *; lia.

(** ** Lemmas on outcomes *)

Lemma bind_Ok {A B} (m : res A) (f : A -> res B) b :
  (m ≫= f) = Ok b <-> exists a, m = Ok a /\ f a = Ok b.
Proof.
  split.
  - intros H. destruct m as [a| | |]; simpl in H; try discriminate. eauto.
  - intros (a & -> & H). exact H.
Qed.

Lemma exit_if_false c : c = false -> exit_if c = Ok tt.
Proof. by intros ->. Qed.

Lemma for_loop_S {S : Type} n i (body : Z -> S -> res S) s :
  for_loop (Datatypes.S n) i body s = (s' ← body i s; for_loop n (i + 1) body s').
Proof. done. Qed.

(** An invariant of the body over the range of a [for] loop is one of the loop,
    and the loop returns. *)
Lemma for_loop_inv {S : Type} (I : Z -> S -> Prop) n i (body : Z -> S -> res S) s :
  I i s ->
  (forall j s, i <= j < i + Z.of_nat n -> I j s ->
     exists s', body j s = Ok s' /\ I (j + 1) s') ->
  exists s', for_loop n i body s = Ok s' /\ I (i + Z.of_nat n) s'.
Proof.
  revert i s. induction n as [|n IH]; intros i s Hs Hb.
  - exists s. rewrite Z.add_0_r. done.
  - destruct (Hb i s) as (s1 & E1 & H1); [lia|done|].
    destruct (IH (i + 1) s1) as (s2 & E2 & H2); [done| |].
    + intros j s' Hj HI. apply Hb; [lia|done].
    + exists s2. rewrite for_loop_S, E1. simpl. split; [done|].
      by replace (i + Z.of_nat (Datatypes.S n)) with (i + 1 + Z.of_nat n) by lia.
Qed.

(** ** Lemmas on machine integers *)

Lemma u64_small z : is_u64 z -> u64 z = z.
Proof. intros H. apply Z.mod_small. exact H. Qed.
Lemma u64_range z : is_u64 (u64 z).
Proof. apply Z.mod_pos_bound. reflexivity. Qed.
Lemma u32_small z : 0 <= z < 2 ^ 32 -> u32 z = z.
Proof. intros H. by apply Z.mod_small. Qed.
Lemma u8_small z : is_byte z -> u8 z = z.
Proof. intros H. by apply Z.mod_small. Qed.
Lemma u8_byte z : is_byte (u8 z).
Proof. apply Z.mod_pos_bound. reflexivity. Qed.

(** ** Lemmas on byte sequences *)

Lemma length_le_split n z : length (le_split n z) = n.
Proof. revert z. induction n; intros; simpl; congruence. Qed.

Lemma le_split_bytes n z : Forall is_byte (le_split n z).
Proof.
  revert z. induction n; intros; simpl; constructor; [|done].
  unfold is_byte. lia.
Qed.

Lemma le_combine_bound bs :
  Forall is_byte bs -> 0 <= le_combine bs < 256 ^ Z.of_nat (length bs).
Proof.
  induction 1 as [|b bs Hb _ IH]; simpl; [lia|].
  rewrite Nat2Z.inj_succ, Z.pow_succ_r by lia. unfold is_byte in Hb. lia.
Qed.

Lemma le_combine_split n z :
  0 <= z < 256 ^ Z.of_nat n -> le_combine (le_split n z) = z.
Proof.
  revert z. induction n as [|n IH]; intros z Hz.
  - simpl in *. lia.
  - cbn [le_split le_combine]. rewrite Nat2Z.inj_succ, Z.pow_succ_r in Hz by lia.
    rewrite IH; lia.
Qed.

Lemma le_split_combine bs :
  Forall is_byte bs -> le_split (length bs) (le_combine bs) = bs.
Proof.
  induction 1 as [|b bs Hb _ IH]; simpl; [done|]. unfold is_byte in Hb.
  f_equal; [lia|].
  by replace ((b + 256 * le_combine bs) / 256) with (le_combine bs) by lia.
Qed.

Lemma le_split_u64 z : is_u64 z -> le_combine (le_split 8 z) = z.
Proof. intros H. apply le_combine_split. exact H. Qed.

Section Splice.
Context {A : Type}.
Implicit Types (l src : list A) (off n i : nat).

Lemma length_splice l off src :
  (off + length src <= length l)%nat -> length (splice l off src) = length l.
Proof.
  intros. unfold splice. rewrite !length_app, length_take, length_drop. lia.
Qed.

Lemma splice_lookup_in l off src i :
  (off <= i)%nat -> (i < off + length src)%nat -> (off <= length l)%nat ->
  splice l off src !! i = src !! (i - off)%nat.
Proof.
  intros. unfold splice.
  rewrite lookup_app_r by (rewrite length_take; lia).
  rewrite length_take, Nat.min_l by lia. by rewrite lookup_app_l by lia.
Qed.

Lemma splice_lookup_out l off src i :
  (i < off \/ off + length src <= i)%nat -> (off <= length l)%nat ->
  splice l off src !! i = l !! i.
Proof.
  intros [H|H] Hl; unfold splice.
  - rewrite lookup_app_l by (rewrite length_take; lia). by rewrite lookup_take_lt.
  - rewrite lookup_app_r by (rewrite length_take; lia).
    rewrite length_take, Nat.min_l by lia.
    rewrite lookup_app_r by lia. rewrite lookup_drop. f_equal. lia.
Qed.

Lemma length_slice l off n : (off + n <= length l)%nat -> length (slice l off n) = n.
Proof. intros. unfold slice. rewrite length_take, length_drop. lia. Qed.

Lemma slice_lookup l off n i :
  (i < n)%nat -> slice l off n !! i = l !! (off + i)%nat.
Proof. intros. unfold slice. by rewrite lookup_take_lt, lookup_drop by done. Qed.

Lemma slice_splice_same l off src :
  (off + length src <= length l)%nat -> slice (splice l off src) off (length src) = src.
Proof.
  intros. apply list_eq. intros i. destruct (decide (i < length src)%nat).
  - rewrite slice_lookup by done. rewrite splice_lookup_in by lia. f_equal. lia.
  - rewrite !lookup_ge_None_2; [done|lia|]. rewrite length_slice; [lia|].
    rewrite length_splice; lia.
Qed.

Lemma slice_splice_disjoint l off src off' n :
  (off' + n <= off \/ off + length src <= off')%nat ->
  (off + length src <= length l)%nat -> (off' + n <= length l)%nat ->
  slice (splice l off src) off' n = slice l off' n.
Proof.
  intros H Hl Hl'. apply list_eq. intros i. destruct (decide (i < n)%nat).
  - rewrite !slice_lookup by done. rewrite splice_lookup_out; [done| |]; lia.
  - rewrite !lookup_ge_None_2; [done| |].
    + rewrite length_slice; lia.
    + rewrite length_slice; [lia|]. rewrite length_splice; lia.
Qed.

Lemma splice_slice_id l off n :
  (off + n <= length l)%nat -> splice l off (slice l off n) = l.
Proof.
  intros H. unfold splice. rewrite length_slice by done. unfold slice.
  rewrite <- drop_drop, take_drop, take_drop. done.
Qed.

Lemma Forall_splice (P : A -> Prop) l off src :
  Forall P l -> Forall P src -> Forall P (splice l off src).
Proof.
  intros Hl Hs. unfold splice. rewrite !Forall_app.
  split_and!; auto using Forall_take, Forall_drop.
Qed.

Lemma Forall_slice (P : A -> Prop) l off n : Forall P l -> Forall P (slice l off n).
Proof. intros H. by apply Forall_take, Forall_drop. Qed.
End Splice.

#[export] Hint Rewrite @length_app @length_take @length_drop @length_replicate
  @length_insert @length_le_split @length_fmap : goedb_len.
#[export] Hint Resolve u64_range u8_byte le_split_bytes Forall_splice Forall_slice : goedb.
