(* ===== verification/Constants.v ===== *)
(** The constants of include/constants.h, the callbacks of
    src/data-struct/cbs.c, and the binary32 arithmetic in which load factors and
    shares are computed.

    The page size is what the operating system reports, so it is a field of the
    class [Sysconf], with what the code assumes of it as laws.  [float] values are
    the standard library's [spec_float] with 24 bits of precision. *)

From S2P Require Import Prelude.
From Stdlib Require Import ZArith Lia Floats.SpecFloat.
From stdpp Require Import base list.

#[local] Open Scope Z_scope.

(** ** Constants *)

Definition UNINITIALIZED_LONG : Z := 0xFFFFFFFFFFFFF666.
Definition UNINITIALIZED_BYTE : Z := 0xFF.

(** The object representation of the double 0x1.FFFFFFFFFF666p-1. *)
Definition UNINITIALIZED_WEIGHT : Z := 0x3FEFFFFFFFFFF666.

Definition SLOT_SIZE : Z := 16.

(** What [sysconf(_SC_PAGESIZE)] promises: a positive multiple of the slot size
    (it is a power of two), far below the limits of the integer types. *)
Class Sysconf := {
  PAGE_SIZE : Z;
  PAGE_SIZE_slots : exists k, PAGE_SIZE = 16 * k /\ 1 <= k;
  PAGE_SIZE_small : PAGE_SIZE <= 2 ^ 20 }.

Section PageConstants.
Context `{Sysconf}.

Definition MAX_PAGE_NO : Z := LONG_MAX / PAGE_SIZE.
Definition SLOTS_PER_PAGE : Z := PAGE_SIZE / SLOT_SIZE.
Definition CACHE_SIZE : Z := PAGE_SIZE * 100.
Definition CACHE_N_PAGES : Z := CACHE_SIZE / PAGE_SIZE.
End PageConstants.

(** The page size of x86-64 Linux, and a small one for examples. *)
#[export, program] Instance x86_pages : Sysconf := {| PAGE_SIZE := 4096 |}.
Next Obligation. exists 256. lia. Qed.
Next Obligation. lia. Qed.

Definition small_pages : Sysconf.
Proof.
  refine {| PAGE_SIZE := 32 |}; [exists 2; lia|lia].
Defined.

(** ** binary32 *)

Definition f32_mul (x y : spec_float) : spec_float := SFmul 24 128 x y.

(** [(float) n] and [(size_t) x] *)
Definition f32_of_Z (n : Z) : spec_float := binary_normalize 24 128 n 0 false.
Definition f32_to_Z (x : spec_float) : Z :=
  match x with
  | S754_finite s m e =>
      let a := if 0 <=? e then Z.pos m * 2 ^ e else Z.pos m / 2 ^ (- e) in
      if s then - a else a
  | _ => 0
  end.

(** The literals 0.6F and 0.1F. *)
Definition REHASH_FILLING_RATIO : spec_float := S754_finite false 10066330 (-24).
Definition EVICT_LRU_K_SHARE : spec_float := S754_finite false 13421773 (-27).

Section EvictShare.
Context `{Sysconf}.

Definition EVICT_LRU_K : Z := 1 + f32_to_Z (f32_mul (f32_of_Z CACHE_N_PAGES) EVICT_LRU_K_SHARE).
End EvictShare.

(** ** Callbacks *)

Definition fnv_hash_ul (inp : Z) (seed : Z) : Z :=
  let h := seed in
  let prime := 0xFDCFB7 in
  u64 (u64 (Z.lxor h inp) * prime).

Definition unsigned_long_eq (a b : Z) : bool := a =? b.
Definition int_eq (first second : Z) : bool := first =? second.
Definition long_eq (first second : Z) : bool := first =? second.

(** [NULL] is [None]. *)
Definition ptr_eq (a b : option nat) : bool :=
  if negb (bool_decide (is_Some a)) && negb (bool_decide (is_Some b)) then true
  else if negb (bool_decide (is_Some a)) || negb (bool_decide (is_Some b)) then false
  else bool_decide (a = b).

Definition ul_cmp (a b : Z) : Z := if a <? b then -1 else if a =? b then 0 else 1.

(** ** Facts *)

Section PageFacts.
Context `{Sysconf}.

Lemma PAGE_SIZE_pos : 16 <= PAGE_SIZE.
Proof. destruct PAGE_SIZE_slots as (k & -> & ?). lia. Qed.
Lemma SLOTS_PER_PAGE_pos : 1 <= SLOTS_PER_PAGE.
Proof.
  unfold SLOTS_PER_PAGE, SLOT_SIZE. destruct PAGE_SIZE_slots as (k & -> & ?).
  rewrite Z.mul_comm, Z.div_mul; lia.
Qed.
Lemma SLOTS_PER_PAGE_size : SLOTS_PER_PAGE * SLOT_SIZE = PAGE_SIZE.
Proof.
  unfold SLOTS_PER_PAGE, SLOT_SIZE. destruct PAGE_SIZE_slots as (k & -> & ?).
  rewrite (Z.mul_comm 16), Z.div_mul; lia.
Qed.
Lemma CACHE_N_PAGES_eq : CACHE_N_PAGES = 100.
Proof.
  unfold CACHE_N_PAGES, CACHE_SIZE. pose proof PAGE_SIZE_pos.
  rewrite Z.mul_comm, Z.div_mul; lia.
Qed.
Lemma EVICT_LRU_K_eq : EVICT_LRU_K = 11.
Proof. unfold EVICT_LRU_K. rewrite CACHE_N_PAGES_eq. vm_compute. reflexivity. Qed.
End PageFacts.

Lemma fnv_hash_ul_range inp seed : is_u64 (fnv_hash_ul inp seed).
Proof. apply u64_range. Qed.

(** [ul_cmp] is a total order, as [qsort] requires. *)
Lemma ul_cmp_total_order (a b c : Z) :
  (ul_cmp a b = - ul_cmp b a) /\ (ul_cmp a b = 0 <-> a = b) /\
  ((ul_cmp a b <=? 0) && (ul_cmp b c <=? 0) && negb (ul_cmp a c <=? 0)) = false.
Proof.
  unfold ul_cmp. repeat match goal with
  | |- context [?x <? ?y] => destruct (Z.ltb_spec x y)
  | |- context [?x =? ?y] => destruct (Z.eqb_spec x y)
  end; simpl; repeat split; try lia; try done.
Qed.
