(* ===== verification/LinkedList.v ===== *)
(** The linked lists, queues and stacks of include/data-struct/linked_list.h, at
    the level of their nodes and pointers.

    The macros generate, for an element type [T], a circular doubly linked list
    with head and tail pointers and a length.  The model keeps the nodes in a
    heap: a finite map from addresses to nodes.  [calloc] takes a fresh address,
    [free] removes the node, and following a pointer to no node is undefined
    behaviour, so that a dangling pointer is noticed when it is followed.

    [rep ll xs] says that the list [ll] holds the elements [xs] and owns exactly
    its nodes, the links between neighbours being right in both directions.  The
    two links that close the circle are not part of it, because the operations
    do not maintain them: [ring ll] says that they are right too.  The
    operations other than [move_back] refine the operations on lists under
    [rep] alone; [move_back] rotates the circle and needs [ring]. *)

From S2P Require Import Prelude.
From Stdlib Require Import ZArith Lia.
From stdpp Require Import base list option gmap.
Set Default Proof Using "Type".

(** ** Data *)

Definition loc := nat.

Section LinkedList.
Context {T : Type}.
Variable lleq : T -> T -> bool.

Record llnode := LLNode {
  element : T;
  ll_prev : option loc;
  ll_next : option loc }.

(** The list struct, with the heap that holds its nodes: [cells] are the live
    nodes, [brk] the next address [calloc] returns. *)
Record llist := LList {
  ll_head : option loc;
  ll_tail : option loc;
  ll_len : nat;
  cells : gmap loc llnode;
  brk : loc }.

(** ** Memory *)

Definition node_at (ll : llist) (p : option loc) : res llnode :=
  l ← deref p; deref (cells ll !! l).

Definition set_cells (ll : llist) (h : gmap loc llnode) : llist :=
  LList (ll_head ll) (ll_tail ll) (ll_len ll) h (brk ll).
Definition set_head (ll : llist) (p : option loc) : llist :=
  LList p (ll_tail ll) (ll_len ll) (cells ll) (brk ll).
Definition set_tail (ll : llist) (p : option loc) : llist :=
  LList (ll_head ll) p (ll_len ll) (cells ll) (brk ll).
Definition set_len (ll : llist) (n : nat) : llist :=
  LList (ll_head ll) (ll_tail ll) n (cells ll) (brk ll).

(** [node* p = calloc(1, sizeof( *node)); p->element = e;] *)
Definition new_node (ll : llist) (e : T) : loc * llist :=
  (brk ll, LList (ll_head ll) (ll_tail ll) (ll_len ll)
                 (<[brk ll := LLNode e None None]> (cells ll)) (S (brk ll))).

(** [free(p)] *)
Definition free_node (ll : llist) (p : option loc) : res llist :=
  l ← deref p;
  _ ← deref (cells ll !! l);
  Ok (set_cells ll (delete l (cells ll))).

(** [p->next = q;] and [p->prev = q;] *)
Definition set_next (ll : llist) (p q : option loc) : res llist :=
  l ← deref p;
  n ← deref (cells ll !! l);
  Ok (set_cells ll (<[l := LLNode (element n) (ll_prev n) q]> (cells ll))).
Definition set_prev (ll : llist) (p q : option loc) : res llist :=
  l ← deref p;
  n ← deref (cells ll !! l);
  Ok (set_cells ll (<[l := LLNode (element n) q (ll_next n)]> (cells ll))).

(** ** Operations *)

Definition linked_list_create : llist := LList None None 0 ∅ 0%nat.

Definition linked_list_size (ll : llist) : nat := ll_len ll.

Definition linked_list_append (ll : llist) (elem : T) : res llist :=
  let '(nd, ll) := new_node ll elem in
  let node := Some nd in
  if bool_decide (ll_tail ll = None) then
    let ll := set_head ll node in
    let ll := set_tail ll node in
    ll ← set_next ll node node;
    ll ← set_prev ll node node;
    Ok (set_len ll (S (ll_len ll)))
  else
    ll ← set_prev ll node (ll_tail ll);
    ll ← set_next ll node (ll_head ll);
    ll ← set_next ll (ll_tail ll) node;
    ll ← set_prev ll (ll_head ll) node;
    let ll := set_tail ll node in
    Ok (set_len ll (S (ll_len ll))).

Definition linked_list_push (ll : llist) (elem : T) : res llist :=
  linked_list_append ll elem.

(** The walk [for (i < idx) { cur = next; next = cur->next; }] *)
Fixpoint walk2 (ll : llist) (n : nat) (cur next : option loc)
    : res (option loc * option loc) :=
  match n with
  | O => Ok (cur, next)
  | S n' => nd ← node_at ll next; walk2 ll n' next (ll_next nd)
  end.

Definition linked_list_insert (ll : llist) (elem : T) (idx : nat) : res llist :=
  let '(nw, ll) := new_node ll elem in
  let new := Some nw in
  if (ll_len ll =? 0)%nat && (idx =? 0)%nat then
    let ll := set_head ll new in
    let ll := set_tail ll new in
    ll ← set_prev ll new new;
    ll ← set_next ll new new;
    Ok (set_len ll (S (ll_len ll)))
  else if (ll_len ll <=? idx)%nat then Exit
  else
    ll ← (if negb (idx =? 0)%nat && negb (idx =? ll_len ll)%nat then
            '(cur, next) ← walk2 ll idx (ll_head ll) (ll_head ll);
            ll ← set_next ll new next;
            ll ← set_prev ll new cur;
            ll ← set_next ll cur new;
            set_prev ll next new
          else
            ll ← set_prev ll new (ll_tail ll);
            ll ← set_next ll new (ll_head ll);
            ll ← set_prev ll (ll_head ll) new;
            ll ← set_next ll (ll_tail ll) new;
            Ok (if (idx =? 0)%nat then set_head ll new else set_tail ll new));
    Ok (set_len ll (S (ll_len ll))).

Definition linked_list_remove_internal (ll : llist) (idx : nat) : res llist :=
  if (ll_len ll <=? idx)%nat then Exit
  else if (ll_len ll =? 1)%nat && (idx =? 0)%nat then
    ll ← free_node ll (ll_head ll);
    let ll := set_head ll None in
    let ll := set_tail ll None in
    Ok (set_len ll (ll_len ll - 1))
  else if (idx =? 0)%nat then
    hd ← node_at ll (ll_head ll);
    let temp := ll_next hd in
    ll ← free_node ll (ll_head ll);
    let ll := set_head ll temp in
    ll ← set_prev ll (ll_head ll) (ll_tail ll);
    Ok (set_len ll (ll_len ll - 1))
  else if (idx =? ll_len ll - 1)%nat then
    tl ← node_at ll (ll_tail ll);
    let temp := ll_prev tl in
    ll ← free_node ll (ll_tail ll);
    let ll := set_tail ll temp in
    ll ← set_next ll (ll_tail ll) (ll_head ll);
    Ok (set_len ll (ll_len ll - 1))
  else
    '(cur, next) ← walk2 ll idx (ll_head ll) (ll_head ll);
    let remove := next in
    rm ← node_at ll remove;
    let next := ll_next rm in
    ll ← set_next ll cur next;
    ll ← set_prev ll next cur;
    let ll := set_len ll (ll_len ll - 1) in
    free_node ll remove.

Definition linked_list_remove (ll : llist) (idx : nat) : res llist :=
  linked_list_remove_internal ll idx.

(** [for (i < len) { if (lleq(cur->element, elem)) return i; cur = cur->next; }],
    [None] being the return value -1. *)
Fixpoint index_of_loop (ll : llist) (n i : nat) (cur : option loc) (elem : T)
    : res (option nat) :=
  match n with
  | O => Ok None
  | S n' =>
      nd ← node_at ll cur;
      if lleq (element nd) elem then Ok (Some i)
      else index_of_loop ll n' (S i) (ll_next nd) elem
  end.

Definition linked_list_index_of (ll : llist) (elem : T) : res (option nat) :=
  index_of_loop ll (ll_len ll) 0 (ll_head ll) elem.

Definition linked_list_contains (ll : llist) (elem : T) : res bool :=
  o ← linked_list_index_of ll elem; Ok (bool_decide (is_Some o)).

Definition linked_list_remove_elem (ll : llist) (elem : T) : res llist :=
  o ← linked_list_index_of ll elem;
  match o with
  | None => Exit
  | Some idx => linked_list_remove_internal ll idx
  end.

(** [for (i < idx) cur = cur->next;] *)
Fixpoint walk (ll : llist) (n : nat) (cur : option loc) : res (option loc) :=
  match n with
  | O => Ok cur
  | S n' => nd ← node_at ll cur; walk ll n' (ll_next nd)
  end.

Definition linked_list_get (ll : llist) (idx : nat) : res T :=
  if (ll_len ll <=? idx)%nat then Exit
  else cur ← walk ll idx (ll_head ll); nd ← node_at ll cur; Ok (element nd).

Definition linked_list_take (ll : llist) (idx : nat) : res (T * llist) :=
  result ← linked_list_get ll idx;
  ll ← linked_list_remove_internal ll idx;
  Ok (result, ll).

Definition queue_pop (ll : llist) : res (T * llist) :=
  hd ← node_at ll (ll_head ll);
  ll ← linked_list_remove_internal ll 0;
  Ok (element hd, ll).

Definition stack_pop (ll : llist) : res (T * llist) :=
  tl ← node_at ll (ll_tail ll);
  ll ← linked_list_remove_internal ll (ll_len ll - 1);
  Ok (element tl, ll).

(** What [move_back] does at the [i]-th node from the tail, [cur], when its
    element is the one searched for. *)
Definition move_to_back (ll : llist) (i : nat) (cur : option loc) (nd : llnode) : res llist :=
  if negb (i =? ll_len ll - 1)%nat then
    if (i =? 0)%nat then
      let ll := set_tail ll (ll_head ll) in
      hd ← node_at ll (ll_head ll);
      Ok (set_head ll (ll_next hd))
    else
      ll ← set_prev ll (ll_next nd) (ll_prev nd);
      nd ← node_at ll cur;
      ll ← set_next ll (ll_prev nd) (ll_next nd);
      ll ← set_next ll cur (ll_head ll);
      ll ← set_prev ll cur (ll_tail ll);
      ll ← set_next ll (ll_tail ll) cur;
      ll ← set_prev ll (ll_head ll) cur;
      Ok (set_tail ll cur)
  else Ok ll.

(** The search of [move_back]: it walks from the tail along the [prev] links, and
    [i] counts from the tail. *)
Fixpoint move_back_loop (ll : llist) (n i : nat) (cur : option loc) (elem : T)
    : res (option llist) :=
  match n with
  | O => Ok None
  | S n' =>
      nd ← node_at ll cur;
      if lleq (element nd) elem then
        ll ← move_to_back ll i cur nd; Ok (Some ll)
      else move_back_loop ll n' (S i) (ll_prev nd) elem
  end.

Definition queue_move_back (ll : llist) (elem : T) : res llist :=
  o ← move_back_loop ll (ll_len ll) 0 (ll_tail ll) elem;
  match o with
  | Some ll => Ok ll
  | None => linked_list_append ll elem
  end.

(** [destroy] frees [len] nodes from the head on and leaves no node behind. *)
Fixpoint destroy_loop (ll : llist) (n : nat) (cur : option loc) : res llist :=
  match n with
  | O => Ok ll
  | S n' =>
      nd ← node_at ll cur;
      ll ← free_node ll cur;
      destroy_loop ll n' (ll_next nd)
  end.

Definition linked_list_destroy (ll : llist) : res llist :=
  destroy_loop ll (ll_len ll) (ll_head ll).
End LinkedList.
Arguments llist T : clear implicits.
Arguments llnode T : clear implicits.

(** ** Specification: the operations on lists of elements *)

Section Spec.
Context {T : Type}.
Variable lleq : T -> T -> bool.

Definition spec_insert (xs : list T) (elem : T) (idx : nat) : list T :=
  take idx xs ++ elem :: drop idx xs.

Definition spec_remove (xs : list T) (idx : nat) : list T :=
  take idx xs ++ drop (S idx) xs.

(** The first index, from [i] on, of an element equal to [elem]. *)
Fixpoint spec_index_from (i : nat) (xs : list T) (elem : T) : option nat :=
  match xs with
  | [] => None
  | x :: xs' => if lleq x elem then Some i else spec_index_from (S i) xs' elem
  end.
Definition spec_index_of (xs : list T) (elem : T) : option nat :=
  spec_index_from 0 xs elem.

(** What [move_back] does to the list.  The index [i] of the element is counted
    from the back: at the back the list is rotated by one, at the front nothing
    happens, in between the element moves to the back, and an element that is
    not in the list is appended. *)
Definition spec_move_back (xs : list T) (elem : T) : list T :=
  match spec_index_of (reverse xs) elem with
  | None => xs ++ [elem]
  | Some i =>
      if (i =? length xs - 1)%nat then xs
      else if (i =? 0)%nat then drop 1 xs ++ take 1 xs
      else spec_remove xs (length xs - 1 - i)
             ++ take 1 (drop (length xs - 1 - i) xs)
  end.
End Spec.

(** ** Representation *)

Create Rewrite HintDb ll_mem.

Section Rep.
Context {T : Type}.
Implicit Types (ll : llist T) (xs : list T) (ps : list loc) (p q : loc).

Definition elt ll p : option T := element <$> cells ll !! p.
Definition nxt ll p : option (option loc) := ll_next <$> cells ll !! p.
Definition prv ll p : option (option loc) := ll_prev <$> cells ll !! p.

(** [p] and [q] are neighbours in [ps]. *)
Definition adj ps p q : Prop := exists i, ps !! i = Some p /\ ps !! S i = Some q.

(** The nodes at [ps] hold [xs], and neighbours are linked in both directions. *)
Record chain ll ps xs : Prop := Chain {
  chain_nodup : NoDup ps;
  chain_elt : map (elt ll) ps = map Some xs;
  chain_links : forall p q, adj ps p q ->
    nxt ll p = Some (Some q) /\ prv ll q = Some (Some p) }.

Record rep_at ll ps xs : Prop := RepAt {
  rep_head : ll_head ll = head ps;
  rep_tail : ll_tail ll = last ps;
  rep_len : ll_len ll = length xs;
  rep_fresh : forall p, p ∈ ps -> (p < brk ll)%nat;
  rep_dom : forall p, p ∉ ps -> elt ll p = None;
  rep_chain : chain ll ps xs }.

Definition rep ll xs : Prop := exists ps, rep_at ll ps xs.

Definition closes ll ps : Prop :=
  forall f l, head ps = Some f -> last ps = Some l ->
    nxt ll l = Some (Some f) /\ prv ll f = Some (Some l).

(** The list is circular: the two links between its ends are right as well. *)
Definition ring ll xs : Prop := exists ps, rep_at ll ps xs /\ closes ll ps.

(** The effect of the memory operations on nodes that exist. *)
Definition w_next ll p (q : option loc) : llist T :=
  set_cells ll (alter (fun n => LLNode (element n) (ll_prev n) q) p (cells ll)).
Definition w_prev ll p (q : option loc) : llist T :=
  set_cells ll (alter (fun n => LLNode (element n) q (ll_next n)) p (cells ll)).
Definition w_free ll p : llist T := set_cells ll (delete p (cells ll)).

Lemma elt_w_next ll p (q : option loc) r : elt (w_next ll p q) r = elt ll r.
Proof.
  unfold elt, w_next. simpl. rewrite lookup_alter. case_decide; [subst|done].
  by destruct (cells ll !! r).
Qed.
Lemma elt_w_prev ll p (q : option loc) r : elt (w_prev ll p q) r = elt ll r.
Proof.
  unfold elt, w_prev. simpl. rewrite lookup_alter. case_decide; [subst|done].
  by destruct (cells ll !! r).
Qed.
Lemma nxt_w_prev ll p (q : option loc) r : nxt (w_prev ll p q) r = nxt ll r.
Proof.
  unfold nxt, w_prev. simpl. rewrite lookup_alter. case_decide; [subst|done].
  by destruct (cells ll !! r).
Qed.
Lemma prv_w_next ll p (q : option loc) r : prv (w_next ll p q) r = prv ll r.
Proof.
  unfold prv, w_next. simpl. rewrite lookup_alter. case_decide; [subst|done].
  by destruct (cells ll !! r).
Qed.
Lemma nxt_w_next ll p (q : option loc) r :
  nxt (w_next ll p q) r = if decide (p = r) then (fun _ => q) <$> elt ll r else nxt ll r.
Proof.
  unfold nxt, elt, w_next. simpl. rewrite lookup_alter. case_decide; [subst|done].
  by destruct (cells ll !! r).
Qed.
Lemma prv_w_prev ll p (q : option loc) r :
  prv (w_prev ll p q) r = if decide (p = r) then (fun _ => q) <$> elt ll r else prv ll r.
Proof.
  unfold prv, elt, w_prev. simpl. rewrite lookup_alter. case_decide; [subst|done].
  by destruct (cells ll !! r).
Qed.
Lemma elt_w_free ll p r : elt (w_free ll p) r = if decide (p = r) then None else elt ll r.
Proof. unfold elt, w_free. simpl. rewrite lookup_delete. by case_decide. Qed.
Lemma nxt_w_free ll p r : nxt (w_free ll p) r = if decide (p = r) then None else nxt ll r.
Proof. unfold nxt, w_free. simpl. rewrite lookup_delete. by case_decide. Qed.
Lemma prv_w_free ll p r : prv (w_free ll p) r = if decide (p = r) then None else prv ll r.
Proof. unfold prv, w_free. simpl. rewrite lookup_delete. by case_decide. Qed.

Lemma set_next_ok ll p (q : option loc) x : elt ll p = Some x -> set_next ll (Some p) q = Ok (w_next ll p q).
Proof.
  unfold elt, set_next, w_next. simpl. intros H.
  destruct (cells ll !! p) as [n|] eqn:E; [|done]. simpl. do 2 f_equal.
  apply map_eq. intros r. rewrite lookup_alter. case_decide; subst.
  - by rewrite lookup_insert_eq, E.
  - by rewrite lookup_insert_ne.
Qed.
Lemma set_prev_ok ll p (q : option loc) x : elt ll p = Some x -> set_prev ll (Some p) q = Ok (w_prev ll p q).
Proof.
  unfold elt, set_prev, w_prev. simpl. intros H.
  destruct (cells ll !! p) as [n|] eqn:E; [|done]. simpl. do 2 f_equal.
  apply map_eq. intros r. rewrite lookup_alter. case_decide; subst.
  - by rewrite lookup_insert_eq, E.
  - by rewrite lookup_insert_ne.
Qed.
Lemma free_node_ok ll p x : elt ll p = Some x -> free_node ll (Some p) = Ok (w_free ll p).
Proof.
  unfold elt, free_node, w_free. simpl. intros H. by destruct (cells ll !! p).
Qed.
Lemma node_at_ok ll p x :
  elt ll p = Some x ->
  exists n, node_at ll (Some p) = Ok n /\ element n = x /\
    nxt ll p = Some (ll_next n) /\ prv ll p = Some (ll_prev n).
Proof.
  unfold elt, nxt, prv, node_at. simpl. destruct (cells ll !! p) as [n|]; simpl; [|done].
  intros [= <-]. eauto.
Qed.

(** Neighbours of a concatenation. *)
Lemma adj_app l1 l2 p q :
  adj (l1 ++ l2) p q <-> adj l1 p q \/ adj l2 p q \/ (last l1 = Some p /\ head l2 = Some q).
Proof.
  unfold adj. split.
  - intros (i & Hp & Hq). destruct (decide (S i < length l1)%nat) as [H1|H1].
    + left. exists i. rewrite lookup_app_l in Hp, Hq by lia. done.
    + destruct (decide (length l1 <= i)%nat).
      * right; left. exists (i - length l1)%nat. rewrite lookup_app_r in Hp, Hq by lia.
        by replace (S (i - length l1)) with (S i - length l1)%nat by lia.
      * right; right. rewrite lookup_app_l in Hp by lia. rewrite lookup_app_r in Hq by lia.
        replace (S i - length l1)%nat with 0%nat in Hq by lia.
        rewrite last_lookup. replace (pred (length l1)) with i by lia.
        split; [done|]. by destruct l2.
  - intros [(i & Hp & Hq)|[(i & Hp & Hq)|[Hl Hh]]].
    + exists i. by rewrite !lookup_app_l by eauto using lookup_lt_Some.
    + exists (length l1 + i)%nat. rewrite !lookup_app_r by lia.
      split; rewrite <- ?Hp, <- ?Hq; f_equal; lia.
    + rewrite last_lookup in Hl. pose proof (lookup_lt_Some _ _ _ Hl).
      exists (pred (length l1)). rewrite lookup_app_l by lia. split; [done|].
      rewrite lookup_app_r by lia. replace (S (pred (length l1)) - length l1)%nat with 0%nat by lia.
      by destruct l2.
Qed.
Lemma adj_nil p q : adj [] p q <-> False.
Proof. split; [|done]. intros (i & H & _). by rewrite lookup_nil in H. Qed.
Lemma adj_single r p q : adj [r] p q <-> False.
Proof. split; [|done]. intros (i & _ & H). simpl in H. by rewrite lookup_nil in H. Qed.
Lemma adj_cons r l p q : adj (r :: l) p q <-> (p = r /\ head l = Some q) \/ adj l p q.
Proof.
  change (r :: l) with ([r] ++ l). rewrite adj_app, adj_single. simpl.
  split; intros H; destruct_or?; destruct_and?; simplify_eq; naive_solver.
Qed.
Lemma adj_elem l p q : adj l p q -> p ∈ l /\ q ∈ l.
Proof. intros (i & H1 & H2). eauto using list_elem_of_lookup_2. Qed.
Lemma last_elem l p : last l = Some p -> p ∈ l.
Proof. rewrite last_lookup. apply list_elem_of_lookup_2. Qed.
Lemma head_elem l p : head l = Some p -> p ∈ l.
Proof. destruct l; simpl; [done|]. intros [= ->]. apply list_elem_of_here. Qed.
End Rep.

#[export] Hint Rewrite @elt_w_next @elt_w_prev @nxt_w_prev @prv_w_next @nxt_w_next
  @prv_w_prev @elt_w_free @nxt_w_free @prv_w_free : ll_mem.

(** ** Lemmas on memory effects and neighbours *)

Section RepLemmas.
Context {T : Type}.
Implicit Types (ll : llist T) (xs : list T) (ps : list loc) (p q : loc).

Definition w_new ll (e : T) : llist T := (new_node ll e).2.

Lemma elt_w_new ll e r : elt (w_new ll e) r = if decide (brk ll = r) then Some e else elt ll r.
Proof. unfold elt, w_new. simpl. rewrite lookup_insert. by case_decide. Qed.
Lemma nxt_w_new ll e r : nxt (w_new ll e) r = if decide (brk ll = r) then Some None else nxt ll r.
Proof. unfold nxt, w_new. simpl. rewrite lookup_insert. by case_decide. Qed.
Lemma prv_w_new ll e r : prv (w_new ll e) r = if decide (brk ll = r) then Some None else prv ll r.
Proof. unfold prv, w_new. simpl. rewrite lookup_insert. by case_decide. Qed.
Lemma elt_set_head ll h r : elt (set_head ll h) r = elt ll r. Proof. done. Qed.
Lemma nxt_set_head ll h r : nxt (set_head ll h) r = nxt ll r. Proof. done. Qed.
Lemma prv_set_head ll h r : prv (set_head ll h) r = prv ll r. Proof. done. Qed.
Lemma elt_set_tail ll h r : elt (set_tail ll h) r = elt ll r. Proof. done. Qed.
Lemma nxt_set_tail ll h r : nxt (set_tail ll h) r = nxt ll r. Proof. done. Qed.
Lemma prv_set_tail ll h r : prv (set_tail ll h) r = prv ll r. Proof. done. Qed.
Lemma elt_set_len ll n r : elt (set_len ll n) r = elt ll r. Proof. done. Qed.
Lemma nxt_set_len ll n r : nxt (set_len ll n) r = nxt ll r. Proof. done. Qed.
Lemma prv_set_len ll n r : prv (set_len ll n) r = prv ll r. Proof. done. Qed.

Lemma adj_last_ne ps p q : NoDup ps -> adj ps p q -> last ps <> Some p.
Proof.
  intros Hnd (i & Hp & Hq) Hl. rewrite last_lookup in Hl.
  pose proof (NoDup_lookup _ _ _ _ Hnd Hp Hl). apply lookup_lt_Some in Hq. lia.
Qed.
Lemma adj_head_ne ps p q : NoDup ps -> adj ps p q -> head ps <> Some q.
Proof.
  intros Hnd (i & Hp & Hq) Hh. rewrite head_lookup in Hh.
  by pose proof (NoDup_lookup _ _ _ _ Hnd Hq Hh).
Qed.
Lemma adj_ne ps p q : NoDup ps -> adj ps p q -> p <> q.
Proof.
  intros Hnd (i & Hp & Hq) ->. pose proof (NoDup_lookup _ _ _ _ Hnd Hp Hq). lia.
Qed.

(** A node of a chain has an element. *)
Lemma chain_elt_Some ll ps xs i p :
  chain ll ps xs -> ps !! i = Some p -> exists x, elt ll p = Some x /\ xs !! i = Some x.
Proof.
  intros R Hp. pose proof (chain_elt _ _ _ R) as E.
  apply (f_equal (lookup i)) in E. rewrite !list_lookup_fmap, Hp in E. simpl in E.
  destruct (xs !! i) as [x|]; simpl in E; [|done]. injection E as E. eauto.
Qed.
Lemma chain_elt_in ll ps xs p : chain ll ps xs -> p ∈ ps -> exists x, elt ll p = Some x.
Proof.
  intros R (i & Hi)%list_elem_of_lookup_1.
  destruct (chain_elt_Some _ _ _ _ _ R Hi) as (x & H & _). eauto.
Qed.
Lemma chain_length ll ps xs : chain ll ps xs -> length ps = length xs.
Proof.
  intros R. pose proof (f_equal length (chain_elt _ _ _ R)) as E.
  by rewrite !length_map in E.
Qed.

(** A chain depends on the fields of its own nodes only, and not on the links at
    its ends. *)
Lemma chain_frame ll ll' ps xs :
  chain ll ps xs ->
  (forall p, p ∈ ps -> elt ll' p = elt ll p) ->
  (forall p, p ∈ ps -> last ps <> Some p -> nxt ll' p = nxt ll p) ->
  (forall p, p ∈ ps -> head ps <> Some p -> prv ll' p = prv ll p) ->
  chain ll' ps xs.
Proof.
  intros C He Hn Hp. split; [apply C| |].
  - rewrite <- (chain_elt _ _ _ C). apply map_ext_in. intros p Hin.
    apply He. by apply list_elem_of_In.
  - intros p q Ha. destruct (adj_elem _ _ _ Ha). pose proof (chain_nodup _ _ _ C) as Hnd.
    rewrite Hn by eauto using adj_last_ne. rewrite Hp by eauto using adj_head_ne.
    by apply (chain_links _ _ _ C).
Qed.
Lemma chain_nil ll : chain ll [] [].
Proof. split; [constructor|done|]. intros p q H. by apply adj_nil in H. Qed.
Lemma chain_single ll p x : elt ll p = Some x -> chain ll [p] [x].
Proof.
  intros H. split; [apply NoDup_singleton|simpl; by rewrite H|].
  intros a b Hab. by apply adj_single in Hab.
Qed.

(** Chains are joined by a link between the end of one and the start of the other. *)
Lemma chain_app ll l1 l2 (xs1 xs2 : list T) :
  chain ll l1 xs1 -> chain ll l2 xs2 ->
  (forall p, p ∈ l1 -> p ∉ l2) ->
  (forall p q, last l1 = Some p -> head l2 = Some q ->
     nxt ll p = Some (Some q) /\ prv ll q = Some (Some p)) ->
  chain ll (l1 ++ l2) (xs1 ++ xs2).
Proof.
  intros C1 C2 Hd Hj. split.
  - apply NoDup_app. split_and!; [apply C1|done|apply C2].
  - by rewrite !map_app, (chain_elt _ _ _ C1), (chain_elt _ _ _ C2).
  - intros p q. rewrite adj_app. intros [H|[H|[H1 H2]]].
    + by apply (chain_links _ _ _ C1).
    + by apply (chain_links _ _ _ C2).
    + by apply Hj.
Qed.
Lemma chain_app_inv ll l1 l2 xs :
  chain ll (l1 ++ l2) xs ->
  chain ll l1 (take (length l1) xs) /\ chain ll l2 (drop (length l1) xs).
Proof.
  intros C. destruct (NoDup_app l1 l2) as [Hnd _].
  destruct (Hnd (chain_nodup _ _ _ C)) as (N1 & Hd & N2).
  pose proof (chain_elt _ _ _ C) as E. pose proof (chain_length _ _ _ C) as L.
  rewrite <- (take_drop (length l1) xs), !map_app in E.
  apply app_inj_1 in E as [E1 E2].
  - split; split; try done; intros p q Ha; apply (chain_links _ _ _ C);
      rewrite adj_app; tauto.
  - rewrite !length_map, length_take. rewrite length_app in L. lia.
Qed.
Lemma chain_join ll l1 l2 xs p q :
  chain ll (l1 ++ l2) xs -> last l1 = Some p -> head l2 = Some q ->
  nxt ll p = Some (Some q) /\ prv ll q = Some (Some p).
Proof. intros C H1 H2. apply (chain_links _ _ _ C). rewrite adj_app. tauto. Qed.

Lemma rep_ll_len ll xs : rep ll xs -> ll_len ll = length xs.
Proof. intros [ps R]. apply (rep_len _ _ _ R). Qed.
Lemma ring_rep ll xs : ring ll xs -> rep ll xs.
Proof. intros (ps & R & _). by exists ps. Qed.
Lemma last_head_nonempty ps l : last ps = Some l -> exists f, head ps = Some f.
Proof. destruct ps; simpl; [done|]. eauto. Qed.
End RepLemmas.

#[export] Hint Rewrite @elt_w_new @nxt_w_new @prv_w_new @elt_set_head @nxt_set_head
  @prv_set_head @elt_set_tail @nxt_set_tail @prv_set_tail @elt_set_len @nxt_set_len
  @prv_set_len : ll_mem.

(** Compute the fields of an updated list; decide equalities of addresses. *)
Ltac mem := autorewrite with ll_mem in *; simpl.
Ltac mem_cases := mem; repeat (case_decide; subst; try done; simpl).

Ltac mem_ne := repeat first [rewrite decide_True by congruence | rewrite decide_False by congruence].

(** ** Refinement: create, append, push *)

Section Refine.
Context {T : Type}.
Implicit Types (ll : llist T) (xs : list T) (ps : list loc) (p q : loc).

Lemma create_ring : ring (linked_list_create (T := T)) [].
Proof.
  exists []. split; [|done]. split; try done.
  - intros p H. by apply elem_of_nil in H.
  - apply chain_nil.
Qed.

Lemma fresh_not_in ll ps xs : rep_at ll ps xs -> brk ll ∉ ps.
Proof. intros R H. apply (rep_fresh _ _ _ R) in H. lia. Qed.

(** A new node that is linked to its neighbours extends the representation. *)
Lemma insert_rep ll ll' l1 l2 xs x new :
  rep_at ll (l1 ++ l2) xs -> new = brk ll ->
  ll_head ll' = head (l1 ++ new :: l2) -> ll_tail ll' = last (l1 ++ new :: l2) ->
  ll_len ll' = S (ll_len ll) -> brk ll' = S (brk ll) ->
  (forall p, elt ll' p = if decide (new = p) then Some x else elt ll p) ->
  (forall p, p ∈ l1 ++ l2 -> last l1 <> Some p -> last (l1 ++ l2) <> Some p ->
     nxt ll' p = nxt ll p) ->
  (forall p, p ∈ l1 ++ l2 -> head l2 <> Some p -> head (l1 ++ l2) <> Some p ->
     prv ll' p = prv ll p) ->
  (forall p, last l1 = Some p -> nxt ll' p = Some (Some new) /\ prv ll' new = Some (Some p)) ->
  (forall q, head l2 = Some q -> nxt ll' new = Some (Some q) /\ prv ll' q = Some (Some new)) ->
  rep_at ll' (l1 ++ new :: l2) (spec_insert xs x (length l1)).
Proof.
  intros R -> Hh Ht Hl Hb He Hn Hp J1 J2. pose proof (fresh_not_in _ _ _ R) as Hf.
  pose proof (rep_chain _ _ _ R) as C.
  destruct (chain_app_inv _ _ _ _ C) as [C1 C2].
  assert (Hd : forall p, p ∈ l1 -> p ∉ l2).
  { pose proof (chain_nodup _ _ _ C) as N. apply NoDup_app in N. apply N. }
  rewrite elem_of_app in Hf.
  split; [done|done| | | |].
  - rewrite Hl, (rep_len _ _ _ R). unfold spec_insert.
    rewrite length_app. simpl. rewrite length_take, length_drop. lia.
  - intros p. rewrite elem_of_app, elem_of_cons, Hb. intros Hi.
    assert (p ∈ l1 ++ l2 \/ p = brk ll) as [H| ->] by (rewrite elem_of_app; tauto); [|lia].
    apply (rep_fresh _ _ _ R) in H. lia.
  - intros p. rewrite elem_of_app, elem_of_cons, He. intros Hi.
    rewrite decide_False by (intros <-; tauto). apply (rep_dom _ _ _ R).
    rewrite elem_of_app. tauto.
  - apply chain_app; [|change (brk ll :: l2) with ([brk ll] ++ l2); apply (chain_app _ [_] _ [x])| |].
    + apply (chain_frame ll); [done| | |].
      * intros p H. rewrite He, decide_False; [done|]. intros <-. tauto.
      * intros p H1 H2. apply Hn; [rewrite elem_of_app; tauto|done|].
        rewrite last_app. destruct (last l2) eqn:E; [|done].
        intros [= ->]. apply (Hd p H1). by apply last_elem.
      * intros p H1 H2. apply Hp; [rewrite elem_of_app; tauto| |].
        -- intros E. apply (Hd p H1). by apply head_elem.
        -- rewrite head_app. destruct (head l1) eqn:E; [congruence|].
           destruct l1; [by apply elem_of_nil in H1|done].
    + apply chain_single. rewrite He. by rewrite decide_True.
    + apply (chain_frame ll); [done| | |].
      * intros p H. rewrite He, decide_False; [done|]. intros <-. tauto.
      * intros p H1 H2. apply Hn; [rewrite elem_of_app; tauto| |].
        -- intros E. apply (Hd p); [by apply last_elem|done].
        -- rewrite last_app. destruct (last l2) eqn:E; [congruence|].
           apply last_None in E as ->. by apply elem_of_nil in H1.
      * intros p H1 H2. apply Hp; [rewrite elem_of_app; tauto|done|].
        rewrite head_app. destruct (head l1) eqn:E; [|done].
        intros [= ->]. apply (Hd p); [by apply head_elem|done].
    + intros p ->%list_elem_of_singleton. tauto.
    + simpl. intros p q [= <-] Hq. by apply J2.
    + intros p H. rewrite elem_of_cons. intros [-> |H']; [tauto|]. by apply (Hd p).
    + simpl. intros p q H [= <-]. by apply J1.
Qed.

(** Unlinking a node. *)
Lemma remove_rep ll ll' l1 l2 xs r :
  rep_at ll (l1 ++ r :: l2) xs ->
  ll_head ll' = head (l1 ++ l2) -> ll_tail ll' = last (l1 ++ l2) ->
  ll_len ll' = (ll_len ll - 1)%nat -> brk ll' = brk ll ->
  (forall p, elt ll' p = if decide (r = p) then None else elt ll p) ->
  (forall p, r <> p -> last l1 <> Some p -> last l2 <> Some p -> nxt ll' p = nxt ll p) ->
  (forall p, r <> p -> head l1 <> Some p -> head l2 <> Some p -> prv ll' p = prv ll p) ->
  (forall p q, last l1 = Some p -> head l2 = Some q ->
     nxt ll' p = Some (Some q) /\ prv ll' q = Some (Some p)) ->
  rep_at ll' (l1 ++ l2) (spec_remove xs (length l1)).
Proof.
  intros R Hh Ht Hl Hb He Hn Hp J.
  pose proof (rep_chain _ _ _ R) as C. pose proof (chain_length _ _ _ C) as L.
  destruct (chain_app_inv _ _ _ _ C) as [C1 C2].
  destruct (chain_app_inv _ [r] _ _ C2) as [_ C3].
  rewrite length_app in L. simpl in L.
  pose proof (chain_nodup _ _ _ C) as N. apply NoDup_app in N as (N1 & Hd & N2).
  apply NoDup_cons in N2 as [N2 N3].
  assert (Hr1 : r ∉ l1) by (intros H; apply (Hd r H); apply list_elem_of_here).
  assert (Hd' : forall p, p ∈ l1 -> p ∉ l2)
    by (intros p H H'; apply (Hd p H); by apply list_elem_of_further).
  split; [done|done| | | |].
  - rewrite Hl, (rep_len _ _ _ R). unfold spec_remove.
    rewrite length_app, length_take, length_drop. lia.
  - intros p H. rewrite Hb. apply (rep_fresh _ _ _ R). set_solver.
  - intros p H. rewrite He. case_decide as E; [done|]. apply (rep_dom _ _ _ R). set_solver.
  - unfold spec_remove. replace (drop (S (length l1)) xs) with (drop (length [r]) (drop (length l1) xs))
      by (rewrite drop_drop; f_equal; simpl; lia).
    apply chain_app; [| |exact Hd'|exact J].
    + apply (chain_frame ll); [done| | |].
      * intros p H. rewrite He, decide_False; [done|set_solver].
      * intros p H1 H2. apply Hn; [set_solver|done|].
        intros E%last_elem. by apply (Hd' p).
      * intros p H1 H2. apply Hp; [set_solver|done|].
        intros E%head_elem. by apply (Hd' p).
    + apply (chain_frame ll); [done| | |].
      * intros p H. rewrite He, decide_False; [done|set_solver].
      * intros p H1 H2. apply Hn; [set_solver| |done].
        intros E%last_elem. by apply (Hd' p).
      * intros p H1 H2. apply Hp; [set_solver| |done].
        intros E%head_elem. by apply (Hd' p).
Qed.

(** A new last node, properly linked, extends the representation and closes the
    circle. *)
Lemma snoc_ring ll ll' ps xs x new :
  rep_at ll ps xs -> new = brk ll ->
  ll_head ll' = head (ps ++ [new]) -> ll_tail ll' = Some new ->
  ll_len ll' = S (ll_len ll) -> brk ll' = S (brk ll) ->
  (forall p, elt ll' p = if decide (new = p) then Some x else elt ll p) ->
  (forall p, p ∈ ps -> last ps <> Some p -> nxt ll' p = nxt ll p) ->
  (forall p, p ∈ ps -> head ps <> Some p -> prv ll' p = prv ll p) ->
  (forall l, last ps = Some l -> nxt ll' l = Some (Some new) /\ prv ll' new = Some (Some l)) ->
  (forall f, head (ps ++ [new]) = Some f ->
     nxt ll' new = Some (Some f) /\ prv ll' f = Some (Some new)) ->
  ring ll' (xs ++ [x]).
Proof.
  intros R Hnew Hh Ht Hl Hb He Hn Hp Hj Hc. pose proof (chain_length _ _ _ (rep_chain _ _ _ R)).
  exists (ps ++ [new]). split.
  - replace (xs ++ [x]) with (spec_insert xs x (length ps)).
    2:{ unfold spec_insert. by rewrite take_ge, drop_ge by lia. }
    apply (insert_rep ll); rewrite ?app_nil_r; try done.
    + by rewrite last_snoc.
    + intros p Hi H1 H2. by apply Hn.
    + intros p Hi H1 H2. by apply Hp.
  - intros f l H1 H2. rewrite last_snoc in H2. injection H2 as <-. by apply Hc.
Qed.

Lemma append_ring ll xs x :
  rep ll xs -> exists ll', linked_list_append ll x = Ok ll' /\ ring ll' (xs ++ [x]).
Proof.
  intros [ps R]. pose proof (fresh_not_in _ _ _ R) as Hf.
  unfold linked_list_append. change (new_node ll x) with (brk ll, w_new ll x).
  pose proof (rep_head _ _ _ R) as Hh. pose proof (rep_tail _ _ _ R) as Ht.
  destruct (last ps) as [l|] eqn:El.
  - destruct (last_head_nonempty _ _ El) as [f Eh]. rewrite Eh in Hh.
    pose proof (head_elem _ _ Eh) as Hfi. pose proof (last_elem _ _ El) as Hli.
    destruct (chain_elt_in _ _ _ f (rep_chain _ _ _ R) Hfi) as [xf Hxf].
    destruct (chain_elt_in _ _ _ l (rep_chain _ _ _ R) Hli) as [xl Hxl].
    simpl. rewrite Ht. rewrite bool_decide_false by done.
    rewrite (set_prev_ok _ _ _ x) by (mem; by mem_ne). simpl. rewrite Hh.
    rewrite (set_next_ok _ _ _ x) by (mem; by mem_ne). simpl. rewrite Ht.
    rewrite (set_next_ok _ _ _ xl) by (mem; by mem_ne). simpl. rewrite Hh.
    rewrite (set_prev_ok _ _ _ xf) by (mem; by mem_ne). simpl.
    eexists. split; [reflexivity|]. eapply (snoc_ring ll _ ps); try done; simpl.
    + by rewrite Hh, head_app, Eh.
    + intros p. by mem.
    + intros p Hp Hl. mem. by mem_ne.
    + intros p Hp Hl. mem. by mem_ne.
    + intros l' Hl'. assert (l' = l) as -> by congruence. mem. rewrite Hxl. by mem_ne.
    + intros f' Hf'. rewrite head_app, Eh in Hf'. injection Hf' as <-. mem. rewrite Hxf.
      by mem_ne.
  - apply last_None in El. subst ps. simpl in *. rewrite Ht. simpl.
    rewrite (set_next_ok _ _ _ x) by (mem; by mem_ne). simpl.
    rewrite (set_prev_ok _ _ _ x) by (mem; by mem_ne). simpl.
    eexists. split; [reflexivity|]. eapply (snoc_ring ll _ []); try done; simpl.
    + intros p. by mem.
    + intros p Hp. by apply elem_of_nil in Hp.
    + intros p Hp. by apply elem_of_nil in Hp.
    + intros f [= <-]. mem. by mem_ne.
Qed.

(** *** Walking *)

Lemma chain_node ll ps xs i p :
  chain ll ps xs -> ps !! i = Some p ->
  exists n, node_at ll (Some p) = Ok n /\ xs !! i = Some (element n) /\
    (forall q, ps !! S i = Some q -> ll_next n = Some q) /\
    (forall j q, i = S j -> ps !! j = Some q -> ll_prev n = Some q).
Proof.
  intros C Hp. destruct (chain_elt_Some _ _ _ _ _ C Hp) as (x & Hx & Hxs).
  destruct (node_at_ok _ _ _ Hx) as (n & Hn & He & Hnx & Hpv). exists n. split_and!; [done|congruence| |].
  - intros q Hq. destruct (chain_links _ _ _ C p q) as [H _]; [by exists i|congruence].
  - intros j q -> Hq. destruct (chain_links _ _ _ C q p) as [_ H]; [by exists j|congruence].
Qed.

Lemma walk_ok ll ps xs n i :
  chain ll ps xs -> (i + n < length ps)%nat -> walk ll n (ps !! i) = Ok (ps !! (i + n)%nat).
Proof.
  intros C. revert i. induction n as [|n IH]; intros i Hi; simpl; [by rewrite Nat.add_0_r|].
  destruct (lookup_lt_is_Some_2 ps i) as [p Hp]; [lia|].
  destruct (lookup_lt_is_Some_2 ps (S i)) as [q Hq]; [lia|].
  destruct (chain_node _ _ _ _ _ C Hp) as (nd & Hn & _ & Hnx & _).
  rewrite Hp, Hn. simpl. rewrite (Hnx q Hq), <- Hq, IH by lia. do 2 f_equal. lia.
Qed.

Lemma walk2_ok ll ps xs n i cur :
  chain ll ps xs -> (i + S n < length ps)%nat ->
  walk2 ll (S n) cur (ps !! i) = Ok (ps !! (i + n)%nat, ps !! S (i + n)).
Proof.
  intros C. revert i cur. induction n as [|n IH]; intros i cur Hi;
    destruct (lookup_lt_is_Some_2 ps i) as [p Hp]; try lia;
    destruct (lookup_lt_is_Some_2 ps (S i)) as [q Hq]; try lia;
    destruct (chain_node _ _ _ _ _ C Hp) as (nd & Hn & _ & Hnx & _).
  - simpl. rewrite Hp, Hn. simpl. by rewrite (Hnx q Hq), Nat.add_0_r, Hp, Hq.
  - remember (S n) as m. simpl. rewrite Hp, Hn. simpl. rewrite (Hnx q Hq), <- Hq. subst m.
    rewrite IH by lia. do 3 f_equal; lia.
Qed.

Lemma get_ok ll xs idx :
  rep ll xs -> linked_list_get ll idx = or_exit (xs !! idx).
Proof.
  intros [ps R]. unfold linked_list_get. rewrite (rep_len _ _ _ R).
  pose proof (rep_chain _ _ _ R) as C. pose proof (chain_length _ _ _ C) as L.
  destruct (length xs <=? idx)%nat eqn:E; bool_prop.
  - by rewrite lookup_ge_None_2 by lia.
  - rewrite (rep_head _ _ _ R), head_lookup. change (ps !! 0%nat) with (ps !! 0%nat).
    rewrite (walk_ok _ _ _ _ _ C) by lia. simpl.
    destruct (lookup_lt_is_Some_2 ps idx) as [p Hp]; [lia|].
    destruct (chain_node _ _ _ _ _ C Hp) as (nd & Hn & Hx & _). by rewrite Hp, Hn, Hx.
Qed.

Section Search.
Variable lleq : T -> T -> bool.

Lemma spec_index_drop xs i elem x :
  xs !! i = Some x ->
  spec_index_from lleq i (drop i xs) elem =
    if lleq x elem then Some i else spec_index_from lleq (S i) (drop (S i) xs) elem.
Proof. intros H. by rewrite (drop_S _ _ _ H). Qed.

Lemma index_of_loop_ok ll ps xs elem n i cur :
  chain ll ps xs -> n = 0%nat \/ cur = ps !! i -> (i + n = length ps)%nat ->
  index_of_loop lleq ll n i cur elem = Ok (spec_index_from lleq i (drop i xs) elem).
Proof.
  intros C. pose proof (chain_length _ _ _ C) as L.
  revert i cur. induction n as [|n IH]; intros i cur Hcur Hi; simpl.
  - by rewrite drop_ge by lia.
  - destruct Hcur as [?| ->]; [lia|].
    destruct (lookup_lt_is_Some_2 ps i) as [p Hp]; [lia|].
    destruct (chain_node _ _ _ _ _ C Hp) as (nd & Hn & Hx & Hnx & _).
    rewrite Hp, Hn. simpl. rewrite (spec_index_drop _ _ _ _ Hx).
    destruct (lleq (element nd) elem); [done|]. apply IH; [|lia].
    destruct n; [by left|right].
    destruct (lookup_lt_is_Some_2 ps (S i)) as [q Hq]; [lia|]. rewrite Hq. by apply Hnx.
Qed.

Lemma index_of_ok ll xs elem :
  rep ll xs -> linked_list_index_of lleq ll elem = Ok (spec_index_of lleq xs elem).
Proof.
  intros [ps R]. unfold linked_list_index_of, spec_index_of.
  pose proof (rep_chain _ _ _ R) as C. pose proof (chain_length _ _ _ C) as L.
  rewrite (rep_len _ _ _ R), (rep_head _ _ _ R), head_lookup.
  apply (index_of_loop_ok _ _ _ _ _ 0 _ C); [by right|lia].
Qed.
End Search.

(** *** Removal *)

Lemma remove_only ll r xs :
  rep_at ll [r] xs ->
  exists ll', linked_list_remove_internal ll 0 = Ok ll' /\ rep ll' (spec_remove xs 0).
Proof.
  intros R. pose proof (chain_length _ _ _ (rep_chain _ _ _ R)) as L. simpl in L.
  destruct (chain_elt_in _ _ _ r (rep_chain _ _ _ R)) as [x Hx]; [by apply list_elem_of_here|].
  unfold linked_list_remove_internal. rewrite (rep_len _ _ _ R), <- L. simpl.
  rewrite (rep_head _ _ _ R). simpl. rewrite (free_node_ok _ _ _ Hx). simpl.
  eexists. split; [reflexivity|]. exists [].
  apply (remove_rep ll _ [] [] xs r); try done; simpl.
  - intros p. by mem.
  - intros p ? _ _. mem. by mem_ne.
  - intros p ? _ _. mem. by mem_ne.
Qed.

Lemma remove_first ll r q l2 xs :
  rep_at ll (r :: q :: l2) xs ->
  exists ll', linked_list_remove_internal ll 0 = Ok ll' /\ rep ll' (spec_remove xs 0).
Proof.
  intros R. pose proof (rep_chain _ _ _ R) as C. pose proof (chain_length _ _ _ C) as L. simpl in L.
  pose proof (chain_nodup _ _ _ C) as N. apply NoDup_cons in N as [N _].
  destruct (chain_node _ _ _ 0 r C) as (nr & Hr & Hx & Hn & _); [done|]. specialize (Hn q eq_refl).
  destruct (chain_elt_in _ _ _ r C) as [x Hxr]; [by apply list_elem_of_here|].
  destruct (chain_elt_in _ _ _ q C) as [y Hy]; [set_solver|].
  assert (r <> q) by set_solver.
  unfold linked_list_remove_internal. rewrite (rep_len _ _ _ R), <- L. simpl.
  rewrite (rep_head _ _ _ R). simpl. rewrite Hr. simpl.
  rewrite (free_node_ok _ _ _ Hxr). simpl. rewrite Hn.
  rewrite (set_prev_ok _ _ _ y) by (mem; by mem_ne). simpl.
  eexists. split; [reflexivity|]. exists (q :: l2).
  apply (remove_rep ll _ [] (q :: l2) xs r); try done; simpl.
  - by rewrite (rep_tail _ _ _ R).
  - intros p. by mem.
  - intros p ? _ ?. mem. by mem_ne.
  - intros p ? _ ?. mem. by mem_ne.
Qed.

Lemma remove_last ll r p l1 xs :
  rep_at ll (l1 ++ [r]) xs -> last l1 = Some p ->
  exists ll', linked_list_remove_internal ll (length l1) = Ok ll' /\
    rep ll' (spec_remove xs (length l1)).
Proof.
  intros R Hp. pose proof (rep_chain _ _ _ R) as C. pose proof (chain_length _ _ _ C) as L.
  rewrite length_app in L. simpl in L.
  pose proof (chain_nodup _ _ _ C) as N. apply NoDup_app in N as (_ & N & _).
  pose proof (last_elem _ _ Hp) as Hpi.
  destruct (list_elem_of_lookup_1 _ _ Hpi) as [j Hj].
  assert (length l1 = S (pred (length l1))) as Hl by (apply lookup_lt_Some in Hj; lia).
  destruct (chain_node _ _ _ (length l1) r C) as (nr & Hr & Hx & _ & Hn).
  { by rewrite lookup_app_r, Nat.sub_diag by lia. }
  specialize (Hn (pred (length l1)) p Hl). rewrite lookup_app_l in Hn by lia.
  rewrite last_lookup in Hp. specialize (Hn Hp). rewrite <- last_lookup in Hp.
  destruct (chain_elt_in _ _ _ r C) as [x Hxr]; [set_solver|].
  destruct (chain_elt_in _ _ _ p C) as [y Hy]; [set_solver|].
  assert (p <> r) by (intros ->; apply (N r Hpi); apply list_elem_of_here).
  unfold linked_list_remove_internal. rewrite (rep_len _ _ _ R), <- L.
  rewrite (proj2 (Nat.leb_gt _ _)) by lia. rewrite (proj2 (Nat.eqb_neq (length l1) 0)) by lia.
  rewrite andb_false_r. rewrite (proj2 (Nat.eqb_eq (length l1) _)) by lia.
  rewrite (rep_tail _ _ _ R), last_snoc, Hr. simpl.
  rewrite (free_node_ok _ _ _ Hxr). simpl. rewrite Hn.
  rewrite (set_next_ok _ _ _ y) by (mem; by mem_ne). simpl.
  eexists. split; [reflexivity|]. exists (l1 ++ []).
  apply (remove_rep ll _ l1 [] xs r); try done; rewrite ?app_nil_r; simpl; try done.
  - rewrite (rep_head _ _ _ R), head_app. by destruct l1.
  - intros p'. by mem.
  - intros p' ? Hl' ?. mem. rewrite decide_False by congruence. by mem_ne.
  - intros p' ? Hl' ?. mem. by mem_ne.
Qed.

Lemma remove_middle ll r p q l1 l2 xs :
  rep_at ll (l1 ++ r :: l2) xs -> last l1 = Some p -> head l2 = Some q ->
  exists ll', linked_list_remove_internal ll (length l1) = Ok ll' /\
    rep ll' (spec_remove xs (length l1)).
Proof.
  intros R Hp Hq. pose proof (rep_chain _ _ _ R) as C. pose proof (chain_length _ _ _ C) as L.
  rewrite length_app in L. simpl in L.
  pose proof (chain_nodup _ _ _ C) as N.
  pose proof (last_elem _ _ Hp) as Hpi. pose proof (head_elem _ _ Hq) as Hqi.
  assert (N' := N). apply NoDup_app in N' as (N1 & Hd & N2). apply NoDup_cons in N2 as [N2 _].
  assert (p <> r) by (intros ->; apply (Hd r Hpi); apply list_elem_of_here).
  assert (r <> q) by (intros ->; done).
  assert (p <> q) by (intros ->; apply (Hd q Hpi); by apply list_elem_of_further).
  destruct l1 as [|a l1']; [done|]. destruct l2 as [|b l2']; [done|].
  assert (b = q) as -> by (by injection Hq).
  set (l1 := a :: l1') in *. set (l2 := q :: l2') in *.
  assert (Hlr : (l1 ++ r :: l2) !! S (length l1') = Some r).
  { change (S (length l1')) with (length l1). by rewrite lookup_app_r, Nat.sub_diag by lia. }
  assert (Hlp : (l1 ++ r :: l2) !! length l1' = Some p).
  { rewrite lookup_app_l by (simpl; lia). rewrite last_lookup in Hp. done. }
  destruct (chain_node _ _ _ _ _ C Hlr) as (nr & Hr & Hx & Hnx & Hpv).
  specialize (Hnx q). rewrite lookup_app_r in Hnx by (simpl; lia).
  replace (S (S (length l1')) - length l1)%nat with 1%nat in Hnx by (simpl; lia).
  specialize (Hnx eq_refl).
  destruct (chain_elt_in _ _ _ r C) as [x Hxr]; [set_solver|].
  destruct (chain_elt_in _ _ _ p C) as [y Hy]; [set_solver|].
  destruct (chain_elt_in _ _ _ q C) as [z Hz]; [set_solver|].
  unfold linked_list_remove_internal. rewrite (rep_len _ _ _ R), <- L.
  rewrite (proj2 (Nat.leb_gt _ _)) by lia. rewrite (proj2 (Nat.eqb_neq (length l1) 0)) by (simpl; lia).
  rewrite andb_false_r.
  rewrite (proj2 (Nat.eqb_neq (length l1) _)) by (simpl; lia).
  rewrite (rep_head _ _ _ R), head_lookup.
  change (length l1) with (S (length l1')) at 1.
  rewrite (walk2_ok _ _ _ _ 0 _ C) by (rewrite length_app; simpl; lia). rewrite Nat.add_0_l, Hlp, Hlr.
  simpl. rewrite Hr. simpl. rewrite Hnx.
  rewrite (set_next_ok _ _ _ y) by done. simpl.
  rewrite (set_prev_ok _ _ _ z) by (by mem). simpl.
  rewrite (free_node_ok _ _ x) by (by mem).
  eexists. split; [reflexivity|]. exists (l1 ++ l2).
  change (S (length l1')) with (length l1). clearbody l1 l2. apply (remove_rep ll _ l1 l2 xs r); try done.
  - simpl. rewrite (rep_head _ _ _ R), !head_app. destruct l1; [done|]. done.
  - simpl. rewrite (rep_tail _ _ _ R), !last_app, last_cons. by destruct (last l2) eqn:Eh; [|apply last_None in Eh as ->].
  - intros p'. by mem.
  - intros p' ? Hl' ?. mem. rewrite decide_False by congruence. by mem_ne.
  - intros p' ? ? Hl'. mem. rewrite decide_False by congruence. by mem_ne.
  - intros p' q' Hp' Hq'. assert (p' = p) as -> by congruence. assert (q' = q) as -> by congruence. mem. rewrite Hy, Hz. by mem_ne.
Qed.

Lemma remove_ok ll xs idx :
  rep ll xs ->
  if decide (idx < length xs)%nat then
    exists ll', linked_list_remove_internal ll idx = Ok ll' /\ rep ll' (spec_remove xs idx)
  else linked_list_remove_internal ll idx = Exit.
Proof.
  intros [ps R]. pose proof (chain_length _ _ _ (rep_chain _ _ _ R)) as L. case_decide as Hi.
  - destruct (lookup_lt_is_Some_2 ps idx) as [r Hr]; [lia|].
    pose proof (take_drop_middle _ _ _ Hr) as E.
    assert (Hl : length (take idx ps) = idx) by (rewrite length_take; lia).
    rewrite <- Hl. rewrite <- E in R. revert R.
    generalize (take idx ps) (drop (S idx) ps). intros l1 l2 R.
    destruct (last l1) as [p|] eqn:Ep; [destruct (head l2) as [q|] eqn:Eq|].
    + by eapply remove_middle.
    + destruct l2; [|done]. by eapply remove_last.
    + apply last_None in Ep as ->. simpl in *. destruct l2 as [|q l2].
      * by eapply remove_only.
      * by eapply remove_first.
  - unfold linked_list_remove_internal. rewrite (rep_len _ _ _ R).
    by rewrite (proj2 (Nat.leb_le _ _)) by lia.
Qed.

Lemma remove_total ll xs idx :
  rep ll xs -> (idx < length xs)%nat ->
  exists ll', linked_list_remove_internal ll idx = Ok ll' /\ rep ll' (spec_remove xs idx).
Proof. intros R H. pose proof (remove_ok _ _ idx R) as G. by rewrite decide_True in G. Qed.

Section RemoveElem.
Variable lleq : T -> T -> bool.

Lemma spec_index_from_bound i xs elem j :
  spec_index_from lleq i xs elem = Some j -> (i <= j < i + length xs)%nat.
Proof.
  revert i. induction xs as [|x xs IH]; intros i; simpl; [done|].
  destruct (lleq x elem); [intros [= ->]; lia|]. intros H%IH. lia.
Qed.
Lemma spec_index_of_bound xs elem j :
  spec_index_of lleq xs elem = Some j -> (j < length xs)%nat.
Proof. intros H%spec_index_from_bound. lia. Qed.

Lemma remove_elem_ok ll xs elem :
  rep ll xs ->
  match spec_index_of lleq xs elem with
  | None => linked_list_remove_elem lleq ll elem = Exit
  | Some i => exists ll', linked_list_remove_elem lleq ll elem = Ok ll' /\
                rep ll' (spec_remove xs i)
  end.
Proof.
  intros R. unfold linked_list_remove_elem. rewrite (index_of_ok _ _ _ _ R). simpl.
  destruct (spec_index_of lleq xs elem) as [i|] eqn:E; [|done].
  apply remove_total; [done|by eapply spec_index_of_bound].
Qed.

End RemoveElem.

Lemma take_ok ll xs idx x :
  rep ll xs -> xs !! idx = Some x ->
  exists ll', linked_list_take ll idx = Ok (x, ll') /\ rep ll' (spec_remove xs idx).
Proof.
  intros R H. unfold linked_list_take. rewrite (get_ok _ _ _ R), H. simpl.
  destruct (remove_total _ _ idx R) as (ll' & E & R'); [by eapply lookup_lt_Some|].
  rewrite E. simpl. eauto.
Qed.

Lemma queue_pop_ok ll x xs :
  rep ll (x :: xs) -> exists ll', queue_pop ll = Ok (x, ll') /\ rep ll' xs.
Proof.
  intros R. destruct R as [ps R]. pose proof (rep_chain _ _ _ R) as C.
  destruct ps as [|p ps]; [by pose proof (chain_length _ _ _ C)|].
  destruct (chain_node _ _ _ 0 p C eq_refl) as (n & Hn & Hx & _). injection Hx as Hx.
  unfold queue_pop. rewrite (rep_head _ _ _ R). simpl. rewrite Hn. simpl.
  destruct (remove_total ll (x :: xs) 0) as (ll' & E & R'); [by exists (p :: ps)|simpl; lia|].
  rewrite E. simpl. exists ll'. by rewrite Hx.
Qed.

Lemma stack_pop_ok ll x xs :
  rep ll (xs ++ [x]) -> exists ll', stack_pop ll = Ok (x, ll') /\ rep ll' xs.
Proof.
  intros R. destruct R as [ps R]. pose proof (rep_chain _ _ _ R) as C.
  pose proof (chain_length _ _ _ C) as L. rewrite length_app in L. simpl in L.
  destruct (lookup_lt_is_Some_2 ps (length xs)) as [p Hp]; [lia|].
  destruct (chain_node _ _ _ _ p C Hp) as (n & Hn & Hx & _).
  rewrite lookup_app_r, Nat.sub_diag in Hx by lia. injection Hx as Hx.
  unfold stack_pop. rewrite (rep_tail _ _ _ R), last_lookup.
  replace (pred (length ps)) with (length xs) by lia. rewrite Hp, Hn. simpl.
  destruct (remove_total ll (xs ++ [x]) (ll_len ll - 1)) as (ll' & E & R').
  { by exists ps. } { rewrite (rep_len _ _ _ R), length_app. simpl. lia. }
  rewrite E. simpl. exists ll'. rewrite Hx. split; [done|].
  rewrite (rep_len _ _ _ R) in R'. unfold spec_remove in R'.
  rewrite length_app, drop_ge, app_nil_r in R' by (rewrite ?length_app; simpl; lia).
  simpl in R'. replace (length xs + 1 - 1)%nat with (length xs) in R' by lia.
  by rewrite take_app_length in R'.
Qed.

(** *** Insertion *)

Lemma insert_empty ll x :
  rep ll [] -> exists ll', linked_list_insert ll x 0 = Ok ll' /\ ring ll' [x].
Proof.
  intros [ps R]. pose proof (chain_length _ _ _ (rep_chain _ _ _ R)) as L.
  destruct ps; [|done]. unfold linked_list_insert.
  change (new_node ll x) with (brk ll, w_new ll x). simpl. rewrite (rep_len _ _ _ R). simpl.
  rewrite (set_prev_ok _ _ _ x) by (mem; by mem_ne). simpl.
  rewrite (set_next_ok _ _ _ x) by (mem; by mem_ne). simpl.
  eexists. split; [reflexivity|]. change [x] with ([] ++ [x]). eapply (snoc_ring ll _ []); try done; simpl.
  - intros p. by mem.
  - intros p Hp. by apply elem_of_nil in Hp.
  - intros p Hp. by apply elem_of_nil in Hp.
  - intros f [= <-]. mem. by mem_ne.
Qed.

Lemma insert_front ll x y xs :
  rep ll (y :: xs) ->
  exists ll', linked_list_insert ll x 0 = Ok ll' /\ ring ll' (x :: y :: xs).
Proof.
  intros [ps R]. pose proof (chain_length _ _ _ (rep_chain _ _ _ R)) as L.
  pose proof (fresh_not_in _ _ _ R) as Hf. pose proof (rep_chain _ _ _ R) as C.
  destruct ps as [|f ps]; [done|]. destruct (last (f :: ps)) as [l|] eqn:El.
  2:{ by apply last_None in El. }
  pose proof (last_elem _ _ El) as Hli.
  destruct (chain_elt_in _ _ _ f C) as [xf Hxf]; [set_solver|].
  destruct (chain_elt_in _ _ _ l C) as [xl Hxl]; [done|].
  assert (brk ll <> f) by set_solver. assert (brk ll <> l) by set_solver.
  unfold linked_list_insert. change (new_node ll x) with (brk ll, w_new ll x).
  simpl. rewrite (rep_len _ _ _ R). simpl.
  pose proof (rep_head _ _ _ R) as Hh. pose proof (rep_tail _ _ _ R) as Ht. rewrite El in Ht.
  rewrite Ht. rewrite (set_prev_ok _ _ _ x) by (mem; by mem_ne). simpl. rewrite Hh. simpl.
  rewrite (set_next_ok _ _ _ x) by (mem; by mem_ne). simpl. rewrite Hh. simpl.
  rewrite (set_prev_ok _ _ _ xf) by (mem; by mem_ne). simpl. rewrite Ht. simpl.
  rewrite (set_next_ok _ _ _ xl) by (mem; by mem_ne). simpl.
  eexists. split; [reflexivity|]. exists (brk ll :: f :: ps). split.
  - apply (insert_rep ll _ [] (f :: ps) (y :: xs) x (brk ll)); try done; simpl.
    + rewrite Ht. by rewrite <- El.
    + intros p. by mem.
    + intros p Hp _ Hl. mem. assert (brk ll <> p) by set_solver.
      rewrite (decide_False (P := l = p)) by (intros ->; apply Hl, El). by mem_ne.
    + intros p Hp Hl _. mem. assert (brk ll <> p) by set_solver. by mem_ne.
    + intros q [= <-]. mem. rewrite Hxf. by mem_ne.
  - intros f' l' [= <-] Hl'. rewrite last_cons, El in Hl'. injection Hl' as <-. mem.
    rewrite Hxl. by mem_ne.
Qed.

Lemma insert_middle ll l1 l2 p q x xs :
  rep_at ll (l1 ++ l2) xs -> last l1 = Some p -> head l2 = Some q ->
  exists ll', linked_list_insert ll x (length l1) = Ok ll' /\
    rep ll' (spec_insert xs x (length l1)).
Proof.
  intros R Hp Hq. pose proof (fresh_not_in _ _ _ R) as Hf. pose proof (rep_chain _ _ _ R) as C.
  pose proof (chain_length _ _ _ C) as L. rewrite length_app in L.
  pose proof (last_elem _ _ Hp) as Hpi. pose proof (head_elem _ _ Hq) as Hqi.
  destruct (chain_elt_in _ _ _ p C) as [y Hy]; [set_solver|].
  destruct (chain_elt_in _ _ _ q C) as [z Hz]; [set_solver|].
  assert (brk ll <> p) by set_solver. assert (brk ll <> q) by set_solver.
  assert (exists k, length l1 = S k) as [k Hk] by (destruct l1; [done|by eexists]).
  assert (length l2 <> 0%nat) by (by destruct l2).
  unfold linked_list_insert. change (new_node ll x) with (brk ll, w_new ll x).
  simpl. rewrite (rep_len _ _ _ R).
  rewrite (proj2 (Nat.eqb_neq (length l1) 0)) by lia. rewrite andb_false_r. simpl.
  rewrite (proj2 (Nat.leb_gt _ _)) by lia. rewrite (proj2 (Nat.eqb_neq (length l1) _)) by lia. simpl.
  rewrite (rep_head _ _ _ R), head_lookup.
  assert (E : walk2 (w_new ll x) (length l1) ((l1 ++ l2) !! 0%nat) ((l1 ++ l2) !! 0%nat)
              = Ok (Some p, Some q)).
  { rewrite Hk, (walk2_ok _ (l1 ++ l2) xs _ 0); [| |rewrite length_app; lia].
    - rewrite Nat.add_0_l. do 2 f_equal; [|rewrite <- Hk].
      + rewrite lookup_app_l by lia. rewrite <- Hp, last_lookup. f_equal. lia.
      + rewrite lookup_app_r, Nat.sub_diag by lia. by rewrite <- head_lookup.
    - apply (chain_frame ll); [done| | |]; intros r Hr; intros; mem; rewrite decide_False; set_solver. }
  rewrite E. simpl.
  rewrite (set_next_ok _ _ _ x) by (mem; by mem_ne). simpl.
  rewrite (set_prev_ok _ _ _ x) by (mem; by mem_ne). simpl.
  rewrite (set_next_ok _ _ _ y) by (mem; by mem_ne). simpl.
  rewrite (set_prev_ok _ _ _ z) by (mem; by mem_ne). simpl.
  eexists. split; [reflexivity|]. exists (l1 ++ brk ll :: l2).
  apply (insert_rep ll); try done; simpl.
  - rewrite (rep_head _ _ _ R), !head_app. by destruct l1.
  - rewrite (rep_tail _ _ _ R), !last_app, last_cons. by destruct (last l2) eqn:El; [|apply last_None in El as ->].
  - intros r. by mem.
  - intros r Hr Hl _. mem. assert (brk ll <> r) by set_solver. rewrite (decide_False (P := p = r)) by congruence. by mem_ne.
  - intros r Hr Hl _. mem. assert (brk ll <> r) by set_solver. rewrite (decide_False (P := q = r)) by congruence. by mem_ne.
  - intros p' Hp'. assert (p' = p) as -> by congruence. mem. rewrite Hy. by mem_ne.
  - intros q' Hq'. assert (q' = q) as -> by congruence. mem. rewrite Hz. by mem_ne.
Qed.

Lemma insert_ok ll xs x idx :
  rep ll xs ->
  if decide (idx < length xs \/ idx = 0)%nat then
    exists ll', linked_list_insert ll x idx = Ok ll' /\ rep ll' (spec_insert xs x idx)
  else linked_list_insert ll x idx = Exit.
Proof.
  intros R. case_decide as Hi.
  - destruct idx as [|idx].
    + destruct xs as [|y xs].
      * destruct (insert_empty ll x R) as (ll' & E & R'). eauto using ring_rep.
      * destruct (insert_front ll x y xs R) as (ll' & E & R'). eauto using ring_rep.
    + destruct R as [ps R]. pose proof (chain_length _ _ _ (rep_chain _ _ _ R)) as L.
      assert (Hl : length (take (S idx) ps) = S idx) by (rewrite length_take; lia).
      rewrite <- (take_drop (S idx) ps) in R. rewrite <- Hl.
      destruct (last (take (S idx) ps)) as [p|] eqn:Ep.
      2:{ apply last_None in Ep. by rewrite Ep in Hl. }
      destruct (head (drop (S idx) ps)) as [q|] eqn:Eq; [by eapply insert_middle|].
      rewrite head_lookup, lookup_drop, lookup_ge_None in Eq. lia.
  - destruct R as [ps R]. unfold linked_list_insert.
    change (new_node ll x) with (brk ll, w_new ll x).
    simpl. rewrite (rep_len _ _ _ R).
    rewrite (proj2 (Nat.eqb_neq idx 0)) by lia. rewrite andb_false_r.
    by rewrite (proj2 (Nat.leb_le _ _)) by lia.
Qed.

(** *** Moving an element to the back *)

Lemma move_rep ll ll' l1 l2 r xs x :
  rep_at ll (l1 ++ r :: l2) xs -> l1 <> [] -> l2 <> [] -> xs !! length l1 = Some x ->
  ll_head ll' = ll_head ll -> ll_tail ll' = Some r ->
  ll_len ll' = ll_len ll -> brk ll' = brk ll ->
  (forall p, elt ll' p = elt ll p) ->
  (forall p, r <> p -> last l1 <> Some p -> last l2 <> Some p -> nxt ll' p = nxt ll p) ->
  (forall p, r <> p -> head l1 <> Some p -> head l2 <> Some p -> prv ll' p = prv ll p) ->
  (forall p q, last l1 = Some p -> head l2 = Some q ->
     nxt ll' p = Some (Some q) /\ prv ll' q = Some (Some p)) ->
  (forall l, last l2 = Some l -> nxt ll' l = Some (Some r) /\ prv ll' r = Some (Some l)) ->
  (forall h, head l1 = Some h -> nxt ll' r = Some (Some h) /\ prv ll' h = Some (Some r)) ->
  ring ll' (spec_remove xs (length l1) ++ [x]).
Proof.
  intros R Hl1 Hl2 Hx Hh Ht Hl Hb He Hn Hp J1 J2 J3.
  pose proof (rep_chain _ _ _ R) as C. pose proof (chain_length _ _ _ C) as L.
  destruct (chain_app_inv _ _ _ _ C) as [C1 C2].
  destruct (chain_app_inv _ [r] _ _ C2) as [C4 C3].
  rewrite length_app in L. simpl in L. simpl in C4. rewrite (drop_S _ _ _ Hx) in C4. simpl in C4.
  pose proof (chain_nodup _ _ _ C) as N. apply NoDup_app in N as (N1 & Hd & N2).
  apply NoDup_cons in N2 as [N2 N3].
  assert (Hr1 : r ∉ l1) by (intros H; apply (Hd r H); apply list_elem_of_here).
  assert (Hd' : forall p, p ∈ l1 -> p ∉ l2)
    by (intros p H H'; apply (Hd p H); by apply list_elem_of_further).
  exists ((l1 ++ l2) ++ [r]). split; [split|].
  - rewrite Hh, (rep_head _ _ _ R), !head_app. by destruct l1.
  - by rewrite Ht, last_snoc.
  - rewrite Hl, (rep_len _ _ _ R). unfold spec_remove.
    rewrite !length_app, length_take, length_drop. simpl. lia.
  - intros p H. rewrite Hb. apply (rep_fresh _ _ _ R). set_solver.
  - intros p H. rewrite He. apply (rep_dom _ _ _ R). set_solver.
  - unfold spec_remove.
    replace (drop (S (length l1)) xs) with (drop (length [r]) (drop (length l1) xs))
      by (rewrite drop_drop; f_equal; simpl; lia).
    apply chain_app; [apply chain_app; [| |exact Hd'|exact J1]| |set_solver|].
    + apply (chain_frame ll); [done|done| |]; intros p H1 H2; [apply Hn|apply Hp];
        try done; try (by intros <-); [intros E%last_elem|intros E%head_elem]; by apply (Hd' p).
    + apply (chain_frame ll); [done|done| |]; intros p H1 H2; [apply Hn|apply Hp];
        try done; try (by intros <-); [intros E%last_elem|intros E%head_elem]; by apply (Hd' p).
    + apply (chain_frame ll); [done|done| |]; intros p ->%list_elem_of_singleton; by intros [].
    + intros p q Hl' [= <-]. apply J2. rewrite last_app in Hl'. destruct l2; [done|].
      by destruct (last (l :: l2)) eqn:E; [|apply last_None in E].
  - intros f l Hf Hl'. rewrite last_snoc in Hl'. injection Hl' as <-. apply J3.
    rewrite !head_app in Hf. by destruct l1.
Qed.

Section MoveBack.
Variable lleq : T -> T -> bool.

Lemma move_back_loop_ok ll ps xs elem n i cur :
  chain ll ps xs -> (n = 0%nat \/ cur = ps !! pred n) -> (i + n = length ps)%nat ->
  match spec_index_from lleq i (drop i (reverse xs)) elem with
  | None => move_back_loop lleq ll n i cur elem = Ok None
  | Some j => exists p nd, ps !! (length ps - 1 - j)%nat = Some p /\ (j < length ps)%nat /\
      node_at ll (Some p) = Ok nd /\
      move_back_loop lleq ll n i cur elem =
        (ll ← move_to_back ll j (Some p) nd; Ok (Some ll))
  end.
Proof.
  intros C. pose proof (chain_length _ _ _ C) as L. revert i cur.
  induction n as [|n IH]; intros i cur Hcur Hi.
  - by rewrite drop_ge by (rewrite length_reverse; lia).
  - destruct Hcur as [?| ->]; [lia|]. simpl.
    destruct (lookup_lt_is_Some_2 ps n) as [p Hp]; [lia|].
    destruct (chain_node _ _ _ _ _ C Hp) as (nd & Hn & Hx & _ & Hpv).
    assert (Hrx : reverse xs !! i = Some (element nd)).
    { rewrite reverse_lookup by lia. rewrite <- Hx. f_equal. lia. }
    rewrite Hp, Hn. simpl. rewrite (spec_index_drop _ _ _ _ _ Hrx).
    destruct (lleq (element nd) elem).
    + exists p, nd. replace (length ps - 1 - i)%nat with n by lia.
      split_and!; [done|lia|done|done].
    + apply IH; [|lia]. destruct n as [|n]; [by left|right].
      destruct (lookup_lt_is_Some_2 ps n) as [q Hq]; [lia|]. simpl. rewrite Hq.
      by apply (Hpv n).
Qed.

End MoveBack.

Lemma rotate_ring ll xs p nd :
  ring ll xs -> (1 < length xs)%nat ->
  exists ll', move_to_back ll 0 (Some p) nd = Ok ll' /\ ring ll' (drop 1 xs ++ take 1 xs).
Proof.
  intros (ps & R & Cl) Hx. pose proof (rep_chain _ _ _ R) as C.
  pose proof (chain_length _ _ _ C) as L. pose proof (chain_nodup _ _ _ C) as N.
  destruct ps as [|f [|g ps]]; [simpl in *; lia..|].
  unfold move_to_back. rewrite (rep_len _ _ _ R), <- L. simpl.
  destruct (chain_node _ _ _ 0 f C) as (nf & Hf & Hxf & Hnx & _); [done|].
  rewrite (rep_head _ _ _ R). specialize (Hnx g eq_refl).
  assert (E : node_at (set_tail ll (Some f)) (Some f) = Ok nf) by exact Hf.
  simpl. rewrite E. simpl. rewrite Hnx.
  eexists. split; [reflexivity|].
  destruct (chain_app_inv ll [f] (g :: ps) xs C) as [C1 C2].
  exists ((g :: ps) ++ [f]). split; [split|]; try done.
  - simpl. by rewrite app_comm_cons, last_snoc.
  - simpl. rewrite (rep_len _ _ _ R), length_app, length_drop, length_take. lia.
  - intros q Hq. apply (rep_fresh _ _ _ R). set_solver.
  - intros q Hq. apply (rep_dom _ _ _ R). set_solver.
  - apply chain_app.
    + by apply (chain_frame ll).
    + by apply (chain_frame ll).
    + apply NoDup_cons in N as [N _]. set_solver.
    + intros l h Hl [= <-]. apply (Cl f l); [done|]. by rewrite last_cons, Hl.
  - intros h l Hh Hl. rewrite last_snoc in Hl. injection Hl as <-. injection Hh as <-.
    apply (chain_links _ _ _ C). by exists 0%nat.
Qed.

Lemma move_middle_ring ll l1 l2 r xs x nd :
  rep_at ll (l1 ++ r :: l2) xs -> l1 <> [] -> l2 <> [] -> xs !! length l1 = Some x ->
  node_at ll (Some r) = Ok nd ->
  exists ll', move_to_back ll (length l2) (Some r) nd = Ok ll' /\
    ring ll' (spec_remove xs (length l1) ++ [x]).
Proof.
  intros R Hl1 Hl2 Hx Hn.
  destruct (last l1) as [p|] eqn:Ep; [|by apply last_None in Ep].
  destruct (head l2) as [q|] eqn:Eq; [|by destruct l2].
  destruct (last_head_nonempty _ _ Ep) as [h Eh].
  destruct (last l2) as [l|] eqn:El; [|by apply last_None in El].
  pose proof (rep_chain _ _ _ R) as C. pose proof (chain_length _ _ _ C) as L.
  rewrite length_app in L. simpl in L.
  pose proof (chain_nodup _ _ _ C) as N. apply NoDup_app in N as (N1 & Hd & N2).
  apply NoDup_cons in N2 as [N2 N3].
  assert (Hr1 : r ∉ l1) by (intros H; apply (Hd r H); apply list_elem_of_here).
  assert (Hd' : forall p, p ∈ l1 -> p ∉ l2)
    by (intros a H H'; apply (Hd a H); by apply list_elem_of_further).
  pose proof (last_elem _ _ Ep) as Ip. pose proof (head_elem _ _ Eq) as Iq.
  pose proof (head_elem _ _ Eh) as Ih. pose proof (last_elem _ _ El) as Il.
  assert (Hin : forall a, a ∈ l1 \/ a = r \/ a ∈ l2 -> exists y, elt ll a = Some y)
    by (intros a Ha; apply (chain_elt_in _ _ _ a C); set_solver).
  destruct (Hin p) as [yp Yp]; [tauto|]. destruct (Hin q) as [yq Yq]; [tauto|].
  destruct (Hin h) as [yh Yh]; [tauto|]. destruct (Hin l) as [yl Yl]; [tauto|].
  destruct (Hin r) as [yr Yr]; [tauto|].
  assert (r <> p /\ r <> q /\ r <> h /\ r <> l) as (Np & Nq & Nh & Nl)
    by (split_and!; intros ->; tauto).
  assert (p <> q /\ p <> l /\ h <> q /\ h <> l) as (Npq & Npl & Nhq & Nhl)
    by (split_and!; intros ->; [apply (Hd' q)|apply (Hd' l)|apply (Hd' q)|apply (Hd' l)]; done).
  destruct (chain_join _ _ _ _ p r C Ep eq_refl) as [Lpr Lrp].
  destruct (chain_join ll [r] l2 (drop (length l1) xs) r q) as [Lrq Lqr]; [|done|done|].
  { by apply (chain_app_inv ll l1 (r :: l2)). }
  destruct (node_at_ok _ _ _ Yr) as (nd' & Hn' & _ & Fn & Fp).
  assert (nd' = nd) as -> by congruence. rewrite Lrq in Fn. rewrite Lrp in Fp.
  injection Fn as Fn. injection Fp as Fp.
  assert (Hh : ll_head ll = Some h) by (rewrite (rep_head _ _ _ R), head_app; by destruct l1).
  assert (Ht : ll_tail ll = Some l) by (by rewrite (rep_tail _ _ _ R), last_app, last_cons, El).
  unfold move_to_back. rewrite (rep_len _ _ _ R), <- L.
  assert (length l1 <> 0%nat /\ length l2 <> 0%nat) by (by destruct l1, l2).
  rewrite (proj2 (Nat.eqb_neq (length l2) _)) by lia. simpl.
  rewrite (proj2 (Nat.eqb_neq (length l2) 0)) by lia.
  rewrite <- Fn, <- Fp, (set_prev_ok _ _ _ yq) by done. simpl.
  assert (Z : node_at (w_prev ll q (Some p)) (Some r) = Ok nd).
  { revert Hn. unfold node_at, w_prev. simpl. by rewrite lookup_alter_ne. }
  rewrite Z. simpl. rewrite <- Fn, <- Fp.
  rewrite (set_next_ok _ _ _ yp) by (by mem). simpl. rewrite Hh.
  rewrite (set_next_ok _ _ _ yr) by (by mem). simpl. rewrite Ht.
  rewrite (set_prev_ok _ _ _ yr) by (by mem). simpl. rewrite Ht.
  rewrite (set_next_ok _ _ _ yl) by (by mem). simpl. rewrite Hh.
  rewrite (set_prev_ok _ _ _ yh) by (by mem). simpl.
  eexists. split; [reflexivity|]. apply (move_rep ll _ l1 l2 r xs x); try done.
  - intros a. by mem.
  - intros a Ha Ha1 Ha2. mem. by mem_ne.
  - intros a Ha Ha1 Ha2. mem. by mem_ne.
  - intros p' q' Hp' Hq'. assert (p' = p) as -> by congruence. assert (q' = q) as -> by congruence.
    mem. rewrite Yp, Yq. by mem_ne.
  - intros l' Hl'. assert (l' = l) as -> by congruence. mem. rewrite Yl, Yr. by mem_ne.
  - intros h' Hh'. assert (h' = h) as -> by congruence. mem. rewrite Yh, Yr. by mem_ne.
Qed.

Lemma move_back_ok (lleq : T -> T -> bool) ll xs elem :
  ring ll xs ->
  exists ll', queue_move_back lleq ll elem = Ok ll' /\ ring ll' (spec_move_back lleq xs elem).
Proof.
  intros Rg. destruct Rg as (ps & R & Cl). pose proof (rep_chain _ _ _ R) as C.
  pose proof (chain_length _ _ _ C) as L. unfold queue_move_back, spec_move_back, spec_index_of.
  pose proof (move_back_loop_ok lleq ll ps xs elem (length ps) 0 (last ps) C) as M.
  rewrite (rep_len _ _ _ R), (rep_tail _ _ _ R), <- L.
  specialize (M (or_intror (last_lookup ps)) eq_refl). rewrite drop_0 in M.
  destruct (spec_index_from lleq 0 (reverse xs) elem) as [j|].
  2:{ rewrite M. simpl. apply append_ring. by exists ps. }
  destruct M as (p & nd & Hp & Hj & Hn & ->).
  destruct (j =? length ps - 1)%nat eqn:E1; bool_prop.
  { exists ll. unfold move_to_back. rewrite (rep_len _ _ _ R), <- L.
    rewrite (proj2 (Nat.eqb_eq j _)) by done. simpl. split; [done|]. by exists ps. }
  destruct (j =? 0)%nat eqn:E2; bool_prop.
  { subst j. destruct (rotate_ring ll xs p nd) as (ll' & -> & R'); [by exists ps|lia|].
    simpl. eauto. }
  set (k := (length ps - 1 - j)%nat) in *.
  destruct (chain_elt_Some _ _ _ _ _ C Hp) as (x & _ & Hx).
  assert (Hk : length (take k ps) = k) by (rewrite length_take; lia).
  assert (Hd : length (drop (S k) ps) = j) by (rewrite length_drop; lia).
  destruct (move_middle_ring ll (take k ps) (drop (S k) ps) p xs x nd) as (ll' & E & R').
  { by rewrite take_drop_middle. } { intros E. rewrite E in Hk. simpl in Hk. lia. }
  { intros E. rewrite E in Hd. simpl in Hd. lia. } { by rewrite Hk. } { done. }
  rewrite Hd in E. rewrite Hk in R'. rewrite E. simpl. exists ll'. split; [done|].
  by rewrite (drop_S _ _ _ Hx).
Qed.

(** An element that is not in the list is appended, whether or not the list is
    circular. *)
Lemma move_back_absent (lleq : T -> T -> bool) ll xs elem :
  rep ll xs -> (forall x, x ∈ xs -> lleq x elem = false) ->
  exists ll', queue_move_back lleq ll elem = Ok ll' /\ ring ll' (xs ++ [elem]).
Proof.
  intros R Ha. pose proof R as [ps R']. pose proof (rep_chain _ _ _ R') as C.
  pose proof (chain_length _ _ _ C) as L. unfold queue_move_back.
  pose proof (move_back_loop_ok lleq ll ps xs elem (length ps) 0 (last ps) C) as M.
  rewrite (rep_len _ _ _ R'), (rep_tail _ _ _ R'), <- L.
  specialize (M (or_intror (last_lookup ps)) eq_refl). rewrite drop_0 in M.
  assert (E : spec_index_from lleq 0 (reverse xs) elem = None).
  { clear M. assert (Hr : forall x, x ∈ reverse xs -> lleq x elem = false)
      by (intros x Hx; apply Ha; by apply elem_of_reverse).
    revert Hr. generalize 0%nat. induction (reverse xs) as [|x l IH]; intros i Hr; simpl; [done|].
    rewrite (Hr x) by left. apply IH. intros y Hy. apply Hr. by right. }
  rewrite E in M. rewrite M. simpl. by apply append_ring.
Qed.

Lemma spec_move_back_perm (lleq : T -> T -> bool) xs elem :
  (exists x, x ∈ xs /\ lleq x elem = true) -> spec_move_back lleq xs elem ≡ₚ xs.
Proof.
  intros (x & Hx & He). unfold spec_move_back.
  destruct (spec_index_of lleq (reverse xs) elem) as [i|] eqn:E.
  - apply spec_index_of_bound in E. rewrite length_reverse in E.
    destruct (i =? length xs - 1)%nat; [done|]. destruct (i =? 0)%nat.
    + rewrite (comm (++)). by rewrite take_drop.
    + set (k := (length xs - 1 - i)%nat). destruct (lookup_lt_is_Some_2 xs k) as [y Hy]; [lia|].
      assert (E2 : take 1 (drop k xs) = [y]) by (by rewrite (drop_S _ _ _ Hy)).
      rewrite E2. unfold spec_remove. rewrite <- (assoc_L app).
      transitivity (take k xs ++ y :: drop (S k) xs); [|by rewrite take_drop_middle].
      apply Permutation_app_head. by rewrite (comm app).
  - exfalso. unfold spec_index_of in E. apply elem_of_reverse in Hx. revert Hx E.
    generalize 0%nat. induction (reverse xs) as [|y l IH]; intros i Hx; simpl;
      [by apply elem_of_nil in Hx|].
    apply elem_of_cons in Hx as [->|Hx]; [by rewrite He|].
    destruct (lleq y elem); [done|]. by apply IH.
Qed.

(** *** Destruction *)

Lemma destroy_loop_ok ll ps xs :
  chain ll ps xs -> (forall p, p ∉ ps -> elt ll p = None) ->
  exists ll', destroy_loop ll (length ps) (head ps) = Ok ll' /\ cells ll' = ∅.
Proof.
  revert ll xs. induction ps as [|p ps IH]; intros ll xs C Hdom.
  - exists ll. split; [done|]. apply map_empty. intros p.
    specialize (Hdom p). unfold elt in Hdom. destruct (cells ll !! p); [|done].
    discriminate Hdom. set_solver.
  - pose proof (chain_nodup _ _ _ C) as N. apply NoDup_cons in N as [N _].
    destruct (chain_node _ _ _ 0 p C) as (nd & Hn & Hx & Hnx & _); [done|].
    destruct (chain_elt_in _ _ _ p C) as [x Hxe]; [by apply list_elem_of_here|].
    destruct (chain_app_inv ll [p] ps xs C) as [_ C2].
    simpl. rewrite Hn. simpl. rewrite (free_node_ok _ _ _ Hxe). simpl.
    destruct (IH (w_free ll p) (drop 1 xs)) as (ll' & E & H').
    + apply (chain_frame ll); [done|..]; intros q Hq; intros; mem; rewrite decide_False; set_solver.
    + intros q Hq. mem. case_decide; [done|]. apply Hdom. set_solver.
    + exists ll'. split; [|done]. rewrite <- E. destruct ps as [|q ps]; [done|].
      simpl head. by rewrite (Hnx q eq_refl).
Qed.
End Refine.

Section Destroy.
Context {T : Type}.

Lemma destroy_ok (ll : llist T) (xs : list T) :
  rep ll xs -> exists ll', linked_list_destroy ll = Ok ll' /\ cells ll' = ∅.
Proof.
  intros [ps R]. unfold linked_list_destroy. pose proof (rep_chain _ _ _ R) as C.
  rewrite (rep_len _ _ _ R), (rep_head _ _ _ R), <- (chain_length _ _ _ C).
  apply (destroy_loop_ok ll ps xs C), R.
Qed.
End Destroy.

(** ** Sequences of operations *)

Section Runs.
Context {T : Type}.
Implicit Types (ll : llist T) (xs : list T).

Fixpoint append_all ll xs : res (llist T) :=
  match xs with
  | [] => Ok ll
  | x :: xs' => ll ← linked_list_append ll x; append_all ll xs'
  end.

(** [n] calls of a pop operation, the elements in the order they are returned. *)
Fixpoint pops (pop : llist T -> res (T * llist T)) (n : nat) ll : res (list T * llist T) :=
  match n with
  | O => Ok ([], ll)
  | S n' => '(x, ll) ← pop ll; '(xs, ll) ← pops pop n' ll; Ok (x :: xs, ll)
  end.

Lemma append_all_ring ll ys xs :
  ring ll ys -> exists ll', append_all ll xs = Ok ll' /\ ring ll' (ys ++ xs).
Proof.
  revert ll ys. induction xs as [|x xs IH]; intros ll ys R; simpl.
  - exists ll. by rewrite app_nil_r.
  - destruct (append_ring ll ys x (ring_rep _ _ R)) as (ll1 & -> & R1). simpl.
    destruct (IH ll1 (ys ++ [x]) R1) as (ll2 & E & R2). exists ll2.
    by rewrite <- (assoc_L app) in R2.
Qed.

Lemma queue_pops_rep ll xs :
  rep ll xs -> exists ll', pops queue_pop (length xs) ll = Ok (xs, ll') /\ rep ll' [].
Proof.
  revert ll. induction xs as [|x xs IH]; intros ll R; simpl; [by exists ll|].
  destruct (queue_pop_ok _ _ _ R) as (ll1 & -> & R1). simpl.
  destruct (IH ll1 R1) as (ll2 & -> & R2). simpl. eauto.
Qed.

Lemma stack_pops_rep ll xs :
  rep ll xs -> exists ll', pops stack_pop (length xs) ll = Ok (reverse xs, ll') /\ rep ll' [].
Proof.
  revert ll. induction xs as [|x xs IH] using rev_ind; intros ll R; [by exists ll|].
  rewrite length_app, Nat.add_1_r. simpl.
  destruct (stack_pop_ok _ _ _ R) as (ll1 & -> & R1). simpl.
  destruct (IH ll1 R1) as (ll2 & -> & R2). simpl. exists ll2. by rewrite reverse_snoc.
Qed.
End Runs.

(** ** Properties *)

#[local] Open Scope Z_scope.

(** [insert] on a list that holds [xs] puts the element at position [idx] and
    leaves a list that is correctly linked in both directions, without touching
    another node; an index at or beyond the length (other than 0 for the empty
    list) ends the program. *)
Theorem linked_list_insert_refines {T} (ll : llist T) (xs : list T) (x : T) (idx : nat)
    (R : rep ll xs) :
  if decide (idx < length xs \/ idx = 0)%nat then
    exists ll', linked_list_insert ll x idx = Ok ll' /\ rep ll' (spec_insert xs x idx)
  else linked_list_insert ll x idx = Exit.
Proof. by apply insert_ok. Qed.

Lemma linked_list_insert_refines_witness :
  exists ll : llist Z, rep ll [1; 2; 3] /\
    exists ll', linked_list_insert ll 9 2 = Ok ll' /\ rep ll' [1; 2; 9; 3].
Proof.
  destruct (append_all_ring _ _ [1; 2; 3] (create_ring (T := Z))) as (ll & _ & R).
  apply ring_rep in R. exists ll. split; [exact R|].
  exact (linked_list_insert_refines ll [1; 2; 3] 9 2%nat R).
Defined.

(** [remove] takes the element at [idx] out of a list that holds [xs], frees
    its node and relinks its neighbours, in each of the four cases of the code
    (the only element, the first, the last, one in between); an index out of
    range ends the program. *)
Theorem linked_list_remove_refines {T} (ll : llist T) (xs : list T) (idx : nat)
    (R : rep ll xs) :
  if decide (idx < length xs)%nat then
    exists ll', linked_list_remove ll idx = Ok ll' /\ rep ll' (spec_remove xs idx)
  else linked_list_remove ll idx = Exit.
Proof. by apply remove_ok. Qed.

Lemma linked_list_remove_refines_witness :
  exists ll : llist Z, rep ll [1; 2; 3] /\
    exists ll', linked_list_remove ll 1 = Ok ll' /\ rep ll' [1; 3].
Proof.
  destruct (append_all_ring _ _ [1; 2; 3] (create_ring (T := Z))) as (ll & _ & R).
  apply ring_rep in R. exists ll. split; [exact R|].
  exact (linked_list_remove_refines ll [1; 2; 3] 1%nat R).
Defined.

(** On a circular list that holds [xs], [move_back] returns, keeps the list
    circular, and reorders it as [spec_move_back] says: an element in the middle
    goes to the back, an element that is not there is appended, the element at
    the front stays, and moving the element at the back rotates the list by one
    (the search counts from the tail, the cases are those of a search from the
    head). *)
Theorem queue_move_back_refines {T} (lleq : T -> T -> bool) (ll : llist T) (xs : list T)
    (elem : T) (R : ring ll xs) :
  exists ll', queue_move_back lleq ll elem = Ok ll' /\ ring ll' (spec_move_back lleq xs elem).
Proof. by apply move_back_ok. Qed.

Lemma queue_move_back_refines_witness :
  exists ll : llist Z, ring ll [1; 2; 3] /\
    (exists ll', queue_move_back Z.eqb ll 2 = Ok ll' /\ ring ll' [1; 3; 2]) /\
    (exists ll', queue_move_back Z.eqb ll 3 = Ok ll' /\ ring ll' [2; 3; 1]).
Proof.
  destruct (append_all_ring _ _ [1; 2; 3] (create_ring (T := Z))) as (ll & _ & R).
  exists ll. split; [exact R|]. split.
  - exact (queue_move_back_refines Z.eqb ll [1; 2; 3] 2 R).
  - exact (queue_move_back_refines Z.eqb ll [1; 2; 3] 3 R).
Defined.

(** A queue is first in, first out and a stack last in, first out: popping as
    many elements as were pushed onto a new list returns them in order, and in
    reverse order, and leaves the list empty. *)
Theorem queue_fifo_stack_lifo {T} (xs : list T) :
  exists ll, append_all linked_list_create xs = Ok ll /\
    (exists ll', pops queue_pop (length xs) ll = Ok (xs, ll') /\ rep ll' []) /\
    (exists ll', pops stack_pop (length xs) ll = Ok (reverse xs, ll') /\ rep ll' []).
Proof.
  destruct (append_all_ring _ _ xs (create_ring (T := T))) as (ll & E & R%ring_rep).
  exists ll. split; [done|]. split; [by apply queue_pops_rep|by apply stack_pops_rep].
Qed.

(** [destroy] follows no dangling pointer and frees every node of the list. *)
Theorem linked_list_destroy_frees_all {T} (ll : llist T) (xs : list T) (R : rep ll xs) :
  exists ll', linked_list_destroy ll = Ok ll' /\ cells ll' = ∅.
Proof. by eapply destroy_ok. Qed.

Lemma linked_list_destroy_frees_all_witness :
  exists ll : llist Z, rep ll [1; 2; 3] /\
    exists ll', linked_list_destroy ll = Ok ll' /\ cells ll' = ∅.
Proof.
  destruct (append_all_ring _ _ [1; 2; 3] (create_ring (T := Z))) as (ll & _ & R).
  apply ring_rep in R. exists ll. split; [exact R|].
  exact (linked_list_destroy_frees_all ll [1; 2; 3] R).
Defined.

(** [remove] does not keep the list circular, and [move_back] relies on it:
    after the head of a list of three was removed, moving the back element
    rotates the freed node into the list, and reading the list follows a dangling
    pointer. *)
Theorem remove_head_then_move_back_dangles :
  (ll ← append_all linked_list_create [1; 2; 3];
   ll ← linked_list_remove ll 0;
   ll ← queue_move_back Z.eqb ll 3;
   ll ← queue_move_back Z.eqb ll 2;
   linked_list_get ll 1) = Undef.
Proof. vm_compute. reflexivity. Qed.
