(* ===== verification/HTable.v ===== *)
(** The hash table of include/data-struct/htable.h.

    The macros generate, for a key and a value type, a table of buckets with
    chaining.  A bucket stores its first entry inline, with a flag that says
    whether there is one, and the further ones in a singly linked list.  The table
    doubles its buckets when its load would reach 0.6.

    [contents] is the finite map a table stands for; the theorems show that each
    operation has the effect of the corresponding map operation, that [rehash]
    changes nothing, and that the iterator visits each entry once. *)

From S2P Require Import Prelude Constants.
From Stdlib Require Import ZArith Lia.
From stdpp Require Import base list option gmap.

#[local] Open Scope Z_scope.

Definition BUCKET_START : Z := 8.
Definition TOO_MANY_BUCKETS_BITS : Z := 31.

(** [(size_t) (n * REHASH_FILLING_RATIO)] *)
Definition fill_limit (n : Z) : Z := f32_to_Z (f32_mul (f32_of_Z n) REHASH_FILLING_RATIO).

(** ** Data and operations *)

Section HTable.
Context {K V : Type} `{Countable K}.
(** [hash_fn], and the value of [calloc]ed keys and values. *)
Variable hash_fn : K -> Z -> Z.
Variables (key0 : K) (val0 : V).

Record bucket := Bucket {
  b_key : K;
  b_value : V;
  is_used : bool;
  b_next : list (K * V) }.

Record htable := HTable {
  buckets : list bucket;
  num_buckets : Z;
  num_used : Z;
  seed : Z }.

Definition bucket0 : bucket := Bucket key0 val0 false [].

Definition htable_create (seed : Z) : htable :=
  HTable (replicate (Z.to_nat BUCKET_START) bucket0) BUCKET_START 0 seed.

Definition htable_size (ht : htable) : Z := num_used ht.

Definition bucket_idx (ht : htable) (key : K) : Z :=
  if 0 <? num_buckets ht then hash_fn key (seed ht) mod num_buckets ht
  else hash_fn key (seed ht).

(** The search of [add_to_bucket] in the chain: the chain with the value of the
    key replaced, or [None] when the end is reached. *)
Fixpoint chain_update (key : K) (val : V) (c : list (K * V)) : option (list (K * V)) :=
  match c with
  | [] => None
  | (k, v) :: c' =>
      if decide (key = k) then Some ((k, val) :: c')
      else c'' ← chain_update key val c'; Some ((k, v) :: c'')
  end.

Definition set_bucket (ht : htable) (idx : Z) (b : bucket) (used : Z) : htable :=
  HTable (<[Z.to_nat idx := b]> (buckets ht)) (num_buckets ht) used (seed ht).

Definition add_to_bucket (ht : htable) (key : K) (val : V) (rehash : bool) : res htable :=
  let idx := bucket_idx ht key in
  let more := if rehash then num_used ht else num_used ht + 1 in
  b ← deref (buckets ht !! Z.to_nat idx);
  if negb (is_used b) then
    Ok (set_bucket ht idx (Bucket key val true (b_next b)) more)
  else if decide (key = b_key b) then
    Ok (set_bucket ht idx (Bucket (b_key b) val true (b_next b)) (num_used ht))
  else
    match chain_update key val (b_next b) with
    | Some c => Ok (set_bucket ht idx (Bucket (b_key b) (b_value b) (is_used b) c) (num_used ht))
    | None =>
        Ok (set_bucket ht idx
              (Bucket (b_key b) (b_value b) (is_used b) (b_next b ++ [(key, val)])) more)
    end.

(** The inner loop of [rehash]: the entries of one chain. *)
Fixpoint rehash_chain (ht : htable) (c : list (K * V)) : res htable :=
  match c with
  | [] => Ok ht
  | (k, v) :: c' => ht ← add_to_bucket ht k v true; rehash_chain ht c'
  end.

(** The outer loop of [rehash] over the old buckets. *)
Fixpoint rehash_buckets (ht : htable) (bs : list bucket) : res htable :=
  match bs with
  | [] => Ok ht
  | b :: bs' =>
      if negb (is_used b) then rehash_buckets ht bs'
      else
        ht ← add_to_bucket ht (b_key b) (b_value b) true;
        ht ← rehash_chain ht (b_next b);
        rehash_buckets ht bs'
  end.

Definition rehash (ht : htable) : res htable :=
  if (num_used ht + 1 <? fill_limit (num_buckets ht))
     || (2 ^ TOO_MANY_BUCKETS_BITS <=? num_buckets ht) then Ok ht
  else
    let old := buckets ht in
    let n := 2 * num_buckets ht in
    rehash_buckets (HTable (replicate (Z.to_nat n) bucket0) n (num_used ht) (seed ht)) old.

Definition htable_insert (ht : htable) (key : K) (val : V) : res htable :=
  ht ← rehash ht; add_to_bucket ht key val false.

(** Unlinking the key from the chain. *)
Fixpoint chain_remove (key : K) (c : list (K * V)) : option (list (K * V)) :=
  match c with
  | [] => None
  | (k, v) :: c' =>
      if decide (k = key) then Some c'
      else c'' ← chain_remove key c'; Some ((k, v) :: c'')
  end.

Definition htable_remove (ht : htable) (key : K) : res htable :=
  let idx := bucket_idx ht key in
  b ← deref (buckets ht !! Z.to_nat idx);
  if negb (is_used b) then Exit
  else if decide (b_key b = key) then
    match b_next b with
    | (k, v) :: c => Ok (set_bucket ht idx (Bucket k v (is_used b) c) (num_used ht - 1))
    | [] => Ok (set_bucket ht idx (Bucket (b_key b) (b_value b) false (b_next b)) (num_used ht - 1))
    end
  else
    match chain_remove key (b_next b) with
    | Some c => Ok (set_bucket ht idx (Bucket (b_key b) (b_value b) (is_used b) c) (num_used ht - 1))
    | None => Exit
    end.

Fixpoint chain_get (key : K) (c : list (K * V)) : option V :=
  match c with
  | [] => None
  | (k, v) :: c' => if decide (k = key) then Some v else chain_get key c'
  end.

(** [None] is the return value -1, [Some v] is 0 with [v] stored in [val]. *)
Definition htable_get (ht : htable) (key : K) : res (option V) :=
  let idx := bucket_idx ht key in
  b ← deref (buckets ht !! Z.to_nat idx);
  if negb (is_used b) then Ok None
  else Ok (chain_get key ((b_key b, b_value b) :: b_next b)).

Definition htable_get_direct (ht : htable) (key : K) : res V :=
  o ← htable_get ht key; or_exit o.

Definition htable_contains (ht : htable) (key : K) : res bool :=
  o ← htable_get ht key; Ok (bool_decide (is_Some o)).

(** ** Iterator

    [it_cur] is the rest of the chain the iterator is in, [[]] standing for the
    null pointer. *)
Record iterator := Iterator { it_cur : list (K * V); it_idx : nat }.

Definition iterator_create : iterator := Iterator [] 0.

(** [while (idx < num_buckets && !buckets[idx].is_used) idx++;] *)
Fixpoint iterator_skip (bs : list bucket) (idx : nat) : nat :=
  match bs with
  | [] => idx
  | b :: bs' => if is_used b then idx else iterator_skip bs' (S idx)
  end.

Definition iterator_next (ht : htable) (hi : iterator) : res (option (K * V) * iterator) :=
  match it_cur hi with
  | [] =>
      let idx := iterator_skip (drop (it_idx hi) (buckets ht)) (it_idx hi) in
      if num_buckets ht <=? Z.of_nat idx then Ok (None, Iterator [] idx)
      else
        b ← deref (buckets ht !! idx);
        Ok (Some (b_key b, b_value b), Iterator (b_next b) (S idx))
  | (k, v) :: c => Ok (Some (k, v), Iterator c (it_idx hi))
  end.

(** [while (iterator_next(hi, &key, &val) != -1) ...], collecting what it yields. *)
Fixpoint iterate (fuel : nat) (ht : htable) (hi : iterator) : res (list (K * V)) :=
  match fuel with
  | O => NoFuel
  | S fuel' =>
      '(o, hi) ← iterator_next ht hi;
      match o with
      | None => Ok []
      | Some kv => kvs ← iterate fuel' ht hi; Ok (kv :: kvs)
      end
  end.

(** ** Specification *)

Definition bucket_entries (b : bucket) : list (K * V) :=
  if is_used b then (b_key b, b_value b) :: b_next b else [].
Definition entries (ht : htable) : list (K * V) := concat (map bucket_entries (buckets ht)).
Definition contents (ht : htable) : gmap K V := list_to_map (entries ht).

(** A bucket at index [i]: its entries belong there, no key occurs twice, and an
    unused bucket has no chain. *)
Record bucket_ok (ht : htable) (i : nat) (b : bucket) : Prop := BucketOk {
  bucket_place : forall kv, kv ∈ bucket_entries b -> Z.of_nat i = bucket_idx ht kv.1;
  bucket_nodup : NoDup (bucket_entries b).*1;
  bucket_unused : is_used b = false -> b_next b = [] }.

Record shape (ht : htable) : Prop := Shape {
  shape_pos : 0 < num_buckets ht;
  shape_len : Z.of_nat (length (buckets ht)) = num_buckets ht;
  shape_bucket : forall i b, buckets ht !! i = Some b -> bucket_ok ht i b }.

(** Well-formed tables: of that shape, [num_used] being the number of entries. *)
Definition wf (ht : htable) : Prop :=
  shape ht /\ num_used ht = Z.of_nat (length (entries ht)).

(** The load factor: below the limit, unless the table has its maximal size. *)
Definition load_ok (ht : htable) : Prop :=
  (exists e, 3 <= e <= 31 /\ num_buckets ht = 2 ^ e) /\
  (num_used ht < fill_limit (num_buckets ht) \/ 2 ^ TOO_MANY_BUCKETS_BITS <= num_buckets ht).
End HTable.
Arguments htable K V : clear implicits.
Arguments bucket K V : clear implicits.
Arguments iterator K V : clear implicits.

(** ** Lemmas on chains *)

Section Chains.
Context {K V : Type} `{Countable K}.
Implicit Types (c : list (K * V)) (k key : K) (v val : V).

Lemma chain_get_elem c key v :
  NoDup c.*1 -> chain_get key c = Some v <-> (key, v) ∈ c.
Proof.
  induction c as [|[k w] c IH]; simpl; intros N.
  - split; [done|]. intros Hin. by apply elem_of_nil in Hin.
  - apply NoDup_cons in N as [N1 N2]. rewrite elem_of_cons. case_decide as E.
    + subst. split; [intros [= ->]; by left|]. intros [[= ->]|Hin]; [done|].
      destruct N1. apply list_elem_of_fmap. by exists (key, v).
    + rewrite (IH N2). split; [by right|]. by intros [[= -> ->]|?].
Qed.

Lemma chain_update_keys key val c c' :
  chain_update key val c = Some c' -> c'.*1 = c.*1 /\ key ∈ c.*1.
Proof.
  revert c'. induction c as [|[k v] c IH]; intros c'; simpl; [done|].
  case_decide as E; [intros [= <-]; subst; simpl; split; [done|apply list_elem_of_here]|].
  destruct (chain_update key val c) as [c1|]; simpl; [|done]. intros [= <-].
  destruct (IH c1 eq_refl) as [E1 ?]. rewrite !fmap_cons, E1.
  split; [done|by apply list_elem_of_further].
Qed.

Lemma chain_update_None key val c : chain_update key val c = None <-> key ∉ c.*1.
Proof.
  induction c as [|[k v] c IH]; simpl.
  - split; [|done]. intros _ Hin. by apply elem_of_nil in Hin.
  - rewrite elem_of_cons. case_decide as E; [subst; split; [done|tauto]|].
    destruct (chain_update key val c); simpl; naive_solver.
Qed.

Lemma chain_update_get key val c c' k :
  chain_update key val c = Some c' ->
  chain_get k c' = if decide (k = key) then Some val else chain_get k c.
Proof.
  revert c'. induction c as [|[k' v] c IH]; intros c'; simpl; [done|].
  destruct (decide (key = k')) as [E|E];
    [intros [= <-]; subst; simpl; repeat case_decide; congruence|].
  destruct (chain_update key val c) as [c1|]; simpl; [|done]. intros [= <-]. simpl.
  rewrite (IH c1 eq_refl). repeat case_decide; congruence.
Qed.

Lemma chain_get_app c c' k :
  chain_get k (c ++ c') = match chain_get k c with Some v => Some v | None => chain_get k c' end.
Proof. induction c as [|[k' v] c IH]; simpl; [done|]. by case_decide. Qed.

Lemma chain_get_None c k : chain_get k c = None <-> k ∉ c.*1.
Proof.
  induction c as [|[k' v] c IH]; simpl.
  - split; [|done]. intros _ Hin. by apply elem_of_nil in Hin.
  - rewrite elem_of_cons. case_decide as E; [subst; split; [done|tauto]|].
    rewrite IH. naive_solver.
Qed.

Lemma chain_remove_get key c c' k :
  NoDup c.*1 -> chain_remove key c = Some c' ->
  chain_get k c' = (if decide (k = key) then None else chain_get k c) /\
  length c = S (length c') /\ c'.*1 ⊆ c.*1 /\ NoDup c'.*1.
Proof.
  revert c'. induction c as [|[k' v] c IH]; intros c' N; simpl; [done|]. simpl in N.
  apply NoDup_cons in N as [N1 N2]. destruct (decide (k' = key)) as [E|E].
  - intros [= <-]. subst. split_and!; [|done|set_solver|done].
    case_decide; [subst; by apply chain_get_None|]. by rewrite decide_False.
  - destruct (chain_remove key c) as [c1|]; simpl; [|done]. intros [= <-]. simpl.
    destruct (IH c1 N2 eq_refl) as (-> & -> & S & N3).
    split_and!; [repeat case_decide; congruence|done|set_solver|].
    apply NoDup_cons. split; [set_solver|done].
Qed.

Lemma chain_remove_None key c : chain_remove key c = None <-> key ∉ c.*1.
Proof.
  induction c as [|[k v] c IH]; simpl.
  - split; [|done]. intros _ Hin. by apply elem_of_nil in Hin.
  - rewrite elem_of_cons. case_decide as E; [subst; split; [done|tauto]|].
    destruct (chain_remove key c); simpl; naive_solver.
Qed.

(** The entries after [key] was set to [val]. *)
Definition assoc_set key val c : list (K * V) :=
  match chain_update key val c with Some c' => c' | None => c ++ [(key, val)] end.

Lemma assoc_set_get key val c k :
  chain_get k (assoc_set key val c) = if decide (k = key) then Some val else chain_get k c.
Proof.
  unfold assoc_set. destruct (chain_update key val c) as [c'|] eqn:E.
  - by apply chain_update_get.
  - rewrite chain_get_app. apply chain_update_None in E. simpl. case_decide as E1.
    + subst. apply chain_get_None in E. by rewrite E, decide_True.
    + rewrite decide_False by done. by destruct (chain_get k c).
Qed.

Lemma assoc_set_keys key val c :
  (assoc_set key val c).*1 = if decide (key ∈ c.*1) then c.*1 else c.*1 ++ [key].
Proof.
  unfold assoc_set. destruct (chain_update key val c) as [c'|] eqn:E.
  - apply chain_update_keys in E as [-> ?]. by rewrite decide_True.
  - apply chain_update_None in E. by rewrite decide_False, fmap_app by done.
Qed.

Lemma assoc_set_nodup key val c : NoDup c.*1 -> NoDup (assoc_set key val c).*1.
Proof.
  intros N. rewrite assoc_set_keys. case_decide; [done|].
  apply NoDup_app. split_and!; [done| |apply NoDup_singleton]. set_solver.
Qed.

Lemma assoc_set_length key val c :
  length (assoc_set key val c) =
    (length c + match chain_get key c with Some _ => 0 | None => 1 end)%nat.
Proof.
  rewrite <- (length_fmap fst), assoc_set_keys. destruct (chain_get key c) as [v|] eqn:E.
  - rewrite decide_True; [rewrite length_fmap; lia|].
    apply dec_stable. rewrite <- chain_get_None. congruence.
  - apply chain_get_None in E. rewrite decide_False by done.
    rewrite length_app, length_fmap. done.
Qed.
End Chains.

(** ** Lemmas on tables *)

Section Tables.
Context {K V : Type} `{Countable K}.
Variable hash_fn : K -> Z -> Z.
Implicit Types (ht : htable K V) (b : bucket K V) (k key : K) (v val : V) (kv : K * V).

#[local] Abbreviation bucket_idx := (bucket_idx hash_fn).
#[local] Abbreviation shape := (shape hash_fn).
#[local] Abbreviation bucket_ok := (bucket_ok hash_fn).

Lemma contents_get ht k : contents ht !! k = chain_get k (entries ht).
Proof.
  unfold contents. induction (entries ht) as [|[k' v] c IH]; simpl; [apply lookup_empty|].
  rewrite lookup_insert, IH. done.
Qed.

Lemma entries_split (bs : list (bucket K V)) i b :
  bs !! i = Some b -> exists pre post,
    pre = concat (map bucket_entries (take i bs)) /\
    post = concat (map bucket_entries (drop (S i) bs)) /\
    concat (map bucket_entries bs) = pre ++ bucket_entries b ++ post /\
    forall b', concat (map bucket_entries (<[i := b']> bs)) = pre ++ bucket_entries b' ++ post.
Proof.
  intros Hb. eexists _, _. split; [reflexivity|]. split; [reflexivity|]. split.
  - rewrite <- (take_drop_middle _ _ _ Hb) at 1. by rewrite map_app, concat_app.
  - intros b'. rewrite insert_take_drop by (by eapply lookup_lt_Some).
    by rewrite map_app, concat_app.
Qed.

Lemma bucket_entries_elem (bs : list (bucket K V)) kv :
  kv ∈ concat (map bucket_entries bs) <-> exists i b, bs !! i = Some b /\ kv ∈ bucket_entries b.
Proof.
  induction bs as [|b bs IH]; simpl.
  - split; [intros Hi; by apply elem_of_nil in Hi|intros (i & b & Hi & _)].
    by rewrite lookup_nil in Hi.
  - rewrite elem_of_app, IH. split.
    + intros [?|(i & b' & ? & ?)]; [by exists 0%nat, b|by exists (S i), b'].
    + intros ([|i] & b' & ? & ?); simplify_eq/=; [by left|right; eauto].
Qed.

Lemma bucket_idx_range ht k : shape ht -> 0 <= bucket_idx ht k < num_buckets ht.
Proof.
  intros [P _ _]. unfold HTable.bucket_idx. rewrite (proj2 (Z.ltb_lt _ _) P).
  by apply Z.mod_pos_bound.
Qed.

Lemma bucket_exists ht k : shape ht -> exists b, buckets ht !! Z.to_nat (bucket_idx ht k) = Some b.
Proof.
  intros S. pose proof (bucket_idx_range _ k S). pose proof (shape_len _ _ S).
  apply lookup_lt_is_Some_2. lia.
Qed.

(** A key is searched for in its own bucket only. *)
Lemma get_own ht k b :
  shape ht -> buckets ht !! Z.to_nat (bucket_idx ht k) = Some b ->
  chain_get k (entries ht) = chain_get k (bucket_entries b).
Proof.
  intros S Hb. pose proof (bucket_idx_range _ k S) as Hr.
  destruct (entries_split _ _ _ Hb) as (pre & post & -> & -> & E & _).
  unfold entries. rewrite E, !chain_get_app.
  assert (F : forall bs', (forall i b', bs' !! i = Some b' -> exists j,
      buckets ht !! j = Some b' /\ j <> Z.to_nat (bucket_idx ht k)) ->
      chain_get k (concat (map bucket_entries bs')) = None).
  { intros bs' Hbs. apply chain_get_None. intros ([k' v] & -> & Hin)%list_elem_of_fmap.
    apply bucket_entries_elem in Hin as (i & b' & Hi & Hin).
    destruct (Hbs i b' Hi) as (j & Hj & Hne).
    pose proof (bucket_place _ _ _ _ (shape_bucket _ _ S _ _ Hj) _ Hin). simpl in *. lia. }
  rewrite (F (take _ _)), (F (drop _ _)); [by destruct (chain_get k _)|..].
  - intros i b' Hi. rewrite lookup_drop in Hi. eexists. split; [exact Hi|lia].
  - intros i b' Hi. pose proof (lookup_lt_Some _ _ _ Hi) as Hl. rewrite length_take in Hl.
    rewrite lookup_take_lt in Hi by lia. exists i. split; [done|lia].
Qed.

Lemma set_bucket_shape ht idx b b' u :
  shape ht -> buckets ht !! Z.to_nat idx = Some b -> bucket_ok ht (Z.to_nat idx) b' ->
  shape (set_bucket ht idx b' u).
Proof.
  intros S Hb Hok. split; simpl; [apply S|rewrite length_insert; apply S|].
  intros i b1 Hi. destruct (decide (i = Z.to_nat idx)) as [->|Hne].
  - rewrite list_lookup_insert_eq in Hi by (by eapply lookup_lt_Some). simplify_eq.
    destruct Hok. by split.
  - rewrite list_lookup_insert_ne in Hi by done. destruct (shape_bucket _ _ S _ _ Hi). by split.
Qed.

Lemma set_bucket_get ht idx b b' u k :
  0 <= idx -> shape ht -> buckets ht !! Z.to_nat idx = Some b ->
  bucket_ok ht (Z.to_nat idx) b' ->
  chain_get k (entries (set_bucket ht idx b' u)) =
    if decide (bucket_idx ht k = idx) then chain_get k (bucket_entries b')
    else chain_get k (entries ht).
Proof.
  intros P S Hb Hok. pose proof (set_bucket_shape _ _ _ _ u S Hb Hok) as S'.
  pose proof (bucket_idx_range _ k S) as Hr.
  case_decide as E.
  - apply (get_own _ _ _ S'). simpl.
    change (bucket_idx (set_bucket ht idx b' u) k) with (bucket_idx ht k). rewrite E.
    apply list_lookup_insert_eq. by eapply lookup_lt_Some.
  - destruct (bucket_exists ht k S) as [b1 Hb1]. rewrite (get_own _ _ _ S Hb1).
    apply (get_own _ _ _ S'). simpl.
    change (bucket_idx (set_bucket ht idx b' u) k) with (bucket_idx ht k).
    by rewrite list_lookup_insert_ne by lia.
Qed.

Lemma set_bucket_length ht idx b b' u :
  buckets ht !! Z.to_nat idx = Some b ->
  (length (entries (set_bucket ht idx b' u)) + length (bucket_entries b) =
     length (entries ht) + length (bucket_entries b'))%nat.
Proof.
  intros Hb. destruct (entries_split _ _ _ Hb) as (pre & post & _ & _ & E & E').
  unfold entries. simpl. rewrite E, E', !length_app. lia.
Qed.

(** ** [add_to_bucket] *)

Lemma add_to_bucket_step ht key val (rh : bool) b :
  shape ht -> buckets ht !! Z.to_nat (bucket_idx ht key) = Some b ->
  exists b', add_to_bucket hash_fn ht key val rh =
      Ok (set_bucket ht (bucket_idx ht key) b'
            (num_used ht + if rh then 0 else match chain_get key (bucket_entries b) with
                                             | Some _ => 0 | None => 1 end)) /\
    is_used b' = true /\ bucket_entries b' = assoc_set key val (bucket_entries b).
Proof.
  intros S Hb. unfold add_to_bucket. rewrite Hb. simpl.
  pose proof (bucket_unused _ _ _ _ (shape_bucket _ _ S _ _ Hb)) as Hu.
  destruct b as [bk bv [] c]; simpl in *.
  - unfold bucket_entries. simpl. destruct (decide (key = bk)) as [E|E].
    + subst. rewrite decide_True by done. eexists.
      split; [destruct rh; rewrite Z.add_0_r; reflexivity|].
      simpl. split; [done|]. unfold assoc_set. simpl. by rewrite decide_True.
    + unfold assoc_set. simpl. rewrite decide_False by done.
      destruct (chain_update key val c) as [c'|] eqn:Eu; simpl.
      * assert (exists v, chain_get key c = Some v) as [v ->].
        { apply chain_update_keys in Eu as [_ Hin].
          destruct (chain_get key c) eqn:Eg; [eauto|]. by apply chain_get_None in Eg. }
        rewrite decide_False by done.
        eexists. split; [destruct rh; rewrite Z.add_0_r; reflexivity|done].
      * rewrite decide_False by done. apply chain_update_None, chain_get_None in Eu. rewrite Eu.
        eexists. split; [destruct rh; rewrite ?Z.add_0_r; reflexivity|]. done.
  - specialize (Hu eq_refl). subst c. eexists.
    split; [destruct rh; rewrite ?Z.add_0_r; reflexivity|]. done.
Qed.

Lemma assoc_set_ok ht key val b b' :
  shape ht -> buckets ht !! Z.to_nat (bucket_idx ht key) = Some b -> is_used b' = true ->
  bucket_entries b' = assoc_set key val (bucket_entries b) ->
  bucket_ok ht (Z.to_nat (bucket_idx ht key)) b'.
Proof.
  intros S Hb Hu E. pose proof (shape_bucket _ _ S _ _ Hb) as [P N _]. split.
  - intros kv Hin. rewrite E in Hin.
    assert (kv.1 ∈ (assoc_set key val (bucket_entries b)).*1) as Hk
      by (apply list_elem_of_fmap; eauto).
    pose proof (bucket_idx_range _ key S). rewrite assoc_set_keys in Hk. case_decide.
    + apply list_elem_of_fmap in Hk as (kv' & -> & Hin'). by apply P.
    + apply elem_of_app in Hk as [Hk|Hk%list_elem_of_singleton]; [|rewrite Hk; lia].
      apply list_elem_of_fmap in Hk as (kv' & -> & Hin'). by apply P.
  - rewrite E. by apply assoc_set_nodup.
  - congruence.
Qed.

Record same_size ht ht' : Prop := SameSize {
  same_num : num_buckets ht' = num_buckets ht;
  same_seed : seed ht' = seed ht }.

Definition is_new ht key : Z := match contents ht !! key with Some _ => 0 | None => 1 end.

Lemma add_to_bucket_ok ht key val (rh : bool) :
  shape ht -> exists ht', add_to_bucket hash_fn ht key val rh = Ok ht' /\ shape ht' /\
    same_size ht ht' /\ contents ht' = <[key := val]> (contents ht) /\
    num_used ht' = num_used ht + (if rh then 0 else is_new ht key) /\
    Z.of_nat (length (entries ht')) = Z.of_nat (length (entries ht)) + is_new ht key.
Proof.
  intros S. destruct (bucket_exists ht key S) as [b Hb].
  destruct (add_to_bucket_step ht key val rh b S Hb) as (b' & E & Hu & Eb).
  pose proof (assoc_set_ok _ _ _ _ _ S Hb Hu Eb) as Hok.
  pose proof (bucket_idx_range _ key S) as Hr.
  eexists. split; [exact E|]. unfold is_new. rewrite contents_get, (get_own _ _ _ S Hb).
  split_and!; try done; [by eapply set_bucket_shape| |].
  - apply map_eq. intros k. rewrite contents_get, (set_bucket_get _ _ b) by (done || lia).
    rewrite Eb, assoc_set_get, lookup_insert, contents_get.
    destruct (decide (bucket_idx ht k = bucket_idx ht key)) as [Ei|Ei].
    + rewrite (get_own ht k b) by (by rewrite ?Ei). repeat case_decide; congruence.
    + rewrite decide_False by congruence. done.
  - pose proof (set_bucket_length ht _ b b' (num_used ht + (if rh then 0 else
      match chain_get key (bucket_entries b) with Some _ => 0 | None => 1 end)) Hb) as L.
    rewrite Eb, assoc_set_length in L. destruct (chain_get key (bucket_entries b)); lia.
Qed.

(** ** [rehash] *)

Lemma entries_nodup ht : shape ht -> NoDup (entries ht).*1.
Proof.
  intros Sh. unfold entries.
  assert (G : forall (bs : list (bucket K V)) off, (forall i b, bs !! i = Some b ->
      (forall kv, kv ∈ bucket_entries b -> Z.of_nat (off + i) = bucket_idx ht kv.1) /\
      NoDup (bucket_entries b).*1) -> NoDup (concat (map bucket_entries bs)).*1).
  { induction bs as [|b bs IH]; intros off Hb; simpl; [constructor|].
    rewrite fmap_app. apply NoDup_app. split_and!.
    - by apply (Hb 0%nat b).
    - intros k Hk Hk'. apply list_elem_of_fmap in Hk as (kv & -> & Hin).
      apply list_elem_of_fmap in Hk' as (kv' & E & Hin').
      apply bucket_entries_elem in Hin' as (i & b' & Hi & Hin').
      destruct (Hb 0%nat b eq_refl) as [P _]. destruct (Hb (S i) b' Hi) as [P' _].
      specialize (P _ Hin). specialize (P' _ Hin'). rewrite E in P. lia.
    - apply (IH (S off)). intros i b' Hi.
      replace (S off + i)%nat with (off + S i)%nat by lia. by apply (Hb (S i)). }
  apply (G _ 0%nat). intros i b Hb. destruct (shape_bucket _ _ Sh _ _ Hb). by split.
Qed.

Lemma rehash_chain_app ht (c c' : list (K * V)) :
  rehash_chain hash_fn ht (c ++ c') = (ht ← rehash_chain hash_fn ht c; rehash_chain hash_fn ht c').
Proof.
  revert ht. induction c as [|[k v] c IH]; intros ht; simpl; [done|].
  destruct (add_to_bucket hash_fn ht k v true); simpl; auto.
Qed.

Lemma rehash_buckets_chain ht (bs : list (bucket K V)) :
  rehash_buckets hash_fn ht bs = rehash_chain hash_fn ht (concat (map bucket_entries bs)).
Proof.
  revert ht. induction bs as [|[k v [] c] bs IH]; intros ht; simpl; [done| |apply IH].
  destruct (add_to_bucket hash_fn ht k v true); simpl; [|done..].
  rewrite rehash_chain_app. destruct (rehash_chain hash_fn _ c); simpl; auto.
Qed.

Lemma rehash_chain_ok ht (c : list (K * V)) :
  shape ht -> NoDup c.*1 -> (forall k, k ∈ c.*1 -> contents ht !! k = None) ->
  exists ht', rehash_chain hash_fn ht c = Ok ht' /\ shape ht' /\ same_size ht ht' /\
    contents ht' = list_to_map c ∪ contents ht /\ num_used ht' = num_used ht /\
    length (entries ht') = (length (entries ht) + length c)%nat.
Proof.
  revert ht. induction c as [|[k v] c IH]; intros ht S N Hd.
  - exists ht. rewrite Nat.add_0_r. simpl. rewrite (left_id_L ∅ _). by split_and!.
  - apply NoDup_cons in N as [N1 N2]. simpl.
    destruct (add_to_bucket_ok ht k v true S) as (ht1 & -> & S1 & Z1 & C1 & U1 & L1). simpl.
    assert (contents ht !! k = None) as Hk by (apply Hd; left).
    destruct (IH ht1 S1 N2) as (ht2 & -> & S2 & Z2 & C2 & U2 & L2).
    { intros k' Hk'. rewrite C1, lookup_insert_ne by (intros <-; done). apply Hd. by right. }
    exists ht2. split_and!; try done.
    + destruct Z1, Z2. split; congruence.
    + rewrite C2, C1, <- insert_union_r by (by apply not_elem_of_list_to_map_1).
      simpl. by rewrite insert_union_l.
    + lia.
    + unfold is_new in L1. rewrite Hk in L1. simpl. lia.
Qed.

Lemma empty_entries (b0 : bucket K V) n :
  is_used b0 = false -> concat (map bucket_entries (replicate n b0)) = [].
Proof.
  intros E. induction n as [|n IH]; simpl; [done|]. rewrite IH. unfold bucket_entries. by rewrite E.
Qed.

Lemma empty_shape key0 val0 n u s :
  0 < n -> shape (HTable (replicate (Z.to_nat n) (bucket0 (K := K) (V := V) key0 val0)) n u s).
Proof.
  intros Hn. split; simpl; [done|rewrite length_replicate; lia|].
  intros i b Hi. apply lookup_replicate in Hi as [-> _]. split; [|constructor|done].
  intros kv Hin. by apply elem_of_nil in Hin.
Qed.

Definition next_size ht : Z :=
  if (num_used ht + 1 <? fill_limit (num_buckets ht))
     || (2 ^ TOO_MANY_BUCKETS_BITS <=? num_buckets ht)
  then num_buckets ht else 2 * num_buckets ht.

Lemma rehash_ok key0 val0 ht :
  wf hash_fn ht -> exists ht', rehash hash_fn key0 val0 ht = Ok ht' /\ wf hash_fn ht' /\
    contents ht' = contents ht /\ num_used ht' = num_used ht /\
    num_buckets ht' = next_size ht.
Proof.
  intros [S U]. unfold rehash, next_size.
  destruct (_ || _) eqn:E; [exists ht; by split_and!|].
  rewrite rehash_buckets_chain.
  set (ht0 := HTable _ _ _ _).
  assert (S0 : shape ht0) by (apply empty_shape; pose proof (shape_pos _ _ S); lia).
  assert (E0 : entries ht0 = []) by (by apply empty_entries).
  assert (C0 : contents ht0 = ∅) by (unfold contents; by rewrite E0).
  destruct (rehash_chain_ok ht0 (entries ht) S0) as (ht' & E' & S' & [Z1 _] & C' & U' & L').
  { by apply entries_nodup. } { intros k _. by rewrite C0, lookup_empty. }
  exists ht'. split_and!; [done| |rewrite C', C0; apply (right_id_L ∅ _)|done|done].
  split; [done|]. rewrite U', L', E0. simpl. by rewrite U.
Qed.

(** ** [insert], [get], [remove] *)

Lemma ht_insert_ok key0 val0 ht key val :
  wf hash_fn ht -> exists ht', htable_insert hash_fn key0 val0 ht key val = Ok ht' /\ wf hash_fn ht' /\
    contents ht' = <[key := val]> (contents ht) /\
    num_used ht' = num_used ht + is_new ht key /\ num_buckets ht' = next_size ht.
Proof.
  intros W. unfold htable_insert.
  destruct (rehash_ok key0 val0 ht W) as (ht1 & -> & [S1 U1] & C1 & N1 & B1). simpl.
  destruct (add_to_bucket_ok ht1 key val false S1) as (ht2 & -> & S2 & [Z2 _] & C2 & U2 & L2).
  exists ht2. rewrite C2, C1. unfold is_new in *. rewrite C1 in *.
  split_and!; [done|split; [done|lia]|done|lia|congruence].
Qed.

Lemma ht_get_ok ht key : shape ht -> htable_get hash_fn ht key = Ok (contents ht !! key).
Proof.
  intros S. destruct (bucket_exists ht key S) as [b Hb]. unfold htable_get. rewrite Hb. simpl.
  rewrite contents_get, (get_own _ _ _ S Hb). unfold bucket_entries. by destruct (is_used b).
Qed.

(** What [remove] does in the bucket of the key. *)
Lemma remove_step ht key b :
  shape ht -> buckets ht !! Z.to_nat (bucket_idx ht key) = Some b ->
  match chain_remove key (bucket_entries b) with
  | Some c => exists b', htable_remove hash_fn ht key =
        Ok (set_bucket ht (bucket_idx ht key) b' (num_used ht - 1)) /\
      bucket_entries b' = c /\ (is_used b' = false -> b_next b' = [])
  | None => htable_remove hash_fn ht key = Exit
  end.
Proof.
  intros S Hb. unfold htable_remove. rewrite Hb. simpl.
  destruct b as [bk bv [] c]; simpl; [|done]. case_decide as E.
  - destruct c as [|[k v] c]; eexists; (split; [reflexivity|]); done.
  - destruct (chain_remove key c) as [c'|]; simpl; [|done].
    eexists. split; [reflexivity|]. done.
Qed.

Lemma ht_remove_ok ht key :
  wf hash_fn ht ->
  match contents ht !! key with
  | Some _ => exists ht', htable_remove hash_fn ht key = Ok ht' /\ wf hash_fn ht' /\
      contents ht' = delete key (contents ht) /\ num_used ht' = num_used ht - 1 /\
      num_buckets ht' = num_buckets ht
  | None => htable_remove hash_fn ht key = Exit
  end.
Proof.
  intros [S U]. destruct (bucket_exists ht key S) as [b Hb].
  pose proof (remove_step ht key b S Hb) as R. pose proof (bucket_idx_range _ key S) as Hr.
  pose proof (shape_bucket _ _ S _ _ Hb) as [P N _].
  rewrite contents_get, (get_own _ _ _ S Hb).
  destruct (chain_remove key (bucket_entries b)) as [c|] eqn:E.
  - destruct (chain_get key (bucket_entries b)) as [v|] eqn:G.
    2:{ apply chain_get_None, chain_remove_None in G. congruence. }
    destruct R as (b' & -> & Eb & Hu). eexists. split; [reflexivity|].
    destruct (chain_remove_get key _ c key N E) as (_ & L & Sub & Nc).
    assert (Hok : bucket_ok ht (Z.to_nat (bucket_idx ht key)) b').
    { split; [|by rewrite Eb|done]. intros kv Hin. rewrite Eb in Hin.
      assert (kv.1 ∈ (bucket_entries b).*1) as Hk by (apply Sub, list_elem_of_fmap; eauto).
      apply list_elem_of_fmap in Hk as (kv' & -> & ?). by apply P. }
    split_and!; try done.
    + split; [by eapply set_bucket_shape|].
      pose proof (set_bucket_length ht _ b b' (num_used ht - 1) Hb) as L'.
      rewrite Eb in L'. simpl. lia.
    + apply map_eq. intros k. rewrite contents_get, (set_bucket_get _ _ b) by (done || lia).
      destruct (chain_remove_get key _ c k N E) as (Gk & _).
      rewrite Eb, Gk, lookup_delete, contents_get.
      destruct (decide (bucket_idx ht k = bucket_idx ht key)) as [Ei|Ei].
      * rewrite (get_own ht k b) by (by rewrite ?Ei). repeat case_decide; congruence.
      * rewrite decide_False by congruence. done.
  - apply chain_remove_None, chain_get_None in E. by rewrite E.
Qed.
End Tables.

(** ** The load factor *)

Section Load.
Context {K V : Type} `{Countable K}.
Variable hash_fn : K -> Z -> Z.
Implicit Types (ht : htable K V).

Lemma fill_limit_grows e : 3 <= e <= 30 -> fill_limit (2 ^ e) < fill_limit (2 ^ (e + 1)).
Proof.
  intros He.
  assert (F : forallb (fun e => fill_limit (2 ^ e) <? fill_limit (2 ^ (e + 1))) (seqZ 3 28) = true)
    by (vm_compute; reflexivity).
  rewrite forallb_forall in F. apply Z.ltb_lt, F, list_elem_of_In, elem_of_seqZ. lia.
Qed.

Lemma create_load s key0 val0 : load_ok (htable_create (K := K) (V := V) key0 val0 s).
Proof. split; [by exists 3|left; vm_compute; reflexivity]. Qed.

Lemma insert_load ht ht' key :
  load_ok ht -> num_used ht' = num_used ht + is_new ht key -> num_buckets ht' = next_size ht ->
  load_ok ht'.
Proof.
  intros [(e & He & En) L] U B. unfold load_ok. rewrite U, B. unfold next_size, TOO_MANY_BUCKETS_BITS in *.
  assert (is_new ht key <= 1) by (unfold is_new; destruct (contents ht !! key); lia).
  destruct (_ || _) eqn:E.
  - split; [by exists e|]. apply orb_true_iff in E as [E|E]; lia.
  - bool_prop. destruct L as [L|L]; [|lia].
    assert (e <> 31) by (intros ->; lia).
    assert (E2 : 2 * num_buckets ht = 2 ^ (e + 1)) by (rewrite En, Z.pow_add_r by lia; lia).
    split; [exists (e + 1); split; [lia|done]|left].
    pose proof (fill_limit_grows e ltac:(lia)). rewrite E2. rewrite <- En in *. lia.
Qed.

(** ** The iterator *)

Definition remaining ht (hi : iterator K V) : list (K * V) :=
  it_cur hi ++ concat (map bucket_entries (drop (it_idx hi) (buckets ht))).

Lemma iterator_skip_ok (bs : list (bucket K V)) idx :
  exists n, iterator_skip bs idx = (idx + n)%nat /\
    concat (map bucket_entries bs) = concat (map bucket_entries (drop n bs)) /\
    (n <= length bs)%nat /\ forall b, bs !! n = Some b -> is_used b = true.
Proof.
  revert idx. induction bs as [|b bs IH]; intros idx; simpl.
  - exists 0%nat. split_and!; [lia|done|lia|done].
  - destruct (is_used b) eqn:E.
    + exists 0%nat. split_and!; [lia|done|lia|]. intros b' [= <-]. done.
    + destruct (IH (S idx)) as (n & -> & Ec & Hn & Hb). exists (S n).
      split_and!; [lia| |lia|done]. unfold bucket_entries at 1. by rewrite E.
Qed.

Lemma iterator_next_ok ht hi :
  shape hash_fn ht -> (it_idx hi <= length (buckets ht))%nat ->
  match remaining ht hi with
  | [] => exists hi', iterator_next ht hi = Ok (None, hi')
  | kv :: r => exists hi', iterator_next ht hi = Ok (Some kv, hi') /\ remaining ht hi' = r /\
      (it_idx hi' <= length (buckets ht))%nat
  end.
Proof.
  intros S Hi. pose proof (shape_len _ _ S) as L. unfold remaining, iterator_next.
  destruct hi as [[|[k v] c] idx]; simpl in *; [|by eexists].
  destruct (iterator_skip_ok (drop idx (buckets ht)) idx) as (n & -> & -> & Hn & Hb).
  rewrite length_drop in Hn. rewrite drop_drop.
  destruct (num_buckets ht <=? Z.of_nat (idx + n)) eqn:E; bool_prop.
  - rewrite drop_ge by lia. simpl. by eexists.
  - destruct (lookup_lt_is_Some_2 (buckets ht) (idx + n)) as [b Eb]; [lia|].
    rewrite (drop_S _ _ _ Eb), Eb. simpl. unfold bucket_entries.
    rewrite (Hb b) by (by rewrite lookup_drop). simpl. eexists. split; [reflexivity|].
    split; [done|]. simpl. lia.
Qed.

Lemma iterate_ok ht fuel hi :
  shape hash_fn ht -> (it_idx hi <= length (buckets ht))%nat ->
  (length (remaining ht hi) < fuel)%nat -> iterate fuel ht hi = Ok (remaining ht hi).
Proof.
  intros S. revert hi. induction fuel as [|fuel IH]; intros hi Hi Hf; [lia|].
  pose proof (iterator_next_ok ht hi S Hi) as N. simpl. destruct (remaining ht hi) as [|kv r].
  - destruct N as (hi' & ->). done.
  - destruct N as (hi' & -> & E & Hi'). simpl. rewrite (IH hi'), E; simpl in *; [done|done|].
    rewrite E. lia.
Qed.
End Load.

(** ** Properties *)

(** C40: [insert] never fails on a well-formed table: it has the effect of a map
    insertion, counts a new key and not a replaced one, and keeps the table
    well-formed with its load factor below 0.6 (as the code computes it in
    binary32) unless it has reached 2^31 buckets. *)
Theorem htable_insert_refines {K V} `{Countable K} (hash_fn : K -> Z -> Z) key0 val0
    (ht : htable K V) (key : K) (val : V) (W : wf hash_fn ht) (L : load_ok ht) :
  exists ht', htable_insert hash_fn key0 val0 ht key val = Ok ht' /\
    wf hash_fn ht' /\ load_ok ht' /\
    contents ht' = <[key := val]> (contents ht) /\
    htable_size ht' =
      htable_size ht + (if decide (is_Some (contents ht !! key)) then 0 else 1).
Proof.
  destruct (ht_insert_ok hash_fn key0 val0 ht key val W) as (ht' & E & W' & C & U & B).
  exists ht'. split_and!; [done|done|by eapply insert_load|done|].
  unfold htable_size. rewrite U. unfold is_new.
  destruct (contents ht !! key); [rewrite decide_True by done|rewrite decide_False by (by intros [])]; done.
Qed.

Lemma create_wf {K V} `{Countable K} (hash_fn : K -> Z -> Z) (key0 : K) (val0 : V) s :
  wf hash_fn (htable_create key0 val0 s).
Proof. split; [by apply empty_shape|reflexivity]. Qed.

Lemma htable_insert_refines_witness :
  exists ht' : htable Z Z, htable_insert fnv_hash_ul 0 0 (htable_create 0 0 42) 7 70 = Ok ht' /\
    wf fnv_hash_ul ht' /\ load_ok ht' /\
    contents ht' = <[7 := 70]> (contents (htable_create (K := Z) (V := Z) 0 0 42)) /\
    htable_size ht' = 0 + 1.
Proof.
  exact (htable_insert_refines fnv_hash_ul 0 0 (htable_create 0 0 42) 7 70
           (create_wf fnv_hash_ul 0 0 42) (create_load 42 0 0)).
Defined.

(** [remove] on a well-formed table has the effect of a map deletion and keeps
    the table well-formed when the key is there, and ends the program when it is
    not, wherever in its chain the key is. *)
Theorem htable_remove_refines {K V} `{Countable K} (hash_fn : K -> Z -> Z)
    (ht : htable K V) (key : K) (W : wf hash_fn ht) :
  match contents ht !! key with
  | Some _ => exists ht', htable_remove hash_fn ht key = Ok ht' /\ wf hash_fn ht' /\
      contents ht' = delete key (contents ht) /\ htable_size ht' = htable_size ht - 1
  | None => htable_remove hash_fn ht key = Exit
  end.
Proof.
  pose proof (ht_remove_ok hash_fn ht key W) as R. destruct (contents ht !! key); [|done].
  destruct R as (ht' & ? & ? & ? & ? & _). by exists ht'.
Qed.

Lemma htable_remove_refines_witness :
  exists ht : htable Z Z, contents ht !! 7 = Some 70 /\
    exists ht', htable_remove fnv_hash_ul ht 7 = Ok ht' /\ wf fnv_hash_ul ht' /\
      contents ht' = delete 7 (contents ht) /\ htable_size ht' = htable_size ht - 1.
Proof.
  destruct (ht_insert_ok fnv_hash_ul 0 0 (htable_create (K := Z) (V := Z) 0 0 42) 7 70
              (create_wf _ _ _ _)) as (ht & _ & W & C & _).
  exists ht. assert (E : contents ht !! 7 = Some 70) by (rewrite C; reflexivity). split; [exact E|].
  pose proof (htable_remove_refines fnv_hash_ul ht 7 W) as R. rewrite E in R. exact R.
Defined.

(** The three lookups agree with the map: [get] returns its value or -1,
    [get_direct] its value or ends the program, [contains] whether there is one. *)
Theorem htable_lookup_refines {K V} `{Countable K} (hash_fn : K -> Z -> Z)
    (ht : htable K V) (key : K) (W : wf hash_fn ht) :
  htable_get hash_fn ht key = Ok (contents ht !! key) /\
  htable_get_direct hash_fn ht key = or_exit (contents ht !! key) /\
  htable_contains hash_fn ht key = Ok (bool_decide (is_Some (contents ht !! key))).
Proof.
  destruct W as [S _]. unfold htable_get_direct, htable_contains.
  by rewrite (ht_get_ok hash_fn ht key S).
Qed.

Lemma htable_lookup_refines_witness :
  exists ht : htable Z Z, htable_get fnv_hash_ul ht 7 = Ok (contents ht !! 7) /\
    htable_get_direct fnv_hash_ul ht 7 = or_exit (contents ht !! 7) /\
    htable_contains fnv_hash_ul ht 7 = Ok (bool_decide (is_Some (contents ht !! 7))).
Proof.
  destruct (ht_insert_ok fnv_hash_ul 0 0 (htable_create (K := Z) (V := Z) 0 0 42) 7 70
              (create_wf _ _ _ _)) as (ht & _ & W & _).
  exists ht. exact (htable_lookup_refines fnv_hash_ul ht 7 W).
Defined.

(** [rehash] returns, keeps the table well-formed, changes neither the entries
    it holds nor their number, and at most doubles the buckets. *)
Theorem htable_rehash_preserves {K V} `{Countable K} (hash_fn : K -> Z -> Z) key0 val0
    (ht : htable K V) (W : wf hash_fn ht) :
  exists ht', rehash hash_fn key0 val0 ht = Ok ht' /\ wf hash_fn ht' /\
    contents ht' = contents ht /\ num_used ht' = num_used ht /\
    (num_buckets ht' = num_buckets ht \/
     num_buckets ht' = 2 * num_buckets ht /\ num_buckets ht < 2 ^ 31).
Proof.
  destruct (rehash_ok hash_fn key0 val0 ht W) as (ht' & E & W' & C & U & B).
  exists ht'. split_and!; try done. rewrite B. unfold next_size.
  destruct (_ || _) eqn:D; [by left|right]. bool_prop. split; [done|].
  unfold TOO_MANY_BUCKETS_BITS in *. lia.
Qed.

Lemma htable_rehash_preserves_witness :
  exists ht' : htable Z Z, rehash fnv_hash_ul 0 0 (htable_create 0 0 42) = Ok ht' /\
    wf fnv_hash_ul ht' /\
    contents ht' = contents (htable_create (K := Z) (V := Z) 0 0 42) /\ num_used ht' = 0 /\
    (num_buckets ht' = 8 \/ num_buckets ht' = 2 * 8 /\ 8 < 2 ^ 31).
Proof.
  exact (htable_rehash_preserves fnv_hash_ul 0 0 (htable_create 0 0 42) (create_wf _ _ _ _)).
Defined.

(** A fresh iterator ends and yields every entry of a well-formed table exactly
    once: the pairs it returns have distinct keys, are as many as the size of the
    table, and are the bindings of the map. *)
Theorem htable_iterator_complete {K V} `{Countable K} (hash_fn : K -> Z -> Z)
    (ht : htable K V) (fuel : nat) (W : wf hash_fn ht)
    (F : htable_size ht < Z.of_nat fuel) :
  exists kvs, iterate fuel ht iterator_create = Ok kvs /\ NoDup kvs.*1 /\
    Z.of_nat (length kvs) = htable_size ht /\
    list_to_map kvs = contents ht.
Proof.
  destruct W as [S U]. exists (entries ht). unfold htable_size in *.
  rewrite (iterate_ok hash_fn); [|done|simpl; lia|].
  - unfold remaining. simpl. rewrite drop_0.
    split_and!; [done|by eapply entries_nodup|done|done].
  - unfold remaining. simpl. rewrite drop_0. change (length (entries ht) < fuel)%nat. lia.
Qed.

Lemma htable_iterator_complete_witness :
  exists ht : htable Z Z, contents ht !! 7 = Some 70 /\
    exists kvs, iterate 9 ht iterator_create = Ok kvs /\ NoDup kvs.*1 /\
      Z.of_nat (length kvs) = htable_size ht /\ list_to_map kvs = contents ht.
Proof.
  destruct (ht_insert_ok fnv_hash_ul 0 0 (htable_create (K := Z) (V := Z) 0 0 42) 7 70
              (create_wf _ _ _ _)) as (ht & _ & W & C & U & _).
  exists ht. split; [rewrite C; reflexivity|].
  apply (htable_iterator_complete fnv_hash_ul ht 9%nat W).
  unfold htable_size. rewrite U. vm_compute. reflexivity.
Defined.
