(* ===== verification/HSet.v ===== *)
(** The hash set of include/data-struct/set.h.

    The set is a hash table without values.  [to_table] forgets the differences (the
    filling ratio, the initial size, and that [remove] does not always count), so
    that the results on hash tables carry over.  Elements are compared with the
    set's [eq]; copying an element yields an equal one. *)

From S2P Require Import Prelude Constants HTable.
From Stdlib Require Import ZArith Lia Floats.SpecFloat.
From stdpp Require Import base list option gmap.

#[local] Open Scope Z_scope.

(** The literal 0.8F. *)
Definition REHASH_FILLING_RATIO_S : spec_float := S754_finite false 13421773 (-24).
Definition BUCKET_START_S : Z := 32.
Definition TOO_MANY_BUCKETS_BITS_S : Z := 31.

Definition fill_limit_s (n : Z) : Z := f32_to_Z (f32_mul (f32_of_Z n) REHASH_FILLING_RATIO_S).

(** ** Data and operations *)

(** Whether the callbacks are given. *)
Record set_cbs := SetCbs { cbs_copy : bool; cbs_free : bool }.

(** The callbacks of [set_ul] in src/data-struct/set.c. *)
Definition s_ul_cbs : set_cbs := SetCbs false false.

Section HSet.
Context {T : Type} `{Countable T}.
Variable hash_fn : T -> Z -> Z.
Variable cbs : set_cbs.
Variable elem0 : T.

Record sbucket := SBucket { s_elem : T; s_used : bool; s_next : list T }.

Record hset := HSetC {
  s_buckets : list sbucket;
  s_num_buckets : Z;
  s_num_used : Z;
  s_seed : Z }.

Definition sbucket0 : sbucket := SBucket elem0 false [].

Definition set_create (seed : Z) : hset :=
  HSetC (replicate (Z.to_nat BUCKET_START_S) sbucket0) BUCKET_START_S 0 seed.

Definition set_size (s : hset) : Z := s_num_used s.

Definition set_bucket_idx (s : hset) (elem : T) : Z :=
  if 0 <? s_num_buckets s then hash_fn elem (s_seed s) mod s_num_buckets s
  else hash_fn elem (s_seed s).

Definition set_sbucket (s : hset) (idx : Z) (b : sbucket) (used : Z) : hset :=
  HSetC (<[Z.to_nat idx := b]> (s_buckets s)) (s_num_buckets s) used (s_seed s).

(** [if (!rehash && cbs.free) elem = cbs.copy(elem);]: the test is of [free], the
    call is of [copy]. *)
Definition copy_first (rehash : bool) : res unit :=
  if negb rehash && cbs_free cbs then (if cbs_copy cbs then Ok tt else Undef) else Ok tt.

Definition set_add_to_bucket (s : hset) (elem : T) (rehash : bool) : res hset :=
  let idx := set_bucket_idx s elem in
  let more := if rehash then s_num_used s else s_num_used s + 1 in
  b ← deref (s_buckets s !! Z.to_nat idx);
  if negb (s_used b) then
    _ ← copy_first rehash;
    Ok (set_sbucket s idx (SBucket elem true (s_next b)) more)
  else if decide (elem ∈ s_elem b :: s_next b) then Ok s
  else Ok (set_sbucket s idx (SBucket (s_elem b) (s_used b) (s_next b ++ [elem])) more).

Fixpoint set_rehash_chain (s : hset) (c : list T) : res hset :=
  match c with
  | [] => Ok s
  | e :: c' => s ← set_add_to_bucket s e true; set_rehash_chain s c'
  end.

Fixpoint set_rehash_buckets (s : hset) (bs : list sbucket) : res hset :=
  match bs with
  | [] => Ok s
  | b :: bs' =>
      if negb (s_used b) then set_rehash_buckets s bs'
      else
        s ← set_add_to_bucket s (s_elem b) true;
        s ← set_rehash_chain s (s_next b);
        set_rehash_buckets s bs'
  end.

Definition set_rehash (s : hset) : res hset :=
  if (s_num_used s + 1 <? fill_limit_s (s_num_buckets s))
     || (2 ^ TOO_MANY_BUCKETS_BITS_S <=? s_num_buckets s) then Ok s
  else
    let old := s_buckets s in
    let n := 2 * s_num_buckets s in
    set_rehash_buckets (HSetC (replicate (Z.to_nat n) sbucket0) n (s_num_used s) (s_seed s)) old.

Definition set_insert (s : hset) (elem : T) : res hset :=
  s ← set_rehash s; set_add_to_bucket s elem false.

Fixpoint set_chain_remove (elem : T) (c : list T) : option (list T) :=
  match c with
  | [] => None
  | e :: c' =>
      if decide (e = elem) then Some c'
      else c'' ← set_chain_remove elem c'; Some (e :: c'')
  end.

(** An element found in the chain is unlinked without [num_used--]. *)
Definition set_remove (s : hset) (elem : T) : res hset :=
  let idx := set_bucket_idx s elem in
  b ← deref (s_buckets s !! Z.to_nat idx);
  if negb (s_used b) then Exit
  else if decide (s_elem b = elem) then
    match s_next b with
    | e :: c => Ok (set_sbucket s idx (SBucket e (s_used b) c) (s_num_used s - 1))
    | [] => Ok (set_sbucket s idx (SBucket (s_elem b) false (s_next b)) (s_num_used s - 1))
    end
  else
    match set_chain_remove elem (s_next b) with
    | Some c => Ok (set_sbucket s idx (SBucket (s_elem b) (s_used b) c) (s_num_used s))
    | None => Exit
    end.

Definition set_contains (s : hset) (elem : T) : res bool :=
  b ← deref (s_buckets s !! Z.to_nat (set_bucket_idx s elem));
  if negb (s_used b) then Ok false else Ok (bool_decide (elem ∈ s_elem b :: s_next b)).

(** ** Iterator

    [si_cur] is the rest of the chain the iterator is in, [[]] standing for the null
    pointer. *)

Record set_iterator := SetIterator { si_cur : list T; si_idx : nat }.
Definition set_iterator_create : set_iterator := SetIterator [] 0.

Fixpoint set_iterator_skip (bs : list sbucket) (idx : nat) : nat :=
  match bs with
  | [] => idx
  | b :: bs' => if s_used b then idx else set_iterator_skip bs' (S idx)
  end.

Definition set_iterator_next (s : hset) (hi : set_iterator) : res (option T * set_iterator) :=
  match si_cur hi with
  | [] =>
      let idx := set_iterator_skip (drop (si_idx hi) (s_buckets s)) (si_idx hi) in
      if s_num_buckets s <=? Z.of_nat idx then Ok (None, SetIterator [] idx)
      else
        b ← deref (s_buckets s !! idx);
        Ok (Some (s_elem b), SetIterator (s_next b) (S idx))
  | e :: c => Ok (Some e, SetIterator c (si_idx hi))
  end.

(** ** Specification *)

Definition to_bucket (b : sbucket) : bucket T unit :=
  Bucket (s_elem b) tt (s_used b) (map (fun e => (e, tt)) (s_next b)).
Definition to_table (s : hset) : htable T unit :=
  HTable (map to_bucket (s_buckets s)) (s_num_buckets s) (s_num_used s) (s_seed s).

(** The elements of the set. *)
Definition members (s : hset) : gset T := dom (contents (to_table s)).
Definition set_ok (s : hset) : Prop := shape hash_fn (to_table s).
End HSet.
Arguments hset T : clear implicits.
Arguments sbucket T : clear implicits.
Arguments set_iterator T : clear implicits.

(** ** The set is a hash table *)

Section Sim.
Context {T : Type} `{Countable T}.
Variable hash_fn : T -> Z -> Z.
Variable cbs : set_cbs.
Implicit Types (s : hset T) (e : T).

Lemma to_table_lookup s i :
  buckets (to_table s) !! i = to_bucket <$> s_buckets s !! i.
Proof. unfold to_table. simpl. apply list_lookup_fmap. Qed.

Lemma to_table_set s idx (b : sbucket T) u :
  to_table (set_sbucket s idx b u) = set_bucket (to_table s) idx (to_bucket b) u.
Proof. unfold to_table, set_sbucket, set_bucket. simpl. by rewrite list_fmap_insert. Qed.

Lemma chain_update_set e (c : list T) :
  chain_update e tt (map (fun e => (e, tt)) c) =
    if decide (e ∈ c) then Some (map (fun e => (e, tt)) c) else None.
Proof.
  induction c as [|x c IH]; simpl; [done|]. destruct (decide (e = x)) as [->|N].
  - rewrite decide_True; [done|left].
  - rewrite IH. destruct (decide (e ∈ c)); simpl.
    + rewrite decide_True; [done|by right].
    + rewrite decide_False; [done|]. rewrite elem_of_cons. tauto.
Qed.

Lemma set_bucket_id (ht : htable T unit) idx b u :
  buckets ht !! Z.to_nat idx = Some b -> u = num_used ht -> set_bucket ht idx b u = ht.
Proof. intros Hb ->. unfold set_bucket. rewrite list_insert_id by done. by destruct ht. Qed.

Lemma set_add_sim s e (rh : bool) :
  cbs_free cbs && negb (cbs_copy cbs) = false ->
  to_table <$> set_add_to_bucket hash_fn cbs s e rh = add_to_bucket hash_fn (to_table s) e tt rh.
Proof.
  intros Hc. unfold set_add_to_bucket, add_to_bucket. rewrite to_table_lookup.
  change (bucket_idx hash_fn (to_table s) e) with (set_bucket_idx hash_fn s e).
  destruct (s_buckets s !! _) as [[x [] c]|] eqn:Hb; simpl; [|simpl|done].
  - destruct (decide (e = x)) as [->|N].
    + rewrite decide_True by left. simpl. rewrite set_bucket_id; [done| |done].
      by rewrite to_table_lookup, Hb.
    + rewrite chain_update_set. destruct (decide (e ∈ c)).
      * rewrite decide_True by (by right). simpl. rewrite set_bucket_id; [done| |done].
        by rewrite to_table_lookup, Hb.
      * rewrite decide_False by (rewrite elem_of_cons; tauto). simpl.
        rewrite to_table_set. unfold to_bucket. simpl. by rewrite map_app.
  - unfold copy_first. destruct (negb rh && cbs_free cbs) eqn:E; simpl.
    + bool_prop. destruct (cbs_free cbs), (cbs_copy cbs); simpl in *; try done.
      by rewrite to_table_set.
    + by rewrite to_table_set.
Qed.

Lemma set_rehash_chain_sim s (c : list T) :
  cbs_free cbs && negb (cbs_copy cbs) = false ->
  to_table <$> set_rehash_chain hash_fn cbs s c =
    rehash_chain hash_fn (to_table s) (map (fun e => (e, tt)) c).
Proof.
  intros Hc. revert s. induction c as [|e c IH]; intros s; simpl; [done|].
  rewrite <- set_add_sim by done. by destruct (set_add_to_bucket hash_fn cbs s e true); simpl.
Qed.

Lemma set_rehash_buckets_sim s (bs : list (sbucket T)) :
  cbs_free cbs && negb (cbs_copy cbs) = false ->
  to_table <$> set_rehash_buckets hash_fn cbs s bs =
    rehash_buckets hash_fn (to_table s) (map to_bucket bs).
Proof.
  intros Hc. revert s. induction bs as [|[x [] c] bs IH]; intros s; simpl; [done| |apply IH].
  rewrite <- set_add_sim by done.
  destruct (set_add_to_bucket hash_fn cbs s x true) as [s1| | |]; simpl; [|done..].
  rewrite <- set_rehash_chain_sim by done.
  destruct (set_rehash_chain hash_fn cbs s1 c); simpl; [apply IH|done..].
Qed.
End Sim.

Section SetOps.
Context {T : Type} `{Countable T}.
Variable hash_fn : T -> Z -> Z.
Variable cbs : set_cbs.
Implicit Types (s : hset T) (e : T).

Lemma fmap_Ok_inv {A B} (f : A -> B) (m : res A) b :
  f <$> m = Ok b -> exists a, m = Ok a /\ f a = b.
Proof. destruct m; simpl; try done. intros [= <-]. eauto. Qed.

Lemma members_elem s e : e ∈ members s <-> is_Some (contents (to_table s) !! e).
Proof. unfold members. by rewrite elem_of_dom. Qed.

Lemma set_add_ok s e (rh : bool) :
  cbs_free cbs && negb (cbs_copy cbs) = false -> set_ok hash_fn s ->
  exists s', set_add_to_bucket hash_fn cbs s e rh = Ok s' /\ set_ok hash_fn s' /\
    members s' = {[e]} ∪ members s /\ 
    set_size s' = set_size s + (if rh then 0 else if decide (e ∈ members s) then 0 else 1).
Proof.
  intros Hc S. destruct (add_to_bucket_ok hash_fn (to_table s) e tt rh S)
    as (ht & E & S' & _ & C & U & _).
  rewrite <- (set_add_sim _ cbs) in E by done. apply fmap_Ok_inv in E as (s' & E & <-).
  exists s'. split_and!; [done|done|unfold members; by rewrite C, dom_insert_L|].
  change (set_size s') with (num_used (to_table s')). rewrite U. unfold is_new.
  destruct rh; [done|]. destruct (contents (to_table s) !! e) as [[]|] eqn:G.
  - rewrite decide_True by (apply members_elem; rewrite G; eauto). done.
  - rewrite decide_False; [done|]. rewrite members_elem, G. by intros [].
Qed.

Lemma set_rehash_ok elem0 s :
  cbs_free cbs && negb (cbs_copy cbs) = false -> set_ok hash_fn s ->
  exists s', set_rehash hash_fn cbs elem0 s = Ok s' /\ set_ok hash_fn s' /\
    members s' = members s /\ set_size s' = set_size s.
Proof.
  intros Hc S. unfold set_rehash. destruct (_ || _); [exists s; by split_and!|].
  set (s0 := HSetC _ _ _ _).
  assert (E0 : to_table s0 = HTable (replicate (Z.to_nat (2 * s_num_buckets s)) (bucket0 elem0 tt))
    (2 * s_num_buckets s) (s_num_used s) (s_seed s)).
  { unfold s0, to_table. simpl. f_equal.
    change (map to_bucket) with (fmap (M := list) (to_bucket (T := T))).
    by rewrite fmap_replicate. }
  assert (S0 : shape hash_fn (to_table s0)).
  { rewrite E0. apply empty_shape. pose proof (shape_pos _ _ S) as P. simpl in P. lia. }
  assert (C0 : contents (to_table s0) = ∅).
  { unfold contents, entries. rewrite E0. simpl. by rewrite empty_entries. }
  destruct (rehash_chain_ok hash_fn (to_table s0) (entries (to_table s)) S0)
    as (ht & E & S' & _ & C & U & _).
  { by eapply entries_nodup. } { intros k _. by rewrite C0, lookup_empty. }
  unfold entries in E at 1. simpl in E. rewrite <- rehash_buckets_chain in E.
  rewrite <- (set_rehash_buckets_sim _ cbs) in E by done.
  apply fmap_Ok_inv in E as (s' & E & <-). exists s'. split_and!; [done|done| |].
  - unfold members. rewrite C, C0, (right_id_L ∅ _). done.
  - change (num_used (to_table s') = num_used (to_table s)). rewrite U. by rewrite E0.
Qed.

Lemma set_insert_ok elem0 s e :
  cbs_free cbs && negb (cbs_copy cbs) = false -> set_ok hash_fn s ->
  exists s', set_insert hash_fn cbs elem0 s e = Ok s' /\ set_ok hash_fn s' /\
    members s' = {[e]} ∪ members s /\
    set_size s' = set_size s + (if decide (e ∈ members s) then 0 else 1).
Proof.
  intros Hc S. unfold set_insert.
  destruct (set_rehash_ok elem0 s Hc S) as (s1 & -> & S1 & M1 & Z1). simpl.
  destruct (set_add_ok s1 e false Hc S1) as (s2 & -> & S2 & M2 & Z2).
  exists s2. rewrite M1 in *. rewrite Z1 in Z2. by split_and!.
Qed.

Lemma set_contains_ok s e :
  set_ok hash_fn s -> set_contains hash_fn s e = Ok (bool_decide (e ∈ members s)).
Proof.
  intros S. destruct (bucket_exists hash_fn (to_table s) e S) as [b Hb].
  assert (G : is_Some (contents (to_table s) !! e) <-> is_Some (chain_get e (bucket_entries b)))
    by (by rewrite contents_get, (get_own hash_fn _ _ _ S Hb)).
  rewrite to_table_lookup in Hb.
  change (bucket_idx hash_fn (to_table s) e) with (set_bucket_idx hash_fn s e) in Hb.
  unfold set_contains. destruct (s_buckets s !! _) as [[x u c]|]; [|done].
  injection Hb as <-. simpl.
  assert (K : is_Some (chain_get e (map (fun e : T => (e, tt)) (x :: c))) <-> e ∈ x :: c).
  { rewrite <- not_eq_None_Some, chain_get_None.
    assert ((map (fun e : T => (e, tt)) (x :: c)).*1 = x :: c) as ->.
    { generalize (x :: c). intros l. induction l as [|y l IH]; [done|]. simpl. by f_equal. }
    split; [apply dec_stable|tauto]. }
  destruct u; simpl; f_equal.
  - apply bool_decide_ext. rewrite members_elem, G, <- K. done.
  - symmetry. apply bool_decide_eq_false. rewrite members_elem, G. by intros [].
Qed.

Lemma set_chain_remove_sim e (c : list T) :
  chain_remove e (map (fun e => (e, tt)) c) =
    (fun c => map (fun e => (e, tt)) c) <$> set_chain_remove e c.
Proof.
  induction c as [|x c IH]; simpl; [done|]. case_decide; [done|].
  rewrite IH. by destruct (set_chain_remove e c).
Qed.

(** [remove] does to the elements what the table's [remove] does; the count differs. *)
Lemma set_remove_sim s e :
  match htable_remove hash_fn (to_table s) e with
  | Ok ht => exists s', set_remove hash_fn s e = Ok s' /\
      buckets (to_table s') = buckets ht /\ num_buckets (to_table s') = num_buckets ht /\
      seed (to_table s') = seed ht /\ (set_size s' = num_used ht \/ set_size s' = set_size s)
  | Exit => set_remove hash_fn s e = Exit
  | _ => True
  end.
Proof.
  unfold htable_remove, set_remove. rewrite to_table_lookup.
  change (bucket_idx hash_fn (to_table s) e) with (set_bucket_idx hash_fn s e).
  destruct (s_buckets s !! _) as [[x [] c]|]; simpl; [|done|done].
  case_decide.
  - destruct c as [|y c]; simpl; eexists; (split; [reflexivity|]);
      (split_and!; [exact (f_equal buckets (to_table_set s _ _ 0))|done|done|by left]).
  - rewrite set_chain_remove_sim. destruct (set_chain_remove e c) as [c'|]; simpl; [|done].
    eexists. split; [reflexivity|].
    split_and!; [exact (f_equal buckets (to_table_set s _ _ 0))|done|done|by right].
Qed.

Lemma table_ext_shape (ht ht' : htable T unit) :
  buckets ht' = buckets ht -> num_buckets ht' = num_buckets ht -> seed ht' = seed ht ->
  shape hash_fn ht -> shape hash_fn ht' /\ contents ht' = contents ht.
Proof.
  intros E1 E2 E3 S. split.
  - destruct ht, ht'; simpl in *; subst. destruct S as [P L Bk]. split; [done|done|].
    intros i b Hb. destruct (Bk i b Hb) as [Pl N U]. by split.
  - unfold contents, entries. by rewrite E1.
Qed.

(** Removal from a table of the right shape; the count does not matter. *)
Lemma remove_shape (ht : htable T unit) e :
  shape hash_fn ht ->
  match contents ht !! e with
  | Some _ => exists ht', htable_remove hash_fn ht e = Ok ht' /\ shape hash_fn ht' /\
      contents ht' = delete e (contents ht)
  | None => htable_remove hash_fn ht e = Exit
  end.
Proof.
  intros S.
  set (ht1 := HTable (buckets ht) (num_buckets ht) (Z.of_nat (length (entries ht))) (seed ht)).
  destruct (table_ext_shape ht ht1) as [S1 C1]; try done.
  pose proof (ht_remove_ok hash_fn ht1 e (conj S1 eq_refl)) as R. rewrite C1 in R.
  assert (Same : forall ht2, htable_remove hash_fn ht1 e = Ok ht2 -> exists u,
    htable_remove hash_fn ht e = Ok (HTable (buckets ht2) (num_buckets ht2) u (seed ht2))).
  { intros ht2. unfold htable_remove. change (bucket_idx hash_fn ht1 e) with (bucket_idx hash_fn ht e).
    simpl. destruct (buckets ht !! _) as [b|]; simpl; [|done]. destruct (negb _); [done|].
    case_decide; [destruct (b_next b) as [|[k v] c]|destruct (chain_remove e _)]; try done;
      intros [= <-]; eexists; reflexivity. }
  destruct (contents ht !! e).
  - destruct R as (ht2 & E & [S2 _] & C2 & _). destruct (Same _ E) as [u' ->].
    eexists. split; [reflexivity|].
    destruct (table_ext_shape ht2 (HTable (buckets ht2) (num_buckets ht2) u' (seed ht2)))
      as [S3 C3]; done.
  - revert R. unfold htable_remove. change (bucket_idx hash_fn ht1 e) with (bucket_idx hash_fn ht e).
    simpl. destruct (buckets ht !! _) as [b|]; simpl; [|done]. destruct (negb _); [done|].
    case_decide; [by destruct (b_next b) as [|[k v] c]|by destruct (chain_remove e _)].
Qed.
(** The iterator takes the steps of the table's iterator. *)
Definition to_iterator (hi : set_iterator T) : iterator T unit :=
  Iterator (map (fun e => (e, tt)) (si_cur hi)) (si_idx hi).

Lemma set_iterator_skip_sim (bs : list (sbucket T)) idx :
  iterator_skip (map to_bucket bs) idx = set_iterator_skip bs idx.
Proof. revert idx. induction bs as [|[x [] c] bs IH]; intros idx; simpl; [done|done|apply IH]. Qed.

Lemma set_iterator_next_sim s hi :
  iterator_next (to_table s) (to_iterator hi) =
    ('(o, hi) ← set_iterator_next s hi; Ok (option_map (fun e => (e, tt)) o, to_iterator hi) : res (option (T * unit) * iterator T unit)).
Proof.
  unfold iterator_next, set_iterator_next. destruct hi as [[|e c] idx]; simpl; [|done].
  change (map to_bucket (s_buckets s)) with (to_bucket <$> s_buckets s).
  rewrite <- fmap_drop. change (to_bucket <$> drop idx (s_buckets s)) with (map to_bucket (drop idx (s_buckets s))).
  rewrite set_iterator_skip_sim. case_match; [done|]. rewrite list_lookup_fmap.
  by destruct (s_buckets s !! _).
Qed.
End SetOps.

(** ** Properties *)

(** On a set of the right shape (whatever its counter says) [insert] adds the
    element, [contains] tells membership and [remove] takes an element out or ends
    the program, each leaving a set of the right shape; [insert] counts new
    elements only.  Without a [free] callback no copy callback is needed. *)
Theorem set_refines {T} `{Countable T} (hash_fn : T -> Z -> Z) (cbs : set_cbs) (elem0 : T)
    (s : hset T) (e : T)
    (Hc : cbs_free cbs && negb (cbs_copy cbs) = false) (S : set_ok hash_fn s) :
  (exists s', set_insert hash_fn cbs elem0 s e = Ok s' /\ set_ok hash_fn s' /\
     members s' = {[e]} ∪ members s /\
     set_size s' = set_size s + (if decide (e ∈ members s) then 0 else 1)) /\
  set_contains hash_fn s e = Ok (bool_decide (e ∈ members s)) /\
  (if decide (e ∈ members s) then
     exists s', set_remove hash_fn s e = Ok s' /\ set_ok hash_fn s' /\
       members s' = members s ∖ {[e]}
   else set_remove hash_fn s e = Exit).
Proof.
  split; [by apply set_insert_ok|]. split; [by apply set_contains_ok|].
  pose proof (remove_shape hash_fn (to_table s) e S) as R.
  pose proof (set_remove_sim hash_fn s e) as M.
  destruct (contents (to_table s) !! e) as [[]|] eqn:G.
  - rewrite decide_True by (apply members_elem; rewrite G; eauto).
    destruct R as (ht & E & S' & C). rewrite E in M. destruct M as (s' & E' & B1 & B2 & B3 & _).
    destruct (table_ext_shape hash_fn ht (to_table s') B1 B2 B3 S') as [S2 C2].
    exists s'. split_and!; [done|done|]. unfold members. by rewrite C2, C, dom_delete_L.
  - rewrite decide_False by (rewrite members_elem, G; by intros []).
    by rewrite R in M.
Qed.

Lemma set_create_ok {T} `{Countable T} (hash_fn : T -> Z -> Z) elem0 sd :
  set_ok hash_fn (set_create elem0 sd).
Proof.
  unfold set_ok. replace (to_table _) with
    (HTable (replicate (Z.to_nat BUCKET_START_S) (bucket0 elem0 tt)) BUCKET_START_S 0 sd).
  - by apply empty_shape.
  - reflexivity.
Qed.

Lemma set_refines_witness :
  exists s', set_insert fnv_hash_ul s_ul_cbs 0 (set_create 0 7) 5 = Ok s' /\
    set_ok fnv_hash_ul s'.
Proof.
  destruct (set_refines fnv_hash_ul s_ul_cbs 0 (set_create 0 7) 5 eq_refl (set_create_ok _ _ _))
    as [(s' & E & S & _) _].
  exists s'. split; [exact E|exact S].
Defined.

(** Removing an element that is not the first of its bucket does not decrement
    [num_used]: with a hash that sends every element to one bucket, the size of
    the empty set that remains after two insertions and two removals is 1. *)
Theorem set_remove_chain_miscounts :
  (let hash (_ _ : Z) := 0 in
   s ← set_insert hash s_ul_cbs 0 (set_create 0 0) 1;
   s ← set_insert hash s_ul_cbs 0 s 2;
   s ← set_remove hash s 2;
   s ← set_remove hash s 1;
   c1 ← set_contains hash s 1;
   c2 ← set_contains hash s 2;
   Ok (set_size s, c1, c2)) = Ok (1, false, false).
Proof. vm_compute. reflexivity. Qed.
