(* ===== verification/ArrayList.v ===== *)
(** The growing arrays of include/data-struct/array_list.h.

    An array list is an allocated array of which the first [len] elements are in
    use.  The array's elements are [option]s: [None] is an element that was
    never written (the tail that [realloc] adds). *)

From S2P Require Import Prelude LinkedList.
From Stdlib Require Import ZArith Lia.
From stdpp Require Import base list option.

#[local] Open Scope Z_scope.

(** ** Data and operations *)

Definition initial_alloc : Z := 128.

Section ArrayList.
Context {T : Type}.
Variable leq : T -> T -> bool.

Record alist := AList {
  al_elements : list (option T);
  al_alloced : Z;
  al_len : Z }.

(** [calloc]ed elements hold zeroes that the operations do not read. *)
Definition array_list_create : alist :=
  AList (replicate (Z.to_nat initial_alloc) None) initial_alloc 0.

Definition array_list_size (l : alist) : Z := al_len l.

(** [realloc] to [n] elements keeps the old ones. *)
Definition realloc (a : list (option T)) (n : Z) : list (option T) :=
  take (Z.to_nat n) a ++ replicate (Z.to_nat n - length a) None.

Definition array_list_insert (l : alist) (v : T) (idx : Z) : res alist :=
  if (idx <? 0) || (al_len l <? idx) then Exit
  else
    let l :=
      if al_alloced l =? al_len l then
        let alloced := u64 (Z.shiftl (al_alloced l) 2) in
        AList (realloc (al_elements l) alloced) alloced (al_len l)
      else l in
    a ← (if idx <? al_len l then
           mem_move (al_elements l) (Z.to_nat (idx + 1)) (Z.to_nat idx)
             (Z.to_nat (al_len l - idx))
         else Ok (al_elements l));
    a ← mem_set a (Z.to_nat idx) (Some v);
    Ok (AList a (al_alloced l) (u64 (al_len l + 1))).

Definition array_list_append (l : alist) (v : T) : res alist :=
  array_list_insert l v (al_len l).

Definition array_list_remove_internal (l : alist) (idx : Z) (free_flag : bool) : res alist :=
  if al_len l <=? idx then Exit
  else
    let len := al_len l - 1 in
    a ← (if idx <? len then
           mem_move (al_elements l) (Z.to_nat idx) (Z.to_nat (idx + 1)) (Z.to_nat (len - idx))
         else Ok (al_elements l));
    Ok (AList a (al_alloced l) len).

Definition array_list_remove (l : alist) (idx : Z) : res alist :=
  array_list_remove_internal l idx true.

(** An access [elements[i]]: undefined outside of the array, and when the element
    was never written. *)
Definition al_at (l : alist) (i : Z) : res T :=
  o ← deref (al_elements l !! Z.to_nat i); deref o.

(** [for (i < len) if (leq(v, elements[i])) { *idx = i; return 0; } return -1;] *)
Fixpoint array_index_loop (l : alist) (n : nat) (i : Z) (v : T) : res (option Z) :=
  match n with
  | O => Ok None
  | S n' =>
      e ← al_at l i;
      if leq v e then Ok (Some i) else array_index_loop l n' (i + 1) v
  end.

Definition array_list_index_of (l : alist) (v : T) : res (option Z) :=
  array_index_loop l (Z.to_nat (al_len l)) 0 v.

Definition array_list_remove_elem (l : alist) (elem : T) : res alist :=
  o ← array_list_index_of l elem;
  match o with
  | None => Exit
  | Some idx => array_list_remove_internal l idx true
  end.

Definition array_list_contains (l : alist) (elem : T) : res bool :=
  o ← array_list_index_of l elem; Ok (bool_decide (is_Some o)).

Definition array_list_get (l : alist) (idx : Z) : res T :=
  if al_len l <=? idx then Exit else al_at l idx.

Definition array_list_take (l : alist) (idx : Z) : res (T * alist) :=
  elem ← array_list_get l idx;
  l ← array_list_remove_internal l idx false;
  Ok (elem, l).

End ArrayList.
Arguments alist T : clear implicits.

(** ** Representation: the used elements are [xs] *)

Section Lemmas.
Context {T : Type}.
Implicit Types (l : alist T) (xs : list T).

Record al_rep l xs : Prop := AlRep {
  al_used : take (length xs) (al_elements l) = map Some xs;
  al_len_ok : al_len l = Z.of_nat (length xs);
  al_alloc_ok : al_alloced l = Z.of_nat (length (al_elements l));
  al_fits : (length xs <= length (al_elements l))%nat;
  al_some : 0 < al_alloced l }.

(** ** Lemmas *)

Lemma mem_move_lookup {A} (a : list A) dst src n a' i :
  mem_move a dst src n = Ok a' ->
  length a' = length a /\
  a' !! i = if decide (dst <= i < dst + n)%nat then a !! (src + (i - dst))%nat else a !! i.
Proof.
  unfold mem_move. destruct (_ && _) eqn:E; [|done]. bool_prop. intros [= <-].
  pose proof (length_slice a src n ltac:(lia)) as L.
  split; [rewrite length_splice; lia|]. case_decide.
  - rewrite splice_lookup_in by lia. apply slice_lookup. lia.
  - apply splice_lookup_out; lia.
Qed.

Lemma take_ext_lookup {A} (a : list A) (ys : list A) :
  (length ys <= length a)%nat ->
  (forall i, (i < length ys)%nat -> a !! i = ys !! i) -> take (length ys) a = ys.
Proof.
  intros L Hi. apply list_eq. intros i. destruct (decide (i < length ys)%nat).
  - rewrite lookup_take_lt by done. by apply Hi.
  - by rewrite !lookup_ge_None_2 by (rewrite ?length_take; lia).
Qed.

Lemma al_lookup l xs i : al_rep l xs -> (i < length xs)%nat ->
  al_elements l !! i = Some <$> xs !! i.
Proof.
  intros R Hi. rewrite <- list_lookup_fmap. change (Some <$> xs) with (map Some xs).
  rewrite <- (al_used _ _ R). by rewrite lookup_take_lt.
Qed.

Lemma al_rep_intro l xs :
  (forall i, (i < length xs)%nat -> al_elements l !! i = Some <$> xs !! i) ->
  al_len l = Z.of_nat (length xs) -> al_alloced l = Z.of_nat (length (al_elements l)) ->
  (length xs <= length (al_elements l))%nat -> 0 < al_alloced l -> al_rep l xs.
Proof.
  intros H1 H2 H3 H4 H5. split; try done. rewrite <- (length_map Some xs).
  apply take_ext_lookup; rewrite length_map; [done|]. intros i Hi. rewrite H1 by done.
  by rewrite <- list_lookup_fmap.
Qed.

(** Growing keeps the elements and makes room. *)
Definition grow l : alist T :=
  if al_alloced l =? al_len l then
    let alloced := u64 (Z.shiftl (al_alloced l) 2) in
    AList (realloc (al_elements l) alloced) alloced (al_len l)
  else l.

Lemma grow_rep l xs :
  al_rep l xs -> al_alloced l < 2 ^ 61 ->
  al_rep (grow l) xs /\ (length xs < length (al_elements (grow l)))%nat /\
  al_alloced (grow l) = if al_alloced l =? al_len l then 4 * al_alloced l else al_alloced l.
Proof.
  intros R B. pose proof R as [U L A F P]. unfold grow.
  destruct (al_alloced l =? al_len l) eqn:E; bool_prop; [|split_and!; [done|lia|done]].
  assert (Sh : u64 (Z.shiftl (al_alloced l) 2) = 4 * al_alloced l).
  { rewrite Z.shiftl_mul_pow2 by lia. rewrite u64_small; unfold is_u64; lia. }
  rewrite Sh. simpl.
  assert (Len : length (realloc (al_elements l) (4 * al_alloced l)) = Z.to_nat (4 * al_alloced l)).
  { unfold realloc. rewrite length_app, length_take, length_replicate. lia. }
  split_and!; [|rewrite Len; lia|done].
  apply al_rep_intro; cbn [al_elements al_alloced al_len]; try lia.
  intros i Hi. rewrite <- (al_lookup l xs i R Hi). unfold realloc.
  rewrite lookup_app_l by (rewrite length_take; lia). rewrite lookup_take_lt; [done|lia].
Qed.

Lemma spec_insert_lookup xs (v : T) i j :
  (i <= length xs)%nat ->
  spec_insert xs v i !! j =
    if decide (j < i)%nat then xs !! j else if decide (j = i) then Some v else xs !! (j - 1)%nat.
Proof.
  intros Hi. unfold spec_insert. repeat case_decide.
  - rewrite lookup_app_l by (rewrite length_take; lia). by rewrite lookup_take_lt.
  - subst. rewrite lookup_app_r by (rewrite length_take; lia).
    rewrite length_take. by replace (i - i `min` length xs)%nat with 0%nat by lia.
  - rewrite lookup_app_r by (rewrite length_take; lia). rewrite length_take, Nat.min_l by done.
    destruct (j - i)%nat as [|d] eqn:E; [lia|]. simpl. rewrite lookup_drop. f_equal. lia.
Qed.

Lemma length_spec_insert xs (v : T) i :
  (i <= length xs)%nat -> length (spec_insert xs v i) = S (length xs).
Proof. intros. unfold spec_insert. rewrite length_app. simpl. rewrite length_take, length_drop. lia. Qed.

Lemma array_insert_ok l xs v i :
  al_rep l xs -> (i <= length xs)%nat -> al_alloced l < 2 ^ 61 ->
  exists l', array_list_insert l v (Z.of_nat i) = Ok l' /\ al_rep l' (spec_insert xs v i) /\
    al_alloced l' = if al_alloced l =? al_len l then 4 * al_alloced l else al_alloced l.
Proof.
  intros R Hi B. destruct (grow_rep l xs R B) as (G & Gl & Ga).
  unfold array_list_insert. fold (grow l). rewrite (al_len_ok _ _ R).
  rewrite (proj2 (Z.ltb_ge _ _)) by lia. rewrite (proj2 (Z.ltb_ge _ _)) by lia. simpl.
  pose proof (al_len_ok _ _ G) as Gn. set (g := grow l) in *. clearbody g. rewrite Gn.
  assert (exists a, (if Z.of_nat i <? Z.of_nat (length xs)
      then mem_move (al_elements g) (Z.to_nat (Z.of_nat i + 1)) (Z.to_nat (Z.of_nat i))
             (Z.to_nat (Z.of_nat (length xs) - Z.of_nat i))
      else Ok (al_elements g)) = Ok a /\ length a = length (al_elements g) /\
      forall j, (j < S (length xs))%nat -> j <> i ->
        a !! j = if decide (j < i)%nat then al_elements g !! j else al_elements g !! (j - 1)%nat)
    as (a & -> & La & Ha).
  { destruct (Z.of_nat i <? Z.of_nat (length xs)) eqn:E; bool_prop.
    - destruct (mem_move _ _ _ _) as [a| | |] eqn:M;
        try (exfalso; revert M; unfold mem_move;
             rewrite (proj2 (Nat.leb_le _ _)) by lia; rewrite (proj2 (Nat.leb_le _ _)) by lia; done).
      exists a. split; [done|]. split; [by destruct (mem_move_lookup _ _ _ _ _ 0%nat M)|].
      intros j Hj Hne. destruct (mem_move_lookup _ _ _ _ _ j M) as [_ ->].
      repeat case_decide; try lia; [|done]. f_equal. lia.
    - exists (al_elements g). split_and!; [done|done|]. intros j Hj Hne.
      rewrite decide_True by lia. done. }
  simpl. unfold mem_set. rewrite La. rewrite (proj2 (Nat.ltb_lt _ _)) by lia. simpl.
  eexists. split; [reflexivity|]. split; [|by rewrite <- (al_len_ok _ _ R)].
  pose proof (al_alloc_ok _ _ R). pose proof (al_fits _ _ R). pose proof (al_some _ _ G).
  apply al_rep_intro; cbn [al_elements al_alloced al_len];
    rewrite ?length_insert, ?length_spec_insert, ?La by done; try lia.
  - intros j Hj. rewrite spec_insert_lookup by done. rewrite list_lookup_insert.
    rewrite Nat2Z.id. destruct (decide (j = i)) as [->|Hne].
    + rewrite decide_True by (split; [done|lia]). by rewrite decide_False by lia.
    + rewrite decide_False by (intros [? _]; done). rewrite Ha by done.
      case_decide; apply (al_lookup g xs); (done || lia).
  - rewrite u64_small; [lia|]. unfold is_u64. lia.
  - apply (al_alloc_ok _ _ G).
Qed.

Lemma spec_remove_lookup xs i j :
  (i < length xs)%nat ->
  spec_remove xs i !! j = if decide (j < i)%nat then xs !! j else xs !! S j.
Proof.
  intros Hi. unfold spec_remove. case_decide.
  - rewrite lookup_app_l by (rewrite length_take; lia). by rewrite lookup_take_lt.
  - rewrite lookup_app_r by (rewrite length_take; lia). rewrite length_take, Nat.min_l by lia.
    rewrite lookup_drop. f_equal. lia.
Qed.

Lemma length_spec_remove xs i :
  (i < length xs)%nat -> length (spec_remove xs i) = (length xs - 1)%nat.
Proof. intros. unfold spec_remove. rewrite length_app, length_take, length_drop. lia. Qed.

Lemma array_remove_ok l xs i (ff : bool) :
  al_rep l xs -> (i < length xs)%nat ->
  exists l', array_list_remove_internal l (Z.of_nat i) ff = Ok l' /\ al_rep l' (spec_remove xs i).
Proof.
  intros R Hi. unfold array_list_remove_internal. pose proof R as [_ L A F P].
  rewrite L, (proj2 (Z.leb_gt _ _)) by lia.
  destruct (Z.of_nat i <? Z.of_nat (length xs) - 1) eqn:E; bool_prop.
  - destruct (mem_move _ _ _ _) as [a| | |] eqn:M;
      try (exfalso; revert M; unfold mem_move;
           rewrite (proj2 (Nat.leb_le _ _)) by lia; rewrite (proj2 (Nat.leb_le _ _)) by lia; done).
    simpl. eexists. split; [reflexivity|].
    destruct (mem_move_lookup _ _ _ _ _ 0%nat M) as [La _].
    apply al_rep_intro; cbn [al_elements al_alloced al_len];
      rewrite ?length_spec_remove, ?La by done; try lia.
    intros j Hj. rewrite spec_remove_lookup by done.
    destruct (mem_move_lookup _ _ _ _ _ j M) as [_ ->].
    repeat case_decide; try lia.
    + rewrite <- (al_lookup l xs) by (done || lia). f_equal. lia.
    + apply (al_lookup l xs); [done|lia].
  - simpl. eexists. split; [reflexivity|].
    apply al_rep_intro; cbn [al_elements al_alloced al_len];
      rewrite ?length_spec_remove by done; try lia.
    intros j Hj. rewrite spec_remove_lookup, decide_True by lia. apply (al_lookup l xs); [done|lia].
Qed.

Lemma al_at_ok l xs i :
  al_rep l xs -> (i < length xs)%nat ->
  exists x, xs !! i = Some x /\ al_at l (Z.of_nat i) = Ok x.
Proof.
  intros R Hi. destruct (lookup_lt_is_Some_2 xs i Hi) as [x Hx]. exists x. split; [done|].
  unfold al_at. rewrite Nat2Z.id, (al_lookup l xs i R Hi), Hx. done.
Qed.

Lemma array_index_loop_ok (leq : T -> T -> bool) l xs v n i :
  al_rep l xs -> (i + n = length xs)%nat ->
  array_index_loop leq l n (Z.of_nat i) v =
    Ok (Z.of_nat <$> spec_index_from (fun x y => leq y x) i (drop i xs) v).
Proof.
  intros R. revert i. induction n as [|n IH]; intros i Hi; simpl.
  - by rewrite drop_ge by lia.
  - destruct (al_at_ok l xs i R) as (x & Hx & ->); [lia|]. simpl. rewrite (drop_S _ _ _ Hx). simpl.
    destruct (leq v x); [done|]. replace (Z.of_nat i + 1) with (Z.of_nat (S i)) by lia.
    apply IH. lia.
Qed.

Lemma array_index_of_ok (leq : T -> T -> bool) l xs v :
  al_rep l xs ->
  array_list_index_of leq l v = Ok (Z.of_nat <$> spec_index_of (fun x y => leq y x) xs v).
Proof.
  intros R. unfold array_list_index_of. rewrite (al_len_ok _ _ R), Nat2Z.id.
  apply (array_index_loop_ok leq l xs v (length xs) 0%nat R). lia.
Qed.

Lemma array_get_ok l xs i :
  al_rep l xs -> array_list_get l (Z.of_nat i) = or_exit (xs !! i).
Proof.
  intros R. unfold array_list_get. rewrite (al_len_ok _ _ R).
  destruct (_ <=? _) eqn:E; bool_prop.
  - by rewrite lookup_ge_None_2 by lia.
  - destruct (al_at_ok l xs i R) as (x & -> & ->); [lia|done].
Qed.

Lemma array_create_ok : al_rep array_list_create [].
Proof. split; cbn; try done; lia. Qed.

(** A list that was only appended to: its array is at most four times too long. *)
Definition al_appended l xs : Prop :=
  al_rep l xs /\ al_alloced l <= Z.max initial_alloc (4 * Z.of_nat (length xs)).

Lemma array_create_appended : al_appended array_list_create [].
Proof. split; [apply array_create_ok|done]. Qed.

Lemma array_append_ok l xs v :
  al_appended l xs -> Z.of_nat (length xs) < 2 ^ 59 ->
  exists l', array_list_append l v = Ok l' /\ al_appended l' (xs ++ [v]).
Proof.
  intros [R A] B. unfold initial_alloc in A.
  destruct (array_insert_ok l xs v (length xs) R ltac:(lia) ltac:(lia)) as (l' & E & R' & A').
  unfold array_list_append. rewrite (al_len_ok _ _ R) in *. exists l'. split; [exact E|].
  split.
  - unfold spec_insert in R'. by rewrite take_ge, drop_ge in R' by lia.
  - rewrite A', length_app. unfold initial_alloc. simpl. destruct (Z.eqb_spec (al_alloced l) (Z.of_nat (length xs))); lia.
Qed.
End Lemmas.

(** ** Properties *)

(** [insert] into an array list that holds [xs] moves the tail up by one and
    puts the element at [idx]; the array grows first when it is full, to four
    times its size (the comment of the function says twice), so that no access is
    out of bounds; a position beyond the end ends the program. *)
Theorem array_list_insert_refines {T} (l : alist T) (xs : list T) (v : T) (i : nat)
    (R : al_rep l xs) (B : al_alloced l < 2 ^ 61) :
  if decide (i <= length xs)%nat then
    exists l', array_list_insert l v (Z.of_nat i) = Ok l' /\ al_rep l' (spec_insert xs v i) /\
      al_alloced l' = if al_alloced l =? al_len l then 4 * al_alloced l else al_alloced l
  else array_list_insert l v (Z.of_nat i) = Exit.
Proof.
  case_decide; [by apply array_insert_ok|]. unfold array_list_insert.
  rewrite (al_len_ok _ _ R), (proj2 (Z.ltb_lt (Z.of_nat (length xs)) _)) by lia.
  by rewrite orb_true_r.
Qed.

Lemma array_list_insert_refines_witness :
  exists l' : alist Z, array_list_insert array_list_create 5 (Z.of_nat 0) = Ok l' /\
    al_rep l' (spec_insert [] 5 0) /\ al_alloced l' = 128.
Proof.
  exact (array_list_insert_refines array_list_create [] 5 0%nat array_create_ok eq_refl).
Defined.

(** [remove], [remove_elem] and [take] close the gap the element leaves:
    [take] returns it, [remove_elem] removes the first element equal to its
    argument, and each ends the program when there is nothing to remove. *)
Theorem array_list_remove_refines {T} (leq : T -> T -> bool) (l : alist T) (xs : list T)
    (R : al_rep l xs) :
  (forall i x, xs !! i = Some x ->
     (exists l', array_list_remove l (Z.of_nat i) = Ok l' /\ al_rep l' (spec_remove xs i)) /\
     (exists l', array_list_take l (Z.of_nat i) = Ok (x, l') /\ al_rep l' (spec_remove xs i))) /\
  (forall i, xs !! i = None ->
     array_list_remove l (Z.of_nat i) = Exit /\ array_list_take l (Z.of_nat i) = Exit) /\
  (forall v, match spec_index_of (fun x y => leq y x) xs v with
             | Some i => exists l', array_list_remove_elem leq l v = Ok l' /\
                           al_rep l' (spec_remove xs i)
             | None => array_list_remove_elem leq l v = Exit
             end).
Proof.
  unfold array_list_take, array_list_remove, array_list_remove_elem. split_and!.
  - intros i x Hx. pose proof (lookup_lt_Some _ _ _ Hx) as Hi.
    split; [by apply array_remove_ok|]. rewrite (array_get_ok l xs i R), Hx. simpl.
    destruct (array_remove_ok l xs i false R Hi) as (l' & -> & ?). simpl. eauto.
  - intros i Hx. rewrite (array_get_ok l xs i R), Hx. split; [|done].
    apply lookup_ge_None in Hx. unfold array_list_remove_internal.
    by rewrite (al_len_ok _ _ R), (proj2 (Z.leb_le _ _)) by lia.
  - intros v. rewrite (array_index_of_ok leq l xs v R). simpl.
    destruct (spec_index_of _ xs v) as [i|] eqn:E; simpl; [|done].
    apply array_remove_ok; [done|]. by eapply spec_index_of_bound.
Qed.

Lemma array_list_remove_refines_witness :
  exists l : alist Z, al_rep l [5] /\
    exists l', array_list_take l 0 = Ok (5, l') /\ al_rep l' [].
Proof.
  destruct (array_insert_ok array_list_create [] 5 0%nat array_create_ok) as (l & _ & R & _);
    [simpl; lia|reflexivity|].
  exists l. split; [exact R|].
  exact (proj2 (proj1 (array_list_remove_refines Z.eqb l [5] R) 0%nat 5 eq_refl)).
Defined.
