(* ===== verification/DiskFile.v ===== *)
(** The paged files of src/io/disk_file.c.

    A [disk_file] is an open file with the size and the counters the code keeps for
    it.  Its contents are part of the record while it is open ([FILE*] and its
    buffer); [fs] is the file system, from which a file is opened and to which it
    is closed.  All disk files of a database share one log file, which is therefore
    passed to and returned from the operations.

    [fseek], [fwrite], [fflush] and [ftell] on an open file are taken to succeed; a
    short [fread], a failing [ftruncate] and an overflowing [calloc] are modelled. *)

From S2P Require Import Prelude Constants.
From Stdlib Require Import ZArith Lia.
From stdpp Require Import base list option gmap strings.

#[local] Open Scope Z_scope.

(** ** Data and operations *)

Abbreviation file_system := (gmap string (list Z)).

Record disk_file := DiskFile {
  df_name : string;
  df_data : list Z;
  df_file_size : Z;
  df_num_pages : Z;
  df_read_count : Z;
  df_write_count : Z }.

Section DiskFile.
Context `{Sysconf}.

Definition page_bytes : nat := Z.to_nat PAGE_SIZE.

Definition disk_file_open (fs : file_system) (name : string) : res disk_file :=
  data ← or_exit (fs !! name);
  let file_size := Z.of_nat (length data) in
  Ok (DiskFile name data file_size (file_size / PAGE_SIZE) 0 0).

Definition disk_file_create (fs : file_system) (name : string)
    : res (disk_file * file_system) :=
  let fs := <[name := []]> fs in
  df ← disk_file_open fs name;
  Ok (df, fs).

(** Closing writes the buffered contents to the file. *)
Definition disk_file_destroy (fs : file_system) (df : disk_file) : file_system :=
  <[df_name df := df_data df]> fs.

Definition disk_file_delete (fs : file_system) (df : disk_file) : file_system :=
  delete (df_name df) fs.

(** The new size and number of pages after the file's data changed. *)
Definition set_data (df : disk_file) (data : list Z) : disk_file :=
  let file_size := Z.of_nat (length data) in
  DiskFile (df_name df) data file_size (file_size / PAGE_SIZE)
    (df_read_count df) (u64 (df_write_count df + 1)).

Definition disk_file_grow (df : disk_file) (by_num_pages : Z) (log : bool) (lf : log_file)
    : res (disk_file * log_file) :=
  if MAX_PAGE_NO <=? u64 (df_num_pages df + by_num_pages) then Exit
  else if SIZE_MAX <? by_num_pages * PAGE_SIZE then Exit
  else
    let data := replicate (Z.to_nat (by_num_pages * PAGE_SIZE)) 0 in
    let df := set_data df (df_data df ++ data) in
    Ok (df, log_when log [LStr "grow_file"; LStr (df_name df); LNum by_num_pages] lf).

Definition disk_file_shrink (df : disk_file) (by_num_pages : Z) (log : bool) (lf : log_file)
    : res (disk_file * log_file) :=
  if MAX_PAGE_NO <? by_num_pages then Exit
  else if u64 (df_num_pages df - by_num_pages) <=? 0 then Exit
  else
    let length := df_file_size df - PAGE_SIZE * by_num_pages in
    if length <? 0 then Exit
    else
      let df := set_data df (take (Z.to_nat length) (df_data df)) in
      Ok (df, log_when log [LStr "shrink_file"; LStr (df_name df); LNum by_num_pages] lf).

Definition write_pages (df : disk_file) (fst_page lst_page : Z) (data : list Z) (log : bool)
    (lf : log_file) : res (disk_file * log_file) :=
  if (MAX_PAGE_NO <? fst_page) || (MAX_PAGE_NO <? lst_page) then Exit
  else if lst_page <? fst_page then Exit
  else if df_num_pages df <? u64 (lst_page + 1) then Exit
  else
    let offset := PAGE_SIZE * fst_page in
    let num_pages_write := 1 + (lst_page - fst_page) in
    let n := Z.to_nat (PAGE_SIZE * num_pages_write) in
    if (length data <? n)%nat then Undef
    else
      let df := DiskFile (df_name df) (splice (df_data df) (Z.to_nat offset) (take n data))
                  (df_file_size df) (df_num_pages df) (df_read_count df)
                  (u64 (df_write_count df + 1)) in
      Ok (df, log_when log [LStr "write_pages"; LStr (df_name df); LNum fst_page; LNum lst_page] lf).

Definition write_page (df : disk_file) (page_no : Z) (data : list Z) (log : bool)
    (lf : log_file) : res (disk_file * log_file) :=
  write_pages df page_no page_no data log lf.

(** The bytes read are returned instead of stored in [buf]. *)
Definition read_pages (df : disk_file) (fst_page lst_page : Z) (log : bool) (lf : log_file)
    : res (list Z * disk_file * log_file) :=
  if (MAX_PAGE_NO <? fst_page) || (MAX_PAGE_NO <? lst_page)
     || (df_num_pages df <? fst_page) || (df_num_pages df <? lst_page) then Exit
  else if lst_page <? fst_page then Exit
  else
    let offset := PAGE_SIZE * fst_page in
    let num_pages_read := 1 + (lst_page - fst_page) in
    let n := Z.to_nat (PAGE_SIZE * num_pages_read) in
    let buf := slice (df_data df) (Z.to_nat offset) n in
    if negb (length buf =? n)%nat then Exit
    else
      let df := DiskFile (df_name df) (df_data df) (df_file_size df) (df_num_pages df)
                  (u64 (df_read_count df + 1)) (df_write_count df) in
      Ok (buf, df, log_when log [LStr "read_pages"; LStr (df_name df); LNum fst_page; LNum lst_page] lf).

Definition read_page (df : disk_file) (page_no : Z) (log : bool) (lf : log_file)
    : res (list Z * disk_file * log_file) :=
  read_pages df page_no page_no log lf.

Definition clear_page (df : disk_file) (page_no : Z) (log : bool) (lf : log_file)
    : res (disk_file * log_file) :=
  write_page df page_no (replicate page_bytes 0) log lf.

(** ** Specification *)

(** The recorded size is that of the contents, which are bytes. *)
Record df_ok (df : disk_file) : Prop := DfOk {
  df_ok_size : df_file_size df = Z.of_nat (length (df_data df));
  df_ok_pages : df_num_pages df = df_file_size df / PAGE_SIZE;
  df_ok_max : df_num_pages df <= MAX_PAGE_NO;
  df_ok_bytes : Forall is_byte (df_data df) }.

(** The contents of a page. *)
Definition page_of (df : disk_file) (p : Z) : list Z :=
  slice (df_data df) (Z.to_nat (PAGE_SIZE * p)) page_bytes.

(** [data] split into pages. *)
Definition page_in (data : list Z) (i : Z) : list Z :=
  slice data (Z.to_nat (PAGE_SIZE * i)) page_bytes.

(** ** Lemmas *)

Lemma page_bytes_Z : Z.of_nat page_bytes = PAGE_SIZE.
Proof. unfold page_bytes. pose proof PAGE_SIZE_pos. lia. Qed.

Lemma MAX_PAGE_NO_bound : 0 <= MAX_PAGE_NO /\ PAGE_SIZE * MAX_PAGE_NO <= LONG_MAX /\ MAX_PAGE_NO < 2 ^ 63.
Proof.
  unfold MAX_PAGE_NO, LONG_MAX. pose proof PAGE_SIZE_pos. pose proof PAGE_SIZE_small.
  assert (PAGE_SIZE * ((2 ^ 63 - 1) / PAGE_SIZE) <= 2 ^ 63 - 1) by (apply Z.mul_div_le; lia).
  assert (0 <= (2 ^ 63 - 1) / PAGE_SIZE) by (apply Z.div_pos; lia). nia.
Qed.

Lemma MAX_PAGE_NO_large : 2 ^ 42 <= MAX_PAGE_NO.
Proof.
  pose proof PAGE_SIZE_pos. pose proof PAGE_SIZE_small. unfold MAX_PAGE_NO, LONG_MAX.
  apply Z.div_le_lower_bound; lia.
Qed.

(** A page below the number of pages lies in the contents. *)
Lemma page_fits df p :
  df_ok df -> 0 <= p < df_num_pages df ->
  (Z.to_nat (PAGE_SIZE * p) + page_bytes <= length (df_data df))%nat.
Proof.
  intros D Hp. pose proof (df_ok_size _ D). pose proof (df_ok_pages _ D). pose proof PAGE_SIZE_pos.
  pose proof page_bytes_Z.
  assert (PAGE_SIZE * df_num_pages df <= df_file_size df)
    by (rewrite (df_ok_pages _ D); apply Z.mul_div_le; lia).
  nia.
Qed.

Lemma range_fits df a n :
  df_ok df -> 0 <= a -> 0 <= n -> a + n <= df_num_pages df ->
  (Z.to_nat (PAGE_SIZE * a) + Z.to_nat (PAGE_SIZE * n) <= length (df_data df))%nat.
Proof.
  intros D Ha Hn Hp. pose proof (df_ok_size _ D). pose proof (df_ok_pages _ D). pose proof PAGE_SIZE_pos.
  assert (PAGE_SIZE * df_num_pages df <= df_file_size df)
    by (rewrite (df_ok_pages _ D); apply Z.mul_div_le; lia).
  nia.
Qed.

Lemma length_page_of df p :
  df_ok df -> 0 <= p < df_num_pages df -> length (page_of df p) = page_bytes.
Proof. intros D Hp. apply length_slice. by apply page_fits. Qed.

Lemma slice_slice {A} (l : list A) o n o' n' :
  (o' + n' <= n)%nat -> slice (slice l o n) o' n' = slice l (o + o') n'.
Proof.
  intros Hn. apply list_eq. intros i. destruct (decide (i < n')%nat) as [Hi|Hi].
  - rewrite !slice_lookup by lia. f_equal. lia.
  - rewrite !lookup_ge_None_2; [done|..]; unfold slice; rewrite !length_take; lia.
Qed.

Lemma slice_splice_inside {A} (l s : list A) o o' n :
  (o + length s <= length l)%nat -> (o <= o')%nat -> (o' + n <= o + length s)%nat ->
  slice (splice l o s) o' n = slice s (o' - o) n.
Proof.
  intros Hl Ho Hn. rewrite <- (slice_splice_same l o s Hl) at 2.
  rewrite slice_slice by lia. f_equal. lia.
Qed.

(** *** Writing *)

Lemma write_pages_ok df a b data log lf :
  df_ok df -> 0 <= a <= b -> b < df_num_pages df ->
  Z.of_nat (length data) = PAGE_SIZE * (b - a + 1) -> Forall is_byte data ->
  exists df', write_pages df a b data log lf =
      Ok (df', log_when log [LStr "write_pages"; LStr (df_name df); LNum a; LNum b] lf) /\
    df_ok df' /\ df_name df' = df_name df /\ df_num_pages df' = df_num_pages df /\
    df_file_size df' = df_file_size df /\
    df_data df' = splice (df_data df) (Z.to_nat (PAGE_SIZE * a)) data /\
    forall p, 0 <= p < df_num_pages df ->
      page_of df' p = if (a <=? p) && (p <=? b) then page_in data (p - a) else page_of df p.
Proof.
  intros D Ha Hb Hl Hby. pose proof MAX_PAGE_NO_bound as M. pose proof (df_ok_max _ D) as Mx.
  unfold write_pages. rewrite (u64_small (b + 1)) by (unfold is_u64; lia).
  rewrite !(proj2 (Z.ltb_ge _ _)) by lia. simpl.
  replace (1 + (b - a)) with (b - a + 1) by lia. rewrite <- Hl, Nat2Z.id.
  rewrite Nat.ltb_irrefl, firstn_all.
  pose proof PAGE_SIZE_pos as P. pose proof page_bytes_Z as PB.
  assert (Fit : (Z.to_nat (PAGE_SIZE * a) + length data <= length (df_data df))%nat).
  { pose proof (range_fits df a (b - a + 1) D). nia. }
  eexists. split; [reflexivity|]. cbn [df_name df_data df_num_pages df_file_size df_read_count df_write_count].
  split_and!; try done.
  - split; cbn [df_data df_file_size df_num_pages]; [|apply D|apply D|].
    + by rewrite length_splice, (df_ok_size _ D).
    + apply Forall_splice; [apply D|done].
  - intros p Hp. unfold page_of. cbn [df_data]. pose proof (page_fits df p D Hp).
    destruct ((a <=? p) && (p <=? b)) eqn:E; bool_prop.
    + unfold page_in. rewrite slice_splice_inside by nia. f_equal. nia.
    + apply slice_splice_disjoint; [|done|done].
      apply andb_false_iff in E as [E|E]; apply Z.leb_gt in E; [left|right]; nia.
Qed.

(** *** Reading *)

Lemma read_pages_ok df a b log lf :
  df_ok df -> 0 <= a <= b -> b < df_num_pages df ->
  exists df', read_pages df a b log lf =
      Ok (slice (df_data df) (Z.to_nat (PAGE_SIZE * a)) (Z.to_nat (PAGE_SIZE * (1 + (b - a)))), df',
          log_when log [LStr "read_pages"; LStr (df_name df); LNum a; LNum b] lf) /\
    df_ok df' /\ df_name df' = df_name df /\ df_data df' = df_data df /\
    df_num_pages df' = df_num_pages df /\ df_file_size df' = df_file_size df.
Proof.
  intros D Ha Hb. pose proof (df_ok_max _ D) as Mx.
  unfold read_pages. rewrite !(proj2 (Z.ltb_ge _ _)) by lia. simpl.
  pose proof (range_fits df a (1 + (b - a)) D ltac:(lia) ltac:(lia) ltac:(lia)) as F.
  rewrite length_slice by done. rewrite Nat.eqb_refl. simpl.
  eexists. split; [reflexivity|]. cbn [df_name df_data df_num_pages df_file_size].
  split_and!; try done. destruct D. by split.
Qed.

Lemma read_page_ok df p log lf :
  df_ok df -> 0 <= p < df_num_pages df ->
  exists df', read_page df p log lf = Ok (page_of df p, df',
          log_when log [LStr "read_pages"; LStr (df_name df); LNum p; LNum p] lf) /\
    df_ok df' /\ df_name df' = df_name df /\ df_data df' = df_data df /\
    df_num_pages df' = df_num_pages df /\ df_file_size df' = df_file_size df.
Proof.
  intros D Hp. unfold read_page.
  destruct (read_pages_ok df p p log lf D) as (df' & E & R); [lia..|].
  exists df'. rewrite E. replace (PAGE_SIZE * (1 + (p - p))) with PAGE_SIZE by lia. done.
Qed.

Lemma write_page_ok df p data log lf :
  df_ok df -> 0 <= p < df_num_pages df -> length data = page_bytes -> Forall is_byte data ->
  exists df', write_page df p data log lf =
      Ok (df', log_when log [LStr "write_pages"; LStr (df_name df); LNum p; LNum p] lf) /\
    df_ok df' /\ df_name df' = df_name df /\ df_num_pages df' = df_num_pages df /\
    df_file_size df' = df_file_size df /\
    forall q, 0 <= q < df_num_pages df ->
      page_of df' q = if decide (q = p) then data else page_of df q.
Proof.
  intros D Hp Hl Hb. pose proof page_bytes_Z.
  destruct (write_pages_ok df p p data log lf D) as (df' & E & D' & N & NP & S & _ & V);
    [lia|lia|lia|done|].
  exists df'. split_and!; try done. intros q Hq. rewrite (V q Hq). case_decide as C.
  - subst. rewrite !Z.leb_refl. simpl. unfold page_in, slice.
    rewrite Z.sub_diag, Z.mul_0_r. by rewrite drop_0, <- Hl, firstn_all.
  - destruct ((p <=? q) && (q <=? p)) eqn:E2; [bool_prop; lia|done].
Qed.

(** *** Growing *)

Lemma grow_ok df n log lf :
  df_ok df -> 0 <= n -> df_num_pages df + n < MAX_PAGE_NO ->
  df_file_size df = PAGE_SIZE * df_num_pages df ->
  exists df', disk_file_grow df n log lf =
      Ok (df', log_when log [LStr "grow_file"; LStr (df_name df); LNum n] lf) /\
    df_ok df' /\ df_name df' = df_name df /\ df_num_pages df' = df_num_pages df + n /\
    df_file_size df' = PAGE_SIZE * df_num_pages df' /\
    forall p, 0 <= p < df_num_pages df' ->
      page_of df' p = if p <? df_num_pages df then page_of df p else replicate page_bytes 0.
Proof.
  intros D Hn Hm Hsz. pose proof MAX_PAGE_NO_bound as M. pose proof PAGE_SIZE_pos as P.
  pose proof page_bytes_Z as PB.
  pose proof (df_ok_size _ D) as Sz. pose proof (df_ok_pages _ D) as Np.
  assert (0 <= df_num_pages df) by (rewrite Np; apply Z.div_pos; lia).
  unfold disk_file_grow. rewrite u64_small by (unfold is_u64; lia).
  rewrite (proj2 (Z.leb_gt _ _)) by lia.
  rewrite (proj2 (Z.ltb_ge _ _)) by (unfold SIZE_MAX, LONG_MAX in *; nia).
  set (zs := replicate (Z.to_nat (n * PAGE_SIZE)) 0).
  assert (Lz : Z.of_nat (length (df_data df ++ zs)) = PAGE_SIZE * (df_num_pages df + n)).
  { unfold zs. rewrite length_app, length_replicate. nia. }
  assert (Np' : Z.of_nat (length (df_data df ++ zs)) / PAGE_SIZE = df_num_pages df + n).
  { rewrite Lz, Z.mul_comm. apply Z.div_mul. lia. }
  eexists. split; [reflexivity|]. unfold set_data.
  cbn [df_name df_data df_num_pages df_file_size]. rewrite Np', Lz.
  split_and!; try done.
  - split; cbn [df_name df_data df_num_pages df_file_size]; [done| |lia|].
    + rewrite Z.mul_comm, Z.div_mul; lia.
    + apply Forall_app. split; [apply D|]. apply Forall_replicate. unfold is_byte. lia.
  - intros p Hp. unfold page_of, slice. cbn [df_data].
    destruct (p <? df_num_pages df) eqn:E; bool_prop.
    + rewrite drop_app_le by nia. rewrite take_app_le; [done|]. rewrite length_drop. nia.
    + rewrite drop_app_ge by nia. unfold zs. rewrite drop_replicate, take_replicate.
      f_equal. nia.
Qed.
End DiskFile.

(** ** Properties *)

Section Properties.
Context `{Sysconf}.

Lemma read_short df a b log lf :
  df_ok df -> 0 <= a -> df_num_pages df <= b \/ b < a -> read_pages df a b log lf = Exit.
Proof.
  intros D Ha Hb. unfold read_pages.
  destruct (_ || _) eqn:G; [done|]. destruct (b <? a) eqn:E; [done|]. bool_prop.
  pose proof PAGE_SIZE_pos as P. pose proof (df_ok_size _ D) as Sz. pose proof (df_ok_pages _ D) as Np.
  assert (df_file_size df < PAGE_SIZE * (df_num_pages df + 1))
    by (rewrite Np; apply Z.mul_succ_div_gt; lia).
  destruct (negb _) eqn:L; [done|]. exfalso. bool_prop.
  unfold slice in *. rewrite length_take, length_drop in *.
  assert (PAGE_SIZE * a + PAGE_SIZE * (1 + (b - a)) = PAGE_SIZE * (b + 1)) by ring.
  assert (PAGE_SIZE * (df_num_pages df + 1) <= PAGE_SIZE * (b + 1)) by nia.
  assert (0 < PAGE_SIZE * (1 + (b - a))) by nia. assert (0 <= PAGE_SIZE * a) by nia. lia.
Qed.

Lemma write_beyond df a b data log lf :
  df_ok df -> 0 <= a -> 0 <= b -> df_num_pages df <= b \/ b < a ->
  write_pages df a b data log lf = Exit.
Proof.
  intros D Ha Hb' Hb. unfold write_pages. pose proof MAX_PAGE_NO_bound as M.
  destruct (_ || _) eqn:G; [done|]. destruct (b <? a) eqn:E; [done|]. bool_prop.
  rewrite (u64_small (b + 1)) by (unfold is_u64; lia).
  by rewrite (proj2 (Z.ltb_lt _ _)) by lia.
Qed.

(** Writing pages [a .. b] of a file and reading them back returns the data
    written, whatever was logged, and leaves the other pages, the size and the
    number of pages as they were; ranges that are reversed or end beyond the file
    make [read_pages] and [write_pages] end the program, although the guard of
    [read_pages] lets the number of pages itself through. *)
Theorem disk_file_write_read (df : disk_file) (a b : Z) (data : list Z) (l1 l2 : bool)
    (lf : log_file) (D : df_ok df) (Ha : 0 <= a) (Hb : 0 <= b)
    (Hl : a <= b -> Z.of_nat (length data) = PAGE_SIZE * (b - a + 1))
    (Hd : Forall is_byte data) :
  if decide (a <= b /\ b < df_num_pages df) then
    exists df' lf' df'' lf'', write_pages df a b data l1 lf = Ok (df', lf') /\
      read_pages df' a b l2 lf' = Ok (data, df'', lf'') /\
      df_ok df' /\ df_num_pages df' = df_num_pages df /\ df_file_size df' = df_file_size df /\
      forall p, 0 <= p < df_num_pages df -> p < a \/ b < p -> page_of df' p = page_of df p
  else write_pages df a b data l1 lf = Exit /\ read_pages df a b l2 lf = Exit.
Proof.
  case_decide as C.
  - destruct C as [Hab Hbn]. specialize (Hl Hab).
    destruct (write_pages_ok df a b data l1 lf D) as (df' & E & D' & N & NP & S & W & V);
      [lia|lia|done|done|].
    destruct (read_pages_ok df' a b l2 (log_when l1 [LStr "write_pages"; LStr (df_name df); LNum a; LNum b] lf) D')
      as (df'' & E2 & _); [lia|lia|].
    eexists df', _, df'', _. split; [exact E|].
    rewrite W in E2. replace (1 + (b - a)) with (b - a + 1) in E2 by lia.
    rewrite <- Hl, Nat2Z.id, slice_splice_same in E2
      by (pose proof (range_fits df a (b - a + 1) D); nia).
split; [exact E2|]. split_and!; try done.
    intros p Hp Ho. rewrite (V p Hp). destruct (_ && _) eqn:G; [bool_prop; lia|done].
  - split; [apply write_beyond|apply read_short]; (done || lia).
Qed.

(** Growing a file of whole pages by [n] pages keeps its pages and appends zeroed
    ones, and is refused when the file would reach the maximal number of pages. *)
Theorem disk_file_grow_spec (df : disk_file) (n : Z) (log : bool) (lf : log_file)
    (D : df_ok df) (Hn : 0 <= n < 2 ^ 63) (Hs : df_file_size df = PAGE_SIZE * df_num_pages df) :
  if decide (df_num_pages df + n < MAX_PAGE_NO) then
    exists df' lf', disk_file_grow df n log lf = Ok (df', lf') /\ df_ok df' /\
      df_num_pages df' = df_num_pages df + n /\
      df_file_size df' = PAGE_SIZE * df_num_pages df' /\
      forall p, 0 <= p < df_num_pages df' ->
        page_of df' p = if p <? df_num_pages df then page_of df p else replicate page_bytes 0
  else disk_file_grow df n log lf = Exit.
Proof.
  case_decide.
  - destruct (grow_ok df n log lf D) as (df' & E & D' & N & NP & S & V); [lia|done|done|].
    eexists df', _. by split_and!.
  - unfold disk_file_grow. pose proof MAX_PAGE_NO_bound. pose proof (df_ok_max _ D).
    assert (0 <= df_num_pages df).
    { rewrite (df_ok_pages _ D), (df_ok_size _ D). pose proof PAGE_SIZE_pos. apply Z.div_pos; lia. }
    rewrite u64_small by (unfold is_u64; lia). by rewrite (proj2 (Z.leb_le _ _)) by lia.
Qed.

(** Shrinking a file of whole pages by [n] keeps the first pages, leaves at least
    one and is refused otherwise: the unsigned comparison lets [n] beyond the
    number of pages through, [ftruncate] to a negative length then fails. *)
Theorem disk_file_shrink_spec (df : disk_file) (n : Z) (log : bool) (lf : log_file)
    (D : df_ok df) (Hn : 0 <= n) (Hs : df_file_size df = PAGE_SIZE * df_num_pages df) :
  if decide (n < df_num_pages df) then
    exists df' lf', disk_file_shrink df n log lf = Ok (df', lf') /\ df_ok df' /\
      df_num_pages df' = df_num_pages df - n /\ 1 <= df_num_pages df' /\
      forall p, 0 <= p < df_num_pages df' -> page_of df' p = page_of df p
  else disk_file_shrink df n log lf = Exit.
Proof.
  pose proof PAGE_SIZE_pos as P. pose proof MAX_PAGE_NO_bound as M. pose proof (df_ok_max _ D) as Mx.
  pose proof (df_ok_size _ D) as Sz. pose proof page_bytes_Z as PB.
  unfold disk_file_shrink. case_decide as C.
  - rewrite (proj2 (Z.ltb_ge _ _)) by lia. rewrite u64_small by (unfold is_u64; lia).
    rewrite (proj2 (Z.leb_gt _ _)) by lia. rewrite (proj2 (Z.ltb_ge _ _)) by nia.
    set (m := Z.to_nat (df_file_size df - PAGE_SIZE * n)).
    assert (L : Z.of_nat (length (take m (df_data df))) = (df_num_pages df - n) * PAGE_SIZE)
      by (rewrite length_take; unfold m; nia).
    assert (Np : Z.of_nat (length (take m (df_data df))) / PAGE_SIZE = df_num_pages df - n)
      by (rewrite L; apply Z.div_mul; lia).
    eexists _, _. split; [reflexivity|]. unfold set_data.
    split_and!; cbn [df_num_pages df_file_size df_data]; [|done|lia|].
    + split; cbn [df_num_pages df_file_size df_data]; [done|done|lia|].
      apply Forall_take, D.
    + rewrite Np. intros p Hp. unfold page_of, slice. cbn [df_data].
      rewrite skipn_firstn_comm, take_take.
      f_equal. unfold m. nia.
  - destruct (MAX_PAGE_NO <? n); [done|]. destruct (_ <=? 0) eqn:E; [done|].
    destruct (decide (n = df_num_pages df)) as [->|].
    + rewrite Z.sub_diag in E. done.
    + by rewrite (proj2 (Z.ltb_lt _ _)) by nia.
Qed.
End Properties.

(** A file of two 32-byte pages. *)
Definition sample_file : disk_file :=
  DiskFile "t" (replicate 64 7) 64 2 0 0.

Lemma sample_file_ok : df_ok (H := small_pages) sample_file.
Proof.
  split; [reflexivity|reflexivity|vm_compute; discriminate|].
  apply Forall_replicate. unfold is_byte. lia.
Qed.

Lemma disk_file_write_read_witness :
  exists df' lf' df'' lf'',
    write_pages (H := small_pages) sample_file 1 1 (replicate 32 9) true (log_open "l") = Ok (df', lf') /\
    read_pages (H := small_pages) df' 1 1 true lf' = Ok (replicate 32 9, df'', lf'').
Proof.
  destruct (disk_file_write_read (H := small_pages) sample_file 1 1 (replicate 32 9) true true
              (log_open "l") sample_file_ok ltac:(lia) ltac:(lia) (fun _ => eq_refl)
              ltac:(apply Forall_replicate; unfold is_byte; lia))
    as (df' & lf' & df'' & lf'' & E & R & _).
  exists df', lf', df'', lf''. split; [exact E|exact R].
Defined.

Lemma disk_file_grow_spec_witness :
  exists df' lf', disk_file_grow (H := small_pages) sample_file 3 true (log_open "l") = Ok (df', lf') /\
    df_num_pages df' = 5.
Proof.
  destruct (disk_file_grow_spec (H := small_pages) sample_file 3 true (log_open "l")
              sample_file_ok ltac:(lia) eq_refl) as (df' & lf' & E & _ & N & _).
  exists df', lf'. split; [exact E|exact N].
Defined.

Lemma disk_file_shrink_spec_witness :
  exists df' lf', disk_file_shrink (H := small_pages) sample_file 1 true (log_open "l") = Ok (df', lf') /\
    df_num_pages df' = 1.
Proof.
  destruct (disk_file_shrink_spec (H := small_pages) sample_file 1 true (log_open "l")
              sample_file_ok ltac:(lia) eq_refl) as (df' & lf' & E & _ & N & _).
  exists df', lf'. split; [exact E|exact N].
Defined.
