(* ===== verification/PhysicalDatabase.v ===== *)
(** The physical database of src/io/physical_database.c: a catalogue file with the
    number of slots of each record file, and for nodes and for relationships a
    header file (a bitmap of the slots) and a record file.

    The files of a database are fields of the record; closing and opening exchange
    them with the file system.  The invariant [pdb_ok] says that the catalogue counts
    the slots of the record files, that the headers are large enough, and that
    [remaining_header_bits] is the difference. *)

From S2P Require Import Prelude Constants DiskFile.
From Stdlib Require Import ZArith Lia.
From stdpp Require Import base list option gmap strings.

#[local] Open Scope Z_scope.

(** ** Data *)

(** The values below the sentinels [invalid_ft] and [invalid]. *)
Inductive file_type := node_ft | relationship_ft.
Inductive file_kind := catalogue | header | records.

#[export] Instance file_type_eq_dec : EqDecision file_type.
Proof. solve_decision. Defined.
#[export] Instance file_kind_eq_dec : EqDecision file_kind.
Proof. solve_decision. Defined.

#[export] Instance file_type_countable : Countable file_type.
Proof.
  refine (inj_countable' (fun ft => match ft with node_ft => false | relationship_ft => true end)
            (fun b : bool => if b then relationship_ft else node_ft) _).
  by intros [].
Defined.
#[export] Instance file_kind_countable : Countable file_kind.
Proof.
  refine (inj_countable'
            (fun fk => match fk with catalogue => None | header => Some false | records => Some true end)
            (fun o : option bool => match o with
               None => catalogue | Some false => header | Some true => records end) _).
  by intros [].
Defined.

(** The number of the enumeration constant. *)
Definition ft_num (ft : file_type) : Z :=
  match ft with node_ft => 0 | relationship_ft => 1 end.

(** An array indexed by [file_type]. *)
Record per_ft (A : Type) := PerFt { at_node : A; at_rel : A }.
Arguments PerFt {A} _ _.
Arguments at_node {A} _.
Arguments at_rel {A} _.

Definition get_ft {A} (f : per_ft A) (ft : file_type) : A :=
  match ft with node_ft => at_node f | relationship_ft => at_rel f end.
Coercion get_ft : per_ft >-> Funclass.

(** An assignment to such an array. *)
Definition upd {A} (f : per_ft A) (ft : file_type) (a : A) : per_ft A :=
  match ft with
  | node_ft => PerFt a (at_rel f)
  | relationship_ft => PerFt (at_node f) a
  end.

Record phy_database := PhyDatabase {
  pdb_catalogue : disk_file;
  pdb_header : per_ft disk_file;
  pdb_records : per_ft disk_file;
  remaining_header_bits : per_ft Z;
  pdb_log : log_file }.

(** ** Operations *)

Section PhyDatabase.
Context `{Sysconf}.

Definition set_remaining (db : phy_database) (ft : file_type) (n : Z) : phy_database :=
  PhyDatabase (pdb_catalogue db) (pdb_header db) (pdb_records db)
    (upd (remaining_header_bits db) ft n) (pdb_log db).
Definition set_catalogue (db : phy_database) (p : disk_file * log_file) : phy_database :=
  PhyDatabase p.1 (pdb_header db) (pdb_records db) (remaining_header_bits db) p.2.
Definition set_header (db : phy_database) (ft : file_type) (p : disk_file * log_file) : phy_database :=
  PhyDatabase (pdb_catalogue db) (upd (pdb_header db) ft p.1) (pdb_records db)
    (remaining_header_bits db) p.2.
Definition set_records (db : phy_database) (ft : file_type) (p : disk_file * log_file) : phy_database :=
  PhyDatabase (pdb_catalogue db) (pdb_header db) (upd (pdb_records db) ft p.1)
    (remaining_header_bits db) p.2.

(** [memcpy(&size, buf + ft * sizeof(unsigned long), sizeof(unsigned long))] *)
Definition catalogue_entry (buf : list Z) (ft : file_type) : Z :=
  le_combine (slice buf (Z.to_nat (ft_num ft * sizeof_ulong)) 8).

Definition phy_database_validate_empty_header (db : phy_database) (ft : file_type)
    : res (bool * phy_database) :=
  let done db := Ok (true, set_remaining db ft (PAGE_SIZE * CHAR_BIT)) in
  if negb (df_file_size (pdb_header db ft) =? 0) then
    '(buf, cat, lf) ← read_page (pdb_catalogue db) 0 false (pdb_log db);
    let db := set_catalogue db (cat, lf) in
    let size := catalogue_entry buf ft in
    if negb (size =? 0) || negb (df_file_size (pdb_header db ft) =? PAGE_SIZE) then
      Ok (false, db)
    else
      '(buf, hd, lf) ← read_page (pdb_header db ft) 0 false (pdb_log db);
      let db := set_header db ft (hd, lf) in
      if existsb (fun b => negb (b =? 0)) buf then Ok (false, db)
      else done db
  else
    p ← disk_file_grow (pdb_header db ft) 1 false (pdb_log db);
    done (set_header db ft p).

Definition phy_database_validate_header (db : phy_database) (ft : file_type)
    : res (bool * phy_database) :=
  if df_file_size (pdb_header db ft) =? 0 then Ok (false, db)
  else
    '(buf, cat, lf) ← read_page (pdb_catalogue db) 0 false (pdb_log db);
    let db := set_catalogue db (cat, lf) in
    let size := catalogue_entry buf ft in
    let n_slots := df_file_size (pdb_records db ft) / SLOT_SIZE in
    if negb (size =? n_slots) then Ok (false, db)
    else
      Ok (true, set_remaining db ft
                  (u64 (df_file_size (pdb_header db ft) * CHAR_BIT - size))).

(** One turn of the loop over the file types at the end of [create_internal]. *)
Definition validate_step (open : bool) (ft : file_type) (db : phy_database) : res phy_database :=
  '(valid_header, db) ←
    (if negb open || (df_file_size (pdb_records db ft) =? 0)
     then phy_database_validate_empty_header db ft
     else phy_database_validate_header db ft);
  _ ← exit_if (negb valid_header); Ok db.

Definition open_or_create (open : bool) (fs : file_system) (name : string)
    : res (disk_file * file_system) :=
  if open then df ← disk_file_open fs name; Ok (df, fs) else disk_file_create fs name.

Definition phy_database_create_internal (fs : file_system) (db_name : string) (open : bool)
    (log_file_name : string) : res (phy_database * file_system) :=
  let lf := log_open log_file_name in
  '(cat, fs) ← open_or_create open fs (db_name +:+ ".info");
  '(cat, lf) ← (if negb open then disk_file_grow cat 1 false lf else Ok (cat, lf));
  '(nh, fs) ← open_or_create open fs (db_name +:+ "_nodes.idx");
  '(rh, fs) ← open_or_create open fs (db_name +:+ "_relationships.idx");
  '(nr, fs) ← open_or_create open fs (db_name +:+ "_nodes.db");
  '(rr, fs) ← open_or_create open fs (db_name +:+ "_relationships.db");
  let db := PhyDatabase cat (PerFt nh rh) (PerFt nr rr) (PerFt 0 0) lf in
  db ← validate_step open node_ft db;
  db ← validate_step open relationship_ft db;
  Ok (db, fs).

Definition phy_database_open (fs : file_system) (db_name log_file_name : string)
    : res (phy_database * file_system) :=
  phy_database_create_internal fs db_name true log_file_name.

Definition phy_database_create (fs : file_system) (db_name log_file_name : string)
    : res (phy_database * file_system) :=
  phy_database_create_internal fs db_name false log_file_name.

Definition phy_database_close (fs : file_system) (db : phy_database) : file_system :=
  let close_ft fs ft :=
    disk_file_destroy (disk_file_destroy fs (pdb_header db ft)) (pdb_records db ft) in
  close_ft (close_ft (disk_file_destroy fs (pdb_catalogue db)) node_ft) relationship_ft.

Definition phy_database_delete (fs : file_system) (db : phy_database) : file_system :=
  let delete_ft fs ft :=
    disk_file_delete (disk_file_delete fs (pdb_header db ft)) (pdb_records db ft) in
  delete_ft (delete_ft (disk_file_delete fs (pdb_catalogue db)) node_ft) relationship_ft.

(** The part of [allocate_pages] that makes room in the header file. *)
Definition extend_header (db : phy_database) (ft : file_type) (neccessary_bits : Z) (log : bool)
    : res phy_database :=
  if remaining_header_bits db ft <? neccessary_bits then
    let additional_bits := neccessary_bits - remaining_header_bits db ft in
    let additional_bytes :=
      additional_bits / CHAR_BIT + (if additional_bits mod CHAR_BIT =? 0 then 0 else 1) in
    let additional_pages :=
      additional_bytes / PAGE_SIZE + (if additional_bytes mod PAGE_SIZE =? 0 then 0 else 1) in
    p ← disk_file_grow (pdb_header db ft) additional_pages log (pdb_log db);
    let db := set_header db ft p in
    Ok (set_remaining db ft (u64 (additional_pages * PAGE_SIZE * CHAR_BIT - additional_bits)))
  else
    Ok (set_remaining db ft (remaining_header_bits db ft - neccessary_bits)).

Definition allocate_pages (db : phy_database) (ft : file_type) (num_pages : Z) (log : bool)
    : res phy_database :=
  p ← disk_file_grow (pdb_records db ft) num_pages log (pdb_log db);
  let db := set_records db ft p in
  let neccessary_bits := u64 (num_pages * (PAGE_SIZE / SLOT_SIZE)) in
  db ← extend_header db ft neccessary_bits log;
  '(cat_page, cat, lf) ← read_page (pdb_catalogue db) 0 log (pdb_log db);
  let db := set_catalogue db (cat, lf) in
  let bits := catalogue_entry cat_page ft in
  let bits := u64 (bits + neccessary_bits) in
  let cat_page := splice cat_page (Z.to_nat (ft_num ft * sizeof_ulong)) (le_split 8 bits) in
  p ← write_page (pdb_catalogue db) 0 cat_page log (pdb_log db);
  Ok (set_catalogue db p).

Definition phy_database_swap_log_file (pdb : phy_database) (log_file_path : string) : phy_database :=
  PhyDatabase (pdb_catalogue pdb) (pdb_header pdb) (pdb_records pdb)
    (remaining_header_bits pdb) (log_open log_file_path).

(** ** Invariant *)

(** Files of whole pages. *)
Definition paged (df : disk_file) : Prop :=
  df_ok df /\ df_file_size df = PAGE_SIZE * df_num_pages df.

(** The number of slots the catalogue records for a file type. *)
Definition catalogue_slots (db : phy_database) (ft : file_type) : Z :=
  catalogue_entry (page_of (pdb_catalogue db) 0) ft.

Record pdb_ft_ok (db : phy_database) (ft : file_type) : Prop := PdbFtOk {
  ft_header_paged : paged (pdb_header db ft);
  ft_records_paged : paged (pdb_records db ft);
  ft_slots : catalogue_slots db ft = df_num_pages (pdb_records db ft) * SLOTS_PER_PAGE;
  ft_remaining : remaining_header_bits db ft =
    df_file_size (pdb_header db ft) * CHAR_BIT - catalogue_slots db ft;
  ft_enough : is_u64 (remaining_header_bits db ft);
  ft_nonempty : 1 <= df_num_pages (pdb_header db ft) }.

Record pdb_ok (db : phy_database) : Prop := PdbOk {
  pdb_cat_ok : paged (pdb_catalogue db) /\ df_num_pages (pdb_catalogue db) = 1;
  pdb_fts : forall ft, pdb_ft_ok db ft }.
End PhyDatabase.

(** ** Lemmas *)

Section Lemmas.
Context `{Sysconf}.
Implicit Types (db : phy_database) (ft : file_type).

Lemma upd_same {A} (f : per_ft A) ft a : upd f ft a ft = a.
Proof. by destruct ft. Qed.
Lemma upd_other {A} (f : per_ft A) ft ft' a : ft' <> ft -> upd f ft a ft' = f ft'.
Proof. by destruct ft, ft'. Qed.
Lemma upd_id {A} (f : per_ft A) ft : upd f ft (f ft) = f.
Proof. by destruct ft, f. Qed.
Lemma upd_upd {A} (f : per_ft A) ft a b : upd (upd f ft a) ft b = upd f ft b.
Proof. by destruct ft, f. Qed.

Lemma catalogue_entry_splice buf ft ft' n :
  (16 <= length buf)%nat -> is_u64 n ->
  catalogue_entry (splice buf (Z.to_nat (ft_num ft * sizeof_ulong)) (le_split 8 n)) ft' =
    if decide (ft' = ft) then n else catalogue_entry buf ft'.
Proof.
  intros L Hn. unfold catalogue_entry, sizeof_ulong. case_decide as E.
  - subst. replace (slice _ _ 8) with (le_split 8 n); [by apply le_split_u64|].
    symmetry. rewrite <- (length_le_split 8 n) at 2. apply slice_splice_same.
    rewrite length_le_split. destruct ft; simpl; lia.
  - rewrite slice_splice_disjoint; [done|..]; rewrite ?length_le_split;
      destruct ft, ft'; simpl; try done; lia.
Qed.

Lemma paged_nonneg df : paged df -> 0 <= df_num_pages df /\ 0 <= df_file_size df.
Proof.
  intros [D E]. pose proof (df_ok_size _ D). pose proof PAGE_SIZE_pos. split; [|lia]. nia.
Qed.

(** Rounding up. *)
Lemma ceil_spec a b : 0 < b -> 0 <= a ->
  let c := a / b + (if a mod b =? 0 then 0 else 1) in a <= b * c /\ b * c < a + b /\ 0 <= c.
Proof.
  intros Hb Ha. pose proof (Z.div_mod a b ltac:(lia)) as D. pose proof (Z.mod_pos_bound a b Hb) as M.
  pose proof (Z.div_pos a b Ha Hb) as HQ. revert HQ. simpl.
  revert D M. generalize (a / b) (a mod b). intros q r D M HQ.
  destruct (r =? 0) eqn:E; bool_prop; split_and!; nia.
Qed.

(** The header pages that [allocate_pages] adds have room for the additional bits. *)
Lemma additional_pages_spec ab :
  0 < ab ->
  let bytes := ab / CHAR_BIT + (if ab mod CHAR_BIT =? 0 then 0 else 1) in
  let pages := bytes / PAGE_SIZE + (if bytes mod PAGE_SIZE =? 0 then 0 else 1) in
  0 < pages /\ ab <= pages * PAGE_SIZE * CHAR_BIT /\ pages * PAGE_SIZE * CHAR_BIT < ab + 8 * PAGE_SIZE + 8.
Proof.
  intros Ha bytes pages. pose proof PAGE_SIZE_pos as P.
  assert (0 < PAGE_SIZE) as P' by (clear bytes pages; lia).
  destruct (ceil_spec ab CHAR_BIT eq_refl (Z.lt_le_incl _ _ Ha)) as (B1 & B2 & B3). fold bytes in B1, B2, B3.
  destruct (ceil_spec bytes PAGE_SIZE P' B3) as (P1 & P2 & P3). fold pages in P1, P2, P3.
  clearbody pages. clearbody bytes. unfold CHAR_BIT in *. rewrite (Z.mul_comm pages PAGE_SIZE).
  set (m := PAGE_SIZE * pages) in *. split_and!; [|lia|lia].
  destruct (Z.le_gt_cases pages 0); [|lia]. assert (m <= 0) by (unfold m; nia). lia.
Qed.

Lemma slots_bound n : 0 <= n <= MAX_PAGE_NO -> 0 <= n * SLOTS_PER_PAGE <= LONG_MAX.
Proof.
  intros Hn. pose proof MAX_PAGE_NO_bound. pose proof SLOTS_PER_PAGE_size as E.
  pose proof SLOTS_PER_PAGE_pos. unfold SLOT_SIZE in E. nia.
Qed.

(** The header after [allocate_pages] made room for [nb] more slots. *)
Lemma header_growth db ft nb log :
  paged (pdb_header db ft) ->
  remaining_header_bits db ft = df_file_size (pdb_header db ft) * CHAR_BIT - catalogue_slots db ft ->
  is_u64 (remaining_header_bits db ft) -> 0 <= nb <= LONG_MAX ->
  df_num_pages (pdb_header db ft) + nb + 2 < MAX_PAGE_NO ->
  exists hd' lf' rem',
    extend_header db ft nb log =
    Ok (PhyDatabase (pdb_catalogue db) (upd (pdb_header db) ft hd') (pdb_records db)
          (upd (remaining_header_bits db) ft rem') lf') /\
    paged hd' /\ df_num_pages (pdb_header db ft) <= df_num_pages hd' <= df_num_pages (pdb_header db ft) + nb + 2 /\
    (forall p, 0 <= p < df_num_pages hd' -> page_of hd' p =
       if p <? df_num_pages (pdb_header db ft) then page_of (pdb_header db ft) p
       else replicate page_bytes 0) /\
    is_u64 rem' /\
    rem' = df_file_size hd' * CHAR_BIT - (catalogue_slots db ft + nb).
Proof.
  intros [D Sz] R En Hnb Hm. unfold extend_header, is_u64 in *. pose proof PAGE_SIZE_pos as P.
  pose proof MAX_PAGE_NO_bound as M. pose proof PAGE_SIZE_small as PS.
  destruct (_ <? nb) eqn:E; bool_prop.
  - set (ab := nb - remaining_header_bits db ft).
    destruct (additional_pages_spec ab ltac:(lia)) as (A1 & A2 & A3).
    cbv zeta in A1, A2, A3 |- *. set (pages := _ / PAGE_SIZE + _) in *. clearbody pages.
    assert (pages <= nb + 2) by (unfold CHAR_BIT in *; nia).
    destruct (grow_ok (pdb_header db ft) pages log (pdb_log db) D) as (hd' & G & D' & _ & N' & S' & V);
      [lia|lia|done|].
    rewrite G. simpl.
    rewrite u64_small by (unfold is_u64, CHAR_BIT, LONG_MAX in *; nia).
    eexists hd', _, _. split; [reflexivity|]. unfold CHAR_BIT in *.
    split; [by split|]. split; [lia|]. split_and!; [exact V|lia|lia|]. rewrite S', N', Sz in *. lia.
  - eexists (pdb_header db ft), (pdb_log db), _. split.
    + rewrite upd_id. reflexivity.
    + split; [by split|]. split; [lia|]. split_and!; [|lia|lia|lia].
      intros p Hp. by rewrite (proj2 (Z.ltb_lt _ _)) by lia.
Qed.

(** *** Allocation *)

Lemma ft_ok_ext db db' ft :
  page_of (pdb_catalogue db') 0 = page_of (pdb_catalogue db) 0 \/
    catalogue_slots db' ft = catalogue_slots db ft ->
  pdb_header db' ft = pdb_header db ft -> pdb_records db' ft = pdb_records db ft ->
  remaining_header_bits db' ft = remaining_header_bits db ft ->
  pdb_ft_ok db ft -> pdb_ft_ok db' ft.
Proof.
  intros Hc Hh Hr Hb [A B C D E F].
  assert (Hs : catalogue_slots db' ft = catalogue_slots db ft)
    by (destruct Hc as [Hc|Hc]; [unfold catalogue_slots; by rewrite Hc|done]).
  split; rewrite ?Hs, ?Hh, ?Hr, ?Hb; done.
Qed.

Lemma allocate_ok db ft n log :
  pdb_ok db -> 0 <= n ->
  df_num_pages (pdb_records db ft) + n < MAX_PAGE_NO ->
  df_num_pages (pdb_header db ft) + n * SLOTS_PER_PAGE + 2 < MAX_PAGE_NO ->
  exists db', allocate_pages db ft n log = Ok db' /\ pdb_ok db' /\
    df_num_pages (pdb_records db' ft) = df_num_pages (pdb_records db ft) + n /\
    (forall p, 0 <= p < df_num_pages (pdb_records db' ft) ->
       page_of (pdb_records db' ft) p =
         if p <? df_num_pages (pdb_records db ft) then page_of (pdb_records db ft) p
         else replicate page_bytes 0) /\
    df_num_pages (pdb_header db ft) <= df_num_pages (pdb_header db' ft)
      <= df_num_pages (pdb_header db ft) + n * SLOTS_PER_PAGE + 2 /\
    (forall p, 0 <= p < df_num_pages (pdb_header db' ft) -> page_of (pdb_header db' ft) p =
       if p <? df_num_pages (pdb_header db ft) then page_of (pdb_header db ft) p
       else replicate page_bytes 0) /\
    (forall ft', ft' <> ft -> pdb_header db' ft' = pdb_header db ft' /\
       pdb_records db' ft' = pdb_records db ft' /\
       remaining_header_bits db' ft' = remaining_header_bits db ft').
Proof.
  intros [[[Dc Sc] Nc] I] Hn Hm Hh. pose proof (I ft) as If. destruct (ft_records_paged _ _ If) as [Dr Sr].
  pose proof (paged_nonneg _ (ft_records_paged _ _ If)) as [Nr _].
  pose proof (slots_bound n ltac:(lia)) as Sb. unfold SLOTS_PER_PAGE in Sb, Hh.
  unfold allocate_pages.
  destruct (grow_ok (pdb_records db ft) n log (pdb_log db) Dr) as (rd' & -> & Dr' & _ & Nr' & Sr' & Vr);
    [done|done|done|].
  cbn [mbind res_bind]. rewrite (u64_small (n * _)) by (unfold is_u64, LONG_MAX in *; lia).
  set (nb := n * (PAGE_SIZE / SLOT_SIZE)) in *.
  destruct (header_growth (set_records db ft (rd', log_when log
      [LStr "grow_file"; LStr (df_name (pdb_records db ft)); LNum n] (pdb_log db))) ft nb log
      (ft_header_paged _ _ If) (ft_remaining _ _ If) (ft_enough _ _ If))
    as (hd' & lf' & rem' & E & Ph & Lh & Vh & R1 & R2); [done|done|].
  rewrite E. clear E. cbn [mbind res_bind]. cbn [pdb_catalogue pdb_log set_records] in *.
  destruct (read_page_ok (pdb_catalogue db) 0 log lf' Dc) as (cd1 & -> & Dc1 & _ & Ed1 & Nc1 & Sc1); [lia|].
  cbn [mbind res_bind set_catalogue pdb_catalogue pdb_log fst snd].
  pose proof (length_page_of (pdb_catalogue db) 0 Dc ltac:(lia)) as Lp.
  pose proof page_bytes_Z as PB. pose proof PAGE_SIZE_pos as PS.
  pose proof (paged_nonneg _ Ph) as [_ Hs']. pose proof (ft_slots _ _ If) as Sl.
  change (catalogue_entry (page_of (pdb_catalogue db) 0) ft) with (catalogue_slots db ft).
  pose proof (slots_bound (df_num_pages (pdb_records db ft) + n) ltac:(lia)) as Sb'.
  unfold SLOTS_PER_PAGE in Sl, Sb'. rewrite u64_small by (unfold is_u64, LONG_MAX, nb in *; lia).
  assert (U : is_u64 (catalogue_slots db ft + nb)) by (unfold is_u64, LONG_MAX, nb in *; lia).
  set (pg := splice _ _ _).
  assert (Lpg : length pg = page_bytes).
  { unfold pg. rewrite length_splice; [done|].
    rewrite length_le_split. unfold sizeof_ulong. destruct ft; simpl; lia. }
  destruct (write_page_ok cd1 0 pg log (log_when log
      [LStr "read_pages"; LStr (df_name (pdb_catalogue db)); LNum 0; LNum 0] lf') Dc1)
    as (cd2 & -> & Dc2 & _ & Nc2 & Sc2 & V2); [lia|done| |].
  { apply Forall_splice; [|apply le_split_bytes]. apply Forall_slice, Dc. }
  assert (Hcat : forall ft', catalogue_entry (page_of cd2 0) ft' =
    if decide (ft' = ft) then catalogue_slots db ft + nb else catalogue_slots db ft').
  { intros ft'. rewrite V2, decide_True by (done || lia).
    unfold pg. rewrite catalogue_entry_splice by (done || lia). done. }
  eexists. split; [reflexivity|]. unfold set_catalogue.
  cbn [pdb_catalogue pdb_header pdb_records remaining_header_bits set_records fst snd].
  rewrite !upd_same. split; [split|].
  - split; [split; [done|]|]; cbn [pdb_catalogue]; congruence.
  - intros ft'. destruct (decide (ft' = ft)) as [->|Hne].
    + split; unfold catalogue_slots; cbn [pdb_catalogue pdb_header pdb_records remaining_header_bits];
        rewrite ?upd_same, ?Hcat, ?decide_True by done; try done.
      * rewrite Sl, Nr'. unfold nb, SLOTS_PER_PAGE. ring.
      * pose proof (ft_nonempty _ _ If). simpl in Lh. lia.
    + apply (ft_ok_ext db); cbn [pdb_catalogue pdb_header pdb_records remaining_header_bits];
        rewrite ?upd_other by done; try done.
      right. unfold catalogue_slots. cbn [pdb_catalogue]. by rewrite Hcat, decide_False.
  - split; [done|]. split; [exact Vr|]. split; [exact Lh|]. split; [exact Vh|]. intros ft' Hne. by rewrite !upd_other by done.
Qed.

(** *** Creation *)

(** The files of a database are named after it. *)
Record named (db : phy_database) (name : string) : Prop := Named {
  named_cat : df_name (pdb_catalogue db) = name +:+ ".info";
  named_nh : df_name (pdb_header db node_ft) = name +:+ "_nodes.idx";
  named_rh : df_name (pdb_header db relationship_ft) = name +:+ "_relationships.idx";
  named_nr : df_name (pdb_records db node_ft) = name +:+ "_nodes.db";
  named_rr : df_name (pdb_records db relationship_ft) = name +:+ "_relationships.db" }.

Definition empty_file (name : string) : disk_file := DiskFile name [] 0 0 0 0.

Lemma create_empty fs name :
  disk_file_create fs name = Ok (empty_file name, <[name := []]> fs).
Proof.
  unfold disk_file_create, disk_file_open. rewrite lookup_insert_eq. simpl.
  reflexivity.
Qed.

Lemma empty_file_ok name : paged (empty_file name).
Proof.
  pose proof MAX_PAGE_NO_bound. pose proof PAGE_SIZE_pos.
  split; [split; simpl; try done; lia|simpl; lia].
Qed.

(** The file after its first page was added. *)
Definition zero_page (name : string) : disk_file := set_data (empty_file name) (replicate page_bytes 0).

Lemma grow_empty name lf :
  disk_file_grow (empty_file name) 1 false lf = Ok (zero_page name, lf).
Proof.
  pose proof MAX_PAGE_NO_bound as M. pose proof PAGE_SIZE_pos. pose proof PAGE_SIZE_small.
  pose proof MAX_PAGE_NO_large.
  unfold disk_file_grow. cbn [df_num_pages empty_file]. rewrite u64_small by (unfold is_u64; lia).
  rewrite (proj2 (Z.leb_gt _ _)) by lia. rewrite (proj2 (Z.ltb_ge _ _)) by (unfold SIZE_MAX; lia).
  rewrite Z.mul_1_l. done.
Qed.

Lemma zero_page_ok name : paged (zero_page name) /\ df_num_pages (zero_page name) = 1 /\
  df_file_size (zero_page name) = PAGE_SIZE /\ page_of (zero_page name) 0 = replicate page_bytes 0.
Proof.
  pose proof MAX_PAGE_NO_bound as M. pose proof PAGE_SIZE_pos. pose proof page_bytes_Z as PB.
  pose proof PAGE_SIZE_small. pose proof MAX_PAGE_NO_large.
  assert (L : Z.of_nat (length (replicate page_bytes 0)) = PAGE_SIZE) by (by rewrite length_replicate).
  unfold zero_page, set_data, paged. cbn [df_num_pages df_file_size df_data]. rewrite L, Z.div_same by lia.
  split_and!; try done; [|lia|].
  - split; cbn [df_num_pages df_file_size df_data]; [done|symmetry; apply Z.div_same; lia|lia|].
    apply Forall_replicate. unfold is_byte. lia.
  - unfold page_of, slice. cbn [df_data]. rewrite Z.mul_0_r, drop_0, take_ge; [done|].
    by rewrite length_replicate.
Qed.

Lemma le_combine_zeros n : le_combine (replicate n 0) = 0.
Proof. induction n as [|n IH]; simpl; [done|]. rewrite IH. done. Qed.

Lemma catalogue_entry_zeros ft n : catalogue_entry (replicate n 0) ft = 0.
Proof.
  unfold catalogue_entry, slice. rewrite drop_replicate, take_replicate. apply le_combine_zeros.
Qed.

Lemma validate_new db ft :
  df_file_size (pdb_header db ft) = 0 -> pdb_header db ft = empty_file (df_name (pdb_header db ft)) ->
  validate_step false ft db =
    Ok (set_remaining (set_header db ft (zero_page (df_name (pdb_header db ft)), pdb_log db)) ft
          (PAGE_SIZE * CHAR_BIT)).
Proof.
  intros E F. unfold validate_step, phy_database_validate_empty_header. simpl.
  rewrite E. simpl. rewrite F at 1. rewrite grow_empty. reflexivity.
Qed.

Lemma create_ok fs name log :
  exists db fs', phy_database_create fs name log = Ok (db, fs') /\ pdb_ok db /\ named db name /\
    forall ft, df_num_pages (pdb_records db ft) = 0 /\
      df_data (pdb_header db ft) = replicate page_bytes 0.
Proof.
  unfold phy_database_create, phy_database_create_internal, open_or_create.
  repeat (rewrite create_empty; cbn [mbind res_bind negb]; rewrite ?grow_empty; cbn [mbind res_bind]).
  rewrite validate_new by done. cbn [mbind res_bind]. rewrite validate_new by done. cbn [mbind res_bind].
  eexists _, _. split; [reflexivity|].
  unfold set_remaining, set_header. cbn [pdb_catalogue pdb_header pdb_records remaining_header_bits
    pdb_log get_ft at_node at_rel upd fst snd df_name empty_file].
  destruct (zero_page_ok (name +:+ ".info")) as (C1 & C2 & C3 & C4).
  split; [|split; [by split|by intros []]].
  split; [done|]. intros ft.
  assert (S0 : forall db', pdb_catalogue db' = zero_page (name +:+ ".info") -> catalogue_slots db' ft = 0).
  { intros db' E. unfold catalogue_slots. rewrite E, C4. apply catalogue_entry_zeros. }
  pose proof PAGE_SIZE_pos. pose proof PAGE_SIZE_small. unfold CHAR_BIT.
  destruct (zero_page_ok (name +:+ "_nodes.idx")) as (N1 & N2 & N3 & _).
  destruct (zero_page_ok (name +:+ "_relationships.idx")) as (R1 & R2 & R3 & _).
  split; rewrite ?S0 by done; destruct ft;
    cbn [pdb_header pdb_records remaining_header_bits get_ft at_node at_rel];
    rewrite ?N2, ?N3, ?R2, ?R3; try done; try apply empty_file_ok; unfold is_u64, CHAR_BIT; lia.
Qed.

(** *** Closing and opening *)

(** Equal up to the counters. *)
Record df_same (df df' : disk_file) : Prop := DfSame {
  same_name : df_name df' = df_name df;
  same_data : df_data df' = df_data df;
  same_size : df_file_size df' = df_file_size df;
  same_pages : df_num_pages df' = df_num_pages df }.

Lemma df_same_refl df : df_same df df.
Proof. by split. Qed.
Lemma df_same_trans df1 df2 df3 : df_same df1 df2 -> df_same df2 df3 -> df_same df1 df3.
Proof. intros [] []. split; congruence. Qed.
Lemma df_same_paged df df' : df_same df df' -> paged df -> paged df'.
Proof. intros [_ D S P] [[A B C F] E]. split; [split|]; congruence. Qed.
Lemma df_same_page df df' p : df_same df df' -> page_of df' p = page_of df p.
Proof. intros [_ D _ _]. unfold page_of. by rewrite D. Qed.

Definition pdb_same db db' : Prop :=
  df_same (pdb_catalogue db) (pdb_catalogue db') /\
  (forall ft, df_same (pdb_header db ft) (pdb_header db' ft)) /\
  (forall ft, df_same (pdb_records db ft) (pdb_records db' ft)).

Lemma pdb_same_slots db db' ft :
  pdb_same db db' -> catalogue_slots db' ft = catalogue_slots db ft.
Proof. intros (C & _). unfold catalogue_slots. by rewrite (df_same_page _ _ _ C). Qed.

(** What a database promises about itself besides [remaining_header_bits]. *)
Record files_ok db : Prop := FilesOk {
  fo_cat : paged (pdb_catalogue db) /\ df_num_pages (pdb_catalogue db) = 1;
  fo_hd : forall ft, paged (pdb_header db ft) /\ 1 <= df_num_pages (pdb_header db ft);
  fo_rd : forall ft, paged (pdb_records db ft);
  fo_slots : forall ft, catalogue_slots db ft = df_num_pages (pdb_records db ft) * SLOTS_PER_PAGE;
  fo_room : forall ft, is_u64 (df_file_size (pdb_header db ft) * CHAR_BIT - catalogue_slots db ft);
  fo_empty : forall ft, df_num_pages (pdb_records db ft) = 0 ->
    df_data (pdb_header db ft) = replicate page_bytes 0 }.

Lemma files_ok_same db db' : pdb_same db db' -> files_ok db -> files_ok db'.
Proof.
  intros Sm [[C1 C2] H1 R1 S1 O1 E1]. pose proof (fun ft => pdb_same_slots _ _ ft Sm) as Sl.
  destruct Sm as (Sc & Sh & Sr). split.
  - split; [by eapply df_same_paged|]. by rewrite (same_pages _ _ Sc).
  - intros ft. rewrite (same_pages _ _ (Sh ft)). split; [eapply df_same_paged; [done|]|]; apply H1.
  - intros ft. by eapply df_same_paged.
  - intros ft. by rewrite Sl, (same_pages _ _ (Sr ft)).
  - intros ft. by rewrite Sl, (same_size _ _ (Sh ft)).
  - intros ft. rewrite (same_pages _ _ (Sr ft)), (same_data _ _ (Sh ft)). apply E1.
Qed.

Lemma read_page_same df p log lf :
  paged df -> 0 <= p < df_num_pages df ->
  exists df' lf', read_page df p log lf = Ok (page_of df p, df', lf') /\ df_same df df'.
Proof.
  intros [D _] Hp. destruct (read_page_ok df p log lf D Hp) as (df' & E & _ & ? & ? & ? & ?).
  eexists df', _. split; [exact E|by split].
Qed.

Lemma upd_same_as db ft df' :
  df_same (pdb_header db ft) df' -> forall ft', df_same (pdb_header db ft') (upd (pdb_header db) ft df' ft').
Proof.
  intros S ft'. destruct (decide (ft' = ft)) as [->|N]; [by rewrite upd_same|].
  rewrite upd_other by done. apply df_same_refl.
Qed.

Lemma existsb_zeros n : existsb (fun b => negb (b =? 0)) (replicate n 0) = false.
Proof. by induction n. Qed.

Lemma validate_open_ok db ft :
  files_ok db ->
  exists db', validate_step true ft db = Ok db' /\ pdb_same db db' /\
    remaining_header_bits db' = upd (remaining_header_bits db) ft
      (df_file_size (pdb_header db ft) * CHAR_BIT - catalogue_slots db ft).
Proof.
  intros F. destruct (fo_cat _ F) as [Pc Nc]. destruct (fo_hd _ F ft) as [Ph Nh].
  pose proof (fo_rd _ F ft) as Pr. pose proof (fo_slots _ F ft) as Sl. pose proof (fo_room _ F ft) as Ro.
  pose proof PAGE_SIZE_pos as PS. pose proof SLOTS_PER_PAGE_size as SS.
  destruct Ph as [Dh Sh]. destruct Pr as [Dr Sr].
  destruct (read_page_same (pdb_catalogue db) 0 false (pdb_log db) Pc) as (cd & lf & Rc & Scd); [lia|].
  unfold validate_step. simpl. destruct (df_file_size (pdb_records db ft) =? 0) eqn:E; bool_prop.
  - assert (Z0 : df_num_pages (pdb_records db ft) = 0) by nia.
    pose proof (fo_empty _ F ft Z0) as Dz. rewrite Z0 in Sl. simpl in Sl.
    assert (Hsz : df_file_size (pdb_header db ft) = PAGE_SIZE)
      by (by rewrite (df_ok_size _ Dh), Dz, length_replicate, page_bytes_Z).
    unfold phy_database_validate_empty_header. rewrite Hsz, (proj2 (Z.eqb_neq PAGE_SIZE 0)) by lia. simpl.
    rewrite Rc. simpl. change (catalogue_entry _ ft) with (catalogue_slots db ft).
    rewrite Sl. simpl. rewrite Hsz, Z.eqb_refl. simpl.
    destruct (read_page_same (pdb_header db ft) 0 false lf (conj Dh Sh)) as (hd & lf2 & Rh & Shd); [lia|].
    rewrite Rh. simpl. 
    assert (Pz : page_of (pdb_header db ft) 0 = replicate page_bytes 0).
    { unfold page_of, slice. rewrite Dz, Z.mul_0_r, drop_0, take_ge; [done|]. by rewrite length_replicate. }
    rewrite Pz, existsb_zeros. simpl. eexists. split; [reflexivity|]. rewrite Z.sub_0_r. split; [|done].
    split_and!; simpl; [done|by apply upd_same_as|intros; apply df_same_refl].
  - unfold phy_database_validate_header.
    rewrite (proj2 (Z.eqb_neq (df_file_size (pdb_header db ft)) 0)) by nia. simpl.
    rewrite Rc. simpl. change (catalogue_entry _ ft) with (catalogue_slots db ft).
    assert (Q : df_file_size (pdb_records db ft) / SLOT_SIZE = catalogue_slots db ft).
    { rewrite Sl, Sr, <- SS. replace (SLOTS_PER_PAGE * SLOT_SIZE * df_num_pages (pdb_records db ft))
        with (df_num_pages (pdb_records db ft) * SLOTS_PER_PAGE * SLOT_SIZE) by ring.
      by rewrite Z.div_mul. }
    rewrite Q, Z.eqb_refl. simpl. eexists. split; [reflexivity|]. simpl. split.
    + split_and!; simpl; [done|intros; apply df_same_refl..].
    + f_equal. by apply u64_small.
Qed.
End Lemmas.

(** *** Opening what was closed *)

Section Reopen.
Context `{Sysconf}.
Implicit Types (db : phy_database) (ft : file_type).

(** A disk file as [disk_file_open] returns it. *)
Definition reopened (df : disk_file) : disk_file :=
  DiskFile (df_name df) (df_data df) (df_file_size df) (df_num_pages df) 0 0.

Lemma open_closed fs df name :
  paged df -> fs !! name = Some (df_data df) -> name = df_name df ->
  disk_file_open fs name = Ok (reopened df).
Proof.
  intros [D _] E ->. unfold disk_file_open. rewrite E. simpl. unfold reopened.
  by rewrite <- (df_ok_size _ D), <- (df_ok_pages _ D).
Qed.

Lemma suffix_ne (s a b : string) : a <> b -> s +:+ a <> s +:+ b.
Proof. intros N E. apply N. by apply (inj (String.append s)) in E. Qed.

Definition reopened_db db (log : string) : phy_database :=
  PhyDatabase (reopened (pdb_catalogue db))
    (PerFt (reopened (pdb_header db node_ft)) (reopened (pdb_header db relationship_ft)))
    (PerFt (reopened (pdb_records db node_ft)) (reopened (pdb_records db relationship_ft)))
    (PerFt 0 0) (log_open log).

Lemma reopened_same db log : pdb_same db (reopened_db db log).
Proof. split; [by split|]. split; intros []; by split. Qed.

Lemma open_files fs db name log :
  files_ok db -> named db name ->
  phy_database_open (phy_database_close fs db) name log =
    (db1 ← validate_step true node_ft (reopened_db db log);
     db2 ← validate_step true relationship_ft db1;
     Ok (db2, phy_database_close fs db)).
Proof.
  intros F N. unfold phy_database_open, phy_database_create_internal, open_or_create.
  pose proof (fo_hd _ F) as Hh. pose proof (fo_rd _ F) as Hr.
  assert (L : forall name' df, paged df -> name' = df_name df ->
    phy_database_close fs db !! name' = Some (df_data df) ->
    disk_file_open (phy_database_close fs db) name' = Ok (reopened df))
    by (intros; by apply open_closed).
  unfold phy_database_close, disk_file_destroy in L.
  rewrite (named_cat _ _ N), (named_nh _ _ N), (named_rh _ _ N), (named_nr _ _ N), (named_rr _ _ N) in L.
  unfold phy_database_close, disk_file_destroy.
  rewrite (named_cat _ _ N), (named_nh _ _ N), (named_rh _ _ N), (named_nr _ _ N), (named_rr _ _ N).
  cbn [negb].
  rewrite (L _ (pdb_catalogue db)); [|apply (fo_cat _ F)|by rewrite (named_cat _ _ N)|].
  2:{ rewrite !lookup_insert_ne by (by apply suffix_ne). by rewrite lookup_insert_eq. }
  cbn [mbind res_bind negb].
  rewrite (L _ (pdb_header db node_ft)); [|apply Hh|by rewrite (named_nh _ _ N)|].
  2:{ rewrite !lookup_insert_ne by (by apply suffix_ne). by rewrite lookup_insert_eq. }
  cbn [mbind res_bind].
  rewrite (L _ (pdb_header db relationship_ft)); [|apply Hh|by rewrite (named_rh _ _ N)|].
  2:{ rewrite !lookup_insert_ne by (by apply suffix_ne). by rewrite lookup_insert_eq. }
  cbn [mbind res_bind].
  rewrite (L _ (pdb_records db node_ft)); [|apply Hr|by rewrite (named_nr _ _ N)|].
  2:{ rewrite !lookup_insert_ne by (by apply suffix_ne). by rewrite lookup_insert_eq. }
  cbn [mbind res_bind].
  rewrite (L _ (pdb_records db relationship_ft)); [|apply Hr|by rewrite (named_rr _ _ N)|].
  2:{ by rewrite lookup_insert_eq. }
  reflexivity.
Qed.

Lemma files_ok_of_pdb db :
  pdb_ok db -> (forall ft, df_num_pages (pdb_records db ft) = 0 ->
    df_data (pdb_header db ft) = replicate page_bytes 0) -> files_ok db.
Proof.
  intros [C I] E. split; [done|..]; intros ft; destruct (I ft) as [Ih Ir Is Im Ie In];
    [done|done|done|by rewrite <- Im|by apply E].
Qed.

Lemma pdb_ok_of_files db :
  files_ok db -> (forall ft, remaining_header_bits db ft =
    df_file_size (pdb_header db ft) * CHAR_BIT - catalogue_slots db ft) -> pdb_ok db.
Proof.
  intros F R. split; [apply F|]. intros ft. pose proof (fo_hd _ F ft) as [Hh Hn].
  split; [done|apply F|apply F|done|rewrite R; apply F|done].
Qed.
End Reopen.

(** ** Properties *)

(** A new database is consistent, has no record pages, one zeroed header page per
    record file, and its files are named after it. *)
Theorem phy_database_create_ok `{Sysconf} (fs : file_system) (name log : string) :
  exists db fs', phy_database_create fs name log = Ok (db, fs') /\ pdb_ok db /\ named db name /\
    forall ft, df_num_pages (pdb_records db ft) = 0 /\
      df_data (pdb_header db ft) = replicate page_bytes 0.
Proof. apply create_ok. Qed.

(** C38: [allocate_pages] keeps the database consistent: the record file grows by
    zeroed pages, the header gets as many zeroed pages as the new slots need, the
    catalogue counts the new slots, and no old page of either file, nor anything of
    the other record type, changes. *)
Theorem allocate_pages_ok `{Sysconf} (db : phy_database) (ft : file_type) (n : Z) (log : bool)
    (I : pdb_ok db) (Hn : 0 <= n)
    (Hr : df_num_pages (pdb_records db ft) + n < MAX_PAGE_NO)
    (Hh : df_num_pages (pdb_header db ft) + n * SLOTS_PER_PAGE + 2 < MAX_PAGE_NO) :
  exists db', allocate_pages db ft n log = Ok db' /\ pdb_ok db' /\
    df_num_pages (pdb_records db' ft) = df_num_pages (pdb_records db ft) + n /\
    (forall p, 0 <= p < df_num_pages (pdb_records db' ft) ->
       page_of (pdb_records db' ft) p =
         if p <? df_num_pages (pdb_records db ft) then page_of (pdb_records db ft) p
         else replicate page_bytes 0) /\
    (forall p, 0 <= p < df_num_pages (pdb_header db' ft) -> page_of (pdb_header db' ft) p =
       if p <? df_num_pages (pdb_header db ft) then page_of (pdb_header db ft) p
       else replicate page_bytes 0) /\
    (forall ft', ft' <> ft -> pdb_header db' ft' = pdb_header db ft' /\
       pdb_records db' ft' = pdb_records db ft' /\
       remaining_header_bits db' ft' = remaining_header_bits db ft').
Proof.
  destruct (allocate_ok db ft n log I Hn Hr Hh) as (db' & E & I' & N & V & _ & V' & O).
  exists db'. by split_and!.
Qed.

Lemma allocate_pages_ok_witness :
  exists (db db' : phy_database), pdb_ok (H := small_pages) db /\
    allocate_pages (H := small_pages) db relationship_ft 3 true = Ok db' /\
    pdb_ok (H := small_pages) db' /\ df_num_pages (pdb_records db' relationship_ft) = 3.
Proof.
  destruct (create_ok (H := small_pages) ∅ "g" "l") as (db & fs & E & I & _).
  assert (N : df_num_pages (pdb_records db relationship_ft) = 0 /\
              df_num_pages (pdb_header db relationship_ft) = 1).
  { revert E. vm_compute. intros [= <- _]. split; reflexivity. }
  destruct N as [N1 N2].
  destruct (allocate_pages_ok (H := small_pages) db relationship_ft 3 true I) as (db' & E' & I' & N' & _);
    [lia|rewrite N1; vm_compute; reflexivity|rewrite N2; vm_compute; reflexivity|].
  exists db, db'. split; [exact I|]. split; [exact E'|]. split; [exact I'|]. rewrite N', N1. reflexivity.
Defined.

(** C39: closing a consistent database and opening it again succeeds and gives a
    consistent database with the same pages in every file and the same number of
    unused header bits (an empty record file must still have its zeroed header). *)
Theorem phy_database_close_open `{Sysconf} (fs : file_system) (db : phy_database)
    (name log : string) (I : pdb_ok db) (N : named db name)
    (E : forall ft, df_num_pages (pdb_records db ft) = 0 ->
       df_data (pdb_header db ft) = replicate page_bytes 0) :
  exists db', phy_database_open (phy_database_close fs db) name log =
      Ok (db', phy_database_close fs db) /\
    pdb_ok db' /\ pdb_same db db' /\
    forall ft, remaining_header_bits db' ft = remaining_header_bits db ft.
Proof.
  pose proof (files_ok_of_pdb db I E) as F. rewrite open_files by done.
  pose proof (reopened_same db log) as S0. pose proof (files_ok_same _ _ S0 F) as F0.
  destruct (validate_open_ok (reopened_db db log) node_ft F0) as (db1 & -> & S1 & R1).
  pose proof (files_ok_same _ _ S1 F0) as F1. simpl.
  destruct (validate_open_ok db1 relationship_ft F1) as (db2 & -> & S2 & R2). simpl.
  pose proof (files_ok_same _ _ S2 F1) as F2.
  assert (S : pdb_same db db2).
  { destruct S0 as (A1 & A2 & A3), S1 as (B1 & B2 & B3), S2 as (C1 & C2 & C3).
    split_and!; intros; eauto using df_same_trans. }
  assert (R : forall ft, remaining_header_bits db2 ft =
    df_file_size (pdb_header db2 ft) * CHAR_BIT - catalogue_slots db2 ft).
  { intros ft. rewrite (pdb_same_slots _ _ ft S2), (same_size _ _ (proj1 (proj2 S2) ft)).
    rewrite R2, R1. destruct ft; simpl; [|done].
    pose proof (same_size _ _ (proj1 (proj2 S1) node_ft)) as Q. simpl in Q.
    by rewrite (pdb_same_slots _ _ node_ft S1), Q. }
  exists db2. split_and!; [done|by apply pdb_ok_of_files|done|].
  intros ft. rewrite R, (pdb_same_slots _ _ ft S), (same_size _ _ (proj1 (proj2 S) ft)).
  symmetry. apply (ft_remaining _ _ (pdb_fts _ I ft)).
Qed.

Lemma phy_database_close_open_witness :
  exists (db db' : phy_database) fs', phy_database_open (H := small_pages) fs' "g" "l2" = Ok (db', fs') /\
    pdb_ok (H := small_pages) db' /\ pdb_same db db'.
Proof.
  destruct (create_ok (H := small_pages) ∅ "g" "l") as (db & fs & E & I & N & Z).
  destruct (phy_database_close_open (H := small_pages) fs db "g" "l2" I N (fun ft _ => proj2 (Z ft)))
    as (db' & E' & I' & S & _).
  exists db, db', (phy_database_close fs db). split; [exact E'|]. split; [exact I'|exact S].
Defined.
