(* ===== verification/Page.v ===== *)
(** The pages of src/cache/page.c: a buffer with the metadata by which the page
    cache identifies it, and typed reads and writes at an offset.

    A double is its object representation, an unsigned 64-bit number.  The null
    checks have no counterpart: a page is a value. *)

From S2P Require Import Prelude Constants DiskFile PhysicalDatabase.
From Stdlib Require Import ZArith Lia.
From stdpp Require Import base list option.

#[local] Open Scope Z_scope.

(** ** Data and operations *)

(** [None] is [invalid] and [invalid_ft]. *)
Record page := Page {
  p_fk : option file_kind;
  p_ft : option file_type;
  p_no : Z;
  pin_count : Z;
  dirty : bool;
  p_data : list Z }.

Section Page.
Context `{Sysconf}.

Definition page_create (data : list Z) : page := Page None None ULONG_MAX 0 false data.

Definition page_destroy (p : page) : res unit :=
  exit_if (negb (pin_count p =? 0) || dirty p).

Definition set_page_data (p : page) (data : list Z) : page :=
  Page (p_fk p) (p_ft p) (p_no p) (pin_count p) true data.

(** [memcpy(dst, p->data + offset, n)] and [memcpy(p->data + offset, src, n)]. *)
Definition page_load (p : page) (offset : Z) (n : nat) : res (list Z) :=
  if (Z.to_nat offset + n <=? length (p_data p))%nat
  then Ok (slice (p_data p) (Z.to_nat offset) n) else Undef.
Definition page_store (p : page) (offset : Z) (src : list Z) : res page :=
  if (Z.to_nat offset + length src <=? length (p_data p))%nat
  then Ok (set_page_data p (splice (p_data p) (Z.to_nat offset) src)) else Undef.

Definition read_ulong (p : page) (offset : Z) : res Z :=
  if (PAGE_SIZE - sizeof_ulong <? offset) || (pin_count p <? 1) then Exit
  else bs ← page_load p offset 8; Ok (le_combine bs).

Definition write_ulong (p : page) (offset : Z) (value : Z) : res page :=
  if (PAGE_SIZE - sizeof_ulong <? offset) || (pin_count p <? 1) then Exit
  else page_store p offset (le_split 8 value).

Definition read_uchar (p : page) (offset : Z) : res Z :=
  if (PAGE_SIZE - 1 <? offset) || (pin_count p <? 1) then Exit
  else deref (p_data p !! Z.to_nat offset).

Definition write_uchar (p : page) (offset : Z) (value : Z) : res page :=
  if (PAGE_SIZE - 1 <? offset) || (pin_count p <? 1) then Exit
  else page_store p offset [value].

Definition read_double (p : page) (offset : Z) : res Z :=
  if (PAGE_SIZE - sizeof_double <? offset) || (pin_count p <? 1) then Exit
  else bs ← page_load p offset 8; Ok (le_combine bs).

Definition write_double (p : page) (offset : Z) (value : Z) : res page :=
  if (PAGE_SIZE - sizeof_double <? offset) || (pin_count p <? 1) then Exit
  else page_store p offset (le_split 8 value).

(** The difference wraps for strings longer than a page. *)
Definition read_string (p : page) (offset : Z) (len : nat) : res (list Z) :=
  if (u64 (PAGE_SIZE - Z.of_nat len) <? offset) || (pin_count p <? 1) then Exit
  else page_load p offset len.

(** [memset(buf, 0, len); strncpy(buf, value, len);] *)
Fixpoint strncpy (value : list Z) (len : nat) : list Z :=
  match len, value with
  | O, _ => []
  | S _, [] => replicate len 0
  | S len', c :: value' => if c =? 0 then replicate len 0 else c :: strncpy value' len'
  end.

Definition write_string (p : page) (offset : Z) (value : list Z) (len : nat) : res page :=
  if u64 (PAGE_SIZE - Z.of_nat len) <? offset then Exit
  else
    last ← (if (len =? 0)%nat then Undef else deref (value !! (len - 1)%nat));
    if negb (last =? 0) || (pin_count p <? 1) then Exit
    else page_store p offset (strncpy value len).

(** ** Specification *)

(** A page whose buffer is a page long. *)
Definition page_ok (p : page) : Prop := length (p_data p) = page_bytes /\ Forall is_byte (p_data p).

(** The string in a buffer: the bytes up to the first zero. *)
Fixpoint c_string (bs : list Z) : list Z :=
  match bs with
  | [] => []
  | b :: bs' => if b =? 0 then [] else b :: c_string bs'
  end.

(** ** Lemmas *)

Lemma read_ulong_ok p off :
  page_ok p -> 0 <= off <= PAGE_SIZE - 8 -> 1 <= pin_count p ->
  read_ulong p off = Ok (le_combine (slice (p_data p) (Z.to_nat off) 8)).
Proof.
  intros [L _] Ho Hp. pose proof page_bytes_Z. unfold read_ulong, page_load, sizeof_ulong.
  rewrite (proj2 (Z.ltb_ge _ _)) by lia. rewrite (proj2 (Z.ltb_ge _ _)) by lia. simpl.
  by rewrite (proj2 (Nat.leb_le _ _)) by lia.
Qed.

Lemma write_ulong_ok p off v :
  page_ok p -> 0 <= off <= PAGE_SIZE - 8 -> 1 <= pin_count p ->
  write_ulong p off v = Ok (set_page_data p (splice (p_data p) (Z.to_nat off) (le_split 8 v))) /\
  page_ok (set_page_data p (splice (p_data p) (Z.to_nat off) (le_split 8 v))).
Proof.
  intros [L B] Ho Hp. pose proof page_bytes_Z. unfold write_ulong, page_store, sizeof_ulong.
  rewrite (proj2 (Z.ltb_ge _ _)) by lia. rewrite (proj2 (Z.ltb_ge _ _)) by lia.
  rewrite length_le_split. split.
  - by rewrite (proj2 (Nat.leb_le _ _)) by lia.
  - split; cbn [p_data set_page_data]; [rewrite length_splice; [done|]; rewrite length_le_split; lia|].
    apply Forall_splice; [done|apply le_split_bytes].
Qed.

Lemma read_uchar_ok p off b :
  page_ok p -> 0 <= off < PAGE_SIZE -> 1 <= pin_count p -> p_data p !! Z.to_nat off = Some b ->
  read_uchar p off = Ok b.
Proof.
  intros _ Ho Hp E. unfold read_uchar. rewrite (proj2 (Z.ltb_ge _ _)) by lia.
  rewrite (proj2 (Z.ltb_ge _ _)) by lia. by rewrite E.
Qed.

Lemma splice_single {A} (l : list A) i v : (i < length l)%nat -> splice l i [v] = <[i := v]> l.
Proof. intros. rewrite insert_take_drop by done. unfold splice. simpl. by rewrite Nat.add_1_r. Qed.

Lemma write_uchar_ok p off v :
  page_ok p -> 0 <= off < PAGE_SIZE -> 1 <= pin_count p -> is_byte v ->
  write_uchar p off v = Ok (set_page_data p (<[Z.to_nat off := v]> (p_data p))) /\
  page_ok (set_page_data p (<[Z.to_nat off := v]> (p_data p))).
Proof.
  intros [L B] Ho Hp Hv. pose proof page_bytes_Z. unfold write_uchar, page_store.
  rewrite (proj2 (Z.ltb_ge _ _)) by lia. rewrite (proj2 (Z.ltb_ge _ _)) by lia. simpl.
  rewrite (proj2 (Nat.leb_le _ _)) by lia. rewrite splice_single by lia. split; [done|].
  split; simpl; [by rewrite length_insert|]. by apply Forall_insert.
Qed.

Lemma length_strncpy value len : length (strncpy value len) = len.
Proof.
  revert value. induction len as [|len IH]; intros [|c v]; simpl; rewrite ?length_replicate; try done.
  destruct (c =? 0); simpl; [by rewrite length_replicate|by rewrite IH].
Qed.

Lemma c_string_zeros n : c_string (replicate n 0) = [].
Proof. by destruct n. Qed.

Lemma c_string_strncpy value len :
  value !! (len - 1)%nat = Some 0 -> (0 < len)%nat -> c_string (strncpy value len) = c_string value.
Proof.
  revert value. induction len as [|len IH]; intros [|c v] Hl Hp; simpl; try lia; [done|].
  destruct (c =? 0) eqn:E; [done|]. simpl. rewrite E. f_equal.
  destruct len as [|len]; [simpl in Hl; bool_prop; congruence|].
  apply IH; [|lia]. simpl in *. by rewrite Nat.sub_0_r in *.
Qed.

Lemma strncpy_bytes value len : Forall is_byte value -> Forall is_byte (strncpy value len).
Proof.
  assert (Z0 : forall n, Forall is_byte (replicate n 0))
    by (intros; apply Forall_replicate; unfold is_byte; lia).
  revert value. induction len as [|len IH]; intros [|c v] Hv; simpl; [constructor|constructor| |].
  - apply (Z0 (S len)).
  - inversion Hv; subst. destruct (c =? 0); [apply (Z0 (S len))|constructor; auto].
Qed.
End Page.

(** ** Properties *)

(** Unsigned longs, doubles (as bit patterns), bytes and strings written to a pinned
    page are read back, the page is dirty afterwards, and nothing else of its
    buffer changes. *)
Theorem page_write_read `{Sysconf} (p : page) (off : Z) (v b : Z) (value : list Z) (len : nat)
    (P : page_ok p) (Hpin : 1 <= pin_count p) (Ho : 0 <= off) (Hv : is_u64 v) (Hb : is_byte b)
    (Hs : Forall is_byte value) (Hl : (0 < len)%nat) (Hz : value !! (len - 1)%nat = Some 0) :
  (off <= PAGE_SIZE - 8 ->
     exists p', write_ulong p off v = Ok p' /\ write_double p off v = Ok p' /\
       read_ulong p' off = Ok v /\ read_double p' off = Ok v /\ page_ok p' /\ dirty p' = true /\
       p_data p' = splice (p_data p) (Z.to_nat off) (le_split 8 v)) /\
  (off <= PAGE_SIZE - 1 ->
     exists p', write_uchar p off b = Ok p' /\ read_uchar p' off = Ok b /\ page_ok p' /\
       dirty p' = true /\ p_data p' = <[Z.to_nat off := b]> (p_data p)) /\
  (off <= PAGE_SIZE - Z.of_nat len ->
     exists p' bs, write_string p off value len = Ok p' /\ read_string p' off len = Ok bs /\
       c_string bs = c_string value /\ page_ok p' /\ dirty p' = true /\
       p_data p' = splice (p_data p) (Z.to_nat off) bs).
Proof.
  pose proof page_bytes_Z as PB. pose proof (proj1 P) as L. split_and!; intros Hoff.
  - destruct (write_ulong_ok p off v P ltac:(lia) Hpin) as [E P'].
    eexists. split; [exact E|]. split; [exact E|].
    assert (R : read_ulong (set_page_data p (splice (p_data p) (Z.to_nat off) (le_split 8 v))) off = Ok v).
    { rewrite read_ulong_ok by (done || lia). cbn [p_data set_page_data]. f_equal.
      transitivity (le_combine (le_split 8 v)); [|by apply le_split_u64]. f_equal.
      rewrite <- (length_le_split 8 v) at 2. apply slice_splice_same.
      rewrite length_le_split. lia. }
    split_and!; [exact R|exact R|exact P'|done|done].
  - destruct (write_uchar_ok p off b P ltac:(lia) Hpin Hb) as [E P'].
    eexists. split; [exact E|]. split_and!; [|done|done|done].
    apply read_uchar_ok; [done|lia|done|]. simpl. apply list_lookup_insert_eq. lia.
  - pose proof PAGE_SIZE_small as PS.
    assert (U : u64 (PAGE_SIZE - Z.of_nat len) = PAGE_SIZE - Z.of_nat len)
      by (apply u64_small; unfold is_u64; lia).
    unfold write_string, read_string. rewrite U, (proj2 (Z.ltb_ge _ _)) by lia.
    rewrite (proj2 (Nat.eqb_neq len 0)) by lia. rewrite Hz. simpl.
    rewrite (proj2 (Z.ltb_ge _ _)) by lia. unfold page_store. rewrite length_strncpy.
    rewrite (proj2 (Nat.leb_le _ _)) by lia. eexists _, (strncpy value len).
    split; [reflexivity|]. simpl. rewrite (proj2 (Z.ltb_ge _ _)) by lia. simpl.
    assert (Ls : length (splice (p_data p) (Z.to_nat off) (strncpy value len)) = length (p_data p))
      by (apply length_splice; rewrite length_strncpy; lia).
    unfold page_load. simpl. rewrite Ls, (proj2 (Nat.leb_le _ _)) by lia.
    split_and!; [|by apply c_string_strncpy|split; simpl; [congruence|]|done|done].
    + f_equal. rewrite <- (length_strncpy value len) at 2. apply slice_splice_same.
      rewrite length_strncpy. lia.
    + apply Forall_splice; [apply P|by apply strncpy_bytes].
Qed.

Lemma page_write_read_witness :
  exists p', write_ulong (H := small_pages)
      (Page (Some records) (Some node_ft) 0 1 false (replicate 32 7)) 3 1000 = Ok p' /\
    read_ulong (H := small_pages) p' 3 = Ok 1000.
Proof.
  destruct (proj1 (page_write_read (H := small_pages)
      (Page (Some records) (Some node_ft) 0 1 false (replicate 32 7)) 3 1000 9 [65; 0] 2
      ltac:(split; [reflexivity|apply Forall_replicate; unfold is_byte; lia])
      ltac:(simpl; lia) ltac:(lia) ltac:(unfold is_u64; lia) ltac:(unfold is_byte; lia)
      ltac:(repeat constructor; unfold is_byte; lia) ltac:(lia) eq_refl)
      ltac:(simpl; lia)) as (p' & E & _ & R & _).
  exists p'. split; [exact E|exact R].
Defined.

(** Every access to a page that is not pinned, or beyond its end, ends the program
    without touching the buffer. *)
Theorem page_access_guard `{Sysconf} (p : page) (off v : Z)
    (Hbad : pin_count p < 1 \/ PAGE_SIZE - 1 < off) :
  read_ulong p off = Exit /\ write_ulong p off v = Exit /\ read_uchar p off = Exit /\
  write_uchar p off v = Exit /\ read_double p off = Exit /\ write_double p off v = Exit.
Proof.
  unfold read_ulong, write_ulong, read_uchar, write_uchar, read_double, write_double,
    sizeof_ulong, sizeof_double.
  assert (B8 : (PAGE_SIZE - 8 <? off) || (pin_count p <? 1) = true).
  { apply orb_true_iff. destruct Hbad; [right|left]; apply Z.ltb_lt; lia. }
  assert (B1 : (PAGE_SIZE - 1 <? off) || (pin_count p <? 1) = true).
  { apply orb_true_iff. destruct Hbad; [right|left]; apply Z.ltb_lt; lia. }
  by rewrite B8, B1.
Qed.

Lemma page_access_guard_witness :
  read_ulong (H := small_pages) (page_create (replicate 32 0)) 0 = Exit.
Proof.
  exact (proj1 (page_access_guard (H := small_pages) (page_create (replicate 32 0)) 0 0
                  ltac:(left; simpl; lia))).
Defined.
