(* ===== verification/PageCache.v ===== *)
(** The page cache of src/cache/page_cache.c.

    Frames hold pages; [page_map] has for each file a hash table from page numbers to
    frame numbers; [free_frames] lists the frames without a page and
    [recently_referenced] queues the frames in the order they were unpinned.  A
    [page*] is the number of its frame (the page structs are never moved).
    [rand()] seeds the hash tables: the seed is an argument. *)

From S2P Require Import Prelude Constants LinkedList HTable DiskFile PhysicalDatabase Page.
From Stdlib Require Import ZArith Lia.
From stdpp Require Import base list option gmap strings.

#[local] Open Scope Z_scope.

(** ** Data *)

Abbreviation dict_ul_ul := (htable Z Z).

Record page_cache := PageCache {
  pdb : phy_database;
  n_frames : Z;
  num_pins : Z;
  num_unpins : Z;
  bulk_import : bool;
  pc_log : log_file;
  free_frames : llist Z;
  recently_referenced : llist Z;
  page_map : gmap (file_kind * file_type) dict_ul_ul;
  frames : list page }.

Definition fk_num (fk : file_kind) : Z :=
  match fk with catalogue => 0 | header => 1 | records => 2 end.
Definition fk_log (fk : option file_kind) : log_arg :=
  LNum (match fk with Some fk => fk_num fk | None => 3 end).
Definition ft_log (ft : option file_type) : log_arg :=
  LNum (match ft with Some ft => ft_num ft | None => 2 end).

Definition dict_insert (d : dict_ul_ul) (k v : Z) : res dict_ul_ul :=
  htable_insert fnv_hash_ul 0 0 d k v.
Definition dict_remove (d : dict_ul_ul) (k : Z) : res dict_ul_ul := htable_remove fnv_hash_ul d k.
Definition dict_contains (d : dict_ul_ul) (k : Z) : res bool := htable_contains fnv_hash_ul d k.
Definition dict_get_direct (d : dict_ul_ul) (k : Z) : res Z := htable_get_direct fnv_hash_ul d k.

(** *** Field updates *)

Definition set_pdb (pc : page_cache) (db : phy_database) : page_cache :=
  PageCache db (n_frames pc) (num_pins pc) (num_unpins pc) (bulk_import pc) (pc_log pc)
    (free_frames pc) (recently_referenced pc) (page_map pc) (frames pc).
Definition set_pc_log (pc : page_cache) (lf : log_file) : page_cache :=
  PageCache (pdb pc) (n_frames pc) (num_pins pc) (num_unpins pc) (bulk_import pc) lf
    (free_frames pc) (recently_referenced pc) (page_map pc) (frames pc).
Definition set_bulk_import (pc : page_cache) (b : bool) : page_cache :=
  PageCache (pdb pc) (n_frames pc) (num_pins pc) (num_unpins pc) b (pc_log pc)
    (free_frames pc) (recently_referenced pc) (page_map pc) (frames pc).
Definition set_free (pc : page_cache) (l : llist Z) : page_cache :=
  PageCache (pdb pc) (n_frames pc) (num_pins pc) (num_unpins pc) (bulk_import pc) (pc_log pc)
    l (recently_referenced pc) (page_map pc) (frames pc).
Definition set_recent (pc : page_cache) (q : llist Z) : page_cache :=
  PageCache (pdb pc) (n_frames pc) (num_pins pc) (num_unpins pc) (bulk_import pc) (pc_log pc)
    (free_frames pc) q (page_map pc) (frames pc).
Definition set_dict (pc : page_cache) (fk : file_kind) (ft : file_type) (d : dict_ul_ul) : page_cache :=
  PageCache (pdb pc) (n_frames pc) (num_pins pc) (num_unpins pc) (bulk_import pc) (pc_log pc)
    (free_frames pc) (recently_referenced pc) (<[(fk, ft) := d]> (page_map pc)) (frames pc).
Definition set_frame (pc : page_cache) (i : Z) (p : page) : page_cache :=
  PageCache (pdb pc) (n_frames pc) (num_pins pc) (num_unpins pc) (bulk_import pc) (pc_log pc)
    (free_frames pc) (recently_referenced pc) (page_map pc) (<[Z.to_nat i := p]> (frames pc)).
Definition count_pin (pc : page_cache) : page_cache :=
  PageCache (pdb pc) (n_frames pc) (u64 (num_pins pc + 1)) (num_unpins pc) (bulk_import pc)
    (pc_log pc) (free_frames pc) (recently_referenced pc) (page_map pc) (frames pc).
Definition count_unpin (pc : page_cache) : page_cache :=
  PageCache (pdb pc) (n_frames pc) (num_pins pc) (u64 (num_unpins pc + 1)) (bulk_import pc)
    (pc_log pc) (free_frames pc) (recently_referenced pc) (page_map pc) (frames pc).

Definition get_frame (pc : page_cache) (i : Z) : res page := deref (frames pc !! Z.to_nat i).

(** A table of [page_map]; it is null for the catalogue and relationships. *)
Definition dict_of (pc : page_cache) (fk : file_kind) (ft : file_type) : res dict_ul_ul :=
  or_exit (page_map pc !! (fk, ft)).

(** The file of a kind and type. *)
Definition file_of (db : phy_database) (fk : file_kind) (ft : file_type) : disk_file :=
  match fk with
  | catalogue => pdb_catalogue db
  | header => pdb_header db ft
  | records => pdb_records db ft
  end.
Definition set_file (db : phy_database) (fk : file_kind) (ft : file_type)
    (p : disk_file * log_file) : phy_database :=
  match fk with
  | catalogue => set_catalogue db p
  | header => set_header db ft p
  | records => set_records db ft p
  end.

Definition pc_log_when (log : bool) (line : log_line) (pc : page_cache) : page_cache :=
  set_pc_log pc (log_when log line (pc_log pc)).

Definition with_pin (p : page) (n : Z) : page :=
  Page (p_fk p) (p_ft p) (p_no p) n (dirty p) (p_data p).
Definition with_dirty (p : page) (b : bool) : page :=
  Page (p_fk p) (p_ft p) (p_no p) (pin_count p) b (p_data p).

(** ** Operations *)

Section PageCacheOps.
Context `{Sysconf}.

(** The tables of a new cache. *)
Definition new_maps (seed : Z) : gmap (file_kind * file_type) dict_ul_ul :=
  list_to_map
    (map (fun k => (k, htable_create 0 0 seed))
       [(catalogue, node_ft); (header, node_ft); (header, relationship_ft);
        (records, node_ft); (records, relationship_ft)]).

(** [for (i < n_frames) { frames[i] = page_create(...); append(free_frames, i); }] *)
Fixpoint new_frames (n : nat) (i : Z) (fs : list page) (free : llist Z)
    : res (list page * llist Z) :=
  match n with
  | O => Ok (fs, free)
  | S n' =>
      free ← linked_list_append free i;
      new_frames n' (i + 1) (fs ++ [page_create (replicate page_bytes 0)]) free
  end.

Definition page_cache_create (db : phy_database) (n : Z) (log_path : string) (seed : Z)
    : res page_cache :=
  if SIZE_MAX <? n * PAGE_SIZE then Exit
  else
    '(fs, free) ← new_frames (Z.to_nat n) 0 [] linked_list_create;
    Ok (PageCache db n 0 0 false (log_open log_path) free linked_list_create (new_maps seed) fs).

Definition flush_page (pc : page_cache) (frame_no : Z) (log : bool) : res page_cache :=
  candidate ← get_frame pc frame_no;
  if 0 <? pin_count candidate then Exit
  else
    pc ← (if dirty candidate then
            match p_fk candidate, p_ft candidate with
            | None, _ => Exit
            | Some _, None => Undef
            | Some fk, Some ft =>
                dp ← write_page (file_of (pdb pc) fk ft) (p_no candidate) (p_data candidate) log
                       (pdb_log (pdb pc));
                let pc := set_pdb pc (set_file (pdb pc) fk ft dp) in
                Ok (set_frame pc frame_no (with_dirty candidate false))
            end
          else Ok pc);
    candidate ← get_frame pc frame_no;
    Ok (pc_log_when log [LStr "Flushed"; fk_log (p_fk candidate); ft_log (p_ft candidate);
                         LNum (p_no candidate)] pc).

(** The removal of the page of an unpinned frame from the cache, shared by [evict]
    and [bulk_evict] (the line "Evict" is logged by the former only). *)
Definition evict_frame (pc : page_cache) (candidate : Z) (log evict_log : bool) : res page_cache :=
  pc ← flush_page pc candidate log;
  candidate_page ← get_frame pc candidate;
  let pc := pc_log_when evict_log
    [LStr "Evict"; fk_log (p_fk candidate_page); ft_log (p_ft candidate_page);
     LNum (p_no candidate_page)] pc in
  match p_fk candidate_page, p_ft candidate_page with
  | Some fk, Some ft =>
      d ← dict_of pc fk ft;
      d ← dict_remove d (p_no candidate_page);
      let pc := set_dict pc fk ft d in
      l ← linked_list_append (free_frames pc) candidate;
      let pc := set_free pc l in
      Ok (set_frame pc candidate
            (Page None None ULONG_MAX (pin_count candidate_page) (dirty candidate_page)
               (replicate page_bytes 0)))
  | _, _ => Undef
  end.

(** The search loop of [evict]: [n] queue positions from [i] on; [idxs] are the
    positions evicted so far, the last one first. *)
Fixpoint evict_loop (pc : page_cache) (n : nat) (i : nat) (idxs : list nat) (log : bool)
    : res (page_cache * list nat) :=
  match n with
  | O => Ok (pc, idxs)
  | S n' =>
      candidate ← linked_list_get (recently_referenced pc) i;
      candidate_page ← get_frame pc candidate;
      if pin_count candidate_page =? 0 then
        pc ← evict_frame pc candidate log log;
        let idxs := i :: idxs in
        if EVICT_LRU_K <=? Z.of_nat (length idxs) then Ok (pc, idxs)
        else evict_loop pc n' (S i) idxs log
      else evict_loop pc n' (S i) idxs log
  end.

(** The removal of the positions from the queue, from back to front. *)
Fixpoint evict_remove (q : llist Z) (idxs : list nat) : res (llist Z) :=
  match idxs with
  | [] => Ok q
  | i :: idxs' => q ← linked_list_remove q i; evict_remove q idxs'
  end.

Definition evict (pc : page_cache) (log : bool) : res page_cache :=
  '(pc, idxs) ← evict_loop pc (linked_list_size (recently_referenced pc)) 0 [] log;
  q ← evict_remove (recently_referenced pc) idxs;
  let pc := set_recent pc q in
  if (length idxs =? 0)%nat then Exit else Ok pc.

(** The loop of [bulk_evict] over the frames. *)
Fixpoint bulk_evict_loop (pc : page_cache) (n : nat) (i : Z) (evicted : Z) : res (page_cache * Z) :=
  match n with
  | O => Ok (pc, evicted)
  | S n' =>
      c_page ← get_frame pc i;
      if pin_count c_page =? 0 then
        pc ← evict_frame pc i false false;
        bulk_evict_loop pc n' (i + 1) (evicted + 1)
      else bulk_evict_loop pc n' (i + 1) evicted
  end.

Definition bulk_evict (pc : page_cache) : res page_cache :=
  '(pc, evicted) ← bulk_evict_loop pc (Z.to_nat (n_frames pc)) 0 0;
  if evicted =? 0 then Exit else Ok pc.

(** The two steps of [pin_page] when the page is not cached: making room, and reading
    the page into the first free frame. *)
Definition ensure_free_frame (pc : page_cache) (log : bool) : res page_cache :=
  if (linked_list_size (free_frames pc) =? 0)%nat then
    if bulk_import pc then bulk_evict pc else evict pc log
  else Ok pc.

Definition load_page (pc : page_cache) (page_no : Z) (fk : file_kind) (ft : file_type) (log : bool)
    : res (Z * page_cache) :=
  '(frame_no, free) ← linked_list_take (free_frames pc) 0;
  let pc := set_free pc free in
  _ ← get_frame pc frame_no;
  '(buf, df, lf) ← read_page (file_of (pdb pc) fk ft) page_no log (pdb_log (pdb pc));
  let pc := set_pdb pc (set_file (pdb pc) fk ft (df, lf)) in
  let pc := set_frame pc frame_no (Page (Some fk) (Some ft) page_no 1 false buf) in
  d ← dict_of pc fk ft;
  d ← dict_insert d page_no frame_no;
  Ok (frame_no, set_dict pc fk ft d).

Definition pin_page (pc : page_cache) (page_no : Z) (fk : file_kind) (ft : file_type) (log : bool)
    : res (Z * page_cache) :=
  if bool_decide (fk = catalogue /\ ft <> node_ft) then Exit
  else
    let num_pages := df_num_pages (file_of (pdb pc) fk ft) in
    if (MAX_PAGE_NO <=? page_no) || (num_pages <=? page_no) then Exit
    else
      d ← dict_of pc fk ft;
      c ← dict_contains d page_no;
      '(frame_no, pc) ←
        (if c : bool then
           frame_no ← dict_get_direct d page_no;
           p ← get_frame pc frame_no;
           Ok (frame_no, set_frame pc frame_no (with_pin p (u32 (pin_count p + 1))))
         else
           pc ← ensure_free_frame pc log;
           load_page pc page_no fk ft log);
      let pc := count_pin pc in
      Ok (frame_no, pc_log_when log [LStr "Pin"; LNum (fk_num fk); LNum (ft_num ft); LNum page_no] pc).

Definition unpin_page (pc : page_cache) (page_no : Z) (fk : file_kind) (ft : file_type) (log : bool)
    : res page_cache :=
  d ← dict_of pc fk ft;
  c ← dict_contains d page_no;
  if negb c then Exit
  else
    let num_pages := df_num_pages (file_of (pdb pc) fk ft) in
    if (MAX_PAGE_NO <=? page_no) || (num_pages <=? page_no) then Exit
    else
      frame_no ← dict_get_direct d page_no;
      unpinned_page ← get_frame pc frame_no;
      if pin_count unpinned_page =? 0 then Exit
      else
        let pc := set_frame pc frame_no (with_pin unpinned_page (pin_count unpinned_page - 1)) in
        pc ← (if negb (bulk_import pc) then
                q ← queue_move_back unsigned_long_eq (recently_referenced pc) frame_no;
                Ok (set_recent pc q)
              else Ok pc);
        let pc := count_unpin pc in
        Ok (pc_log_when log [LStr "Unpin"; LNum (fk_num fk); LNum (ft_num ft); LNum page_no] pc).

Fixpoint flush_loop (pc : page_cache) (n : nat) (i : Z) (log : bool) : res page_cache :=
  match n with
  | O => Ok pc
  | S n' => pc ← flush_page pc i log; flush_loop pc n' (i + 1) log
  end.

Definition flush_all_pages (pc : page_cache) (log : bool) : res page_cache :=
  flush_loop pc (Z.to_nat (n_frames pc)) 0 log.

Definition new_page (pc : page_cache) (ft : file_type) (log : bool) : res (Z * page_cache) :=
  db ← allocate_pages (pdb pc) ft 1 log;
  let pc := set_pdb pc db in
  pin_page pc (df_num_pages (pdb_records (pdb pc) ft) - 1) records ft log.

Definition page_cache_swap_log_file (pc : page_cache) (log_file_path : string) : page_cache :=
  set_pc_log pc (log_open log_file_path).

(** [for (i < n) page_destroy(frames[i]);] *)
Fixpoint destroy_frames (fs : list page) : res unit :=
  match fs with
  | [] => Ok tt
  | p :: fs' => _ ← page_destroy p; destroy_frames fs'
  end.

Definition page_cache_change_n_frames (pc : page_cache) (n : Z) (seed : Z) : res page_cache :=
  pc ← flush_all_pages pc false;
  _ ← exit_if (existsb (fun p => negb (pin_count p =? 0)) (frames pc));
  _ ← deref (head (frames pc));
  _ ← destroy_frames (frames pc);
  _ ← linked_list_destroy (recently_referenced pc);
  if SIZE_MAX <? n * PAGE_SIZE then Exit
  else
    _ ← linked_list_destroy (free_frames pc);
    '(fs, free) ← new_frames (Z.to_nat n) 0 [] linked_list_create;
    Ok (PageCache (pdb pc) n (num_pins pc) (num_unpins pc) (bulk_import pc) (pc_log pc)
          free linked_list_create (new_maps seed) fs).

(** What is left of the cache is the database. *)
Definition page_cache_destroy (pc : page_cache) : res phy_database :=
  pc ← flush_all_pages pc false;
  _ ← linked_list_destroy (free_frames pc);
  _ ← linked_list_destroy (recently_referenced pc);
  _ ← deref (head (frames pc));
  _ ← destroy_frames (frames pc);
  Ok (pdb pc).
End PageCacheOps.
