(* ===== verification/PageCacheInv.v ===== *)
(** The invariant of the page cache and what its operations promise.

    [view] is what a client sees of a file: the page in its frame when it is cached,
    the page on disk otherwise.  [cache_ok] says that the tables, the free list and
    the frames agree with each other and with the database; the other lemmas show
    that flushing, evicting, pinning and unpinning keep it and do not change the
    view.  [quiescent] is a cache with no page pinned, [pinned] one with exactly one
    page pinned: the states between which the record layer moves.  Pages of the
    catalogue are not cached by any client and not covered. *)

From S2P Require Import Prelude Constants LinkedList HTable DiskFile PhysicalDatabase Page PageCache.
From Stdlib Require Import ZArith Lia.
From stdpp Require Import base list option gmap strings.

#[local] Open Scope Z_scope.

Section Inv.
Context `{Sysconf}.
Implicit Types (pc : page_cache) (f : page) (fk : file_kind) (ft : file_type) (free : list Z).

(** ** Definitions *)

Definition mapped pc fk ft (p : Z) : option Z :=
  match page_map pc !! (fk, ft) with Some d => contents d !! p | None => None end.

Definition view pc fk ft (p : Z) : list Z :=
  match mapped pc fk ft p with
  | Some i => match frames pc !! Z.to_nat i with Some f => p_data f | None => [] end
  | None => page_of (file_of (pdb pc) fk ft) p
  end.

Definition n_pages pc fk ft : Z := df_num_pages (file_of (pdb pc) fk ft).

(** A frame holds a page of a header or record file, or it is free. *)
Definition frame_ok pc free (i : Z) f : Prop :=
  page_ok f /\ 0 <= pin_count f /\
  match p_fk f, p_ft f with
  | Some fk, Some ft =>
      fk <> catalogue /\ (i ∉ free) /\ mapped pc fk ft (p_no f) = Some i /\
      0 <= p_no f < n_pages pc fk ft /\
      (dirty f = false -> p_data f = page_of (file_of (pdb pc) fk ft) (p_no f))
  | None, None => i ∈ free /\ pin_count f = 0 /\ dirty f = false
  | _, _ => False
  end.

Record cache_ok pc free : Prop := CacheOk {
  co_pdb : pdb_ok (pdb pc);
  co_n : Z.of_nat (length (frames pc)) = n_frames pc;
  co_free : rep (free_frames pc) free;
  co_nodup : NoDup free;
  co_range : forall i, i ∈ free -> 0 <= i < n_frames pc;
  co_dict : forall fk ft, fk <> catalogue -> exists d, page_map pc !! (fk, ft) = Some d /\ wf fnv_hash_ul d;
  co_frame : forall i f, 0 <= i -> frames pc !! Z.to_nat i = Some f -> frame_ok pc free i f;
  co_mapped : forall fk ft p i, fk <> catalogue -> mapped pc fk ft p = Some i ->
    0 <= i /\ exists f, frames pc !! Z.to_nat i = Some f /\
      p_fk f = Some fk /\ p_ft f = Some ft /\ p_no f = p }.

(** The frames in use. *)
Definition used pc free (i : Z) : Prop := 0 <= i < n_frames pc /\ i ∉ free.

(** What does not change when pages move between disk and cache. *)
Record same_store pc pc' : Prop := SameStore {
  ss_view : forall fk ft p, fk <> catalogue -> 0 <= p < n_pages pc fk ft ->
    view pc' fk ft p = view pc fk ft p;
  ss_pages : forall fk ft, n_pages pc' fk ft = n_pages pc fk ft;
  ss_n : n_frames pc' = n_frames pc;
  ss_bulk : bulk_import pc' = bulk_import pc }.

(** No page is pinned; the queue is circular and holds the frames in use. *)
Record quiescent pc : Prop := Quiescent {
  qu_ok : exists free, cache_ok pc free /\
    exists q, ring (recently_referenced pc) q /\ NoDup q /\ forall i, i ∈ q <-> used pc free i;
  qu_pins : forall f, f ∈ frames pc -> pin_count f = 0;
  qu_bulk : bulk_import pc = false;
  qu_frames : 1 <= n_frames pc }.

(** Frame [i] is pinned once and no other is; the queue holds the other frames in use
    and perhaps [i]; it is circular when [i] is in it. *)
Record pinned pc (i : Z) f : Prop := Pinned {
  pi_ok : exists free, cache_ok pc free /\ used pc free i /\
    exists q, NoDup q /\
      (ring (recently_referenced pc) q /\ (forall j, j ∈ q <-> used pc free j) \/
       rep (recently_referenced pc) q /\ (i ∉ q) /\ (forall j, (j ∈ q \/ j = i) <-> used pc free j));
  pi_frame : frames pc !! Z.to_nat i = Some f;
  pi_pin : pin_count f = 1;
  pi_others : forall j f', Z.of_nat j <> i -> frames pc !! j = Some f' -> pin_count f' = 0;
  pi_bulk : bulk_import pc = false;
  pi_frames : 1 <= n_frames pc }.

Lemma same_store_refl pc : same_store pc pc.
Proof. by split. Qed.
Lemma same_store_trans pc1 pc2 pc3 : same_store pc1 pc2 -> same_store pc2 pc3 -> same_store pc1 pc3.
Proof.
  intros [V1 P1 N1 B1] [V2 P2 N2 B2]. split; [|congruence..].
  intros fk ft p Hk Hp. rewrite V2, V1; [done|done|done|done|by rewrite P1].
Qed.

(** ** Replacing a file of the database *)

Lemma file_of_set db fk ft fk' ft' p :
  file_of (set_file db fk ft p) fk' ft' =
    if decide (fk' = fk /\ (fk = catalogue \/ ft' = ft)) then p.1 else file_of db fk' ft'.
Proof. destruct fk, fk', ft, ft'; repeat case_decide; naive_solver. Qed.

Lemma file_paged db fk ft : pdb_ok db -> paged (file_of db fk ft).
Proof. intros [[C _] I]. destruct (I ft). by destruct fk. Qed.

Lemma pdb_ok_set_file db fk ft df lf :
  pdb_ok db -> fk <> catalogue -> paged df ->
  df_num_pages df = df_num_pages (file_of db fk ft) ->
  df_file_size df = df_file_size (file_of db fk ft) ->
  pdb_ok (set_file db fk ft (df, lf)).
Proof.
  intros [C I] Hk Hd Hn Hs. destruct fk; [done|..].
  - split; [done|]. intros ft'. destruct (I ft') as [A B D E F G].
    destruct (decide (ft' = ft)) as [->|Hne];
      split; unfold catalogue_slots in *; cbn [pdb_header pdb_records pdb_catalogue
        remaining_header_bits set_file set_header fst]; rewrite ?upd_same, ?upd_other by done; try done;
      simpl in *; congruence.
  - split; [done|]. intros ft'. destruct (I ft') as [A B D E F G].
    destruct (decide (ft' = ft)) as [->|Hne];
      split; unfold catalogue_slots in *; cbn [pdb_header pdb_records pdb_catalogue
        remaining_header_bits set_file set_records fst]; rewrite ?upd_same, ?upd_other by done; try done;
      simpl in *; congruence.
Qed.

Lemma pdb_ok_log db lf :
  pdb_ok db -> pdb_ok (PhyDatabase (pdb_catalogue db) (pdb_header db) (pdb_records db)
                         (remaining_header_bits db) lf).
Proof. intros [C I]. split; [done|]. intros ft. destruct (I ft). by split. Qed.

(** ** Logging *)

Lemma log_frames (log : bool) l pc : frames (pc_log_when log l pc) = frames pc.
Proof. done. Qed.
Lemma cache_ok_log (log : bool) l pc free : cache_ok pc free -> cache_ok (pc_log_when log l pc) free.
Proof. intros [A B C D E F G I]. by split. Qed.
Lemma same_store_log (log : bool) l pc pc' : same_store pc pc' -> same_store pc (pc_log_when log l pc').
Proof. intros [A B C D]. by split. Qed.

(** ** Replacing the page of a frame *)

Lemma mapped_set_frame pc i f fk ft p : mapped (set_frame pc i f) fk ft p = mapped pc fk ft p.
Proof. done. Qed.

Lemma frame_lookup pc i j f :
  0 <= i -> 0 <= j -> is_Some (frames pc !! Z.to_nat i) ->
  frames (set_frame pc i f) !! Z.to_nat j = if decide (j = i) then Some f else frames pc !! Z.to_nat j.
Proof.
  intros Hi Hj Hs. simpl. case_decide as E.
  - subst. apply list_lookup_insert_eq. by apply lookup_lt_is_Some.
  - apply list_lookup_insert_ne. lia.
Qed.

(** Updating a frame with the same identity. *)
Lemma cache_ok_set_frame pc free i f f' :
  cache_ok pc free -> 0 <= i -> frames pc !! Z.to_nat i = Some f ->
  p_fk f' = p_fk f -> p_ft f' = p_ft f -> p_no f' = p_no f -> frame_ok pc free i f' ->
  cache_ok (set_frame pc i f') free.
Proof.
  intros C Hi Hf E1 E2 E3 Ok'. destruct C as [A B D E F G I J].
  split; try done.
  - simpl. by rewrite length_insert.
  - intros j g Hj. rewrite frame_lookup by eauto. case_decide as Eq.
    + subst. intros [= <-]. exact Ok'.
    + intros Hg. exact (I j g Hj Hg).
  - intros fk ft p j Hk Hm. destruct (J fk ft p j Hk Hm) as (Hj & g & Hg & K1 & K2 & K3).
    split; [done|]. rewrite frame_lookup by eauto. case_decide as Eq; [|by exists g].
    subst j. assert (g = f) as -> by congruence. exists f'. split_and!; congruence.
Qed.

Lemma view_set_frame pc free i f f' fk ft p :
  cache_ok pc free -> 0 <= i -> frames pc !! Z.to_nat i = Some f -> fk <> catalogue ->
  view (set_frame pc i f') fk ft p =
    if decide (mapped pc fk ft p = Some i) then p_data f' else view pc fk ft p.
Proof.
  intros C Hi Hf Hk. unfold view. rewrite mapped_set_frame. case_decide as E.
  - rewrite E, frame_lookup by eauto. by rewrite decide_True.
  - destruct (mapped pc fk ft p) as [j|] eqn:Em; [|done].
    destruct (co_mapped _ _ C _ _ _ _ Hk Em) as (Hj & _).
    rewrite frame_lookup by eauto. rewrite decide_False by congruence. done.
Qed.

Lemma cache_frame pc free i : cache_ok pc free -> 0 <= i < n_frames pc ->
  exists f, frames pc !! Z.to_nat i = Some f.
Proof.
  intros C Hi. apply lookup_lt_is_Some_2. pose proof (co_n _ _ C). lia.
Qed.

(** A frame in use holds the page it is mapped to. *)
Lemma used_frame pc free i f :
  cache_ok pc free -> used pc free i -> frames pc !! Z.to_nat i = Some f ->
  exists fk ft, p_fk f = Some fk /\ p_ft f = Some ft /\ fk <> catalogue /\
    mapped pc fk ft (p_no f) = Some i /\ 0 <= p_no f < n_pages pc fk ft.
Proof.
  intros C [Hr Hn] Hf. destruct (co_frame _ _ C i f ltac:(lia) Hf) as (_ & _ & K).
  destruct (p_fk f) as [fk|], (p_ft f) as [ft|]; try done.
  - destruct K as (Hk & _ & Hm & [Hp Hq] & _). exists fk, ft. by split_and!.
  - destruct K as (Hin & _). done.
Qed.

(** ** [flush_page] *)

(** A file that was written back differs in one page. *)
Record written (df df' : disk_file) (p : Z) (data : list Z) : Prop := Written {
  wr_paged : paged df';
  wr_pages : df_num_pages df' = df_num_pages df;
  wr_size : df_file_size df' = df_file_size df;
  wr_page : forall q, 0 <= q < df_num_pages df ->
    page_of df' q = if decide (q = p) then data else page_of df q }.

Lemma n_pages_set pc fk ft df lf fk' ft' :
  fk <> catalogue -> df_num_pages df = n_pages pc fk ft ->
  n_pages (set_pdb pc (set_file (pdb pc) fk ft (df, lf))) fk' ft' = n_pages pc fk' ft'.
Proof.
  intros Hk Hn. unfold n_pages. cbn [pdb set_pdb]. rewrite file_of_set.
  case_decide as Q; [|done]. by destruct Q as [-> [?| ->]].
Qed.

(** The page on disk after a page was written. *)
Lemma page_of_set pc fk ft df lf p data fk' ft' q :
  fk <> catalogue -> written (file_of (pdb pc) fk ft) df p data -> 0 <= q < n_pages pc fk' ft' ->
  page_of (file_of (set_file (pdb pc) fk ft (df, lf)) fk' ft') q =
    if decide (fk' = fk /\ ft' = ft /\ q = p) then data
    else page_of (file_of (pdb pc) fk' ft') q.
Proof.
  intros Hk W Hq. rewrite file_of_set. case_decide as Q.
  - destruct Q as [-> [?| ->]]; [done|]. simpl. rewrite (wr_page _ _ _ _ W) by done.
    repeat case_decide; naive_solver.
  - rewrite decide_False; [done|]. naive_solver.
Qed.

Lemma write_back_ok pc free i f fk ft df lf :
  cache_ok pc free -> 0 <= i -> frames pc !! Z.to_nat i = Some f ->
  p_fk f = Some fk -> p_ft f = Some ft ->
  written (file_of (pdb pc) fk ft) df (p_no f) (p_data f) ->
  let pc' := set_frame (set_pdb pc (set_file (pdb pc) fk ft (df, lf))) i (with_dirty f false) in
  cache_ok pc' free /\ same_store pc pc'.
Proof.
  intros C Hi Hf Ek Et W pc'. pose proof (co_frame _ _ C i f Hi Hf) as (Pok & Hpin & K).
  rewrite Ek, Et in K. destruct K as (Hk & Hfree & Hm & Hr & _).
  assert (Np : forall fk' ft', n_pages pc' fk' ft' = n_pages pc fk' ft')
    by (intros; apply n_pages_set; [done|apply W]).
  assert (Own : forall j fk' ft' q, mapped pc fk' ft' q = Some j -> j <> i ->
    ~ (fk' = fk /\ ft' = ft /\ q = p_no f)) by (intros j fk' ft' q Hj Hne (-> & -> & ->); congruence).
  split.
  - destruct C as [A B D E F G I J]. split; try done.
    + apply pdb_ok_set_file; [done|done|apply W..].
    + simpl. by rewrite length_insert.
    + intros j g Hj. unfold pc' at 1. rewrite frame_lookup by (simpl; eauto). case_decide as Eq.
      * subst j. intros [= <-]. split; [done|]. split; [done|]. simpl. rewrite Ek, Et.
        split_and!; try done; [apply Hr|rewrite Np; apply Hr|]. intros _.
        rewrite (page_of_set pc fk ft df lf (p_no f) (p_data f)) by done. by rewrite decide_True.
      * intros Hg. destruct (I j g Hj Hg) as (P1 & P2 & K). split; [done|]. split; [done|].
        destruct (p_fk g) as [gk|], (p_ft g) as [gt|]; try done.
        destruct K as (K1 & K2 & K3 & K4 & K5).
        split_and!; try done; [apply K4|rewrite Np; apply K4|]. intros Hd. rewrite (K5 Hd).
        unfold pc'. simpl. rewrite (page_of_set pc fk ft df lf (p_no f) (p_data f)) by done.
        by rewrite decide_False by (by eapply Own).
    + intros fk' ft' q j Hk' Hj. destruct (J _ _ _ _ Hk' Hj) as (Hj0 & g & Hg & K1 & K2 & K3).
      split; [done|]. unfold pc'. rewrite frame_lookup by (simpl; eauto).
      case_decide as Eq; [|by exists g].
      subst j. assert (g = f) as -> by congruence. by exists (with_dirty f false).
  - split; [|done|done|done]. intros fk' ft' q Hk' Hq. unfold view.
    change (mapped pc' fk' ft' q) with (mapped pc fk' ft' q).
    destruct (mapped pc fk' ft' q) as [j|] eqn:Ej.
    + destruct (co_mapped _ _ C _ _ _ _ Hk' Ej) as (Hj0 & g & Hg & _).
      unfold pc'. rewrite frame_lookup by (simpl; eauto). case_decide as Eq; [|done].
      subst j. by rewrite Hf.
    + unfold pc'. simpl. rewrite (page_of_set pc fk ft df lf (p_no f) (p_data f)) by done.
      rewrite decide_False; [done|]. intros (-> & -> & ->). congruence.
Qed.

Lemma flush_page_ok pc free i f log :
  cache_ok pc free -> 0 <= i -> frames pc !! Z.to_nat i = Some f -> pin_count f = 0 ->
  exists pc', flush_page pc i log = Ok pc' /\ cache_ok pc' free /\ same_store pc pc' /\
    frames pc' = <[Z.to_nat i := with_dirty f false]> (frames pc) /\
    page_map pc' = page_map pc /\ free_frames pc' = free_frames pc /\
    recently_referenced pc' = recently_referenced pc.
Proof.
  intros C Hi Hf Hp. destruct (co_frame _ _ C i f Hi Hf) as (Pok & _ & K).
  unfold flush_page, get_frame. rewrite Hf. simpl. rewrite Hp. simpl.
  destruct (dirty f) eqn:Hd.
  - destruct (p_fk f) as [fk|] eqn:Ek, (p_ft f) as [ft|] eqn:Et; try done.
    2:{ by destruct K as (_ & _ & ?). }
    destruct K as (Hk & Hfree & Hm & Hr & _). unfold n_pages in Hr.
    pose proof (file_paged (pdb pc) fk ft (co_pdb _ _ C)) as [D Sz].
    destruct (write_page_ok (file_of (pdb pc) fk ft) (p_no f) (p_data f) log (pdb_log (pdb pc)) D Hr)
      as (df & E & D' & _ & N' & S' & V); [apply Pok|apply Pok|].
    rewrite E. simpl. rewrite list_lookup_insert_eq by (by eapply lookup_lt_Some). simpl.
    eexists. split; [reflexivity|].
    assert (W : written (file_of (pdb pc) fk ft) df (p_no f) (p_data f))
      by (split; [split; congruence|done..]).
    destruct (write_back_ok pc free i f fk ft df (log_when log
      [LStr "write_pages"; LStr (df_name (file_of (pdb pc) fk ft)); LNum (p_no f); LNum (p_no f)]
      (pdb_log (pdb pc))) C Hi Hf Ek Et W) as [C' S].
    split_and!; [by apply cache_ok_log|by apply same_store_log|done..].
  - simpl. rewrite ?Hf. simpl. eexists. split; [reflexivity|].
    split_and!; [by apply cache_ok_log|apply same_store_log, same_store_refl| |done..].
    assert (E : with_dirty f false = f) by (unfold with_dirty; rewrite <- Hd; by destruct f).
    rewrite E. symmetry. by apply list_insert_id.
Qed.

(** ** [evict_frame] *)

Lemma mapped_set_dict pc fk ft d fk' ft' q :
  mapped (set_dict pc fk ft d) fk' ft' q =
    if decide (fk' = fk /\ ft' = ft) then contents d !! q else mapped pc fk' ft' q.
Proof.
  unfold mapped. cbn [page_map set_dict]. case_decide as Q.
  - destruct Q as [-> ->]. by rewrite lookup_insert_eq.
  - rewrite lookup_insert_ne; [done|]. intros [= -> ->]. tauto.
Qed.

Definition free_page : page := Page None None ULONG_MAX 0 false (replicate page_bytes 0).

Lemma free_page_ok : page_ok free_page.
Proof.
  split; [apply length_replicate|]. apply Forall_replicate. unfold is_byte. lia.
Qed.

(** Taking the clean page of a frame out of the tables. *)
Lemma unmap_ok pc free i f fk ft d' l :
  cache_ok pc free -> used pc free i -> frames pc !! Z.to_nat i = Some f ->
  p_fk f = Some fk -> p_ft f = Some ft -> dirty f = false -> wf fnv_hash_ul d' ->
  (forall q, contents d' !! q = if decide (q = p_no f) then None else mapped pc fk ft q) ->
  rep l (free ++ [i]) ->
  let pc' := set_frame (set_free (set_dict pc fk ft d') l) i free_page in
  cache_ok pc' (free ++ [i]) /\ same_store pc pc'.
Proof.
  intros C [Hi Hfree] Hf Ek Et Hd Wd Cd Hl pc'.
  pose proof (co_frame _ _ C i f ltac:(lia) Hf) as (_ & _ & K).
  rewrite Ek, Et in K. destruct K as (Hk & _ & Hm & Hr & Hc). specialize (Hc Hd).
  assert (Mp : forall fk' ft' q, mapped pc' fk' ft' q =
    if decide (fk' = fk /\ ft' = ft /\ q = p_no f) then None else mapped pc fk' ft' q).
  { intros fk' ft' q. unfold pc'. rewrite mapped_set_frame.
    change (mapped (set_dict pc fk ft d') fk' ft' q = if decide (fk' = fk /\ ft' = ft /\ q = p_no f)
      then None else mapped pc fk' ft' q).
    rewrite mapped_set_dict. case_decide as Q; [destruct Q as [-> ->]; rewrite Cd|];
      repeat case_decide; naive_solver. }
  assert (Fr : forall j, 0 <= j -> frames pc' !! Z.to_nat j =
    if decide (j = i) then Some free_page else frames pc !! Z.to_nat j)
    by (intros j Hj; unfold pc'; by rewrite frame_lookup by (simpl; eauto || lia)).
  split.
  - pose proof C as [A B D E F G I J]. split; try done.
    + simpl. by rewrite length_insert.
    + apply NoDup_app. split_and!; [done| |apply NoDup_singleton].
      intros x Hx Hx'. apply list_elem_of_singleton in Hx' as ->. done.
    + intros j Hj. apply elem_of_app in Hj as [Hj|Hj%list_elem_of_singleton]; [by apply F|by subst].
    + intros fk' ft' Hk'. cbn [page_map set_frame set_free set_dict pc'].
      destruct (decide ((fk', ft') = (fk, ft))) as [[= -> ->]|Hne].
      * exists d'. by rewrite lookup_insert_eq.
      * rewrite lookup_insert_ne by congruence. by apply G.
    + intros j g Hj. rewrite Fr by done. case_decide as Eq.
      * subst j. intros [= <-]. split; [apply free_page_ok|]. split; [done|]. simpl.
        split; [|done]. apply elem_of_app. right. by apply list_elem_of_singleton.
      * intros Hg. destruct (I j g Hj Hg) as (P1 & P2 & K). split; [done|]. split; [done|].
        destruct (p_fk g) as [gk|], (p_ft g) as [gt|]; try done.
        -- destruct K as (K1 & K2 & K3 & K4 & K5). rewrite Mp.
           split_and!; [done| | |apply K4|apply K4|done].
           ++ intros [?|?%list_elem_of_singleton]%elem_of_app; done.
           ++ rewrite decide_False; [done|]. intros (-> & -> & E'). rewrite E' in K3. congruence.
        -- destruct K as (K1 & K2). split; [|done]. apply elem_of_app. by left.
    + intros fk' ft' q j Hk'. rewrite Mp. case_decide as Q; [done|]. intros Hj.
      destruct (J _ _ _ _ Hk' Hj) as (Hj0 & g & Hg & K1 & K2 & K3).
      split; [done|]. rewrite Fr by done. case_decide as Eq; [|by exists g].
      subst j. assert (g = f) as -> by congruence. destruct Q. split_and!; congruence.
  - split; [|done|done|done]. intros fk' ft' q Hk' Hq. unfold view. rewrite Mp.
    case_decide as Q.
    + destruct Q as (-> & -> & ->). rewrite Hm, Hf. done.
    + destruct (mapped pc fk' ft' q) as [j|] eqn:Ej; [|done].
      destruct (co_mapped _ _ C _ _ _ _ Hk' Ej) as (Hj0 & g & Hg & K1 & K2 & K3).
      rewrite Fr by done. case_decide as Eq; [|done]. subst j.
      assert (g = f) as -> by congruence. destruct Q. split_and!; congruence.
Qed.

Lemma evict_frame_ok pc free i f log elog :
  cache_ok pc free -> used pc free i -> frames pc !! Z.to_nat i = Some f -> pin_count f = 0 ->
  exists pc', evict_frame pc i log elog = Ok pc' /\ cache_ok pc' (free ++ [i]) /\
    same_store pc pc' /\ recently_referenced pc' = recently_referenced pc /\
    frames pc' = <[Z.to_nat i := free_page]> (frames pc).
Proof.
  intros C U Hf Hp. pose proof U as [Hi Hfree].
  destruct (flush_page_ok pc free i f log C ltac:(lia) Hf Hp)
    as (pc1 & E1 & C1 & S1 & F1 & M1 & L1 & R1).
  unfold evict_frame. rewrite E1. cbn [mbind res_bind].
  assert (Hf1 : frames pc1 !! Z.to_nat i = Some (with_dirty f false))
    by (rewrite F1; apply list_lookup_insert_eq; by eapply lookup_lt_Some).
  unfold get_frame. rewrite Hf1. cbn [mbind res_bind deref].
  destruct (used_frame _ _ _ _ C U Hf) as (fk & ft & Ek & Et & Hk & Hm & Hr).
  cbn [p_fk p_ft p_no pin_count dirty with_dirty]. rewrite Ek, Et, Hp.
  set (pc2 := pc_log_when _ _ _).
  assert (C2 : cache_ok pc2 free) by (by apply cache_ok_log).
  assert (Um : forall fk ft q, mapped pc2 fk ft q = mapped pc fk ft q)
    by (intros; unfold mapped; simpl; by rewrite M1).
  destruct (co_dict _ _ C2 fk ft Hk) as (d & Ed & Wd).
  unfold dict_of. rewrite Ed. cbn [or_exit mbind res_bind].
  pose proof (ht_remove_ok fnv_hash_ul d (p_no f) Wd) as Rm.
  assert (Hd : contents d !! p_no f = Some i).
  { rewrite <- Hm, <- Um. unfold mapped. by rewrite Ed. }
  rewrite Hd in Rm. destruct Rm as (d' & Er & Wd' & Cd' & _). unfold dict_remove. rewrite Er.
  cbn [mbind res_bind].
  destruct (append_ring (free_frames (set_dict pc2 fk ft d')) free i (co_free _ _ C2)) as (l & El & Rl).
  rewrite El. cbn [mbind res_bind].
  assert (U2 : used pc2 free i) by (split; [change (n_frames pc2) with (n_frames pc1); by rewrite (ss_n _ _ S1)|done]).
  destruct (unmap_ok pc2 free i (with_dirty f false) fk ft d' l C2 U2 Hf1 Ek Et eq_refl Wd')
    as [C' S']; [|by apply ring_rep|].
  { intros q. simpl. rewrite Cd', lookup_delete. unfold mapped. rewrite Ed.
    repeat case_decide; congruence. }
  eexists. split; [reflexivity|]. split_and!; [exact C'| |done|].
  - eapply same_store_trans; [|exact S']. by apply same_store_log.
  - cbn [frames set_frame set_free set_dict pc2 pc_log_when set_pc_log]. rewrite F1.
    by rewrite list_insert_insert_eq.
Qed.

(** ** [evict] *)

Lemma evict_remove_ok (ll : llist Z) q1 q2 :
  rep ll (q1 ++ q2) ->
  exists ll', evict_remove ll (reverse (seq 0 (length q1))) = Ok ll' /\ rep ll' q2.
Proof.
  revert ll. induction q1 as [|x q1 IH] using rev_ind; intros ll R; [by exists ll|].
  rewrite length_app, Nat.add_1_r, seq_S, reverse_snoc. simpl.
  destruct (remove_total ll ((q1 ++ [x]) ++ q2) (length q1) R) as (ll1 & E & R1).
  { rewrite !length_app. simpl. lia. }
  unfold linked_list_remove. rewrite E. simpl. apply IH.
  unfold spec_remove in R1. rewrite <- (assoc_L app) in R1. rewrite take_app_length in R1.
  rewrite drop_app_ge in R1 by lia. by replace (S (length q1) - length q1)%nat with 1%nat in R1 by lia.
Qed.

(** The frames of [xs] are in use and not pinned. *)
Definition evictable pc free (xs : list Z) : Prop :=
  forall x, x ∈ xs -> used pc free x /\ exists f, frames pc !! Z.to_nat x = Some f /\ pin_count f = 0.

Lemma evict_loop_ok pc free q log n i :
  cache_ok pc free -> rep (recently_referenced pc) q -> NoDup q ->
  (i + n = length q)%nat -> Z.of_nat i < EVICT_LRU_K -> evictable pc free (drop i q) ->
  exists k pc', evict_loop pc n i (reverse (seq 0 i)) log = Ok (pc', reverse (seq 0 (i + k))) /\
    (i + k)%nat = Nat.min (length q) 11 /\
    cache_ok pc' (free ++ take k (drop i q)) /\ same_store pc pc' /\
    recently_referenced pc' = recently_referenced pc /\
    (forall j, 0 <= j -> (j ∉ take k (drop i q)) -> frames pc' !! Z.to_nat j = frames pc !! Z.to_nat j).
Proof.
  revert pc free i. induction n as [|n IH]; intros pc free i C R N Hn Hk Ev.
  - exists 0%nat, pc. rewrite Nat.add_0_r, take_0, app_nil_r.
    rewrite EVICT_LRU_K_eq in Hk. split_and!; try done; lia.
  - destruct (lookup_lt_is_Some_2 q i) as [x Hx]; [lia|].
    pose proof (drop_S _ _ _ Hx) as Hdr.
    destruct (Ev x) as (U & f & Hf & Hp); [rewrite Hdr; left|].
    cbn [evict_loop]. rewrite (get_ok _ _ _ R), Hx. cbn [or_exit mbind res_bind].
    unfold get_frame. rewrite Hf. cbn [deref mbind res_bind]. rewrite Hp. cbn [Z.eqb].
    destruct (evict_frame_ok pc free x f log log C U Hf Hp) as (pc1 & -> & C1 & S1 & R1 & F1).
    cbn [mbind res_bind]. rewrite length_cons, length_reverse, length_seq.
    assert (Fx : forall j, 0 <= j -> j <> x -> frames pc1 !! Z.to_nat j = frames pc !! Z.to_nat j).
    { intros j Hj Hne. rewrite F1. apply list_lookup_insert_ne. destruct U as [? _]. lia. }
    assert (Hrev : i :: reverse (seq 0 i) = reverse (seq 0 (S i)))
      by (by rewrite seq_S, reverse_snoc).
    rewrite Hrev. destruct (EVICT_LRU_K <=? Z.of_nat (S i)) eqn:E; bool_prop.
    + exists 1%nat, pc1. rewrite Nat.add_1_r, Hdr. cbn [take]. rewrite take_0.
      rewrite EVICT_LRU_K_eq in *. split_and!; try done; [lia|]. intros j Hj Hne. apply Fx; [done|].
      intros ->. apply Hne. left.
    + assert (Nx : x ∉ drop (S i) q).
      { intros Hin. rewrite <- (take_drop i q), Hdr in N.
        apply NoDup_app in N as (_ & _ & N). by apply NoDup_cons in N as [N _]. }
      destruct (IH pc1 (free ++ [x]) (S i)) as (k & pc2 & E2 & Hle & C2 & S2 & R2 & F2).
      { done. } { by rewrite R1. } { done. } { lia. } { lia. }
      { intros y Hy. destruct (Ev y) as ([Uy Ny] & g & Hg & Hpg); [rewrite Hdr; by right|].
        assert (y <> x) by (intros ->; done). split.
        - split; [by rewrite (ss_n _ _ S1)|].
          intros [?|?%list_elem_of_singleton]%elem_of_app; done.
        - exists g. split; [|done]. rewrite Fx; [done|lia|done]. }
      exists (S k), pc2. rewrite E2, Hdr. cbn [take].
      replace (i + S k)%nat with (S i + k)%nat by lia.
      rewrite <- (assoc_L app) in C2. simpl in C2.
      split_and!; [done|lia|done|by eapply same_store_trans|congruence|].
      intros j Hj Hne. rewrite F2 by (set_solver || done). apply Fx; [done|]. set_solver.
Qed.

Lemma evict_ok pc free q log :
  cache_ok pc free -> rep (recently_referenced pc) q -> NoDup q -> q <> [] ->
  evictable pc free q ->
  exists k pc', evict pc log = Ok pc' /\ k = Nat.min (length q) 11 /\
    cache_ok pc' (free ++ take k q) /\ same_store pc pc' /\
    rep (recently_referenced pc') (drop k q) /\
    (forall j, 0 <= j -> (j ∉ take k q) -> frames pc' !! Z.to_nat j = frames pc !! Z.to_nat j).
Proof.
  intros C R N Hq Ev. unfold evict, linked_list_size. rewrite (rep_ll_len _ _ R).
  assert (0 < length q)%nat by (destruct q; [done|simpl; lia]).
  destruct (evict_loop_ok pc free q log (length q) 0 C R N) as (k & pc1 & E & Hk & C1 & S1 & R1 & F1);
    [lia|rewrite EVICT_LRU_K_eq; lia|by rewrite drop_0|].
  rewrite drop_0 in *. cbn [seq] in E. change (reverse []) with (@nil nat) in E. rewrite E.
  cbn [mbind res_bind]. simpl (0 + k)%nat in *.
  assert (Lk : length (take k q) = k) by (rewrite length_take; lia).
  destruct (evict_remove_ok (recently_referenced pc1) (take k q) (drop k q)) as (q' & Eq & Rq).
  { by rewrite take_drop, R1. }
  rewrite Lk in Eq. rewrite Eq. cbn [mbind res_bind]. rewrite length_reverse, length_seq.
  rewrite (proj2 (Nat.eqb_neq k 0)) by lia.
  exists k, (set_recent pc1 q'). split_and!; try done.
  - destruct C1. by split.
  - destruct S1. by split.
Qed.

(** ** Loading a page into a free frame *)

(** Reading changes a file's counters only. *)
Lemma file_same db fk ft df lf fk' ft' :
  df_same (file_of db fk ft) df ->
  df_same (file_of db fk' ft') (file_of (set_file db fk ft (df, lf)) fk' ft').
Proof.
  intros Sd. rewrite file_of_set. case_decide as Q; [|apply df_same_refl].
  destruct Q as [-> [->| ->]]; [|done]. by destruct ft, ft'.
Qed.

Definition loaded_page fk ft (p : Z) (data : list Z) : page := Page (Some fk) (Some ft) p 1 false data.

Lemma load_ok pc free i fk ft p df lf l d' :
  cache_ok pc (i :: free) -> fk <> catalogue -> mapped pc fk ft p = None ->
  0 <= p < n_pages pc fk ft -> df_same (file_of (pdb pc) fk ft) df -> rep l free ->
  wf fnv_hash_ul d' ->
  (forall q, contents d' !! q = if decide (q = p) then Some i else mapped pc fk ft q) ->
  let f := loaded_page fk ft p (page_of (file_of (pdb pc) fk ft) p) in
  let pc' := set_dict (set_frame (set_pdb (set_free pc l) (set_file (pdb pc) fk ft (df, lf))) i f) fk ft d' in
  cache_ok pc' free /\ same_store pc pc' /\ used pc' free i /\ frames pc' !! Z.to_nat i = Some f /\
  mapped pc' fk ft p = Some i.
Proof.
  intros C Hk Hm Hp Sd Hl Wd Cd f pc'.
  pose proof (co_range _ _ C i ltac:(left)) as Hi.
  destruct (cache_frame _ _ i C Hi) as [f0 Hf0].
  pose proof (co_nodup _ _ C) as N. apply NoDup_cons in N as [Ni N].
  pose proof (file_paged (pdb pc) fk ft (co_pdb _ _ C)) as Pg.
  assert (Np : forall fk' ft', n_pages pc' fk' ft' = n_pages pc fk' ft')
    by (intros; unfold n_pages; simpl; apply same_pages, file_same, Sd).
  assert (Pd : forall fk' ft' q, page_of (file_of (pdb pc') fk' ft') q = page_of (file_of (pdb pc) fk' ft') q)
    by (intros; apply df_same_page, file_same, Sd).
  assert (Mp : forall fk' ft' q, mapped pc' fk' ft' q =
    if decide (fk' = fk /\ ft' = ft /\ q = p) then Some i else mapped pc fk' ft' q).
  { intros fk' ft' q. unfold pc'. rewrite mapped_set_dict.
    change (mapped (set_frame _ i f) fk' ft' q) with (mapped pc fk' ft' q).
    case_decide as Q; [destruct Q as [-> ->]; rewrite Cd|]; repeat case_decide; naive_solver. }
  assert (Fr : forall j, 0 <= j -> frames pc' !! Z.to_nat j =
    if decide (j = i) then Some f else frames pc !! Z.to_nat j).
  { intros j Hj. change (frames pc') with (frames (set_frame (set_pdb (set_free pc l)
      (set_file (pdb pc) fk ft (df, lf))) i f)). by rewrite frame_lookup by (simpl; eauto || lia). }
  assert (Notused : forall fk' ft' q, fk' <> catalogue -> mapped pc fk' ft' q <> Some i).
  { intros fk' ft' q Hk' Hj. destruct (co_mapped _ _ C _ _ _ _ Hk' Hj) as (_ & g & Hg & K1 & K2 & _).
    destruct (co_frame _ _ C i g ltac:(lia) Hg) as (_ & _ & K). rewrite K1, K2 in K.
    destruct K as (_ & K & _). apply K. left. }
  split_and!; [|split; [|exact Np|done|done]|split; [done|done]|by rewrite Fr, decide_True by lia
    |by rewrite Mp, decide_True].
  - pose proof C as [A B D E F G I J]. split; try done.
    + apply pdb_ok_set_file; [done|done|by eapply df_same_paged|apply Sd..].
    + simpl. by rewrite length_insert.
    + intros j Hj. apply F. by right.
    + intros fk' ft' Hk'. cbn [page_map set_dict pc'].
      destruct (decide ((fk', ft') = (fk, ft))) as [[= -> ->]|Hne].
      * exists d'. by rewrite lookup_insert_eq.
      * rewrite lookup_insert_ne by congruence. by apply G.
    + intros j g Hj. rewrite Fr by done. case_decide as Eq.
      * subst j. intros [= <-]. split; [|split; [done|]].
        -- split; [apply length_page_of; [apply Pg|done]|]. apply Forall_slice, Pg.
        -- cbn [f loaded_page p_fk p_ft p_no p_data dirty].
           split_and!; [done|done|by rewrite Mp, decide_True|apply Hp|rewrite Np; apply Hp|].
           intros _. by rewrite Pd.
      * intros Hg. destruct (I j g Hj Hg) as (P1 & P2 & K). split; [done|]. split; [done|].
        destruct (p_fk g) as [gk|], (p_ft g) as [gt|]; try done.
        -- destruct K as (K1 & K2 & K3 & K4 & K5). rewrite Mp, Pd.
           split_and!; [done|by intros ?; apply K2; right| |apply K4|rewrite Np; apply K4|done].
           rewrite decide_False; [done|]. intros (-> & -> & E'). rewrite E' in K3. congruence.
        -- destruct K as (K1 & K2). split; [|done]. apply elem_of_cons in K1 as [->|K1]; done.
    + intros fk' ft' q j Hk'. rewrite Mp. case_decide as Q.
      * destruct Q as (-> & -> & ->). intros [= <-]. split; [lia|]. exists f.
        by rewrite Fr, decide_True by lia.
      * intros Hj. destruct (J _ _ _ _ Hk' Hj) as (Hj0 & g & Hg & K1 & K2 & K3).
        split; [done|]. exists g. rewrite Fr by done.
        rewrite decide_False; [done|]. intros ->. by eapply Notused.
  - intros fk' ft' q Hk' Hq. unfold view. rewrite Mp. case_decide as Q.
    + destruct Q as (-> & -> & ->). rewrite Hm, Fr by lia. by rewrite decide_True.
    + destruct (mapped pc fk' ft' q) as [j|] eqn:Ej; [|apply Pd].
      destruct (co_mapped _ _ C _ _ _ _ Hk' Ej) as (Hj0 & _). rewrite Fr by done.
      rewrite decide_False; [done|]. intros ->. by eapply Notused.
Qed.

(** ** [pin_page] *)

(** A cache without pinned pages in which a frame is free. *)
Record ready pc (i : Z) free q : Prop := Ready {
  re_ok : cache_ok pc (i :: free);
  re_queue : rep (recently_referenced pc) q /\ NoDup q /\ forall j, j ∈ q <-> used pc (i :: free) j;
  re_pins : forall j f, 0 <= j -> frames pc !! Z.to_nat j = Some f -> pin_count f = 0;
  re_bulk : bulk_import pc = false }.

Lemma pins_lookup pc :
  (forall f, f ∈ frames pc -> pin_count f = 0) <->
  forall j f, 0 <= j -> frames pc !! Z.to_nat j = Some f -> pin_count f = 0.
Proof.
  split.
  - intros P j f _ Hf. apply P. by eapply list_elem_of_lookup_2.
  - intros P f Hf. apply list_elem_of_lookup_1 in Hf as [j Hj].
    apply (P (Z.of_nat j)); [lia|by rewrite Nat2Z.id].
Qed.

Lemma make_room pc log :
  quiescent pc ->
  exists i free q pc', ensure_free_frame pc log = Ok pc' /\
    ready pc' i free q /\ same_store pc pc' /\
    (forall fk ft p, fk <> catalogue -> mapped pc fk ft p = None -> mapped pc' fk ft p = None).
Proof.
  intros [(free & C & q & R & N & Q) P B F]. unfold ensure_free_frame, linked_list_size.
  rewrite (rep_ll_len _ _ (co_free _ _ C)). pose proof (proj1 (pins_lookup pc) P) as P'.
  destruct free as [|i free].
  2:{ simpl. exists i, free, q, pc. split; [done|]. split; [|split; [apply same_store_refl|done]].
      split; [done| |done|done]. split_and!; [by apply ring_rep|done|done]. }
  simpl. rewrite B.
  assert (Hq : q <> []).
  { intros ->. assert (0 ∈ []) as Hin by (apply Q; split; [lia|apply not_elem_of_nil]).
    by apply elem_of_nil in Hin. }
  assert (Ev : evictable pc [] q).
  { intros x Hx. apply Q in Hx. split; [done|]. destruct (cache_frame _ _ x C (proj1 Hx)) as [f Hf].
    exists f. split; [done|]. apply (P' x); [|done]. by destruct Hx as [[] _]. }
  destruct (evict_ok pc [] q log C (ring_rep _ _ R) N Hq Ev)
    as (k & pc' & E & Hk & C' & S' & R' & F').
  simpl in C'. destruct (take k q) as [|i fr] eqn:Et.
  { apply (f_equal length) in Et. rewrite length_take in Et. simpl in Et.
    destruct q; [done|]. simpl in *. lia. }
  exists i, fr, (drop k q), pc'. split; [done|].
  assert (Mp : forall fk ft p, fk <> catalogue -> mapped pc fk ft p = None -> mapped pc' fk ft p = None).
  { intros fk ft p Hk2 Hm. destruct (mapped pc' fk ft p) as [j|] eqn:Ej; [|done]. exfalso.
    destruct (co_mapped _ _ C' _ _ _ _ Hk2 Ej) as (Hj & f & Hf & E1 & E2 & E3).
    pose proof (co_frame _ _ C' j f Hj Hf) as (_ & _ & K). rewrite E1, E2 in K.
    destruct K as (_ & Kf & _). rewrite F' in Hf by done.
    pose proof (co_frame _ _ C j f Hj Hf) as (_ & _ & K'). rewrite E1, E2, E3 in K'.
    destruct K' as (_ & _ & K' & _). congruence. }
  split; [|done].
  rewrite <- (take_drop k q) in N. pose proof N as N'. apply NoDup_app in N' as (N1 & N2 & N3).
  split; [done| | |by rewrite (ss_bulk _ _ S')].
  - split_and!; [done|done|]. intros j. unfold used. rewrite (ss_n _ _ S'), <- Et. split.
    + intros Hj. assert (j ∈ q) as Hjq by (rewrite <- (take_drop k q); apply elem_of_app; by right).
      apply Q in Hjq as [Hr _]. split; [done|]. intros Hj'. by apply (N2 j).
    + intros [Hr Hj]. assert (j ∈ q) as Hjq by (apply Q; split; [done|apply not_elem_of_nil]).
      rewrite <- (take_drop k q) in Hjq. apply elem_of_app in Hjq as [?|?]; done.
  - intros j f Hj Hf. destruct (decide (j ∈ i :: fr)) as [Hin|Hnin].
    + destruct (co_frame _ _ C' j f Hj Hf) as (_ & _ & K).
      destruct (p_fk f), (p_ft f); try done; [by destruct K as (_ & K & _)|apply K].
    + rewrite F' in Hf by done. by apply (P' j).
Qed.

Lemma contains_mapped pc free fk ft p :
  cache_ok pc free -> fk <> catalogue ->
  exists d, page_map pc !! (fk, ft) = Some d /\ wf fnv_hash_ul d /\
    (forall q, contents d !! q = mapped pc fk ft q) /\
    dict_contains d p = Ok (bool_decide (is_Some (mapped pc fk ft p))) /\
    dict_get_direct d p = or_exit (mapped pc fk ft p).
Proof.
  intros C Hk. destruct (co_dict _ _ C fk ft Hk) as (d & Ed & Wd). exists d.
  assert (M : forall q, contents d !! q = mapped pc fk ft q) by (intros; unfold mapped; by rewrite Ed).
  unfold dict_contains, dict_get_direct, htable_contains, htable_get_direct.
  rewrite (ht_get_ok fnv_hash_ul d p (proj1 Wd)), M. by split_and!.
Qed.

Lemma pin_miss_ok pc i free q fk ft p log :
  ready pc i free q -> fk <> catalogue -> 0 <= p < n_pages pc fk ft -> mapped pc fk ft p = None ->
  exists pc', load_page pc p fk ft log = Ok (i, pc') /\
    pinned pc' i (loaded_page fk ft p (view pc fk ft p)) /\ same_store pc pc' /\
    mapped pc' fk ft p = Some i.
Proof.
  intros [C (Rq & Nq & Q) P B] Hk Hp Hm.
  destruct (take_ok _ _ 0%nat i (co_free _ _ C) eq_refl) as (l & El & Rl). simpl in Rl.
  unfold load_page. rewrite El. cbn [mbind res_bind].
  pose proof (co_range _ _ C i ltac:(left)) as Hi.
  destruct (cache_frame _ _ i C Hi) as [f0 Hf0].
  unfold get_frame. cbn [frames set_free]. rewrite Hf0. cbn [deref mbind res_bind pdb set_free].
  destruct (read_page_same (file_of (pdb pc) fk ft) p log (pdb_log (pdb pc))
    (file_paged _ fk ft (co_pdb _ _ C)) Hp) as (df & lf & Er & Sd).
  rewrite Er. cbn [mbind res_bind].
  destruct (contains_mapped pc _ fk ft p C Hk) as (d & Ed & Wd & Md & _).
  unfold dict_of. cbn [page_map set_frame set_pdb set_free]. rewrite Ed. cbn [or_exit mbind res_bind].
  destruct (ht_insert_ok fnv_hash_ul 0 0 d p i Wd) as (d' & Ei & Wd' & Cd' & _).
  unfold dict_insert. rewrite Ei. cbn [mbind res_bind].
  destruct (load_ok pc free i fk ft p df lf l d' C Hk Hm Hp Sd Rl Wd') as (C' & S' & U' & F' & M').
  { intros x. rewrite Cd', lookup_insert, Md. repeat case_decide; congruence. }
  assert (V : view pc fk ft p = page_of (file_of (pdb pc) fk ft) p) by (unfold view; by rewrite Hm).
  eexists. split; [reflexivity|]. split_and!; [|exact S'|exact M'].
  rewrite V. split; [|exact F'|done| |done|].
  - exists free. split; [exact C'|]. split; [exact U'|]. exists q. split; [done|]. right.
    pose proof (co_nodup _ _ C) as Nf. apply NoDup_cons in Nf as [Ni _].
    split; [done|]. split.
    + intros Hin. apply Q in Hin as [_ Hin]. apply Hin. left.
    + intros j. unfold used. simpl. rewrite Q. unfold used. rewrite not_elem_of_cons.
      split; [intros [[? []]| ->]; done|]. intros [Hr Hn]. destruct (decide (j = i)); tauto.
  - intros j f' Hj Hf'. simpl in Hf'. rewrite list_lookup_insert_ne in Hf' by lia.
    apply (P (Z.of_nat j)); [lia|by rewrite Nat2Z.id].
  - simpl. lia.
Qed.

(** What a pinned frame holds: a page of a file. *)
Definition holds pc (i : Z) f fk ft (p : Z) : Prop :=
  p_fk f = Some fk /\ p_ft f = Some ft /\ p_no f = p /\ mapped pc fk ft p = Some i.

Lemma pinned_log (log : bool) l pc i f : pinned pc i f -> pinned (pc_log_when log l pc) i f.
Proof.
  intros [(free & C & U & Q) A B D E F]. split; try done.
  exists free. split; [by apply cache_ok_log|done].
Qed.
Lemma pinned_count pc i f : pinned pc i f -> pinned (count_pin pc) i f.
Proof.
  intros [(free & C & U & Q) A B D E F]. split; try done.
  exists free. split; [by destruct C|done].
Qed.

Lemma pin_hit_ok pc fk ft p i f :
  quiescent pc -> fk <> catalogue -> mapped pc fk ft p = Some i ->
  frames pc !! Z.to_nat i = Some f ->
  pinned (set_frame pc i (with_pin f 1)) i (with_pin f 1) /\
  same_store pc (set_frame pc i (with_pin f 1)).
Proof.
  intros [(free & C & q & R & N & Q) P B F] Hk Hm Hf.
  destruct (co_mapped _ _ C _ _ _ _ Hk Hm) as (Hi & f' & Hf' & E1 & E2 & E3).
  assert (f' = f) as -> by congruence.
  pose proof (co_frame _ _ C i f Hi Hf) as (Pok & _ & K). rewrite E1, E2 in K.
  assert (Ok' : frame_ok pc free i (with_pin f 1)).
  { split; [done|]. split; [done|]. simpl. by rewrite E1, E2. }
  assert (U : used pc free i).
  { split; [|apply K]. pose proof (lookup_lt_Some _ _ _ Hf). pose proof (co_n _ _ C). lia. }
  pose proof (cache_ok_set_frame pc free i f (with_pin f 1) C Hi Hf eq_refl eq_refl eq_refl Ok') as C'.
  split; [split; try done|split; try done].
  - exists free. split; [done|]. split; [done|]. exists q. split; [done|]. by left.
  - rewrite frame_lookup by eauto. by rewrite decide_True.
  - intros j g Hj Hg. simpl in Hg. rewrite list_lookup_insert_ne in Hg by lia.
    apply P. by eapply list_elem_of_lookup_2.
  - intros fk' ft' x Hk' Hx. rewrite (view_set_frame pc free i f) by done.
    case_decide as Em; [|done]. unfold view. by rewrite Em, Hf.
Qed.

Lemma pin_page_ok pc fk ft p log :
  quiescent pc -> fk <> catalogue -> 0 <= p < n_pages pc fk ft ->
  exists i f pc', pin_page pc p fk ft log = Ok (i, pc') /\ pinned pc' i f /\ same_store pc pc' /\
    holds pc' i f fk ft p /\ p_data f = view pc fk ft p.
Proof.
  intros Qu Hk Hp. pose proof Qu as [(free & C & _) P B F].
  unfold pin_page. rewrite bool_decide_false by tauto.
  pose proof (file_paged (pdb pc) fk ft (co_pdb _ _ C)) as [D _].
  pose proof (df_ok_max _ D). unfold n_pages in Hp.
  rewrite (proj2 (Z.leb_gt _ _)) by lia. rewrite (proj2 (Z.leb_gt _ _)) by lia. cbn [orb].
  destruct (contains_mapped pc free fk ft p C Hk) as (d & Ed & Wd & Md & Hc & Hg).
  assert (Edd : dict_of pc fk ft = Ok d) by (unfold dict_of; by rewrite Ed).
  rewrite Edd. cbn [mbind res_bind]. rewrite Hc. cbn [mbind res_bind].
  destruct (mapped pc fk ft p) as [i|] eqn:Em.
  - rewrite bool_decide_true by eauto. rewrite Hg. cbn [or_exit mbind res_bind].
    destruct (co_mapped _ _ C _ _ _ _ Hk Em) as (Hi & f & Hf & E1 & E2 & E3).
    unfold get_frame. rewrite Hf. cbn [deref mbind res_bind].
    rewrite (P f) by (by eapply list_elem_of_lookup_2). change (u32 (0 + 1)) with 1.
    destruct (pin_hit_ok pc fk ft p i f Qu Hk Em Hf) as [Pi S].
    exists i, (with_pin f 1). eexists. split; [reflexivity|]. split_and!.
    + by apply pinned_log, pinned_count.
    + apply same_store_log. by destruct S.
    + by split_and!.
    + simpl. unfold view. by rewrite Em, Hf.
  - rewrite bool_decide_false by (by intros []).
    destruct (make_room pc log Qu) as (i & fr & q & pc1 & E & Re & S1 & M1). rewrite E.
    cbn [mbind res_bind].
    assert (Hp1 : 0 <= p < n_pages pc1 fk ft) by (by rewrite (ss_pages _ _ S1)).
    destruct (pin_miss_ok pc1 i fr q fk ft p log Re Hk Hp1 (M1 _ _ _ Hk Em)) as (pc2 & E2 & Pi & S2 & M2).
    rewrite E2. cbn [mbind res_bind]. exists i. eexists _, _. split; [reflexivity|].
    split_and!; [by apply pinned_log, pinned_count| |by split_and!|].
    + apply same_store_log. eapply same_store_trans; [exact S1|]. by destruct S2.
    + simpl. by rewrite (ss_view _ _ S1).
Qed.

(** ** Changing a pinned page *)

Lemma holds_key pc free i f fk ft p fk' ft' q :
  cache_ok pc free -> fk <> catalogue -> fk' <> catalogue -> frames pc !! Z.to_nat i = Some f ->
  holds pc i f fk ft p ->
  (mapped pc fk' ft' q = Some i <-> (fk' = fk /\ ft' = ft /\ q = p)).
Proof.
  intros C Hk Hk' Hf (E1 & E2 & E3 & Hm). split.
  - intros Hj. destruct (co_mapped _ _ C _ _ _ _ Hk' Hj) as (_ & g & Hg & K1 & K2 & K3).
    assert (g = f) as -> by congruence. split_and!; congruence.
  - intros (-> & -> & ->). done.
Qed.

(** [f'] is [f] with other contents, marked dirty. *)
Record changed f f' : Prop := Changed {
  ch_fk : p_fk f' = p_fk f;
  ch_ft : p_ft f' = p_ft f;
  ch_no : p_no f' = p_no f;
  ch_pin : pin_count f' = pin_count f;
  ch_dirty : dirty f' = true;
  ch_ok : page_ok f' }.

Lemma modify_ok pc i f f' fk ft p :
  pinned pc i f -> fk <> catalogue -> holds pc i f fk ft p -> changed f f' ->
  let pc' := set_frame pc i f' in
  pinned pc' i f' /\ holds pc' i f' fk ft p /\
  (forall fk ft, n_pages pc' fk ft = n_pages pc fk ft) /\
  forall fk' ft' q, fk' <> catalogue ->
    view pc' fk' ft' q =
      if decide (fk' = fk /\ ft' = ft /\ q = p) then p_data f' else view pc fk' ft' q.
Proof.
  intros [(free & C & U & Q) Hf Hp Ho B F] Hk Hh [E1 E2 E3 E4 E5 E6] pc'.
  pose proof Hh as (K1 & K2 & K3 & Km). destruct U as [Hi Hfr].
  pose proof (co_frame _ _ C i f ltac:(lia) Hf) as (_ & _ & K). rewrite K1, K2 in K.
  assert (Ok' : frame_ok pc free i f').
  { split; [done|]. rewrite E4, E1, E2, E3, E5, K1, K2. split; [lia|].
    destruct K as (A1 & A2 & A3 & A4 & _). by split_and!; try apply A4. }
  pose proof (cache_ok_set_frame pc free i f f' C ltac:(lia) Hf E1 E2 E3 Ok') as C'.
  split_and!; [split| | |]; try done.
  - exists free. split; [done|]. split; [done|]. exact Q.
  - unfold pc'. rewrite frame_lookup by (eauto || lia). by rewrite decide_True.
  - congruence.
  - intros j g Hj Hg. simpl in Hg. rewrite list_lookup_insert_ne in Hg by lia. by apply (Ho j).
  - split_and!; [congruence|congruence|congruence|done].
  - intros fk' ft' q Hk'. unfold pc'. rewrite (view_set_frame pc free i f) by (done || lia).
    pose proof (holds_key pc free i f fk ft p fk' ft' q C Hk Hk' Hf Hh) as Key.
    repeat case_decide; tauto.
Qed.

(** ** [unpin_page] *)

Lemma unpin_frame_ok pc i f fk ft p free :
  cache_ok pc free -> frames pc !! Z.to_nat i = Some f -> 0 <= i -> fk <> catalogue ->
  holds pc i f fk ft p ->
  let pc' := set_frame pc i (with_pin f 0) in
  cache_ok pc' free /\ same_store pc pc'.
Proof.
  intros C Hf Hi Hk (E1 & E2 & E3 & Hm) pc'.
  pose proof (co_frame _ _ C i f Hi Hf) as (Pok & _ & K). rewrite E1, E2 in K.
  assert (Ok' : frame_ok pc free i (with_pin f 0)).
  { split; [done|]. split; [done|]. simpl. by rewrite E1, E2. }
  pose proof (cache_ok_set_frame pc free i f (with_pin f 0) C Hi Hf eq_refl eq_refl eq_refl Ok') as C'.
  split; [done|]. split; [|done..].
  intros fk' ft' x Hk' Hx. unfold pc'. rewrite (view_set_frame pc free i f) by done.
  case_decide as Em; [|done]. unfold view. by rewrite Em, Hf.
Qed.

(** The queue after the frame was moved to its back. *)
Lemma unpin_queue_ok pc i free :
  used pc free i ->
  (exists q, NoDup q /\
    (ring (recently_referenced pc) q /\ (forall j, j ∈ q <-> used pc free j) \/
     rep (recently_referenced pc) q /\ (i ∉ q) /\ (forall j, (j ∈ q \/ j = i) <-> used pc free j))) ->
  exists ll q, queue_move_back unsigned_long_eq (recently_referenced pc) i = Ok ll /\
    ring ll q /\ NoDup q /\ forall j, j ∈ q <-> used pc free j.
Proof.
  intros U (q & N & [[R Q]|(R & Ni & Q)]).
  - destruct (move_back_ok unsigned_long_eq _ _ i R) as (ll & E & R').
    exists ll, (spec_move_back unsigned_long_eq q i). split_and!; [done|done|..].
    + rewrite spec_move_back_perm; [done|]. exists i. split; [by apply Q|].
      unfold unsigned_long_eq. by apply Z.eqb_eq.
    + intros j. rewrite <- Q. rewrite spec_move_back_perm; [done|]. exists i. split; [by apply Q|].
      unfold unsigned_long_eq. by apply Z.eqb_eq.
  - destruct (move_back_absent unsigned_long_eq _ _ i R) as (ll & E & R').
    { intros x Hx. apply Z.eqb_neq. intros ->. done. }
    exists ll, (q ++ [i]). split_and!; [done|done|..].
    + apply NoDup_app. split_and!; [done| |apply NoDup_singleton].
      intros x Hx ->%list_elem_of_singleton. done.
    + intros j. rewrite <- Q, elem_of_app, list_elem_of_singleton. done.
Qed.

Lemma unpin_page_ok pc i f fk ft p log :
  pinned pc i f -> fk <> catalogue -> holds pc i f fk ft p ->
  exists pc', unpin_page pc p fk ft log = Ok pc' /\ quiescent pc' /\ same_store pc pc'.
Proof.
  intros [(free & C & U & Q) Hf Hp Ho B F] Hk Hh. pose proof Hh as (E1 & E2 & E3 & Hm).
  pose proof U as [Hi Hfr].
  pose proof (co_frame _ _ C i f ltac:(lia) Hf) as (_ & _ & K). rewrite E1, E2, E3 in K.
  destruct K as (_ & _ & _ & Hr & _). unfold n_pages in Hr.
  pose proof (file_paged (pdb pc) fk ft (co_pdb _ _ C)) as [D _]. pose proof (df_ok_max _ D).
  destruct (contains_mapped pc free fk ft p C Hk) as (d & Ed & Wd & Md & Hc & Hg).
  unfold unpin_page. assert (Edd : dict_of pc fk ft = Ok d) by (unfold dict_of; by rewrite Ed).
  rewrite Edd. cbn [mbind res_bind]. rewrite Hc, Hg, Hm. cbn [mbind res_bind].
  rewrite bool_decide_true by eauto. cbn [negb or_exit mbind res_bind].
  rewrite (proj2 (Z.leb_gt _ _)) by lia. rewrite (proj2 (Z.leb_gt _ _)) by lia. cbn [orb].
  unfold get_frame. rewrite Hf. cbn [deref mbind res_bind].
  rewrite Hp. cbn [Z.eqb]. change (1 - 1) with 0.
  cbn [bulk_import set_frame]. rewrite B. cbn [negb].
  destruct (unpin_queue_ok pc i free U Q) as (ll & q & E & R & N & Qq).
  cbn [recently_referenced set_frame]. rewrite E. cbn [mbind res_bind].
  destruct (unpin_frame_ok pc i f fk ft p free C Hf ltac:(lia) Hk Hh) as [C' S'].
  eexists. split; [reflexivity|]. split.
  - split; [|apply pins_lookup|done|done].
    + exists free. split; [apply cache_ok_log; destruct C'; by split|].
      exists q. by split_and!.
    + intros j g Hj Hg'. cbn [frames pc_log_when set_pc_log count_unpin set_recent set_frame] in Hg'.
      destruct (decide (j = i)) as [->|Hne].
      * rewrite list_lookup_insert_eq in Hg' by (by eapply lookup_lt_Some). by injection Hg' as <-.
      * rewrite list_lookup_insert_ne in Hg' by lia. apply (Ho (Z.to_nat j)); [lia|done].
  - apply same_store_log. by destruct S'.
Qed.
End Inv.

(** ** Creating, growing, flushing and destroying *)

Section Life.
Context `{Sysconf}.
Implicit Types (pc : page_cache) (f : page) (fk : file_kind) (ft : file_type) (free : list Z).

Definition blank : page := page_create (replicate page_bytes 0).

Lemma new_frames_ok n i fs (l : llist Z) xs :
  ring l xs ->
  exists l', new_frames n i fs l = Ok (fs ++ replicate n blank, l') /\
    ring l' (xs ++ seqZ i (Z.of_nat n)).
Proof.
  revert i fs l xs. induction n as [|n IH]; intros i fs l xs R; simpl.
  - exists l. by rewrite !app_nil_r.
  - destruct (append_ring l xs i (ring_rep _ _ R)) as (l1 & -> & R1). simpl.
    destruct (IH (i + 1) (fs ++ [blank]) l1 (xs ++ [i]) R1) as (l2 & E & R2).
    exists l2. unfold blank in E at 1. rewrite E, <- (assoc_L app). split; [done|].
    rewrite <- (assoc_L app) in R2. rewrite seqZ_cons by lia.
    by replace (Z.pred (Z.of_nat (S n))) with (Z.of_nat n) by lia.
Qed.

Lemma new_maps_lookup s fk ft d :
  new_maps s !! (fk, ft) = Some d -> d = htable_create 0 0 s.
Proof. unfold new_maps. destruct fk, ft; simpl; intros E; by simplify_map_eq. Qed.

Lemma new_maps_some s fk ft : fk <> catalogue -> new_maps s !! (fk, ft) = Some (htable_create 0 0 s).
Proof. unfold new_maps. destruct fk, ft; simpl; intros; by simplify_map_eq. Qed.

Lemma fresh_cache_ok db n np nu b lf (l : llist Z) s :
  pdb_ok db -> 0 <= n -> rep l (seqZ 0 n) ->
  let pc := PageCache db n np nu b lf l linked_list_create (new_maps s)
              (replicate (Z.to_nat n) blank) in
  cache_ok pc (seqZ 0 n) /\ forall fk ft p, fk <> catalogue -> mapped pc fk ft p = None.
Proof.
  intros I Hn R pc.
  assert (M : forall fk ft p, fk <> catalogue -> mapped pc fk ft p = None).
  { intros fk ft p Hk. unfold mapped. simpl. rewrite new_maps_some by done.
    unfold contents, entries. simpl. apply lookup_empty. }
  split; [|done]. split; try done.
  - simpl. rewrite length_replicate. lia.
  - apply NoDup_seqZ.
  - intros i Hi. apply elem_of_seqZ in Hi. simpl. lia.
  - intros fk ft Hk. exists (htable_create 0 0 s). split; [by apply new_maps_some|apply create_wf].
  - intros i f Hi Hf. simpl in Hf. apply lookup_replicate in Hf as [-> Hl].
    split; [apply free_page_ok|]. split; [done|]. simpl. split; [apply elem_of_seqZ; lia|done].
  - intros fk ft p i Hk Hm. rewrite M in Hm by done. done.
Qed.

Lemma page_cache_create_quiescent db n log s :
  pdb_ok db -> 1 <= n -> n * PAGE_SIZE <= SIZE_MAX ->
  exists pc, page_cache_create db n log s = Ok pc /\ quiescent pc /\ pdb pc = db /\
    n_frames pc = n /\
    forall fk ft p, fk <> catalogue -> view pc fk ft p = page_of (file_of db fk ft) p.
Proof.
  intros I Hn Hs. unfold page_cache_create. rewrite (proj2 (Z.ltb_ge _ _)) by lia.
  destruct (new_frames_ok (Z.to_nat n) 0 [] linked_list_create [] create_ring) as (l & E & R).
  rewrite E. cbn [mbind res_bind app]. rewrite Z2Nat.id in R by lia. simpl in R.
  destruct (fresh_cache_ok db n 0 0 false (log_open log) l s I ltac:(lia) (ring_rep _ _ R)) as [C M].
  eexists. split; [reflexivity|]. split_and!; [|done|done|].
  - split; [|intros f Hf|done|simpl; lia].
    + exists (seqZ 0 n). split; [done|]. exists []. split; [apply create_ring|].
      split; [apply NoDup_nil_2|]. intros i. split; [intros Hi; by apply elem_of_nil in Hi|].
      intros [Hr Hi]. destruct Hi. apply elem_of_seqZ. simpl in Hr. lia.
    + simpl in Hf. by apply elem_of_replicate in Hf as [-> _].
  - intros fk ft p Hk. unfold view. by rewrite M.
Qed.

(** *** [flush_all_pages] *)

Lemma flush_loop_ok pc free n i log :
  cache_ok pc free -> (forall f, f ∈ frames pc -> pin_count f = 0) ->
  0 <= i -> (Z.to_nat i + n = length (frames pc))%nat ->
  (forall j f, (j < Z.to_nat i)%nat -> frames pc !! j = Some f -> dirty f = false) ->
  exists pc', flush_loop pc n i log = Ok pc' /\ cache_ok pc' free /\ same_store pc pc' /\
    frames pc' = map (fun f => with_dirty f false) (frames pc) /\
    page_map pc' = page_map pc /\ free_frames pc' = free_frames pc /\
    recently_referenced pc' = recently_referenced pc.
Proof.
  revert pc i. induction n as [|n IH]; intros pc i C P Hi Hn Hd; simpl.
  - exists pc. split_and!; try done.
    rewrite <- (map_id (frames pc)) at 1. apply map_ext_in.
    intros f Hf. apply list_elem_of_In, list_elem_of_lookup_1 in Hf as [j Hj].
    unfold with_dirty. rewrite <- (Hd j f) by (done || (apply lookup_lt_Some in Hj; lia)). by destruct f.
  - destruct (lookup_lt_is_Some_2 (frames pc) (Z.to_nat i)) as [f Hf]; [lia|].
    destruct (flush_page_ok pc free i f log C Hi Hf) as (pc1 & -> & C1 & S1 & F1 & M1 & L1 & R1);
      [apply P; by eapply list_elem_of_lookup_2|]. cbn [mbind res_bind].
    destruct (IH pc1 (i + 1) C1) as (pc2 & -> & C2 & S2 & F2 & M2 & L2 & R2).
    + intros g Hg. rewrite F1 in Hg. apply list_elem_of_lookup_1 in Hg as [j Hj].
      apply list_lookup_insert_Some in Hj as [(_ & <- & _)|[_ Hj]];
        [apply (P f)|apply (P g)]; by eapply list_elem_of_lookup_2.
    + lia.
    + rewrite F1, length_insert. lia.
    + intros j g Hj Hg. rewrite F1 in Hg.
      apply list_lookup_insert_Some in Hg as [(_ & <- & _)|[Hne Hg]]; [done|].
      apply (Hd j); [lia|done].
    + exists pc2. split_and!; try congruence; [by eapply same_store_trans|].
      rewrite F2, F1. apply list_eq. intros j.
      change (map ?g ?l) with (fmap (M := list) g l). rewrite !list_lookup_fmap.
      destruct (decide (j = Z.to_nat i)) as [->|Hne].
      * rewrite list_lookup_insert_eq by (by eapply lookup_lt_Some). by rewrite Hf.
      * by rewrite list_lookup_insert_ne by done.
Qed.


(** When every frame is clean, the files hold what a client sees. *)
Lemma clean_view pc free fk ft p :
  cache_ok pc free -> (forall f, f ∈ frames pc -> dirty f = false) -> fk <> catalogue ->
  view pc fk ft p = page_of (file_of (pdb pc) fk ft) p.
Proof.
  intros C D Hk. unfold view. destruct (mapped pc fk ft p) as [i|] eqn:Em; [|done].
  destruct (co_mapped _ _ C _ _ _ _ Hk Em) as (Hi & f & Hf & E1 & E2 & E3).
  rewrite Hf. destruct (co_frame _ _ C i f Hi Hf) as (_ & _ & K). rewrite E1, E2, E3 in K.
  apply K, D. by eapply list_elem_of_lookup_2.
Qed.

(** What [flush_all_pages] leaves: a clean cache. *)
Lemma flush_all_ok pc log :
  quiescent pc ->
  exists pc' free q, flush_all_pages pc log = Ok pc' /\ cache_ok pc' free /\ same_store pc pc' /\
    rep (recently_referenced pc') q /\
    (forall f, f ∈ frames pc' -> dirty f = false /\ pin_count f = 0) /\
    exists f fs, frames pc' = f :: fs.
Proof.
  intros [(free & C & q & R & N & Q) P B F]. unfold flush_all_pages.
  pose proof (co_n _ _ C) as Hn.
  destruct (flush_loop_ok pc free (Z.to_nat (n_frames pc)) 0 log C P) as (pc' & E & C' & S' & F' & _ & _ & R');
    [lia|lia|intros; lia|].
  exists pc', free, q. split_and!; [done|done|done|rewrite R'; by apply ring_rep| |].
  - intros f Hf. rewrite F' in Hf. apply list_elem_of_In, in_map_iff in Hf as (g & <- & Hg).
    split; [done|]. simpl. by apply P, list_elem_of_In.
  - rewrite F'. destruct (frames pc) as [|f fs]; [simpl in Hn; lia|]. by eexists _, _.
Qed.

Lemma destroy_frames_ok fs :
  (forall f, f ∈ fs -> dirty f = false /\ pin_count f = 0) -> destroy_frames fs = Ok tt.
Proof.
  induction fs as [|f fs IH]; intros D; simpl; [done|].
  destruct (D f) as [D1 D2]; [left|]. unfold page_destroy. rewrite D1, D2. simpl.
  apply IH. intros g Hg. apply D. by right.
Qed.

Lemma destroy_cache_ok pc :
  quiescent pc ->
  exists db, page_cache_destroy pc = Ok db /\ pdb_ok db /\
    (forall fk ft, df_num_pages (file_of db fk ft) = n_pages pc fk ft) /\
    forall fk ft p, fk <> catalogue -> 0 <= p < n_pages pc fk ft ->
      page_of (file_of db fk ft) p = view pc fk ft p.
Proof.
  intros Q. destruct (flush_all_ok pc false Q) as (pc' & free & q & E & C & S & R & D & f & fs & Ef).
  unfold page_cache_destroy. rewrite E. cbn [mbind res_bind].
  destruct (destroy_ok _ _ (co_free _ _ C)) as (l1 & -> & _). cbn [mbind res_bind].
  destruct (destroy_ok _ _ R) as (l2 & -> & _). cbn [mbind res_bind].
  rewrite (destroy_frames_ok (frames pc') D). rewrite Ef. cbn [head deref mbind res_bind].
  exists (pdb pc'). split_and!; [done|apply C| |].
  - intros fk ft. apply (ss_pages _ _ S).
  - intros fk ft p Hk Hp. rewrite <- (ss_view _ _ S fk ft p Hk Hp).
    symmetry. apply (clean_view pc' free); [done| |done]. intros g Hg. by apply D.
Qed.

Lemma change_n_frames_ok pc n s :
  quiescent pc -> 1 <= n -> n * PAGE_SIZE <= SIZE_MAX ->
  exists pc', page_cache_change_n_frames pc n s = Ok pc' /\ quiescent pc' /\ n_frames pc' = n /\
    (forall fk ft, n_pages pc' fk ft = n_pages pc fk ft) /\
    forall fk ft p, fk <> catalogue -> 0 <= p < n_pages pc fk ft ->
      view pc' fk ft p = view pc fk ft p.
Proof.
  intros Q Hn Hs.
  destruct (flush_all_ok pc false Q) as (pc' & free & q & E & C & S & R & D & f & fs & Ef).
  unfold page_cache_change_n_frames. rewrite E. cbn [mbind res_bind].
  assert (X : existsb (fun p => negb (pin_count p =? 0)) (frames pc') = false).
  { apply not_true_iff_false. rewrite existsb_exists. intros (g & Hg & Hb).
    apply list_elem_of_In, D in Hg as [_ Hg]. by rewrite Hg in Hb. }
  rewrite X. cbn [exit_if mbind res_bind].
  rewrite (destroy_frames_ok (frames pc') D). rewrite Ef. cbn [head deref mbind res_bind].
  destruct (destroy_ok _ _ R) as (l2 & -> & _). cbn [mbind res_bind].
  rewrite (proj2 (Z.ltb_ge _ _)) by lia.
  destruct (destroy_ok _ _ (co_free _ _ C)) as (l1 & -> & _). cbn [mbind res_bind].
  destruct (new_frames_ok (Z.to_nat n) 0 [] linked_list_create [] create_ring) as (l & E' & R').
  rewrite E'. cbn [mbind res_bind app]. rewrite Z2Nat.id in R' by lia. simpl in R'.
  destruct (fresh_cache_ok (pdb pc') n (num_pins pc') (num_unpins pc') (bulk_import pc') (pc_log pc')
    l s (co_pdb _ _ C) ltac:(lia) (ring_rep _ _ R')) as [C2 M2].
  eexists. split; [reflexivity|]. split_and!; [|done|intros; apply (ss_pages _ _ S)|].
  - split; [|intros g Hg|simpl; rewrite (ss_bulk _ _ S); apply Q|simpl; lia].
    + exists (seqZ 0 n). split; [done|]. exists []. split; [apply create_ring|].
      split; [apply NoDup_nil_2|]. intros i. split; [intros Hi; by apply elem_of_nil in Hi|].
      intros [Hr Hi]. destruct Hi. apply elem_of_seqZ. simpl in Hr. lia.
    + simpl in Hg. by apply elem_of_replicate in Hg as [-> _].
  - intros fk ft p Hk Hp. rewrite <- (ss_view _ _ S fk ft p Hk Hp).
    rewrite (clean_view pc' free) by (done || (intros g Hg; by apply D)).
    unfold view. by rewrite M2.
Qed.

(** *** [new_page] *)

Lemma set_pdb_grown pc free db ft :
  cache_ok pc free -> pdb_ok db ->
  (forall fk ft' p, fk <> catalogue -> 0 <= p < n_pages pc fk ft' ->
     page_of (file_of db fk ft') p = page_of (file_of (pdb pc) fk ft') p) ->
  (forall fk ft', fk <> catalogue -> n_pages pc fk ft' <= df_num_pages (file_of db fk ft')) ->
  cache_ok (set_pdb pc db) free /\
  forall fk ft' p, fk <> catalogue -> 0 <= p < n_pages pc fk ft' ->
    view (set_pdb pc db) fk ft' p = view pc fk ft' p.
Proof.
  intros C I V N. split.
  - destruct C as [A B D E F G J K]. split; try done. intros i f Hi Hf.
    destruct (J i f Hi Hf) as (P1 & P2 & X). split; [done|]. split; [done|].
    destruct (p_fk f) as [gk|], (p_ft f) as [gt|]; try done.
    destruct X as (X1 & X2 & X3 & X4 & X5). pose proof (N gk gt X1) as Ng. unfold n_pages in *.
    split_and!; [done|done|done|lia|simpl; lia|]. intros Hd. rewrite (X5 Hd). simpl.
    symmetry. by apply V.
  - intros fk ft' p Hk Hp. unfold view. change (mapped (set_pdb pc db) fk ft' p) with (mapped pc fk ft' p).
    destruct (mapped pc fk ft' p); [done|]. simpl. by apply V.
Qed.

Lemma new_page_ok pc ft log :
  quiescent pc ->
  n_pages pc records ft + 1 < MAX_PAGE_NO ->
  n_pages pc header ft + SLOTS_PER_PAGE + 2 < MAX_PAGE_NO ->
  exists i f pc', new_page pc ft log = Ok (i, pc') /\ pinned pc' i f /\
    holds pc' i f records ft (n_pages pc records ft) /\ p_data f = replicate page_bytes 0 /\
    (forall fk ft' p, fk <> catalogue -> 0 <= p < n_pages pc fk ft' ->
       view pc' fk ft' p = view pc fk ft' p) /\
    (forall p, 0 <= p < n_pages pc' header ft -> n_pages pc header ft <= p ->
       view pc' header ft p = replicate page_bytes 0) /\
    n_pages pc' records ft = n_pages pc records ft + 1 /\
    n_pages pc header ft <= n_pages pc' header ft <= n_pages pc header ft + SLOTS_PER_PAGE + 2 /\
    (forall fk ft', ft' <> ft -> n_pages pc' fk ft' = n_pages pc fk ft').
Proof.
  intros Q Hr Hh. pose proof Q as [(free & C & qs) P B F]. unfold new_page.
  destruct (allocate_ok (pdb pc) ft 1 log (co_pdb _ _ C) ltac:(lia) Hr) as
    (db & E & I & Nr & Vr & Nh & Vh & O); [unfold n_pages in Hh; simpl in *; lia|].
  rewrite E. cbn [mbind res_bind pdb set_pdb].
  assert (V1 : forall fk ft' p, fk <> catalogue -> 0 <= p < n_pages pc fk ft' ->
     page_of (file_of db fk ft') p = page_of (file_of (pdb pc) fk ft') p).
  { intros fk ft' p Hk Hp. unfold n_pages in Hp. destruct (decide (ft' = ft)) as [->|Hne].
    - destruct fk; [done|..]; simpl in *; [rewrite Vh by lia|rewrite Vr by lia];
        by rewrite (proj2 (Z.ltb_lt _ _)) by lia.
    - destruct (O ft' Hne) as (O1 & O2 & _). destruct fk; [done|..]; simpl; congruence. }
  assert (N1 : forall fk ft', fk <> catalogue -> n_pages pc fk ft' <= df_num_pages (file_of db fk ft')).
  { intros fk ft' Hk. unfold n_pages. destruct (decide (ft' = ft)) as [->|Hne].
    - destruct fk; [done|..]; simpl; lia.
    - destruct (O ft' Hne) as (O1 & O2 & _). destruct fk; [done|..]; simpl; rewrite ?O1, ?O2; lia. }
  destruct (set_pdb_grown pc free db ft C I V1 N1) as [C1 Vw].
  assert (Q1 : quiescent (set_pdb pc db)) by (split; [exists free; split; [done|]; exact qs|done..]).
  pose proof (proj1 (paged_nonneg _ (file_paged (pdb pc) records ft (co_pdb _ _ C)))) as N0.
  change (df_num_pages (file_of (pdb pc) records ft)) with (n_pages pc records ft) in N0.
  assert (En : df_num_pages (pdb_records db ft) = n_pages pc records ft + 1) by exact Nr.
  rewrite En, Z.add_simpl_r.
  assert (Nc : forall ft', n_pages (set_pdb pc db) catalogue ft' = n_pages pc catalogue ft').
  { intros ft'. unfold n_pages. simpl. rewrite (proj2 (pdb_cat_ok _ I)).
    symmetry. apply (pdb_cat_ok _ (co_pdb _ _ C)). }
  assert (Hx : 0 <= n_pages pc records ft < n_pages (set_pdb pc db) records ft).
  { split; [done|]. change (n_pages (set_pdb pc db) records ft) with (df_num_pages (pdb_records db ft)). lia. }
  destruct (pin_page_ok (set_pdb pc db) records ft (n_pages pc records ft) log Q1)
    as (i & f & pc' & Ep & Pi & S & Hh' & Hd); [done|exact Hx|].
  exists i, f, pc'. split_and!; try done.
  - rewrite Hd. unfold view. destruct (mapped _ records ft _) as [j|] eqn:Em.
    + exfalso. change (mapped pc records ft (n_pages pc records ft) = Some j) in Em.
      destruct (co_mapped _ _ C records ft _ j ltac:(done) Em) as (Hj & g & Hg & K1 & K2 & K3).
      destruct (co_frame _ _ C j g Hj Hg) as (_ & _ & K). rewrite K1, K2, K3 in K.
      destruct K as (_ & _ & _ & K & _). lia.
    + simpl. rewrite Vr by lia. unfold n_pages. simpl. by rewrite Z.ltb_irrefl.
  - intros fk ft' p Hk Hp. rewrite (ss_view _ _ S); [by apply Vw|done|].
    unfold n_pages at 1. simpl. pose proof (N1 fk ft' Hk). lia.
  - intros p Hp Hp'. rewrite (ss_pages _ _ S) in Hp.
    rewrite (ss_view _ _ S) by (done || exact Hp). unfold view.
    destruct (mapped _ header ft p) as [j|] eqn:Em.
    + exfalso. change (mapped pc header ft p = Some j) in Em.
      destruct (co_mapped _ _ C header ft _ j ltac:(done) Em) as (Hj & g & Hg & K1 & K2 & K3).
      destruct (co_frame _ _ C j g Hj Hg) as (_ & _ & K). rewrite K1, K2, K3 in K.
      destruct K as (_ & _ & _ & K & _). lia.
    + unfold n_pages in Hp, Hp'. simpl in *. rewrite Vh by lia.
      by rewrite (proj2 (Z.ltb_ge _ _)) by lia.
  - rewrite (ss_pages _ _ S). exact En.
  - rewrite (ss_pages _ _ S). unfold n_pages. simpl in *. lia.
  - rewrite (ss_pages _ _ S). unfold n_pages. simpl in *. lia.
  - intros fk ft' Hne. rewrite (ss_pages _ _ S). destruct (O ft' Hne) as (O1 & O2 & _).
    unfold n_pages. destruct fk; simpl; [exact (Nc ft')|by rewrite O1|by rewrite O2].
Qed.
End Life.
