(* ===== verification/PageCacheProps.v ===== *)
(** The properties of the page cache, proved from the lemmas of PageCacheInv.v, and two
    executions that show where its replacement queue goes wrong. *)

From S2P Require Import Prelude Constants LinkedList HTable DiskFile PhysicalDatabase Page PageCache PageCacheInv.
From Stdlib Require Import ZArith Lia.
From stdpp Require Import base list option gmap strings.

#[local] Open Scope Z_scope.

(** ** A small cache for the examples *)

(** A database with five node pages of 32 bytes, and a cache of [n] frames on it. *)
Definition sample_db : res phy_database :=
  '(db, _) ← phy_database_create (H := small_pages) ∅ "g" "l";
  allocate_pages (H := small_pages) db node_ft 5 false.
Definition sample_cache (n : Z) : res page_cache :=
  db ← sample_db; page_cache_create (H := small_pages) db n "l" 1.

Definition pin_unpin (pc : page_cache) (p : Z) : res page_cache :=
  '(_, pc) ← pin_page (H := small_pages) pc p records node_ft false;
  unpin_page (H := small_pages) pc p records node_ft false.

Definition page_counts (m : res (phy_database * file_system)) : res (Z * Z) :=
  '(db, _) ← m; Ok (df_num_pages (pdb_records db node_ft), df_num_pages (pdb_header db node_ft)).

Lemma new_db_pages : page_counts (phy_database_create (H := small_pages) ∅ "g" "l") = Ok (0, 1).
Proof. vm_compute. reflexivity. Qed.
Lemma sample_db_pages : page_counts (db ← sample_db; Ok (db, ∅)) = Ok (5, 1).
Proof. vm_compute. reflexivity. Qed.

Lemma sample_quiescent :
  exists pc, sample_cache 2 = Ok pc /\ quiescent (H := small_pages) pc /\
    n_pages pc records node_ft = 5 /\ n_pages pc header node_ft = 1.
Proof.
  destruct (create_ok (H := small_pages) ∅ "g" "l") as (db & fs & E & I & _ & Z0).
  pose proof new_db_pages as X. rewrite E in X. injection X as X1 X2.
  change (df_num_pages (pdb_records db node_ft) = 0) in X1.
  change (df_num_pages (pdb_header db node_ft) = 1) in X2.
  destruct (allocate_ok (H := small_pages) db node_ft 5 false I) as (db' & E' & I' & _);
    [lia|rewrite X1; vm_compute; reflexivity|rewrite X2; vm_compute; reflexivity|].
  assert (S : sample_db = Ok db') by (unfold sample_db; rewrite E; exact E').
  destruct (page_cache_create_quiescent (H := small_pages) db' 2 "l" 1 I') as (pc & Ec & Q & Ep & _);
    [lia|vm_compute; discriminate|].
  exists pc. split; [|split; [exact Q|]].
  - unfold sample_cache. rewrite S. exact Ec.
  - unfold n_pages. rewrite Ep. pose proof sample_db_pages as Y. rewrite S in Y.
    injection Y as Y1 Y2. split; [exact Y1|exact Y2].
Qed.

(** ** Properties *)

(** A new cache on a consistent database is quiescent, and every page seen through
    it is the page on disk. *)
Theorem page_cache_create_ok `{Sysconf} (db : phy_database) (n : Z) (log : string) (seed : Z)
    (I : pdb_ok db) (Hn : 1 <= n) (Hs : n * PAGE_SIZE <= SIZE_MAX) :
  exists pc, page_cache_create db n log seed = Ok pc /\ quiescent pc /\ pdb pc = db /\
    n_frames pc = n /\
    forall fk ft p, fk <> catalogue -> view pc fk ft p = page_of (file_of db fk ft) p.
Proof. by apply page_cache_create_quiescent. Qed.

Lemma page_cache_create_ok_witness :
  exists db pc, page_cache_create (H := small_pages) db 2 "l" 1 = Ok pc /\
    quiescent (H := small_pages) pc.
Proof.
  destruct (create_ok (H := small_pages) ∅ "g" "l") as (db & fs & _ & I & _).
  destruct (page_cache_create_ok (H := small_pages) db 2 "l" 1 I) as (pc & E & Q & _);
    [lia|vm_compute; discriminate|].
  exists db, pc. split; [exact E|exact Q].
Defined.

(** C35: from a quiescent cache, pinning a page of a header or record file never fails
    (a page is evicted when no frame is free, and written back if dirty), the pinned
    frame holds the page as a client sees it; changing its contents and unpinning it
    gives a quiescent cache in which exactly that page has the new contents. *)
Theorem pin_change_unpin `{Sysconf} (pc : page_cache) (fk : file_kind) (ft : file_type) (p : Z)
    (l1 l2 : bool) (change : page -> page)
    (Q : quiescent pc) (Hk : fk <> catalogue) (Hp : 0 <= p < n_pages pc fk ft)
    (Ch : forall f, page_ok f -> changed f (change f)) :
  exists i f pc1 pc2, pin_page pc p fk ft l1 = Ok (i, pc1) /\
    frames pc1 !! Z.to_nat i = Some f /\ pin_count f = 1 /\ p_data f = view pc fk ft p /\
    unpin_page (set_frame pc1 i (change f)) p fk ft l2 = Ok pc2 /\ quiescent pc2 /\
    (forall fk' ft', n_pages pc2 fk' ft' = n_pages pc fk' ft') /\
    forall fk' ft' q, fk' <> catalogue -> 0 <= q < n_pages pc fk' ft' ->
      view pc2 fk' ft' q =
        if decide (fk' = fk /\ ft' = ft /\ q = p) then p_data (change f) else view pc fk' ft' q.
Proof.
  destruct (pin_page_ok pc fk ft p l1 Q Hk Hp) as (i & f & pc1 & E1 & Pi & S1 & Hh & Hd).
  assert (Pok : page_ok f).
  { destruct Pi as [(free & C & [Hi _] & _) Hf _ _ _ _]. by destruct (co_frame _ _ C i f ltac:(lia) Hf). }
  destruct (modify_ok pc1 i f (change f) fk ft p Pi Hk Hh (Ch f Pok)) as (Pi' & Hh' & N' & V').
  destruct (unpin_page_ok _ i (change f) fk ft p l2 Pi' Hk Hh') as (pc2 & E2 & Q2 & S2).
  exists i, f, pc1, pc2. split_and!; try done; [apply Pi|apply Pi| |].
  - intros. by rewrite (ss_pages _ _ S2), N', (ss_pages _ _ S1).
  - intros fk' ft' q Hk' Hq. rewrite (ss_view _ _ S2) by (done || (rewrite N', (ss_pages _ _ S1); done)).
    rewrite V' by done. by rewrite (ss_view _ _ S1).
Qed.

Definition zero_contents `{Sysconf} (f : page) : page := set_page_data f (replicate page_bytes 0).

Lemma pin_change_unpin_witness :
  exists pc i f pc1 pc2, pin_page (H := small_pages) pc 3 records node_ft true = Ok (i, pc1) /\
    frames pc1 !! Z.to_nat i = Some f /\
    unpin_page (H := small_pages) (set_frame pc1 i (zero_contents (H := small_pages) f)) 3 records node_ft true = Ok pc2 /\
    quiescent (H := small_pages) pc2.
Proof.
  destruct sample_quiescent as (pc & _ & Q & N & _).
  destruct (pin_change_unpin (H := small_pages) pc records node_ft 3 true true
              (zero_contents (H := small_pages)) Q) as (i & f & pc1 & pc2 & E1 & Hf & _ & _ & E2 & Q2 & _);
    [discriminate|rewrite N; lia| |exists pc, i, f, pc1, pc2; split_and!; [exact E1|exact Hf|exact E2|exact Q2]].
  intros f _. split; try reflexivity. apply free_page_ok.
Defined.

(** C37: [evict] on a quiescent cache in which every frame is in use writes back and frees
    the pages of the first eleven frames of the queue (of all frames, when there are
    fewer), in queue order, and no page changes its contents for a client. *)
Theorem evict_frees_lru `{Sysconf} (pc : page_cache) (q : list Z) (log : bool)
    (C : cache_ok pc []) (R : ring (recently_referenced pc) q) (N : NoDup q) (Hq : q <> [])
    (U : forall i, i ∈ q <-> used pc [] i) (P : forall f, f ∈ frames pc -> pin_count f = 0) :
  exists pc', evict pc log = Ok pc' /\ cache_ok pc' (take 11 q) /\ same_store pc pc' /\
    rep (recently_referenced pc') (drop 11 q) /\
    forall j, 0 <= j -> (j ∉ take 11 q) -> frames pc' !! Z.to_nat j = frames pc !! Z.to_nat j.
Proof.
  assert (Ev : evictable pc [] q).
  { intros x Hx. apply U in Hx. split; [done|]. destruct (cache_frame _ _ x C (proj1 Hx)) as [f Hf].
    exists f. split; [done|]. apply P. by eapply list_elem_of_lookup_2. }
  destruct (evict_ok pc [] q log C (ring_rep _ _ R) N Hq Ev) as (k & pc' & E & Hk & C' & S' & R' & F').
  assert (T : take k q = take 11 q /\ drop k q = drop 11 q).
  { subst k. destruct (Nat.min_spec (length q) 11) as [[? ->]|[? ->]]; [|done].
    rewrite !take_ge, !drop_ge by lia. done. }
  destruct T as [T1 T2]. rewrite T1 in C', F'. rewrite T2 in R'. by exists pc'.
Qed.

Lemma evict_frees_lru_witness :
  exists pc pc', cache_ok (H := small_pages) pc [] /\
    evict (H := small_pages) pc true = Ok pc' /\ cache_ok (H := small_pages) pc' [0].
Proof.
  destruct (create_ok (H := small_pages) ∅ "g" "l") as (db & fs & E & I & _ & Z0).
  pose proof new_db_pages as X'. rewrite E in X'. injection X' as _ X.
  change (df_num_pages (pdb_header db node_ft) = 1) in X.
  destruct (page_cache_create_quiescent (H := small_pages) db 1 "l" 1 I) as (pc & Ec & Q & Ep & En & _);
    [lia|vm_compute; discriminate|].
  destruct (pin_page_ok (H := small_pages) pc header node_ft 0 false Q) as (i & f & pc1 & _ & Pi & S1 & Hh & _);
    [discriminate|unfold n_pages; rewrite Ep; change (0 <= 0 < df_num_pages (pdb_header db node_ft)); lia|].
  destruct Pi as [(free & C & [Hi Hfr] & _) Hf _ _ _ _]. rewrite (ss_n _ _ S1), En in Hi.
  assert (i = 0) as -> by lia.
  assert (free = []) as ->.
  { destruct free as [|x free]; [reflexivity|]. exfalso. apply Hfr.
    assert (x ∈ x :: free) as Hx by left. pose proof (co_range _ _ C x Hx) as Hr.
    rewrite (ss_n _ _ S1), En in Hr. assert (x = 0) as -> by lia. exact Hx. }
  destruct (unpin_frame_ok (H := small_pages) pc1 0 f header node_ft 0 [] C Hf) as [C2 S2];
    [lia|discriminate|exact Hh|].
  destruct (append_ring linked_list_create [] 0 (ring_rep _ _ create_ring)) as (ll & _ & R).
  pose proof (co_n _ _ C2) as L2. rewrite (ss_n _ _ S2), (ss_n _ _ S1), En in L2.
  destruct (evict_frees_lru (H := small_pages) (set_recent (set_frame pc1 0 (with_pin f 0)) ll) [0] true)
    as (pc' & Ee & Ce & _).
  - destruct C2; split; assumption.
  - exact R.
  - apply NoDup_singleton.
  - discriminate.
  - intros j. rewrite list_elem_of_singleton. unfold used. cbn [n_frames set_recent set_frame].
    rewrite (ss_n _ _ S1), En. split; [intros ->; split; [lia|apply not_elem_of_nil]|intros [? _]; lia].
  - intros g Hg. apply list_elem_of_lookup_1 in Hg as [j Hj].
    assert (j = 0%nat) as ->.
    { pose proof (lookup_lt_Some _ _ _ Hj) as Hl. cbn [frames set_recent] in Hl. lia. }
    cbn [frames set_recent set_frame] in Hj. rewrite list_lookup_insert_eq in Hj
      by (by eapply lookup_lt_Some). injection Hj as <-. reflexivity.
  - exists (set_recent (set_frame pc1 0 (with_pin f 0)) ll), pc'.
    split; [destruct C2; split; assumption|]. split; [exact Ee|exact Ce].
Defined.

(** Pinning a page beyond the end of its file, or a catalogue page of the wrong type,
    and unpinning a page that is not cached, end the program. *)
Theorem pin_unpin_guards `{Sysconf} (pc : page_cache) (fk : file_kind) (ft : file_type) (p : Z)
    (log : bool) (Q : quiescent pc) :
  (n_pages pc fk ft <= p -> pin_page pc p fk ft log = Exit) /\
  pin_page pc p catalogue relationship_ft log = Exit /\
  (fk <> catalogue -> mapped pc fk ft p = None -> unpin_page pc p fk ft log = Exit) /\
  (fk <> catalogue -> 0 <= p -> unpin_page pc p fk ft log = Exit).
Proof.
  destruct Q as [(free & C & _) P _ _]. split_and!.
  - intros Hp. unfold pin_page. destruct (bool_decide _); [done|].
    unfold n_pages in Hp. rewrite (proj2 (Z.leb_le (df_num_pages _) _)) by done. by rewrite orb_true_r.
  - unfold pin_page. by rewrite bool_decide_true.
  - intros Hk Hm. destruct (contains_mapped pc free fk ft p C Hk) as (d & Ed & _ & _ & Hc & _).
    unfold unpin_page, dict_of. rewrite Ed. cbn [or_exit mbind res_bind]. rewrite Hc, Hm.
    by rewrite bool_decide_false by (by intros []).
  - intros Hk Hp. destruct (contains_mapped pc free fk ft p C Hk) as (d & Ed & _ & _ & Hc & Hg).
    unfold unpin_page, dict_of. rewrite Ed. cbn [or_exit mbind res_bind]. rewrite Hc.
    destruct (mapped pc fk ft p) as [i|] eqn:Em; [|by rewrite bool_decide_false by (by intros [])].
    rewrite bool_decide_true by eauto. cbn [negb mbind res_bind].
    destruct (_ || _); [done|]. rewrite Hg. cbn [or_exit mbind res_bind].
    destruct (co_mapped _ _ C _ _ _ _ Hk Em) as (Hi & f & Hf & _).
    unfold get_frame. rewrite Hf. cbn [deref mbind res_bind].
    by rewrite (P f) by (by eapply list_elem_of_lookup_2).
Qed.

Lemma pin_unpin_guards_witness :
  exists pc, sample_cache 2 = Ok pc /\
    pin_page (H := small_pages) pc 5 records node_ft true = Exit.
Proof.
  destruct sample_quiescent as (pc & E & Q & N & _). exists pc. split; [exact E|].
  apply (proj1 (pin_unpin_guards (H := small_pages) pc records node_ft 5 true Q)).
  rewrite N. lia.
Defined.

(** [new_page] on a quiescent cache allocates a record page and pins it: its contents
    are zero, it is the last page of the file, the pages that existed before look the
    same to clients and new header pages are zero. *)
Theorem new_page_spec `{Sysconf} (pc : page_cache) (ft : file_type) (log : bool)
    (Q : quiescent pc) (Hr : n_pages pc records ft + 1 < MAX_PAGE_NO)
    (Hh : n_pages pc header ft + SLOTS_PER_PAGE + 2 < MAX_PAGE_NO) :
  exists i f pc', new_page pc ft log = Ok (i, pc') /\ pinned pc' i f /\
    holds pc' i f records ft (n_pages pc records ft) /\ p_data f = replicate page_bytes 0 /\
    n_pages pc' records ft = n_pages pc records ft + 1 /\
    (forall fk ft' p, fk <> catalogue -> 0 <= p < n_pages pc fk ft' ->
       view pc' fk ft' p = view pc fk ft' p) /\
    (forall p, 0 <= p < n_pages pc' header ft -> n_pages pc header ft <= p ->
       view pc' header ft p = replicate page_bytes 0).
Proof.
  destruct (new_page_ok pc ft log Q Hr Hh) as (i & f & pc' & E & Pi & Hd & Hz & V & Vh & N & _).
  exists i, f, pc'. by split_and!.
Qed.

Lemma new_page_spec_witness :
  exists pc i f pc', sample_cache 2 = Ok pc /\
    new_page (H := small_pages) pc node_ft true = Ok (i, pc') /\ frames pc' !! Z.to_nat i = Some f /\
    p_data f = replicate 32 0.
Proof.
  destruct sample_quiescent as (pc & E & Q & N & Nh).
  destruct (new_page_spec (H := small_pages) pc node_ft true Q) as (i & f & pc' & En & Pi & _ & D & _);
    [rewrite N; vm_compute; reflexivity|rewrite Nh; vm_compute; reflexivity|].
  exists pc, i, f, pc'. split; [exact E|]. split; [exact En|]. split; [apply Pi|exact D].
Defined.

(** C36: destroying a quiescent cache makes everything durable: the database it leaves is
    consistent, and every page of its files is the page clients saw. *)
Theorem page_cache_destroy_durable `{Sysconf} (pc : page_cache) (Q : quiescent pc) :
  exists db, page_cache_destroy pc = Ok db /\ pdb_ok db /\
    (forall fk ft, df_num_pages (file_of db fk ft) = n_pages pc fk ft) /\
    forall fk ft p, fk <> catalogue -> 0 <= p < n_pages pc fk ft ->
      page_of (file_of db fk ft) p = view pc fk ft p.
Proof. by apply destroy_cache_ok. Qed.

Lemma page_cache_destroy_durable_witness :
  exists pc db, sample_cache 2 = Ok pc /\ page_cache_destroy (H := small_pages) pc = Ok db /\
    pdb_ok (H := small_pages) db.
Proof.
  destruct sample_quiescent as (pc & E & Q & _).
  destruct (page_cache_destroy_durable (H := small_pages) pc Q) as (db & Ed & I & _).
  exists pc, db. split; [exact E|]. split; [exact Ed|exact I].
Defined.

(** Changing the number of frames of a quiescent cache gives a quiescent cache of the
    new size through which every page looks the same. *)
Theorem page_cache_change_n_frames_ok `{Sysconf} (pc : page_cache) (n seed : Z)
    (Q : quiescent pc) (Hn : 1 <= n) (Hs : n * PAGE_SIZE <= SIZE_MAX) :
  exists pc', page_cache_change_n_frames pc n seed = Ok pc' /\ quiescent pc' /\ n_frames pc' = n /\
    (forall fk ft, n_pages pc' fk ft = n_pages pc fk ft) /\
    forall fk ft p, fk <> catalogue -> 0 <= p < n_pages pc fk ft ->
      view pc' fk ft p = view pc fk ft p.
Proof. by apply change_n_frames_ok. Qed.

Lemma page_cache_change_n_frames_ok_witness :
  exists pc pc', sample_cache 2 = Ok pc /\
    page_cache_change_n_frames (H := small_pages) pc 7 3 = Ok pc' /\ n_frames pc' = 7.
Proof.
  destruct sample_quiescent as (pc & E & Q & _).
  destruct (page_cache_change_n_frames_ok (H := small_pages) pc 7 3 Q) as (pc' & Ec & _ & N & _);
    [lia|vm_compute; discriminate|].
  exists pc, pc'. split; [exact E|]. split; [exact Ec|exact N].
Defined.

(** Pages unpinned during a bulk import are not queued, so that after it [evict] finds
    no candidate: on a cache of one frame whose only page was unpinned during the
    import, pinning another page ends the program although no page is pinned. *)
Theorem evict_after_bulk_import_exits :
  (pc ← sample_cache 1;
   pc ← pin_unpin (set_bulk_import pc true) 0;
   let pc := set_bulk_import pc false in
   Ok (map pin_count (frames pc), is_ok (pin_page (H := small_pages) pc 1 records node_ft false))) =
  Ok ([0], false).
Proof. vm_compute. reflexivity. Qed.

(** With nested pins the queue is used after free.  Three frames hold pages 0, 1 and 2;
    1 and 2 are pinned again, pinning 3 evicts 0, the head of the queue; unpinning 2
    and 1 rotates the freed node into the queue, and unpinning 3 follows it. *)
Theorem nested_pins_use_after_free :
  (let pin pc p := '(_, pc) ← pin_page (H := small_pages) pc p records node_ft false; Ok pc in
   let unpin pc p := unpin_page (H := small_pages) pc p records node_ft false in
   pc ← sample_cache 3;
   pc ← pin_unpin pc 0; pc ← pin_unpin pc 1; pc ← pin_unpin pc 2;
   pc ← pin pc 1; pc ← pin pc 2; pc ← pin pc 3;
   pc ← unpin pc 2; pc ← unpin pc 1;
   unpin pc 3) = Undef.
Proof. vm_compute. reflexivity. Qed.
