(* ===== verification/HeaderPage.v ===== *)
(** The bit arrays of src/access/header_page.c, and reading and writing bits of header
    pages through the page cache.

    A bit array is a list of bytes; bit 0 is the most significant bit of byte 0
    ([bit_at]).  A [page*] is the number of its frame.  The recursion of [read_bits]
    and [write_bits] into the next page has fuel 2: the call on the next page starts at
    its first bit, with fewer bits than a page has, and does not recurse. *)

From S2P Require Import Prelude Constants LinkedList DiskFile PhysicalDatabase Page PageCache.
From Stdlib Require Import ZArith Lia.
From stdpp Require Import base list option gmap strings.

#[local] Open Scope Z_scope.

(** ** Bit arrays *)

(** [n / CHAR_BIT + (n % CHAR_BIT != 0)] *)
Definition bytes_of_bits (n : Z) : Z := n / CHAR_BIT + (if n mod CHAR_BIT =? 0 then 0 else 1).

(** The two loops of [shift_bit_array]; the second goes from the last byte to the first
    and returns the carry out of the first. *)
Fixpoint shift_right_loop (n carry_mask carry : Z) (ar : list Z) : list Z :=
  match ar with
  | [] => []
  | b :: ar' =>
      u8 (Z.lor (Z.shiftl carry (CHAR_BIT - n)) (Z.shiftr b n))
        :: shift_right_loop n carry_mask (Z.land b carry_mask) ar'
  end.
Fixpoint shift_left_loop (n carry_mask : Z) (ar : list Z) : list Z * Z :=
  match ar with
  | [] => ([], 0)
  | b :: ar' =>
      let '(r, carry) := shift_left_loop n carry_mask ar' in
      (u8 (Z.lor (Z.shiftr carry (CHAR_BIT - n)) (Z.shiftl b n)) :: r, Z.land b carry_mask)
  end.

Definition shift_bit_array (ar : list Z) (size n_bits : Z) : res (list Z) :=
  if (size <? u32 (Z.abs n_bits)) || (CHAR_BIT <? Z.abs n_bits) || (CHAR_BIT <? n_bits) then Exit
  else if n_bits =? 0 then Ok ar
  else
    let carry_mask :=
      if 0 <? n_bits then Z.shiftr UCHAR_MAX (CHAR_BIT - n_bits)
      else u8 (Z.shiftl UCHAR_MAX (CHAR_BIT - Z.abs n_bits)) in
    let n_bytes := Z.to_nat (bytes_of_bits size) in
    if (length ar <? n_bytes)%nat then Undef
    else
      Ok ((if 0 <? n_bits then shift_right_loop n_bits carry_mask 0 (take n_bytes ar)
           else (shift_left_loop (Z.abs n_bits) carry_mask (take n_bytes ar)).1)
          ++ drop n_bytes ar).

Definition compare_bits (ar : list Z) (size mask offset n_bits : Z) : res bool :=
  if (size <? offset + n_bits) || (CHAR_BIT <? n_bits) then Exit
  else
    let start_byte := Z.to_nat (offset / CHAR_BIT) in
    let bit_offset := offset mod CHAR_BIT in
    let mask := Z.land mask (Z.shiftr UCHAR_MAX (CHAR_BIT - n_bits)) in
    if (bit_offset =? 0) || (bit_offset + n_bits <=? CHAR_BIT) then
      m ← shift_bit_array [mask] CHAR_BIT (- (CHAR_BIT - n_bits) + bit_offset);
      m ← deref (head m);
      let data_mask := Z.land (u8 (Z.shiftl UCHAR_MAX (CHAR_BIT - (n_bits + bit_offset))))
                         (Z.shiftr UCHAR_MAX bit_offset) in
      b ← deref (ar !! start_byte);
      Ok (Z.land b data_mask =? m)
    else
      let upper_mask := Z.shiftr UCHAR_MAX bit_offset in
      let lower_mask := u8 (Z.shiftl UCHAR_MAX (CHAR_BIT - n_bits + CHAR_BIT - bit_offset)) in
      b0 ← deref (ar !! start_byte);
      b1 ← deref (ar !! S start_byte);
      r ← shift_bit_array [Z.land b0 upper_mask; Z.land b1 lower_mask] (2 * CHAR_BIT)
            (CHAR_BIT - bit_offset - n_bits);
      r ← deref (head r);
      Ok (r =? mask).

Definition concat_bit_arrays (first second : list Z) (n_bits_fst n_bits_snd : Z) : res (list Z) :=
  if (LONG_MAX <? n_bits_fst) || (LONG_MAX <? n_bits_snd) then Exit
  else
    let result_size := bytes_of_bits (n_bits_fst + n_bits_snd) in
    let first_size := bytes_of_bits n_bits_fst in
    if Z.of_nat (length first) <? first_size then Undef
    else
      let zeros := replicate (Z.to_nat (result_size - first_size)) 0 in
      first ← shift_bit_array (take (Z.to_nat first_size) first ++ zeros) n_bits_fst
                (result_size * CHAR_BIT - n_bits_fst - n_bits_snd);
      first ← (if n_bits_fst mod CHAR_BIT =? 0 then Ok first
               else if 23 <? n_bits_snd then Undef
               else
                 f ← deref (first !! Z.to_nat (first_size - 1));
                 s ← deref (second !! 0%nat);
                 mem_set first (Z.to_nat (first_size - 1))
                   (Z.lor (Z.land f (u8 (Z.shiftl UCHAR_MAX n_bits_snd)))
                      (Z.land s (Z.shiftr UCHAR_MAX n_bits_snd))));
      if Z.of_nat (length second) <? result_size - first_size then Undef
      else Ok (take (Z.to_nat first_size) first ++ take (Z.to_nat (result_size - first_size)) second).

(** The array with the most significant bits and the one with the least significant. *)
Definition split_bit_array (ar : list Z) (size split_at_bit : Z) : res (list Z * list Z) :=
  let first_size := bytes_of_bits split_at_bit in
  if size <? first_size then Exit
  else
    let unaligned := if split_at_bit mod CHAR_BIT =? 0 then 0 else 1 in
    let second_size := size / CHAR_BIT - first_size + unaligned in
    let start := Z.to_nat (split_at_bit / CHAR_BIT) in
    if (second_size <=? 0) || (Z.of_nat (length ar) <? Z.of_nat start + second_size) then Undef
    else
      let second := slice ar start (Z.to_nat second_size) in
      s0 ← deref (head second);
      let second := <[0%nat := Z.land s0 (Z.shiftr UCHAR_MAX (split_at_bit mod CHAR_BIT))]> second in
      ar ← shift_bit_array ar size (split_at_bit mod CHAR_BIT);
      Ok (take (Z.to_nat first_size) ar, second).

(** ** Bits of pages *)

Section Bits.
Context `{Sysconf}.

(** The part of [read_bits] that reads from one page. *)
Definition read_bits_page (data : list Z) (byte_offset : nat) (bit_offset n_bits : Z) : res (list Z) :=
  let n_bytes_result := bytes_of_bits n_bits in
  let n_bytes_read := bytes_of_bits (bit_offset + n_bits) in
  let shift := n_bytes_read * CHAR_BIT - (n_bits + bit_offset) in
  let carry_mask := Z.shiftr UCHAR_MAX (CHAR_BIT - shift) in
  if (n_bytes_result =? 0) || (length data <? byte_offset + Z.to_nat n_bytes_read)%nat then Undef
  else
    b0 ← deref (data !! byte_offset);
    let r0 := Z.land b0 (Z.shiftr UCHAR_MAX bit_offset) in
    let rest := shift_right_loop shift carry_mask (Z.land r0 carry_mask)
                  (slice data (S byte_offset) (Z.to_nat (n_bytes_read - 1))) in
    Ok (if n_bytes_result <? n_bytes_read then rest else r0 :: rest).

Fixpoint read_bits_fuel (fuel : nat) (pc : page_cache) (p : Z) (byte_offset bit_offset n_bits : Z)
    (log : bool) : res (list Z * page_cache) :=
  match fuel with
  | O => NoFuel
  | S fuel' =>
      f ← get_frame pc p;
      if (CHAR_BIT - 1 <? bit_offset) || (PAGE_SIZE - 1 <? byte_offset)
         || (PAGE_SIZE * CHAR_BIT - 1 <? n_bits) then Exit
      else if PAGE_SIZE <? byte_offset + bytes_of_bits (bit_offset + n_bits) then
        let bits_to_page_boundary := (PAGE_SIZE - byte_offset) * CHAR_BIT - bit_offset in
        let n_bits_split_read := n_bits - bits_to_page_boundary in
        match p_fk f, p_ft f with
        | Some fk, Some ft =>
            '(next_page, pc) ← pin_page pc (p_no f + 1) fk ft log;
            '(second_part, pc) ← read_bits_fuel fuel' pc next_page 0 0 n_bits_split_read log;
            pc ← unpin_page pc (p_no f + 1) fk ft log;
            f ← get_frame pc p;
            result ← read_bits_page (p_data f) (Z.to_nat byte_offset) bit_offset bits_to_page_boundary;
            result ← concat_bit_arrays result second_part
                       (bytes_of_bits bits_to_page_boundary * CHAR_BIT)
                       (bytes_of_bits n_bits_split_read * CHAR_BIT);
            Ok (result, pc)
        | _, _ => Undef
        end
      else
        result ← read_bits_page (p_data f) (Z.to_nat byte_offset) bit_offset n_bits;
        Ok (result, pc)
  end.
Definition read_bits (pc : page_cache) (p : Z) (byte_offset bit_offset n_bits : Z) (log : bool)
    : res (list Z * page_cache) :=
  read_bits_fuel 2 pc p byte_offset bit_offset n_bits log.

(** The bits of the page that stay: [mask]. *)
Definition write_mask (n_bytes_write bit_offset n_bits : Z) : list Z :=
  let mask := replicate (Z.to_nat n_bytes_write) 0 in
  let mask := alter (fun m => Z.lor m (u8 (Z.shiftl UCHAR_MAX (CHAR_BIT - bit_offset)))) 0%nat mask in
  if (n_bits + bit_offset) mod CHAR_BIT =? 0 then mask
  else alter (fun m => Z.lor m (Z.shiftr UCHAR_MAX (n_bits mod CHAR_BIT + bit_offset)))
         (Z.to_nat n_bytes_write - 1)%nat mask.

(** The part of [write_bits] that writes to one page. *)
Definition write_bits_page (page_data : list Z) (byte_offset : nat) (bit_offset n_bits : Z)
    (data : list Z) : res (list Z) :=
  let n_bytes_write := bytes_of_bits (bit_offset + n_bits) in
  let n_bytes_data := bytes_of_bits n_bits in
  if (length page_data <? byte_offset + Z.to_nat n_bytes_write)%nat
     || (length data <? Z.to_nat n_bytes_data)%nat then Undef
  else
    d0 ← deref (head data);
    let data := <[0%nat := Z.land d0 (Z.shiftr UCHAR_MAX (n_bytes_data * CHAR_BIT - n_bits))]> data in
    let shifted_data :=
      if n_bytes_data <? n_bytes_write
      then take (Z.to_nat n_bytes_data) data ++ replicate (Z.to_nat (n_bytes_write - n_bytes_data)) 0
      else data in
    shifted_data ← shift_bit_array shifted_data (n_bytes_write * CHAR_BIT)
                     (- (n_bytes_data * CHAR_BIT - n_bits) + bit_offset);
    let old := slice page_data byte_offset (Z.to_nat n_bytes_write) in
    let kept := zip_with Z.land old (write_mask n_bytes_write bit_offset n_bits) in
    Ok (splice page_data byte_offset (zip_with Z.lor kept shifted_data)).

Fixpoint write_bits_fuel (fuel : nat) (pc : page_cache) (p : Z) (byte_offset bit_offset n_bits : Z)
    (data : list Z) (log : bool) : res page_cache :=
  match fuel with
  | O => NoFuel
  | S fuel' =>
      f ← get_frame pc p;
      if (CHAR_BIT - 1 <? bit_offset) || (PAGE_SIZE - 1 <? byte_offset)
         || (PAGE_SIZE * CHAR_BIT - 1 <? n_bits) || (n_bits <? 1) then Exit
      else if PAGE_SIZE <? byte_offset + bytes_of_bits (bit_offset + n_bits) then
        let bits_to_page_boundary := (PAGE_SIZE - byte_offset) * CHAR_BIT - bit_offset in
        let n_bits_split_write := n_bits - bits_to_page_boundary in
        match p_fk f, p_ft f with
        | Some fk, Some ft =>
            '(data0, data1) ← split_bit_array data (bytes_of_bits n_bits * CHAR_BIT) n_bits_split_write;
            '(next_page, pc) ← pin_page pc (p_no f + 1) fk ft log;
            pc ← write_bits_fuel fuel' pc next_page 0 0 n_bits_split_write data1 log;
            pc ← unpin_page pc (p_no f + 1) fk ft log;
            f ← get_frame pc p;
            d ← write_bits_page (p_data f) (Z.to_nat byte_offset) bit_offset bits_to_page_boundary data0;
            Ok (set_frame pc p (set_page_data f d))
        | _, _ => Undef
        end
      else
        d ← write_bits_page (p_data f) (Z.to_nat byte_offset) bit_offset n_bits data;
        Ok (set_frame pc p (set_page_data f d))
  end.
Definition write_bits (pc : page_cache) (p : Z) (byte_offset bit_offset n_bits : Z) (data : list Z)
    (log : bool) : res page_cache :=
  write_bits_fuel 2 pc p byte_offset bit_offset n_bits data log.
End Bits.

(** ** Specification *)

(** Bit [k] of a bit array. *)
Definition bit_at (ar : list Z) (k : Z) : bool :=
  match ar !! Z.to_nat (k / 8) with Some b => Z.testbit b (7 - k mod 8) | None => false end.

(** ** Lemmas on bytes and their bits *)

Lemma byte_cases n : 0 <= n <= 8 ->
  n = 0 \/ n = 1 \/ n = 2 \/ n = 3 \/ n = 4 \/ n = 5 \/ n = 6 \/ n = 7 \/ n = 8.
Proof. lia. Qed.
Ltac each_bit_count Hn :=
  destruct (byte_cases _ Hn) as [-> | [-> | [-> | [-> | [-> | [-> | [-> | [-> | ->]]]]]]]].

Lemma low_mask n : 0 <= n <= 8 -> Z.shiftr UCHAR_MAX (CHAR_BIT - n) = Z.ones n.
Proof. intros Hn. each_bit_count Hn; reflexivity. Qed.
Lemma low_mask' n : 0 <= n <= 8 -> Z.shiftr UCHAR_MAX n = Z.ones (8 - n).
Proof. intros Hn. each_bit_count Hn; reflexivity. Qed.
Lemma high_mask n : 0 <= n <= 8 -> u8 (Z.shiftl UCHAR_MAX (CHAR_BIT - n)) = Z.shiftl (Z.ones n) (8 - n).
Proof. intros Hn. each_bit_count Hn; reflexivity. Qed.

Lemma ones_bit n m : 0 <= n -> Z.testbit (Z.ones n) m = (0 <=? m) && (m <? n).
Proof.
  intros Hn. destruct (Z.leb_spec 0 m); [|by rewrite Z.testbit_neg_r].
  destruct (Z.ltb_spec m n); [by apply Z.ones_spec_low|by apply Z.ones_spec_high].
Qed.

Lemma u8_bit x j : Z.testbit (u8 x) j = (j <? 8) && Z.testbit x j.
Proof.
  unfold u8. destruct (Z.ltb_spec j 8) as [Hj|Hj]; simpl.
  - destruct (Z.leb_spec 0 j); [by apply Z.mod_pow2_bits_low|by rewrite !Z.testbit_neg_r].
  - by apply Z.mod_pow2_bits_high.
Qed.

Lemma byte_bit b j : is_byte b -> 8 <= j -> Z.testbit b j = false.
Proof.
  intros [H0 H1] Hj. destruct (Z.eq_dec b 0) as [->|]; [apply Z.testbit_0_l|].
  apply Z.bits_above_log2; [done|]. apply Z.log2_lt_pow2; [lia|].
  apply Z.lt_le_trans with (2 ^ 8); [done|]. by apply Z.pow_le_mono_r.
Qed.

Lemma byte_eq a b : is_byte a -> is_byte b ->
  (forall j, 0 <= j < 8 -> Z.testbit a j = Z.testbit b j) -> a = b.
Proof.
  intros Ha Hb E. apply Z.bits_inj'. intros j Hj. destruct (Z.lt_ge_cases j 8); [by apply E|].
  by rewrite !byte_bit.
Qed.

Lemma land_byte a b : is_byte a -> 0 <= b -> is_byte (Z.land a b).
Proof.
  intros Ha Hb. split; [apply Z.land_nonneg; left; apply Ha|].
  destruct (Z.eq_dec (Z.land a b) 0) as [->|Hn]; [done|].
  assert (0 < Z.land a b) by (pose proof (proj2 (Z.land_nonneg a b) (or_introl (proj1 Ha))); lia).
  apply Z.log2_lt_cancel. change (Z.log2 256) with 8.
  destruct (Z.lt_ge_cases (Z.log2 (Z.land a b)) 8); [done|].
  pose proof (Z.bit_log2 (Z.land a b) ltac:(done)) as B. rewrite Z.land_spec in B.
  rewrite byte_bit in B by done. done.
Qed.

Lemma shift_right_loop_lookup n mask c ar i b :
  ar !! i = Some b ->
  shift_right_loop n mask c ar !! i =
    Some (u8 (Z.lor (Z.shiftl (match i with O => c | S i' =>
                                 match ar !! i' with Some a => Z.land a mask | None => 0 end end)
                       (CHAR_BIT - n)) (Z.shiftr b n))).
Proof.
  revert c i. induction ar as [|a ar IH]; intros c i Hi; [done|].
  destruct i as [|i]; simpl in *; [by injection Hi as ->|].
  rewrite (IH _ i Hi). by destruct i.
Qed.
Lemma length_shift_right_loop n mask c ar : length (shift_right_loop n mask c ar) = length ar.
Proof. revert c. induction ar; intros; simpl; congruence. Qed.

Lemma shift_left_loop_carry n mask ar :
  (shift_left_loop n mask ar).2 = match head ar with Some b => Z.land b mask | None => 0 end.
Proof. destruct ar as [|b ar]; [done|]. simpl. by destruct (shift_left_loop n mask ar). Qed.
Lemma shift_left_loop_cons n mask b ar :
  (shift_left_loop n mask (b :: ar)).1 =
    u8 (Z.lor (Z.shiftr (match head ar with Some b => Z.land b mask | None => 0 end) (CHAR_BIT - n))
          (Z.shiftl b n)) :: (shift_left_loop n mask ar).1.
Proof.
  simpl. pose proof (shift_left_loop_carry n mask ar) as E.
  destruct (shift_left_loop n mask ar) as [r c]. simpl in *. by rewrite E.
Qed.
Lemma shift_left_loop_lookup n mask ar i b :
  ar !! i = Some b ->
  (shift_left_loop n mask ar).1 !! i =
    Some (u8 (Z.lor (Z.shiftr (match ar !! S i with Some a => Z.land a mask | None => 0 end)
                       (CHAR_BIT - n)) (Z.shiftl b n))).
Proof.
  revert i. induction ar as [|a ar IH]; intros i Hi; [done|]. rewrite shift_left_loop_cons.
  destruct i as [|i]; simpl in *; [|by apply IH].
  injection Hi as ->. by destruct ar.
Qed.
Lemma length_shift_left_loop n mask ar : length (shift_left_loop n mask ar).1 = length ar.
Proof. induction ar; [done|]. rewrite shift_left_loop_cons. simpl. congruence. Qed.

(** A bit of a byte, addressed from the byte's end. *)
Lemma bit_at_byte ar i j : 0 <= j < 8 ->
  bit_at ar (8 * Z.of_nat i + (7 - j)) = match ar !! i with Some b => Z.testbit b j | None => false end.
Proof.
  intros Hj. unfold bit_at.
  replace (Z.to_nat ((8 * Z.of_nat i + (7 - j)) / 8)) with i by lia.
  by replace (7 - (8 * Z.of_nat i + (7 - j)) mod 8) with j by lia.
Qed.
Lemma bit_split k : 0 <= k -> exists i j, 0 <= j < 8 /\ k = 8 * Z.of_nat i + (7 - j).
Proof. intros. exists (Z.to_nat (k / 8)), (7 - k mod 8). lia. Qed.
Lemma bit_at_beyond ar k : 8 * Z.of_nat (length ar) <= k -> bit_at ar k = false.
Proof. intros. unfold bit_at. by rewrite lookup_ge_None_2 by lia. Qed.

(** ** [shift_bit_array] *)

Lemma lookup_byte (ar : list Z) i b : Forall is_byte ar -> ar !! i = Some b -> is_byte b.
Proof. intros F E. by eapply Forall_lookup_1 in E. Qed.

Lemma shift_right_bits n ar k :
  Forall is_byte ar -> 0 < n <= 8 -> 0 <= k < 8 * Z.of_nat (length ar) ->
  bit_at (shift_right_loop n (Z.ones n) 0 ar) k = if k <? n then false else bit_at ar (k - n).
Proof.
  intros F Hn Hk. destruct (bit_split k ltac:(lia)) as (i & j & Hj & ->).
  rewrite bit_at_byte by done.
  destruct (lookup_lt_is_Some_2 ar i ltac:(lia)) as [b Hb].
  rewrite (shift_right_loop_lookup _ _ _ _ _ _ Hb), u8_bit, Z.lor_spec, Z.shiftl_spec, Z.shiftr_spec
    by lia.
  rewrite (proj2 (Z.ltb_lt j 8)) by lia. cbn [andb]. unfold CHAR_BIT.
  pose proof (lookup_byte _ _ _ F Hb) as Bb.
  destruct (Z.lt_ge_cases (j + n) 8) as [Hs|Hs].
  - rewrite (Z.testbit_neg_r _ (j - (8 - n))) by lia. cbn [orb].
    rewrite (proj2 (Z.ltb_ge _ _)) by lia.
    replace (8 * Z.of_nat i + (7 - j) - n) with (8 * Z.of_nat i + (7 - (j + n))) by lia.
    rewrite bit_at_byte by lia. by rewrite Hb.
  - rewrite (byte_bit b (j + n)), orb_false_r by (done || lia). destruct i as [|i].
    + rewrite (proj2 (Z.ltb_lt _ _)) by lia. apply Z.testbit_0_l.
    + rewrite (proj2 (Z.ltb_ge _ _)) by lia.
      replace (8 * Z.of_nat (S i) + (7 - j) - n) with (8 * Z.of_nat i + (7 - (j + n - 8))) by lia.
      rewrite bit_at_byte by lia. destruct (ar !! i) as [a|]; [|apply Z.testbit_0_l].
      rewrite Z.land_spec, ones_bit by lia. rewrite (proj2 (Z.leb_le _ _)), (proj2 (Z.ltb_lt _ _)) by lia.
      cbn [andb]. rewrite andb_true_r. f_equal. lia.
Qed.

Lemma shift_left_bits n ar k :
  Forall is_byte ar -> 0 < n <= 8 -> 0 <= k < 8 * Z.of_nat (length ar) ->
  bit_at (shift_left_loop n (Z.shiftl (Z.ones n) (8 - n)) ar).1 k = bit_at ar (k + n).
Proof.
  intros F Hn Hk. destruct (bit_split k ltac:(lia)) as (i & j & Hj & ->).
  rewrite bit_at_byte by done.
  destruct (lookup_lt_is_Some_2 ar i ltac:(lia)) as [b Hb].
  rewrite (shift_left_loop_lookup _ _ _ _ _ Hb), u8_bit, Z.lor_spec, Z.shiftl_spec, Z.shiftr_spec
    by lia.
  rewrite (proj2 (Z.ltb_lt j 8)) by lia. cbn [andb]. unfold CHAR_BIT.
  destruct (Z.lt_ge_cases j n) as [Hs|Hs].
  - rewrite (Z.testbit_neg_r b), orb_false_r by lia.
    replace (8 * Z.of_nat i + (7 - j) + n) with (8 * Z.of_nat (S i) + (7 - (j + (8 - n)))) by lia.
    rewrite bit_at_byte by lia. destruct (ar !! S i) as [a|]; [|apply Z.testbit_0_l].
    rewrite Z.land_spec, Z.shiftl_spec, ones_bit by lia.
    rewrite (proj2 (Z.leb_le _ _)), (proj2 (Z.ltb_lt _ _)) by lia. by rewrite andb_true_r.
  - replace (8 * Z.of_nat i + (7 - j) + n) with (8 * Z.of_nat i + (7 - (j - n))) by lia.
    rewrite bit_at_byte, Hb by lia.
    destruct (Z.testbit _ (j + (8 - n))) eqn:E; [|done]. exfalso.
    destruct (ar !! S i) as [a|] eqn:Ea; [|by rewrite Z.testbit_0_l in E].
    rewrite Z.land_spec, byte_bit in E; [done|by eapply lookup_byte|lia].
Qed.

Lemma shift_right_bytes n mask c ar : Forall is_byte (shift_right_loop n mask c ar).
Proof. revert c. induction ar; intros; simpl; constructor; [apply u8_byte|done]. Qed.
Lemma shift_left_bytes n mask ar : Forall is_byte (shift_left_loop n mask ar).1.
Proof. induction ar; [constructor|]. rewrite shift_left_loop_cons. constructor; [apply u8_byte|done]. Qed.

(** Shifting a whole number of bytes: a positive amount moves the bits to higher
    positions, a negative one to lower positions; zeros come in. *)
Lemma shift_array_ok ar n :
  Forall is_byte ar -> -8 <= n <= 8 -> Z.abs n <= 8 * Z.of_nat (length ar) ->
  exists ar', shift_bit_array ar (8 * Z.of_nat (length ar)) n = Ok ar' /\
    length ar' = length ar /\ Forall is_byte ar' /\
    forall k, 0 <= k < 8 * Z.of_nat (length ar) ->
      bit_at ar' k = if k <? n then false else bit_at ar (k - n).
Proof.
  intros F Hn Hs. unfold shift_bit_array.
  rewrite (u32_small (Z.abs n)) by lia. unfold CHAR_BIT at 1 2.
  rewrite (proj2 (Z.ltb_ge _ (Z.abs n))), (proj2 (Z.ltb_ge 8 _)), (proj2 (Z.ltb_ge 8 n)) by lia.
  cbn [orb].
  destruct (Z.eqb_spec n 0) as [->|Hn0].
  { exists ar. split_and!; [done|done|done|]. intros k Hk. rewrite (proj2 (Z.ltb_ge _ _)) by lia.
    f_equal. lia. }
  assert (Eb : Z.to_nat (bytes_of_bits (8 * Z.of_nat (length ar))) = length ar).
  { unfold bytes_of_bits, CHAR_BIT. destruct (Z.eqb_spec ((8 * Z.of_nat (length ar)) mod 8) 0); lia. }
  rewrite Eb, (proj2 (Nat.ltb_ge _ _)), take_ge, drop_ge, app_nil_r by lia.
  destruct (Z.ltb_spec 0 n).
  - rewrite low_mask by lia. eexists. split; [reflexivity|].
    split_and!; [by apply length_shift_right_loop|apply shift_right_bytes|].
    intros k Hk. apply shift_right_bits; [done|lia|done].
  - rewrite high_mask by lia. eexists. split; [reflexivity|].
    split_and!; [by apply length_shift_left_loop|apply shift_left_bytes|].
    intros k Hk. rewrite (proj2 (Z.ltb_ge k n)) by lia.
    replace (k - n) with (k + Z.abs n) by lia. apply shift_left_bits; [done|lia|done].
Qed.

(** ** [compare_bits] *)

Lemma byte_eqb a b : is_byte a -> is_byte b ->
  (a =? b) = true <-> forall j, 0 <= j < 8 -> Z.testbit a j = Z.testbit b j.
Proof.
  intros Ha Hb. rewrite Z.eqb_eq. split; [by intros ->|by apply byte_eq].
Qed.

Lemma ones_byte n : 0 <= n <= 8 -> is_byte (Z.ones n).
Proof. intros Hn. unfold is_byte. each_bit_count Hn; vm_compute; split; (discriminate || reflexivity). Qed.

Lemma land_ones_bit b n j : 0 <= n -> 0 <= j ->
  Z.testbit (Z.land b (Z.ones n)) j = Z.testbit b j && (j <? n).
Proof. intros. rewrite Z.land_spec, ones_bit by done. by rewrite (proj2 (Z.leb_le _ _)) by done. Qed.

(** The byte in which a shifted single byte results. *)
Lemma shift_one m n : is_byte m -> -8 <= n <= 8 ->
  exists r, shift_bit_array [m] CHAR_BIT n = Ok [r] /\ is_byte r /\
    forall j, 0 <= j < 8 ->
      Z.testbit r j = (if 7 - j <? n then false else bit_at [m] (7 - j - n)).
Proof.
  intros Hm Hn. destruct (shift_array_ok [m] n) as (ar' & E & L & F & B); [by constructor|done|simpl; lia|].
  destruct ar' as [|r [|]]; try discriminate L. exists r. split; [exact E|].
  split; [by inversion F|]. intros j Hj. rewrite <- B by (simpl; lia).
  symmetry. exact (bit_at_byte [r] 0 j Hj).
Qed.

Lemma compare_inside b m o n :
  is_byte b -> is_byte m -> 0 <= o -> 1 <= n -> o + n <= 8 ->
  exists r, shift_bit_array [Z.land m (Z.ones n)] CHAR_BIT (- (CHAR_BIT - n) + o) = Ok [r] /\
    ((Z.land b (Z.land (Z.shiftl (Z.ones (n + o)) (8 - (n + o))) (Z.ones (8 - o))) =? r) = true <->
     forall j, 0 <= j < n -> Z.testbit b (7 - o - j) = Z.testbit m (n - 1 - j)).
Proof.
  intros Hb Hm Ho Hn Hs. set (m0 := Z.land m (Z.ones n)).
  assert (Bm : is_byte m0) by (apply land_byte; [done|apply ones_byte; lia]).
  destruct (shift_one m0 (- (8 - n) + o) Bm ltac:(lia)) as (r & E & Br & R).
  exists r. split; [exact E|]. rewrite byte_eqb; [|apply land_byte; [done|]|done].
  2: { apply Z.land_nonneg. left. apply Z.shiftl_nonneg. apply ones_byte. lia. }
  assert (L : forall j, 0 <= j < 8 ->
    Z.testbit (Z.land b (Z.land (Z.shiftl (Z.ones (n + o)) (8 - (n + o))) (Z.ones (8 - o)))) j =
    Z.testbit b j && ((8 - (n + o) <=? j) && (j <? 8 - o))).
  { intros j Hj. rewrite Z.land_spec, land_ones_bit, Z.shiftl_spec, ones_bit by lia. f_equal. f_equal.
    rewrite (proj2 (Z.ltb_lt (j - (8 - (n + o))) (n + o))), andb_true_r by lia.
    apply eq_iff_eq_true. rewrite !Z.leb_le. lia. }
  assert (R' : forall j, 0 <= j < 8 ->
    Z.testbit r j = (8 - (n + o) <=? j) && (Z.testbit m (j - (8 - (n + o))) && (j <? 8 - o))).
  { intros j Hj. rewrite R by done. rewrite (proj2 (Z.ltb_ge _ _)) by lia.
    destruct (Z.leb_spec (8 - (n + o)) j) as [Hl|Hl]; cbn [andb].
    - replace (7 - j - (- (8 - n) + o)) with (8 * Z.of_nat 0 + (7 - (j - (8 - (n + o))))) by lia.
      rewrite bit_at_byte by lia. unfold m0. cbn [lookup list_lookup]. rewrite land_ones_bit by lia.
      f_equal. apply eq_iff_eq_true. rewrite !Z.ltb_lt. lia.
    - apply bit_at_beyond. simpl. lia. }
  split; intros A j Hj.
  - specialize (A (7 - o - j) ltac:(lia)). rewrite L, R' in A by lia.
    rewrite (proj2 (Z.leb_le _ _)), (proj2 (Z.ltb_lt _ _)), andb_true_r in A by lia.
    cbn [andb] in A. rewrite andb_true_r in A. rewrite A. f_equal. lia.
  - rewrite L, R' by done. destruct (Z.leb_spec (8 - (n + o)) j); [|by rewrite andb_false_r].
    destruct (Z.ltb_spec j (8 - o)); [|by rewrite !andb_false_r]. cbn [andb]. rewrite !andb_true_r.
    specialize (A (7 - o - j) ltac:(lia)). replace (7 - o - (7 - o - j)) with j in A by lia.
    rewrite A. f_equal. lia.
Qed.

Lemma compare_across b0 b1 m o n :
  is_byte b0 -> is_byte b1 -> is_byte m -> 0 <= o < 8 -> 1 <= n <= 8 -> 8 < o + n ->
  exists r1 r2, shift_bit_array [Z.land b0 (Z.ones (8 - o));
                             Z.land b1 (Z.shiftl (Z.ones (o + n - 8)) (8 - (o + n - 8)))]
                  (2 * CHAR_BIT) (CHAR_BIT - o - n) = Ok [r1; r2] /\
    ((r1 =? Z.land m (Z.ones n)) = true <->
     forall j, 0 <= j < n -> bit_at [b0; b1] (o + j) = Z.testbit m (n - 1 - j)).
Proof.
  intros H0 H1 Hm Ho Hn Hs. set (c0 := Z.land b0 _). set (c1 := Z.land b1 _).
  assert (B0 : is_byte c0) by (apply land_byte; [done|apply ones_byte; lia]).
  assert (B1 : is_byte c1)
    by (apply land_byte; [done|apply Z.shiftl_nonneg, ones_byte; lia]).
  destruct (shift_array_ok [c0; c1] (8 - o - n)) as (ar & E & L & F & B);
    [constructor; [exact B0|constructor; [exact B1|constructor]]|lia|simpl; lia|].
  destruct ar as [|r1 [|r2 [|]]]; try discriminate L. exists r1, r2. split; [exact E|].
  inversion F as [|? ? Br1 _]; subst.
  assert (R : forall j, 0 <= j < 8 -> Z.testbit r1 j = bit_at [b0; b1] (o + (n - 1 - j)) && (j <? n)).
  { intros j Hj. pose proof (bit_at_byte [r1; r2] 0 j Hj) as X. cbn [lookup list_lookup] in X.
    rewrite <- X. rewrite B by (simpl; lia). rewrite (proj2 (Z.ltb_ge _ _)) by lia.
    destruct (Z.lt_ge_cases j (o + n - 8)) as [Hc|Hc].
    - replace (8 * Z.of_nat 0 + (7 - j) - (8 - o - n))
        with (8 * Z.of_nat 1 + (7 - (j + 8 - (o + n - 8)))) by lia.
      replace (o + (n - 1 - j)) with (8 * Z.of_nat 1 + (7 - (j + 8 - (o + n - 8)))) by lia.
      rewrite !bit_at_byte by lia. cbn [lookup list_lookup]. unfold c1.
      rewrite Z.land_spec, Z.shiftl_spec, ones_bit by lia.
      rewrite (proj2 (Z.leb_le _ _)), (proj2 (Z.ltb_lt _ _)), (proj2 (Z.ltb_lt j n)) by lia.
      by rewrite !andb_true_r.
    - replace (8 * Z.of_nat 0 + (7 - j) - (8 - o - n))
        with (8 * Z.of_nat 0 + (7 - (j - (o + n - 8)))) by lia.
      rewrite bit_at_byte by lia. cbn [lookup list_lookup]. unfold c0. rewrite land_ones_bit by lia.
      destruct (Z.ltb_spec j n).
      + replace (o + (n - 1 - j)) with (8 * Z.of_nat 0 + (7 - (j - (o + n - 8)))) by lia.
        rewrite bit_at_byte by lia. cbn [lookup list_lookup]. f_equal. apply Z.ltb_lt. lia.
      + rewrite andb_false_r. rewrite (proj2 (Z.ltb_ge _ _)) by lia. apply andb_false_r. }
  rewrite byte_eqb; [|done|apply land_byte; [done|apply ones_byte; lia]].
  split; intros A j Hj.
  - specialize (A (n - 1 - j) ltac:(lia)). rewrite R, land_ones_bit in A by lia.
    rewrite (proj2 (Z.ltb_lt _ _)), !andb_true_r in A by lia. rewrite <- A. f_equal. lia.
  - rewrite R, land_ones_bit by lia. destruct (Z.ltb_spec j n); [|by rewrite !andb_false_r].
    rewrite !andb_true_r. rewrite A by lia. f_equal. lia.
Qed.

Lemma compare_ok ar mask off n :
  Forall is_byte ar -> is_byte mask -> 0 <= off -> 1 <= n <= 8 -> off + n <= 8 * Z.of_nat (length ar) ->
  exists b, compare_bits ar (8 * Z.of_nat (length ar)) mask off n = Ok b /\
    (b = true <-> forall j, 0 <= j < n -> bit_at ar (off + j) = Z.testbit mask (n - 1 - j)).
Proof.
  intros F Hm Ho Hn Hs. unfold compare_bits. rewrite (proj2 (Z.ltb_ge _ (off + n))) by lia.
  unfold CHAR_BIT at 1. rewrite (proj2 (Z.ltb_ge 8 n)) by lia. cbn [orb].
  set (o := off mod CHAR_BIT). assert (Ho' : 0 <= o < 8) by (unfold o, CHAR_BIT; lia).
  assert (Eo : off = 8 * Z.of_nat (Z.to_nat (off / CHAR_BIT)) + o) by (unfold o, CHAR_BIT; lia).
  set (i := Z.to_nat (off / CHAR_BIT)) in *. clearbody o i.
  destruct (lookup_lt_is_Some_2 ar i ltac:(lia)) as [b Hb]. rewrite Hb.
  pose proof (lookup_byte _ _ _ F Hb) as Bb. rewrite low_mask by lia.
  assert (S : (o =? 0) || (o + n <=? CHAR_BIT) = (o + n <=? 8)).
  { unfold CHAR_BIT. apply eq_iff_eq_true. rewrite orb_true_iff, Z.eqb_eq, !Z.leb_le. lia. }
  rewrite S. destruct (Z.leb_spec (o + n) 8) as [Hin|Hin].
  - destruct (compare_inside b mask o n Bb Hm ltac:(lia) ltac:(lia) Hin) as (r & E & R).
    rewrite E. cbn [head deref mbind res_bind]. rewrite high_mask, low_mask' by lia.
    eexists. split; [reflexivity|]. rewrite R. apply forall_proper. intros j.
    assert (X : 0 <= j < n -> bit_at ar (off + j) = Z.testbit b (7 - o - j)).
    { intros Hj. rewrite Eo. replace (8 * Z.of_nat i + o + j) with (8 * Z.of_nat i + (7 - (7 - o - j))) by lia.
      rewrite bit_at_byte by lia. by rewrite Hb. }
    split; intros A Hj; specialize (A Hj); rewrite X in * by done; done.
  - destruct (lookup_lt_is_Some_2 ar (Datatypes.S i) ltac:(lia)) as [b1 Hb1]. rewrite Hb1.
    cbn [deref mbind res_bind].
    replace (CHAR_BIT - n + CHAR_BIT - o) with (CHAR_BIT - (o + n - 8)) by (unfold CHAR_BIT; lia).
    rewrite low_mask', high_mask by lia.
    destruct (compare_across b b1 mask o n Bb (lookup_byte _ _ _ F Hb1) Hm Ho' Hn Hin) as (r1 & r2 & E & R).
    rewrite E. cbn [head deref mbind res_bind]. eexists. split; [reflexivity|]. rewrite R.
    apply forall_proper. intros j.
    assert (X : 0 <= j < n -> bit_at ar (off + j) = bit_at [b; b1] (o + j)).
    { intros Hj. rewrite Eo. destruct (Z.lt_ge_cases (o + j) 8).
      - replace (8 * Z.of_nat i + o + j) with (8 * Z.of_nat i + (7 - (7 - o - j))) by lia.
        replace (o + j) with (8 * Z.of_nat 0 + (7 - (7 - o - j))) by lia.
        rewrite !bit_at_byte by lia. by rewrite Hb.
      - replace (8 * Z.of_nat i + o + j) with (8 * Z.of_nat (Datatypes.S i) + (7 - (15 - o - j))) by lia.
        replace (o + j) with (8 * Z.of_nat 1 + (7 - (15 - o - j))) by lia.
        rewrite !bit_at_byte by lia. by rewrite Hb1. }
    split; intros A Hj; specialize (A Hj); rewrite X in * by done; done.
Qed.

(** ** [write_bits] within a byte *)

Lemma write_mask_one o n : 0 <= o -> 1 <= n -> o + n <= 8 ->
  write_mask 1 o n = [Z.lor (Z.shiftl (Z.ones o) (8 - o)) (Z.ones (8 - (o + n)))].
Proof.
  intros Ho Hn Hs. unfold write_mask. change (replicate (Z.to_nat 1) 0) with [0].
  cbn [alter list_alter]. rewrite high_mask, Z.lor_0_l by lia. unfold CHAR_BIT.
  destruct (Z.eqb_spec ((n + o) mod 8) 0) as [E|E].
  - replace (o + n) with 8 by lia. by rewrite Z.lor_0_r.
  - change (Z.to_nat 1 - 1)%nat with 0%nat. cbn [alter list_alter].
    replace (n mod 8) with n by lia. rewrite low_mask' by lia. do 2 f_equal. f_equal. lia.
Qed.

Lemma byte_or a b : is_byte a -> is_byte b -> is_byte (Z.lor a b).
Proof.
  intros Ha Hb. assert (E : Z.lor a b = u8 (Z.lor a b)); [|rewrite E; apply u8_byte].
  apply Z.bits_inj'. intros j Hj. rewrite u8_bit. destruct (Z.ltb_spec j 8); [done|].
  by rewrite Z.lor_spec, !byte_bit.
Qed.

(** The byte that [write_bits] leaves. *)
Lemma write_byte_ok d i b v o n :
  d !! i = Some b -> is_byte b -> is_byte v -> 0 <= o -> 1 <= n -> o + n <= 8 ->
  exists b', write_bits_page d i o n [v] = Ok (<[i := b']> d) /\ is_byte b' /\
    forall j, 0 <= j < 8 -> Z.testbit b' j =
      if (8 - (o + n) <=? j) && (j <? 8 - o) then Z.testbit v (j - (8 - (o + n))) else Z.testbit b j.
Proof.
  intros Hb Bb Bv Ho Hn Hs. unfold write_bits_page.
  assert (E1 : bytes_of_bits (o + n) = 1)
    by (unfold bytes_of_bits, CHAR_BIT; destruct (Z.eqb_spec ((o + n) mod 8) 0); lia).
  assert (E2 : bytes_of_bits n = 1)
    by (unfold bytes_of_bits, CHAR_BIT; destruct (Z.eqb_spec (n mod 8) 0); lia).
  pose proof (lookup_lt_Some _ _ _ Hb) as Hl.
  rewrite E1, E2. rewrite (proj2 (Nat.ltb_ge _ _)) by lia. cbn [length Z.to_nat Nat.ltb orb].
  change ((1 <? Pos.to_nat 1)%nat) with false. cbn [head deref mbind res_bind].
  change (1 <? 1) with false. cbn iota. change (1 * CHAR_BIT - n) with (CHAR_BIT - n).
  change (<[0%nat := ?x]> [v]) with [x]. rewrite low_mask by lia. set (v0 := Z.land v (Z.ones n)).
  assert (Bv0 : is_byte v0) by (apply land_byte; [done|apply ones_byte; lia]).
  destruct (shift_one v0 (- (CHAR_BIT - n) + o) Bv0) as (r & E & Br & R); [unfold CHAR_BIT; lia|].
  change (1 * CHAR_BIT) with CHAR_BIT. rewrite E. cbn [mbind res_bind].
  rewrite write_mask_one by done.
  assert (Es : slice d i (Z.to_nat 1) = [b]).
  { unfold slice. change (Z.to_nat 1) with 1%nat. rewrite (drop_S _ _ _ Hb). simpl. by rewrite take_0. }
  rewrite Es. cbn [zip_with]. set (m := Z.lor _ (Z.ones _)).
  assert (Lm : forall j, 0 <= j < 8 -> Z.testbit m j = negb ((8 - (o + n) <=? j) && (j <? 8 - o))).
  { intros j Hj. unfold m. rewrite Z.lor_spec, Z.shiftl_spec, !ones_bit by lia.
    apply eq_iff_eq_true. rewrite negb_true_iff, orb_true_iff, !andb_true_iff, andb_false_iff.
    rewrite !Z.leb_le, !Z.ltb_lt, Z.leb_gt, Z.ltb_ge. lia. }
  assert (Bm : 0 <= m).
  { apply Z.lor_nonneg. split; [apply Z.shiftl_nonneg|]; apply ones_byte; lia. }
  exists (Z.lor (Z.land b m) r). split_and!.
  - f_equal. by apply splice_single.
  - apply byte_or; [by apply land_byte|done].
  - intros j Hj. rewrite Z.lor_spec, Z.land_spec, Lm, R by done. unfold CHAR_BIT.
    rewrite (proj2 (Z.ltb_ge (7 - j) _)) by lia.
    destruct (Z.leb_spec (8 - (o + n)) j) as [Hj1|Hj1]; cbn [andb negb].
    + replace (7 - j - (- (8 - n) + o)) with (8 * Z.of_nat 0 + (7 - (j - (8 - (o + n))))) by lia.
      rewrite bit_at_byte by lia. cbn [lookup list_lookup]. unfold v0. rewrite land_ones_bit by lia.
      destruct (Z.ltb_spec j (8 - o)); cbn [negb].
      * rewrite andb_false_r. cbn [orb]. rewrite (proj2 (Z.ltb_lt _ _)) by lia. by rewrite andb_true_r.
      * rewrite andb_true_r. rewrite (proj2 (Z.ltb_ge _ _)) by lia. by rewrite andb_false_r, orb_false_r.
    + rewrite andb_true_r, bit_at_beyond by (simpl; lia). by rewrite orb_false_r.
Qed.

Lemma write_bits_page_ok d i v o n :
  Forall is_byte d -> (i < length d)%nat -> is_byte v -> 0 <= o -> 1 <= n -> o + n <= 8 ->
  exists d', write_bits_page d i o n [v] = Ok d' /\ length d' = length d /\ Forall is_byte d' /\
    forall k, 0 <= k -> bit_at d' k =
      if (8 * Z.of_nat i + o <=? k) && (k <? 8 * Z.of_nat i + o + n)
      then Z.testbit v (n - 1 - (k - (8 * Z.of_nat i + o))) else bit_at d k.
Proof.
  intros F Hi Bv Ho Hn Hs. destruct (lookup_lt_is_Some_2 d i Hi) as [b Hb].
  destruct (write_byte_ok d i b v o n Hb (lookup_byte _ _ _ F Hb) Bv Ho Hn Hs) as (b' & E & Bb' & B).
  exists (<[i := b']> d). split_and!; [done|by rewrite length_insert|by apply Forall_insert|].
  intros k Hk. destruct (bit_split k Hk) as (i' & j & Hj & ->). rewrite !bit_at_byte by done.
  destruct (decide (i' = i)) as [->|Hne].
  - rewrite list_lookup_insert_eq by done. rewrite B, Hb by done.
    assert (X : (8 - (o + n) <=? j) && (j <? 8 - o) =
                (8 * Z.of_nat i + o <=? 8 * Z.of_nat i + (7 - j)) &&
                (8 * Z.of_nat i + (7 - j) <? 8 * Z.of_nat i + o + n)).
    { apply eq_iff_eq_true. rewrite !andb_true_iff, !Z.leb_le, !Z.ltb_lt. lia. }
    rewrite <- X. destruct (_ && _); [f_equal; lia|done].
  - rewrite list_lookup_insert_ne by done.
    destruct (_ && _) eqn:X; [|done]. exfalso. bool_prop. lia.
Qed.

Section WriteBits.
Context `{Sysconf}.

Lemma write_bits_ok pc i f (bo o n v : Z) log :
  get_frame pc i = Ok f -> page_ok f -> is_byte v ->
  0 <= bo < PAGE_SIZE -> 0 <= o -> 1 <= n -> o + n <= 8 ->
  exists d', write_bits pc i bo o n [v] log = Ok (set_frame pc i (set_page_data f d')) /\
    page_ok (set_page_data f d') /\
    forall k, 0 <= k -> bit_at d' k =
      if (8 * bo + o <=? k) && (k <? 8 * bo + o + n) then Z.testbit v (n - 1 - (k - (8 * bo + o)))
      else bit_at (p_data f) k.
Proof.
  intros Ef [L F] Bv Hbo Ho Hn Hs. pose proof page_bytes_Z as PB.
  assert (PS : 16 <= PAGE_SIZE) by (destruct PAGE_SIZE_slots as (q & -> & ?); lia).
  destruct (write_bits_page_ok (p_data f) (Z.to_nat bo) v o n F ltac:(lia) Bv Ho Hn Hs)
    as (d' & E & L' & F' & B).
  exists d'. split_and!; [|split; simpl; [congruence|done]|].
  - unfold write_bits. cbn [write_bits_fuel]. rewrite Ef. cbn [mbind res_bind]. unfold CHAR_BIT.
    rewrite (proj2 (Z.ltb_ge _ o)), (proj2 (Z.ltb_ge _ bo)), (proj2 (Z.ltb_ge _ n)), (proj2 (Z.ltb_ge n 1))
      by lia. cbn [orb].
    assert (E1 : bytes_of_bits (o + n) = 1)
      by (unfold bytes_of_bits, CHAR_BIT; destruct (Z.eqb_spec ((o + n) mod 8) 0); lia).
    rewrite E1. rewrite (proj2 (Z.ltb_ge _ _)) by lia. by rewrite E.
  - intros k Hk. rewrite B by done. by rewrite Z2Nat.id by lia.
Qed.
End WriteBits.

(** ** Properties *)

(** [shift_bit_array] on a whole number of bytes moves every bit by the amount, to
    the right when it is positive and to the left when it is negative, and fills with
    zeros; amounts of more than eight end the program. *)
Theorem shift_bit_array_shifts (ar : list Z) (n : Z) (F : Forall is_byte ar)
    (Hn : Z.abs n <= 8 * Z.of_nat (length ar)) :
  (-8 <= n <= 8 ->
     exists ar', shift_bit_array ar (8 * Z.of_nat (length ar)) n = Ok ar' /\
       length ar' = length ar /\ Forall is_byte ar' /\
       forall k, 0 <= k < 8 * Z.of_nat (length ar) ->
         bit_at ar' k = if k <? n then false else bit_at ar (k - n)) /\
  (8 < Z.abs n -> shift_bit_array ar (8 * Z.of_nat (length ar)) n = Exit).
Proof.
  split; [intros Hs; by apply shift_array_ok|]. intros Hs. unfold shift_bit_array, CHAR_BIT.
  rewrite (proj2 (Z.ltb_lt 8 (Z.abs n))) by lia. by rewrite orb_true_r.
Qed.

Lemma shift_bit_array_shifts_witness :
  exists ar, shift_bit_array [0xAB; 0xCD] 16 (-3) = Ok ar /\ bit_at ar 1 = true.
Proof.
  destruct (proj1 (shift_bit_array_shifts [0xAB; 0xCD] (-3)
      ltac:(repeat constructor; unfold is_byte; lia) ltac:(simpl; lia)) ltac:(lia))
    as (ar & E & _ & _ & B).
  exists ar. split; [exact E|]. rewrite (B 1) by (simpl; lia). vm_compute. reflexivity.
Defined.

(** [compare_bits] answers whether the [n] bits of the array from [off] on are the low
    [n] bits of the mask, most significant first, also when they lie in two bytes. *)
Theorem compare_bits_spec (ar : list Z) (mask off n : Z) (F : Forall is_byte ar)
    (Hm : is_byte mask) (Ho : 0 <= off) (Hn : 1 <= n <= 8)
    (Hs : off + n <= 8 * Z.of_nat (length ar)) :
  exists b, compare_bits ar (8 * Z.of_nat (length ar)) mask off n = Ok b /\
    (b = true <-> forall j, 0 <= j < n -> bit_at ar (off + j) = Z.testbit mask (n - 1 - j)).
Proof. by apply compare_ok. Qed.

Lemma compare_bits_spec_witness :
  exists b, compare_bits [0x03; 0xC0] 16 0xFF 6 4 = Ok b /\ b = true.
Proof.
  destruct (compare_bits_spec [0x03; 0xC0] 0xFF 6 4 ltac:(repeat constructor; unfold is_byte; lia)
      ltac:(unfold is_byte; lia) ltac:(lia) ltac:(lia) ltac:(simpl; lia)) as (b & E & B).
  exists b. split; [exact E|]. apply B. intros j Hj.
  assert (j = 0 \/ j = 1 \/ j = 2 \/ j = 3) as [-> | [-> | [-> | ->]]]
    by (clear -Hj; lia); reflexivity.
Defined.

(** [write_bits] to bits of one byte of a pinned page sets exactly these bits to the low
    bits of the data and marks the page dirty. *)
Theorem write_bits_spec `{Sysconf} (pc : page_cache) (i : Z) (f : page) (bo o n v : Z) (log : bool)
    (Ef : get_frame pc i = Ok f) (P : page_ok f) (Bv : is_byte v) (Hbo : 0 <= bo < PAGE_SIZE)
    (Ho : 0 <= o) (Hn : 1 <= n) (Hs : o + n <= 8) :
  exists f', write_bits pc i bo o n [v] log = Ok (set_frame pc i f') /\ page_ok f' /\
    dirty f' = true /\ pin_count f' = pin_count f /\
    forall k, 0 <= k -> bit_at (p_data f') k =
      if (8 * bo + o <=? k) && (k <? 8 * bo + o + n) then Z.testbit v (n - 1 - (k - (8 * bo + o)))
      else bit_at (p_data f) k.
Proof.
  destruct (write_bits_ok pc i f bo o n v log Ef P Bv Hbo Ho Hn Hs) as (d' & E & P' & B).
  exists (set_page_data f d'). by split_and!.
Qed.

(** A cache with one frame, for the examples. *)
Definition one_frame : page_cache :=
  let df name := DiskFile name [] 0 0 0 0 in
  PageCache (PhyDatabase (df "c"%string) (PerFt (df "h"%string) (df "h"%string))
               (PerFt (df "r"%string) (df "r"%string)) (PerFt 0 0) (log_open "l"))
    1 0 0 false (log_open "l") linked_list_create linked_list_create ∅
    [page_create (replicate 32 0)].

Lemma write_bits_spec_witness :
  exists f', write_bits (H := small_pages) one_frame 0 31 4 4 [0xFF] true = Ok (set_frame one_frame 0 f') /\
    bit_at (p_data f') 253 = true.
Proof.
  destruct (write_bits_spec (H := small_pages) one_frame 0 (page_create (replicate 32 0)) 31 4 4 0xFF true
      eq_refl ltac:(split; [reflexivity|apply Forall_replicate; unfold is_byte; lia])
      ltac:(unfold is_byte; lia) ltac:(simpl; lia) ltac:(lia) ltac:(lia) ltac:(lia))
    as (f' & E & _ & _ & _ & B).
  exists f'. split; [exact E|]. rewrite B by lia. reflexivity.
Defined.

(** Beyond one byte the bit access deviates from its comments.  Writing five bits at
    bit offset 6 clears the five bits after them, which should be kept; reading six
    bits at offset 0 returns them at the top of the byte, not shifted to its end. *)
Theorem bit_access_deviations :
  write_bits_page [0x00; 0xFF] 0 6 5 [0x1F] = Ok [0x03; 0xE0] /\
  read_bits_page [0xB4] 0 0 6 = Ok [0xB4].
Proof. vm_compute. split; reflexivity. Qed.
