(* ===== verification/Records.v ===== *)
(** The node and relationship records of src/access/node.c and src/access/relationship.c,
    and their place in a page: the low byte of an id is the record's first slot.

    A weight is the object representation of a double.  A record is a value; a
    [node_t*] or [relationship_t*] that the code changes in place is a new value or,
    in HeapFile.v, an entry of an arena.  The conversion of a double to a string is an
    argument; the pretty printers are not modelled. *)

From S2P Require Import Prelude Constants DiskFile PhysicalDatabase Page.
From Stdlib Require Import ZArith Lia Ascii.
From stdpp Require Import base list option strings pretty.

#[local] Open Scope Z_scope.

(** ** Data and operations *)

Definition ON_DISK_NODE_SIZE : Z := sizeof_ulong + sizeof_ulong.
Definition NUM_SLOTS_PER_NODE : Z :=
  ON_DISK_NODE_SIZE / SLOT_SIZE + (if ON_DISK_NODE_SIZE mod SLOT_SIZE =? 0 then 0 else 1).
Definition ON_DISK_REL_SIZE : Z := 6 * sizeof_ulong + sizeof_double + sizeof_ulong.
Definition NUM_SLOTS_PER_REL : Z :=
  ON_DISK_REL_SIZE / SLOT_SIZE + (if ON_DISK_REL_SIZE mod SLOT_SIZE =? 0 then 0 else 1).

Record node_t := Node {
  n_id : Z;
  first_relationship : Z;
  n_label : Z }.

Record relationship_t := Relationship {
  r_id : Z;
  source_node : Z;
  target_node : Z;
  prev_rel_source : Z;
  next_rel_source : Z;
  prev_rel_target : Z;
  next_rel_target : Z;
  weight : Z;
  r_label : Z }.

Inductive direction_t := OUTGOING | INCOMING | BOTH.

#[export] Instance node_eq_dec : EqDecision node_t.
Proof. solve_decision. Defined.
#[export] Instance relationship_eq_dec : EqDecision relationship_t.
Proof. solve_decision. Defined.
#[export] Instance direction_eq_dec : EqDecision direction_t.
Proof. solve_decision. Defined.

(** [new_node] and [node_clear]. *)
Definition node_clear : node_t := Node UNINITIALIZED_LONG UNINITIALIZED_LONG UNINITIALIZED_LONG.
Definition new_node_record : node_t := node_clear.

(** [==] on doubles: not a number differs from itself, and the two zeros are equal. *)
Definition double_is_nan (w : Z) : bool := 0x7FF0000000000000 <? w mod 2 ^ 63.
Definition double_eqb (a b : Z) : bool :=
  negb (double_is_nan a) && negb (double_is_nan b)
  && ((a =? b) || ((a mod 2 ^ 63 =? 0) && (b mod 2 ^ 63 =? 0))).

Definition node_equals (first second : node_t) : bool :=
  (n_id first =? n_id second)
  && (first_relationship first =? first_relationship second)
  && (n_label first =? n_label second).

Definition node_copy (original : node_t) : node_t :=
  Node (n_id original) (first_relationship original) (n_label original).

(** The format of [node_to_string]; what [snprintf] leaves in the buffer of size
    [length] is the string without its last character. *)
Definition node_format (record : node_t) : string :=
  "Node ID: " +:+ pretty (n_id record) +:+ String "010"%char
  ("First Relationship: " +:+ pretty (first_relationship record) +:+ String "010"%char
  ("Label: " +:+ pretty (n_label record) +:+ String "010"%char "")).
Definition node_to_string (record : node_t) (buffer_size : Z) : res string :=
  let length := Z.of_nat (String.length (node_format record)) in
  if buffer_size <? length then Exit
  else Ok (String.substring 0 (Z.to_nat (length - 1)) (node_format record)).

Definition relationship_clear : relationship_t :=
  Relationship UNINITIALIZED_LONG UNINITIALIZED_LONG UNINITIALIZED_LONG UNINITIALIZED_LONG
    UNINITIALIZED_LONG UNINITIALIZED_LONG UNINITIALIZED_LONG UNINITIALIZED_WEIGHT UNINITIALIZED_LONG.
Definition new_relationship : relationship_t := relationship_clear.

Definition relationship_copy (original : relationship_t) : relationship_t :=
  Relationship (r_id original) (source_node original) (target_node original)
    (prev_rel_source original) (next_rel_source original) (prev_rel_target original)
    (next_rel_target original) (weight original) (r_label original).

(** The formats of [relationship_to_string]: the length is that of the first, the buffer gets
    the second.  [format_lf] is the conversion [%.1f]. *)
Definition relationship_format (format_lf : Z -> string) (weight_name : string) (record : relationship_t) : string :=
  let newline := String "010"%char "" in
  "Relationship ID: " +:+ pretty (r_id record) +:+ newline +:+
  "Source Node: " +:+ pretty (source_node record) +:+ newline +:+
  "Target Node: " +:+ pretty (target_node record) +:+ newline +:+
  "Source node's previous relationship: " +:+ pretty (prev_rel_source record) +:+ newline +:+
  "Source node's next relationship: " +:+ pretty (next_rel_source record) +:+ newline +:+
  "Target node's previous relationship: " +:+ pretty (prev_rel_target record) +:+ newline +:+
  "Target node's next relationship: " +:+ pretty (next_rel_target record) +:+ newline +:+
  weight_name +:+ ": " +:+ format_lf (weight record) +:+ newline +:+
  "Label " +:+ pretty (r_label record) +:+ newline.
Definition relationship_to_string (format_lf : Z -> string) (record : relationship_t) (buffer_size : Z) : res string :=
  let length := Z.of_nat (String.length (relationship_format format_lf "Weight" record)) in
  if buffer_size <? length then Exit
  else Ok (String.substring 0 (Z.to_nat (length - 1)) (relationship_format format_lf "First Property" record)).

Definition relationship_equals (first second : relationship_t) : bool :=
  (r_id first =? r_id second)
  && (source_node first =? source_node second)
  && (target_node first =? target_node second)
  && (prev_rel_source first =? prev_rel_source second)
  && (next_rel_source first =? next_rel_source second)
  && (prev_rel_target first =? prev_rel_target second)
  && double_eqb (weight first) (weight second)
  && (r_label first =? r_label second).

(** The byte offset of a record's first slot. *)
Definition first_slot (id : Z) : Z := Z.land id UCHAR_MAX * SLOT_SIZE.

Section Records.
Context `{Sysconf}.

(** The record with the given id, read from the page. *)
Definition node_read (record : node_t) (p : page) : res node_t :=
  if pin_count p <? 1 then Exit
  else
    let slot := first_slot (n_id record) in
    first ← read_ulong p slot;
    label ← read_ulong p (slot + sizeof_ulong);
    Ok (Node (n_id record) first label).

Definition node_write (record : node_t) (p : page) : res page :=
  if pin_count p <? 1 then Exit
  else
    let slot := first_slot (n_id record) in
    p ← write_ulong p slot (first_relationship record);
    write_ulong p (slot + sizeof_ulong) (n_label record).

Definition relationship_read (record : relationship_t) (p : page) : res relationship_t :=
  let slot := first_slot (r_id record) in
  source ← read_ulong p slot;
  target ← read_ulong p (slot + 8);
  prev_source ← read_ulong p (slot + 16);
  next_source ← read_ulong p (slot + 24);
  prev_target ← read_ulong p (slot + 32);
  next_target ← read_ulong p (slot + 40);
  w ← read_double p (slot + 48);
  label ← read_ulong p (slot + 56);
  Ok (Relationship (r_id record) source target prev_source next_source prev_target next_target w label).

Definition relationship_write (record : relationship_t) (p : page) : res page :=
  let slot := first_slot (r_id record) in
  p ← write_ulong p slot (source_node record);
  p ← write_ulong p (slot + 8) (target_node record);
  p ← write_ulong p (slot + 16) (prev_rel_source record);
  p ← write_ulong p (slot + 24) (next_rel_source record);
  p ← write_ulong p (slot + 32) (prev_rel_target record);
  p ← write_ulong p (slot + 40) (next_rel_target record);
  p ← write_double p (slot + 48) (weight record);
  write_ulong p (slot + 56) (r_label record).

(** ** Specification *)

(** Word [k] of a page's bytes, and the page with words replaced. *)
Definition word (d : list Z) (k : nat) : Z := le_combine (slice d (8 * k) 8).
Definition set_word (d : list Z) (k : nat) (v : Z) : list Z := splice d (8 * k) (le_split 8 v).
Fixpoint set_words (d : list Z) (k : nat) (vs : list Z) : list Z :=
  match vs with
  | [] => d
  | v :: vs' => set_words (set_word d k v) (S k) vs'
  end.

Definition node_words (n : node_t) : list Z := [first_relationship n; n_label n].
Definition rel_words (r : relationship_t) : list Z :=
  [source_node r; target_node r; prev_rel_source r; next_rel_source r; prev_rel_target r;
   next_rel_target r; weight r; r_label r].

(** The records that the bytes of a page hold at a slot. *)
Definition node_at_slot (d : list Z) (id : Z) (s : nat) : node_t :=
  Node id (word d (2 * s)) (word d (2 * s + 1)).
Definition rel_at_slot (d : list Z) (id : Z) (s : nat) : relationship_t :=
  Relationship id (word d (2 * s)) (word d (2 * s + 1)) (word d (2 * s + 2)) (word d (2 * s + 3))
    (word d (2 * s + 4)) (word d (2 * s + 5)) (word d (2 * s + 6)) (word d (2 * s + 7)).

Definition node_range (n : node_t) : Prop := Forall is_u64 (node_words n).
Definition rel_range (r : relationship_t) : Prop := Forall is_u64 (rel_words r).
End Records.

(** ** Lemmas *)

Lemma first_slot_eq id : first_slot id = 16 * (id mod 256).
Proof.
  unfold first_slot, SLOT_SIZE, UCHAR_MAX. change 255 with (Z.ones 8). rewrite Z.land_ones by lia.
  change (2 ^ 8) with 256. lia.
Qed.

Lemma slot_of_id id : exists s, first_slot id = 16 * Z.of_nat s /\ Z.of_nat s = id mod 256.
Proof. exists (Z.to_nat (id mod 256)). rewrite first_slot_eq. lia. Qed.

(** *** Words *)

Lemma length_set_word d k v : (8 * k + 8 <= length d)%nat -> length (set_word d k v) = length d.
Proof. intros. unfold set_word. apply length_splice. rewrite length_le_split. lia. Qed.

Lemma word_set_word d k v j : (8 * k + 8 <= length d)%nat -> (8 * j + 8 <= length d)%nat -> is_u64 v ->
  word (set_word d k v) j = if (j =? k)%nat then v else word d j.
Proof.
  intros Hk Hj Hv. unfold word, set_word. destruct (Nat.eqb_spec j k) as [->|Hne].
  - rewrite <- (le_split_u64 v Hv) at 2. f_equal.
    rewrite <- (length_le_split 8 v) at 2. apply slice_splice_same. rewrite length_le_split. lia.
  - f_equal. apply slice_splice_disjoint; rewrite ?length_le_split; lia.
Qed.

Lemma word_range d k : Forall is_byte d -> (8 * k + 8 <= length d)%nat -> is_u64 (word d k).
Proof.
  intros F Hk. unfold word, is_u64. change (2 ^ 64) with (256 ^ Z.of_nat 8).
  pose proof (le_combine_bound (slice d (8 * k) 8) ltac:(by apply Forall_slice)) as B.
  by rewrite length_slice in B by lia.
Qed.

Lemma length_set_words d k vs : (8 * (k + length vs) <= length d)%nat -> length (set_words d k vs) = length d.
Proof.
  revert d k. induction vs as [|v vs IH]; intros d k Hk; simpl in *; [done|].
  rewrite IH; rewrite length_set_word; lia.
Qed.

Lemma word_set_words d k vs j :
  (8 * (k + length vs) <= length d)%nat -> (8 * j + 8 <= length d)%nat -> Forall is_u64 vs ->
  word (set_words d k vs) j =
    if (k <=? j)%nat && (j <? k + length vs)%nat then vs !!! (j - k)%nat else word d j.
Proof.
  revert d k. induction vs as [|v vs IH]; intros d k Hk Hj F; simpl in *.
  - destruct (Nat.leb_spec k j), (Nat.ltb_spec j (k + 0)); simpl; lia || done.
  - inversion F; subst. rewrite IH by (rewrite ?length_set_word; done || lia).
    rewrite word_set_word by (done || lia).
    destruct (Nat.eqb_spec j k) as [->|Hne].
    + rewrite (proj2 (Nat.leb_gt (S k) k)) by lia. cbn [andb]. rewrite Nat.leb_refl.
      rewrite (proj2 (Nat.ltb_lt _ _)) by lia. cbn [andb]. by rewrite Nat.sub_diag.
    + destruct (Nat.leb_spec (S k) j), (Nat.leb_spec k j); cbn [andb]; try lia.
      destruct (Nat.ltb_spec j (S k + length vs)), (Nat.ltb_spec j (k + S (length vs))); try lia.
      replace (j - k)%nat with (S (j - S k)) by lia. done.
Qed.

Lemma set_words_bytes d k vs : Forall is_byte d -> Forall is_byte (set_words d k vs).
Proof.
  revert d k. induction vs as [|v vs IH]; intros d k F; simpl; [done|].
  apply IH. apply Forall_splice; [done|apply le_split_bytes].
Qed.

(** *** Records in words *)

Lemma set_words_same d k vs j v :
  (8 * (k + length vs) <= length d)%nat -> Forall is_u64 vs -> vs !! j = Some v ->
  word (set_words d k vs) (k + j) = v.
Proof.
  intros Hk F Hj. pose proof (lookup_lt_Some _ _ _ Hj). rewrite word_set_words by (done || lia).
  rewrite (proj2 (Nat.leb_le _ _)), (proj2 (Nat.ltb_lt _ _)) by lia. cbn [andb].
  replace (k + j - k)%nat with j by lia. by apply list_lookup_total_correct.
Qed.

Lemma node_at_set_words d n id s :
  (16 * s + 16 <= length d)%nat -> node_range n ->
  node_at_slot (set_words d (2 * s) (node_words n)) id s = Node id (first_relationship n) (n_label n).
Proof.
  intros L R. unfold node_at_slot. rewrite <- (Nat.add_0_r (2 * s)) at 2.
  by rewrite (set_words_same _ _ _ 0 (first_relationship n)), (set_words_same _ _ _ 1 (n_label n))
    by (done || (simpl; lia)).
Qed.

Lemma rel_at_set_words d r id s :
  (16 * s + 64 <= length d)%nat -> rel_range r ->
  rel_at_slot (set_words d (2 * s) (rel_words r)) id s =
    Relationship id (source_node r) (target_node r) (prev_rel_source r) (next_rel_source r)
      (prev_rel_target r) (next_rel_target r) (weight r) (r_label r).
Proof.
  intros L R. unfold rel_at_slot. rewrite <- (Nat.add_0_r (2 * s)) at 2.
  by rewrite (set_words_same _ _ _ 0 (source_node r)), (set_words_same _ _ _ 1 (target_node r)),
    (set_words_same _ _ _ 2 (prev_rel_source r)), (set_words_same _ _ _ 3 (next_rel_source r)),
    (set_words_same _ _ _ 4 (prev_rel_target r)), (set_words_same _ _ _ 5 (next_rel_target r)),
    (set_words_same _ _ _ 6 (weight r)), (set_words_same _ _ _ 7 (r_label r))
    by (done || (simpl; lia)).
Qed.

(** Words outside of a written range. *)
Lemma set_words_other d k vs j :
  (8 * (k + length vs) <= length d)%nat -> (8 * j + 8 <= length d)%nat -> Forall is_u64 vs ->
  (j < k \/ k + length vs <= j)%nat -> word (set_words d k vs) j = word d j.
Proof.
  intros Hk Hj F Ho. rewrite word_set_words by done.
  destruct (Nat.leb_spec k j), (Nat.ltb_spec j (k + length vs)); simpl; lia || done.
Qed.

Section RecordLemmas.
Context `{Sysconf}.

(** *** Accesses to pages, in words *)

Lemma read_word p k : page_ok p -> Z.of_nat (8 * k + 8) <= PAGE_SIZE -> 1 <= pin_count p ->
  read_ulong p (8 * Z.of_nat k) = Ok (word (p_data p) k).
Proof.
  intros P Hk Hp. rewrite read_ulong_ok by (done || lia). unfold word. do 3 f_equal. lia.
Qed.

Lemma write_word p k v : page_ok p -> Z.of_nat (8 * k + 8) <= PAGE_SIZE -> 1 <= pin_count p ->
  write_ulong p (8 * Z.of_nat k) v = Ok (set_page_data p (set_word (p_data p) k v)) /\
  page_ok (set_page_data p (set_word (p_data p) k v)).
Proof.
  intros P Hk Hp. destruct (write_ulong_ok p (8 * Z.of_nat k) v P ltac:(lia) Hp) as [E P'].
  unfold set_word. replace (8 * k)%nat with (Z.to_nat (8 * Z.of_nat k)) by lia. done.
Qed.

Definition write_words (p : page) (k : nat) (vs : list Z) : page :=
  match vs with [] => p | _ => set_page_data p (set_words (p_data p) k vs) end.

(** *** Records *)

Lemma node_read_ok r p s :
  page_ok p -> 1 <= pin_count p -> first_slot (n_id r) = 16 * Z.of_nat s -> 16 * Z.of_nat s + 16 <= PAGE_SIZE ->
  node_read r p = Ok (node_at_slot (p_data p) (n_id r) s).
Proof.
  intros P Hp Hs Hb. unfold node_read. rewrite (proj2 (Z.ltb_ge _ _)) by lia. rewrite Hs.
  replace (16 * Z.of_nat s) with (8 * Z.of_nat (2 * s)) by lia. unfold sizeof_ulong.
  replace (8 * Z.of_nat (2 * s) + 8) with (8 * Z.of_nat (2 * s + 1)) by lia.
  rewrite !read_word by (done || lia). done.
Qed.

Lemma node_write_ok r p s :
  page_ok p -> 1 <= pin_count p -> first_slot (n_id r) = 16 * Z.of_nat s -> 16 * Z.of_nat s + 16 <= PAGE_SIZE ->
  let p' := set_page_data p (set_words (p_data p) (2 * s) (node_words r)) in
  node_write r p = Ok p' /\ page_ok p'.
Proof.
  intros P Hp Hs Hb p'. unfold node_write. rewrite (proj2 (Z.ltb_ge _ _)) by lia. rewrite Hs.
  replace (16 * Z.of_nat s) with (8 * Z.of_nat (2 * s)) by lia. unfold sizeof_ulong.
  replace (8 * Z.of_nat (2 * s) + 8) with (8 * Z.of_nat (S (2 * s))) by lia.
  destruct (write_word p (2 * s) (first_relationship r) P ltac:(lia) Hp) as [E1 P1].
  rewrite E1. cbn [mbind res_bind].
  by destruct (write_word _ (S (2 * s)) (n_label r) P1 ltac:(lia) Hp) as [E2 P2].
Qed.

Lemma rel_read_ok r p s :
  page_ok p -> 1 <= pin_count p -> first_slot (r_id r) = 16 * Z.of_nat s -> 16 * Z.of_nat s + 64 <= PAGE_SIZE ->
  relationship_read r p = Ok (rel_at_slot (p_data p) (r_id r) s).
Proof.
  intros P Hp Hs Hb. unfold relationship_read. rewrite Hs.
  change read_double with read_ulong.
  replace (16 * Z.of_nat s) with (8 * Z.of_nat (2 * s)) by lia.
  replace (8 * Z.of_nat (2 * s) + 8) with (8 * Z.of_nat (2 * s + 1)) by lia.
  replace (8 * Z.of_nat (2 * s) + 16) with (8 * Z.of_nat (2 * s + 2)) by lia.
  replace (8 * Z.of_nat (2 * s) + 24) with (8 * Z.of_nat (2 * s + 3)) by lia.
  replace (8 * Z.of_nat (2 * s) + 32) with (8 * Z.of_nat (2 * s + 4)) by lia.
  replace (8 * Z.of_nat (2 * s) + 40) with (8 * Z.of_nat (2 * s + 5)) by lia.
  replace (8 * Z.of_nat (2 * s) + 48) with (8 * Z.of_nat (2 * s + 6)) by lia.
  replace (8 * Z.of_nat (2 * s) + 56) with (8 * Z.of_nat (2 * s + 7)) by lia.
  by rewrite !read_word by (done || lia).
Qed.

(** Write a word and go on with the rest. *)
Ltac write_word_next :=
  match goal with |- context [write_ulong ?q (8 * Z.of_nat ?k) ?v] =>
    let E := fresh "E" in let P' := fresh "P" in
    destruct (write_word q k v ltac:(done) ltac:(lia) ltac:(done)) as [E P']; rewrite E;
    cbn [mbind res_bind] end.

Lemma rel_write_ok r p s :
  page_ok p -> 1 <= pin_count p -> first_slot (r_id r) = 16 * Z.of_nat s -> 16 * Z.of_nat s + 64 <= PAGE_SIZE ->
  let p' := set_page_data p (set_words (p_data p) (2 * s) (rel_words r)) in
  relationship_write r p = Ok p' /\ page_ok p'.
Proof.
  intros P Hp Hs Hb p'. unfold relationship_write. rewrite Hs.
  replace (16 * Z.of_nat s) with (8 * Z.of_nat (2 * s)) by lia.
  replace (8 * Z.of_nat (2 * s) + 8) with (8 * Z.of_nat (S (2 * s))) by lia.
  replace (8 * Z.of_nat (2 * s) + 16) with (8 * Z.of_nat (S (S (2 * s)))) by lia.
  replace (8 * Z.of_nat (2 * s) + 24) with (8 * Z.of_nat (S (S (S (2 * s))))) by lia.
  replace (8 * Z.of_nat (2 * s) + 32) with (8 * Z.of_nat (S (S (S (S (2 * s)))))) by lia.
  replace (8 * Z.of_nat (2 * s) + 40) with (8 * Z.of_nat (S (S (S (S (S (2 * s))))))) by lia.
  replace (8 * Z.of_nat (2 * s) + 48) with (8 * Z.of_nat (S (S (S (S (S (S (2 * s)))))))) by lia.
  replace (8 * Z.of_nat (2 * s) + 56) with (8 * Z.of_nat (S (S (S (S (S (S (S (2 * s))))))))) by lia.
  do 6 write_word_next. change write_double with write_ulong. write_word_next.
  match goal with |- context [write_ulong ?q (8 * Z.of_nat ?k) ?v] =>
    by destruct (write_word q k v ltac:(done) ltac:(lia) ltac:(done)) end.
Qed.
End RecordLemmas.

(** ** Properties *)

(** A node or relationship record written to a pinned page is read back; the page
    becomes dirty, and the words of all other records keep their values. *)
Theorem records_write_read `{Sysconf} (n : node_t) (r : relationship_t) (p : page)
    (P : page_ok p) (Hp : 1 <= pin_count p) (Rn : node_range n) (Rr : rel_range r) :
  (first_slot (n_id n) + 16 <= PAGE_SIZE ->
     exists p', node_write n p = Ok p' /\ page_ok p' /\ dirty p' = true /\
       (forall m, n_id m = n_id n -> node_read m p' = Ok n) /\
       forall k, Z.of_nat (8 * k + 8) <= PAGE_SIZE -> Z.of_nat k / 2 <> n_id n mod 256 ->
         word (p_data p') k = word (p_data p) k) /\
  (first_slot (r_id r) + 64 <= PAGE_SIZE ->
     exists p', relationship_write r p = Ok p' /\ page_ok p' /\ dirty p' = true /\
       (forall m, r_id m = r_id r -> relationship_read m p' = Ok r) /\
       forall k, Z.of_nat (8 * k + 8) <= PAGE_SIZE ->
         ~ (r_id r mod 256 <= Z.of_nat k / 2 < r_id r mod 256 + 4) ->
         word (p_data p') k = word (p_data p) k).
Proof.
  pose proof (proj1 P) as L. pose proof page_bytes_Z as PB. split; intros Hs.
  - destruct (slot_of_id (n_id n)) as (s & Es & Em').
    destruct (node_write_ok n p s P Hp Es ltac:(lia)) as [E P'].
    eexists. split; [exact E|]. split_and!; [exact P'|done| |].
    + intros m Em. rewrite (node_read_ok m _ s) by (done || congruence || lia).
      rewrite Em. cbn [p_data set_page_data].
      rewrite node_at_set_words by (done || lia). by destruct n.
    + intros k Hk Hne. cbn [p_data set_page_data].
      apply set_words_other; [cbn [length node_words rel_words]; lia..|done|].
      cbn [length node_words rel_words]. lia.
  - destruct (slot_of_id (r_id r)) as (s & Es & Em').
    destruct (rel_write_ok r p s P Hp Es ltac:(lia)) as [E P'].
    eexists. split; [exact E|]. split_and!; [exact P'|done| |].
    + intros m Em. rewrite (rel_read_ok m _ s) by (done || congruence || lia).
      rewrite Em. cbn [p_data set_page_data].
      rewrite rel_at_set_words by (done || lia). by destruct r.
    + intros k Hk Hne. cbn [p_data set_page_data].
      apply set_words_other; [cbn [length node_words rel_words]; lia..|done|].
      cbn [length node_words rel_words]. lia.
Qed.

Definition sample_page : page := Page (Some records) (Some node_ft) 0 1 false (replicate 256 0).
Definition sample_rel : relationship_t := Relationship 4 1 2 4 8 12 16 0x3FF0000000000000 7.

#[local] Instance sample_pages : Sysconf.
Proof. refine {| PAGE_SIZE := 256 |}; [exists 16; lia|lia]. Defined.

Lemma records_write_read_witness :
  exists p, relationship_write sample_rel sample_page = Ok p /\
    relationship_read (Relationship 4 0 0 0 0 0 0 0 0) p = Ok sample_rel.
Proof.
  destruct (proj2 (records_write_read (Node 3 9 8) sample_rel sample_page
      ltac:(split; [reflexivity|apply Forall_replicate; unfold is_byte; lia]) ltac:(simpl; lia)
      ltac:(repeat constructor; unfold is_u64; simpl; lia)
      ltac:(repeat constructor; unfold is_u64; simpl; lia)) ltac:(vm_compute; discriminate))
    as (p & E & _ & _ & R & _).
  exists p. split; [exact E|]. apply R. reflexivity.
Defined.

(** Comparing relationships does not look at the next relationship of the target. *)
Lemma relationship_equals_ignores_next_target (r : relationship_t) (x : Z) :
  relationship_equals r
    (Relationship (r_id r) (source_node r) (target_node r) (prev_rel_source r) (next_rel_source r)
       (prev_rel_target r) x (weight r) (r_label r)) = relationship_equals r r.
Proof. reflexivity. Qed.

(** The string of a relationship is measured with a shorter format than it is written with, so
    that its end is cut off, here the label. *)
Lemma relationship_to_string_drops_label :
  exists s, relationship_to_string (fun _ => "0.5"%string) (Relationship 1 2 3 4 5 6 7 0x3FE0000000000000 8) 300 = Ok s /\
    String.length s = 216%nat /\ String.substring 197 19 s = "First Property: 0.5"%string.
Proof. eexists. split; [reflexivity|]. split; vm_compute; reflexivity. Qed.

(** The string of a node has lost its final newline, and with it the size check is one
    too strict. *)
Lemma node_to_string_drops_newline :
  node_to_string (Node 1 2 3) 45 =
    Ok ("Node ID: 1" +:+ String "010"%char ("First Relationship: 2" +:+ String "010"%char "Label: 3")).
Proof. vm_compute. reflexivity. Qed.
