(* ===== verification/HeapFile.v ===== *)
(** The record layer of src/access/heap_file.c: allocation of record slots in the header
    bitmaps, reading and writing of records through the page cache, creation and deletion
    of nodes and relationships, and the traversals of a node's relationships.

    The functions return the changed heap file next to their result.  Where the code holds
    pointers to several relationship structs at once and compares them
    ([create_relationship], [delete_relationship]), the structs are entries of an arena and
    the pointers are their positions, so that aliasing is the code's; freeing them is not
    modelled.  A loop whose bound depends on the data has fuel: scans of the slots of a file
    and walks along a chain both visit fewer positions than the file has slots. *)

From S2P Require Import Prelude Constants LinkedList HTable ArrayList DiskFile PhysicalDatabase Page PageCache HeaderPage Records.
From Stdlib Require Import ZArith Lia.
From stdpp Require Import base list option gmap strings.

#[local] Open Scope Z_scope.

(** ** Data *)

Record heap_file := HeapFile {
  hf_cache : page_cache;
  n_nodes : Z;
  n_rels : Z;
  last_alloc_node_id : Z;
  last_alloc_rel_id : Z;
  num_reads_nodes : Z;
  num_updates_nodes : Z;
  num_reads_rels : Z;
  num_update_rels : Z;
  hf_log : log_file }.

(** *** Field updates *)

Definition set_cache (hf : heap_file) (pc : page_cache) : heap_file :=
  HeapFile pc (n_nodes hf) (n_rels hf) (last_alloc_node_id hf) (last_alloc_rel_id hf)
    (num_reads_nodes hf) (num_updates_nodes hf) (num_reads_rels hf) (num_update_rels hf) (hf_log hf).
Definition hf_log_when (log : bool) (line : log_line) (hf : heap_file) : heap_file :=
  HeapFile (hf_cache hf) (n_nodes hf) (n_rels hf) (last_alloc_node_id hf) (last_alloc_rel_id hf)
    (num_reads_nodes hf) (num_updates_nodes hf) (num_reads_rels hf) (num_update_rels hf)
    (log_when log line (hf_log hf)).
Definition set_n_nodes (hf : heap_file) (n : Z) : heap_file :=
  HeapFile (hf_cache hf) n (n_rels hf) (last_alloc_node_id hf) (last_alloc_rel_id hf)
    (num_reads_nodes hf) (num_updates_nodes hf) (num_reads_rels hf) (num_update_rels hf) (hf_log hf).
Definition set_n_rels (hf : heap_file) (n : Z) : heap_file :=
  HeapFile (hf_cache hf) (n_nodes hf) n (last_alloc_node_id hf) (last_alloc_rel_id hf)
    (num_reads_nodes hf) (num_updates_nodes hf) (num_reads_rels hf) (num_update_rels hf) (hf_log hf).
Definition set_last_alloc (hf : heap_file) (node : bool) (id : Z) : heap_file :=
  HeapFile (hf_cache hf) (n_nodes hf) (n_rels hf)
    (if node then id else last_alloc_node_id hf) (if node then last_alloc_rel_id hf else id)
    (num_reads_nodes hf) (num_updates_nodes hf) (num_reads_rels hf) (num_update_rels hf) (hf_log hf).
Definition count_access (hf : heap_file) (node write : bool) : heap_file :=
  let inc b n := if b : bool then u64 (n + 1) else n in
  HeapFile (hf_cache hf) (n_nodes hf) (n_rels hf) (last_alloc_node_id hf) (last_alloc_rel_id hf)
    (inc (node && negb write) (num_reads_nodes hf)) (inc (node && write) (num_updates_nodes hf))
    (inc (negb node && negb write) (num_reads_rels hf)) (inc (negb node && write) (num_update_rels hf))
    (hf_log hf).

Definition last_alloc (hf : heap_file) (node : bool) : Z :=
  if node then last_alloc_node_id hf else last_alloc_rel_id hf.
Definition ft_of (node : bool) : file_type := if node then node_ft else relationship_ft.
Definition num_slots (node : bool) : Z := if node then NUM_SLOTS_PER_NODE else NUM_SLOTS_PER_REL.

(** Setters of the link fields of a relationship. *)
Definition set_next_source (r : relationship_t) (x : Z) : relationship_t :=
  Relationship (r_id r) (source_node r) (target_node r) (prev_rel_source r) x (prev_rel_target r)
    (next_rel_target r) (weight r) (r_label r).
Definition set_next_target (r : relationship_t) (x : Z) : relationship_t :=
  Relationship (r_id r) (source_node r) (target_node r) (prev_rel_source r) (next_rel_source r)
    (prev_rel_target r) x (weight r) (r_label r).
Definition set_prev_source (r : relationship_t) (x : Z) : relationship_t :=
  Relationship (r_id r) (source_node r) (target_node r) x (next_rel_source r) (prev_rel_target r)
    (next_rel_target r) (weight r) (r_label r).
Definition set_prev_target (r : relationship_t) (x : Z) : relationship_t :=
  Relationship (r_id r) (source_node r) (target_node r) (prev_rel_source r) (next_rel_source r) x
    (next_rel_target r) (weight r) (r_label r).

(** [if (r->source_node == node) r->next_rel_source = x; if (r->target_node == node) ...] *)
Definition adjust_next (node x : Z) (r : relationship_t) : relationship_t :=
  let r := if source_node r =? node then set_next_source r x else r in
  if target_node r =? node then set_next_target r x else r.
Definition adjust_prev (node x : Z) (r : relationship_t) : relationship_t :=
  let r := if source_node r =? node then set_prev_source r x else r in
  if target_node r =? node then set_prev_target r x else r.

Definition set_first (n : node_t) (x : Z) : node_t := Node (n_id n) x (n_label n).

Definition rel_line (tag : string) (r : relationship_t) : log_line := [LStr tag; LNum (r_id r); LNum (r_label r)].
Definition node_line (tag : string) (n : node_t) : log_line := [LStr tag; LNum (n_id n); LNum (n_label n)].

(** ** Slots *)

Section HeapFileOps.
Context `{Sysconf}.

(** The slot of an id within its file, and where its bits are in the header file. *)
Definition record_page (id : Z) : Z := Z.shiftr id CHAR_BIT.
Definition slot_in_page (id : Z) : Z := Z.land id UCHAR_MAX.
Definition absolute_slot (id : Z) : Z := u64 (u64 (record_page id * SLOTS_PER_PAGE) + slot_in_page id).

Definition pages_of (hf : heap_file) (node : bool) : Z :=
  df_num_pages (pdb_records (pdb (hf_cache hf)) (ft_of node)).

Definition check_record_exists (hf : heap_file) (id : Z) (node log : bool) : res (bool * heap_file) :=
  if negb (id mod num_slots node =? 0) then Ok (false, hf)
  else
    let slots := num_slots node in
    let ft := ft_of node in
    let slot := slot_in_page id in
    if (slot + (slots - 1)) mod SLOTS_PER_PAGE <? slot mod SLOTS_PER_PAGE then Ok (false, hf)
    else
      let header_id := absolute_slot id / (PAGE_SIZE * CHAR_BIT) in
      let bit_offset := absolute_slot id mod (PAGE_SIZE * CHAR_BIT) in
      '(header_page, pc) ← pin_page (hf_cache hf) header_id header ft log;
      f ← get_frame pc header_page;
      result ← compare_bits (p_data f) (PAGE_SIZE * CHAR_BIT) UCHAR_MAX bit_offset slots;
      pc ← unpin_page pc header_id header ft log;
      Ok (result, set_cache hf pc).

(** The step from one slot to the next: the new page and slot. *)
Definition next_slot (node : bool) (page slot : Z) : Z * Z :=
  if (slot + num_slots node) mod SLOTS_PER_PAGE <? slot mod SLOTS_PER_PAGE then (u64 (page + 1), 0)
  else (page, u8 (slot + num_slots node)).
Definition id_of (page slot : Z) : Z := Z.lor (u64 (Z.shiftl page CHAR_BIT)) slot.

(** A bound on the number of slots of a file. *)
Definition scan_fuel (hf : heap_file) (node : bool) : nat :=
  S (Z.to_nat (pages_of hf node * SLOTS_PER_PAGE)).

(** The search loop of [next_free_slots]: the id of a free slot in an existing page. *)
Fixpoint find_free (fuel : nat) (hf : heap_file) (node log : bool) (page slot cur_id : Z)
    : res (option Z * heap_file) :=
  match fuel with
  | O => NoFuel
  | S fuel' =>
      if page <? pages_of hf node then
        '(b, hf) ← check_record_exists hf cur_id node log;
        if negb b && (slot mod SLOTS_PER_PAGE <=? (slot + (num_slots node - 1)) mod SLOTS_PER_PAGE)
        then Ok (Some cur_id, hf)
        else
          let '(page, slot) := next_slot node page slot in
          find_free fuel' hf node log page slot (id_of page slot)
      else Ok (None, hf)
  end.

(** [write_bits] on the bits of a record: all set or all cleared. *)
Definition mark_slots (hf : heap_file) (node : bool) (id v : Z) (log : bool) : res heap_file :=
  let header_id := absolute_slot id / (PAGE_SIZE * CHAR_BIT) in
  let byte_offset := absolute_slot id / CHAR_BIT mod PAGE_SIZE in
  let bit_offset := absolute_slot id mod CHAR_BIT in
  '(header_page, pc) ← pin_page (hf_cache hf) header_id header (ft_of node) log;
  pc ← write_bits pc header_page (u16 byte_offset) bit_offset (num_slots node) [v] log;
  pc ← unpin_page pc header_id header (ft_of node) log;
  Ok (set_cache hf pc).

Definition next_free_slots (hf : heap_file) (node log : bool) : res heap_file :=
  let prev := last_alloc hf node in
  '(found, hf) ← find_free (scan_fuel hf node) hf node log (record_page prev) (slot_in_page prev) prev;
  hf ← match found with
       | Some id => Ok (set_last_alloc hf node id)
       | None =>
           '(np, pc) ← new_page (hf_cache hf) (ft_of node) log;
           f ← get_frame pc np;
           if u64 (Z.shiftl ULONG_MAX CHAR_BIT) <? p_no f then Exit
           else
             pc ← unpin_page pc (p_no f) records (ft_of node) log;
             Ok (set_last_alloc (set_cache hf pc) node (u64 (Z.shiftl (p_no f) CHAR_BIT)))
       end;
  mark_slots hf node (last_alloc hf node) UCHAR_MAX log.

(** ** Reading and writing of records *)

(** [if (check_exists && !check_record_exists(hf, id, node, log)) exit(EXIT_FAILURE);] *)
Definition assert_exists (check_exists : bool) (hf : heap_file) (id : Z) (node log : bool) : res heap_file :=
  if check_exists then
    '(b, hf) ← check_record_exists hf id node log;
    if b : bool then Ok hf else Exit
  else Ok hf.

Definition read_node_internal (hf : heap_file) (node_id : Z) (check_exists log : bool)
    : res (node_t * heap_file) :=
  if node_id =? UNINITIALIZED_LONG then Exit
  else
    hf ← assert_exists check_exists hf node_id true log;
    let page_id := record_page node_id in
    '(node_page, pc) ← pin_page (hf_cache hf) page_id records node_ft log;
    f ← get_frame pc node_page;
    node ← node_read (Node node_id UNINITIALIZED_LONG UNINITIALIZED_LONG) f;
    pc ← unpin_page pc page_id records node_ft log;
    Ok (node, count_access (set_cache hf pc) true false).

Definition read_relationship_internal (hf : heap_file) (rel_id : Z) (check_exists log : bool)
    : res (relationship_t * heap_file) :=
  if rel_id =? UNINITIALIZED_LONG then Exit
  else
    hf ← assert_exists check_exists hf rel_id false log;
    let page_id := record_page rel_id in
    '(rel_page, pc) ← pin_page (hf_cache hf) page_id records relationship_ft log;
    f ← get_frame pc rel_page;
    rel ← relationship_read
            (Relationship rel_id (source_node new_relationship) (target_node new_relationship)
               (prev_rel_source new_relationship) (next_rel_source new_relationship)
               (prev_rel_target new_relationship) (next_rel_target new_relationship)
               (weight new_relationship) (r_label new_relationship)) f;
    pc ← unpin_page pc page_id records relationship_ft log;
    Ok (rel, count_access (set_cache hf pc) false false).

Definition update_node_internal (hf : heap_file) (node : node_t) (check_exists log : bool) : res heap_file :=
  if n_id node =? UNINITIALIZED_LONG then Exit
  else
    hf ← assert_exists check_exists hf (n_id node) true log;
    let page_id := record_page (n_id node) in
    '(node_page, pc) ← pin_page (hf_cache hf) page_id records node_ft log;
    f ← get_frame pc node_page;
    f ← node_write node f;
    pc ← unpin_page (set_frame pc node_page f) page_id records node_ft log;
    Ok (count_access (set_cache hf pc) true true).

Definition update_relationship_internal (hf : heap_file) (rel : relationship_t) (check_exists log : bool)
    : res heap_file :=
  if (r_id rel =? UNINITIALIZED_LONG) || (source_node rel =? UNINITIALIZED_LONG)
     || (target_node rel =? UNINITIALIZED_LONG) || double_eqb (weight rel) UNINITIALIZED_WEIGHT then Exit
  else
    hf ← assert_exists check_exists hf (r_id rel) false log;
    let page_id := record_page (r_id rel) in
    '(rel_page, pc) ← pin_page (hf_cache hf) page_id records relationship_ft log;
    f ← get_frame pc rel_page;
    f ← relationship_write rel f;
    pc ← unpin_page (set_frame pc rel_page f) page_id records relationship_ft log;
    Ok (count_access (set_cache hf pc) false true).

Definition read_node (hf : heap_file) (node_id : Z) (log : bool) : res (node_t * heap_file) :=
  '(node, hf) ← read_node_internal hf node_id true log;
  Ok (node, hf_log_when log [LStr "Read_Node"; LNum node_id; LNum (n_label node)] hf).

Definition read_relationship (hf : heap_file) (rel_id : Z) (log : bool) : res (relationship_t * heap_file) :=
  '(rel, hf) ← read_relationship_internal hf rel_id true log;
  Ok (rel, hf_log_when log (rel_line "read_rel" rel) hf).

Definition update_node (hf : heap_file) (node : node_t) (log : bool) : res heap_file :=
  hf ← update_node_internal hf node true log;
  Ok (hf_log_when log (node_line "update_node" node) hf).

Definition update_relationship (hf : heap_file) (rel : relationship_t) (log : bool) : res heap_file :=
  hf ← update_relationship_internal hf rel true log;
  Ok (hf_log_when log (rel_line "update_rel" rel) hf).

(** ** Creation *)

Definition create_node (hf : heap_file) (label : Z) (log : bool) : res (Z * heap_file) :=
  hf ← next_free_slots hf true log;
  let node_id := last_alloc_node_id hf in
  let node := Node node_id UNINITIALIZED_LONG label in
  hf ← update_node_internal hf node false log;
  let hf := hf_log_when log (node_line "Create_Node" node) hf in
  Ok (node_id, set_n_nodes hf (u64 (n_nodes hf + 1))).

(** Relationship structs in memory, and pointers to them. *)
Abbreviation arena := (list relationship_t).
Definition obj (a : arena) (p : nat) : res relationship_t := deref (a !! p).

(** [read_relationship], into a new struct. *)
Definition load_rel (hf : heap_file) (a : arena) (id : Z) (log : bool) : res (nat * arena * heap_file) :=
  '(r, hf) ← read_relationship hf id log;
  Ok (length a, a ++ [r], hf).

(** The link of the chain of [node_id] that comes before the relationship. *)
Definition prev_id (node_id : Z) (r : relationship_t) : Z :=
  if node_id =? source_node r then prev_rel_source r else prev_rel_target r.

(** The first and the last relationship of the source node's chain. *)
Definition load_from (hf : heap_file) (a : arena) (from : node_t) (log : bool)
    : res (nat * nat * arena * heap_file) :=
  let rel := 0%nat in
  if first_relationship from =? UNINITIALIZED_LONG then Ok (rel, rel, a, hf)
  else
    '(first, a, hf) ← load_rel hf a (first_relationship from) log;
    f ← obj a first;
    let temp_id := prev_id (n_id from) f in
    if temp_id =? first_relationship from then Ok (first, first, a, hf)
    else
      '(last, a, hf) ← load_rel hf a temp_id log;
      Ok (first, last, a, hf).

(** Those of the target node's chain, which may be structs that are already loaded. *)
Definition load_to (hf : heap_file) (a : arena) (to : node_t) (first_from last_from : nat) (log : bool)
    : res (nat * nat * arena * heap_file) :=
  let rel := 0%nat in
  if first_relationship to =? UNINITIALIZED_LONG then Ok (rel, rel, a, hf)
  else
    ff ← obj a first_from;
    lf ← obj a last_from;
    '(first, a, hf) ←
      (if first_relationship to =? r_id ff then Ok (first_from, a, hf)
       else if first_relationship to =? r_id lf then Ok (last_from, a, hf)
       else load_rel hf a (first_relationship to) log);
    f ← obj a first;
    let temp_id := prev_id (n_id to) f in
    if temp_id =? r_id ff then Ok (first, first_from, a, hf)
    else if temp_id =? r_id lf then Ok (first, last_from, a, hf)
    else if temp_id =? first_relationship to then Ok (first, first, a, hf)
    else
      '(last, a, hf) ← load_rel hf a temp_id log;
      Ok (first, last, a, hf).

(** The links of the new relationship and of its neighbours. *)
Definition link_new (a : arena) (from_id to_id rel_id : Z) (first_from last_from first_to last_to : nat)
    : res arena :=
  lf ← obj a last_from;
  ff ← obj a first_from;
  lt ← obj a last_to;
  ft ← obj a first_to;
  let rel := 0%nat in
  let a := alter (fun r => set_next_target (set_prev_target (set_next_source (set_prev_source r (r_id lf))
                             (r_id ff)) (r_id lt)) (r_id ft)) rel a in
  let a := alter (adjust_next from_id rel_id) last_from a in
  let a := alter (adjust_next to_id rel_id) last_to a in
  let a := alter (adjust_prev from_id rel_id) first_from a in
  Ok (alter (adjust_prev to_id rel_id) first_to a).

(** [if (cond) { update_relationship_internal(hf, p, false, log); free(p); }] *)
Definition write_back (hf : heap_file) (a : arena) (p : nat) (cond log : bool) : res heap_file :=
  if cond then r ← obj a p; update_relationship_internal hf r false log else Ok hf.

(** [if (node->first_relationship == UNINITIALIZED_LONG) ...] *)
Definition set_first_if_none (hf : heap_file) (node : node_t) (rel_id : Z) (log : bool) : res heap_file :=
  if first_relationship node =? UNINITIALIZED_LONG then update_node hf (set_first node rel_id) log
  else Ok hf.

Definition create_relationship (hf : heap_file) (from_node_id to_node_id weight label : Z) (log : bool)
    : res (Z * heap_file) :=
  if (from_node_id =? UNINITIALIZED_LONG) || (to_node_id =? UNINITIALIZED_LONG)
     || double_eqb weight UNINITIALIZED_WEIGHT then Exit
  else
    hf ← next_free_slots hf false log;
    let rel_id := last_alloc_rel_id hf in
    let a := [Relationship rel_id from_node_id to_node_id UNINITIALIZED_LONG UNINITIALIZED_LONG
                UNINITIALIZED_LONG UNINITIALIZED_LONG weight label] in
    let rel := 0%nat in
    '(from_node, hf) ← read_node hf from_node_id log;
    '(to_node, hf) ← read_node hf to_node_id log;
    '(first_from, last_from, a, hf) ← load_from hf a from_node log;
    '(first_to, last_to, a, hf) ← load_to hf a to_node first_from last_from log;
    a ← link_new a from_node_id to_node_id rel_id first_from last_from first_to last_to;
    hf ← set_first_if_none hf from_node rel_id log;
    hf ← set_first_if_none hf to_node rel_id log;
    let ne (p q : nat) := negb (p =? q)%nat in
    hf ← write_back hf a first_from
           (ne first_from rel && ne first_from last_from && ne first_from first_to && ne first_from last_to) log;
    hf ← write_back hf a last_from (ne last_from rel && ne last_from first_to && ne last_from last_to) log;
    hf ← write_back hf a first_to (ne first_to rel && ne first_to last_to) log;
    hf ← write_back hf a last_to (ne last_to rel) log;
    hf ← write_back hf a rel true log;
    let hf := hf_log_when log [LStr "create_rel"; LNum rel_id; LNum label] hf in
    Ok (rel_id, set_n_rels hf (u64 (n_rels hf + 1))).

(** ** Deletion *)

(** A struct with the given id among the loaded ones, or a new one. *)
Fixpoint load_shared (hf : heap_file) (a : arena) (id : Z) (among : list nat) (log : bool)
    : res (nat * arena * heap_file) :=
  match among with
  | [] => load_rel hf a id log
  | p :: among' =>
      r ← obj a p;
      if id =? r_id r then Ok (p, a, hf) else load_shared hf a id among' log
  end.

(** The relationships before and after the deleted one are linked to each other. *)
Definition unlink (hf : heap_file) (rel : relationship_t) (log : bool) : res heap_file :=
  let a := [rel] in
  let rel_p := 0%nat in
  '(prev_from, a, hf) ← load_rel hf a (prev_rel_source rel) log;
  '(next_from, a, hf) ← load_shared hf a (next_rel_source rel) [prev_from] log;
  '(prev_to, a, hf) ← load_shared hf a (prev_rel_target rel) [prev_from; next_from] log;
  '(next_to, a, hf) ← load_shared hf a (next_rel_target rel) [prev_from; next_from; prev_to] log;
  let a := alter (adjust_next (source_node rel) (next_rel_source rel)) prev_from a in
  let a := alter (adjust_prev (source_node rel) (prev_rel_source rel)) next_from a in
  let a := alter (adjust_next (target_node rel) (next_rel_target rel)) prev_to a in
  let a := alter (adjust_prev (target_node rel) (prev_rel_target rel)) next_to a in
  let ne (p q : nat) := negb (p =? q)%nat in
  hf ← write_back hf a next_from
         (ne next_from rel_p && ne next_from prev_from && ne next_from next_to && ne next_from prev_to) log;
  hf ← write_back hf a prev_from (ne prev_from rel_p && ne prev_from next_to && ne prev_from prev_to) log;
  hf ← write_back hf a next_to (ne next_to rel_p && ne next_to prev_to) log;
  write_back hf a prev_to (ne prev_to rel_p) log.

(** The first relationship of a node, when it was the deleted one. *)
Definition replace_first (hf : heap_file) (node_id rel_id next : Z) (log : bool) : res heap_file :=
  '(node, hf) ← read_node_internal hf node_id true log;
  if first_relationship node =? rel_id then
    update_node hf (set_first node (if next =? rel_id then UNINITIALIZED_LONG else next)) log
  else Ok hf.

Definition delete_relationship (hf : heap_file) (rel_id : Z) (log : bool) : res heap_file :=
  if rel_id =? UNINITIALIZED_LONG then Exit
  else
    '(rel, hf) ← read_relationship hf rel_id log;
    hf ← (if rel_id =? prev_rel_source rel then Ok hf else unlink hf rel log);
    hf ← replace_first hf (source_node rel) (r_id rel) (next_rel_source rel) log;
    hf ← replace_first hf (target_node rel) (r_id rel) (next_rel_target rel) log;
    let hf := hf_log_when log [LStr "delete_rel"; LNum rel_id; LNum (r_label rel)] hf in
    hf ← mark_slots hf false rel_id 0 log;
    let hf := if rel_id <? last_alloc_rel_id hf then set_last_alloc hf false rel_id else hf in
    Ok (set_n_rels hf (u64 (n_rels hf - 1))).

(** The loop of [delete_node] over the chain, from its last relationship to its first. *)
Fixpoint delete_chain (fuel : nat) (hf : heap_file) (node_id prev_rel_id last_id : Z) (log : bool)
    : res heap_file :=
  match fuel with
  | O => NoFuel
  | S fuel' =>
      if prev_rel_id =? last_id then Ok hf
      else
        '(rel, hf) ← read_relationship hf prev_rel_id log;
        let last_id := prev_rel_id in
        prev_rel_id ← (if node_id =? source_node rel then Ok (prev_rel_source rel)
                       else if node_id =? target_node rel then Ok (prev_rel_target rel) else Exit);
        hf ← delete_relationship hf (r_id rel) log;
        delete_chain fuel' hf node_id prev_rel_id last_id log
  end.

Definition delete_node (hf : heap_file) (node_id : Z) (log : bool) : res heap_file :=
  if node_id =? UNINITIALIZED_LONG then Exit
  else
    '(node, hf) ← read_node_internal hf node_id true log;
    hf ← (if first_relationship node =? UNINITIALIZED_LONG then Ok hf
          else
            '(rel, hf) ← read_relationship hf (first_relationship node) log;
            delete_chain (S (scan_fuel hf false)) hf node_id (prev_id node_id rel) UNINITIALIZED_LONG log);
    let hf := hf_log_when log [LStr "delete_node"; LNum node_id; LNum (n_label node)] hf in
    hf ← mark_slots hf true node_id 0 log;
    let hf := if node_id <? last_alloc_node_id hf then set_last_alloc hf true node_id else hf in
    Ok (set_n_nodes hf (u64 (n_nodes hf - 1))).

(** ** Scans and traversals *)

(** The loop over the slots of a file, with an action on the slots in use that ends it
    ([inl]) or goes on ([inr]). *)
Fixpoint scan {A B} (fuel : nat) (node log : bool) (act : Z -> A -> heap_file -> res ((B + A) * heap_file))
    (acc : A) (hf : heap_file) (page slot cur_id : Z) : res ((B + A) * heap_file) :=
  match fuel with
  | O => NoFuel
  | S fuel' =>
      '(b, hf) ← check_record_exists hf cur_id node log;
      '(r, hf) ← (if b : bool then act cur_id acc hf else Ok (inr acc, hf));
      match r with
      | inl x => Ok (inl x, hf)
      | inr acc =>
          let '(page, slot) := next_slot node page slot in
          if page <? pages_of hf node
          then scan fuel' node log act acc hf page slot (id_of page slot)
          else Ok (inr acc, hf)
      end
  end.

Definition append_node (log : bool) (id : Z) (acc : alist node_t) (hf : heap_file)
    : res ((Empty_set + alist node_t) * heap_file) :=
  '(node, hf) ← read_node_internal hf id false log;
  let hf := hf_log_when log (node_line "read_node" node) hf in
  acc ← array_list_append acc node;
  Ok (inr acc, hf).

Definition append_rel (log : bool) (id : Z) (acc : alist relationship_t) (hf : heap_file)
    : res ((Empty_set + alist relationship_t) * heap_file) :=
  '(rel, hf) ← read_relationship_internal hf id false log;
  let hf := hf_log_when log (rel_line "read_rel" rel) hf in
  acc ← array_list_append acc rel;
  Ok (inr acc, hf).

Definition scanned {A} (r : (Empty_set + A) * heap_file) : A * heap_file :=
  match r with (inl e, _) => match e with end | (inr a, hf) => (a, hf) end.

Definition get_nodes (hf : heap_file) (log : bool) : res (alist node_t * heap_file) :=
  r ← scan (scan_fuel hf true) true log (append_node log) array_list_create hf 0 0 0;
  Ok (scanned r).

Definition get_relationships (hf : heap_file) (log : bool) : res (alist relationship_t * heap_file) :=
  r ← scan (scan_fuel hf false) false log (append_rel log) array_list_create hf 0 0 0;
  Ok (scanned r).

Definition match_node (log : bool) (label id : Z) (acc : unit) (hf : heap_file)
    : res ((node_t + unit) * heap_file) :=
  '(node, hf) ← read_node_internal hf id false log;
  let hf := hf_log_when log (node_line "read_node" node) hf in
  Ok (if label =? n_label node then inl node else inr tt, hf).

Definition match_rel (log : bool) (label id : Z) (acc : unit) (hf : heap_file)
    : res ((relationship_t + unit) * heap_file) :=
  '(rel, hf) ← read_relationship_internal hf id false log;
  let hf := hf_log_when log (rel_line "read_rel" rel) hf in
  Ok (if label =? r_label rel then inl rel else inr tt, hf).

Definition find_node (hf : heap_file) (label : Z) (log : bool) : res (node_t * heap_file) :=
  '(r, hf) ← scan (scan_fuel hf true) true log (match_node log label) tt hf 0 0 0;
  match r with inl node => Ok (node, hf) | inr _ => Exit end.

Definition find_relationships (hf : heap_file) (label : Z) (log : bool)
    : res (relationship_t * heap_file) :=
  '(r, hf) ← scan (scan_fuel hf false) false log (match_rel log label) tt hf 0 0 0;
  match r with inl rel => Ok (rel, hf) | inr _ => Exit end.

(** Creation counts the records with two scans. *)
Definition heap_file_create (pc : page_cache) (log_path : string) : res heap_file :=
  let hf := HeapFile pc 0 0 0 0 0 0 0 0 (log_open log_path) in
  '(nodes, hf) ← get_nodes hf false;
  let hf := set_n_nodes hf (array_list_size nodes) in
  '(rels, hf) ← get_relationships hf false;
  Ok (set_n_rels hf (array_list_size rels)).

(** The next relationship in the chain of a node. *)
Definition next_id (node_id : Z) (r : relationship_t) : res Z :=
  if node_id =? source_node r then Ok (next_rel_source r)
  else if node_id =? target_node r then Ok (next_rel_target r) else Exit.

(** Whether a relationship leaves or enters the node as the direction asks. *)
Definition has_direction (node_id : Z) (direction : direction_t) (r : relationship_t) : bool :=
  ((source_node r =? node_id) && negb (bool_decide (direction = INCOMING)))
  || ((target_node r =? node_id) && negb (bool_decide (direction = OUTGOING))).

Fixpoint next_relationship_loop (fuel : nat) (hf : heap_file) (node_id start_rel_id rel_id : Z)
    (direction : direction_t) (log : bool) : res (Z * heap_file) :=
  match fuel with
  | O => NoFuel
  | S fuel' =>
      '(rel, hf) ← read_relationship hf rel_id log;
      if negb (rel_id =? start_rel_id) && has_direction node_id direction rel then Ok (r_id rel, hf)
      else
        rel_id ← next_id node_id rel;
        if rel_id =? start_rel_id then Ok (UNINITIALIZED_LONG, hf)
        else next_relationship_loop fuel' hf node_id start_rel_id rel_id direction log
  end.

Definition next_relationship_id (hf : heap_file) (node_id : Z) (rel : relationship_t)
    (direction : direction_t) (log : bool) : res (Z * heap_file) :=
  if node_id =? UNINITIALIZED_LONG then Exit
  else
    rel_id ← next_id node_id rel;
    next_relationship_loop (scan_fuel hf false) hf node_id (r_id rel) rel_id direction log.

(** The loop of [expand]. *)
Fixpoint expand_loop (fuel : nat) (hf : heap_file) (node_id start_id rel_id : Z) (direction : direction_t)
    (result : alist relationship_t) (log : bool) : res (alist relationship_t * heap_file) :=
  match fuel with
  | O => NoFuel
  | S fuel' =>
      if rel_id =? UNINITIALIZED_LONG then Ok (result, hf)
      else
        '(rel, hf) ← read_relationship hf rel_id log;
        result ← array_list_append result rel;
        '(rel_id, hf) ← next_relationship_id hf node_id rel direction log;
        if rel_id =? start_id then Ok (result, hf)
        else expand_loop fuel' hf node_id start_id rel_id direction result log
  end.

Definition expand (hf : heap_file) (node_id : Z) (direction : direction_t) (log : bool)
    : res (alist relationship_t * heap_file) :=
  '(node, hf) ← read_node hf node_id log;
  let rel_id := first_relationship node in
  if rel_id =? UNINITIALIZED_LONG then Ok (array_list_create, hf)
  else
    '(rel, hf) ← read_relationship hf rel_id log;
    '(rel_id, hf) ← (if has_direction node_id direction rel then Ok (rel_id, hf)
                     else next_relationship_id hf node_id rel direction log);
    expand_loop (S (scan_fuel hf false)) hf node_id rel_id rel_id direction array_list_create log.

(** The loop of [contains_relationship_from_to]; [None] is the null pointer. *)
Fixpoint contains_loop (fuel : nat) (hf : heap_file) (node_from node_to start_id next_id : Z)
    (direction : direction_t) (log : bool) : res (option relationship_t * heap_file) :=
  match fuel with
  | O => NoFuel
  | S fuel' =>
      '(rel, hf) ← read_relationship hf next_id log;
      if (negb (bool_decide (direction = INCOMING)) && (source_node rel =? node_from)
            && (target_node rel =? node_to))
         || (negb (bool_decide (direction = OUTGOING)) && (source_node rel =? node_to)
               && (target_node rel =? node_from))
      then Ok (Some rel, hf)
      else
        '(next_id, hf) ← next_relationship_id hf node_from rel direction log;
        if negb (next_id =? start_id) && negb (next_id =? UNINITIALIZED_LONG)
        then contains_loop fuel' hf node_from node_to start_id next_id direction log
        else Ok (None, hf)
  end.

(** With the fuel of the search as an argument. *)
Definition contains_relationship_fuel (fuel : nat) (hf : heap_file) (node_from node_to : Z)
    (direction : direction_t) (log : bool) : res (option relationship_t * heap_file) :=
  if (node_from =? UNINITIALIZED_LONG) || (node_to =? UNINITIALIZED_LONG) then Ok (None, hf)
  else
    '(b, hf) ← check_record_exists hf node_from true log;
    if negb b then Ok (None, hf)
    else
      '(b, hf) ← check_record_exists hf node_to true log;
      if negb b then Ok (None, hf)
      else
        '(source, hf) ← read_node_internal hf node_from false log;
        '(target, hf) ← read_node_internal hf node_to false log;
        let hf := hf_log_when log (node_line "read_node" source) hf in
        let hf := hf_log_when log (node_line "read_node" target) hf in
        if (first_relationship source =? UNINITIALIZED_LONG)
           || (first_relationship target =? UNINITIALIZED_LONG) then Ok (None, hf)
        else
          let start_id := first_relationship source in
          contains_loop fuel hf node_from node_to start_id start_id direction log.

Definition contains_relationship_from_to (hf : heap_file) (node_from node_to : Z)
    (direction : direction_t) (log : bool) : res (option relationship_t * heap_file) :=
  contains_relationship_fuel (S (scan_fuel hf false)) hf node_from node_to direction log.

Definition heap_file_swap_log_file (hf : heap_file) (log_file_path : string) : heap_file :=
  HeapFile (hf_cache hf) (n_nodes hf) (n_rels hf) (last_alloc_node_id hf) (last_alloc_rel_id hf)
    (num_reads_nodes hf) (num_updates_nodes hf) (num_reads_rels hf) (num_update_rels hf)
    (log_open log_file_path).
End HeapFileOps.
