(* ===== verification/HeapFileInv.v ===== *)
(** What the primitives of HeapFile.v do to the records.

    [node_of] and [rel_of] read off a page cache which records it stores: an id whose slot
    bits are all set stands for the record in its slot.  [stores] relates a cache to an
    abstract store, two finite maps from ids to records; the lemmas show that checking,
    reading, updating, allocating and freeing records are lookups, insertions and deletions
    on these maps, whatever pages are loaded or evicted on the way. *)

From S2P Require Import Prelude Constants LinkedList HTable ArrayList DiskFile PhysicalDatabase Page PageCache PageCacheInv HeaderPage Records HeapFile.
From Stdlib Require Import ZArith Lia.
From stdpp Require Import base list list_numbers option gmap strings.

#[local] Open Scope Z_scope.

(** Page sizes for which ids address slots: an id has eight bits for the slot of a page,
    and a relationship has four slots. *)
Class RecordPages `{Sysconf} : Prop := {
  rp_mult : exists k, SLOTS_PER_PAGE = 4 * k;
  rp_min : 16 <= SLOTS_PER_PAGE;
  rp_max : SLOTS_PER_PAGE <= 256 }.

#[export] Instance x86_record_pages : RecordPages (H := x86_pages).
Proof. split; [exists 64; reflexivity|vm_compute; discriminate..]. Qed.

(** Within aligned groups of [n], division by a multiple of [n] does not change. *)
Lemma div_mod_aligned M a j n :
  0 < n -> 0 < M -> M mod n = 0 -> a mod n = 0 -> 0 <= j < n ->
  (a + j) / M = a / M /\ (a + j) mod M = a mod M + j.
Proof.
  intros Hn HM EM Ea Hj. apply Z.div_exact in EM, Ea; [|lia..].
  set (x := M / n) in *. set (y := a / n) in *. clearbody x y. subst M a.
  assert (Hx : 0 < x) by nia.
  pose proof (Z.mul_mod_distr_l y x n ltac:(lia) ltac:(lia)) as E.
  pose proof (Z.div_mul_cancel_l y x n ltac:(lia) ltac:(lia)) as E'.
  pose proof (Z.mod_pos_bound y x Hx) as B.
  pose proof (Z.div_mod y x ltac:(lia)) as D. rewrite E, E'. clear E E'.
  set (q := y / x) in *. set (r := y mod x) in *. clearbody q r.
  split; symmetry; [apply Z.div_unique with (n * r + j)|apply Z.mod_unique with q]; nia.
Qed.

Section Geometry.
Context `{RecordPages}.
Implicit Types (pc : page_cache) (f : page) (fk : file_kind) (ft : file_type) (node : bool) (id s : Z).

(** *** Slots *)

Lemma num_slots_cases node : num_slots node = 1 /\ node = true \/ num_slots node = 4 /\ node = false.
Proof. destruct node; [left|right]; split; reflexivity. Qed.

(** Ids of slots of existing pages, and slots of one record. *)
Definition valid node id : Prop := 0 <= id /\ id mod 256 < SLOTS_PER_PAGE /\ id mod num_slots node = 0.
Definition in_file pc node id : Prop := valid node id /\ id / 256 < n_pages pc records (ft_of node).

#[export] Instance valid_dec node id : Decision (valid node id).
Proof. unfold valid. apply _. Defined.
#[export] Instance in_file_dec pc node id : Decision (in_file pc node id).
Proof. unfold in_file. apply _. Defined.

(** The slot of an id within its file. *)
Definition slot_no id : Z := id / 256 * SLOTS_PER_PAGE + id mod 256.

(** The bits of a header page. *)
Definition header_bits : Z := PAGE_SIZE * CHAR_BIT.

Lemma header_bits_slots : header_bits = 128 * SLOTS_PER_PAGE.
Proof. unfold header_bits, CHAR_BIT. pose proof SLOTS_PER_PAGE_size. unfold SLOT_SIZE in *. lia. Qed.

Lemma record_page_eq id : record_page id = id / 256.
Proof. unfold record_page, CHAR_BIT. by rewrite Z.shiftr_div_pow2. Qed.
Lemma slot_in_page_eq id : slot_in_page id = id mod 256.
Proof. unfold slot_in_page, UCHAR_MAX. change 255 with (Z.ones 8). by rewrite Z.land_ones. Qed.

Lemma id_parts id : id = 256 * (id / 256) + id mod 256 /\ 0 <= id mod 256 < 256.
Proof. split; [apply Z.div_mod; lia|apply Z.mod_pos_bound; lia]. Qed.

Lemma mod_slots node id : id mod num_slots node = (id mod 256) mod num_slots node.
Proof. destruct (num_slots_cases node) as [[-> _]|[-> _]]; lia. Qed.

Lemma id_of_eq page slot : 0 <= page < 2 ^ 56 -> 0 <= slot < 256 -> id_of page slot = 256 * page + slot.
Proof.
  intros Hp Hs. unfold id_of, CHAR_BIT. rewrite Z.shiftl_mul_pow2 by lia. change (2 ^ 8) with 256.
  rewrite u64_small by (unfold is_u64; lia).
  rewrite Z.lor_comm. rewrite <- (Z.mod_small slot 256) by lia. change 256 with (2 ^ 8).
  rewrite <- Z.land_ones by lia.
  assert (X : forall a b, Z.lor (Z.land a (Z.ones 8)) (b * 2 ^ 8) = Z.land a (Z.ones 8) + b * 2 ^ 8).
  { intros a b. rewrite <- Z.lxor_lor; [rewrite <- Z.add_nocarry_lxor; [done|]|].
    all: apply Z.bits_inj'; intros j Hj; rewrite !Z.land_spec, ones_bit, Z.mul_pow2_bits, Z.bits_0 by lia.
    all: destruct (Z.ltb_spec j 8); [rewrite (Z.testbit_neg_r b) by lia|]; by rewrite ?andb_false_r. }
  rewrite X, Z.land_ones by lia. change (2 ^ 8) with 256. lia.
Qed.

(** Consecutive slots of a record lie in one header page. *)
Lemma slots_together node id j :
  valid node id -> 0 <= j < num_slots node ->
  (slot_no id + j) / header_bits = slot_no id / header_bits /\
  (slot_no id + j) mod header_bits = slot_no id mod header_bits + j.
Proof.
  intros (H0' & Hs & Hm) Hj. destruct rp_mult as [k Ek]. pose proof rp_min.
  assert (A : slot_no id mod num_slots node = 0).
  { unfold slot_no. rewrite mod_slots in Hm. rewrite Ek.
    destruct (num_slots_cases node) as [[E _]|[E _]]; rewrite E in *; [apply Z.mod_1_r|].
    replace (id / 256 * (4 * k) + id mod 256) with (id mod 256 + (id / 256 * k) * 4) by lia.
    by rewrite Z.mod_add. }
  assert (B : header_bits mod num_slots node = 0).
  { rewrite header_bits_slots. destruct (num_slots_cases node) as [[-> _]|[-> _]]; [apply Z.mod_1_r|].
    replace (128 * SLOTS_PER_PAGE) with (32 * SLOTS_PER_PAGE * 4) by lia. by rewrite Z.mod_mul. }
  pose proof header_bits_slots as HB. set (M := header_bits) in *. set (a := slot_no id) in *. clearbody M a.
  assert (Hn : 0 < num_slots node) by (destruct (num_slots_cases node) as [[-> _]|[-> _]]; lia).
  apply div_mod_aligned with (num_slots node); (done || lia).
Qed.
End Geometry.

(** ** Pinning, changing and unpinning a page *)

Section Access.
Context `{Sysconf}.
Implicit Types (pc : page_cache) (f : page) (fk : file_kind) (ft : file_type).

(** [pc'] shows the pages of [pc], except that page [p] of a file is [d]. *)
Record updated pc pc' fk ft (p : Z) (d : list Z) : Prop := Updated {
  up_pages : forall fk' ft', n_pages pc' fk' ft' = n_pages pc fk' ft';
  up_view : forall fk' ft' q, fk' <> catalogue -> 0 <= q < n_pages pc fk' ft' ->
    view pc' fk' ft' q = if decide (fk' = fk /\ ft' = ft /\ q = p) then d else view pc fk' ft' q }.

Lemma quiescent_pdb pc : quiescent pc -> pdb_ok (pdb pc).
Proof. intros [(free & C & _) _ _ _]. apply C. Qed.

Lemma n_pages_bound pc fk ft : quiescent pc -> 0 <= n_pages pc fk ft <= MAX_PAGE_NO.
Proof.
  intros Q. pose proof (file_paged _ fk ft (quiescent_pdb _ Q)) as P.
  pose proof (paged_nonneg _ P). pose proof (df_ok_max _ (proj1 P)). unfold n_pages. lia.
Qed.

Lemma access_page pc fk ft p log :
  quiescent pc -> fk <> catalogue -> 0 <= p < n_pages pc fk ft ->
  exists i f pc1, pin_page pc p fk ft log = Ok (i, pc1) /\ get_frame pc1 i = Ok f /\
    page_ok f /\ pin_count f = 1 /\ p_data f = view pc fk ft p /\
    (forall log', exists pc2, unpin_page pc1 p fk ft log' = Ok pc2 /\ quiescent pc2 /\ same_store pc pc2) /\
    forall d log', page_ok (set_page_data f d) ->
      exists pc2, unpin_page (set_frame pc1 i (set_page_data f d)) p fk ft log' = Ok pc2 /\
        quiescent pc2 /\ updated pc pc2 fk ft p d.
Proof.
  intros Q Hk Hp. destruct (pin_page_ok pc fk ft p log Q Hk Hp) as (i & f & pc1 & E & Pi & S & Hh & Hd).
  assert (P : page_ok f).
  { destruct Pi as [(free & C & [Hi _] & _) Hf _ _ _ _]. by destruct (co_frame _ _ C i f ltac:(lia) Hf). }
  exists i, f, pc1. split_and!; [done|unfold get_frame; by rewrite (pi_frame _ _ _ Pi)|done|apply Pi|done|..].
  - intros log'. destruct (unpin_page_ok pc1 i f fk ft p log' Pi Hk Hh) as (pc2 & E2 & Q2 & S2).
    exists pc2. split_and!; [done|done|]. by eapply same_store_trans.
  - intros d log' Pd. assert (Ch : changed f (set_page_data f d)) by by split.
    destruct (modify_ok pc1 i f _ fk ft p Pi Hk Hh Ch) as (Pi' & Hh' & N' & V').
    destruct (unpin_page_ok _ i _ fk ft p log' Pi' Hk Hh') as (pc2 & E2 & Q2 & S2).
    exists pc2. split_and!; [done|done|]. split.
    + intros. by rewrite (ss_pages _ _ S2), N', (ss_pages _ _ S).
    + intros fk' ft' q Hk' Hq.
      rewrite (ss_view _ _ S2) by (done || (rewrite N', (ss_pages _ _ S); done)).
      rewrite V' by done. case_decide; [done|]. by rewrite (ss_view _ _ S).
Qed.

(** The pages that clients see are whole pages of bytes. *)
Lemma view_page pc fk ft p :
  quiescent pc -> fk <> catalogue -> 0 <= p < n_pages pc fk ft ->
  length (view pc fk ft p) = page_bytes /\ Forall is_byte (view pc fk ft p).
Proof.
  intros Q Hk Hp. destruct (access_page pc fk ft p false Q Hk Hp) as (i & f & pc1 & _ & _ & P & _ & Hd & _).
  rewrite <- Hd. exact P.
Qed.
End Access.

(** ** Bits of the headers *)

Section Bits.
Context `{RecordPages}.
Implicit Types (pc : page_cache) (hf : heap_file) (ft : file_type) (node : bool) (id s : Z).

Definition header_bit pc ft s : bool := bit_at (view pc header ft (s / header_bits)) (s mod header_bits).

(** Whether the slots of the id are in use. *)
Definition used_b pc node id : bool :=
  forallb (fun j => header_bit pc (ft_of node) (slot_no id + j)) (seqZ 0 (num_slots node)).

Lemma used_b_true pc node id :
  used_b pc node id = true <->
  forall j, 0 <= j < num_slots node -> header_bit pc (ft_of node) (slot_no id + j) = true.
Proof.
  unfold used_b. rewrite forallb_forall. split.
  - intros A j Hj. apply A. apply list_elem_of_In, elem_of_seqZ. lia.
  - intros A j Hj%list_elem_of_In%elem_of_seqZ. apply A. lia.
Qed.

Lemma header_bits_pos : 0 < header_bits.
Proof. rewrite header_bits_slots. pose proof rp_min. lia. Qed.

(** The header files have a bit for every slot. *)
Lemma capacity pc ft : quiescent pc ->
  n_pages pc records ft * SLOTS_PER_PAGE <= n_pages pc header ft * header_bits.
Proof.
  intros Q. destruct (pdb_fts _ (quiescent_pdb _ Q) ft) as [[_ P] _ Sl R B _].
  unfold n_pages, file_of, header_bits. rewrite Sl in R. unfold is_u64 in B. rewrite R, P in B. lia.
Qed.

Lemma slot_no_bound pc node id : quiescent pc -> in_file pc node id ->
  0 <= slot_no id /\ slot_no id + num_slots node <= n_pages pc records (ft_of node) * SLOTS_PER_PAGE.
Proof.
  intros Q ((H0' & Hs & Hm) & Hp). unfold slot_no. rewrite mod_slots in Hm.
  destruct rp_mult as [k Ek]. pose proof rp_min as Mn. rewrite Ek in *. pose proof (id_parts id) as Ip.
  set (q := id / 256) in *. set (r := id mod 256) in *. set (N := n_pages _ _ _) in *. clearbody q r N.
  assert (0 <= q) by lia. split; [nia|].
  assert (r + num_slots node <= 4 * k).
  { destruct (num_slots_cases node) as [[E _]|[E _]]; rewrite E in *; lia. }
  nia.
Qed.

Lemma slot_header pc node id j : quiescent pc -> in_file pc node id -> 0 <= j < num_slots node ->
  0 <= (slot_no id + j) / header_bits < n_pages pc header (ft_of node) /\
  0 <= (slot_no id + j) mod header_bits < header_bits.
Proof.
  intros Q I Hj. pose proof (slot_no_bound pc node id Q I). pose proof (capacity pc (ft_of node) Q).
  pose proof header_bits_pos. split; [|apply Z.mod_pos_bound; lia].
  split; [apply Z.div_pos; lia|]. apply Z.div_lt_upper_bound; lia.
Qed.

Lemma absolute_slot_eq pc node id : quiescent pc -> in_file pc node id -> absolute_slot id = slot_no id.
Proof.
  intros Q I. pose proof (slot_no_bound pc node id Q I) as B. pose proof (n_pages_bound pc records (ft_of node) Q) as N.
  unfold absolute_slot, slot_no in *. rewrite record_page_eq, slot_in_page_eq.
  assert (M : MAX_PAGE_NO * SLOTS_PER_PAGE < 2 ^ 64).
  { pose proof SLOTS_PER_PAGE_size as S. unfold SLOT_SIZE in S. pose proof rp_min.
    assert (MAX_PAGE_NO * PAGE_SIZE <= LONG_MAX) by (unfold MAX_PAGE_NO; rewrite Z.mul_comm; apply Z.mul_div_le; lia).
    unfold LONG_MAX in *. nia. }
  pose proof rp_min. destruct I as ((I0 & _) & _).
  assert (Hn : 1 <= num_slots node) by (destruct (num_slots_cases node) as [[-> _]|[-> _]]; lia).
  assert (NM : n_pages pc records (ft_of node) * SLOTS_PER_PAGE <= MAX_PAGE_NO * SLOTS_PER_PAGE)
    by (apply Z.mul_le_mono_nonneg_r; lia).
  assert (Q0 : 0 <= id / 256 * SLOTS_PER_PAGE) by (apply Z.mul_nonneg_nonneg; [apply Z.div_pos; lia|lia]).
  pose proof (Z.mod_pos_bound id 256 ltac:(lia)).
  rewrite (u64_small (_ * _)) by (unfold is_u64; lia). by rewrite u64_small by (unfold is_u64; lia).
Qed.

Lemma mask_bit n j : 1 <= n <= 8 -> 0 <= j < n -> Z.testbit UCHAR_MAX (n - 1 - j) = true.
Proof. intros. change UCHAR_MAX with (Z.ones 8). rewrite ones_bit by lia. apply andb_true_iff. lia. Qed.

Definition same_but_cache hf hf' : Prop := hf' = set_cache hf (hf_cache hf').

(** The check needs a header page for the slots, and that their number does not wrap. *)
Lemma check_header_ok hf node id log :
  quiescent (hf_cache hf) -> valid node id -> absolute_slot id = slot_no id -> 0 <= slot_no id ->
  slot_no id + num_slots node <= n_pages (hf_cache hf) header (ft_of node) * header_bits ->
  exists hf', check_record_exists hf id node log = Ok (used_b (hf_cache hf) node id, hf') /\
    quiescent (hf_cache hf') /\ same_store (hf_cache hf) (hf_cache hf') /\ same_but_cache hf hf'.
Proof.
  intros Q V Ea Hnn Hcap. pose proof V as (H0' & Hs & Hm). set (pc := hf_cache hf) in *.
  unfold check_record_exists. change (hf_cache hf) with pc. rewrite Hm. cbn [Z.eqb negb].
  rewrite slot_in_page_eq.
  destruct rp_mult as [k Ek]. pose proof rp_min. pose proof (mod_slots node id) as Ms. rewrite Hm in Ms.
  assert (B : id mod 256 + num_slots node <= SLOTS_PER_PAGE).
  { rewrite Ek in *. set (r := id mod 256) in *. clearbody r.
    destruct (num_slots_cases node) as [[E _]|[E _]]; rewrite E in *; lia. }
  pose proof (id_parts id). assert (Hn : 1 <= num_slots node <= 8)
    by (destruct (num_slots_cases node) as [[E _]|[E _]]; lia).
  rewrite !(Z.mod_small _ SLOTS_PER_PAGE) by lia. rewrite (proj2 (Z.ltb_ge _ _)) by lia.
  rewrite Ea. fold header_bits. pose proof header_bits_pos as HB.
  assert (Hh : 0 <= slot_no id / header_bits < n_pages pc header (ft_of node)).
  { split; [apply Z.div_pos; lia|]. apply Z.div_lt_upper_bound; lia. }
  pose proof (Z.mod_pos_bound (slot_no id) header_bits HB) as Hb.
  destruct (access_page pc header (ft_of node) _ log Q ltac:(done) Hh)
    as (i & f & pc1 & E1 & E2 & P & _ & D & U & _).
  rewrite E1. cbn [mbind res_bind]. rewrite E2. cbn [mbind res_bind].
  destruct P as [L F]. pose proof page_bytes_Z as PB.
  assert (Eb : header_bits = 8 * Z.of_nat (length (p_data f))) by (rewrite L; unfold header_bits, CHAR_BIT; lia).
  replace (compare_bits (p_data f) header_bits)
    with (compare_bits (p_data f) (8 * Z.of_nat (length (p_data f)))) by (by rewrite <- Eb).
  assert (Fit : slot_no id mod header_bits + num_slots node <= header_bits).
  { destruct (slots_together node id (num_slots node - 1)) as [_ T]; [done|lia|].
    pose proof (Z.mod_pos_bound (slot_no id + (num_slots node - 1)) header_bits HB). lia. }
  destruct (compare_ok (p_data f) UCHAR_MAX (slot_no id mod header_bits) (num_slots node) F
              ltac:(unfold is_byte, UCHAR_MAX; lia) ltac:(lia) Hn ltac:(lia)) as (b & Eb' & Hbit).
  rewrite Eb'. cbn [mbind res_bind]. destruct (U log) as (pc2 & E3 & Q2 & S2). rewrite E3.
  cbn [mbind res_bind]. exists (set_cache hf pc2). split_and!; [|done|done|done].
  do 3 f_equal. apply eq_iff_eq_true. rewrite Hbit, used_b_true. apply forall_proper. intros j.
  split; intros A Hj; specialize (A Hj); destruct (slots_together node id j) as [T1 T2]; try done.
  - unfold header_bit. rewrite T1, T2, <- D, A. by apply mask_bit.
  - unfold header_bit in A. rewrite T1, T2, <- D in A. rewrite A. symmetry. by apply mask_bit.
Qed.

Lemma check_ok hf node id log :
  quiescent (hf_cache hf) -> in_file (hf_cache hf) node id ->
  exists hf', check_record_exists hf id node log = Ok (used_b (hf_cache hf) node id, hf') /\
    quiescent (hf_cache hf') /\ same_store (hf_cache hf) (hf_cache hf') /\ same_but_cache hf hf'.
Proof.
  intros Q I. pose proof (slot_no_bound _ node id Q I). pose proof (capacity _ (ft_of node) Q).
  apply check_header_ok; [done|apply I|by eapply absolute_slot_eq|lia|lia].
Qed.
End Bits.

(** ** Marking slots *)

Section Mark.
Context `{RecordPages}.
Implicit Types (pc : page_cache) (hf : heap_file) (ft : file_type) (node : bool) (id s : Z).

Lemma slot_no_aligned node id : valid node id -> slot_no id mod num_slots node = 0.
Proof.
  intros (_ & _ & Hm). unfold slot_no. rewrite mod_slots in Hm. destruct rp_mult as [k Ek].
  rewrite Ek. destruct (num_slots_cases node) as [[E _]|[E _]]; rewrite E in *; [apply Z.mod_1_r|].
  replace (id / 256 * (4 * k) + id mod 256) with (id mod 256 + (id / 256 * k) * 4) by lia.
  by rewrite Z.mod_add.
Qed.

(** The byte and the bit in the byte. *)
Lemma header_position node id :
  valid node id ->
  8 * (slot_no id / 8 mod PAGE_SIZE) + slot_no id mod 8 = slot_no id mod header_bits /\
  0 <= slot_no id mod 8 /\ slot_no id mod 8 + num_slots node <= 8 /\ 0 <= slot_no id / 8 mod PAGE_SIZE < PAGE_SIZE.
Proof.
  intros V. pose proof (slot_no_aligned node id V) as A. pose proof PAGE_SIZE_pos as PP.
  split; [|split; [|split]].
  - unfold header_bits, CHAR_BIT. rewrite (Z.mul_comm PAGE_SIZE). rewrite Z.rem_mul_r by lia. lia.
  - clear. lia.
  - destruct (num_slots_cases node) as [[E _]|[E _]]; rewrite E in *; clear -A; lia.
  - apply Z.mod_pos_bound; lia.
Qed.

Lemma PAGE_SIZE_16_bits : PAGE_SIZE < 2 ^ 16.
Proof. pose proof SLOTS_PER_PAGE_size as S. unfold SLOT_SIZE in S. pose proof rp_max. lia. Qed.

(** The slots of the record, among the slots of its header page. *)
Lemma slot_range node id s :
  valid node id ->
  slot_no id <= s < slot_no id + num_slots node <->
  s / header_bits = slot_no id / header_bits /\
  slot_no id mod header_bits <= s mod header_bits < slot_no id mod header_bits + num_slots node.
Proof.
  intros V. pose proof header_bits_pos as HB. split.
  - intros Hs. assert (Hd : 0 <= s - slot_no id < num_slots node) by lia.
    destruct (slots_together node id _ V Hd) as [E1 E2].
    replace (slot_no id + (s - slot_no id)) with s in E1, E2 by lia. rewrite E1, E2.
    split; [done|]. clear -Hs. set (m := slot_no id mod header_bits). clearbody m. lia.
  - intros [E1 E2]. pose proof (Z.div_mod s header_bits ltac:(lia)) as D.
    pose proof (Z.div_mod (slot_no id) header_bits ltac:(lia)) as D'. rewrite E1 in D.
    clear -D D' E2. set (m := slot_no id mod header_bits) in *. set (m' := s mod header_bits) in *.
    set (q := header_bits * _) in *. clearbody m m' q. lia.
Qed.

(** What [mark_slots] changes. *)
Record marked pc pc' node id (b : bool) : Prop := Marked {
  mk_pages : forall fk ft, n_pages pc' fk ft = n_pages pc fk ft;
  mk_records : forall ft p, 0 <= p < n_pages pc records ft -> view pc' records ft p = view pc records ft p;
  mk_bits : forall ft s, 0 <= s < n_pages pc header ft * header_bits ->
    header_bit pc' ft s =
      if decide (ft = ft_of node /\ slot_no id <= s < slot_no id + num_slots node) then b
      else header_bit pc ft s }.

Lemma mark_ok hf node id (b : bool) log :
  quiescent (hf_cache hf) -> in_file (hf_cache hf) node id ->
  exists hf', mark_slots hf node id (if b then UCHAR_MAX else 0) log = Ok hf' /\ same_but_cache hf hf' /\
    quiescent (hf_cache hf') /\ marked (hf_cache hf) (hf_cache hf') node id b.
Proof.
  intros Q I. pose proof I as (V & _). set (pc := hf_cache hf) in *.
  unfold mark_slots. change (hf_cache hf) with pc. rewrite (absolute_slot_eq pc node id Q I). fold header_bits.
  destruct (header_position node id V) as (Pos & Ho & Hfit & Hbo). unfold CHAR_BIT.
  assert (Hn : 1 <= num_slots node) by (destruct (num_slots_cases node) as [[-> _]|[-> _]]; lia).
  destruct (slot_header pc node id 0 Q I ltac:(lia)) as [Hh _]. rewrite Z.add_0_r in Hh.
  destruct (access_page pc header (ft_of node) _ log Q ltac:(done) Hh)
    as (i & f & pc1 & E1 & E2 & P & _ & D & _ & U).
  rewrite E1. cbn [mbind res_bind].
  assert (E16 : u16 (slot_no id / 8 mod PAGE_SIZE) = slot_no id / 8 mod PAGE_SIZE).
  { apply Z.mod_small. pose proof PAGE_SIZE_16_bits. lia. }
  rewrite E16.
  destruct (write_bits_ok pc1 i f _ _ (num_slots node) (if b then UCHAR_MAX else 0) log E2 P
              ltac:(destruct b; unfold is_byte, UCHAR_MAX; lia) Hbo Ho Hn Hfit) as (d & E3 & Pd & B).
  rewrite E3. cbn [mbind res_bind]. destruct (U d log Pd) as (pc2 & E4 & Q2 & Up). rewrite E4.
  cbn [mbind res_bind]. exists (set_cache hf pc2). split_and!; [done|done|done|].
  destruct Up as [Np Vw]. split; [exact Np|..].
  - intros ft p Hp. cbn [hf_cache set_cache]. rewrite Vw by done. by rewrite decide_False by (intros (? & _); done).
  - intros ft s Hs. unfold header_bit. cbn [hf_cache set_cache]. pose proof header_bits_pos as HB.
    assert (Hr : 0 <= s / header_bits < n_pages pc header ft).
    { split; [apply Z.div_pos; lia|]. apply Z.div_lt_upper_bound; lia. }
    pose proof (Z.mod_pos_bound s header_bits HB) as Hr'.
    pose proof (slot_range node id s V) as Rg.
    rewrite Vw by done. rewrite Pos in B. destruct (decide (header = header /\ _)) as [(_ & -> & Es)|Hne].
    + rewrite B by lia. rewrite Es, <- D.
      destruct (_ && _) eqn:Eb.
      * rewrite decide_True by (split; [done|apply Rg; bool_prop; lia]). bool_prop.
        destruct b; [|apply Z.testbit_0_l]. change UCHAR_MAX with (Z.ones 8). rewrite ones_bit by lia.
        apply andb_true_iff. rewrite Z.leb_le, Z.ltb_lt. lia.
      * rewrite decide_False; [done|]. intros [_ X%Rg]. apply andb_false_iff in Eb.
        rewrite Z.leb_gt, Z.ltb_ge in Eb. lia.
    + rewrite decide_False; [done|]. intros [-> [X _]%Rg]. apply Hne. by split_and!.
Qed.
End Mark.

(** ** The abstract store *)

Record store := Store {
  st_nodes : gmap Z node_t;
  st_rels : gmap Z relationship_t }.

Section Stores.
Context `{RecordPages}.
Implicit Types (pc : page_cache) (hf : heap_file) (ft : file_type) (node : bool) (id s : Z) (g : store).

Definition in_use pc node id : bool := bool_decide (in_file pc node id) && used_b pc node id.

(** The page of the id's record, and the record with the id in a page. *)
Definition record_view pc node id : list Z := view pc records (ft_of node) (id / 256).
Definition node_in (d : list Z) id : node_t := node_at_slot d id (Z.to_nat (id mod 256)).
Definition rel_in (d : list Z) id : relationship_t := rel_at_slot d id (Z.to_nat (id mod 256)).

Definition node_of pc id : option node_t :=
  if in_use pc true id then Some (node_in (record_view pc true id) id) else None.
Definition rel_of pc id : option relationship_t :=
  if in_use pc false id then Some (rel_in (record_view pc false id) id) else None.

Record stores pc g : Prop := Stores {
  so_quiet : quiescent pc;
  so_nodes : forall id, st_nodes g !! id = node_of pc id;
  so_rels : forall id, st_rels g !! id = rel_of pc id;
  so_free : forall ft s, n_pages pc records ft * SLOTS_PER_PAGE <= s < n_pages pc header ft * header_bits ->
    header_bit pc ft s = false }.

(** *** Slots of different ids *)

Lemma in_file_slots pc node id j : quiescent pc -> in_file pc node id -> 0 <= j < num_slots node ->
  0 <= slot_no id + j < n_pages pc records (ft_of node) * SLOTS_PER_PAGE /\
  slot_no id + j < n_pages pc header (ft_of node) * header_bits.
Proof.
  intros Q I Hj. pose proof (slot_no_bound pc node id Q I). pose proof (capacity pc (ft_of node) Q). lia.
Qed.

Lemma slot_no_inj id id' :
  id mod 256 < SLOTS_PER_PAGE -> id' mod 256 < SLOTS_PER_PAGE -> slot_no id = slot_no id' -> id = id'.
Proof.
  intros Hs Hs' E. unfold slot_no in E. pose proof (id_parts id). pose proof (id_parts id'). pose proof rp_min.
  set (q := id / 256) in *. set (q' := id' / 256) in *. set (r := id mod 256) in *. set (r' := id' mod 256) in *.
  clearbody q q' r r'. assert (q = q') by nia. subst q'. lia.
Qed.

Lemma slots_disjoint node id id' j j' :
  valid node id -> valid node id' -> id <> id' -> 0 <= j < num_slots node -> 0 <= j' < num_slots node ->
  slot_no id + j <> slot_no id' + j'.
Proof.
  intros V V' Hne Hj Hj' E. pose proof (slot_no_aligned node id V) as A. pose proof (slot_no_aligned node id' V') as A'.
  apply Hne. apply slot_no_inj; [apply V|apply V'|].
  destruct (num_slots_cases node) as [[En _]|[En _]]; rewrite En in *; clear -A A' E Hj Hj'; lia.
Qed.

(** *** Records that do not change *)

Lemma used_b_ext pc pc' node id :
  (forall j, 0 <= j < num_slots node -> header_bit pc' (ft_of node) (slot_no id + j) = header_bit pc (ft_of node) (slot_no id + j)) ->
  used_b pc' node id = used_b pc node id.
Proof.
  intros E. apply eq_iff_eq_true. rewrite !used_b_true. apply forall_proper. intros j.
  split; intros A Hj; specialize (A Hj); rewrite E in * by done; done.
Qed.

Lemma in_use_ext pc pc' node id :
  n_pages pc' records (ft_of node) = n_pages pc records (ft_of node) ->
  (in_file pc node id -> forall j, 0 <= j < num_slots node ->
     header_bit pc' (ft_of node) (slot_no id + j) = header_bit pc (ft_of node) (slot_no id + j)) ->
  in_use pc' node id = in_use pc node id.
Proof.
  intros N E. unfold in_use.
  rewrite (bool_decide_ext (in_file pc' node id) (in_file pc node id)) by (unfold in_file; by rewrite N).
  destruct (bool_decide _) eqn:B; [|done].
  apply bool_decide_eq_true in B. cbn [andb]. apply used_b_ext. by apply E.
Qed.

Lemma node_of_ext pc pc' id :
  in_use pc' true id = in_use pc true id ->
  (in_file pc true id -> record_view pc' true id = record_view pc true id) ->
  node_of pc' id = node_of pc id.
Proof.
  intros E V. unfold node_of. rewrite E. unfold in_use. destruct (bool_decide _) eqn:B; [|done].
  apply bool_decide_eq_true in B. by rewrite V.
Qed.
Lemma rel_of_ext pc pc' id :
  in_use pc' false id = in_use pc false id ->
  (in_file pc false id -> record_view pc' false id = record_view pc false id) ->
  rel_of pc' id = rel_of pc id.
Proof.
  intros E V. unfold rel_of. rewrite E. unfold in_use. destruct (bool_decide _) eqn:B; [|done].
  apply bool_decide_eq_true in B. by rewrite V.
Qed.

Lemma in_file_page pc node id : in_file pc node id -> 0 <= id / 256 < n_pages pc records (ft_of node).
Proof. intros ((H0' & _) & Hp). split; [apply Z.div_pos; lia|done]. Qed.

Lemma header_page pc ft s : 0 <= s < n_pages pc header ft * header_bits ->
  0 <= s / header_bits < n_pages pc header ft.
Proof.
  intros Hs. pose proof header_bits_pos. split; [apply Z.div_pos; lia|apply Z.div_lt_upper_bound; lia].
Qed.

(** A cache that shows the same pages holds the same store. *)
Lemma stores_same_pages pc pc' g : stores pc g -> quiescent pc' ->
  (forall fk ft p, fk <> catalogue -> 0 <= p < n_pages pc fk ft -> view pc' fk ft p = view pc fk ft p) ->
  (forall fk ft, n_pages pc' fk ft = n_pages pc fk ft) -> stores pc' g.
Proof.
  intros [Q Nn Nr Fr] Q' Sv Sp.
  assert (Hb : forall ft s, 0 <= s < n_pages pc header ft * header_bits -> header_bit pc' ft s = header_bit pc ft s).
  { intros ft s Hs. unfold header_bit. rewrite Sv; [done|done|]. by apply header_page. }
  assert (U : forall node id, in_use pc' node id = in_use pc node id).
  { intros node id. apply in_use_ext; [apply Sp|]. intros I j Hj. apply Hb.
    pose proof (in_file_slots pc node id j Q I Hj). lia. }
  assert (V : forall node id, in_file pc node id -> record_view pc' node id = record_view pc node id).
  { intros node id I. apply Sv; [done|]. by apply in_file_page. }
  split; [done|..].
  - intros id. rewrite Nn. symmetry. apply node_of_ext; [apply U|apply V].
  - intros id. rewrite Nr. symmetry. apply rel_of_ext; [apply U|apply V].
  - intros ft s. rewrite !Sp. intros Hs. rewrite Hb; [by apply Fr|].
    pose proof (n_pages_bound pc records ft Q). pose proof rp_min. nia.
Qed.

(** Loading and evicting pages keeps the store. *)
Lemma stores_same pc pc' g : stores pc g -> quiescent pc' -> same_store pc pc' -> stores pc' g.
Proof. intros S Q' [V N _ _]. by eapply stores_same_pages. Qed.

(** *** Marking and freeing *)

Definition put_node g id (o : option node_t) : store := Store (partial_alter (fun _ => o) id (st_nodes g)) (st_rels g).
Definition put_rel g id (o : option relationship_t) : store := Store (st_nodes g) (partial_alter (fun _ => o) id (st_rels g)).

(** What the slots of an id stand for when they are marked. *)
Definition put_marked g pc node id (b : bool) : store :=
  if node then put_node g id (if b then Some (node_in (record_view pc true id) id) else None)
  else put_rel g id (if b then Some (rel_in (record_view pc false id) id) else None).

Lemma marked_in_use pc pc' node id b node' id' :
  quiescent pc -> marked pc pc' node id b -> in_file pc node id ->
  in_use pc' node' id' = if decide (node' = node /\ id' = id) then b else in_use pc node' id'.
Proof.
  intros Q M I. destruct (decide _) as [[-> ->]|Hne].
  - unfold in_use. rewrite bool_decide_true by (unfold in_file in *; by rewrite (mk_pages _ _ _ _ _ M)).
    cbn [andb]. assert (Hn : 1 <= num_slots node) by (destruct (num_slots_cases node) as [[-> _]|[-> _]]; lia).
    assert (E : forall j, 0 <= j < num_slots node -> header_bit pc' (ft_of node) (slot_no id + j) = b).
    { intros j Hj. pose proof (in_file_slots pc node id j Q I Hj). rewrite (mk_bits _ _ _ _ _ M) by lia.
      apply decide_True. split; [done|lia]. }
    destruct b; [by apply used_b_true|]. apply not_true_iff_false. rewrite used_b_true. intros A.
    specialize (A 0 ltac:(lia)). rewrite E in A by lia. done.
  - apply in_use_ext; [apply (mk_pages _ _ _ _ _ M)|]. intros I' j Hj.
    pose proof (in_file_slots pc node' id' j Q I' Hj). rewrite (mk_bits _ _ _ _ _ M) by lia.
    apply decide_False. intros [Ef Hs]. destruct node, node'; try done; apply Hne; split; try done.
    all: destruct (decide (id' = id)) as [|Hid]; [done|]; exfalso.
    + apply (slots_disjoint true id' id j (slot_no id' + j - slot_no id)); try done; [apply I'|apply I|lia..].
    + apply (slots_disjoint false id' id j (slot_no id' + j - slot_no id)); try done; [apply I'|apply I|lia..].
Qed.

Lemma stores_marked pc pc' g node id b :
  stores pc g -> quiescent pc' -> marked pc pc' node id b -> in_file pc node id ->
  stores pc' (put_marked g pc node id b).
Proof.
  intros [Q Nn Nr Fr] Q' M I.
  pose proof (fun n i => marked_in_use pc pc' node id b n i Q M I) as U.
  assert (V : forall node id, in_file pc node id -> record_view pc' node id = record_view pc node id).
  { intros n i Hi. apply (mk_records _ _ _ _ _ M). by apply in_file_page. }
  split; [done|..].
  - intros id'. destruct node; cbn [put_marked put_node put_rel st_nodes].
    + destruct (decide (id' = id)) as [->|Hne].
      * rewrite lookup_partial_alter_eq. unfold node_of. rewrite U, decide_True by done. rewrite V by done. by destruct b.
      * rewrite lookup_partial_alter_ne, Nn by done. symmetry. apply node_of_ext; [|apply V].
        rewrite U. apply decide_False. tauto.
    + rewrite Nn. symmetry. apply node_of_ext; [|apply V]. rewrite U. apply decide_False. intros [? _]; done.
  - intros id'. destruct node; cbn [put_marked put_node put_rel st_rels].
    + rewrite Nr. symmetry. apply rel_of_ext; [|apply V]. rewrite U. apply decide_False. intros [? _]; done.
    + destruct (decide (id' = id)) as [->|Hne].
      * rewrite lookup_partial_alter_eq. unfold rel_of. rewrite U, decide_True by done. rewrite V by done. by destruct b.
      * rewrite lookup_partial_alter_ne, Nr by done. symmetry. apply rel_of_ext; [|apply V].
        rewrite U. apply decide_False. tauto.
  - intros ft s. rewrite !(mk_pages _ _ _ _ _ M). intros Hs.
    pose proof (n_pages_bound pc records ft Q). pose proof rp_min.
    rewrite (mk_bits _ _ _ _ _ M) by nia. rewrite decide_False; [by apply Fr|].
    intros [-> Hr]. pose proof (slot_no_bound pc node id Q I). lia.
Qed.

(** *** Writing records *)

(** The slot of a valid id in its page, within the bounds of the page. *)
Lemma valid_slot node id : valid node id ->
  exists t, Z.to_nat (id mod 256) = t /\ first_slot id = 16 * Z.of_nat t /\
    Z.of_nat t = id mod 256 /\ (16 * t + 16 * Z.to_nat (num_slots node) <= page_bytes)%nat /\
    16 * Z.of_nat t + 16 * num_slots node <= PAGE_SIZE.
Proof.
  intros (H0' & Hs & Hm). exists (Z.to_nat (id mod 256)). rewrite mod_slots in Hm.
  pose proof SLOTS_PER_PAGE_size as S. unfold SLOT_SIZE in S. destruct rp_mult as [k Ek].
  pose proof page_bytes_Z. rewrite first_slot_eq. rewrite Ek in *. pose proof (id_parts id).
  set (r := id mod 256) in *. clearbody r.
  destruct (num_slots_cases node) as [[E _]|[E _]]; rewrite E in *;
    (split; [done|]); (split; [lia|]); (split; [lia|]); split; lia.
Qed.

Lemma slot_of_same_page node id id' :
  valid node id -> valid node id' -> id' / 256 = id / 256 -> id' <> id ->
  (Z.to_nat (id' mod 256) + Z.to_nat (num_slots node) <= Z.to_nat (id mod 256))%nat \/
  (Z.to_nat (id mod 256) + Z.to_nat (num_slots node) <= Z.to_nat (id' mod 256))%nat.
Proof.
  intros (_ & _ & Hm) (_ & _ & Hm') Ep Hne. rewrite mod_slots in Hm, Hm'.
  pose proof (id_parts id). pose proof (id_parts id'). rewrite Ep in *.
  assert (id' mod 256 <> id mod 256) by lia.
  set (r := id mod 256) in *. set (r' := id' mod 256) in *. clearbody r r'.
  destruct (num_slots_cases node) as [[E _]|[E _]]; rewrite E in *; lia.
Qed.

Lemma updated_in_use pc pc' ft p d node id :
  quiescent pc -> updated pc pc' records ft p d -> in_use pc' node id = in_use pc node id.
Proof.
  intros Q [Np Vw]. apply in_use_ext; [apply Np|]. intros I j Hj. unfold header_bit.
  rewrite Vw; [by rewrite decide_False by (intros [? _]; done)|done|].
  apply header_page. pose proof (in_file_slots pc node id j Q I Hj). lia.
Qed.

Lemma updated_free pc pc' g ft p d ft' s :
  stores pc g -> updated pc pc' records ft p d ->
  n_pages pc' records ft' * SLOTS_PER_PAGE <= s < n_pages pc' header ft' * header_bits ->
  header_bit pc' ft' s = false.
Proof.
  intros [Q _ _ Fr] [Np Vw]. rewrite !Np. intros Hs.
  pose proof (n_pages_bound pc records ft' Q). pose proof rp_min.
  unfold header_bit. rewrite Vw; [|done|apply header_page; nia].
  rewrite decide_False by (intros [? _]; done). by apply Fr.
Qed.

Lemma updated_record pc pc' ft p d node id :
  updated pc pc' records ft p d -> in_file pc node id ->
  record_view pc' node id = if decide (ft_of node = ft /\ id / 256 = p) then d else record_view pc node id.
Proof.
  intros [_ Vw] I. unfold record_view. rewrite Vw by (done || by apply in_file_page).
  apply decide_ext. tauto.
Qed.

Lemma in_use_file pc node id : in_use pc node id = true -> in_file pc node id.
Proof. unfold in_use. intros [B _]%andb_true_iff. by apply bool_decide_eq_true in B. Qed.

Lemma stores_write_node pc pc' g n :
  stores pc g -> quiescent pc' -> in_use pc true (n_id n) = true -> node_range n ->
  updated pc pc' records node_ft (n_id n / 256)
    (set_words (record_view pc true (n_id n)) (2 * Z.to_nat (n_id n mod 256)) (node_words n)) ->
  stores pc' (put_node g (n_id n) (Some n)).
Proof.
  intros S Q' U R Up. pose proof S as [Q Nn Nr Fr]. set (id := n_id n) in *.
  pose proof (in_use_file _ _ _ U) as I.
  assert (L : forall i, in_file pc true i -> length (record_view pc true i) = page_bytes).
  { intros i Hi. apply view_page; [done|done|]. by apply in_file_page. }
  split; [done|..].
  - intros id'. cbn [put_node st_nodes]. destruct (decide (id' = id)) as [->|Hne].
    + rewrite lookup_partial_alter_eq. unfold node_of. rewrite (updated_in_use pc pc' _ _ _ true id Q Up), U.
      rewrite (updated_record pc pc' _ _ _ true id Up I), decide_True by done.
      destruct (valid_slot true id (proj1 I)) as (t & Es & _ & _ & Hl & _).
      change (Z.to_nat (num_slots true)) with 1%nat in Hl.
      unfold node_in. rewrite Es, node_at_set_words by (rewrite ?L by done; done || lia). by destruct n.
    + rewrite lookup_partial_alter_ne, Nn by done. unfold node_of.
      rewrite (updated_in_use pc pc' _ _ _ true id' Q Up). destruct (in_use pc true id') eqn:U'; [|done].
      pose proof (in_use_file _ _ _ U') as I'. rewrite (updated_record pc pc' _ _ _ true id' Up I').
      destruct (decide _) as [[_ Ep]|]; [|done]. f_equal.
      pose proof (slot_of_same_page true id id' (proj1 I) (proj1 I') Ep Hne) as Sl.
      change (Z.to_nat (num_slots true)) with 1%nat in Sl.
      assert (Ev : record_view pc true id = record_view pc true id') by (unfold record_view; by rewrite Ep).
      destruct (valid_slot true id (proj1 I)) as (t & Es & _ & _ & Hl & _).
      destruct (valid_slot true id' (proj1 I')) as (t' & Es' & _ & _ & Hl' & _).
      change (Z.to_nat (num_slots true)) with 1%nat in Hl, Hl'.
      unfold node_in, node_at_slot. rewrite Es, Es' in *. rewrite Ev.
      rewrite !set_words_other by (rewrite ?L by done; done || (cbn [length node_words]; lia)). done.
  - intros id'. cbn [put_node st_rels]. rewrite Nr. unfold rel_of.
    rewrite (updated_in_use pc pc' _ _ _ false id' Q Up). destruct (in_use pc false id') eqn:U'; [|done].
    rewrite (updated_record pc pc' _ _ _ false id' Up (in_use_file _ _ _ U')). by rewrite decide_False by (intros [? _]; done).
  - intros ft s. by eapply updated_free.
Qed.

Lemma stores_write_rel pc pc' g r :
  stores pc g -> quiescent pc' -> in_use pc false (r_id r) = true -> rel_range r ->
  updated pc pc' records relationship_ft (r_id r / 256)
    (set_words (record_view pc false (r_id r)) (2 * Z.to_nat (r_id r mod 256)) (rel_words r)) ->
  stores pc' (put_rel g (r_id r) (Some r)).
Proof.
  intros S Q' U R Up. pose proof S as [Q Nn Nr Fr]. set (id := r_id r) in *.
  pose proof (in_use_file _ _ _ U) as I.
  assert (L : forall i, in_file pc false i -> length (record_view pc false i) = page_bytes).
  { intros i Hi. apply view_page; [done|done|]. by apply in_file_page. }
  split; [done|..].
  - intros id'. cbn [put_rel st_nodes]. rewrite Nn. unfold node_of.
    rewrite (updated_in_use pc pc' _ _ _ true id' Q Up). destruct (in_use pc true id') eqn:U'; [|done].
    rewrite (updated_record pc pc' _ _ _ true id' Up (in_use_file _ _ _ U')). by rewrite decide_False by (intros [? _]; done).
  - intros id'. cbn [put_rel st_rels]. destruct (decide (id' = id)) as [->|Hne].
    + rewrite lookup_partial_alter_eq. unfold rel_of. rewrite (updated_in_use pc pc' _ _ _ false id Q Up), U.
      rewrite (updated_record pc pc' _ _ _ false id Up I), decide_True by done.
      destruct (valid_slot false id (proj1 I)) as (t & Es & _ & _ & Hl & _).
      change (Z.to_nat (num_slots false)) with 4%nat in Hl.
      unfold rel_in. rewrite Es, rel_at_set_words by (rewrite ?L by done; done || lia). by destruct r.
    + rewrite lookup_partial_alter_ne, Nr by done. unfold rel_of.
      rewrite (updated_in_use pc pc' _ _ _ false id' Q Up). destruct (in_use pc false id') eqn:U'; [|done].
      pose proof (in_use_file _ _ _ U') as I'. rewrite (updated_record pc pc' _ _ _ false id' Up I').
      destruct (decide _) as [[_ Ep]|]; [|done]. f_equal.
      pose proof (slot_of_same_page false id id' (proj1 I) (proj1 I') Ep Hne) as Sl.
      change (Z.to_nat (num_slots false)) with 4%nat in Sl.
      assert (Ev : record_view pc false id = record_view pc false id') by (unfold record_view; by rewrite Ep).
      destruct (valid_slot false id (proj1 I)) as (t & Es & _ & _ & Hl & _).
      destruct (valid_slot false id' (proj1 I')) as (t' & Es' & _ & _ & Hl' & _).
      change (Z.to_nat (num_slots false)) with 4%nat in Hl, Hl'.
      unfold rel_in, rel_at_slot. rewrite Es, Es' in *. rewrite Ev.
      rewrite !set_words_other by (rewrite ?L by done; done || (cbn [length rel_words]; lia)). done.
  - intros ft s. by eapply updated_free.
Qed.

(** *** Growing a file *)

Lemma zero_bits n k : bit_at (replicate n 0) k = false.
Proof.
  unfold bit_at. destruct (replicate n 0 !! _) as [b|] eqn:E; [|done].
  apply lookup_replicate in E as [-> _]. apply Z.testbit_0_l.
Qed.

Lemma stores_grown pc pc' g ft :
  stores pc g -> quiescent pc' ->
  n_pages pc' records ft = n_pages pc records ft + 1 ->
  n_pages pc header ft <= n_pages pc' header ft ->
  (forall fk ft', ft' <> ft -> n_pages pc' fk ft' = n_pages pc fk ft') ->
  (forall fk ft' p, fk <> catalogue -> 0 <= p < n_pages pc fk ft' -> view pc' fk ft' p = view pc fk ft' p) ->
  (forall p, 0 <= p < n_pages pc' header ft -> n_pages pc header ft <= p ->
     view pc' header ft p = replicate page_bytes 0) ->
  stores pc' g.
Proof.
  intros [Q Nn Nr Fr] Q' E1 E2 E3 V Z0.
  assert (Nle : forall ft', n_pages pc records ft' <= n_pages pc' records ft' /\
                       n_pages pc header ft' <= n_pages pc' header ft').
  { intros ft'. destruct (decide (ft' = ft)) as [->|Hne]; [lia|]. rewrite !E3 by done. lia. }
  pose proof header_bits_pos as HB. pose proof rp_min as RM.
  assert (Bits : forall ft' s, 0 <= s < n_pages pc' header ft' * header_bits ->
    header_bit pc' ft' s = if s <? n_pages pc header ft' * header_bits then header_bit pc ft' s else false).
  { intros ft' s Hs. unfold header_bit. destruct (Z.ltb_spec s (n_pages pc header ft' * header_bits)).
    - rewrite V; [done|done|]. apply header_page. lia.
    - destruct (decide (ft' = ft)) as [->|Hne]; [|rewrite E3 in Hs by done; lia].
      rewrite Z0; [apply zero_bits|by apply header_page|]. apply Z.div_le_lower_bound; lia. }
  assert (Free : forall ft' s, n_pages pc records ft' * SLOTS_PER_PAGE <= s < n_pages pc' header ft' * header_bits ->
    header_bit pc' ft' s = false).
  { intros ft' s Hs. pose proof (n_pages_bound pc records ft' Q). rewrite Bits by nia.
    destruct (Z.ltb_spec s (n_pages pc header ft' * header_bits)); [|done]. apply Fr. lia. }
  assert (U : forall node id, in_use pc' node id = in_use pc node id).
  { intros node id. destruct (decide (in_file pc node id)) as [I|NI].
    - assert (I' : in_file pc' node id).
      { destruct I as [Iv Ip]. split; [done|]. destruct (Nle (ft_of node)). lia. }
      unfold in_use. rewrite !bool_decide_true by done. cbn [andb]. apply used_b_ext. intros j Hj.
      pose proof (in_file_slots pc node id j Q I Hj). destruct (Nle (ft_of node)).
      rewrite Bits by nia. by rewrite (proj2 (Z.ltb_lt _ _)) by lia.
    - assert (in_use pc node id = false) as -> by (unfold in_use; by rewrite bool_decide_false).
      destruct (in_use pc' node id) eqn:U'; [|done]. exfalso. pose proof (in_use_file _ _ _ U') as I'.
      apply andb_true_iff in U' as [_ U']. rewrite used_b_true in U'.
      assert (Hn : 0 < num_slots node) by (destruct (num_slots_cases node) as [[-> _]|[-> _]]; lia).
      specialize (U' 0 ltac:(lia)). rewrite Free in U'; [done|].
      pose proof (in_file_slots pc' node id 0 Q' I' ltac:(lia)). split; [|lia].
      destruct I' as [Iv _]. unfold slot_no.
      assert (n_pages pc records (ft_of node) <= id / 256).
      { apply Z.nlt_ge. intros Hlt. apply NI. by split. }
      pose proof (Z.mod_pos_bound id 256 ltac:(lia)). nia. }
  assert (Vr : forall node id, in_file pc node id -> record_view pc' node id = record_view pc node id).
  { intros node id I. apply V; [done|]. by apply in_file_page. }
  split; [done|..].
  - intros id. rewrite Nn. symmetry. apply node_of_ext; [apply U|apply Vr].
  - intros id. rewrite Nr. symmetry. apply rel_of_ext; [apply U|apply Vr].
  - intros ft' s Hs. apply Free. destruct (Nle ft'). split; [nia|lia].
Qed.

(** *** Facts of stored records *)

Lemma uninitialized_not_in_file pc node : quiescent pc -> ~ in_file pc node UNINITIALIZED_LONG.
Proof.
  intros Q [_ Hp]. pose proof (n_pages_bound pc records (ft_of node) Q).
  pose proof SLOTS_PER_PAGE_size as S. unfold SLOT_SIZE in S. pose proof rp_min.
  assert (MAX_PAGE_NO <= LONG_MAX / 256).
  { unfold MAX_PAGE_NO. apply Z.div_le_compat_l; unfold LONG_MAX; lia. }
  assert (E : UNINITIALIZED_LONG / 256 = 2 ^ 56 - 10) by reflexivity. rewrite E in Hp.
  assert (LONG_MAX / 256 < 2 ^ 55) by reflexivity. lia.
Qed.

Lemma node_of_some pc id n : quiescent pc -> node_of pc id = Some n ->
  in_use pc true id = true /\ n = node_in (record_view pc true id) id /\ n_id n = id /\ node_range n.
Proof.
  intros Q E. unfold node_of in E. destruct (in_use pc true id) eqn:U; [|done]. injection E as <-.
  pose proof (in_use_file _ _ _ U) as I. split_and!; [done..|].
  destruct (view_page pc records node_ft (id / 256) Q ltac:(done) (in_file_page _ _ _ I)) as [L F].
  destruct (valid_slot true id (proj1 I)) as (t & Es & _ & _ & Hl & _).
  change (Z.to_nat (num_slots true)) with 1%nat in Hl. unfold node_in, node_range. rewrite Es.
  repeat constructor; apply word_range; try done; unfold record_view, ft_of; rewrite L; lia.
Qed.

Lemma rel_of_some pc id r : quiescent pc -> rel_of pc id = Some r ->
  in_use pc false id = true /\ r = rel_in (record_view pc false id) id /\ r_id r = id /\ rel_range r.
Proof.
  intros Q E. unfold rel_of in E. destruct (in_use pc false id) eqn:U; [|done]. injection E as <-.
  pose proof (in_use_file _ _ _ U) as I. split_and!; [done..|].
  destruct (view_page pc records relationship_ft (id / 256) Q ltac:(done) (in_file_page _ _ _ I)) as [L F].
  destruct (valid_slot false id (proj1 I)) as (t & Es & _ & _ & Hl & _).
  change (Z.to_nat (num_slots false)) with 4%nat in Hl. unfold rel_in, rel_range. rewrite Es.
  repeat constructor; apply word_range; try done; unfold record_view, ft_of; rewrite L; lia.
Qed.
End Stores.
