(* ===== verification/HeapRecords.v ===== *)
(** The record operations of HeapFile.v on a heap file that holds an abstract store.

    [holds_store] relates a heap file to the store its cache holds.  Each primitive is
    shown to return and to act on the store as its name says; [room] is the condition under
    which the files can still grow. *)

From S2P Require Import Prelude Constants LinkedList HTable ArrayList DiskFile PhysicalDatabase Page PageCache PageCacheInv HeaderPage Records HeapFile HeapFileInv.
From Stdlib Require Import ZArith Lia.
From stdpp Require Import base list list_numbers option gmap strings.

#[local] Open Scope Z_scope.

Section Records.
Context `{RecordPages}.
Implicit Types (pc : page_cache) (hf : heap_file) (ft : file_type) (node : bool) (id s : Z) (g : store)
  (log : bool) (n : node_t) (r : relationship_t).

(** ** Heap files and stores *)

Record holds_store hf g : Prop := HoldsStore {
  hs_stores : stores (hf_cache hf) g;
  hs_last : forall node, valid node (last_alloc hf node) }.

(** What reading and writing records leaves alone. *)
Record same_shape hf hf' : Prop := SameShape {
  sh_pages : forall fk ft, n_pages (hf_cache hf') fk ft = n_pages (hf_cache hf) fk ft;
  sh_nodes : n_nodes hf' = n_nodes hf;
  sh_rels : n_rels hf' = n_rels hf;
  sh_last : forall node, last_alloc hf' node = last_alloc hf node }.

(** The files of a type can grow [k] times by a page of records and the header pages for
    its slots. *)
Definition room hf node (k : Z) : Prop :=
  n_pages (hf_cache hf) records (ft_of node) + k < MAX_PAGE_NO /\
  n_pages (hf_cache hf) header (ft_of node) + k * (SLOTS_PER_PAGE + 2) < MAX_PAGE_NO.

(** The files of a type have grown at most once, and those of the other type have not. *)
Record grown hf hf' node : Prop := Grown {
  gr_records : n_pages (hf_cache hf') records (ft_of node) <= n_pages (hf_cache hf) records (ft_of node) + 1;
  gr_header : n_pages (hf_cache hf') header (ft_of node) <= n_pages (hf_cache hf) header (ft_of node) + (SLOTS_PER_PAGE + 2);
  gr_other : forall fk ft, ft <> ft_of node -> n_pages (hf_cache hf') fk ft = n_pages (hf_cache hf) fk ft }.

Lemma grown_room hf hf' node k : grown hf hf' node -> room hf node (k + 1) -> room hf' node k.
Proof. intros [A B _] [R1 R2]. split; lia. Qed.
Lemma grown_other hf hf' node node' k : grown hf hf' node -> node' <> node -> room hf node' k -> room hf' node' k.
Proof.
  intros [_ _ O] Hne [R1 R2]. assert (ft_of node' <> ft_of node) by (by destruct node, node').
  split; by rewrite O.
Qed.
Lemma grown_shape hf hf1 hf2 node : grown hf hf1 node -> same_shape hf1 hf2 -> grown hf hf2 node.
Proof. intros [A B O] S. split; intros; rewrite (sh_pages _ _ S); auto. Qed.
Lemma shape_grown hf hf' node : same_shape hf hf' -> grown hf hf' node.
Proof. intros S. pose proof rp_min. split; intros; rewrite (sh_pages _ _ S); lia. Qed.

#[export] Instance same_shape_preorder : PreOrder same_shape.
Proof.
  split; [done|]. intros a b c [A1 A2 A3 A4] [B1 B2 B3 B4].
  split; intros; [by rewrite B1|congruence..|by rewrite B4].
Qed.

Lemma same_shape_pages hf hf' node : same_shape hf hf' -> pages_of hf' node = pages_of hf node.
Proof. intros S. exact (sh_pages _ _ S records (ft_of node)). Qed.
Lemma same_shape_fuel hf hf' node : same_shape hf hf' -> scan_fuel hf' node = scan_fuel hf node.
Proof. intros S. unfold scan_fuel. by rewrite (same_shape_pages hf hf'). Qed.
Lemma same_shape_room hf hf' node k : same_shape hf hf' -> room hf node k -> room hf' node k.
Proof. intros S. unfold room. by rewrite !(sh_pages _ _ S). Qed.

Lemma holds_log hf g log l : holds_store hf g -> holds_store (hf_log_when log l hf) g.
Proof. intros [S L]. by split. Qed.
Lemma shape_log hf hf' log l : same_shape hf hf' -> same_shape hf (hf_log_when log l hf').
Proof. intros [A B C D]. by split. Qed.
Lemma holds_count hf g a b : holds_store hf g -> holds_store (count_access hf a b) g.
Proof. intros [S L]. by split. Qed.
Lemma shape_count hf hf' a b : same_shape hf hf' -> same_shape hf (count_access hf' a b).
Proof. intros [A B C D]. by split. Qed.

Lemma holds_set_cache hf pc g :
  (forall node, valid node (last_alloc hf node)) -> stores pc g -> holds_store (set_cache hf pc) g.
Proof. intros L S. by split. Qed.

Lemma quiet hf g : holds_store hf g -> quiescent (hf_cache hf).
Proof. intros [[Q _ _ _] _]. exact Q. Qed.

(** Membership in the store, by kind. *)
Definition has g node id : bool := if node then bool_decide (is_Some (st_nodes g !! id)) else bool_decide (is_Some (st_rels g !! id)).

Lemma has_in_use hf g node id : holds_store hf g -> has g node id = in_use (hf_cache hf) node id.
Proof.
  intros [[_ Nn Nr _] _]. unfold has. destruct node.
  - rewrite Nn. unfold node_of. destruct (in_use _ true id);
      [by rewrite bool_decide_true by eauto|by rewrite bool_decide_false by (by intros [])].
  - rewrite Nr. unfold rel_of. destruct (in_use _ false id);
      [by rewrite bool_decide_true by eauto|by rewrite bool_decide_false by (by intros [])].
Qed.
Lemma has_in_file hf g node id : holds_store hf g -> has g node id = true -> in_file (hf_cache hf) node id.
Proof. intros S Hh. rewrite (has_in_use hf) in Hh by done. by apply in_use_file. Qed.

Lemma has_node g id n : st_nodes g !! id = Some n -> has g true id = true.
Proof. intros E. unfold has. rewrite E. apply bool_decide_true. eauto. Qed.
Lemma has_rel g id r : st_rels g !! id = Some r -> has g false id = true.
Proof. intros E. unfold has. rewrite E. apply bool_decide_true. eauto. Qed.

(** Stored records carry their ids, in range. *)
Lemma stored_node hf g id n : holds_store hf g -> st_nodes g !! id = Some n ->
  n_id n = id /\ node_range n /\ n = node_in (record_view (hf_cache hf) true id) id.
Proof.
  intros S E. rewrite (so_nodes _ _ (hs_stores _ _ S)) in E.
  destruct (node_of_some _ _ _ (quiet _ _ S) E) as (_ & E' & Ei & R). done.
Qed.
Lemma stored_rel hf g id r : holds_store hf g -> st_rels g !! id = Some r ->
  r_id r = id /\ rel_range r /\ r = rel_in (record_view (hf_cache hf) false id) id.
Proof.
  intros S E. rewrite (so_rels _ _ (hs_stores _ _ S)) in E.
  destruct (rel_of_some _ _ _ (quiet _ _ S) E) as (_ & E' & Ei & R). done.
Qed.

Lemma id_initialized hf g node id : holds_store hf g -> in_file (hf_cache hf) node id -> (id =? UNINITIALIZED_LONG) = false.
Proof.
  intros S I. apply Z.eqb_neq. intros ->. eapply uninitialized_not_in_file; [by eapply quiet|done].
Qed.

(** ** The primitives *)

Lemma check_exists_ok hf g node id log :
  holds_store hf g -> in_file (hf_cache hf) node id ->
  exists hf', check_record_exists hf id node log = Ok (has g node id, hf') /\
    holds_store hf' g /\ same_shape hf hf'.
Proof.
  intros S I. pose proof (quiet _ _ S) as Q. destruct (check_ok hf node id log Q I) as (hf' & E & Q' & Ss & Sc).
  exists hf'. rewrite E. split_and!.
  - rewrite (has_in_use hf) by done. unfold in_use. by rewrite bool_decide_true.
  - rewrite Sc. apply holds_set_cache; [apply S|]. eapply stores_same; [apply S|done|done].
  - rewrite Sc. split; try done. apply (ss_pages _ _ Ss).
Qed.

(** An id that is not the id of a record slot does not exist. *)
Lemma check_misaligned hf node id log :
  id mod num_slots node <> 0 -> check_record_exists hf id node log = Ok (false, hf).
Proof. intros Hm. unfold check_record_exists. by rewrite (proj2 (Z.eqb_neq _ _)). Qed.

Lemma assert_exists_ok c hf g node id log :
  holds_store hf g -> has g node id = true ->
  exists hf', assert_exists c hf id node log = Ok hf' /\ holds_store hf' g /\ same_shape hf hf'.
Proof.
  intros S Hh. unfold assert_exists. destruct c; [|by exists hf].
  destruct (check_exists_ok hf g node id log S (has_in_file _ _ _ _ S Hh)) as (hf' & E & S' & Sh).
  exists hf'. rewrite E, Hh. done.
Qed.

Lemma assert_missing hf g node id log :
  holds_store hf g -> in_file (hf_cache hf) node id -> has g node id = false ->
  assert_exists true hf id node log = Exit.
Proof.
  intros S I Hh. destruct (check_exists_ok hf g node id log S I) as (hf' & E & _).
  unfold assert_exists. by rewrite E, Hh.
Qed.

Lemma read_node_internal_ok hf g id n c log :
  holds_store hf g -> st_nodes g !! id = Some n ->
  exists hf', read_node_internal hf id c log = Ok (n, hf') /\ holds_store hf' g /\ same_shape hf hf'.
Proof.
  intros S E. pose proof (has_in_file hf g true id S (has_node _ _ _ E)) as I.
  unfold read_node_internal. rewrite (id_initialized hf g true id S I).
  destruct (assert_exists_ok c hf g true id log S (has_node _ _ _ E)) as (hf1 & E1 & S1 & Sh1).
  rewrite E1. cbn [mbind res_bind]. pose proof (has_in_file hf1 g true id S1 (has_node _ _ _ E)) as I1.
  rewrite record_page_eq.
  destruct (access_page (hf_cache hf1) records node_ft (id / 256) log (quiet _ _ S1) ltac:(done)
              (in_file_page _ _ _ I1)) as (i & f & pc1 & Ep & Ef & P & Pn & D & U & _).
  rewrite Ep. cbn [mbind res_bind]. rewrite Ef. cbn [mbind res_bind].
  destruct (valid_slot true id (proj1 I1)) as (t & Es & Fs & _ & _ & Hl).
  rewrite (node_read_ok _ f t P ltac:(lia)) by (done || exact Hl). cbn [mbind res_bind].
  destruct (U log) as (pc2 & Eu & Q2 & S2). rewrite Eu. cbn [mbind res_bind].
  eexists. split_and!; [|apply holds_count, holds_set_cache; [apply S1|eapply stores_same; [apply S1|done|done]]|].
  - do 3 f_equal. rewrite D. destruct (stored_node hf1 g id n S1 E) as (_ & _ & ->).
    unfold node_in. by rewrite Es.
  - apply shape_count. rewrite Sh1. split; try done. apply (ss_pages _ _ S2).
Qed.

Lemma read_rel_internal_ok hf g id r c log :
  holds_store hf g -> st_rels g !! id = Some r ->
  exists hf', read_relationship_internal hf id c log = Ok (r, hf') /\ holds_store hf' g /\ same_shape hf hf'.
Proof.
  intros S E. pose proof (has_in_file hf g false id S (has_rel _ _ _ E)) as I.
  unfold read_relationship_internal. rewrite (id_initialized hf g false id S I).
  destruct (assert_exists_ok c hf g false id log S (has_rel _ _ _ E)) as (hf1 & E1 & S1 & Sh1).
  rewrite E1. cbn [mbind res_bind]. pose proof (has_in_file hf1 g false id S1 (has_rel _ _ _ E)) as I1.
  rewrite record_page_eq.
  destruct (access_page (hf_cache hf1) records relationship_ft (id / 256) log (quiet _ _ S1) ltac:(done)
              (in_file_page _ _ _ I1)) as (i & f & pc1 & Ep & Ef & P & Pn & D & U & _).
  rewrite Ep. cbn [mbind res_bind]. rewrite Ef. cbn [mbind res_bind].
  destruct (valid_slot false id (proj1 I1)) as (t & Es & Fs & _ & _ & Hl).
  rewrite (rel_read_ok _ f t P ltac:(lia)) by (done || exact Hl). cbn [mbind res_bind].
  destruct (U log) as (pc2 & Eu & Q2 & S2). rewrite Eu. cbn [mbind res_bind].
  eexists. split_and!; [|apply holds_count, holds_set_cache; [apply S1|eapply stores_same; [apply S1|done|done]]|].
  - do 3 f_equal. rewrite D. destruct (stored_rel hf1 g id r S1 E) as (_ & _ & ->).
    unfold rel_in. by rewrite Es.
  - apply shape_count. rewrite Sh1. split; try done. apply (ss_pages _ _ S2).
Qed.

Lemma update_node_internal_ok hf g n c log :
  holds_store hf g -> has g true (n_id n) = true -> node_range n ->
  exists hf', update_node_internal hf n c log = Ok hf' /\ holds_store hf' (put_node g (n_id n) (Some n)) /\
    same_shape hf hf'.
Proof.
  intros S Hh R. pose proof (has_in_file hf g true _ S Hh) as I.
  unfold update_node_internal. rewrite (id_initialized hf g true _ S I).
  destruct (assert_exists_ok c hf g true (n_id n) log S Hh) as (hf1 & E1 & S1 & Sh1).
  rewrite E1. cbn [mbind res_bind]. pose proof (has_in_file hf1 g true _ S1 Hh) as I1.
  rewrite record_page_eq.
  destruct (access_page (hf_cache hf1) records node_ft (n_id n / 256) log (quiet _ _ S1) ltac:(done)
              (in_file_page _ _ _ I1)) as (i & f & pc1 & Ep & Ef & P & Pn & D & _ & U).
  rewrite Ep. cbn [mbind res_bind]. rewrite Ef. cbn [mbind res_bind].
  destruct (valid_slot true _ (proj1 I1)) as (t & Es & Fs & _ & _ & Hl).
  destruct (node_write_ok n f t P ltac:(lia) Fs Hl) as [Ew Pw]. rewrite Ew. cbn [mbind res_bind].
  destruct (U _ log Pw) as (pc2 & Eu & Q2 & Up). rewrite Eu. cbn [mbind res_bind].
  eexists. split; [reflexivity|]. split.
  - apply holds_count, holds_set_cache; [apply S1|]. eapply stores_write_node; [apply S1|done| |done|].
    + rewrite <- (has_in_use hf1 g) by done. exact Hh.
    + unfold record_view. rewrite Es. cbn [ft_of]. by rewrite <- D.
  - apply shape_count. rewrite Sh1. split; try done. apply (up_pages _ _ _ _ _ _ Up).
Qed.

(** The guards of [update_relationship_internal] on the record itself. *)
Definition writable r : Prop :=
  source_node r <> UNINITIALIZED_LONG /\ target_node r <> UNINITIALIZED_LONG /\
  double_eqb (weight r) UNINITIALIZED_WEIGHT = false.

Lemma update_rel_internal_ok hf g r c log :
  holds_store hf g -> has g false (r_id r) = true -> rel_range r -> writable r ->
  exists hf', update_relationship_internal hf r c log = Ok hf' /\
    holds_store hf' (put_rel g (r_id r) (Some r)) /\ same_shape hf hf'.
Proof.
  intros S Hh R (W1 & W2 & W3). pose proof (has_in_file hf g false _ S Hh) as I.
  unfold update_relationship_internal. rewrite (id_initialized hf g false _ S I), W3.
  rewrite (proj2 (Z.eqb_neq _ _) W1), (proj2 (Z.eqb_neq _ _) W2). cbn [orb].
  destruct (assert_exists_ok c hf g false (r_id r) log S Hh) as (hf1 & E1 & S1 & Sh1).
  rewrite E1. cbn [mbind res_bind]. pose proof (has_in_file hf1 g false _ S1 Hh) as I1.
  rewrite record_page_eq.
  destruct (access_page (hf_cache hf1) records relationship_ft (r_id r / 256) log (quiet _ _ S1) ltac:(done)
              (in_file_page _ _ _ I1)) as (i & f & pc1 & Ep & Ef & P & Pn & D & _ & U).
  rewrite Ep. cbn [mbind res_bind]. rewrite Ef. cbn [mbind res_bind].
  destruct (valid_slot false _ (proj1 I1)) as (t & Es & Fs & _ & _ & Hl).
  destruct (rel_write_ok r f t P ltac:(lia) Fs Hl) as [Ew Pw]. rewrite Ew. cbn [mbind res_bind].
  destruct (U _ log Pw) as (pc2 & Eu & Q2 & Up). rewrite Eu. cbn [mbind res_bind].
  eexists. split; [reflexivity|]. split.
  - apply holds_count, holds_set_cache; [apply S1|]. eapply stores_write_rel; [apply S1|done| |done|].
    + rewrite <- (has_in_use hf1 g) by done. exact Hh.
    + unfold record_view. rewrite Es. cbn [ft_of]. by rewrite <- D.
  - apply shape_count. rewrite Sh1. split; try done. apply (up_pages _ _ _ _ _ _ Up).
Qed.

(** ** Allocation *)

Lemma next_slot_ok node page slot :
  0 <= page < 2 ^ 56 -> 0 <= slot < SLOTS_PER_PAGE -> slot mod num_slots node = 0 ->
  slot + num_slots node <= SLOTS_PER_PAGE /\
  next_slot node page slot =
    if slot + num_slots node =? SLOTS_PER_PAGE then (page + 1, 0) else (page, slot + num_slots node).
Proof.
  intros Hp Hs Hm. destruct rp_mult as [k Ek]. pose proof rp_min. pose proof rp_max.
  assert (B : slot + num_slots node <= SLOTS_PER_PAGE).
  { rewrite Ek in *. destruct (num_slots_cases node) as [[E _]|[E _]]; rewrite E in *; lia. }
  split; [done|]. unfold next_slot. rewrite (Z.mod_small slot) by lia.
  assert (Hn : 1 <= num_slots node <= 4) by (destruct (num_slots_cases node) as [[-> _]|[-> _]]; lia).
  destruct (Z.eqb_spec (slot + num_slots node) SLOTS_PER_PAGE) as [E|E].
  - rewrite E, Z.mod_same by lia. rewrite (proj2 (Z.ltb_lt _ _)) by lia.
    rewrite u64_small by (unfold is_u64; lia). done.
  - rewrite Z.mod_small by lia. rewrite (proj2 (Z.ltb_ge _ _)) by lia.
    rewrite u8_small by (unfold is_byte; lia). done.
Qed.

(** The id of a slot. *)
Lemma valid_id node page slot :
  0 <= page -> 0 <= slot < SLOTS_PER_PAGE -> slot mod num_slots node = 0 ->
  valid node (256 * page + slot) /\ (256 * page + slot) / 256 = page /\ (256 * page + slot) mod 256 = slot.
Proof.
  intros Hp Hs Hm. pose proof rp_max.
  assert (E1 : (256 * page + slot) / 256 = page) by (clear -Hs H1; lia).
  assert (E2 : (256 * page + slot) mod 256 = slot) by (clear -Hs H1; lia).
  split_and!; [|done|done]. split; [lia|]. rewrite mod_slots, E2. split; [lia|done].
Qed.

Lemma pages_small hf g node : holds_store hf g -> 0 <= pages_of hf node < 2 ^ 56.
Proof.
  intros S. pose proof (n_pages_bound (hf_cache hf) records (ft_of node) (quiet _ _ S)) as B.
  change (n_pages (hf_cache hf) records (ft_of node)) with (pages_of hf node) in B.
  pose proof SLOTS_PER_PAGE_size as Sp. unfold SLOT_SIZE in Sp. pose proof rp_min.
  assert (MAX_PAGE_NO <= LONG_MAX / 256).
  { unfold MAX_PAGE_NO. apply Z.div_le_compat_l; unfold LONG_MAX; lia. }
  assert (LONG_MAX / 256 < 2 ^ 56) by reflexivity. lia.
Qed.

Lemma find_free_ok fuel hf g node log page slot :
  holds_store hf g -> 0 <= page -> 0 <= slot < SLOTS_PER_PAGE -> slot mod num_slots node = 0 ->
  (0 < fuel)%nat -> (page < pages_of hf node -> (pages_of hf node - page) * SLOTS_PER_PAGE - slot < Z.of_nat fuel) ->
  exists o hf', find_free fuel hf node log page slot (256 * page + slot) = Ok (o, hf') /\
    holds_store hf' g /\ same_shape hf hf' /\
    match o with Some id => in_file (hf_cache hf') node id /\ has g node id = false | None => True end.
Proof.
  revert hf page slot. induction fuel as [|fuel IH]; intros hf page slot S Hp Hs Hm Hf Hb; [lia|].
  cbn [find_free]. destruct (Z.ltb_spec page (pages_of hf node)) as [Hlt|Hge]; [|by exists None, hf].
  destruct (valid_id node page slot Hp Hs Hm) as (V & Ed & Em).
  assert (I : in_file (hf_cache hf) node (256 * page + slot)) by (split; [done|by rewrite Ed]).
  destruct (check_exists_ok hf g node _ log S I) as (hf1 & E1 & S1 & Sh1). rewrite E1. cbn [mbind res_bind].
  pose proof (pages_small _ _ node S) as PS.
  destruct (next_slot_ok node page slot ltac:(lia) Hs Hm) as [Hfit En].
  assert (Hrow : SLOTS_PER_PAGE <= (pages_of hf node - page) * SLOTS_PER_PAGE)
    by (rewrite <- (Z.mul_1_l SLOTS_PER_PAGE) at 1; apply Z.mul_le_mono_nonneg_r; lia).
  specialize (Hb Hlt).
  destruct (num_slots_cases node) as [[Ens _]|[Ens _]].
  all: rewrite !Z.mod_small by lia; rewrite (proj2 (Z.leb_le slot (slot + (num_slots node - 1)))) by lia;
    rewrite andb_true_r; destruct (has g node (256 * page + slot)) eqn:Hh; cbn [negb];
    [|exists (Some (256 * page + slot)), hf1; split_and!; try done;
      split; [done|]; rewrite Ed; by rewrite (sh_pages _ _ Sh1)].
  all: rewrite En; pose proof (same_shape_pages _ _ node Sh1) as Pg;
    pose proof rp_min; pose proof rp_max; destruct rp_mult as [k Ek];
    destruct (Z.eqb_spec (slot + num_slots node) SLOTS_PER_PAGE) as [Efull|Efull].
  all: rewrite id_of_eq by lia.
  all: match goal with |- context [find_free _ _ _ _ ?p ?sl _] =>
      destruct (IH _ p sl S1) as (o & hf2 & E2 & S2 & Sh2 & R2); rewrite ?Pg; try lia end.
  all: try (rewrite Ens in *; lia).
  all: try (exists o, hf2; split_and!; [done|done|by rewrite Sh1|done]).
Qed.

(** [mark_slots] puts an arbitrary record at the id or takes it away. *)
Lemma mark_slots_ok hf g node id (b : bool) log :
  holds_store hf g -> in_file (hf_cache hf) node id ->
  exists hf', mark_slots hf node id (if b then UCHAR_MAX else 0) log = Ok hf' /\
    holds_store hf' (put_marked g (hf_cache hf) node id b) /\ same_shape hf hf'.
Proof.
  intros S I. destruct (mark_ok hf node id b log (quiet _ _ S) I) as (hf' & E & Sc & Q' & M).
  exists hf'. rewrite E, Sc. split_and!; [done| |].
  - apply holds_set_cache; [apply S|]. eapply stores_marked; [apply S|done|done|done].
  - split; try done. apply (mk_pages _ _ _ _ _ M).
Qed.

Lemma holds_last hf g node id : holds_store hf g -> valid node id -> holds_store (set_last_alloc hf node id) g.
Proof.
  intros [S L] V. split; [done|]. intros node'. pose proof (L node').
  unfold last_alloc, set_last_alloc in *. destruct node, node'; done.
Qed.

(** The new page of [next_free_slots]. *)
Lemma new_slots_ok hf g node log :
  holds_store hf g -> room hf node 1 ->
  exists i f pc1 pc2, new_page (hf_cache hf) (ft_of node) log = Ok (i, pc1) /\ get_frame pc1 i = Ok f /\
    p_no f = pages_of hf node /\ unpin_page pc1 (p_no f) records (ft_of node) log = Ok pc2 /\
    stores pc2 g /\ n_pages pc2 records (ft_of node) = pages_of hf node + 1 /\
    n_pages pc2 header (ft_of node) <= n_pages (hf_cache hf) header (ft_of node) + (SLOTS_PER_PAGE + 2) /\
    forall fk ft, ft <> ft_of node -> n_pages pc2 fk ft = n_pages (hf_cache hf) fk ft.
Proof.
  intros S [R1 R2]. pose proof (quiet _ _ S) as Q.
  destruct (new_page_ok (hf_cache hf) (ft_of node) log Q R1 ltac:(lia))
    as (i & f & pc1 & E & Pi & Hh & D & V & Z0 & Nr & Nh & No).
  destruct (unpin_page_ok pc1 i f records (ft_of node) _ log Pi ltac:(done) Hh) as (pc2 & Eu & Q2 & S2).
  assert (Ep : p_no f = n_pages (hf_cache hf) records (ft_of node)) by apply Hh.
  exists i, f, pc1, pc2. split_and!; [done|unfold get_frame; by rewrite (pi_frame _ _ _ Pi)|done|by rewrite Ep| | | |].
  - pose proof (fun fk ft => ss_pages _ _ S2 fk ft) as Np.
    apply (stores_grown (hf_cache hf) pc2 g (ft_of node)); try done; [apply S|by rewrite Np|rewrite Np; lia|..].
    + intros. rewrite Np. by apply No.
    + intros fk ft' p Hk Hp. rewrite (ss_view _ _ S2); [by apply V|done|].
      destruct (decide (ft' = ft_of node)) as [->|Hne]; [|by rewrite No].
      destruct fk; [done|lia|]. rewrite Nr. lia.
    + intros p Hp Hp'. rewrite Np in Hp. rewrite (ss_view _ _ S2) by done. by apply Z0.
  - by rewrite (ss_pages _ _ S2).
  - rewrite (ss_pages _ _ S2). lia.
  - intros. rewrite (ss_pages _ _ S2). by apply No.
Qed.

Lemma has_in_file_none hf g node id : holds_store hf g -> ~ in_file (hf_cache hf) node id -> has g node id = false.
Proof.
  intros S NI. destruct (has g node id) eqn:E; [|done]. exfalso. apply NI. by eapply has_in_file.
Qed.

(** [next_free_slots] returns, and the id it leaves in the heap file was free and is now
    the id of some record; nothing else of the store changes. *)
Lemma next_free_ok hf g node log :
  holds_store hf g -> room hf node 1 ->
  exists hf' id pc, next_free_slots hf node log = Ok hf' /\ last_alloc hf' node = id /\
    in_file (hf_cache hf') node id /\ has g node id = false /\
    holds_store hf' (put_marked g pc node id true) /\
    n_nodes hf' = n_nodes hf /\ n_rels hf' = n_rels hf /\ grown hf hf' node.
Proof.
  intros S R. unfold next_free_slots. rewrite record_page_eq, slot_in_page_eq.
  pose proof (hs_last _ _ S node) as (L0 & Ls & Lm). pose proof (id_parts (last_alloc hf node)) as Ip.
  rewrite mod_slots in Lm. pose proof (pages_small _ _ node S) as PS. pose proof rp_min.
  assert (Hpg : 0 <= last_alloc hf node / 256) by (apply Z.div_pos; lia).
  destruct (find_free_ok (scan_fuel hf node) hf g node log (last_alloc hf node / 256) (last_alloc hf node mod 256))
    as (o & hf1 & E1 & S1 & Sh1 & F1); try done; try lia.
  { unfold scan_fuel. lia. }
  { intros Hlt. unfold scan_fuel. rewrite Nat2Z.inj_succ, Z2Nat.id by nia. nia. }
  replace (256 * (last_alloc hf node / 256) + last_alloc hf node mod 256) with (last_alloc hf node) in E1 by lia.
  rewrite E1. cbn [mbind res_bind].
  destruct o as [id|].
  - cbn [mbind res_bind]. destruct F1 as [I1 H1'].
    assert (Le : last_alloc (set_last_alloc hf1 node id) node = id) by (by destruct node).
    rewrite Le. destruct (mark_slots_ok (set_last_alloc hf1 node id) g node id true log) as (hf2 & E2 & S2 & Sh2).
    { apply holds_last; [done|apply I1]. } { done. }
    exists hf2, id. eexists. split; [exact E2|]. split_and!; [by rewrite (sh_last _ _ Sh2)| |done|exact S2| | |].
    + destruct I1 as [V1 P1]. split; [done|]. by rewrite (sh_pages _ _ Sh2).
    + rewrite (sh_nodes _ _ Sh2). apply (sh_nodes _ _ Sh1).
    + rewrite (sh_rels _ _ Sh2). apply (sh_rels _ _ Sh1).
    + apply (grown_shape hf (set_last_alloc hf1 node id)); [|done].
      destruct (shape_grown hf hf1 node Sh1) as [A B C]. by split.
  - destruct (new_slots_ok hf1 g node log S1 (same_shape_room _ _ node 1 Sh1 R))
      as (i & f & pc1 & pc2 & En & Ef & Epn & Eu & St & Np & Nh & No).
    rewrite En. cbn [mbind res_bind]. rewrite Ef. cbn [mbind res_bind].
    pose proof (same_shape_pages _ _ node Sh1) as Pg. rewrite Pg in *. rewrite Epn in *.
    assert (Eg : u64 (Z.shiftl ULONG_MAX CHAR_BIT) = 2 ^ 64 - 256) by reflexivity. rewrite Eg.
    rewrite (proj2 (Z.ltb_ge _ _)) by lia. rewrite Eu. cbn [mbind res_bind].
    assert (Eid : u64 (Z.shiftl (pages_of hf node) CHAR_BIT) = 256 * pages_of hf node + 0).
    { unfold CHAR_BIT. rewrite Z.shiftl_mul_pow2 by lia. change (2 ^ 8) with 256.
      rewrite u64_small by (unfold is_u64; lia). lia. }
    rewrite Eid. destruct (valid_id node (pages_of hf node) 0) as (V & Ed & Em); [lia|lia|by destruct node|].
    set (id := 256 * pages_of hf node + 0) in *.
    set (hf2 := set_last_alloc (set_cache hf1 pc2) node id).
    assert (S2 : holds_store hf2 g) by (apply holds_last; [apply holds_set_cache; [apply S1|done]|done]).
    assert (I2 : in_file (hf_cache hf2) node id).
    { split; [done|]. rewrite Ed. change (hf_cache hf2) with pc2. lia. }
    assert (Le : last_alloc hf2 node = id) by (by destruct node).
    rewrite Le. destruct (mark_slots_ok hf2 g node id true log S2 I2) as (hf3 & E3 & S3 & Sh3).
    exists hf3, id. eexists. split; [exact E3|]. split_and!; [by rewrite (sh_last _ _ Sh3)| | |exact S3| | |].
    + split; [done|]. rewrite (sh_pages _ _ Sh3). apply I2.
    + apply (has_in_file_none hf g); [done|]. intros [_ Hp]. rewrite Ed in Hp.
      change (pages_of hf node < pages_of hf node) in Hp. lia.
    + rewrite (sh_nodes _ _ Sh3). apply (sh_nodes _ _ Sh1).
    + rewrite (sh_rels _ _ Sh3). apply (sh_rels _ _ Sh1).
    + rewrite (sh_pages _ _ Sh1) in Nh. apply (grown_shape hf hf2 hf3); [|done].
      split; change (hf_cache hf2) with pc2; [rewrite Np; apply Z.le_refl|exact Nh|].
      intros fk ft Hft. rewrite No by done. apply (sh_pages _ _ Sh1).
Qed.

End Records.
