(* ===== verification/HeapStore.v ===== *)
(** Records as a client of the heap file sees them: creating, reading, updating, listing
    and searching records of a heap file that holds an abstract store, and opening a heap
    file on a page cache.

    A scan visits the slots of a file in the order of their ids.  [listing m x xs] says that
    [xs] are the records of the map [m] with ids below [x], in increasing order. *)

From S2P Require Import Prelude Constants LinkedList HTable ArrayList DiskFile PhysicalDatabase Page PageCache PageCacheInv HeaderPage Records HeapFile HeapFileInv HeapRecords.
From Stdlib Require Import ZArith Lia Sorting.Sorted.
From stdpp Require Import base list list_numbers option fin_maps gmap strings sorting.

#[local] Open Scope Z_scope.

(** ** Listings *)

Record listing {A} (key : A -> Z) (m : gmap Z A) (x : Z) (xs : list A) : Prop := Listing {
  ls_sorted : StronglySorted (fun a b => key a < key b) xs;
  ls_elem : forall a, a ∈ xs <-> m !! key a = Some a /\ key a < x }.

Section Listing.
Context {A : Type} (key : A -> Z) (m : gmap Z A).
Hypothesis keys : forall y a, m !! y = Some a -> key a = y /\ 0 <= y.

Lemma listing_nil : listing key m 0 [].
Proof.
  split; [constructor|]. intros a. rewrite elem_of_nil. split; [done|]. intros [E ?].
  destruct (keys _ _ E). lia.
Qed.

Lemma listing_mono x x' xs :
  x <= x' -> (forall y, x <= y < x' -> m !! y = None) -> listing key m x xs -> listing key m x' xs.
Proof.
  intros Hx N [S E]. split; [done|]. intros a. rewrite E. split; [intros []; split; [done|lia]|].
  intros [Ea ?]. split; [done|]. destruct (Z.lt_ge_cases (key a) x); [done|]. by rewrite N in Ea by lia.
Qed.

Lemma listing_snoc x xs a : m !! x = Some a -> listing key m x xs -> listing key m (x + 1) (xs ++ [a]).
Proof.
  intros Ea [S E]. destruct (keys _ _ Ea) as [<- _]. split.
  - apply StronglySorted_app. split_and!; [|done|repeat constructor].
    intros b c Hb ->%list_elem_of_singleton. by apply E in Hb as [_ ?].
  - intros b. rewrite elem_of_app, E, list_elem_of_singleton. split.
    + intros [[? ?]| ->]; (split; [done|lia]).
    + intros [Eb ?]. destruct (Z.lt_ge_cases (key b) (key a)); [by left|right].
      assert (Ek : key b = key a) by lia. rewrite Ek, Ea in Eb. congruence.
Qed.

Lemma listing_nodup x xs : listing key m x xs -> NoDup xs.
Proof.
  intros [S _]. induction S as [|a xs S IH F]; constructor; [|done].
  intros Ha. rewrite Forall_forall in F. specialize (F a Ha). lia.
Qed.

Lemma listing_length x xs : listing key m x xs -> (length xs <= size m)%nat.
Proof.
  intros L. rewrite <- length_map_to_list, <- (length_map snd (map_to_list m)).
  apply submseteq_length, NoDup_submseteq; [by eapply listing_nodup|].
  intros a Ha. apply L in Ha as [E _]. apply list_elem_of_fmap. exists (key a, a).
  split; [done|]. by apply elem_of_map_to_list.
Qed.

(** Beyond the last id, a listing has every record once. *)
Lemma listing_all x xs : listing key m x xs -> (forall y a, m !! y = Some a -> y < x) ->
  xs ≡ₚ (map_to_list m).*2.
Proof.
  intros L B. apply NoDup_Permutation; [by eapply listing_nodup| |].
  - apply NoDup_fmap_2_strong; [|apply NoDup_map_to_list].
    intros [i a] [j b] Hi%elem_of_map_to_list Hj%elem_of_map_to_list. cbn. intros <-.
    destruct (keys _ _ Hi) as [<- _], (keys _ _ Hj) as [<- _]. done.
  - intros a. rewrite (ls_elem _ _ _ _ L), list_elem_of_fmap. split.
    + intros [E _]. exists (key a, a). split; [done|]. by apply elem_of_map_to_list.
    + intros ([i b] & -> & Hi%elem_of_map_to_list). cbn. destruct (keys _ _ Hi) as [Ek _].
      rewrite Ek. split; [done|]. by eapply B.
Qed.
End Listing.

Section Store.
Context `{RecordPages}.
Implicit Types (pc : page_cache) (hf : heap_file) (ft : file_type) (node : bool) (id s : Z) (g : store)
  (log : bool) (n : node_t) (r : relationship_t).

(** ** Scans *)

(** The first slot of a file can be checked even when the file is empty. *)
Lemma check_first_ok hf g node log :
  holds_store hf g -> pages_of hf node = 0 ->
  exists hf', check_record_exists hf 0 node log = Ok (false, hf') /\ holds_store hf' g /\ same_shape hf hf'.
Proof.
  intros S N0. pose proof (quiet _ _ S) as Q. pose proof rp_min. pose proof header_bits_slots as HS.
  assert (N1 : 1 <= n_pages (hf_cache hf) header (ft_of node)).
  { apply (ft_nonempty _ _ (pdb_fts _ (quiescent_pdb _ Q) (ft_of node))). }
  assert (Hn : 1 <= num_slots node <= 4) by (destruct (num_slots_cases node) as [[-> _]|[-> _]]; lia).
  assert (Cap : 16 <= n_pages (hf_cache hf) header (ft_of node) * header_bits) by nia.
  destruct (check_header_ok hf node 0 log Q) as (hf' & E & Q' & Ss & Sc).
  { split; [lia|]. rewrite Z.mod_0_l by lia. split; [lia|]. by destruct node. }
  { reflexivity. } { reflexivity. } { change (slot_no 0) with 0. lia. }
  assert (U : used_b (hf_cache hf) node 0 = false).
  { apply not_true_iff_false. rewrite used_b_true. intros A. specialize (A 0 ltac:(lia)).
    change (slot_no 0 + 0) with 0 in A. rewrite (so_free _ _ (hs_stores _ _ S)) in A; [done|].
    unfold pages_of in N0. unfold n_pages at 1. cbn [file_of]. rewrite N0. lia. }
  rewrite U in E. exists hf'. split_and!; [done| |].
  - rewrite Sc. apply holds_set_cache; [apply S|]. eapply stores_same; [apply S|done|done].
  - rewrite Sc. split; try done. apply (ss_pages _ _ Ss).
Qed.

(** No record between a slot and the next one. *)
Lemma no_record_between hf g node page slot y :
  holds_store hf g -> 0 <= slot < SLOTS_PER_PAGE -> slot mod num_slots node = 0 ->
  256 * page + slot + 1 <= y <
    256 * page + (if slot + num_slots node =? SLOTS_PER_PAGE then 256 else slot + num_slots node) ->
  has g node y = false.
Proof.
  intros S Hs Hm Hy. destruct (has g node y) eqn:E; [|done]. exfalso.
  destruct (has_in_file _ _ _ _ S E) as ((_ & Ys & Ym) & _). pose proof rp_max.
  rewrite mod_slots in Ym. destruct (Z.eqb_spec (slot + num_slots node) SLOTS_PER_PAGE) as [Ef|Ef];
    destruct (num_slots_cases node) as [[En _]|[En _]]; rewrite En in *; clear -Hs Hm Hy Ys Ym Ef H1; lia.
Qed.

Section Scan.
Context {A B : Type} (g : store) (node log : bool)
  (act : Z -> A -> heap_file -> res ((B + A) * heap_file)) (P : Z -> A -> Prop) (Q : B -> heap_file -> Prop).

(** [P x acc]: [acc] accounts for the records with ids below [x]. *)
Hypothesis P_mono : forall x x' acc, x <= x' -> (forall y, x <= y < x' -> has g node y = false) -> P x acc -> P x' acc.
Hypothesis act_ok : forall x acc hf, holds_store hf g -> has g node x = true -> P x acc ->
  exists o hf', act x acc hf = Ok (o, hf') /\ holds_store hf' g /\ same_shape hf hf' /\
    match o with inl b => Q b hf' | inr acc' => P (x + 1) acc' end.

(** One round: the check and the action. *)
Lemma scan_round x acc hf :
  holds_store hf g -> (in_file (hf_cache hf) node x \/ x = 0 /\ pages_of hf node = 0) -> P x acc ->
  exists o hf',
    ('(b, hf) ← check_record_exists hf x node log;
     if b : bool then act x acc hf else Ok (inr acc, hf)) = Ok (o, hf') /\
    holds_store hf' g /\ same_shape hf hf' /\
    match o with inl b => Q b hf' | inr acc' => P (if pages_of hf node =? 0 then 0 else x + 1) acc' end.
Proof.
  intros S [I|[-> N0]] Hp.
  - destruct (check_exists_ok hf g node x log S I) as (hf1 & E1 & S1 & Sh1). rewrite E1. cbn [mbind res_bind].
    destruct (in_file_page _ _ _ I) as [_ Hl]. pose proof (in_file_page _ _ _ I).
    change (x / 256 < pages_of hf node) in Hl. rewrite (proj2 (Z.eqb_neq (pages_of hf node) 0)) by lia.
    destruct (has g node x) eqn:Hh.
    + destruct (act_ok x acc hf1 S1 Hh Hp) as (o & hf2 & E2 & S2 & Sh2 & R).
      exists o, hf2. split_and!; [done|done|by rewrite Sh1|done].
    + exists (inr acc), hf1. split_and!; [done|done|done|]. apply P_mono with x; [lia| |done].
      intros y Hy. by assert (y = x) as -> by lia.
  - destruct (check_first_ok hf g node log S N0) as (hf1 & E1 & S1 & Sh1). rewrite E1.
    exists (inr acc), hf1. split_and!; [done|done|done|]. by rewrite N0.
Qed.

Lemma scan_ok fuel hf acc page slot :
  holds_store hf g -> 0 <= page -> 0 <= slot < SLOTS_PER_PAGE -> slot mod num_slots node = 0 ->
  (page < pages_of hf node \/ page = 0 /\ slot = 0 /\ pages_of hf node = 0) ->
  (pages_of hf node - page) * SLOTS_PER_PAGE - slot < Z.of_nat fuel ->
  P (256 * page + slot) acc ->
  exists o hf', scan fuel node log act acc hf page slot (256 * page + slot) = Ok (o, hf') /\
    holds_store hf' g /\ same_shape hf hf' /\
    match o with inl b => Q b hf' | inr acc' => P (256 * pages_of hf node) acc' end.
Proof.
  revert hf acc page slot. induction fuel as [|fuel IH]; intros hf acc page slot S Hpg Hs Hm Hr Hf Hp.
  { exfalso. pose proof rp_min. destruct Hr as [Hr|(E1 & E2 & E3)]; [|rewrite E1, E2, E3 in Hf; lia].
    assert (SLOTS_PER_PAGE <= (pages_of hf node - page) * SLOTS_PER_PAGE) by nia. lia. }
  destruct (valid_id node page slot Hpg Hs Hm) as (V & Ed & Em).
  destruct (scan_round (256 * page + slot) acc hf S) as (o & hf1 & E1 & S1 & Sh1 & R1); [|done|].
  { destruct Hr as [Hr|(-> & -> & Hr)]; [left; split; [done|by rewrite Ed]|by right]. }
  cbn [scan]. pose proof (same_shape_pages _ _ node Sh1) as Pg.
  destruct (check_record_exists hf (256 * page + slot) node log) as [[b hf0]| | |] eqn:Ec; try discriminate E1.
  cbn [mbind res_bind] in E1 |- *. rewrite E1. cbn [mbind res_bind].
  destruct o as [bb|acc1]; [by exists (inl bb), hf1|].
  pose proof (pages_small _ _ node S) as PS.
  destruct (next_slot_ok node page slot) as [Hfit En]; [destruct Hr as [?|(-> & ? & ?)]; lia|done|done|].
  rewrite En. assert (Hn : 1 <= num_slots node <= 4) by (destruct (num_slots_cases node) as [[-> _]|[-> _]]; lia).
  pose proof rp_min. pose proof rp_max.
  assert (Hnext : page < pages_of hf node ->
    P (256 * page + (if slot + num_slots node =? SLOTS_PER_PAGE then 256 else slot + num_slots node)) acc1).
  { intros Hlt. rewrite (proj2 (Z.eqb_neq (pages_of hf node) 0)) in R1 by lia.
    apply P_mono with (256 * page + slot + 1); [|intros y Hy; by eapply no_record_between|done].
    destruct (Z.eqb_spec (slot + num_slots node) SLOTS_PER_PAGE); lia. }
  destruct (Z.eqb_spec (slot + num_slots node) SLOTS_PER_PAGE) as [Ef|Ef]; rewrite Pg.
  - destruct (Z.ltb_spec (page + 1) (pages_of hf node)) as [Hlt|Hge].
    + rewrite id_of_eq by lia. destruct (IH hf1 acc1 (page + 1) 0) as (o & hf2 & E2 & S2 & Sh2 & R2); try done; try lia.
      { specialize (Hnext ltac:(lia)). by replace (256 * (page + 1) + 0) with (256 * page + 256) by lia. }
      exists o, hf2. rewrite Pg in R2. split_and!; [done|done|by rewrite Sh1|done].
    + exists (inr acc1), hf1. split_and!; [done|done|done|].
      destruct Hr as [Hr|(-> & -> & Hr)]; [|lia].
      replace (256 * pages_of hf node) with (256 * page + 256) by lia. by apply Hnext.
  - destruct (Z.ltb_spec page (pages_of hf node)) as [Hlt|Hge].
    + rewrite id_of_eq by lia.
      destruct (IH hf1 acc1 page (slot + num_slots node)) as (o & hf2 & E2 & S2 & Sh2 & R2); try done; try lia.
      { destruct (num_slots_cases node) as [[En' _]|[En' _]]; rewrite En' in *; clear -Hm; lia. }
      { replace (256 * page + (slot + num_slots node)) with (256 * page + (slot + num_slots node)) by lia. by apply Hnext. }
      exists o, hf2. rewrite Pg in R2. split_and!; [done|done|by rewrite Sh1|done].
    + exists (inr acc1), hf1. split_and!; [done|done|done|].
      destruct Hr as [Hr|(-> & -> & Hr)]; [lia|]. rewrite Hr in *. exact R1.
Qed.

Lemma scan_all_ok hf acc :
  holds_store hf g -> P 0 acc ->
  exists o hf', scan (scan_fuel hf node) node log act acc hf 0 0 0 = Ok (o, hf') /\
    holds_store hf' g /\ same_shape hf hf' /\
    match o with inl b => Q b hf' | inr acc' => P (256 * pages_of hf node) acc' end.
Proof.
  intros S Hp. pose proof (pages_small _ _ node S). pose proof rp_min.
  destruct (scan_ok (scan_fuel hf node) hf acc 0 0) as (o & hf' & E & R); try done; try lia.
  - unfold scan_fuel. rewrite Nat2Z.inj_succ, Z2Nat.id by nia. lia.
  - by exists o, hf'.
Qed.
End Scan.

(** ** Sizes *)

(** Different record ids of a file have different slots. *)
Lemma ids_slots hf g node (ids : list Z) :
  holds_store hf g -> NoDup ids -> Forall (in_file (hf_cache hf) node) ids ->
  Z.of_nat (length ids) <= pages_of hf node * SLOTS_PER_PAGE.
Proof.
  intros S Nd F. pose proof (quiet _ _ S) as Q.
  set (N := n_pages (hf_cache hf) records (ft_of node) * SLOTS_PER_PAGE).
  assert (L : (length (slot_no <$> ids) <= length (seqZ 0 N))%nat).
  { apply submseteq_length, NoDup_submseteq.
    - apply NoDup_fmap_2_strong; [|done]. rewrite Forall_forall in F. intros x y Hx%F Hy%F.
      apply slot_no_inj; [apply Hx|apply Hy].
    - intros t (y & -> & Hy)%list_elem_of_fmap. rewrite Forall_forall in F. apply elem_of_seqZ.
      pose proof (in_file_slots _ _ _ 0 Q (F y Hy)) as B.
      destruct (num_slots_cases node) as [[En _]|[En _]]; rewrite En in B; unfold N; lia. }
  rewrite length_fmap, length_seqZ in L. unfold N in L. change (n_pages _ _ _) with (pages_of hf node) in L.
  pose proof (pages_small hf g node S). pose proof rp_min. nia.
Qed.

Lemma ids_bound hf g node (ids : list Z) :
  holds_store hf g -> NoDup ids -> Forall (in_file (hf_cache hf) node) ids -> Z.of_nat (length ids) < 2 ^ 59.
Proof.
  intros S Nd F. pose proof (ids_slots hf g node ids S Nd F) as L. pose proof (quiet _ _ S) as Q.
  pose proof (n_pages_bound (hf_cache hf) records (ft_of node) Q) as B.
  change (n_pages _ _ _) with (pages_of hf node) in B. set (N := pages_of hf node * SLOTS_PER_PAGE) in *.
  pose proof SLOTS_PER_PAGE_size as Sp. unfold SLOT_SIZE in Sp. pose proof rp_min.
  assert (M : MAX_PAGE_NO * PAGE_SIZE <= LONG_MAX) by (unfold MAX_PAGE_NO; rewrite Z.mul_comm; apply Z.mul_div_le; lia).
  assert (N * 16 <= LONG_MAX) by (unfold N; nia). unfold LONG_MAX in *. lia.
Qed.

Lemma size_bound {A} hf g node (m : gmap Z A) :
  holds_store hf g -> (forall y a, m !! y = Some a -> has g node y = true) -> Z.of_nat (size m) < 2 ^ 59.
Proof.
  intros S Hm. rewrite <- length_map_to_list, <- (length_map fst (map_to_list m)).
  eapply (ids_bound hf g node); [done|apply NoDup_fst_map_to_list|].
  apply Forall_forall. intros y ([i a] & -> & Hi%elem_of_map_to_list)%list_elem_of_fmap.
  eapply has_in_file; [done|]. by eapply Hm.
Qed.

Lemma has_valid hf g node id : holds_store hf g -> has g node id = true -> valid node id /\ id < 256 * pages_of hf node.
Proof.
  intros S Hh. destruct (has_in_file _ _ _ _ S Hh) as [V Hp]. split; [done|].
  change (n_pages _ _ _) with (pages_of hf node) in Hp. pose proof (id_parts id). lia.
Qed.

Lemma nodes_keyed hf g : holds_store hf g ->
  forall y n, st_nodes g !! y = Some n -> (n_id n = y /\ 0 <= y) /\ y < 256 * pages_of hf true.
Proof.
  intros S y n E. destruct (has_valid _ _ _ _ S (has_node _ _ _ E)) as [[V _] B].
  by destruct (stored_node _ _ _ _ S E) as [-> _].
Qed.
Lemma rels_keyed hf g : holds_store hf g ->
  forall y r, st_rels g !! y = Some r -> (r_id r = y /\ 0 <= y) /\ y < 256 * pages_of hf false.
Proof.
  intros S y r E. destruct (has_valid _ _ _ _ S (has_rel _ _ _ E)) as [[V _] B].
  by destruct (stored_rel _ _ _ _ S E) as [-> _].
Qed.

(** ** Listing all records *)

(** A scan whose action appends the record to a list. *)
Lemma collect_ok {A} (key : A -> Z) (m : gmap Z A) node act hf g log :
  holds_store hf g ->
  (forall y a, m !! y = Some a -> key a = y /\ 0 <= y) ->
  (forall y, has g node y = bool_decide (is_Some (m !! y))) ->
  (forall x a l l' hf1, holds_store hf1 g -> m !! x = Some a -> array_list_append l a = Ok l' ->
    exists hf2, act x l hf1 = Ok (inr l', hf2) /\ holds_store hf2 g /\ same_shape hf1 hf2) ->
  exists l xs hf', scan (B := Empty_set) (scan_fuel hf node) node log act array_list_create hf 0 0 0 = Ok (inr l, hf') /\
    al_appended l xs /\ listing key m (256 * pages_of hf node) xs /\ holds_store hf' g /\ same_shape hf hf'.
Proof.
  intros S K Hh Act.
  destruct (scan_all_ok g node log act (fun x l => exists xs, al_appended l xs /\ listing key m x xs)
    (fun _ _ => False)) with (hf := hf) (acc := @array_list_create A) as (o & hf' & E & S' & Sh & R).
  - intros x x' l Hx Hn (xs & Al & L). exists xs. split; [done|]. eapply listing_mono; [done| |done].
    intros y Hy%Hn. rewrite Hh in Hy. by apply bool_decide_eq_false, eq_None_not_Some in Hy.
  - intros x l hf1 S1 Hx (xs & Al & L). rewrite Hh in Hx. apply bool_decide_eq_true in Hx as [a E].
    pose proof (listing_length key m x xs L) as Le.
    assert (Z.of_nat (size m) < 2 ^ 59).
    { apply (size_bound hf1 g node m S1). intros y b Eb. rewrite Hh. apply bool_decide_true. eauto. }
    destruct (array_append_ok l xs a Al ltac:(lia)) as (l' & El & A').
    destruct (Act x a l l' hf1 S1 E El) as (hf2 & E2 & S2 & Sh2).
    exists (inr l'), hf2. split_and!; [done..|]. exists (xs ++ [a]). split; [done|]. by apply listing_snoc.
  - done.
  - exists []. split; [apply array_create_appended|by apply listing_nil].
  - destruct o as [[]|l]. destruct R as (xs & Al & L). by exists l, xs, hf'.
Qed.

Lemma get_nodes_listing hf g log : holds_store hf g ->
  exists l xs hf', get_nodes hf log = Ok (l, hf') /\ al_appended l xs /\
    listing n_id (st_nodes g) (256 * pages_of hf true) xs /\ holds_store hf' g /\ same_shape hf hf'.
Proof.
  intros S. unfold get_nodes.
  destruct (collect_ok n_id (st_nodes g) true (append_node log) hf g log S) as (l & xs & hf' & E & R).
  - intros y n E. by apply (nodes_keyed _ _ S).
  - done.
  - intros x n l l' hf1 S1 E El. unfold append_node.
    destruct (read_node_internal_ok hf1 g x n false log S1 E) as (hf2 & E2 & S2 & Sh2).
    rewrite E2. cbn [mbind res_bind]. rewrite El. eexists. split; [reflexivity|].
    split; [by apply holds_log|by apply shape_log].
  - rewrite E. by exists l, xs, hf'.
Qed.

Lemma get_rels_listing hf g log : holds_store hf g ->
  exists l xs hf', get_relationships hf log = Ok (l, hf') /\ al_appended l xs /\
    listing r_id (st_rels g) (256 * pages_of hf false) xs /\ holds_store hf' g /\ same_shape hf hf'.
Proof.
  intros S. unfold get_relationships.
  destruct (collect_ok r_id (st_rels g) false (append_rel log) hf g log S) as (l & xs & hf' & E & R).
  - intros y r E. by apply (rels_keyed _ _ S).
  - done.
  - intros x r l l' hf1 S1 E El. unfold append_rel.
    destruct (read_rel_internal_ok hf1 g x r false log S1 E) as (hf2 & E2 & S2 & Sh2).
    rewrite E2. cbn [mbind res_bind]. rewrite El. eexists. split; [reflexivity|].
    split; [by apply holds_log|by apply shape_log].
  - rewrite E. by exists l, xs, hf'.
Qed.

(** ** Searches by label *)

(** A scan that ends at the first record with a property. *)
Lemma search_ok {A} (key : A -> Z) (m : gmap Z A) (p : A -> bool) node act hf g log :
  holds_store hf g ->
  (forall y a, m !! y = Some a -> key a = y /\ 0 <= y < 256 * pages_of hf node) ->
  (forall y, has g node y = bool_decide (is_Some (m !! y))) ->
  (forall x a hf1, holds_store hf1 g -> m !! x = Some a ->
    exists hf2, act x tt hf1 = Ok (if p a then inl a else inr tt, hf2) /\ holds_store hf2 g /\ same_shape hf1 hf2) ->
  exists o hf', scan (scan_fuel hf node) node log act tt hf 0 0 0 = Ok (o, hf') /\
    holds_store hf' g /\ same_shape hf hf' /\
    match o with
    | inl a => m !! key a = Some a /\ p a = true /\ forall y b, m !! y = Some b -> y < key a -> p b = false
    | inr _ => forall y b, m !! y = Some b -> p b = false
    end.
Proof.
  intros S K Hh Act.
  destruct (scan_all_ok g node log act (fun x _ => forall y b, m !! y = Some b -> y < x -> p b = false)
    (fun a _ => m !! key a = Some a /\ p a = true /\ forall y b, m !! y = Some b -> y < key a -> p b = false))
    with (hf := hf) (acc := tt) as (o & hf' & E & S' & Sh & R).
  - intros x x' [] Hx Hn Hp y b E Hy. destruct (Z.lt_ge_cases y x); [by eapply Hp|].
    specialize (Hn y ltac:(lia)). rewrite Hh in Hn. apply bool_decide_eq_false in Hn. exfalso. eauto.
  - intros x [] hf1 S1 Hx Hp. rewrite Hh in Hx. apply bool_decide_eq_true in Hx as [a E].
    destruct (Act x a hf1 S1 E) as (hf2 & E2 & S2 & Sh2). destruct (K _ _ E) as [Ek _].
    exists (if p a then inl a else inr tt), hf2. split_and!; [done..|].
    destruct (p a) eqn:Ep; [by rewrite Ek|].
    intros y b Eb Hy. destruct (decide (y = x)) as [->|]; [congruence|]. eapply Hp; [done|lia].
  - done.
  - intros y b E Hy. destruct (K _ _ E). lia.
  - exists o, hf'. split_and!; [done..|]. destruct o as [a|[]]; [done|].
    intros y b Eb. eapply R; [done|]. destruct (K _ _ Eb); lia.
Qed.

Lemma find_node_first hf g label log : holds_store hf g ->
  (exists n hf', find_node hf label log = Ok (n, hf') /\ holds_store hf' g /\ same_shape hf hf' /\
     st_nodes g !! n_id n = Some n /\ n_label n = label /\
     forall y m, st_nodes g !! y = Some m -> y < n_id n -> n_label m <> label) \/
  (find_node hf label log = Exit /\ forall y m, st_nodes g !! y = Some m -> n_label m <> label).
Proof.
  intros S. unfold find_node.
  destruct (search_ok n_id (st_nodes g) (fun n => label =? n_label n) true (match_node log label) hf g log S)
    as (o & hf' & E & S' & Sh & R).
  - intros y n E. destruct (nodes_keyed _ _ S y n E) as [[? ?] ?]. done.
  - done.
  - intros x n hf1 S1 E. unfold match_node.
    destruct (read_node_internal_ok hf1 g x n false log S1 E) as (hf2 & E2 & S2 & Sh2).
    rewrite E2. cbn [mbind res_bind]. eexists. split; [reflexivity|].
    split; [by apply holds_log|by apply shape_log].
  - rewrite E. cbn [mbind res_bind]. destruct o as [n|u].
    + left. destruct R as (En & El & Hn). exists n, hf'. apply Z.eqb_eq in El.
      split_and!; try done. intros y m Em Hy El'. specialize (Hn y m Em Hy). cbn in Hn. apply Z.eqb_neq in Hn. congruence.
    + right. split; [done|]. intros y m Em El'. specialize (R y m Em). cbn in R. apply Z.eqb_neq in R. congruence.
Qed.

Lemma find_rel_first hf g label log : holds_store hf g ->
  (exists r hf', find_relationships hf label log = Ok (r, hf') /\ holds_store hf' g /\ same_shape hf hf' /\
     st_rels g !! r_id r = Some r /\ r_label r = label /\
     forall y x, st_rels g !! y = Some x -> y < r_id r -> r_label x <> label) \/
  (find_relationships hf label log = Exit /\ forall y x, st_rels g !! y = Some x -> r_label x <> label).
Proof.
  intros S. unfold find_relationships.
  destruct (search_ok r_id (st_rels g) (fun r => label =? r_label r) false (match_rel log label) hf g log S)
    as (o & hf' & E & S' & Sh & R).
  - intros y r E. destruct (rels_keyed _ _ S y r E) as [[? ?] ?]. done.
  - done.
  - intros x r hf1 S1 E. unfold match_rel.
    destruct (read_rel_internal_ok hf1 g x r false log S1 E) as (hf2 & E2 & S2 & Sh2).
    rewrite E2. cbn [mbind res_bind]. eexists. split; [reflexivity|].
    split; [by apply holds_log|by apply shape_log].
  - rewrite E. cbn [mbind res_bind]. destruct o as [r|u].
    + left. destruct R as (En & El & Hn). exists r, hf'. apply Z.eqb_eq in El.
      split_and!; try done. intros y m Em Hy El'. specialize (Hn y m Em Hy). cbn in Hn. apply Z.eqb_neq in Hn. congruence.
    + right. split; [done|]. intros y m Em El'. specialize (R y m Em). cbn in R. apply Z.eqb_neq in R. congruence.
Qed.

(** ** Public reads and updates *)

Lemma read_node_ok hf g id n log : holds_store hf g -> st_nodes g !! id = Some n ->
  exists hf', read_node hf id log = Ok (n, hf') /\ holds_store hf' g /\ same_shape hf hf'.
Proof.
  intros S E. unfold read_node. destruct (read_node_internal_ok hf g id n true log S E) as (hf' & -> & S' & Sh).
  eexists. split; [reflexivity|]. split; [by apply holds_log|by apply shape_log].
Qed.

Lemma read_rel_ok hf g id r log : holds_store hf g -> st_rels g !! id = Some r ->
  exists hf', read_relationship hf id log = Ok (r, hf') /\ holds_store hf' g /\ same_shape hf hf'.
Proof.
  intros S E. unfold read_relationship. destruct (read_rel_internal_ok hf g id r true log S E) as (hf' & -> & S' & Sh).
  eexists. split; [reflexivity|]. split; [by apply holds_log|by apply shape_log].
Qed.

Lemma update_node_ok hf g n log : holds_store hf g -> has g true (n_id n) = true -> node_range n ->
  exists hf', update_node hf n log = Ok hf' /\ holds_store hf' (put_node g (n_id n) (Some n)) /\ same_shape hf hf'.
Proof.
  intros S Hh R. unfold update_node. destruct (update_node_internal_ok hf g n true log S Hh R) as (hf' & -> & S' & Sh).
  eexists. split; [reflexivity|]. split; [by apply holds_log|by apply shape_log].
Qed.

Lemma update_rel_ok hf g r log : holds_store hf g -> has g false (r_id r) = true -> rel_range r -> writable r ->
  exists hf', update_relationship hf r log = Ok hf' /\ holds_store hf' (put_rel g (r_id r) (Some r)) /\ same_shape hf hf'.
Proof.
  intros S Hh R W. unfold update_relationship.
  destruct (update_rel_internal_ok hf g r true log S Hh R W) as (hf' & -> & S' & Sh).
  eexists. split; [reflexivity|]. split; [by apply holds_log|by apply shape_log].
Qed.

(** ** Ids without a record *)

Lemma absolute_slot_valid node id : valid node id -> is_u64 id -> absolute_slot id = slot_no id.
Proof.
  intros (H0' & Hs & _) Hu. unfold absolute_slot, slot_no. rewrite record_page_eq, slot_in_page_eq.
  unfold is_u64 in Hu. pose proof (id_parts id) as [Ip Ib]. pose proof rp_max. pose proof rp_min.
  set (q := id / 256) in *. set (t := id mod 256) in *. clearbody q t.
  assert (Hq : 0 <= q < 2 ^ 56) by lia. assert (q * SLOTS_PER_PAGE <= q * 256) by nia.
  assert (0 <= q * SLOTS_PER_PAGE) by nia.
  rewrite (u64_small (_ * _)) by (unfold is_u64; lia). apply u64_small. unfold is_u64. lia.
Qed.

(** Asking for an id that no record has: the answer is no, or, when the id is beyond the
    bits of the header file, the program ends. *)
Lemma check_missing hf g node id log :
  holds_store hf g -> is_u64 id -> id mod 256 < SLOTS_PER_PAGE -> has g node id = false ->
  (exists hf', check_record_exists hf id node log = Ok (false, hf') /\ holds_store hf' g /\ same_shape hf hf') \/
  check_record_exists hf id node log = Exit.
Proof.
  intros S Hu Hs Hh. destruct (decide (id mod num_slots node = 0)) as [Hm|Hm]; cycle 1.
  { left. exists hf. by split_and!; [apply check_misaligned|..]. }
  assert (V : valid node id) by (split; [apply Hu|done]).
  pose proof (absolute_slot_valid node id V Hu) as Ea. pose proof (quiet _ _ S) as Q.
  destruct (decide (in_file (hf_cache hf) node id)) as [I|NI].
  { left. destruct (check_exists_ok hf g node id log S I) as (hf' & E & R). rewrite Hh in E. by exists hf'. }
  assert (Hp : n_pages (hf_cache hf) records (ft_of node) <= id / 256).
  { apply Z.nlt_ge. intros ?. apply NI. by split. }
  pose proof rp_min. pose proof (id_parts id) as [_ Ib]. pose proof (n_pages_bound _ records (ft_of node) Q).
  assert (Hn : 1 <= num_slots node) by (destruct (num_slots_cases node) as [[-> _]|[-> _]]; lia).
  assert (Hlo : n_pages (hf_cache hf) records (ft_of node) * SLOTS_PER_PAGE <= slot_no id) by (unfold slot_no; nia).
  pose proof header_bits_pos as HB.
  destruct (Z.lt_ge_cases (slot_no id) (n_pages (hf_cache hf) header (ft_of node) * header_bits)) as [Hin|Hout].
  - left. assert (Hfit : slot_no id + num_slots node <= n_pages (hf_cache hf) header (ft_of node) * header_bits).
    { destruct (slots_together node id (num_slots node - 1) V ltac:(lia)) as [Ed _].
      assert (slot_no id / header_bits < n_pages (hf_cache hf) header (ft_of node)) by (apply Z.div_lt_upper_bound; lia).
      pose proof (Z.mul_succ_div_gt (slot_no id + (num_slots node - 1)) header_bits HB). rewrite Ed in *. nia. }
    destruct (check_header_ok hf node id log Q V Ea ltac:(nia) Hfit) as (hf' & E & Q' & Ss & Sc).
    exists hf'. split_and!.
    + rewrite E. do 2 f_equal. apply not_true_iff_false. rewrite used_b_true. intros A. specialize (A 0 ltac:(lia)).
      rewrite (so_free _ _ (hs_stores _ _ S)) in A; [done|]. lia.
    + rewrite Sc. apply holds_set_cache; [apply S|]. eapply stores_same; [apply S|done|done].
    + rewrite Sc. split; try done. apply (ss_pages _ _ Ss).
  - right. unfold check_record_exists. rewrite (proj2 (Z.eqb_eq _ _) Hm). cbn [negb]. rewrite slot_in_page_eq.
    assert (B : id mod 256 + num_slots node <= SLOTS_PER_PAGE).
    { destruct rp_mult as [k Ek]. rewrite mod_slots in Hm. rewrite Ek in *.
      destruct (num_slots_cases node) as [[En _]|[En _]]; rewrite En in *; lia. }
    rewrite !(Z.mod_small _ SLOTS_PER_PAGE) by lia. rewrite (proj2 (Z.ltb_ge _ _)) by lia.
    unfold pin_page. rewrite bool_decide_false by (by intros [? _]).
    rewrite Ea. fold header_bits. change (file_of (pdb (hf_cache hf)) header (ft_of node)) with
      (file_of (pdb (hf_cache hf)) header (ft_of node)).
    assert (L : n_pages (hf_cache hf) header (ft_of node) <= slot_no id / header_bits) by (apply Z.div_le_lower_bound; lia).
    unfold n_pages in L. rewrite (proj2 (Z.leb_le (df_num_pages _) _)) by done. by rewrite orb_true_r.
Qed.

Lemma assert_missing_exit hf g node id log :
  holds_store hf g -> is_u64 id -> id mod 256 < SLOTS_PER_PAGE -> has g node id = false ->
  assert_exists true hf id node log = Exit.
Proof.
  intros S Hu Hs Hh. unfold assert_exists.
  destruct (check_missing hf g node id log S Hu Hs Hh) as [(hf' & -> & _)| ->]; done.
Qed.

(** ** Creating nodes *)

Lemma put_node_twice g id o o' : put_node (put_node g id o) id o' = put_node g id o'.
Proof. unfold put_node. cbn. by rewrite partial_alter_partial_alter_eq. Qed.
Lemma put_rel_twice g id o o' : put_rel (put_rel g id o) id o' = put_rel g id o'.
Proof. unfold put_rel. cbn. by rewrite partial_alter_partial_alter_eq. Qed.
Lemma has_put_node g id o : has (put_node g id o) true id = bool_decide (is_Some o).
Proof. unfold has, put_node. cbn. by rewrite lookup_partial_alter_eq. Qed.
Lemma has_put_rel g id o : has (put_rel g id o) false id = bool_decide (is_Some o).
Proof. unfold has, put_rel. cbn. by rewrite lookup_partial_alter_eq. Qed.

Lemma create_node_spec hf g label log :
  holds_store hf g -> room hf true 1 -> is_u64 label ->
  exists id hf', create_node hf label log = Ok (id, hf') /\ has g true id = false /\
    holds_store hf' (put_node g id (Some (Node id UNINITIALIZED_LONG label))) /\
    n_nodes hf' = u64 (n_nodes hf + 1) /\ n_rels hf' = n_rels hf /\
    grown hf hf' true.
Proof.
  intros S R L. unfold create_node.
  destruct (next_free_ok hf g true log S R) as (hf1 & id & pc & E1 & El & I1 & Hn & S1 & N1 & N2 & No).
  rewrite E1. cbn [mbind res_bind]. change (last_alloc_node_id hf1) with (last_alloc hf1 true). rewrite El.
  cbn [put_marked] in S1.
  destruct (update_node_internal_ok hf1 _ (Node id UNINITIALIZED_LONG label) false log S1) as (hf2 & E2 & S2 & Sh2).
  { cbn [n_id]. rewrite has_put_node. apply bool_decide_true. eauto. }
  { apply Forall_cons; split; [unfold is_u64, UNINITIALIZED_LONG; cbn; lia|by apply Forall_singleton]. }
  rewrite E2. cbn [mbind res_bind n_id] in *. rewrite put_node_twice in S2.
  exists id. eexists. split; [reflexivity|]. split_and!.
  - done.
  - by apply (holds_log _ _ log (node_line "Create_Node" (Node id UNINITIALIZED_LONG label))) in S2 as [X Y].
  - cbn [set_n_nodes hf_log_when n_nodes]. by rewrite (sh_nodes _ _ Sh2), N1.
  - cbn [set_n_nodes hf_log_when n_rels]. by rewrite (sh_rels _ _ Sh2), N2.
  - destruct (grown_shape _ _ _ _ No Sh2) as [A B C]. by split.
Qed.

(** ** Opening a heap file *)

Definition empty_store : store := Store ∅ ∅.

Lemma new_hf_holds pc log_path g : stores pc g ->
  holds_store (HeapFile pc 0 0 0 0 0 0 0 0 (log_open log_path)) g.
Proof.
  intros S. split; [done|]. pose proof rp_min. intros [|]; (split; [done|]); (split; [|done]); cbn; lia.
Qed.

Lemma heap_file_create_holds pc log_path g : stores pc g ->
  exists hf, heap_file_create pc log_path = Ok hf /\ holds_store hf g /\
    n_nodes hf = Z.of_nat (size (st_nodes g)) /\ n_rels hf = Z.of_nat (size (st_rels g)) /\
    forall fk ft, n_pages (hf_cache hf) fk ft = n_pages pc fk ft.
Proof.
  intros S. pose proof (new_hf_holds pc log_path g S) as S0. unfold heap_file_create.
  set (hf0 := HeapFile pc 0 0 0 0 0 0 0 0 (log_open log_path)) in *.
  assert (Sz : forall A (key : A -> Z) m x l (xs : list A),
    (forall y a, m !! y = Some a -> (key a = y /\ 0 <= y) /\ y < x) -> listing key m x xs -> al_appended l xs ->
    array_list_size l = Z.of_nat (size m)).
  { intros A key m x l xs K Li Al. unfold array_list_size. rewrite (al_len_ok _ _ (proj1 Al)).
    rewrite (Permutation_length (listing_all key m (fun y a E => proj1 (K y a E)) x xs Li (fun y a E => proj2 (K y a E)))).
    by rewrite length_fmap, length_map_to_list. }
  destruct (get_nodes_listing hf0 g false S0) as (l & xs & hf1 & E1 & A1 & L1 & S1 & Sh1).
  rewrite E1. cbn [mbind res_bind].
  assert (S1' : holds_store (set_n_nodes hf1 (array_list_size l)) g) by (destruct S1; by split).
  destruct (get_rels_listing _ g false S1') as (l' & xs' & hf2 & E2 & A2 & L2 & S2 & Sh2).
  rewrite E2. cbn [mbind res_bind]. eexists. split; [reflexivity|]. split_and!.
  - destruct S2; by split.
  - cbn [set_n_rels n_nodes]. rewrite (sh_nodes _ _ Sh2). cbn [set_n_nodes n_nodes].
    exact (Sz _ n_id _ _ l xs (nodes_keyed _ _ S0) L1 A1).
  - cbn [set_n_rels n_rels]. exact (Sz _ r_id _ _ l' xs' (rels_keyed _ _ S1') L2 A2).
  - intros fk ft. cbn [set_n_rels hf_cache]. rewrite (sh_pages _ _ Sh2). cbn [set_n_nodes hf_cache].
    by rewrite (sh_pages _ _ Sh1).
Qed.

(** A database that was just created holds nothing. *)
Lemma fresh_stores db pc :
  pdb_ok db ->
  (forall ft, df_num_pages (pdb_records db ft) = 0) ->
  (forall ft, df_data (pdb_header db ft) = replicate page_bytes 0) ->
  quiescent pc -> pdb pc = db ->
  (forall fk ft p, fk <> catalogue -> view pc fk ft p = page_of (file_of db fk ft) p) ->
  stores pc empty_store.
Proof.
  intros I N0 Z0 Q Ep V.
  assert (NI : forall node id, ~ in_file pc node id).
  { intros node id ((V0 & _) & Hp). unfold n_pages in Hp. cbn [file_of] in Hp. rewrite Ep, N0 in Hp.
    pose proof (Z.div_pos id 256 V0 ltac:(lia)). lia. }
  split; [done|..].
  - intros id. unfold node_of, in_use. rewrite bool_decide_false by apply NI. apply lookup_empty.
  - intros id. unfold rel_of, in_use. rewrite bool_decide_false by apply NI. apply lookup_empty.
  - intros ft s _. unfold header_bit. rewrite V by done. unfold page_of. cbn [file_of]. rewrite Z0.
    unfold slice. rewrite drop_replicate, take_replicate. apply zero_bits.
Qed.
End Store.
