(* ===== verification/Chains.v ===== *)
(** The graph that the records of a heap file stand for.

    The relationships of a node form a circular doubly linked list through the link fields
    on the node's side: [chain m n l] says that [l] is the list of the relationships of [n]
    in the map [m], each linked to its neighbours.  [represents] relates a store to an
    abstract graph: the labels of the nodes, the edges, and for every node the list of its
    relationships in the order of the chain.  The lemmas show what an insertion at the end
    of a chain and a removal must do to the links to keep the graph represented. *)

From S2P Require Import Prelude Constants Records HeapFile HeapFileInv.
From Stdlib Require Import ZArith Lia.
From stdpp Require Import base list option fin_maps gmap.

#[local] Open Scope Z_scope.

(** ** Cyclic successors *)

(** The pairs of neighbours in a list that goes on with [e]. *)
Fixpoint links (l : list Z) (e : Z) : list (Z * Z) :=
  match l with
  | [] => []
  | x :: l' => (x, hd e l') :: links l' e
  end.
Definition cycle (l : list Z) : list (Z * Z) := links l (hd 0 l).

Lemma links_app l1 l2 e : links (l1 ++ l2) e = links l1 (hd e l2) ++ links l2 e.
Proof. induction l1 as [|x l1 IH]; [done|]. simpl. rewrite IH. by destruct l1. Qed.

Lemma links_fst l e x y : (x, y) ∈ links l e -> x ∈ l.
Proof.
  induction l as [|a l IH]; simpl; [by intros ?%elem_of_nil|].
  intros [[= -> _]|Hp]%elem_of_cons; [apply elem_of_cons; by left|apply elem_of_cons; right; by apply IH].
Qed.

Lemma links_snd l e x y : (x, y) ∈ links l e -> y ∈ tail l \/ y = e.
Proof.
  induction l as [|a l IH]; simpl; [by intros ?%elem_of_nil|].
  intros [[= -> ->]|Hp]%elem_of_cons.
  - destruct l as [|b l]; simpl; [by right|left; apply elem_of_cons; by left].
  - destruct (IH Hp) as [Ht|]; [|by right]. left. destruct l; [done|]. apply elem_of_cons. by right.
Qed.

Lemma cycle_snoc l x : cycle (l ++ [x]) = links l x ++ [(x, hd x l)].
Proof. unfold cycle. rewrite links_app. by destruct l. Qed.

Lemma cycle_cons x l : cycle (x :: l) = (x, hd x l) :: links l x.
Proof. done. Qed.

Lemma cycle_rotate l1 l2 : cycle (l1 ++ l2) ≡ₚ cycle (l2 ++ l1).
Proof.
  destruct l1 as [|a l1]; [by rewrite app_nil_r|]. destruct l2 as [|b l2]; [by rewrite app_nil_r|].
  unfold cycle. rewrite !links_app. simpl. solve_Permutation.
Qed.

Lemma cycle_fst l x y : (x, y) ∈ cycle l -> x ∈ l.
Proof. apply links_fst. Qed.
Lemma cycle_snd l x y : (x, y) ∈ cycle l -> y ∈ l.
Proof.
  unfold cycle. destruct l as [|a l]; [by intros ?%elem_of_nil|].
  intros [?| ->]%links_snd; [apply elem_of_cons; by right|apply elem_of_cons; by left].
Qed.

(** Every element has a successor and a predecessor. *)
Lemma cycle_succ l x : x ∈ l -> exists y, (x, y) ∈ cycle l.
Proof.
  intros (l1 & l2 & ->)%list_elem_of_split. exists (hd x (l2 ++ l1)).
  rewrite cycle_rotate. simpl. rewrite cycle_cons. apply elem_of_cons. by left.
Qed.
Lemma cycle_pred l y : y ∈ l -> exists x, (x, y) ∈ cycle l.
Proof.
  intros (l1 & l2 & ->)%list_elem_of_split. rewrite (cons_middle y), app_assoc.
  exists (List.last (l2 ++ l1) y). rewrite cycle_rotate, app_assoc, cycle_snoc.
  destruct (l2 ++ l1) as [|a l] eqn:E using rev_ind; [by apply elem_of_cons; left|].
  rewrite last_last, links_app. simpl. set_solver.
Qed.

(** A relationship that is its own neighbour is alone. *)
Lemma cycle_self l x : NoDup l -> (x, x) ∈ cycle l -> l = [x].
Proof.
  intros Nd Hc. pose proof (cycle_fst _ _ _ Hc) as (l1 & l2 & ->)%list_elem_of_split.
  rewrite cycle_rotate in Hc. simpl in Hc. rewrite cycle_cons in Hc.
  assert (Hx : x ∉ l2 ++ l1) by (apply NoDup_app in Nd as (_ & N1 & [N2 _]%NoDup_cons); set_solver).
  apply elem_of_cons in Hc as [[= Hh]|Hc%links_fst]; [|done].
  destruct (l2 ++ l1) as [|y l] eqn:E; [by apply app_nil in E as [-> ->]|]. simpl in Hh. set_solver.
Qed.

Lemma cycle_last (h : Z) l : (List.last (h :: l) h, h) ∈ cycle (h :: l).
Proof.
  destruct l as [|b l _] using rev_ind; [by apply elem_of_cons; left|].
  rewrite app_comm_cons, last_last, cycle_snoc. apply elem_of_app. right. by apply list_elem_of_singleton.
Qed.
Lemma prev_cases (h : Z) l : List.last (h :: l) h = h /\ l = [] \/ (List.last (h :: l) h ∈ l /\ l <> []).
Proof.
  destruct l as [|b l _] using rev_ind; [by left|]. right. rewrite app_comm_cons, last_last.
  split; [set_solver|by destruct l].
Qed.

Lemma filter_absent (x : Z) (l : list Z) : x ∉ l -> filter (.≠ x) l = l.
Proof.
  induction l as [|a l IH]; [done|]. intros Hx. rewrite filter_cons_True by set_solver.
  rewrite IH by set_solver. done.
Qed.
Lemma filter_split (x : Z) (l1 l2 : list Z) : NoDup (l1 ++ x :: l2) -> filter (.≠ x) (l1 ++ x :: l2) = l1 ++ l2.
Proof.
  intros (_ & Nd1 & Nd2%NoDup_cons)%NoDup_app. rewrite filter_app, filter_cons_False by tauto.
  rewrite !filter_absent; [done|tauto|]. intros Hx. apply (Nd1 x Hx). set_solver.
Qed.

(** ** Chains *)

Record edge := Edge { e_source : Z; e_target : Z; e_weight : Z; e_label : Z }.
Definition edge_of (r : relationship_t) : edge := Edge (source_node r) (target_node r) (weight r) (r_label r).

Section Chains.
Implicit Types (m : gmap Z relationship_t) (r : relationship_t) (n x y id : Z) (l : list Z).

Definition touches n r : Prop := source_node r = n \/ target_node r = n.
Definition next_is n y r : Prop :=
  (source_node r = n -> next_rel_source r = y) /\ (target_node r = n -> next_rel_target r = y).
Definition prev_is n y r : Prop :=
  (source_node r = n -> prev_rel_source r = y) /\ (target_node r = n -> prev_rel_target r = y).

Record chain m n l : Prop := Chain {
  ch_nodup : NoDup l;
  ch_mem : forall x, x ∈ l <-> exists r, m !! x = Some r /\ touches n r;
  ch_next : forall x y r, (x, y) ∈ cycle l -> m !! x = Some r -> next_is n y r;
  ch_prev : forall x y r, (x, y) ∈ cycle l -> m !! y = Some r -> prev_is n x r }.

#[export] Instance touches_dec n r : Decision (touches n r).
Proof. unfold touches. apply _. Defined.

(** [r] becomes [r']: the same edge, with new links on the side of [n] only as given. *)
Record relinked n r r' (p_next p_prev : Prop) (next prev : Z) : Prop := Relinked {
  rl_edge : edge_of r' = edge_of r;
  rl_next_kept : ~ p_next -> forall y, next_is n y r -> next_is n y r';
  rl_next_new : p_next -> next_is n next r';
  rl_prev_kept : ~ p_prev -> forall y, prev_is n y r -> prev_is n y r';
  rl_prev_new : p_prev -> prev_is n prev r' }.

Lemma touches_edge n r r' : edge_of r' = edge_of r -> touches n r' <-> touches n r.
Proof. intros [= E1 E2 _ _]. unfold touches. by rewrite E1, E2. Qed.

Lemma next_is_unique n y y' r : touches n r -> next_is n y r -> next_is n y' r -> y = y'.
Proof. unfold touches, next_is. naive_solver. Qed.
Lemma prev_is_unique n y y' r : touches n r -> prev_is n y r -> prev_is n y' r -> y = y'.
Proof. unfold touches, prev_is. naive_solver. Qed.

(** The chain of a node whose relationships keep their links. *)
Lemma chain_other m m' n l :
  chain m n l ->
  (forall x r', m' !! x = Some r' -> touches n r' ->
     exists r, m !! x = Some r /\ relinked n r r' False False 0 0) ->
  (forall x r, m !! x = Some r -> touches n r -> exists r', m' !! x = Some r' /\ edge_of r' = edge_of r) ->
  chain m' n l.
Proof.
  intros [Nd Me Ne Pr] Old Back.
  assert (Me' : forall x, x ∈ l <-> exists r, m' !! x = Some r /\ touches n r).
  { intros x. rewrite Me. split.
    - intros (r & E & T). destruct (Back x r E T) as (r' & E' & Ed). exists r'. split; [done|]. by apply (touches_edge n r).
    - intros (r' & E' & T). destruct (Old x r' E' T) as (r & E & [Ed _ _ _ _]). exists r.
      split; [done|]. by apply (touches_edge n r r'). }
  assert (T : forall x r', x ∈ l -> m' !! x = Some r' -> touches n r').
  { intros x r' (r & E & T)%Me' E'. by simplify_eq. }
  split; [done|done|..]; intros x y r' Hc E'.
  - destruct (Old x r' E') as (r & E & [_ K _ _ _]); [by eapply T, E'; eapply cycle_fst|].
    apply K; [tauto|by eapply Ne].
  - destruct (Old y r' E') as (r & E & [_ _ _ K _]); [by eapply T, E'; eapply cycle_snd|].
    apply K; [tauto|by eapply Pr].
Qed.

(** A new relationship at the end of a chain. *)
Lemma chain_append m m' n l id new :
  chain m n l -> id ∉ l ->
  m' !! id = Some new -> touches n new -> next_is n (hd id l) new -> prev_is n (List.last l id) new ->
  (forall x r', x <> id -> m' !! x = Some r' -> touches n r' ->
     exists r, m !! x = Some r /\ relinked n r r' (x = List.last l id) (x = hd id l) id id) ->
  (forall x r, m !! x = Some r -> touches n r -> exists r', m' !! x = Some r' /\ edge_of r' = edge_of r) ->
  chain m' n (l ++ [id]).
Proof.
  intros [Nd Me Ne Pr] Hid En Tn Nn Pn Old Back.
  assert (Me' : forall x, x ∈ l ++ [id] <-> exists r, m' !! x = Some r /\ touches n r).
  { intros x. rewrite elem_of_app, list_elem_of_singleton. split.
    - intros [(r & E & T)%Me| ->]; [|eauto]. destruct (Back x r E T) as (r' & E' & Ed).
      exists r'. split; [done|]. by apply (touches_edge n r).
    - intros (r' & E' & T). destruct (decide (x = id)) as [|Hx]; [by right|left]. apply Me.
      destruct (Old x r' Hx E' T) as (r & E & R). exists r. split; [done|]. apply (touches_edge n r r'); [apply R|done]. }
  assert (T : forall x r', x ∈ l -> m' !! x = Some r' ->
    exists r, m !! x = Some r /\ relinked n r r' (x = List.last l id) (x = hd id l) id id).
  { intros x r' Hx E'. apply Old; [by intros ->|done|].
    assert (Hx' : x ∈ l ++ [id]) by (apply elem_of_app; by left).
    apply Me' in Hx' as (r & E & Ht). by simplify_eq. }
  assert (D : l = [] \/ exists l0 t, l = l0 ++ [t]) by (destruct l using rev_ind; eauto).
  split; [|done|..].
  { apply NoDup_app. split; [done|]. split; [by intros x Hx ->%list_elem_of_singleton|apply NoDup_singleton]. }
  - intros x y r'. rewrite cycle_snoc, elem_of_app, list_elem_of_singleton.
    intros [Hc|[= -> ->]] E'; [|by simplify_eq].
    destruct (T x r') as (r & E & R); [by eapply links_fst|done|].
    destruct D as [->|(l0 & t & ->)]; [by apply elem_of_nil in Hc|].
    rewrite last_last in R. rewrite links_app in Hc. cbn [hd links] in Hc.
    apply elem_of_app in Hc as [Hc|[= -> ->]%list_elem_of_singleton]; [|by apply (rl_next_new _ _ _ _ _ _ _ R)].
    apply (rl_next_kept _ _ _ _ _ _ _ R); [|eapply Ne; [|exact E]; unfold cycle; rewrite links_app; apply elem_of_app; by left].
    intros ->. apply links_fst in Hc. apply NoDup_app in Nd as (_ & Nd & _). eapply Nd; [done|set_solver].
  - intros x y r'. rewrite cycle_snoc, elem_of_app, list_elem_of_singleton.
    intros [Hc|[= -> ->]] E'.
    + destruct D as [->|(l0 & t & ->)]; [by apply elem_of_nil in Hc|].
      rewrite links_app in Hc. cbn [hd links] in Hc.
      apply elem_of_app in Hc as [Hc|[= -> ->]%list_elem_of_singleton]; [|rewrite last_last in Pn; by simplify_eq].
      assert (Hy : (x, y) ∈ cycle (l0 ++ [t])) by (unfold cycle; rewrite links_app; apply elem_of_app; by left).
      destruct (T y r') as (r & E & R); [by eapply cycle_snd|done|].
      apply (rl_prev_kept _ _ _ _ _ _ _ R); [|by eapply Pr]. destruct l0 as [|a l0]; [by apply elem_of_nil in Hc|]. cbn [hd app].
      intros ->. simpl in Nd. apply NoDup_cons in Nd as [Na _].
      apply links_snd in Hc as [Hc|Hc]; apply Na; set_solver.
    + destruct l as [|a l]; [simpl in E'; by simplify_eq|]. cbn [hd] in *.
      destruct (T a r') as (r & E & R); [apply elem_of_cons; by left|done|]. by apply (rl_prev_new _ _ _ _ _ _ _ R).
Qed.

(** A relationship leaves a chain. *)
Lemma chain_remove m m' n l id p h :
  chain m n l -> (p, id) ∈ cycle l -> (id, h) ∈ cycle l ->
  m' !! id = None ->
  (forall x r', m' !! x = Some r' -> touches n r' ->
     exists r, m !! x = Some r /\ relinked n r r' (x = p) (x = h) h p) ->
  (forall x r, x <> id -> m !! x = Some r -> touches n r -> exists r', m' !! x = Some r' /\ edge_of r' = edge_of r) ->
  chain m' n (filter (.≠ id) l).
Proof.
  intros [Nd Me Ne Pr] Hp Hh En Old Back.
  assert (Me' : forall x, x ∈ filter (.≠ id) l <-> exists r, m' !! x = Some r /\ touches n r).
  { intros x. rewrite list_elem_of_filter, Me. split.
    - intros [Hx (r & E & T)]. destruct (Back x r Hx E T) as (r' & E' & Ed).
      exists r'. split; [done|]. by apply (touches_edge n r).
    - intros (r' & E' & T). split; [intros ->; by simplify_eq|].
      destruct (Old x r' E' T) as (r & E & R). exists r. split; [done|]. apply (touches_edge n r r'); [apply R|done]. }
  pose proof (cycle_fst _ _ _ Hh) as Hin.
  apply list_elem_of_split in Hin as (l1 & l2 & ->).
  rewrite (filter_split id l1 l2 Nd) in *. set (k := l2 ++ l1) in *.
  assert (Cy : forall x y, (x, y) ∈ cycle (l1 ++ id :: l2) <-> (x, y) = (id, hd id k) \/ (x, y) ∈ links k id).
  { intros x y. rewrite cycle_rotate. simpl. rewrite cycle_cons. apply elem_of_cons. }
  assert (Ck : forall x y, (x, y) ∈ cycle (l1 ++ l2) <-> (x, y) ∈ cycle k) by (intros; by rewrite cycle_rotate).
  assert (Ndk : NoDup (id :: k)).
  { unfold k. rewrite app_comm_cons. by rewrite Permutation_app_comm in Nd. }
  apply NoDup_cons in Ndk as [Hik Ndk].
  apply Cy in Hh as [[= ->]|Hh%links_fst]; [|done].
  assert (Touch : forall x r', x ∈ k -> m' !! x = Some r' -> touches n r').
  { intros x r' Hx E'. assert (Hx' : x ∈ l1 ++ l2) by (unfold k in Hx; set_solver).
    apply Me' in Hx' as (r & E & T). by simplify_eq. }
  assert (D : k = [] \/ exists k0 t, k = k0 ++ [t]) by (clear; destruct k using rev_ind; eauto).
  destruct D as [Ek|(k0 & t & Ek)].
  { assert (l1 ++ l2 = []) as E0 by (apply Permutation_nil_r; rewrite Permutation_app_comm; by fold k; rewrite Ek).
    rewrite E0 in *. split; [constructor|done|..]; by intros ??? ?%elem_of_nil. }
  assert (Lk : links k id = links k0 t ++ [(t, id)]) by (by rewrite Ek, links_app).
  assert (Lc : cycle k = links k0 t ++ [(t, hd id k)]).
  { unfold cycle. rewrite Ek, links_app. simpl. f_equal. by destruct k0. }
  assert (Hpt : p = t).
  { apply Cy in Hp as [[= -> Hi]|Hp]; [exfalso; apply Hik; rewrite Hi at 1; rewrite Ek; destruct k0; set_solver|].
    rewrite Lk in Hp. apply elem_of_app in Hp as [Hp|[= ->]%list_elem_of_singleton]; [|done].
    apply links_snd in Hp. exfalso. apply Hik. rewrite Ek. destruct k0; set_solver. }
  subst p. rewrite Ek in Ndk. apply NoDup_app in Ndk as (Nd0 & Ndt & _).
  split; [by rewrite Permutation_app_comm; fold k; rewrite Ek; apply NoDup_app; split_and!; [|done|apply NoDup_singleton]|done|..].
  - intros x y r'. rewrite Ck, Lc, elem_of_app, list_elem_of_singleton. intros Hc E'.
    destruct (Old x r' E') as (r & E & R).
    { apply (Touch x); [|done]. rewrite Ek. destruct Hc as [?%links_fst|[= ->]]; set_solver. }
    destruct Hc as [Hc|[= -> ->]]; [|by apply (rl_next_new _ _ _ _ _ _ _ R)].
    apply (rl_next_kept _ _ _ _ _ _ _ R); [intros ->; apply links_fst in Hc; apply (Ndt t Hc); set_solver|].
    eapply Ne; [|done]. apply Cy. right. rewrite Lk. apply elem_of_app. by left.
  - intros x y r'. rewrite Ck, Lc, elem_of_app, list_elem_of_singleton. intros Hc E'.
    destruct (Old y r' E') as (r & E & R).
    { apply (Touch y); [|done]. rewrite Ek. destruct Hc as [Hc|[= _ ->]].
      - apply links_snd in Hc. destruct k0; set_solver.
      - rewrite Ek. destruct k0; set_solver. }
    destruct Hc as [Hc|[= -> ->]]; [|by apply (rl_prev_new _ _ _ _ _ _ _ R)].
    apply (rl_prev_kept _ _ _ _ _ _ _ R); [|eapply Pr; [apply Cy; right; rewrite Lk; apply elem_of_app; by left|done]].
    rewrite Ek. destruct k0 as [|a k0]; [by apply elem_of_nil in Hc|]. cbn [hd app]. intros ->.
    apply NoDup_cons in Nd0 as [Na _].
    apply links_snd in Hc as [Hc|Hc]; [by apply Na|]. subst. apply (Ndt t); set_solver.
Qed.

(** ** Changing links *)

Lemma relinked_refl n r next prev : relinked n r r False False next prev.
Proof. by split. Qed.

Lemma relinked_trans {n r r1 r2} {p q p' q' : Prop} `{Decision p', Decision q'} {a b a' b'} :
  relinked n r r1 p q a b -> relinked n r1 r2 p' q' a' b' -> (p' -> a' = a) -> (q' -> b' = b) ->
  relinked n r r2 (p \/ p') (q \/ q') a b.
Proof.
  intros [E1 K1 N1 L1 M1] [E2 K2 N2 L2 M2] Ha Hb. split; [congruence|..].
  - intros Hp y ?. apply K2; [tauto|]. apply K1; tauto.
  - intros Hp. destruct (decide p') as [D|D]; [rewrite <- Ha by done; by apply N2|].
    apply K2; [done|]. apply N1. tauto.
  - intros Hp y ?. apply L2; [tauto|]. apply L1; tauto.
  - intros Hp. destruct (decide q') as [D|D]; [rewrite <- Hb by done; by apply M2|].
    apply L2; [done|]. apply M1. tauto.
Qed.

Lemma relinked_iff n r r' (p q p' q' : Prop) a b :
  relinked n r r' p q a b -> (p <-> p') -> (q <-> q') -> relinked n r r' p' q' a b.
Proof. intros [E K N L M] Hp Hq. split; [done|..]; rewrite <- ?Hp, <- ?Hq; done. Qed.

Lemma relinked_none n r r' (p q : Prop) a b a' b' :
  relinked n r r' p q a b -> ~ p -> ~ q -> relinked n r r' False False a' b'.
Proof. intros [E K N L M] Hp Hq. split; try done; intros _; tauto. Qed.

Lemma relinked_value n r r' (p q : Prop) a b a' b' :
  relinked n r r' p q a b -> (p -> a' = a) -> (q -> b' = b) -> relinked n r r' p q a' b'.
Proof. intros [E K N L M] Ha Hb. split; try done; intros Hp; rewrite ?Ha, ?Hb by done; auto. Qed.

Lemma relinked_next n k z (c : Prop) `{Decision c} r b :
  relinked n r (if decide c then adjust_next k z r else r) (c /\ k = n) False z b.
Proof.
  destruct (decide c) as [Hc|Hc]; [|split; tauto]. unfold adjust_next.
  destruct r as [i so ta ps ns pt nt w lb]. cbn.
  split; unfold next_is, prev_is, edge_of; cbn;
    repeat (match goal with |- context [?x =? ?y] => destruct (Z.eqb_spec x y) end; cbn in * ); naive_solver.
Qed.
Lemma relinked_prev n k z (c : Prop) `{Decision c} r a :
  relinked n r (if decide c then adjust_prev k z r else r) False (c /\ k = n) a z.
Proof.
  destruct (decide c) as [Hc|Hc]; [|split; tauto]. unfold adjust_prev.
  destruct r as [i so ta ps ns pt nt w lb]. cbn.
  split; unfold next_is, prev_is, edge_of; cbn;
    repeat (match goal with |- context [?x =? ?y] => destruct (Z.eqb_spec x y) end; cbn in * ); naive_solver.
Qed.
End Chains.

(** ** Graphs *)

Record graph := Graph {
  g_labels : gmap Z Z;
  g_edges : gmap Z edge;
  g_inc : Z -> list Z }.

Definition add_node (G : graph) (id label : Z) : graph :=
  Graph (<[id := label]> (g_labels G)) (g_edges G) (fun n => if decide (n = id) then [] else g_inc G n).
Definition add_edge (G : graph) (id : Z) (e : edge) : graph :=
  Graph (g_labels G) (<[id := e]> (g_edges G))
    (fun n => if decide (e_source e = n \/ e_target e = n) then g_inc G n ++ [id] else g_inc G n).
Definition del_edge (G : graph) (id : Z) : graph :=
  Graph (g_labels G) (delete id (g_edges G)) (fun n => filter (.≠ id) (g_inc G n)).
Definition del_node (G : graph) (id : Z) : graph :=
  Graph (delete id (g_labels G)) (g_edges G) (g_inc G).

Definition empty_graph : graph := Graph ∅ ∅ (fun _ => []).

Record represents (g : store) (G : graph) : Prop := Represents {
  rg_labels : n_label <$> st_nodes g = g_labels G;
  rg_edges : edge_of <$> st_rels g = g_edges G;
  rg_chain : forall n node, st_nodes g !! n = Some node ->
    chain (st_rels g) n (g_inc G n) /\ first_relationship node = hd UNINITIALIZED_LONG (g_inc G n);
  rg_ends : forall x e, g_edges G !! x = Some e ->
    is_Some (g_labels G !! e_source e) /\ is_Some (g_labels G !! e_target e) /\
    double_eqb (e_weight e) UNINITIALIZED_WEIGHT = false;
  rg_uninit : st_rels g !! UNINITIALIZED_LONG = None }.

Section Graphs.
Implicit Types (m : gmap Z relationship_t) (r : relationship_t) (n x y id : Z) (l : list Z) (g : store) (G : graph).

(** Lookups in the graph and in the store. *)
Lemma graph_node g G n : represents g G -> g_labels G !! n = n_label <$> st_nodes g !! n.
Proof. intros R. rewrite <- (rg_labels _ _ R). by rewrite lookup_fmap. Qed.
Lemma graph_edge g G x : represents g G -> g_edges G !! x = edge_of <$> st_rels g !! x.
Proof. intros R. rewrite <- (rg_edges _ _ R). by rewrite lookup_fmap. Qed.

Lemma store_node g G n lb : represents g G -> g_labels G !! n = Some lb ->
  exists node, st_nodes g !! n = Some node /\ n_label node = lb.
Proof. intros R E. rewrite (graph_node g G n R) in E. by apply fmap_Some in E as (node & ? & ->); eauto. Qed.

(** The ends of a stored relationship are stored nodes. *)
Lemma rel_ends g G x r : represents g G -> st_rels g !! x = Some r ->
  (exists node, st_nodes g !! source_node r = Some node) /\ (exists node, st_nodes g !! target_node r = Some node) /\
  double_eqb (weight r) UNINITIALIZED_WEIGHT = false.
Proof.
  intros R E. assert (Ee : g_edges G !! x = Some (edge_of r)) by (rewrite (graph_edge g G x R), E; done).
  destruct (rg_ends _ _ R x _ Ee) as ([a A] & [b B] & W).
  destruct (store_node g G _ _ R A) as (na & Ea & _), (store_node g G _ _ R B) as (nb & Eb & _). eauto.
Qed.

Lemma chain_rel g G n node x : represents g G -> st_nodes g !! n = Some node -> x ∈ g_inc G n ->
  exists r, st_rels g !! x = Some r /\ touches n r.
Proof. intros R E Hx. destruct (rg_chain _ _ R n node E) as [C _]. by apply (ch_mem _ _ _ C). Qed.

Lemma empty_represents : represents (Store ∅ ∅) empty_graph.
Proof.
  split; [apply fmap_empty|apply fmap_empty|..].
  - intros n node E. cbn in E. by rewrite lookup_empty in E.
  - intros x e E. cbn in E. by rewrite lookup_empty in E.
  - apply lookup_empty.
Qed.

(** ** Insertion of a relationship *)

Lemma lookup_alter_if {A} (f : A -> A) i (m : gmap Z A) x :
  alter f i m !! x = (fun a => if decide (x = i) then f a else a) <$> m !! x.
Proof.
  rewrite lookup_alter. destruct (decide (i = x)) as [->|Hne].
  - destruct (m !! x); [|done]. simpl. by rewrite decide_True.
  - destruct (m !! x); [|done]. simpl. by rewrite decide_False by congruence.
Qed.

(** The links that [create_relationship] sets: the new relationship comes after the last
    ones of both chains and before the first ones. *)
Definition place r lf ff lt ft : relationship_t :=
  set_next_target (set_prev_target (set_next_source (set_prev_source r lf) ff) lt) ft.
Definition link_rels m (from to id lf ff lt ft : Z) : gmap Z relationship_t :=
  alter (adjust_prev to id) ft (alter (adjust_prev from id) ff
    (alter (adjust_next to id) lt (alter (adjust_next from id) lf m))).

(** The pointer to the first relationship of a node that had none. *)
Definition set_none id (node : node_t) : node_t :=
  if first_relationship node =? UNINITIALIZED_LONG then set_first node id else node.

Definition step_links (from to id lf ff lt ft x : Z) r : relationship_t :=
  let r := if decide (x = lf) then adjust_next from id r else r in
  let r := if decide (x = lt) then adjust_next to id r else r in
  let r := if decide (x = ff) then adjust_prev from id r else r in
  if decide (x = ft) then adjust_prev to id r else r.

Lemma link_rels_lookup m from to id lf ff lt ft x :
  link_rels m from to id lf ff lt ft !! x = step_links from to id lf ff lt ft x <$> m !! x.
Proof.
  unfold link_rels, step_links. rewrite !lookup_alter_if. by destruct (m !! x).
Qed.

Lemma step_links_relinked n from to id lf ff lt ft x r :
  relinked n r (step_links from to id lf ff lt ft x r)
    ((x = lf /\ from = n) \/ (x = lt /\ to = n)) ((x = ff /\ from = n) \/ (x = ft /\ to = n)) id id.
Proof.
  unfold step_links.
  pose proof (relinked_next n from id (x = lf) r id) as A1. set (r1 := if decide (x = lf) then _ else _) in *.
  pose proof (relinked_next n to id (x = lt) r1 id) as A2. set (r2 := if decide (x = lt) then _ else _) in *.
  pose proof (relinked_prev n from id (x = ff) r2 id) as A3. set (r3 := if decide (x = ff) then _ else _) in *.
  pose proof (relinked_prev n to id (x = ft) r3 id) as A4.
  eapply relinked_iff.
  - exact (relinked_trans (relinked_trans (relinked_trans A1 A2 (fun _ => eq_refl) (fun _ => eq_refl))
             A3 (fun _ => eq_refl) (fun _ => eq_refl)) A4 (fun _ => eq_refl) (fun _ => eq_refl)).
  - tauto.
  - tauto.
Qed.

Lemma last_or_nil l d : d ∉ l -> List.last l d = d -> l = [].
Proof.
  destruct l as [|a l] using rev_ind; [done|]. rewrite last_last. intros Hd ->. exfalso. apply Hd. set_solver.
Qed.
Lemma hd_or_nil l d : d ∉ l -> hd d l = d -> l = [].
Proof. destruct l as [|a l]; [done|]. simpl. intros Hd ->. exfalso. apply Hd. set_solver. Qed.

Lemma inc_fresh g G n node id : represents g G -> st_nodes g !! n = Some node -> st_rels g !! id = None -> id ∉ g_inc G n.
Proof. intros R E N Hin. destruct (chain_rel g G n node id R E Hin) as (r & ? & _). congruence. Qed.

Definition placed G id (e : edge) : relationship_t :=
  place (Relationship id (e_source e) (e_target e) UNINITIALIZED_LONG UNINITIALIZED_LONG UNINITIALIZED_LONG
           UNINITIALIZED_LONG (e_weight e) (e_label e))
    (List.last (g_inc G (e_source e)) id) (hd id (g_inc G (e_source e)))
    (List.last (g_inc G (e_target e)) id) (hd id (g_inc G (e_target e))).

Definition linked g G id (e : edge) : gmap Z relationship_t :=
  link_rels (<[id := placed G id e]> (st_rels g)) (e_source e) (e_target e) id
    (List.last (g_inc G (e_source e)) id) (hd id (g_inc G (e_source e)))
    (List.last (g_inc G (e_target e)) id) (hd id (g_inc G (e_target e))).

Definition set_first_of (k id : Z) (ns : gmap Z node_t) : gmap Z node_t := alter (set_none id) k ns.

Section AddEdge.
Context (g : store) (G : graph) (id : Z) (e : edge).
Hypothesis R : represents g G.
Hypothesis Fresh : st_rels g !! id = None.
Hypothesis Source : is_Some (st_nodes g !! e_source e).
Hypothesis Target : is_Some (st_nodes g !! e_target e).
Let m' := linked g G id e.

Lemma linked_old x r' : x <> id -> m' !! x = Some r' ->
  exists r, st_rels g !! x = Some r /\ forall n,
    relinked n r r'
      ((x = List.last (g_inc G (e_source e)) id /\ e_source e = n) \/ (x = List.last (g_inc G (e_target e)) id /\ e_target e = n))
      ((x = hd id (g_inc G (e_source e)) /\ e_source e = n) \/ (x = hd id (g_inc G (e_target e)) /\ e_target e = n)) id id.
Proof.
  intros Hx. unfold m', linked. rewrite link_rels_lookup, lookup_insert_ne by done.
  intros (r & E & ->)%fmap_Some. exists r. split; [done|]. intros n. apply step_links_relinked.
Qed.
Lemma linked_back x r : x <> id -> st_rels g !! x = Some r -> exists r', m' !! x = Some r' /\ edge_of r' = edge_of r.
Proof.
  intros Hx E. unfold m', linked. rewrite link_rels_lookup, lookup_insert_ne, E by done. eexists. split; [reflexivity|].
  apply (rl_edge 0 _ _ _ _ _ _ (step_links_relinked 0 _ _ _ _ _ _ _ _ _)).
Qed.
Lemma linked_new : exists new, m' !! id = Some new /\ edge_of new = e /\ forall n, touches n new ->
  next_is n (hd id (g_inc G n)) new /\ prev_is n (List.last (g_inc G n) id) new.
Proof.
  unfold m', linked. rewrite link_rels_lookup, lookup_insert_eq. eexists. split; [reflexivity|].
  set (step := step_links _ _ _ _ _ _ _ _). pose proof (fun n => step_links_relinked n (e_source e) (e_target e) id
    (List.last (g_inc G (e_source e)) id) (hd id (g_inc G (e_source e))) (List.last (g_inc G (e_target e)) id)
    (hd id (g_inc G (e_target e))) id (placed G id e)) as St. fold step in St. clearbody step.
  assert (Ee : edge_of (step (placed G id e)) = e) by (rewrite (rl_edge _ _ _ _ _ _ _ (St 0)); by destruct e).
  split; [exact Ee|]. intros n Tn. apply (touches_edge n (placed G id e)) in Tn; [|apply (St 0)].
  assert (Fr : forall k, k = e_source e \/ k = e_target e -> id ∉ g_inc G k).
  { intros k [->| ->]; [destruct Source as [node En]|destruct Target as [node En]]; by eapply inc_fresh. }
  assert (Hn : n = e_source e \/ n = e_target e) by (destruct Tn; auto).
  specialize (St n). split.
  - destruct (decide ((id = List.last (g_inc G (e_source e)) id /\ e_source e = n) \/
        (id = List.last (g_inc G (e_target e)) id /\ e_target e = n))) as [P|P].
    + pose proof (rl_next_new _ _ _ _ _ _ _ St P) as Nx.
      rewrite (last_or_nil (g_inc G n) id); [exact Nx|by apply Fr|]. destruct P as [[P <-]|[P <-]]; by symmetry.
    + apply (rl_next_kept _ _ _ _ _ _ _ St P). split; simpl; by intros <-.
  - destruct (decide ((id = hd id (g_inc G (e_source e)) /\ e_source e = n) \/
        (id = hd id (g_inc G (e_target e)) /\ e_target e = n))) as [P|P].
    + pose proof (rl_prev_new _ _ _ _ _ _ _ St P) as Nx.
      rewrite (hd_or_nil (g_inc G n) id); [exact Nx|by apply Fr|]. destruct P as [[P <-]|[P <-]]; by symmetry.
    + apply (rl_prev_kept _ _ _ _ _ _ _ St P). split; simpl; by intros <-.
Qed.

Lemma add_edge_represents :
  id <> UNINITIALIZED_LONG -> double_eqb (e_weight e) UNINITIALIZED_WEIGHT = false ->
  represents (Store (set_first_of (e_target e) id (set_first_of (e_source e) id (st_nodes g))) m') (add_edge G id e).
Proof.
  intros Hu W. destruct linked_new as (new & En & Ed & Ln). split; cbn [st_nodes st_rels add_edge g_labels g_edges g_inc].
  - rewrite <- (rg_labels _ _ R). apply map_eq. intros n. rewrite !lookup_fmap. unfold set_first_of.
    rewrite !lookup_alter_if. destruct (st_nodes g !! n) as [k|]; [|done]. simpl. f_equal.
    unfold set_none. by repeat (case_decide || case_match).
  - apply map_eq. intros x. rewrite lookup_fmap. destruct (decide (x = id)) as [->|Hx].
    + by rewrite lookup_insert_eq, En, <- Ed.
    + rewrite lookup_insert_ne, (graph_edge g G x R) by done. destruct (st_rels g !! x) as [r|] eqn:E.
      * destruct (linked_back x r Hx E) as (r' & -> & Ed'). simpl. by rewrite Ed'.
      * destruct (m' !! x) as [r'|] eqn:E'; [|done]. destruct (linked_old x r' Hx E') as (r & ? & _). congruence.
  - intros n node E. set (ns := set_first_of _ _ _) in E.
    assert (Eo : exists node0, st_nodes g !! n = Some node0 /\
      node = if decide (e_source e = n \/ e_target e = n) then set_none id node0 else node0).
    { unfold ns, set_first_of in E. rewrite !lookup_alter_if in E. clear ns.
      assert (T : forall k, set_none id (set_none id k) = set_none id k).
      { intros k. unfold set_none. destruct (Z.eqb_spec (first_relationship k) UNINITIALIZED_LONG) as [Ek|Ek]; simpl.
        - by rewrite (proj2 (Z.eqb_neq _ _) Hu).
        - by rewrite (proj2 (Z.eqb_neq _ _) Ek). }
      destruct (st_nodes g !! n) as [k|]; [|done]. simpl in E. exists k. split; [done|].
      injection E as <-. repeat case_decide; rewrite ?T; naive_solver. }
    destruct Eo as (node0 & E0 & ->). destruct (rg_chain _ _ R n node0 E0) as [C F]. clear ns E.
    pose proof (inc_fresh g G n node0 id R E0 Fresh) as Hid.
    destruct (decide (e_source e = n \/ e_target e = n)) as [T|T]; split.
    + assert (Tn : touches n new) by (by rewrite <- Ed in T).
      destruct (Ln n Tn) as [Nx Pv]. eapply (chain_append (st_rels g)); try done.
      * intros x r' Hx E' _. destruct (linked_old x r' Hx E') as (r & E & Rl). exists r. split; [done|].
        eapply relinked_iff; [apply Rl|naive_solver|naive_solver].
      * intros x r E _. apply linked_back; [|done]. intros ->. congruence.
    + unfold set_none. rewrite F. destruct (g_inc G n) as [|h l] eqn:El; simpl.
      * done.
      * destruct (Z.eqb_spec h UNINITIALIZED_LONG) as [Eh|]; [|done].
        exfalso. destruct (chain_rel g G n node0 h R E0) as (r & Er & _); [rewrite El; set_solver|].
        rewrite Eh in Er. by rewrite (rg_uninit _ _ R) in Er.
    + eapply (chain_other (st_rels g)); [done|..].
      * intros x r' E' T'. destruct (decide (x = id)) as [->|Hx].
        { rewrite En in E'. injection E' as <-. exfalso. apply T. rewrite <- Ed. exact T'. }
        destruct (linked_old x r' Hx E') as (r & E & Rl). exists r. split; [done|].
        eapply relinked_none; [apply Rl|tauto|tauto].
      * intros x r E _. apply linked_back; [|done]. intros ->. congruence.
    + done.
  - intros x e'. rewrite lookup_insert. destruct (decide (id = x)) as [->|Hx]; [|apply (rg_ends _ _ R)].
    intros [= <-]. rewrite !(graph_node g G _ R). destruct Source as [? ->], Target as [? ->]. eauto.
  - destruct (m' !! UNINITIALIZED_LONG) as [r'|] eqn:E'; [|done].
    destruct (linked_old _ r' ltac:(done) E') as (r & E & _). by rewrite (rg_uninit _ _ R) in E.
Qed.
End AddEdge.

(** ** Removal of a relationship *)

(** The links that [delete_relationship] sets. *)
Definition step_unlink (o : relationship_t) x r : relationship_t :=
  let r := if decide (x = prev_rel_source o) then adjust_next (source_node o) (next_rel_source o) r else r in
  let r := if decide (x = next_rel_source o) then adjust_prev (source_node o) (prev_rel_source o) r else r in
  let r := if decide (x = prev_rel_target o) then adjust_next (target_node o) (next_rel_target o) r else r in
  if decide (x = next_rel_target o) then adjust_prev (target_node o) (prev_rel_target o) r else r.

Definition unlink_rels m (o : relationship_t) : gmap Z relationship_t :=
  alter (adjust_prev (target_node o) (prev_rel_target o)) (next_rel_target o)
    (alter (adjust_next (target_node o) (next_rel_target o)) (prev_rel_target o)
      (alter (adjust_prev (source_node o) (prev_rel_source o)) (next_rel_source o)
        (alter (adjust_next (source_node o) (next_rel_source o)) (prev_rel_source o) m))).

Definition unset_first id next (node : node_t) : node_t :=
  if first_relationship node =? id then set_first node (if next =? id then UNINITIALIZED_LONG else next) else node.
Definition unset_first_of k id next (ns : gmap Z node_t) : gmap Z node_t := alter (unset_first id next) k ns.

Lemma unlink_rels_lookup m o x : unlink_rels m o !! x = step_unlink o x <$> m !! x.
Proof. unfold unlink_rels, step_unlink. rewrite !lookup_alter_if. by destruct (m !! x). Qed.

Lemma step_unlink_relinked n (o : relationship_t) p h x r :
  (touches n o -> next_is n h o /\ prev_is n p o) ->
  relinked n r (step_unlink o x r) (touches n o /\ x = p) (touches n o /\ x = h) h p.
Proof.
  intros Ho. unfold step_unlink.
  assert (V : forall c, (c /\ source_node o = n -> h = next_rel_source o /\ p = prev_rel_source o) /\
                   (c /\ target_node o = n -> h = next_rel_target o /\ p = prev_rel_target o)).
  { unfold touches, next_is, prev_is in Ho. naive_solver. }
  pose proof (relinked_value _ _ _ _ _ _ _ h p (relinked_next n (source_node o) (next_rel_source o) (x = prev_rel_source o) r p)
    (fun c => proj1 (proj1 (V _) c)) (fun f => False_ind _ f)) as A1.
  set (r1 := if decide (x = prev_rel_source o) then _ else _) in *.
  pose proof (relinked_value _ _ _ _ _ _ _ h p (relinked_prev n (source_node o) (prev_rel_source o) (x = next_rel_source o) r1 h)
    (fun f => False_ind _ f) (fun c => proj2 (proj1 (V _) c))) as A2.
  set (r2 := if decide (x = next_rel_source o) then _ else _) in *.
  pose proof (relinked_value _ _ _ _ _ _ _ h p (relinked_next n (target_node o) (next_rel_target o) (x = prev_rel_target o) r2 p)
    (fun c => proj1 (proj2 (V _) c)) (fun f => False_ind _ f)) as A3.
  set (r3 := if decide (x = prev_rel_target o) then _ else _) in *.
  pose proof (relinked_value _ _ _ _ _ _ _ h p (relinked_prev n (target_node o) (prev_rel_target o) (x = next_rel_target o) r3 h)
    (fun f => False_ind _ f) (fun c => proj2 (proj2 (V _) c))) as A4.
  eapply relinked_iff.
  - exact (relinked_trans (relinked_trans (relinked_trans A1 A2 (fun _ => eq_refl) (fun _ => eq_refl))
             A3 (fun _ => eq_refl) (fun _ => eq_refl)) A4 (fun _ => eq_refl) (fun _ => eq_refl)).
  - unfold touches, next_is, prev_is in *. split; [intros [[[[-> Hs]|F]|[-> Ht]]|F]|intros [[T|T] ->]]; try done; try naive_solver.
  - unfold touches, next_is, prev_is in *. split; [intros [[[F|[-> Hs]]|F]|[-> Ht]]|intros [[T|T] ->]]; try done; try naive_solver.
Qed.

Lemma edge_adjust_next k z r : edge_of (adjust_next k z r) = edge_of r.
Proof. unfold adjust_next. by repeat case_match. Qed.
Lemma edge_adjust_prev k z r : edge_of (adjust_prev k z r) = edge_of r.
Proof. unfold adjust_prev. by repeat case_match. Qed.
Lemma edge_step_unlink o x r : edge_of (step_unlink o x r) = edge_of r.
Proof.
  unfold step_unlink. repeat case_decide; by rewrite ?edge_adjust_prev, ?edge_adjust_next, ?edge_adjust_prev, ?edge_adjust_next.
Qed.

Lemma not_filtered n m l id : chain m n l -> id ∈ l -> exists p h, (p, id) ∈ cycle l /\ (id, h) ∈ cycle l.
Proof.
  intros C Hin. destruct (cycle_succ l id Hin) as [h Hh], (cycle_pred l id Hin) as [p Hp]. by exists p, h.
Qed.

(** The head of a chain without a relationship. *)
Lemma hd_filter l id h : NoDup l -> (id, h) ∈ cycle l ->
  hd UNINITIALIZED_LONG (filter (.≠ id) l) =
    if hd UNINITIALIZED_LONG l =? id then (if h =? id then UNINITIALIZED_LONG else h) else hd UNINITIALIZED_LONG l.
Proof.
  intros Nd Hh. destruct l as [|a l]; [by apply elem_of_nil in Hh|]. simpl hd.
  destruct (Z.eqb_spec a id) as [->|Hne]; [|by rewrite filter_cons_True].
  apply NoDup_cons in Nd as [Hid Nd]. rewrite filter_cons_False, filter_absent by tauto.
  rewrite cycle_cons in Hh. apply elem_of_cons in Hh as [[= ->]|Hh%links_fst]; [|done].
  destruct l as [|b l]; simpl; [by rewrite Z.eqb_refl|].
  destruct (Z.eqb_spec b id) as [->|]; [|done]. exfalso. apply Hid. set_solver.
Qed.

Lemma del_edge_represents g G id (o : relationship_t) :
  represents g G -> st_rels g !! id = Some o ->
  represents (Store (unset_first_of (target_node o) id (next_rel_target o)
                      (unset_first_of (source_node o) id (next_rel_source o) (st_nodes g)))
                    (delete id (unlink_rels (st_rels g) o)))
    (del_edge G id).
Proof.
  intros R Eo.
  assert (Hu : id <> UNINITIALIZED_LONG) by (intros ->; by rewrite (rg_uninit _ _ R) in Eo).
  assert (Sides : forall n l p h, chain (st_rels g) n l -> (p, id) ∈ cycle l -> (id, h) ∈ cycle l ->
            next_is n h o /\ prev_is n p o).
  { intros n l p h C Hp Hh. split; [by eapply (ch_next _ _ _ C)|by eapply (ch_prev _ _ _ C)]. }
  split; cbn [st_nodes st_rels del_edge g_labels g_edges g_inc].
  - rewrite <- (rg_labels _ _ R). apply map_eq. intros n. rewrite !lookup_fmap. unfold unset_first_of.
    rewrite !lookup_alter_if. destruct (st_nodes g !! n) as [k|]; [|done]. simpl. f_equal.
    unfold unset_first. by repeat (case_decide || case_match).
  - apply map_eq. intros x. rewrite lookup_fmap, !lookup_delete. destruct (decide (id = x)); [done|].
    rewrite unlink_rels_lookup, (graph_edge g G x R). destruct (st_rels g !! x) as [r|]; [|done]. simpl.
    by rewrite edge_step_unlink.
  - intros n node E.
    assert (En : exists node0, st_nodes g !! n = Some node0 /\
      node = (fun a => if decide (n = target_node o) then unset_first id (next_rel_target o) a else a)
               (if decide (n = source_node o) then unset_first id (next_rel_source o) node0 else node0)).
    { unfold unset_first_of in E. rewrite !lookup_alter_if in E. destruct (st_nodes g !! n) as [k|]; [|done].
      injection E as <-. by exists k. }
    destruct En as (node0 & E0 & ->). destruct (rg_chain _ _ R n node0 E0) as [C F]. cbv beta.
    assert (Back : forall x r, x <> id -> st_rels g !! x = Some r -> touches n r ->
      exists r', delete id (unlink_rels (st_rels g) o) !! x = Some r' /\ edge_of r' = edge_of r).
    { intros x r Hx E' _. rewrite lookup_delete_ne, unlink_rels_lookup, E' by congruence. eexists. split; [reflexivity|].
      apply edge_step_unlink. }
    destruct (decide (touches n o)) as [T|T].
    + assert (Hin : id ∈ g_inc G n) by (apply C; eauto).
      destruct (not_filtered n _ _ id C Hin) as (p & h & Hp & Hh). destruct (Sides n _ p h C Hp Hh) as [Nx Pv].
      split.
      * eapply (chain_remove (st_rels g)); [done|exact Hp|exact Hh|apply lookup_delete_eq| |done].
        intros x r' E' _. rewrite lookup_delete in E'. case_decide; [done|].
        rewrite unlink_rels_lookup in E'. apply fmap_Some in E' as (r & E' & ->). exists r. split; [done|].
        eapply relinked_iff; [by apply (step_unlink_relinked n o p h)|tauto|tauto].
      * rewrite (hd_filter _ id h (ch_nodup _ _ _ C) Hh). rewrite <- F.
        assert (U : forall nx a, nx = h -> unset_first id nx (unset_first id nx a) = unset_first id nx a).
        { intros nx a ->. unfold unset_first. destruct (Z.eqb_spec (first_relationship a) id) as [Ea|Ea]; simpl.
          - destruct (Z.eqb_spec h id); [by rewrite (proj2 (Z.eqb_neq UNINITIALIZED_LONG id)) by congruence|].
            by rewrite (proj2 (Z.eqb_neq h id)).
          - by rewrite (proj2 (Z.eqb_neq _ _) Ea). }
        assert (Hs : n = source_node o -> next_rel_source o = h) by (intros ->; by apply Nx).
        assert (Ht : n = target_node o -> next_rel_target o = h) by (intros ->; by apply Nx).
        assert (Fin : (if first_relationship node0 =? id then if h =? id then UNINITIALIZED_LONG else h
                       else first_relationship node0) = first_relationship (unset_first id h node0)).
        { unfold unset_first. by destruct (first_relationship node0 =? id). }
        rewrite Fin. destruct (decide (n = target_node o)) as [D|D], (decide (n = source_node o)) as [D'|D'].
        -- by rewrite (Hs D'), (Ht D), U.
        -- by rewrite (Ht D).
        -- by rewrite (Hs D').
        -- destruct T; congruence.
    + assert (Hin : id ∉ g_inc G n) by (intros (r & ? & ?)%C; congruence).
      rewrite !decide_False by (intros ->; apply T; unfold touches; auto). rewrite filter_absent by done. split; [|done].
      eapply (chain_other (st_rels g)); [done|..].
      * intros x r' E' _. rewrite lookup_delete in E'. case_decide; [done|].
        rewrite unlink_rels_lookup in E'. apply fmap_Some in E' as (r & E' & ->). exists r. split; [done|].
        eapply relinked_none; [apply (step_unlink_relinked n o 0 0)|..]; tauto.
      * intros x r E'. intros T'. apply Back; [|done|done]. intros ->. congruence.
  - intros x e. rewrite lookup_delete. case_decide; [done|]. apply (rg_ends _ _ R).
  - rewrite lookup_delete_ne, unlink_rels_lookup by done. by rewrite (rg_uninit _ _ R).
Qed.
End Graphs.
