(* ===== verification/Incidence.v ===== *)
(** The relationships of a heap file as a graph: creation, deletion and traversal.

    [graph_file hf G] says that the records of the heap file represent the graph [G] and
    that its counters are right.  Where the code works on several structs at once, the
    arena's entries from position [k] on are shown to lie over a map of relationships
    ([overlay]): entries have different ids, so that changing an entry is changing the map
    at its id, whichever pointers are equal. *)

From S2P Require Import Prelude Constants LinkedList HTable ArrayList DiskFile PhysicalDatabase Page PageCache PageCacheInv HeaderPage Records HeapFile HeapFileInv HeapRecords HeapStore Chains.
From Stdlib Require Import ZArith Lia.
From stdpp Require Import base list list_numbers option fin_maps gmap strings.

#[local] Open Scope Z_scope.

Section Arena.
Context `{RecordPages}.
Implicit Types (hf : heap_file) (g : store) (log : bool) (r : relationship_t) (a : list relationship_t)
  (m : gmap Z relationship_t) (p q k : nat) (x y id : Z).

(** ** Structs that lie over a map *)

Record overlay k a m : Prop := Overlay {
  ov_agree : forall p r, (k <= p)%nat -> a !! p = Some r -> m !! r_id r = Some r;
  ov_distinct : forall p q r r', (k <= p)%nat -> (k <= q)%nat -> a !! p = Some r -> a !! q = Some r' ->
    r_id r = r_id r' -> p = q }.

(** The struct at a pointer has the id. *)
Definition at_id a p x : Prop := r_id <$> a !! p = Some x.

Lemma at_obj a p x : at_id a p x -> exists r, obj a p = Ok r /\ a !! p = Some r /\ r_id r = x.
Proof. unfold at_id, obj. intros (r & -> & ->)%fmap_Some. by exists r. Qed.

Lemma at_app a b p x : at_id a p x -> at_id (a ++ b) p x.
Proof. unfold at_id. intros (r & E & ->)%fmap_Some. by rewrite (lookup_app_l_Some _ _ _ _ E). Qed.

Lemma at_alter a f p q x : (forall r, r_id (f r) = r_id r) -> at_id a p x -> at_id (alter f q a) p x.
Proof.
  intros Hf. unfold at_id. intros (r & E & ->)%fmap_Some. destruct (decide (p = q)) as [->|Hne].
  - rewrite list_lookup_alter_eq, E. simpl. by rewrite Hf.
  - by rewrite list_lookup_alter_ne, E by done.
Qed.

Lemma overlay_at k a m p x : overlay k a m -> (k <= p)%nat -> at_id a p x -> exists r, a !! p = Some r /\ m !! x = Some r /\ r_id r = x.
Proof. intros [A _] Hp (r & E & ->)%fmap_Some. exists r. split_and!; [done|by eapply A|done]. Qed.

Lemma overlay_ptr k a m p q x : overlay k a m -> (k <= p)%nat -> (k <= q)%nat -> at_id a p x -> at_id a q x -> p = q.
Proof. intros [_ D] Hp Hq (r & E & Ei)%fmap_Some (r' & E' & Ei')%fmap_Some. eapply D; try done. congruence. Qed.

Lemma overlay_alter k a m f p x :
  (forall r, r_id (f r) = r_id r) -> overlay k a m -> (k <= p)%nat -> at_id a p x ->
  overlay k (alter f p a) (alter f x m).
Proof.
  intros Hf O Hp Hx. destruct (overlay_at k a m p x O Hp Hx) as (r0 & E0 & M0 & I0). destruct O as [A D].
  assert (L : forall q r, alter f p a !! q = Some r -> exists r', a !! q = Some r' /\ r_id r = r_id r' /\
                  r = if decide (q = p) then f r' else r').
  { intros q r. destruct (decide (q = p)) as [->|Hne].
    - rewrite list_lookup_alter_eq. intros (r' & E & ->)%fmap_Some. by exists r'.
    - rewrite list_lookup_alter_ne by done. intros E. by exists r. }
  split.
  - intros q r Hq (r' & E & Ei & ->)%L. rewrite Ei. destruct (decide (q = p)) as [->|Hne].
    + assert (r' = r0) as -> by congruence. by rewrite I0, lookup_alter_eq, M0.
    + rewrite lookup_alter_ne; [by eapply A|]. intros ->. apply Hne. eapply D; try done; congruence.
  - intros q1 q2 r1 r2 H1 H2 (r1' & E1 & I1 & _)%L (r2' & E2 & I2 & _)%L Ei. eapply D; try done; congruence.
Qed.

Lemma overlay_load k a m r x :
  overlay k a m -> m !! x = Some r -> r_id r = x -> (forall p, (k <= p)%nat -> ~ at_id a p x) ->
  overlay k (a ++ [r]) m.
Proof.
  intros [A D] M Ei N.
  assert (L : forall q r', (a ++ [r]) !! q = Some r' -> a !! q = Some r' \/ (q = length a /\ r' = r)).
  { intros q r'. rewrite lookup_app_Some. intros [?|[Hl E]]; [by left|right].
    apply list_lookup_singleton_Some in E as [? ->]. split; [lia|done]. }
  assert (N' : forall q r', (k <= q)%nat -> a !! q = Some r' -> r_id r' <> r_id r).
  { intros q r' Hq E Ei'. apply (N q Hq). unfold at_id. rewrite E. simpl. congruence. }
  split.
  - intros q r' Hq [E|[-> ->]]%L; [by eapply A|congruence].
  - intros q1 q2 r1 r2 H1 H2 [E1|[-> ->]]%L [E2|[-> ->]]%L Ei'; try done.
    + by eapply D.
    + by destruct (N' q1 r1 H1 E1).
    + by destruct (N' q2 r2 H2 E2).
Qed.

Lemma at_length a r : at_id (a ++ [r]) (length a) (r_id r).
Proof. unfold at_id. by rewrite lookup_app_r, Nat.sub_diag by done. Qed.

(** Loading a stored relationship that is not among the structs. *)
Lemma load_rel_ok hf g a x r log : holds_store hf g -> st_rels g !! x = Some r ->
  exists hf', load_rel hf a x log = Ok (length a, a ++ [r], hf') /\ holds_store hf' g /\ same_shape hf hf'.
Proof.
  intros S E. unfold load_rel. destruct (read_rel_ok hf g x r log S E) as (hf' & -> & S' & Sh).
  by exists hf'.
Qed.

(** ** Writing the structs back *)

(** What the guards of [update_relationship_internal] ask for. *)
Definition fine r : Prop := rel_range r /\ writable r.

(** Pointers are written in turn, a pointer that comes again later (or is [skip]) only then. *)
Fixpoint write_backs hf a (skip : nat) (ps : list nat) log : res heap_file :=
  match ps with
  | [] => Ok hf
  | p :: ps' =>
      hf ← write_back hf a p (bool_decide (p ∉ skip :: ps')) log;
      write_backs hf a skip ps' log
  end.

Lemma write_backs_ok ps : forall hf g k a m skip log,
  holds_store hf g -> overlay k a m -> Forall fine a ->
  (forall p, p ∈ ps -> (k <= p)%nat /\ exists x, at_id a p x /\ (p <> skip -> has g false x = true)) ->
  exists hf' g', write_backs hf a skip ps log = Ok hf' /\ holds_store hf' g' /\ same_shape hf hf' /\
    st_nodes g' = st_nodes g /\
    (forall p x, p ∈ ps -> p <> skip -> at_id a p x -> st_rels g' !! x = m !! x) /\
    (forall x, (forall p, p ∈ ps -> p <> skip -> ~ at_id a p x) -> st_rels g' !! x = st_rels g !! x).
Proof.
  induction ps as [|p ps IH]; intros hf g k a m skip log S O F Hps; cbn [write_backs].
  { exists hf, g. split_and!; try done. by intros p x ?%elem_of_nil. }
  destruct (Hps p) as (Kp & x & Hx & Hh); [by apply elem_of_cons; left|].
  assert (Hps' : forall g1, (forall y, has g false y = true -> has g1 false y = true) ->
    forall q, q ∈ ps -> (k <= q)%nat /\ exists y, at_id a q y /\ (q <> skip -> has g1 false y = true)).
  { intros g1 Hg q Hq. destruct (Hps q) as (Kq & y & Hy & Hhy); [by apply elem_of_cons; right|]. naive_solver. }
  case_bool_decide as Hin.
  - unfold write_back. destruct (at_obj a p x Hx) as (r & Eo & Ea & Ei). rewrite Eo. cbn [mbind res_bind].
    assert (Hr : fine r) by (eapply Forall_lookup_1; done). destruct Hr as [Rr Wr].
    assert (Np : p <> skip /\ p ∉ ps) by set_solver. destruct Np as [Nskip Nps].
    destruct (update_rel_internal_ok hf g r false log S) as (hf1 & E1 & S1 & Sh1); [rewrite Ei; by apply Hh|done|done|].
    rewrite E1. rewrite Ei in S1.
    destruct (IH hf1 (put_rel g x (Some r)) k a m skip log S1 O F) as (hf2 & g2 & E2 & S2 & Sh2 & N2 & W2 & K2).
    { apply Hps'. intros y Hy. unfold has, put_rel in *. cbn. destruct (decide (y = x)) as [->|Hne].
      - rewrite lookup_partial_alter_eq. apply bool_decide_true. eauto.
      - by rewrite lookup_partial_alter_ne. }
    exists hf2, g2. split_and!; [done|done|by rewrite Sh1|done|..].
    + intros q y [->|Hq]%elem_of_cons Ns Hy; [|by apply (W2 q)].
      assert (y = x) as -> by (unfold at_id in *; congruence). rewrite K2.
      * cbn. rewrite lookup_partial_alter_eq. symmetry. rewrite <- Ei. by eapply ov_agree.
      * intros q Hq Nq Hy'. apply Nps. rewrite (overlay_ptr k a m p q x O Kp); [done| |done|done]. by apply (Hps' g).
    + intros y Hy. rewrite K2 by (intros q Hq; apply Hy; set_solver). cbn.
      apply lookup_partial_alter_ne. intros <-. by apply (Hy p); [set_solver|..].
  - cbn [write_back mbind res_bind].
    destruct (IH hf g k a m skip log S O F) as (hf2 & g2 & E2 & S2 & Sh2 & N2 & W2 & K2); [by apply Hps'|].
    exists hf2, g2. split_and!; [done|done|done|done|..].
    + intros q y [->|Hq]%elem_of_cons Ns Hy; [|by apply (W2 q)]. apply (W2 p); set_solver.
    + intros y Hy. apply K2. intros q Hq. apply Hy. set_solver.
Qed.

(** ** Adjusting links keeps ids and ranges *)

Lemma adjust_next_id n x r : r_id (adjust_next n x r) = r_id r.
Proof. unfold adjust_next. by repeat case_match. Qed.
Lemma adjust_prev_id n x r : r_id (adjust_prev n x r) = r_id r.
Proof. unfold adjust_prev. by repeat case_match. Qed.

Lemma fine_links r x1 x2 x3 x4 : fine r -> is_u64 x1 -> is_u64 x2 -> is_u64 x3 -> is_u64 x4 ->
  fine (Relationship (r_id r) (source_node r) (target_node r) x1 x2 x3 x4 (weight r) (r_label r)).
Proof.
  intros [R W] H1 H2 H3 H4. split; [|exact W]. unfold rel_range, rel_words in *. cbn.
  rewrite !Forall_cons in *. tauto.
Qed.
Lemma fine_fields r : fine r ->
  is_u64 (prev_rel_source r) /\ is_u64 (next_rel_source r) /\ is_u64 (prev_rel_target r) /\ is_u64 (next_rel_target r).
Proof. intros [R _]. unfold rel_range, rel_words in R. rewrite !Forall_cons in R. tauto. Qed.

Lemma adjust_next_fine n x r : is_u64 x -> fine r -> fine (adjust_next n x r).
Proof.
  intros Hx F. pose proof (fine_fields r F) as (A & B & C & D).
  unfold adjust_next. repeat case_match; try done; unfold set_next_source, set_next_target; cbn; by apply (fine_links r).
Qed.
Lemma adjust_prev_fine n x r : is_u64 x -> fine r -> fine (adjust_prev n x r).
Proof.
  intros Hx F. pose proof (fine_fields r F) as (A & B & C & D).
  unfold adjust_prev. repeat case_match; try done; unfold set_prev_source, set_prev_target; cbn; by apply (fine_links r).
Qed.

Lemma alter_fine f p a : (forall r, fine r -> fine (f r)) -> Forall fine a -> Forall fine (alter f p a).
Proof.
  intros Hf F. apply Forall_lookup. intros q r. rewrite list_lookup_alter. case_decide.
  - intros (r' & E & ->)%fmap_Some. apply Hf. by eapply Forall_lookup_1.
  - intros E. by eapply Forall_lookup_1.
Qed.

(** ** The chains' ends as structs *)

(** The structs of a new relationship with the id [id] and of stored ones. *)
Record structs g id a m : Prop := Structs {
  st_over : overlay 0 a m;
  st_fine : Forall fine a;
  st_new : at_id a 0 id;
  st_rest : forall x, x <> id -> m !! x = st_rels g !! x }.

Lemma structs_load g G id a m x r : represents g G -> structs g id a m -> st_rels g !! x = Some r -> r_id r = x ->
  fine r -> x <> id -> (forall p, (p < length a)%nat -> ~ at_id a p x) -> structs g id (a ++ [r]) m.
Proof.
  intros R [O F N Re] E Ei Fr Hx Na. split.
  - eapply overlay_load; [done|by rewrite Re|done|]. intros p _ Hp. apply (Na p); [|done].
    apply fmap_Some in Hp as (r' & E' & _). by eapply lookup_lt_Some.
  - apply Forall_app. split; [done|by apply Forall_singleton].
  - by apply at_app.
  - done.
Qed.

(** The heap file holds [g], but for the record with the new id. *)
Lemma other_rel g id (j : option relationship_t) x : x <> id -> st_rels (put_rel g id j) !! x = st_rels g !! x.
Proof. intros Hx. by apply lookup_partial_alter_ne. Qed.

Lemma stored_fine hf g G id j x r : holds_store hf (put_rel g id j) -> represents g G -> x <> id ->
  st_rels g !! x = Some r -> fine r /\ r_id r = x.
Proof.
  intros S R Hx E. assert (E' : st_rels (put_rel g id j) !! x = Some r) by (by rewrite other_rel).
  destruct (stored_rel hf _ x r S E') as (Ei & Rr & _). split; [|done]. split; [done|].
  destruct (rel_ends g G x r R E) as ((s & Es) & (t & Et) & W).
  assert (U : forall n node, st_nodes g !! n = Some node -> n <> UNINITIALIZED_LONG).
  { intros n node En ->. pose proof (has_in_file hf _ true _ S (has_node (put_rel g id j) _ _ En)) as I.
    by apply uninitialized_not_in_file in I; [|by eapply quiet]. }
  split_and!; [by eapply U|by eapply U|done].
Qed.

(** The first relationship of a node leads to the last one. *)
Lemma first_prev g G n node h l : represents g G -> st_nodes g !! n = Some node -> g_inc G n = h :: l ->
  exists r, st_rels g !! h = Some r /\ prev_id n r = List.last (h :: l) h /\ touches n r.
Proof.
  intros R En El. destruct (rg_chain _ _ R n node En) as [C F]. rewrite El in C.
  assert (Hh : h ∈ h :: l) by set_solver. apply (ch_mem _ _ _ C) in Hh as (r & E & T). exists r. split_and!; [done| |done].
  pose proof (ch_prev _ _ _ C _ _ r (cycle_last h l) E) as [P1 P2]. unfold prev_id.
  destruct (Z.eqb_spec n (source_node r)) as [->|Hne]; [by apply P1|]. apply P2. destruct T; congruence.
Qed.

Lemma at_new r : at_id [r] 0 (r_id r).
Proof. done. Qed.

Lemma load_from_ok hf g j G id r0 m from node log :
  holds_store hf (put_rel g id j) -> represents g G -> structs g id [r0] m -> st_nodes g !! from = Some node -> id ∉ g_inc G from ->
  exists ff lf a hf', load_from hf [r0] node log = Ok (ff, lf, a, hf') /\ holds_store hf' (put_rel g id j) /\ same_shape hf hf' /\
    structs g id a m /\ at_id a ff (hd id (g_inc G from)) /\ at_id a lf (List.last (g_inc G from) id) /\
    (forall p, (p < length a)%nat -> p = 0%nat \/ p = ff \/ p = lf).
Proof.
  intros S R St En Hid. unfold load_from. destruct (rg_chain _ _ R from node En) as [C F]. rewrite F.
  pose proof (st_new _ _ _ _ St) as N0.
  destruct (g_inc G from) as [|h l] eqn:El; cbn [hd].
  { rewrite Z.eqb_refl. exists 0%nat, 0%nat, [r0], hf. split_and!; try done. intros p Hp. simpl in Hp. lia. }
  assert (Hl : forall x, x ∈ h :: l -> exists r, st_rels g !! x = Some r /\ x <> id).
  { intros x Hx. destruct (ch_mem _ _ _ C x) as [[r [E _]] _]; [done|]. exists r. split; [done|]. by intros ->. }
  destruct (first_prev g G from node h l R En El) as (r & E & Ep & T).
  destruct (Hl h ltac:(set_solver)) as (_ & _ & Hne).
  destruct (stored_fine hf g G id j h r S R Hne E) as [Fr Er].
  assert (Hu : h <> UNINITIALIZED_LONG) by (intros ->; by rewrite (rg_uninit _ _ R) in E).
  rewrite (proj2 (Z.eqb_neq _ _) Hu).
  destruct (load_rel_ok hf (put_rel g id j) [r0] h r log S) as (hf1 & E1 & S1 & Sh1); [by rewrite other_rel|]. rewrite E1. cbn [mbind res_bind length app].
  assert (Id0 : r_id r0 = id) by (by injection N0).
  assert (St1 : structs g id ([r0] ++ [r]) m).
  { eapply structs_load; try done. intros p Hp Ha. simpl in Hp. assert (p = 0%nat) as -> by lia.
    unfold at_id in Ha. simpl in Ha. congruence. }
  change (obj [r0; r] 1) with (Ok r). cbn [mbind res_bind].
  destruct (stored_node hf (put_rel g id j) from node S En) as (Ni & _ & _). rewrite Ni, Ep.
  assert (At1 : at_id [r0; r] 1 h) by (unfold at_id; simpl; by rewrite Er).
  destruct (prev_cases h l) as [[El' ->]|[Hin Hnil]].
  - rewrite El', Z.eqb_refl. exists 1%nat, 1%nat, [r0; r], hf1. split_and!; try done.
    intros p Hp. simpl in Hp. lia.
  - pose proof (ch_nodup _ _ _ C) as Nd. apply NoDup_cons in Nd as [Nh _].
    set (t := List.last (h :: l) h) in *.
    assert (Hth : t <> h) by (intros ->; done). rewrite (proj2 (Z.eqb_neq _ _) Hth).
    destruct (Hl t ltac:(set_solver)) as (rt & Et & Htid). destruct (stored_fine hf g G id j t rt S R Htid Et) as [Frt Ert].
    destruct (load_rel_ok hf1 (put_rel g id j) [r0; r] t rt log S1) as (hf2 & E2 & S2 & Sh2); [by rewrite other_rel|]. rewrite E2. cbn [mbind res_bind length app].
    exists 1%nat, 2%nat, [r0; r; rt], hf2.
    assert (Elast : List.last (h :: l) id = t).
    { unfold t. clear -Hnil. destruct l as [|b l _] using rev_ind; [done|]. by rewrite app_comm_cons, !last_last. }
    split_and!; [done|done|by rewrite Sh1| |done|rewrite Elast; unfold at_id; simpl; by rewrite Ert|intros p Hp; simpl in Hp; lia].
    change [r0; r; rt] with ([r0; r] ++ [rt]). eapply structs_load; try done.
    intros p Hp Ha. simpl in Hp. unfold at_id in Ha. destruct p as [|[|p]]; simpl in Ha; [congruence|congruence|lia].
Qed.

(** A struct with the id: one of those at hand, or the one that is loaded. *)
Lemma find_or_load hf g j G id a m x r (c : bool) p0 log :
  holds_store hf (put_rel g id j) -> represents g G -> structs g id a m -> st_rels g !! x = Some r -> x <> id ->
  (c = true -> at_id a p0 x) -> (c = false -> forall p, (p < length a)%nat -> ~ at_id a p x) ->
  exists p a' hf', (if c then Ok (p0, a, hf) else load_rel hf a x log) = Ok (p, a', hf') /\
    holds_store hf' (put_rel g id j) /\ same_shape hf hf' /\ structs g id a' m /\ at_id a' p x /\
    (forall q y, at_id a q y -> at_id a' q y) /\
    (forall q, (q < length a')%nat -> (q < length a)%nat \/ q = p).
Proof.
  intros S R St E Hx Hc Hn. destruct c.
  - exists p0, a, hf. split_and!; try done; [by apply Hc|]. intros q Hq. by left.
  - destruct (stored_fine hf g G id j x r S R Hx E) as [Fr Er].
    destruct (load_rel_ok hf (put_rel g id j) a x r log S) as (hf' & E1 & S1 & Sh1); [by rewrite other_rel|].
    exists (length a), (a ++ [r]), hf'. split_and!; [done|done|done| | | |].
    + eapply structs_load; try done. by apply Hn.
    + rewrite <- Er. apply at_length.
    + intros q y. apply at_app.
    + intros q. rewrite length_app. simpl. lia.
Qed.

(** An id that is none of three structs' ids. *)
Lemma not_among a id p1 p2 x x1 x2 :
  at_id a 0 id -> at_id a p1 x1 -> at_id a p2 x2 -> x <> id -> x <> x1 -> x <> x2 ->
  (forall p, (p < length a)%nat -> p = 0%nat \/ p = p1 \/ p = p2) ->
  forall p, (p < length a)%nat -> ~ at_id a p x.
Proof.
  intros A0 A1 A2 N0 N1 N2 Cov p Hp Ha. unfold at_id in *.
  destruct (Cov p Hp) as [->|[->| ->]]; congruence.
Qed.

Lemma load_to_ok hf g j G id a m to node ff lf xf xl log :
  holds_store hf (put_rel g id j) -> represents g G -> structs g id a m -> st_nodes g !! to = Some node -> id ∉ g_inc G to ->
  at_id a ff xf -> at_id a lf xl -> (forall p, (p < length a)%nat -> p = 0%nat \/ p = ff \/ p = lf) ->
  exists ft lt a' hf', load_to hf a node ff lf log = Ok (ft, lt, a', hf') /\ holds_store hf' (put_rel g id j) /\ same_shape hf hf' /\
    structs g id a' m /\ at_id a' ft (hd id (g_inc G to)) /\ at_id a' lt (List.last (g_inc G to) id) /\
    at_id a' ff xf /\ at_id a' lf xl.
Proof.
  intros S R St En Hid Hf Hl Cov. unfold load_to. destruct (rg_chain _ _ R to node En) as [C F]. rewrite F.
  pose proof (st_new _ _ _ _ St) as N0.
  destruct (g_inc G to) as [|h l] eqn:El; cbn [hd].
  { rewrite Z.eqb_refl. exists 0%nat, 0%nat, a, hf. by split_and!. }
  assert (Hm : forall x, x ∈ h :: l -> exists r, st_rels g !! x = Some r /\ x <> id).
  { intros x Hx. destruct (ch_mem _ _ _ C x) as [[r [E _]] _]; [done|]. exists r. split; [done|]. by intros ->. }
  destruct (first_prev g G to node h l R En El) as (r & E & Ep & T).
  assert (Hu : h <> UNINITIALIZED_LONG) by (intros ->; by rewrite (rg_uninit _ _ R) in E).
  rewrite (proj2 (Z.eqb_neq _ _) Hu). destruct (Hm h ltac:(set_solver)) as (_ & _ & Hh).
  destruct (at_obj a ff xf Hf) as (rf & Of & _ & If), (at_obj a lf xl Hl) as (rl & Ol & _ & Il).
  rewrite Of, Ol. cbn [mbind res_bind]. rewrite If, Il. clear Of Ol If Il rf rl.
  assert (B : (if h =? xf then Ok (ff, a, hf) else if h =? xl then Ok (lf, a, hf) else load_rel hf a h log) =
    if (h =? xf) || (h =? xl) then Ok (if h =? xf then ff else lf, a, hf) else load_rel hf a h log).
  { by destruct (h =? xf), (h =? xl). }
  rewrite B. clear B.
  destruct (find_or_load hf g j G id a m h r ((h =? xf) || (h =? xl)) (if h =? xf then ff else lf) log S R St E Hh)
    as (ft & a1 & hf1 & E1 & S1 & Sh1 & St1 & A1 & K1 & C1).
  { destruct (Z.eqb_spec h xf) as [->|]; [done|]. destruct (Z.eqb_spec h xl) as [->|]; done. }
  { intros [H1%Z.eqb_neq H2%Z.eqb_neq]%orb_false_iff. exact (not_among a id ff lf h xf xl N0 Hf Hl Hh H1 H2 Cov). }
  rewrite E1. cbn [mbind res_bind].
  destruct (at_obj a1 ft h A1) as (f & Of & Ef & If). rewrite Of. cbn [mbind res_bind].
  assert (f = r) as ->.
  { pose proof (ov_agree _ _ _ (st_over _ _ _ _ St1) ft f ltac:(lia) Ef) as M.
    rewrite If, (st_rest _ _ _ _ St1) in M by done. congruence. }
  destruct (stored_node hf (put_rel g id j) to node S En) as (Ni & _ & _). rewrite Ni, Ep.
  set (t := List.last (h :: l) h) in *.
  assert (Et : List.last (h :: l) id = t).
  { unfold t. clear. destruct l as [|b l _] using rev_ind; [done|]. by rewrite app_comm_cons, !last_last. }
  rewrite Et. assert (Ht : t ∈ h :: l).
  { unfold t. destruct (prev_cases h l) as [[-> _]|[? _]]; set_solver. }
  destruct (Hm t Ht) as (rt & Ert & Htid).
  set (c := (t =? xf) || (t =? xl) || (t =? h)).
  set (p0 := if t =? xf then ff else if t =? xl then lf else ft).
  assert (B : (if t =? xf then Ok (ft, ff, a1, hf1) else if t =? xl then Ok (ft, lf, a1, hf1)
               else if t =? h then Ok (ft, ft, a1, hf1)
               else ('(last, a, hf) ← load_rel hf1 a1 t log; Ok (ft, last, a, hf))) =
              ('(last, a, hf) ← (if c then Ok (p0, a1, hf1) else load_rel hf1 a1 t log); Ok (ft, last, a, hf))).
  { unfold c, p0. by destruct (t =? xf), (t =? xl), (t =? h). }
  rewrite B. clear B.
  destruct (find_or_load hf1 g j G id a1 m t rt c p0 log S1 R St1 Ert Htid)
    as (lt & a2 & hf2 & E2 & S2 & Sh2 & St2 & A2 & K2 & _).
  { unfold c, p0. destruct (Z.eqb_spec t xf) as [->|]; [by intros; apply K1|].
    destruct (Z.eqb_spec t xl) as [->|]; [by intros; apply K1|]. by destruct (Z.eqb_spec t h) as [->|]. }
  { unfold c. intros [[H1%Z.eqb_neq H2%Z.eqb_neq]%orb_false_iff H3%Z.eqb_neq]%orb_false_iff q Hq Ha.
    destruct (C1 q Hq) as [Hq' | ->]; [|unfold at_id in *; congruence].
    destruct (Cov q Hq') as [->|[->| ->]].
    - pose proof (K1 _ _ N0). unfold at_id in *; congruence.
    - pose proof (K1 _ _ Hf). unfold at_id in *; congruence.
    - pose proof (K1 _ _ Hl). unfold at_id in *; congruence. }
  rewrite E2. cbn [mbind res_bind]. exists ft, lt, a2, hf2.
  split_and!; [done|done|by rewrite Sh1|done|by apply K2|done|by apply K2, K1|by apply K2, K1].
Qed.

(** ** Linking the new relationship *)

Lemma place_id r xl xf tl tf : r_id (place r xl xf tl tf) = r_id r.
Proof. done. Qed.

Lemma link_new_ok g id a m from to ff lf ft lt xf xl tf tl :
  structs g id a m -> at_id a ff xf -> at_id a lf xl -> at_id a ft tf -> at_id a lt tl ->
  is_u64 id -> is_u64 xf -> is_u64 xl -> is_u64 tf -> is_u64 tl ->
  exists a', link_new a from to id ff lf ft lt = Ok a' /\
    overlay 0 a' (link_rels (alter (fun r => place r xl xf tl tf) id m) from to id xl xf tl tf) /\ Forall fine a' /\
    (forall p x, at_id a p x -> at_id a' p x).
Proof.
  intros [O F N _] Aff Alf Aft Alt Ui Uxf Uxl Utf Utl. unfold link_new.
  destruct (at_obj a lf xl Alf) as (rlf & -> & _ & Elf), (at_obj a ff xf Aff) as (rff & -> & _ & Eff),
    (at_obj a lt tl Alt) as (rlt & -> & _ & Elt), (at_obj a ft tf Aft) as (rft & -> & _ & Eft).
  cbn [mbind res_bind]. rewrite Elf, Eff, Elt, Eft. eexists. split; [reflexivity|].
  set (pl := fun r => set_next_target _ _). unfold link_rels. change (fun r => place r xl xf tl tf) with pl.
  assert (I0 : forall r, r_id (pl r) = r_id r) by done.
  split_and!.
  - repeat (apply overlay_alter; [intros; (apply adjust_next_id || apply adjust_prev_id || apply I0)| |lia|
      repeat (apply at_alter; [intros; (apply adjust_next_id || apply adjust_prev_id || apply I0)|]); done]). done.
  - repeat (apply alter_fine; [intros; (by apply adjust_next_fine) || (by apply adjust_prev_fine) || idtac|]); [|done].
    unfold pl, set_next_target, set_prev_target, set_next_source, set_prev_source. cbn. by apply (fine_links r).
  - intros p x Hx. repeat (apply at_alter; [intros; (apply adjust_next_id || apply adjust_prev_id || apply I0)|]). done.
Qed.

(** ** The first relationship of a node *)

Lemma set_first_ok hf g n (node : node_t) id log :
  holds_store hf g -> is_Some (st_nodes g !! n) -> n_id node = n -> node_range node -> is_u64 id ->
  exists hf', set_first_if_none hf node id log = Ok hf' /\ same_shape hf hf' /\
    holds_store hf' (Store (if first_relationship node =? UNINITIALIZED_LONG
                            then <[n := set_first node id]> (st_nodes g) else st_nodes g) (st_rels g)).
Proof.
  intros S [k En] Ei Rn U. unfold set_first_if_none. destruct (first_relationship node =? UNINITIALIZED_LONG).
  - destruct (update_node_ok hf g (set_first node id) log S) as (hf' & E & S' & Sh).
    + cbn. rewrite Ei. by eapply has_node.
    + unfold node_range, node_words in *. rewrite !Forall_cons in *. cbn. tauto.
    + exists hf'. split_and!; [done|done|]. cbn in S'. by rewrite Ei in S'.
  - exists hf. split_and!; [done|done|]. by destruct g.
Qed.

Lemma set_firsts_eq (ns : gmap Z node_t) from to nf nt id :
  id <> UNINITIALIZED_LONG -> ns !! from = Some nf -> ns !! to = Some nt ->
  let ns1 := if first_relationship nf =? UNINITIALIZED_LONG then <[from := set_first nf id]> ns else ns in
  (if first_relationship nt =? UNINITIALIZED_LONG then <[to := set_first nt id]> ns1 else ns1) =
  set_first_of to id (set_first_of from id ns).
Proof.
  intros Hu Ef Et. cbv zeta.
  assert (T1 : forall k : node_t, first_relationship k = UNINITIALIZED_LONG -> set_none id k = set_first k id).
  { intros k Ek. unfold set_none. by rewrite (proj2 (Z.eqb_eq _ _) Ek). }
  apply map_eq. intros n. unfold set_first_of. rewrite !lookup_alter_if.
  destruct (decide (n = to)) as [->|Ht].
  - rewrite Et. cbn [fmap option_fmap option_map]. destruct (Z.eqb_spec (first_relationship nt) UNINITIALIZED_LONG) as [E0|E0].
    + rewrite lookup_insert_eq. f_equal. destruct (decide (to = from)) as [->|].
      * rewrite (T1 nt E0). unfold set_none. cbn. by rewrite (proj2 (Z.eqb_neq _ _) Hu).
      * by rewrite (T1 nt E0).
    + assert (T : set_none id nt = nt) by (unfold set_none; by rewrite (proj2 (Z.eqb_neq _ _) E0)).
      destruct (decide (to = from)) as [->|Hne].
      * assert (nf = nt) as -> by congruence. by rewrite (proj2 (Z.eqb_neq _ _) E0), Et, !T.
      * rewrite T. destruct (_ =? _); [by rewrite lookup_insert_ne by congruence|done].
  - assert (G : forall (c : bool) (m : gmap Z node_t), (if c then <[to := set_first nt id]> m else m) !! n = m !! n).
    { intros [|] m; [by rewrite lookup_insert_ne by congruence|done]. }
    rewrite G. destruct (decide (n = from)) as [->|Hf].
    + rewrite Ef. cbn. unfold set_none. destruct (_ =? _); [by rewrite lookup_insert_eq|done].
    + destruct (_ =? _); rewrite ?lookup_insert_ne by congruence; by destruct (ns !! n).
Qed.

(** ** Creating a relationship *)

Lemma not_in_list p (ps : list nat) : bool_decide (p ∉ ps) = forallb (fun q => negb (p =? q)%nat) ps.
Proof.
  apply eq_iff_eq_true. rewrite bool_decide_eq_true, forallb_forall. split.
  - intros Hp q Hq%list_elem_of_In. apply negb_true_iff, Nat.eqb_neq. by intros ->.
  - intros Hf Hp. apply list_elem_of_In, Hf in Hp. by rewrite Nat.eqb_refl in Hp.
Qed.

(** The four writes of the code are [write_backs]. *)
Lemma write_four {B} hf a s p1 p2 p3 p4 (f : heap_file -> res B) log :
  let ne (p q : nat) := negb (p =? q)%nat in
  (hf ← write_back hf a p1 (ne p1 s && ne p1 p2 && ne p1 p3 && ne p1 p4) log;
   hf ← write_back hf a p2 (ne p2 s && ne p2 p3 && ne p2 p4) log;
   hf ← write_back hf a p3 (ne p3 s && ne p3 p4) log;
   hf ← write_back hf a p4 (ne p4 s) log; f hf) =
  (hf ← write_backs hf a s [p1; p2; p3; p4] log; f hf).
Proof.
  cbn [write_backs]. rewrite !not_in_list. cbn [forallb]. rewrite !andb_true_r, !andb_assoc.
  destruct (write_back hf a p1 _ log) as [hf1| | |]; [|done..]. cbn [mbind res_bind].
  destruct (write_back hf1 a p2 _ log) as [hf2| | |]; [|done..]. cbn [mbind res_bind].
  destruct (write_back hf2 a p3 _ log) as [hf3| | |]; [|done..]. cbn [mbind res_bind].
  by destruct (write_back hf3 a p4 _ log) as [hf4| | |].
Qed.

Lemma in_file_u64 hf g node id : holds_store hf g -> in_file (hf_cache hf) node id -> is_u64 id /\ id <> UNINITIALIZED_LONG.
Proof.
  intros S I. split.
  - destruct I as [(V0 & _) Hp]. pose proof (pages_small hf g node S) as P.
    change (n_pages (hf_cache hf) records (ft_of node)) with (pages_of hf node) in Hp.
    pose proof (id_parts id). unfold is_u64. lia.
  - intros ->. by apply uninitialized_not_in_file in I; [|by eapply quiet].
Qed.

Lemma inc_u64 hf g id0 j G n node x : holds_store hf (put_rel g id0 j) -> represents g G -> st_nodes g !! n = Some node ->
  x ∈ g_inc G n -> x <> id0 -> is_u64 x.
Proof.
  intros S R En Hx Hne. destruct (chain_rel g G n node x R En Hx) as (r & E & _).
  apply (in_file_u64 hf (put_rel g id0 j) false x S), (has_in_file hf (put_rel g id0 j) false x S).
  apply (has_rel _ _ r). by rewrite other_rel.
Qed.

Lemma ends_u64 hf g id j G n node : holds_store hf (put_rel g id j) -> represents g G -> st_nodes g !! n = Some node ->
  id ∉ g_inc G n -> is_u64 id -> is_u64 (hd id (g_inc G n)) /\ is_u64 (List.last (g_inc G n) id).
Proof.
  intros S R En Hid Hu.
  assert (A : forall x, x ∈ g_inc G n -> is_u64 x) by (intros x Hx; eapply inc_u64; try done; by intros ->).
  split.
  - destruct (g_inc G n) as [|h l]; [done|]. apply A. simpl. set_solver.
  - destruct (g_inc G n) as [|h l _] using rev_ind; [done|]. rewrite last_last. apply A. set_solver.
Qed.

(** The map that the code leaves is the one with the links of [linked]. *)
Lemma linked_written g G id e g' a m' ff lf ft lt :
  (forall p x, p ∈ [ff; lf; ft; lt] -> p <> 0%nat -> at_id a p x -> st_rels g' !! x = m' !! x) ->
  (forall x, x <> id -> (forall p, p ∈ [ff; lf; ft; lt] -> p <> 0%nat -> ~ at_id a p x) -> st_rels g' !! x = st_rels g !! x) ->
  overlay 0 a m' -> at_id a 0 id -> m' = linked g G id e ->
  at_id a ff (hd id (g_inc G (e_source e))) -> at_id a lf (List.last (g_inc G (e_source e)) id) ->
  at_id a ft (hd id (g_inc G (e_target e))) -> at_id a lt (List.last (g_inc G (e_target e)) id) ->
  forall x, x <> id -> st_rels g' !! x = m' !! x.
Proof.
  intros W K O A0 -> Aff Alf Aft Alt x Hx.
  destruct (decide (x = hd id (g_inc G (e_source e)) \/ x = List.last (g_inc G (e_source e)) id \/
                    x = hd id (g_inc G (e_target e)) \/ x = List.last (g_inc G (e_target e)) id)) as [D|D].
  - assert (N : forall p, at_id a p x -> p <> 0%nat) by (intros p Hp ->; unfold at_id in *; congruence).
    destruct D as [->|[->|[->| ->]]]; [apply (W ff)|apply (W lf)|apply (W ft)|apply (W lt)]; try done; try (by apply N); set_solver.
  - rewrite K; [|done|].
    + unfold linked. rewrite link_rels_lookup, lookup_insert_ne by done.
      destruct (st_rels g !! x) as [r|]; [|done]. cbn [fmap option_fmap option_map]. f_equal. unfold step_links. cbv zeta.
      by rewrite !decide_False by tauto.
    + intros p Hp _ Hax. apply D. unfold at_id in *.
      repeat (apply elem_of_cons in Hp as [->|Hp]); [..|by apply elem_of_nil in Hp]; naive_solver congruence.
Qed.

Definition new_rel id from to w lb : relationship_t :=
  Relationship id from to UNINITIALIZED_LONG UNINITIALIZED_LONG UNINITIALIZED_LONG UNINITIALIZED_LONG w lb.

(** After the allocation of the id: the reads, links and writes. *)
Definition create_rest hf id from to w lb log : res heap_file :=
  '(from_node, hf) ← read_node hf from log;
  '(to_node, hf) ← read_node hf to log;
  '(first_from, last_from, a, hf) ← load_from hf [new_rel id from to w lb] from_node log;
  '(first_to, last_to, a, hf) ← load_to hf a to_node first_from last_from log;
  a ← link_new a from to id first_from last_from first_to last_to;
  hf ← set_first_if_none hf from_node id log;
  hf ← set_first_if_none hf to_node id log;
  hf ← write_backs hf a 0 [first_from; last_from; first_to; last_to] log;
  write_back hf a 0 true log.

Lemma create_rest_ok hf g j G id from to w lb log :
  holds_store hf (put_rel g id (Some j)) -> represents g G -> st_rels g !! id = None ->
  is_Some (st_nodes g !! from) -> is_Some (st_nodes g !! to) -> is_u64 id -> id <> UNINITIALIZED_LONG ->
  is_u64 w -> is_u64 lb -> double_eqb w UNINITIALIZED_WEIGHT = false ->
  exists hf' g', create_rest hf id from to w lb log = Ok hf' /\ holds_store hf' g' /\
    represents g' (add_edge G id (Edge from to w lb)) /\ same_shape hf hf'.
Proof.
  intros S R Fresh Sf St Ui Hu Uw Ul W. unfold create_rest.
  destruct Sf as [nf Ef], St as [nt Et].
  destruct (read_node_ok hf _ from nf log S Ef) as (hf1 & E1 & S1 & Sh1). rewrite E1. cbn [mbind res_bind].
  destruct (read_node_ok hf1 _ to nt log S1 Et) as (hf2 & E2 & S2 & Sh2). rewrite E2. cbn [mbind res_bind].
  destruct (stored_node hf1 _ from nf S1 Ef) as (If & Rf & _), (stored_node hf1 _ to nt S1 Et) as (It & Rt & _).
  assert (Uf : is_u64 from /\ from <> UNINITIALIZED_LONG).
  { eapply in_file_u64; [exact S1|]. eapply has_in_file; [exact S1|]. by eapply has_node. }
  assert (Ut : is_u64 to /\ to <> UNINITIALIZED_LONG).
  { eapply in_file_u64; [exact S1|]. eapply has_in_file; [exact S1|]. by eapply has_node. }
  set (e := Edge from to w lb). set (r0 := new_rel id from to w lb).
  set (m0 := <[id := r0]> (st_rels g)).
  assert (Hidf : id ∉ g_inc G from) by (by eapply inc_fresh).
  assert (Hidt : id ∉ g_inc G to) by (by eapply inc_fresh).
  assert (Uu : is_u64 UNINITIALIZED_LONG) by (unfold is_u64, UNINITIALIZED_LONG; cbn; lia).
  assert (Str : structs g id [r0] m0).
  { split; [split| | |].
    - intros p r _ Ep. apply list_lookup_singleton_Some in Ep as [_ <-]. apply lookup_insert_eq.
    - intros p q r r' _ _ [-> _]%list_lookup_singleton_Some [-> _]%list_lookup_singleton_Some. done.
    - apply Forall_singleton. split; [|split_and!; [apply Uf|apply Ut|done]].
      destruct Uf as [Uf _], Ut as [Ut _]. unfold rel_range, rel_words. cbn. rewrite !Forall_cons.
      split_and!; done || by apply Forall_nil.
    - done.
    - intros x Hx. by apply lookup_insert_ne. }
  destruct (load_from_ok hf2 g _ G id r0 m0 from nf log S2 R Str Ef Hidf)
    as (ff & lf & a1 & hf3 & E3 & S3 & Sh3 & St3 & Aff & Alf & Cov). rewrite E3. cbn [mbind res_bind].
  destruct (load_to_ok hf3 g _ G id a1 m0 to nt ff lf _ _ log S3 R St3 Et Hidt Aff Alf Cov)
    as (ft & lt & a2 & hf4 & E4 & S4 & Sh4 & St4 & Aft & Alt & Aff' & Alf'). rewrite E4. cbn [mbind res_bind].
  destruct (ends_u64 hf4 g id _ G from nf S4 R Ef Hidf Ui) as [U1 U2].
  destruct (ends_u64 hf4 g id _ G to nt S4 R Et Hidt Ui) as [U3 U4].
  destruct (link_new_ok g id a2 m0 from to ff lf ft lt _ _ _ _ St4 Aff' Alf' Aft Alt Ui U1 U2 U3 U4)
    as (a3 & E5 & O3 & F3 & K3). rewrite E5. cbn [mbind res_bind].
  assert (Em : alter (fun r => place r (List.last (g_inc G from) id) (hd id (g_inc G from))
                 (List.last (g_inc G to) id) (hd id (g_inc G to))) id m0 = <[id := placed G id e]> (st_rels g))
    by (unfold m0; by rewrite alter_insert_eq).
  rewrite Em in O3. change (overlay 0 a3 (linked g G id e)) in O3.
  destruct (set_first_ok hf4 (put_rel g id (Some j)) from nf id log S4) as (hf5 & E6 & Sh5 & S5); [by eauto|done..|].
  rewrite E6. cbn [mbind res_bind].
  destruct (set_first_ok hf5 _ to nt id log S5) as (hf6 & E7 & Sh6 & S6); [|done..|].
  { cbn [st_nodes]. destruct (_ =? _); [|by eauto]. destruct (decide (to = from)) as [->|].
    - rewrite lookup_insert_eq. eauto.
    - rewrite lookup_insert_ne by done. eauto. }
  rewrite E7. cbn [mbind res_bind st_nodes st_rels put_rel] in S6 |- *.
  rewrite (set_firsts_eq (st_nodes g) from to nf nt id Hu Ef Et) in S6.
  set (g6 := Store _ _) in S6. pose proof (K3 _ _ (st_new _ _ _ _ St4)) as A0.
  destruct (write_backs_ok [ff; lf; ft; lt] hf6 g6 0 a3 (linked g G id e) 0 log S6 O3 F3)
    as (hf7 & g7 & E8 & S7 & Sh7 & N7 & W7 & K7).
  { assert (Hx : forall p x, at_id a3 p x -> (p <> 0%nat -> x ∈ g_inc G from \/ x ∈ g_inc G to) ->
        (0 <= p)%nat /\ exists x, at_id a3 p x /\ (p <> 0%nat -> has g6 false x = true)).
    { intros p x Hx Hin. split; [lia|]. exists x. split; [done|]. intros Hp. specialize (Hin Hp).
      assert (Hr : exists r, st_rels g !! x = Some r).
      { destruct Hin as [Hin|Hin]; [destruct (chain_rel g G from nf x R Ef Hin) as (r & ? & _)|
                                    destruct (chain_rel g G to nt x R Et Hin) as (r & ? & _)]; eauto. }
      destruct Hr as [r Er]. apply (has_rel _ _ r). unfold g6. cbn [st_rels]. rewrite lookup_partial_alter_ne; [done|].
      intros ->. congruence. }
    assert (Zero : forall p, at_id a3 p id -> p = 0%nat) by (intros p Hp; by apply (overlay_ptr 0 a3 _ p 0 id O3); try lia).
    assert (Ends : forall l, (hd id l ∈ l \/ hd id l = id) /\ (List.last l id ∈ l \/ List.last l id = id)).
    { intros l. split; [destruct l; simpl; [by right|left; set_solver]|].
      destruct l as [|b l _] using rev_ind; [by right|left]. rewrite last_last. set_solver. }
    intros p Hp. repeat (apply elem_of_cons in Hp as [->|Hp]); [..|by apply elem_of_nil in Hp].
    - eapply Hx; [by apply K3|]. intros Hp. destruct (Ends (g_inc G from)) as [[?|Eq] _]; [by left|].
      rewrite Eq in Aff'. by apply K3, Zero in Aff'.
    - eapply Hx; [by apply K3|]. intros Hp. destruct (Ends (g_inc G from)) as [_ [?|Eq]]; [by left|].
      rewrite Eq in Alf'. by apply K3, Zero in Alf'.
    - eapply Hx; [by apply K3|]. intros Hp. destruct (Ends (g_inc G to)) as [[?|Eq] _]; [by right|].
      rewrite Eq in Aft. by apply K3, Zero in Aft.
    - eapply Hx; [by apply K3|]. intros Hp. destruct (Ends (g_inc G to)) as [_ [?|Eq]]; [by right|].
      rewrite Eq in Alt. by apply K3, Zero in Alt. }
  rewrite E8. cbn [mbind res_bind].
  destruct (at_obj a3 0 id A0) as (rn & On & En & In). unfold write_back. rewrite On. cbn [mbind res_bind].
  assert (Fn : fine rn) by (eapply Forall_lookup_1; done). destruct Fn as [Rn Wn].
  assert (Eg : st_rels g7 !! id = Some j).
  { rewrite K7; [unfold g6; cbn [st_rels]; apply lookup_partial_alter_eq|].
    intros p _ Hp Ha. apply Hp. by apply (overlay_ptr 0 a3 _ p 0 id O3); try lia. }
  destruct (update_rel_internal_ok hf7 g7 rn false log S7) as (hf8 & E9 & S8 & Sh8);
    [rewrite In; by eapply has_rel|done|done|].
  exists hf8, (put_rel g7 (r_id rn) (Some rn)). split_and!; [exact E9|exact S8| |].
  - assert (Eq : put_rel g7 (r_id rn) (Some rn) =
        Store (set_first_of to id (set_first_of from id (st_nodes g))) (linked g G id e)).
    { unfold put_rel. rewrite N7. f_equal. rewrite In. apply map_eq. intros x.
      destruct (decide (x = id)) as [->|Hx].
      - pose proof (ov_agree _ _ _ O3 0%nat rn ltac:(lia) En) as M. rewrite In in M. by rewrite lookup_partial_alter_eq, M.
      - rewrite lookup_partial_alter_ne by done. eapply (linked_written g G id e g7 a3); try done; try (by apply K3).
        intros y Hy Hp. rewrite K7 by done. unfold g6. cbn [st_rels]. by rewrite lookup_partial_alter_ne. }
    rewrite Eq. apply (add_edge_represents g G id e R Fresh); [by eauto|by eauto|done|done].
  - rewrite Sh1, Sh2, Sh3, Sh4, Sh5, Sh6, Sh7. exact Sh8.
Qed.

Lemma create_relationship_eq hf from to w lb log :
  create_relationship hf from to w lb log =
    if (from =? UNINITIALIZED_LONG) || (to =? UNINITIALIZED_LONG) || double_eqb w UNINITIALIZED_WEIGHT then Exit
    else
      hf ← next_free_slots hf false log;
      let id := last_alloc hf false in
      hf ← create_rest hf id from to w lb log;
      let hf := hf_log_when log [LStr "create_rel"; LNum id; LNum lb] hf in
      Ok (id, set_n_rels hf (u64 (n_rels hf + 1))).
Proof.
  unfold create_relationship, create_rest, new_rel. destruct (_ || _); [done|].
  destruct (next_free_slots hf false log) as [hf1| | |]; [|done..]. cbn [mbind res_bind last_alloc].
  destruct (read_node hf1 from log) as [[nf hf2]| | |]; [|done..]. cbn [mbind res_bind].
  destruct (read_node hf2 to log) as [[nt hf3]| | |]; [|done..]. cbn [mbind res_bind].
  destruct (load_from _ _ _ _) as [[[[ff lf] a1] hf4]| | |]; [|done..]. cbn [mbind res_bind].
  destruct (load_to _ _ _ _ _ _) as [[[[ft lt] a2] hf5]| | |]; [|done..]. cbn [mbind res_bind].
  destruct (link_new _ _ _ _ _ _ _ _) as [a3| | |]; [|done..]. cbn [mbind res_bind].
  destruct (set_first_if_none hf5 nf _ log) as [hf6| | |]; [|done..]. cbn [mbind res_bind].
  destruct (set_first_if_none hf6 nt _ log) as [hf7| | |]; [|done..]. cbn [mbind res_bind].
  rewrite (write_four hf7 a3 0 ff lf ft lt). cbv zeta.
  destruct (write_backs hf7 a3 0 _ log) as [hf8| | |]; [|done..]. cbn [mbind res_bind].
  by destruct (write_back hf8 a3 0 true log) as [hf9| | |].
Qed.

(** ** Heap files as graphs *)

Record graph_file hf (G : graph) : Prop := GraphFile {
  gf_store : exists g, holds_store hf g /\ represents g G;
  gf_nodes : n_nodes hf = Z.of_nat (size (g_labels G));
  gf_rels : n_rels hf = Z.of_nat (size (g_edges G)) }.

Lemma graph_sizes hf g G : holds_store hf g -> represents g G ->
  Z.of_nat (size (g_labels G)) < 2 ^ 59 /\ Z.of_nat (size (g_edges G)) < 2 ^ 59.
Proof.
  intros S R. rewrite <- (rg_labels _ _ R), <- (rg_edges _ _ R), !map_size_fmap. split.
  - apply (size_bound hf g true); [done|]. intros y n E. by eapply has_node.
  - apply (size_bound hf g false); [done|]. intros y r E. by eapply has_rel.
Qed.

Lemma graph_has_node g G n : represents g G -> has g true n = bool_decide (is_Some (g_labels G !! n)).
Proof. intros R. unfold has. rewrite (graph_node g G n R). apply bool_decide_ext. by rewrite fmap_is_Some. Qed.
Lemma graph_has_rel g G x : represents g G -> has g false x = bool_decide (is_Some (g_edges G !! x)).
Proof. intros R. unfold has. rewrite (graph_edge g G x R). apply bool_decide_ext. by rewrite fmap_is_Some. Qed.

Lemma add_node_represents g G id lb : represents g G -> st_nodes g !! id = None ->
  represents (put_node g id (Some (Node id UNINITIALIZED_LONG lb))) (add_node G id lb).
Proof.
  intros R Fr. split; cbn [put_node st_nodes st_rels add_node g_labels g_edges g_inc].
  - rewrite <- (rg_labels _ _ R). apply map_eq. intros n. rewrite lookup_fmap, lookup_partial_alter, lookup_insert.
    case_decide; [done|]. by rewrite lookup_fmap.
  - apply R.
  - intros n node. rewrite lookup_partial_alter. destruct (decide (id = n)) as [->|Hne].
    + intros [= <-]. rewrite decide_True by done. split; [|done].
      split; [constructor| |by intros ??? ?%elem_of_nil..]. intros x. rewrite elem_of_nil. split; [done|].
      intros (r & E & T). destruct (rel_ends g G x r R E) as ((s & Es) & (t & Et) & _). destruct T; congruence.
    + intros E. rewrite decide_False by done. by apply R.
  - intros x e E. destruct (rg_ends _ _ R x e E) as (A & B & W).
    split_and!; [..|done]; rewrite lookup_insert; case_decide; eauto.
  - apply R.
Qed.

Lemma create_node_graph hf G lb log : graph_file hf G -> room hf true 1 -> is_u64 lb ->
  exists id hf', create_node hf lb log = Ok (id, hf') /\ g_labels G !! id = None /\
    graph_file hf' (add_node G id lb) /\ grown hf hf' true.
Proof.
  intros [(g & S & R) Nn Nr] Rm U.
  destruct (create_node_spec hf g lb log S Rm U) as (id & hf' & E & Fr & S' & Nn' & Nr' & Gr).
  exists id, hf'. rewrite (graph_has_node g G id R) in Fr. apply bool_decide_eq_false, eq_None_not_Some in Fr.
  split_and!; [done|done| |done]. destruct (graph_sizes hf g G S R).
  split; [eexists; split; [exact S'|]|..]; cbn [add_node g_labels g_edges].
  - apply add_node_represents; [done|]. rewrite (graph_node g G id R) in Fr. by apply fmap_None in Fr.
  - rewrite Nn', Nn, map_size_insert_None by done. rewrite u64_small by (unfold is_u64; lia). lia.
  - by rewrite Nr'.
Qed.

Lemma create_relationship_graph hf G from to w lb log :
  graph_file hf G -> room hf false 1 -> is_Some (g_labels G !! from) -> is_Some (g_labels G !! to) ->
  is_u64 w -> is_u64 lb -> double_eqb w UNINITIALIZED_WEIGHT = false ->
  exists id hf', create_relationship hf from to w lb log = Ok (id, hf') /\ g_edges G !! id = None /\
    graph_file hf' (add_edge G id (Edge from to w lb)) /\ grown hf hf' false.
Proof.
  intros [(g & S & R) Nn Nr] Rm Hf Ht Uw Ul W. rewrite create_relationship_eq, W, orb_false_r.
  assert (Nu : forall n, is_Some (g_labels G !! n) -> (n =? UNINITIALIZED_LONG) = false).
  { intros n Hn. apply (id_initialized hf g true n S), (has_in_file hf g true n S).
    rewrite (graph_has_node g G n R). by apply bool_decide_true. }
  rewrite !Nu by done. cbn [orb].
  destruct (next_free_ok hf g false log S Rm) as (hf1 & id & pc & E1 & El & I1 & Hn & S1 & N1 & N2 & Gr).
  rewrite E1. cbn [mbind res_bind]. rewrite El. cbv zeta. cbn [put_marked] in S1.
  rewrite (graph_has_rel g G id R) in Hn. apply bool_decide_eq_false, eq_None_not_Some in Hn.
  assert (Fr : st_rels g !! id = None) by (rewrite (graph_edge g G id R) in Hn; by apply fmap_None in Hn).
  assert (Sn : forall n, is_Some (g_labels G !! n) -> is_Some (st_nodes g !! n)).
  { intros n. by rewrite (graph_node g G n R), fmap_is_Some. }
  destruct (in_file_u64 hf1 _ false id S1 I1) as [Ui Hu].
  destruct (create_rest_ok hf1 g _ G id from to w lb log S1 R Fr (Sn _ Hf) (Sn _ Ht) Ui Hu Uw Ul W)
    as (hf2 & g2 & E2 & S2 & R2 & Sh2). rewrite E2. cbn [mbind res_bind].
  eexists id, _. split_and!; [reflexivity|done| |destruct (grown_shape _ _ _ _ Gr Sh2) as [A B C]; by split].
  destruct (graph_sizes hf g G S R). split.
  - exists g2. split; [|done]. apply (holds_log _ _ log [LStr "create_rel"; LNum id; LNum lb]) in S2.
    destruct S2 as [A B]. by split.
  - cbn. by rewrite (sh_nodes _ _ Sh2), N1.
  - cbn. rewrite (sh_rels _ _ Sh2), N2, Nr, map_size_insert_None by done. rewrite u64_small by (unfold is_u64; lia). lia.
Qed.
End Arena.
