(* ===== verification/HeapDelete.v ===== *)
(** Deletion of relationships and nodes from a heap file that represents a graph.

    [delete_relationship] unlinks the relationship from both chains unless it is alone in
    the chain of its source.  When it is alone in the chain of its target as well, nothing
    needs unlinking; when it is not ([~ clean]), the target's chain keeps the deleted id and
    the heap file stands for no graph any more. *)

From S2P Require Import Prelude Constants LinkedList HTable ArrayList DiskFile PhysicalDatabase Page PageCache PageCacheInv HeaderPage Records HeapFile HeapFileInv HeapRecords HeapStore Chains Incidence.
From Stdlib Require Import ZArith Lia.
From stdpp Require Import base list list_numbers option fin_maps gmap strings.

#[local] Open Scope Z_scope.

Section Delete.
Context `{RecordPages}.
Implicit Types (hf : heap_file) (g : store) (G : graph) (log : bool) (r o : relationship_t)
  (a : list relationship_t) (m : gmap Z relationship_t) (p q k : nat) (x y id n : Z).

(** ** Loading the neighbours *)

Record loaded g a : Prop := Loaded {
  ld_over : overlay 1 a (st_rels g);
  ld_fine : Forall fine a }.

Lemma stored_fine' hf g G x r : holds_store hf g -> represents g G -> st_rels g !! x = Some r -> fine r /\ r_id r = x.
Proof.
  intros S R E. assert (Eg : put_rel g (x + 1) (st_rels g !! (x + 1)) = g).
  { unfold put_rel. rewrite partial_alter_self. by destruct g. }
  apply (stored_fine hf g G (x + 1) (st_rels g !! (x + 1))); [by rewrite Eg|done|lia|done].
Qed.

(** A struct with the id among those given, or a new one. *)
Lemma load_shared_ok hf g G a x r among log :
  holds_store hf g -> represents g G -> loaded g a -> (1 <= length a)%nat -> st_rels g !! x = Some r ->
  (forall p, p ∈ among -> (1 <= p)%nat /\ exists y, at_id a p y) ->
  (forall p, (1 <= p)%nat -> at_id a p x -> p ∈ among) ->
  exists p a' hf', load_shared hf a x among log = Ok (p, a', hf') /\ holds_store hf' g /\ same_shape hf hf' /\
    loaded g a' /\ (1 <= p)%nat /\ at_id a' p x /\ (forall q y, at_id a q y -> at_id a' q y) /\
    (length a <= length a')%nat /\
    (forall q y, at_id a' q y -> at_id a q y \/ q = p).
Proof.
  intros S R L Ln E. revert among. induction among as [|p among IH]; intros Ha Hc; cbn [load_shared].
  - destruct (load_rel_ok hf g a x r log S E) as (hf' & E1 & S1 & Sh1).
    destruct (stored_fine' hf g G x r S R E) as [Fr Er].
    exists (length a), (a ++ [r]), hf'. split_and!; [done|done|done| |lia| | | |].
    + destruct L as [O F]. split.
      * eapply overlay_load; try done. intros p Hp Hax. specialize (Hc p Hp Hax). by apply elem_of_nil in Hc.
      * apply Forall_app. split; [done|by apply Forall_singleton].
    + rewrite <- Er. apply at_length.
    + intros q y. apply at_app.
    + rewrite length_app. simpl. lia.
    + intros q y. unfold at_id. intros (r' & Eq & ->)%fmap_Some. apply lookup_app_Some in Eq as [Eq|[Hl Eq]].
      * left. by rewrite Eq.
      * apply list_lookup_singleton_Some in Eq as [? _]. right. lia.
  - destruct (Ha p ltac:(set_solver)) as (Hp & y & Hy). destruct (at_obj a p y Hy) as (r' & -> & _ & Ei).
    cbn [mbind res_bind]. rewrite Ei. destruct (Z.eqb_spec x y) as [->|Hne].
    + exists p, a, hf. split_and!; try done. intros q z Hz. by left.
    + apply IH; [set_solver|]. intros q Hq Hax. specialize (Hc q Hq Hax).
      apply elem_of_cons in Hc as [->|]; [|done]. unfold at_id in *. congruence.
Qed.

(** ** Unlinking *)

Lemma write_four_last hf a s p1 p2 p3 p4 log :
  let ne (p q : nat) := negb (p =? q)%nat in
  (hf ← write_back hf a p1 (ne p1 s && ne p1 p2 && ne p1 p3 && ne p1 p4) log;
   hf ← write_back hf a p2 (ne p2 s && ne p2 p3 && ne p2 p4) log;
   hf ← write_back hf a p3 (ne p3 s && ne p3 p4) log;
   write_back hf a p4 (ne p4 s) log) =
  write_backs hf a s [p1; p2; p3; p4] log.
Proof.
  pose proof (write_four hf a s p1 p2 p3 p4 Ok log) as E. cbv zeta in *.
  assert (B : forall A (x : res A), (y ← x; Ok y) = x) by (by intros A [| | |]). rewrite (B _ (write_backs _ _ _ _ _)) in E.
  rewrite <- E. destruct (write_back hf a p1 _ log) as [hf1| | |]; [|done..]. cbn [mbind res_bind].
  destruct (write_back hf1 a p2 _ log) as [hf2| | |]; [|done..]. cbn [mbind res_bind].
  destruct (write_back hf2 a p3 _ log) as [hf3| | |]; [|done..]. cbn [mbind res_bind]. symmetry. apply B.
Qed.

(** The neighbours of a stored relationship are stored. *)
Lemma neighbours g G id o : represents g G -> st_rels g !! id = Some o ->
  is_Some (st_rels g !! prev_rel_source o) /\ is_Some (st_rels g !! next_rel_source o) /\
  is_Some (st_rels g !! prev_rel_target o) /\ is_Some (st_rels g !! next_rel_target o).
Proof.
  intros R E. destruct (rel_ends g G id o R E) as ((s & Es) & (t & Et) & _).
  assert (B : forall n node, touches n o -> st_nodes g !! n = Some node ->
    exists y z, next_is n y o /\ prev_is n z o /\ is_Some (st_rels g !! y) /\ is_Some (st_rels g !! z)).
  { intros n node T En. destruct (rg_chain _ _ R n node En) as [C _].
    assert (Hin : id ∈ g_inc G n) by (apply C; eauto).
    destruct (not_filtered n _ _ id C Hin) as (z & y & Hz & Hy). exists y, z. split_and!.
    - by eapply (ch_next _ _ _ C).
    - by eapply (ch_prev _ _ _ C).
    - apply cycle_snd in Hy. apply C in Hy as (r & ? & _). eauto.
    - apply cycle_fst in Hz. apply C in Hz as (r & ? & _). eauto. }
  destruct (B _ s (or_introl eq_refl) Es) as (y & z & [Ny _] & [Nz _] & Hy & Hz).
  destruct (B _ t (or_intror eq_refl) Et) as (y' & z' & [_ Ny'] & [_ Nz'] & Hy' & Hz').
  rewrite Ny, Nz, Ny', Nz' by done. done.
Qed.

Lemma unlink_ok hf g G id o log :
  holds_store hf g -> represents g G -> st_rels g !! id = Some o ->
  exists hf', unlink hf o log = Ok hf' /\ same_shape hf hf' /\
    holds_store hf' (Store (st_nodes g) (unlink_rels (st_rels g) o)).
Proof.
  intros S R E. unfold unlink. destruct (neighbours g G id o R E) as ([r1 E1] & [r2 E2] & [r3 E3] & [r4 E4]).
  destruct (stored_fine' hf g G id o S R E) as [Fo Eo]. pose proof (fine_fields o Fo) as (U1 & U2 & U3 & U4).
  assert (L0 : loaded g [o]).
  { split; [|by apply Forall_singleton]. split.
    - intros p r Hp Ep. apply list_lookup_singleton_Some in Ep as [-> _]. lia.
    - intros p q r r' Hp _ Ep. apply list_lookup_singleton_Some in Ep as [-> _]. lia. }
  assert (N0 : forall p x, (1 <= p)%nat -> ~ at_id [o] p x).
  { intros p x Hp (r & Ep & _)%fmap_Some. apply list_lookup_singleton_Some in Ep as [-> _]. lia. }
  change (load_rel hf [o] (prev_rel_source o) log) with (load_shared hf [o] (prev_rel_source o) [] log).
  destruct (load_shared_ok hf g G [o] _ r1 [] log S R L0 ltac:(simpl; lia) E1) as
    (p1 & a1 & hf1 & X1 & S1 & Sh1 & L1 & P1 & A1 & K1 & Z1 & C1); [by intros ? ?%elem_of_nil|by intros p Hp ?%N0|].
  rewrite X1. cbn [mbind res_bind]. simpl in Z1.
  assert (D1 : forall p x, (1 <= p)%nat -> at_id a1 p x -> p ∈ [p1]).
  { intros p x Hp [Hx| ->]%C1; [by apply N0 in Hx|set_solver]. }
  destruct (load_shared_ok hf1 g G a1 _ r2 [p1] log S1 R L1 ltac:(lia) E2) as
    (p2 & a2 & hf2 & X2 & S2 & Sh2 & L2 & P2 & A2 & K2 & Z2 & C2);
    [intros p ->%list_elem_of_singleton; eauto|by intros p Hp; apply D1|].
  rewrite X2. cbn [mbind res_bind].
  assert (D2 : forall p x, (1 <= p)%nat -> at_id a2 p x -> p ∈ [p1; p2]).
  { intros p x Hp [Hx| ->]%C2; [apply D1 in Hx; [set_solver|done]|set_solver]. }
  destruct (load_shared_ok hf2 g G a2 _ r3 [p1; p2] log S2 R L2 ltac:(lia) E3) as
    (p3 & a3 & hf3 & X3 & S3 & Sh3 & L3 & P3 & A3 & K3 & Z3 & C3);
    [intros p [->| ->%list_elem_of_singleton]%elem_of_cons; eauto|by intros p Hp; apply D2|].
  rewrite X3. cbn [mbind res_bind].
  assert (D3 : forall p x, (1 <= p)%nat -> at_id a3 p x -> p ∈ [p1; p2; p3]).
  { intros p x Hp [Hx| ->]%C3; [apply D2 in Hx; [set_solver|done]|set_solver]. }
  destruct (load_shared_ok hf3 g G a3 _ r4 [p1; p2; p3] log S3 R L3 ltac:(lia) E4) as
    (p4 & a4 & hf4 & X4 & S4 & Sh4 & [O F] & P4 & A4 & K4 & Z4 & _);
    [intros p [->|[->| ->%list_elem_of_singleton]%elem_of_cons]%elem_of_cons; eauto|by intros p Hp; apply D3|].
  rewrite X4. cbn [mbind res_bind]. cbv zeta.
  set (a5 := alter _ p4 _). rewrite (write_four_last hf4 a5 0 p2 p1 p4 p3).
  assert (Ids : forall n y r, r_id (adjust_next n y r) = r_id r /\ r_id (adjust_prev n y r) = r_id r).
  { intros n y r. split; [apply adjust_next_id|apply adjust_prev_id]. }
  assert (B1 : at_id a4 p1 (prev_rel_source o)) by (by apply K4, K3, K2).
  assert (B2 : at_id a4 p2 (next_rel_source o)) by (by apply K4, K3).
  assert (B3 : at_id a4 p3 (prev_rel_target o)) by (by apply K4).
  assert (O5 : overlay 1 a5 (unlink_rels (st_rels g) o)).
  { unfold a5, unlink_rels.
    repeat (apply overlay_alter; [intros; apply Ids| |done|repeat (apply at_alter; [intros; apply Ids|]); done]). done. }
  assert (K5 : forall p x, at_id a4 p x -> at_id a5 p x).
  { intros p x Hx. unfold a5. repeat (apply at_alter; [intros; apply Ids|]). done. }
  assert (F5 : Forall fine a5).
  { unfold a5. repeat (apply alter_fine; [intros; (by apply adjust_next_fine) || (by apply adjust_prev_fine)|]). done. }
  destruct (write_backs_ok [p2; p1; p4; p3] hf4 g 1 a5 (unlink_rels (st_rels g) o) 0 log S4 O5 F5)
    as (hf5 & g5 & X5 & S5 & Sh5 & N5 & W5 & V5).
  { assert (Hr : forall x, is_Some (st_rels g !! x) -> has g false x = true) by (intros x [r Er]; by eapply has_rel).
    intros p Hp. repeat (apply elem_of_cons in Hp as [->|Hp]); [..|by apply elem_of_nil in Hp];
      (split; [done|]; eexists; split; [by apply K5|intros _; apply Hr; by eauto]). }
  exists hf5. split_and!; [done|by rewrite Sh1, Sh2, Sh3, Sh4|].
  assert (Eg : g5 = Store (st_nodes g) (unlink_rels (st_rels g) o)); [|by rewrite <- Eg].
  destruct g5 as [ns rs]. cbn in N5, W5, V5. f_equal; [done|]. apply map_eq. intros x.
  assert (NZ : p1 <> 0%nat /\ p2 <> 0%nat /\ p3 <> 0%nat /\ p4 <> 0%nat) by lia.
  destruct (decide (x = prev_rel_source o)) as [->|D1']; [apply (W5 p1); [set_solver|apply NZ|by apply K5]|].
  destruct (decide (x = next_rel_source o)) as [->|D2']; [apply (W5 p2); [set_solver|apply NZ|by apply K5]|].
  destruct (decide (x = prev_rel_target o)) as [->|D3']; [apply (W5 p3); [set_solver|apply NZ|by apply K5]|].
  destruct (decide (x = next_rel_target o)) as [->|D4']; [apply (W5 p4); [set_solver|apply NZ|by apply K5]|].
  rewrite V5.
  - rewrite unlink_rels_lookup. destruct (st_rels g !! x) as [r|]; [|done].
    cbn [fmap option_fmap option_map]. f_equal. unfold step_unlink. cbv zeta. by rewrite !decide_False.
  - assert (Uq : forall p y, at_id a5 p x -> at_id a5 p y -> x = y) by (unfold at_id; congruence).
    intros p Hp _ Hx. repeat (apply elem_of_cons in Hp as [->|Hp]); [..|by apply elem_of_nil in Hp].
    + apply D2'. apply (Uq p2 _ Hx). by apply K5.
    + apply D1'. apply (Uq p1 _ Hx). by apply K5.
    + apply D4'. apply (Uq p4 _ Hx). by apply K5.
    + apply D3'. apply (Uq p3 _ Hx). by apply K5.
Qed.

(** ** Deleting a relationship *)

Lemma replace_first_ok hf g n (node : node_t) id next log :
  holds_store hf g -> st_nodes g !! n = Some node -> is_u64 next ->
  exists hf', replace_first hf n id next log = Ok hf' /\ same_shape hf hf' /\
    holds_store hf' (Store (unset_first_of n id next (st_nodes g)) (st_rels g)).
Proof.
  intros S E U. unfold replace_first.
  destruct (read_node_internal_ok hf g n node true log S E) as (hf1 & E1 & S1 & Sh1). rewrite E1. cbn [mbind res_bind].
  destruct (stored_node hf g n node S E) as (Ei & Rn & _).
  assert (Eq : forall node', unset_first id next node = node' -> unset_first_of n id next (st_nodes g) = <[n := node']> (st_nodes g)).
  { intros node' En. apply map_eq. intros y. unfold unset_first_of. rewrite lookup_alter_if.
    destruct (decide (y = n)) as [->|Hne].
    - by rewrite E, lookup_insert_eq, <- En.
    - rewrite lookup_insert_ne by done. by destruct (st_nodes g !! y). }
  unfold unset_first in Eq. destruct (Z.eqb_spec (first_relationship node) id) as [Ef|Ef].
  - set (nd := set_first _ _) in *.
    destruct (update_node_ok hf1 g nd log S1) as (hf2 & E2 & S2 & Sh2).
    + cbn. rewrite Ei. by eapply has_node.
    + unfold node_range, node_words, nd in *. cbn. rewrite !Forall_cons in *. destruct Rn as (_ & ? & ?).
      split_and!; [|done..]. destruct (next =? id); [unfold is_u64, UNINITIALIZED_LONG; cbn; lia|done].
    + exists hf2. split_and!; [done|by rewrite Sh1|]. rewrite (Eq nd eq_refl). cbn in S2. by rewrite Ei in S2.
  - exists hf1. split_and!; [done|done|]. rewrite (Eq node eq_refl), insert_id by done. by destruct g.
Qed.

(** The relationship is not alone in its source's chain, unless it is alone in the target's
    as well. *)
Definition clean G id : Prop :=
  forall e, g_edges G !! id = Some e -> g_inc G (e_source e) = [id] -> g_inc G (e_target e) = [id].

(** The pointers of a relationship that is alone in a chain are its own. *)
Lemma alone g G id o n node : represents g G -> st_rels g !! id = Some o -> st_nodes g !! n = Some node -> touches n o ->
  (prev_is n id o <-> g_inc G n = [id]) /\ (g_inc G n = [id] -> next_is n id o).
Proof.
  intros R E En T. destruct (rg_chain _ _ R n node En) as [C _].
  assert (Hin : id ∈ g_inc G n) by (apply C; eauto).
  destruct (not_filtered n _ _ id C Hin) as (p & h & Hp & Hh).
  pose proof (ch_prev _ _ _ C _ _ o Hp E) as Pv.
  assert (One : g_inc G n = [id] -> next_is n id o /\ prev_is n id o).
  { intros Eq. assert (Hc : (id, id) ∈ cycle (g_inc G n)) by (rewrite Eq; by apply elem_of_cons; left).
    split; [by apply (ch_next _ _ _ C id id o Hc)|by apply (ch_prev _ _ _ C id id o Hc)]. }
  split; [|intros Eq; by apply One]. split; [|intros Eq; by apply One].
  intros Pi. rewrite (prev_is_unique n p id o T Pv Pi) in Hp. apply cycle_self; [apply C|done].
Qed.

Lemma alone_prev g G id o : represents g G -> st_rels g !! id = Some o ->
  (prev_rel_source o = id <-> g_inc G (source_node o) = [id]).
Proof.
  intros R E. destruct (rel_ends g G id o R E) as ((s & Es) & _).
  assert (Ts : touches (source_node o) o) by (by left).
  destruct (alone g G id o _ s R E Es Ts) as [A _].
  rewrite <- A. split; [|by intros [P _]; apply P].
  intros Ep. destruct (rg_chain _ _ R _ s Es) as [C _].
  assert (Hin : id ∈ g_inc G (source_node o)) by (apply C; eauto).
  destruct (not_filtered _ _ _ id C Hin) as (p & h & Hp & _).
  pose proof (ch_prev _ _ _ C _ _ o Hp E) as Pv. destruct Pv as [Pv1 Pv2]. specialize (Pv1 eq_refl).
  split; [done|]. intros Et. rewrite Pv2 by done. congruence.
Qed.

(** Nothing is unlinked when the relationship is alone in both chains. *)
Lemma unlink_alone g G id o : represents g G -> st_rels g !! id = Some o ->
  g_inc G (source_node o) = [id] -> g_inc G (target_node o) = [id] ->
  delete id (unlink_rels (st_rels g) o) = delete id (st_rels g).
Proof.
  intros R E As At. destruct (rel_ends g G id o R E) as ((s & Es) & (t & Et) & _).
  destruct (alone g G id o _ s R E Es (or_introl eq_refl)) as [As' Ns].
  destruct (alone g G id o _ t R E Et (or_intror eq_refl)) as [At' Nt].
  destruct As' as [_ As'], At' as [_ At']. specialize (As' As). specialize (At' At). specialize (Ns As). specialize (Nt At).
  apply map_eq. intros x. rewrite !lookup_delete. destruct (decide (id = x)) as [|Hx]; [done|].
  rewrite unlink_rels_lookup. unfold step_unlink. destruct (st_rels g !! x) as [r|]; [|done].
  cbn [fmap option_fmap option_map]. f_equal. cbv zeta.
  rewrite (proj1 As' eq_refl), (proj1 Ns eq_refl), (proj2 At' eq_refl), (proj2 Nt eq_refl).
  by rewrite !decide_False by congruence.
Qed.

(** What [delete_relationship] does to the store, in terms of the links it changes. *)
Lemma delete_relationship_store hf g G id o log :
  holds_store hf g -> represents g G -> st_rels g !! id = Some o ->
  exists hf', delete_relationship hf id log = Ok hf' /\ n_nodes hf' = n_nodes hf /\ n_rels hf' = u64 (n_rels hf - 1) /\
    (forall fk ft, n_pages (hf_cache hf') fk ft = n_pages (hf_cache hf) fk ft) /\
    holds_store hf' (Store (unset_first_of (target_node o) id (next_rel_target o)
                             (unset_first_of (source_node o) id (next_rel_source o) (st_nodes g)))
                       (delete id (if id =? prev_rel_source o then st_rels g else unlink_rels (st_rels g) o))).
Proof.
  intros S R E. unfold delete_relationship.
  pose proof (has_in_file hf g false id S (has_rel _ _ _ E)) as I.
  destruct (in_file_u64 hf g false id S I) as [Ui Hu]. rewrite (proj2 (Z.eqb_neq _ _) Hu).
  destruct (read_rel_ok hf g id o log S E) as (hf1 & E1 & S1 & Sh1). rewrite E1. cbn [mbind res_bind].
  destruct (stored_fine' hf g G id o S R E) as [Fo Eo]. pose proof (fine_fields o Fo) as (U1 & U2 & U3 & U4).
  destruct (rel_ends g G id o R E) as ((s & Es) & (t & Et) & _).
  set (rs := if id =? prev_rel_source o then st_rels g else unlink_rels (st_rels g) o).
  assert (X : exists hf2, (if id =? prev_rel_source o then Ok hf1 else unlink hf1 o log) = Ok hf2 /\ same_shape hf1 hf2 /\
                holds_store hf2 (Store (st_nodes g) rs)).
  { unfold rs. destruct (id =? prev_rel_source o).
    - exists hf1. split_and!; [done|done|]. by destruct g.
    - by apply (unlink_ok hf1 g G id o log). }
  destruct X as (hf2 & E2 & Sh2 & S2). rewrite E2. cbn [mbind res_bind]. rewrite Eo.
  destruct (replace_first_ok hf2 _ (source_node o) s id (next_rel_source o) log S2 Es U2) as (hf3 & E3 & Sh3 & S3).
  rewrite E3. cbn [mbind res_bind]. cbn [st_nodes st_rels] in S3.
  assert (Et' : exists t', unset_first_of (source_node o) id (next_rel_source o) (st_nodes g) !! target_node o = Some t').
  { unfold unset_first_of. rewrite lookup_alter_if, Et. simpl. eauto. }
  destruct Et' as [t' Et'].
  destruct (replace_first_ok hf3 _ (target_node o) t' id (next_rel_target o) log S3 Et' U4) as (hf4 & E4 & Sh4 & S4).
  rewrite E4. cbn [mbind res_bind]. cbn [st_nodes st_rels] in S4.
  apply (holds_log _ _ log [LStr "delete_rel"; LNum id; LNum (r_label o)]) in S4.
  set (hf5 := hf_log_when _ _ hf4) in *.
  assert (Sh5 : same_shape hf hf5) by (apply shape_log; rewrite Sh1, Sh2, Sh3; exact Sh4).
  assert (I5 : in_file (hf_cache hf5) false id).
  { destruct I as [V Hp]. split; [done|]. by rewrite (sh_pages _ _ Sh5). }
  destruct (mark_slots_ok hf5 _ false id false log S4 I5) as (hf6 & E6 & S6 & Sh6). rewrite E6. cbn [mbind res_bind].
  assert (Sh7 : same_shape hf hf6) by (by rewrite Sh5).
  assert (L6 : forall b : bool, holds_store (if b then set_last_alloc hf6 false id else hf6)
      (put_marked (Store (unset_first_of (target_node o) id (next_rel_target o)
         (unset_first_of (source_node o) id (next_rel_source o) (st_nodes g))) rs) (hf_cache hf5) false id false)).
  { intros [|]; [|done]. apply holds_last; [done|apply I]. }
  eexists. split; [reflexivity|]. split_and!.
  - destruct (id <? _); cbn; apply (sh_nodes _ _ Sh7).
  - destruct (id <? _); cbn; by rewrite (sh_rels _ _ Sh7).
  - intros fk ft. destruct (id <? _); cbn; apply (sh_pages _ _ Sh7).
  - specialize (L6 (id <? last_alloc_rel_id hf6)). by destruct L6 as [A B].
Qed.

Lemma graph_rel hf G x e : graph_file hf G -> g_edges G !! x = Some e ->
  exists g o, holds_store hf g /\ represents g G /\ st_rels g !! x = Some o /\ edge_of o = e.
Proof.
  intros [(g & S & R) _ _] E. rewrite (graph_edge g G x R) in E. apply fmap_Some in E as (o & Eo & ->). by exists g, o.
Qed.

Lemma delete_relationship_graph hf G id log :
  graph_file hf G -> is_Some (g_edges G !! id) -> clean G id ->
  exists hf', delete_relationship hf id log = Ok hf' /\ graph_file hf' (del_edge G id) /\
    forall fk ft, n_pages (hf_cache hf') fk ft = n_pages (hf_cache hf) fk ft.
Proof.
  intros GF [e E] Cl. destruct (graph_rel hf G id e GF E) as (g & o & S & R & Eo & <-).
  destruct (delete_relationship_store hf g G id o log S R Eo) as (hf' & E' & Nn & Nr & Np & S').
  exists hf'. split_and!; [done| |done]. destruct (graph_sizes hf g G S R) as [_ Sz].
  assert (Pos : 0 < Z.of_nat (size (g_edges G))).
  { assert (size (g_edges G) <> 0%nat); [|lia]. intros Z0%map_size_empty_inv. by rewrite Z0, lookup_empty in E. }
  assert (Eq : delete id (if id =? prev_rel_source o then st_rels g else unlink_rels (st_rels g) o) =
               delete id (unlink_rels (st_rels g) o)).
  { destruct (Z.eqb_spec id (prev_rel_source o)) as [Ep|]; [|done]. symmetry.
    assert (As : g_inc G (source_node o) = [id]) by (apply (alone_prev g G id o R Eo); congruence).
    by apply (unlink_alone g G id o R Eo), (Cl _ E). }
  rewrite Eq in S'. split.
  - eexists. split; [exact S'|]. by apply del_edge_represents.
  - cbn. rewrite Nn. apply GF.
  - cbn [del_edge g_edges]. rewrite Nr, (gf_rels _ _ GF), map_size_delete_Some by (rewrite E; eauto).
    rewrite u64_small by (unfold is_u64; lia). lia.
Qed.

(** A relationship that is alone in its source's chain but not in its target's: the deletion
    returns, and what it leaves is the graph of no store. *)
Lemma delete_relationship_unclean hf G id log :
  graph_file hf G -> is_Some (g_edges G !! id) -> ~ clean G id ->
  exists hf', delete_relationship hf id log = Ok hf' /\ forall G', ~ graph_file hf' G'.
Proof.
  intros GF [e E] Cl. destruct (graph_rel hf G id e GF E) as (g & o & S & R & Eo & Ee).
  destruct (delete_relationship_store hf g G id o log S R Eo) as (hf' & E' & _ & _ & _ & S').
  exists hf'. split; [done|]. intros G' [(g' & S'' & R') _ _].
  assert (As : g_inc G (source_node o) = [id] /\ g_inc G (target_node o) <> [id]).
  { split.
    - destruct (decide (g_inc G (source_node o) = [id])) as [|N]; [done|]. exfalso. apply Cl.
      intros e' E'' Hs. rewrite E in E''. injection E'' as <-. by rewrite <- Ee in Hs.
    - intros Ht. apply Cl. intros e' E'' _. rewrite E in E''. injection E'' as <-. by rewrite <- Ee. }
  destruct As as [As At]. rewrite (proj2 (Z.eqb_eq id _)) in S' by (symmetry; by apply (alone_prev g G)).
  destruct (rel_ends g G id o R Eo) as (_ & (t & Et) & _). destruct (rg_chain _ _ R _ t Et) as [C _].
  assert (Hin : id ∈ g_inc G (target_node o)) by (apply C; exists o; split; [done|by right]).
  destruct (not_filtered _ _ _ id C Hin) as (p & h & Hp & _).
  assert (Hne : p <> id) by (intros ->; apply At; apply cycle_self; [apply C|done]).
  pose proof (cycle_fst _ _ _ Hp) as Hpi. apply C in Hpi as (rp & Erp & Tp).
  pose proof (ch_next _ _ _ C _ _ rp Hp Erp) as Nx.
  pose proof (so_rels _ _ (hs_stores _ _ S')) as Q. pose proof (so_rels _ _ (hs_stores _ _ S'')) as Q''.
  pose proof (so_nodes _ _ (hs_stores _ _ S')) as P. pose proof (so_nodes _ _ (hs_stores _ _ S'')) as P''.
  assert (Er' : st_rels g' !! p = Some rp) by (rewrite Q'', <- Q; cbn; by rewrite lookup_delete_ne by congruence).
  assert (Ed' : st_rels g' !! id = None) by (rewrite Q'', <- Q; cbn; apply lookup_delete_eq).
  assert (En' : exists t', st_nodes g' !! target_node o = Some t').
  { rewrite P'', <- P. cbn. unfold unset_first_of. rewrite !lookup_alter_if, Et. simpl. eauto. }
  destruct En' as [t' En']. destruct (rg_chain _ _ R' _ t' En') as [C' _].
  assert (Hp' : p ∈ g_inc G' (target_node o)) by (apply C'; eauto).
  destruct (cycle_succ _ p Hp') as [y Hy]. pose proof (ch_next _ _ _ C' _ _ rp Hy Er') as Nx'.
  rewrite (next_is_unique _ _ _ rp Tp Nx' Nx) in Hy. apply cycle_snd, C' in Hy as (r & Er & _). congruence.
Qed.

(** ** Deleting a node *)

(** The deletions that [delete_node] makes, in its order, each of a clean relationship. *)
Fixpoint clean_seq G (ids : list Z) : Prop :=
  match ids with
  | [] => True
  | id :: ids' => clean G id /\ clean_seq (del_edge G id) ids'
  end.
Definition del_edges G (ids : list Z) : graph := foldl del_edge G ids.

Lemma delete_chain_ok log n : forall l fuel hf G last_id,
  graph_file hf G -> is_Some (g_labels G !! n) -> g_inc G n = l -> clean_seq G (reverse l) ->
  (length l < fuel)%nat -> (l <> [] -> List.last l last_id <> last_id) ->
  exists hf', delete_chain fuel hf n (List.last l last_id) last_id log = Ok hf' /\
    graph_file hf' (del_edges G (reverse l)) /\
    forall fk ft, n_pages (hf_cache hf') fk ft = n_pages (hf_cache hf) fk ft.
Proof.
  induction l as [|c l IH] using rev_ind; intros fuel hf G last_id GF Hn El Cl Hf Hne;
    (destruct fuel as [|fuel]; [simpl in Hf; lia|]); cbn [delete_chain].
  { simpl. rewrite Z.eqb_refl. by exists hf. }
  rewrite last_last in *. rewrite reverse_app in Cl |- *. cbn [reverse rev_append app clean_seq] in Cl. destruct Cl as [Cl1 Cl].
  rewrite (proj2 (Z.eqb_neq _ _)) by (apply Hne; by destruct l).
  pose proof GF as [(g & S & R) _ _]. destruct Hn as [lb Hn]. destruct (store_node g G n lb R Hn) as (node & En & _).
  destruct (rg_chain _ _ R n node En) as [C _]. rewrite El in C.
  assert (Hc : c ∈ l ++ [c]) by set_solver. apply C in Hc as (r & Er & T).
  destruct (read_rel_ok hf g c r log S Er) as (hf1 & E1 & S1 & Sh1). rewrite E1. cbn [mbind res_bind].
  destruct (stored_fine' hf g G c r S R Er) as [_ Ei].
  assert (Hp : exists pr : Z, (pr, c) ∈ cycle (l ++ [c]) /\ pr = List.last l c).
  { exists (List.last l c). split; [|done]. destruct l as [|b l _] using rev_ind; [by apply elem_of_cons; left|].
    rewrite last_last, cycle_snoc, links_app. cbn [links hd]. set_solver. }
  destruct Hp as (pr & Hp & Ep). pose proof (ch_prev _ _ _ C _ _ r Hp Er) as [Pv1 Pv2].
  assert (X : (if n =? source_node r then Ok (prev_rel_source r) else
               if n =? target_node r then Ok (prev_rel_target r) else Exit) = Ok pr).
  { destruct (Z.eqb_spec n (source_node r)) as [->|N1]; [by rewrite Pv1|].
    destruct (Z.eqb_spec n (target_node r)) as [->|N2]; [by rewrite Pv2|]. destruct T; congruence. }
  rewrite X. cbn [mbind res_bind]. rewrite Ei.
  assert (GF1 : graph_file hf1 G).
  { destruct GF as [_ A B]. split; [by exists g|by rewrite (sh_nodes _ _ Sh1)|by rewrite (sh_rels _ _ Sh1)]. }
  destruct (delete_relationship_graph hf1 G c log GF1) as (hf2 & E2 & GF2 & Np2); [rewrite (graph_edge g G c R), Er; eauto|done|].
  rewrite E2. cbn [mbind res_bind]. rewrite Ep.
  assert (El2 : g_inc (del_edge G c) n = l).
  { cbn [del_edge g_inc]. rewrite El. rewrite filter_split by apply C. apply app_nil_r. }
  destruct (IH fuel hf2 (del_edge G c) c GF2) as (hf3 & E3 & GF3 & Np3).
  - by exists lb.
  - done.
  - done.
  - rewrite length_app in Hf. simpl in Hf. lia.
  - intros Hl Hlast. destruct C as [Nd _ _ _]. apply NoDup_app in Nd as (_ & Nd & _). apply (Nd c); [|set_solver].
    destruct l as [|b l _] using rev_ind; [done|]. rewrite last_last in Hlast. set_solver.
  - exists hf3. split_and!; [done|done|]. intros fk ft. rewrite Np3, Np2. apply (sh_pages _ _ Sh1).
Qed.

Lemma del_edges_labels ids : forall G, g_labels (del_edges G ids) = g_labels G.
Proof. induction ids as [|x ids IH]; intros G; [done|]. simpl. by rewrite IH. Qed.
Lemma del_edges_inc ids n x : forall G, x ∈ g_inc (del_edges G ids) n -> x ∈ g_inc G n /\ x ∉ ids.
Proof.
  induction ids as [|y ids IH]; intros G; [set_solver|]. simpl. intros Hx%IH. cbn [del_edge g_inc] in Hx.
  rewrite list_elem_of_filter in Hx. set_solver.
Qed.

Lemma del_node_represents g G n node : represents g G -> st_nodes g !! n = Some node -> g_inc G n = [] ->
  represents (put_node g n None) (del_node G n).
Proof.
  intros R En El. split; cbn [put_node st_nodes st_rels del_node g_labels g_edges g_inc].
  - rewrite <- (rg_labels _ _ R). apply map_eq. intros y. rewrite lookup_fmap, lookup_partial_alter, lookup_delete.
    case_decide; [done|]. by rewrite lookup_fmap.
  - apply R.
  - intros y nd. rewrite lookup_partial_alter. case_decide; [done|]. apply R.
  - intros x e E. destruct (rg_ends _ _ R x e E) as (A & B & W). rewrite (graph_edge g G x R) in E.
    apply fmap_Some in E as (r & Er & ->). destruct (rg_chain _ _ R n node En) as [C _].
    assert (N : ~ touches n r).
    { intros T. assert (Hx : x ∈ g_inc G n) by (apply C; eauto). rewrite El in Hx. by apply elem_of_nil in Hx. }
    rewrite !lookup_delete_ne; [done|..]; intros ->; apply N; [by right|by left].
  - apply R.
Qed.

Lemma delete_node_graph hf G n log :
  graph_file hf G -> is_Some (g_labels G !! n) -> clean_seq G (reverse (g_inc G n)) ->
  exists hf', delete_node hf n log = Ok hf' /\ graph_file hf' (del_node (del_edges G (reverse (g_inc G n))) n).
Proof.
  intros GF Hn Cl. pose proof GF as [(g & S & R) Nn Nr]. destruct Hn as [lb Hn].
  destruct (store_node g G n lb R Hn) as (node & En & _). unfold delete_node.
  rewrite (id_initialized hf g true n S) by (apply (has_in_file hf g true n S); by eapply has_node).
  destruct (read_node_internal_ok hf g n node true log S En) as (hf1 & E1 & S1 & Sh1). rewrite E1. cbn [mbind res_bind].
  destruct (rg_chain _ _ R n node En) as [C F]. rewrite F. set (G2 := del_edges G (reverse (g_inc G n))).
  assert (X : exists hf2, (if hd UNINITIALIZED_LONG (g_inc G n) =? UNINITIALIZED_LONG then Ok hf1
      else '(rel, hf) ← read_relationship hf1 (hd UNINITIALIZED_LONG (g_inc G n)) log;
           delete_chain (Datatypes.S (scan_fuel hf false)) hf n (prev_id n rel) UNINITIALIZED_LONG log) = Ok hf2 /\
      graph_file hf2 G2 /\ forall fk ft, n_pages (hf_cache hf2) fk ft = n_pages (hf_cache hf) fk ft).
  { assert (GF1 : graph_file hf1 G) by (split; [by exists g|by rewrite (sh_nodes _ _ Sh1)|by rewrite (sh_rels _ _ Sh1)]).
    unfold G2. destruct (g_inc G n) as [|h l] eqn:El; cbn [hd].
    { exists hf1. split_and!; [done|done|apply (sh_pages _ _ Sh1)]. }
    destruct (first_prev g G n node h l R En El) as (r & Er & Ep & T).
    assert (Hu : h <> UNINITIALIZED_LONG) by (intros ->; by rewrite (rg_uninit _ _ R) in Er).
    rewrite (proj2 (Z.eqb_neq _ _) Hu).
    destruct (read_rel_ok hf1 g h r log S1 Er) as (hf2 & E2 & S2 & Sh2). rewrite E2. cbn [mbind res_bind]. rewrite Ep.
    assert (GF2 : graph_file hf2 G).
    { destruct GF1 as [_ A B]. split; [by exists g|by rewrite (sh_nodes _ _ Sh2)|by rewrite (sh_rels _ _ Sh2)]. }
    assert (Lst : List.last (h :: l) h = List.last (h :: l) UNINITIALIZED_LONG).
    { clear. destruct l as [|b l _] using rev_ind; [done|]. by rewrite app_comm_cons, !last_last. }
    rewrite Lst. destruct (delete_chain_ok log n (h :: l) (Datatypes.S (scan_fuel hf2 false)) hf2 G UNINITIALIZED_LONG GF2)
      as (hf3 & E3 & GF3 & Np3); [by exists lb|done|done| | |].
    - assert (B : Z.of_nat (length (h :: l)) <= pages_of hf2 false * SLOTS_PER_PAGE).
      { eapply (ids_slots hf2 g false); [done|apply C|]. apply Forall_forall. intros x (r' & Ex & _)%C.
        eapply has_in_file; [done|]. by eapply has_rel. }
      unfold scan_fuel. lia.
    - intros _. rewrite <- Lst. intros Eq. assert (Hin : List.last (h :: l) h ∈ h :: l).
      { destruct (prev_cases h l) as [[-> _]|[? _]]; set_solver. }
      rewrite Eq in Hin. apply C in Hin as (r' & Er' & _). by rewrite (rg_uninit _ _ R) in Er'.
    - exists hf3. split_and!; [done|done|]. intros fk ft. rewrite Np3, (sh_pages _ _ Sh2). apply (sh_pages _ _ Sh1). }
  destruct X as (hf2 & E2 & [(g2 & S2 & R2) Nn2 Nr2] & Np2). rewrite E2. cbn [mbind res_bind].
  assert (Hn2 : g_labels G2 !! n = Some lb) by (unfold G2; by rewrite del_edges_labels).
  destruct (store_node g2 G2 n lb R2 Hn2) as (node2 & En2 & _).
  assert (Inc2 : g_inc G2 n = []).
  { destruct (g_inc G2 n) as [|x l] eqn:Ex; [done|]. exfalso.
    assert (Hx : x ∈ g_inc G2 n) by (rewrite Ex; set_solver). apply del_edges_inc in Hx as [Hx Hx'].
    by rewrite elem_of_reverse in Hx'. }
  apply (holds_log _ _ log [LStr "delete_node"; LNum n; LNum (n_label node)]) in S2. set (hf3 := hf_log_when _ _ hf2) in *.
  assert (I3 : in_file (hf_cache hf3) true n) by (apply (has_in_file hf3 g2 true n S2); by eapply has_node).
  destruct (mark_slots_ok hf3 g2 true n false log S2 I3) as (hf4 & E4 & S4 & Sh4). rewrite E4. cbn [mbind res_bind].
  destruct (graph_sizes hf3 g2 G2 S2 R2) as [Sz _].
  assert (Pos : 0 < Z.of_nat (size (g_labels G2))).
  { assert (size (g_labels G2) <> 0%nat); [|lia]. intros Z0%map_size_empty_inv. by rewrite Z0, lookup_empty in Hn2. }
  assert (L4 : forall b : bool, holds_store (if b then set_last_alloc hf4 true n else hf4) (put_node g2 n None)).
  { intros [|]; [|done]. apply holds_last; [done|apply I3]. }
  eexists. split; [reflexivity|]. split.
  - exists (put_node g2 n None). split; [|by eapply del_node_represents].
    specialize (L4 (n <? last_alloc_node_id hf4)). by destruct L4 as [A B].
  - assert (Hn4 : n_nodes hf4 = Z.of_nat (size (g_labels G2))) by (rewrite (sh_nodes _ _ Sh4); exact Nn2).
    cbn [del_node g_labels]. rewrite map_size_delete_Some by (rewrite Hn2; eauto).
    destruct (n <? _); cbn; rewrite Hn4, u64_small by (unfold is_u64; lia); lia.
  - cbn [del_node g_edges]. rewrite <- Nr2. destruct (n <? _); cbn; by rewrite (sh_rels _ _ Sh4).
Qed.
End Delete.
