(* ===== verification/Traversal.v ===== *)
(** Traversal of a node's relationships: the next relationship in a direction, the list of
    all of them, and the search for an edge between two nodes, on a heap file that
    represents a graph.

    [pick G p l] are the relationships of the list whose edge satisfies [p]; walking along
    the chain of a node and filtering by direction is walking along [pick]. *)

From S2P Require Import Prelude Constants LinkedList HTable ArrayList DiskFile PhysicalDatabase Page PageCache PageCacheInv HeaderPage Records HeapFile HeapFileInv HeapRecords HeapStore Chains Incidence HeapDelete.
From Stdlib Require Import ZArith Lia.
From stdpp Require Import base list list_numbers option fin_maps gmap strings.

#[local] Open Scope Z_scope.

Definition dir_edge (n : Z) (d : direction_t) (e : edge) : bool :=
  ((e_source e =? n) && negb (bool_decide (d = INCOMING)))
  || ((e_target e =? n) && negb (bool_decide (d = OUTGOING))).

(** The edge leads from one node to the other, or back, as the direction asks. *)
Definition joins (from to : Z) (d : direction_t) (e : edge) : bool :=
  (negb (bool_decide (d = INCOMING)) && (e_source e =? from) && (e_target e =? to))
  || (negb (bool_decide (d = OUTGOING)) && (e_source e =? to) && (e_target e =? from)).

Definition sel (G : graph) (p : edge -> bool) (x : Z) : bool :=
  match g_edges G !! x with Some e => p e | None => false end.
Definition pick (G : graph) (p : edge -> bool) (l : list Z) : list Z := List.filter (sel G p) l.

Lemma joins_dir from to d e : joins from to d e = true -> dir_edge from d e = true.
Proof.
  unfold joins, dir_edge. destruct (bool_decide (d = INCOMING)), (bool_decide (d = OUTGOING)),
    (e_source e =? from), (e_target e =? to), (e_source e =? to), (e_target e =? from); done.
Qed.

Section Traversal.
Context `{RecordPages}.
Implicit Types (hf : heap_file) (g : store) (G : graph) (log : bool) (r : relationship_t) (x y id n : Z) (d : direction_t).

Lemma pick_cons G p x l : pick G p (x :: l) = if sel G p x then x :: pick G p l else pick G p l.
Proof. done. Qed.
Lemma pick_app G p l1 l2 : pick G p (l1 ++ l2) = pick G p l1 ++ pick G p l2.
Proof. apply List.filter_app. Qed.
Lemma pick_elem G p l x : x ∈ pick G p l <-> x ∈ l /\ sel G p x = true.
Proof. unfold pick. rewrite !list_elem_of_In. apply List.filter_In. Qed.
Lemma pick_nodup G p l : NoDup l -> NoDup (pick G p l).
Proof. rewrite !NoDup_ListNoDup. apply List.NoDup_filter. Qed.
Lemma pick_length G p l : (length (pick G p l) <= length l)%nat.
Proof. apply List.filter_length_le. Qed.

Lemma sel_rel g G p x r : represents g G -> st_rels g !! x = Some r -> sel G p x = p (edge_of r).
Proof. intros R E. unfold sel. by rewrite (graph_edge g G x R), E. Qed.

(** A relationship chosen from a chain lies between those chosen before and after. *)
Lemma pick_split G p l f1 y f2 : pick G p l = f1 ++ y :: f2 ->
  exists l1 l2, l = l1 ++ y :: l2 /\ pick G p l1 = f1 /\ pick G p l2 = f2.
Proof.
  revert f1. induction l as [|x l IH]; intros f1 E; [by destruct f1|].
  rewrite pick_cons in E. destruct (sel G p x) eqn:Ex.
  - destruct f1 as [|z f1]; injection E as -> E.
    + by exists [], l.
    + destruct (IH f1 E) as (l1 & l2 & -> & E1 & E2). exists (z :: l1), l2.
      split_and!; [done| |done]. by rewrite pick_cons, Ex, E1.
  - destruct (IH f1 E) as (l1 & l2 & -> & E1 & E2). exists (x :: l1), l2.
    split_and!; [done| |done]. by rewrite pick_cons, Ex.
Qed.

(** ** The next relationship *)

Section Node.
Context (g : store) (G : graph) (n : Z) (node : node_t) (d : direction_t) (log : bool).
Hypothesis R : represents g G.
Hypothesis En : st_nodes g !! n = Some node.
Let P := dir_edge n d.

Lemma inc_nodup : NoDup (g_inc G n).
Proof. apply (rg_chain _ _ R n node En). Qed.

Lemma inc_rel x : x ∈ g_inc G n -> exists r, st_rels g !! x = Some r /\ touches n r /\
  has_direction n d r = sel G P x.
Proof.
  intros Hx. destruct (chain_rel g G n node x R En Hx) as (r & E & T). exists r. split_and!; [done|done|].
  by rewrite (sel_rel g G P x r R E).
Qed.

Lemma inc_not_uninit x : x ∈ g_inc G n -> x <> UNINITIALIZED_LONG.
Proof. intros Hx ->. destruct (inc_rel _ Hx) as (r & E & _). by rewrite (rg_uninit _ _ R) in E. Qed.

Lemma inc_next x y r : (x, y) ∈ cycle (g_inc G n) -> st_rels g !! x = Some r -> touches n r -> next_id n r = Ok y.
Proof.
  intros Hc E T. destruct (rg_chain _ _ R n node En) as [C _]. destruct (ch_next _ _ _ C x y r Hc E) as [N1 N2].
  unfold next_id. destruct (Z.eqb_spec n (source_node r)) as [->|D1]; [by rewrite N1|].
  destruct (Z.eqb_spec n (target_node r)) as [->|D2]; [by rewrite N2|]. destruct T; congruence.
Qed.

Lemma inc_length hf : holds_store hf g -> Z.of_nat (length (g_inc G n)) <= pages_of hf false * SLOTS_PER_PAGE.
Proof.
  intros S. eapply (ids_slots hf g false); [done|apply inc_nodup|]. apply Forall_forall.
  intros x Hx. destruct (inc_rel x Hx) as (r & E & _). eapply has_in_file; [done|]. by eapply has_rel.
Qed.

Lemma next_loop_ok start k : forall k2 fuel hf,
  holds_store hf g -> g_inc G n ≡ₚ start :: k -> (forall x y, (x, y) ∈ links (start :: k) start -> (x, y) ∈ cycle (g_inc G n)) ->
  (exists k1, k = k1 ++ k2) -> (k2 = [] -> k = []) -> (length k2 < fuel)%nat ->
  exists hf', next_relationship_loop fuel hf n start (hd start k2) d log = Ok (hd UNINITIALIZED_LONG (pick G P k2), hf') /\
    holds_store hf' g /\ same_shape hf hf'.
Proof.
  induction k2 as [|y k2 IH]; intros fuel hf S Pm Lk [k1 Ek] Hk Hf; (destruct fuel as [|fuel]; [simpl in Hf; lia|]);
    cbn [next_relationship_loop hd].
  - rewrite (Hk eq_refl) in *. clear Hk Ek k1. assert (Hs : start ∈ g_inc G n) by (rewrite Pm; set_solver).
    destruct (inc_rel start Hs) as (r & Er & T & _).
    destruct (read_rel_ok hf g start r log S Er) as (hf1 & E1 & S1 & Sh1). rewrite E1. cbn [mbind res_bind].
    rewrite Z.eqb_refl. cbn [negb andb]. rewrite (inc_next start start r) by (done || apply Lk; set_solver).
    cbn [mbind res_bind]. rewrite Z.eqb_refl. by exists hf1.
  - assert (Nd : NoDup (start :: k)) by (rewrite <- Pm; apply inc_nodup). apply NoDup_cons in Nd as [Ns Nd].
    assert (Hy : y ∈ k) by (rewrite Ek; set_solver). assert (Hy' : y ∈ g_inc G n) by (rewrite Pm; set_solver).
    destruct (inc_rel y Hy') as (r & Er & T & Hd).
    destruct (read_rel_ok hf g y r log S Er) as (hf1 & E1 & S1 & Sh1). rewrite E1. cbn [mbind res_bind].
    rewrite (proj2 (Z.eqb_neq y start)) by congruence. cbn [negb andb]. rewrite Hd, pick_cons.
    destruct (sel G P y) eqn:Sy.
    + destruct (stored_rel hf g y r S Er) as (-> & _). by exists hf1.
    + rewrite (inc_next y (hd start k2) r); [|apply Lk|done|done].
      2:{ rewrite Ek. cbn [links]. apply elem_of_cons. right. rewrite links_app. apply elem_of_app. right. set_solver. }
      cbn [mbind res_bind]. destruct k2 as [|z k2].
      * cbn [hd]. rewrite Z.eqb_refl. by exists hf1.
      * cbn [hd]. assert (Hz : z ∈ k) by (rewrite Ek; set_solver).
        rewrite (proj2 (Z.eqb_neq z start)) by congruence.
        destruct (IH fuel hf1 S1 Pm Lk) as (hf2 & E2 & S2 & Sh2); [exists (k1 ++ [y]); by rewrite <- app_assoc|done|simpl in *; lia|].
        exists hf2. split_and!; [exact E2|done|by rewrite Sh1].
Qed.

Lemma next_relationship_ok hf l1 x l2 r : holds_store hf g -> g_inc G n = l1 ++ x :: l2 -> st_rels g !! x = Some r ->
  exists hf', next_relationship_id hf n r d log = Ok (hd UNINITIALIZED_LONG (pick G P (l2 ++ l1)), hf') /\
    holds_store hf' g /\ same_shape hf hf'.
Proof.
  intros S El Er. unfold next_relationship_id.
  rewrite (id_initialized hf g true n S) by (apply (has_in_file hf g true n S); by eapply has_node).
  assert (Hx : x ∈ g_inc G n) by (rewrite El; set_solver).
  destruct (inc_rel x Hx) as (r' & Er' & T & _). assert (r' = r) as -> by congruence.
  assert (Lk : forall a b, (a, b) ∈ links (x :: l2 ++ l1) x -> (a, b) ∈ cycle (g_inc G n)).
  { intros a b Hab. rewrite El, cycle_rotate. exact Hab. }
  rewrite (inc_next x (hd x (l2 ++ l1)) r); [|apply Lk; cbn [links]; set_solver|done|done]. cbn [mbind res_bind].
  destruct (stored_rel hf g x r S Er) as (-> & _).
  apply (next_loop_ok x (l2 ++ l1)); try done.
  - rewrite El. rewrite Permutation_app_comm. done.
  - by exists [].
  - pose proof (inc_length hf S) as B. rewrite El, !length_app in B. simpl in B. rewrite length_app. unfold scan_fuel. lia.
Qed.

(** The successor among the chosen ones, in the chain's cyclic order. *)
Lemma next_picked_ok hf f1 y f2 r : holds_store hf g -> pick G P (g_inc G n) = f1 ++ y :: f2 -> st_rels g !! y = Some r ->
  exists hf', next_relationship_id hf n r d log = Ok (hd UNINITIALIZED_LONG (f2 ++ f1), hf') /\
    holds_store hf' g /\ same_shape hf hf'.
Proof.
  intros S Ef Er. apply pick_split in Ef as (l1 & l2 & El & <- & <-). rewrite <- pick_app.
  by apply (next_relationship_ok hf l1 y l2).
Qed.

(** The first chosen one, from the first of the chain. *)
Lemma first_picked_ok hf h l r : holds_store hf g -> g_inc G n = h :: l -> st_rels g !! h = Some r ->
  exists hf', (if has_direction n d r then Ok (h, hf) else next_relationship_id hf n r d log) =
      Ok (hd UNINITIALIZED_LONG (pick G P (g_inc G n)), hf') /\ holds_store hf' g /\ same_shape hf hf'.
Proof.
  intros S El Er. destruct (inc_rel h) as (r' & Er' & _ & Hd); [rewrite El; set_solver|].
  assert (r' = r) as -> by congruence. rewrite Hd, El, pick_cons. destruct (sel G P h).
  - by exists hf.
  - destruct (next_relationship_ok hf [] h l r S El Er) as (hf' & E & R'). rewrite app_nil_r in E. by exists hf'.
Qed.

(** ** All relationships of a node *)

Lemma expand_loop_ok f : pick G P (g_inc G n) = f -> forall f2 f1 fuel hf res_ xs,
  holds_store hf g -> f = f1 ++ f2 -> al_appended res_ xs -> r_id <$> xs = f1 ->
  Forall (fun r => st_rels g !! r_id r = Some r) xs -> (f2 = [] -> f = []) -> (length f2 + 1 < fuel)%nat ->
  exists l ys hf', expand_loop fuel hf n (hd UNINITIALIZED_LONG f) (hd UNINITIALIZED_LONG f2) d res_ log = Ok (l, hf') /\
    al_appended l ys /\ r_id <$> ys = f /\ Forall (fun r => st_rels g !! r_id r = Some r) ys /\
    holds_store hf' g /\ same_shape hf hf'.
Proof.
  intros Ef. assert (Nd : NoDup f) by (rewrite <- Ef; apply pick_nodup, inc_nodup).
  induction f2 as [|y f2 IH]; intros f1 fuel hf res_ xs S Efs Al Ex Fx Hf2 Hfu; (destruct fuel as [|fuel]; [lia|]);
    cbn [expand_loop hd].
  { rewrite Z.eqb_refl. exists res_, xs, hf. split_and!; try done. by rewrite Ex, Efs, app_nil_r. }
  assert (Hy : y ∈ g_inc G n).
  { assert (Hy : y ∈ f) by (rewrite Efs; set_solver). rewrite <- Ef in Hy. by apply pick_elem in Hy as [? _]. }
  rewrite (proj2 (Z.eqb_neq y UNINITIALIZED_LONG)) by (by apply inc_not_uninit).
  destruct (inc_rel y Hy) as (r & Er & _).
  destruct (read_rel_ok hf g y r log S Er) as (hf1 & E1 & S1 & Sh1). rewrite E1. cbn [mbind res_bind].
  destruct (stored_rel hf g y r S Er) as (Ei & _).
  assert (Lx : Z.of_nat (length xs) < 2 ^ 59).
  { assert (B : (length xs <= length (g_inc G n))%nat).
    { rewrite <- (length_fmap r_id xs), Ex. transitivity (length f); [rewrite Efs, length_app; lia|].
      rewrite <- Ef. apply pick_length. }
    assert (Bi : Z.of_nat (length (g_inc G n)) < 2 ^ 59); [|lia].
    eapply (ids_bound hf g false); [done|apply inc_nodup|]. apply Forall_forall.
    intros x Hx. destruct (inc_rel x Hx) as (rx & Ex' & _). eapply has_in_file; [done|]. by eapply has_rel. }
  destruct (array_append_ok res_ xs r Al Lx) as (l' & El & Al'). rewrite El. cbn [mbind res_bind].
  destruct (next_picked_ok hf1 f1 y f2 r S1) as (hf2 & E2 & S2 & Sh2); [by rewrite Ef|done|]. rewrite E2. cbn [mbind res_bind].
  assert (Ex' : r_id <$> xs ++ [r] = f1 ++ [y]) by (rewrite fmap_app, Ex; simpl; by rewrite Ei).
  assert (Fx' : Forall (fun r => st_rels g !! r_id r = Some r) (xs ++ [r])).
  { apply Forall_app. split; [done|]. apply Forall_singleton. by rewrite Ei. }
  destruct f2 as [|z f2].
  - cbn [app]. destruct f1 as [|h f1].
    + rewrite Efs. cbn [app hd]. rewrite (proj2 (Z.eqb_neq UNINITIALIZED_LONG y)) by (intros Hu; by apply (inc_not_uninit y Hy)).
      destruct fuel as [|fuel]; [simpl in Hfu; lia|]. cbn [expand_loop]. rewrite Z.eqb_refl.
      exists l', (xs ++ [r]), hf2. split_and!; [done|done|by rewrite Ex'|done|done|by rewrite Sh1].
    + rewrite Efs. cbn [hd app]. rewrite Z.eqb_refl. exists l', (xs ++ [r]), hf2.
      split_and!; [done|done|by rewrite Ex'|done|done|by rewrite Sh1].
  - cbn [app hd]. assert (Hz : hd UNINITIALIZED_LONG f <> z).
    { rewrite Efs in Nd |- *. destruct f1 as [|h f1]; cbn [app hd] in *; apply NoDup_cons in Nd as [Nd _]; set_solver. }
    rewrite (proj2 (Z.eqb_neq z _)) by congruence.
    destruct (IH (f1 ++ [y]) fuel hf2 l' (xs ++ [r]) S2) as (l2 & ys & hf3 & E3 & A3 & I3 & F3 & S3 & Sh3);
      [by rewrite <- app_assoc|done..|simpl in *; lia|].
    exists l2, ys, hf3. split_and!; [exact E3|done|done|done|done|by rewrite Sh1, Sh2].
Qed.

Lemma expand_ok hf : holds_store hf g ->
  exists l xs hf', expand hf n d log = Ok (l, hf') /\ al_appended l xs /\
    r_id <$> xs = pick G P (g_inc G n) /\ Forall (fun r => st_rels g !! r_id r = Some r) xs /\
    holds_store hf' g /\ same_shape hf hf'.
Proof.
  intros S. unfold expand. destruct (read_node_ok hf g n node log S En) as (hf1 & E1 & S1 & Sh1).
  rewrite E1. cbn [mbind res_bind]. destruct (rg_chain _ _ R n node En) as [C F]. rewrite F.
  destruct (g_inc G n) as [|h l] eqn:El; cbn [hd].
  { rewrite Z.eqb_refl. exists array_list_create, [], hf1. split_and!; [done|apply array_create_appended|done..]. }
  rewrite <- El. destruct (inc_rel h) as (r & Er & _ & Hd); [rewrite El; set_solver|].
  rewrite (proj2 (Z.eqb_neq h _)) by (apply inc_not_uninit; rewrite El; set_solver).
  destruct (read_rel_ok hf1 g h r log S1 Er) as (hf2 & E2 & S2 & Sh2). rewrite E2. cbn [mbind res_bind].
  destruct (first_picked_ok hf2 h l r S2 El Er) as (hf3 & E3 & S3 & Sh3). rewrite E3. cbn [mbind res_bind].
  destruct (expand_loop_ok (pick G P (g_inc G n)) eq_refl (pick G P (g_inc G n)) [] (Datatypes.S (scan_fuel hf3 false)) hf3
    array_list_create [] S3) as (l' & ys & hf4 & E4 & A4 & I4 & F4 & S4 & Sh4);
    [done|apply array_create_appended|done|done|done| |].
  - pose proof (inc_length hf3 S3). pose proof (pick_length G P (g_inc G n)). unfold scan_fuel. lia.
  - exists l', ys, hf4. split_and!; [exact E4|done|done|done|done|by rewrite Sh1, Sh2, Sh3].
Qed.

(** ** Searching an edge *)

Context (to : Z).
Let J := joins n to d.

Lemma sel_joins x : sel G J x = true -> sel G P x = true.
Proof. unfold sel. destruct (g_edges G !! x); [apply joins_dir|done]. Qed.

Lemma pick_joins l : pick G J (pick G P l) = pick G J l.
Proof.
  induction l as [|x l IH]; [done|]. rewrite pick_cons. destruct (sel G P x) eqn:Ep.
  - by rewrite !pick_cons, IH.
  - rewrite pick_cons, IH. destruct (sel G J x) eqn:Ej; [|done]. apply sel_joins in Ej. congruence.
Qed.

(** What the search returns on a list of relationships. *)
Definition search_result (l : list Z) (o : option relationship_t) : Prop :=
  match o with
  | Some r => st_rels g !! r_id r = Some r /\ head (pick G J l) = Some (r_id r)
  | None => pick G J l = []
  end.

(** One round of the loop at a stored relationship. *)
Lemma contains_round fuel hf start y r : holds_store hf g -> st_rels g !! y = Some r ->
  exists hf1, holds_store hf1 g /\ same_shape hf hf1 /\
    contains_loop (Datatypes.S fuel) hf n to start y d log =
      if sel G J y then Ok (Some r, hf1)
      else '(next, hf) ← next_relationship_id hf1 n r d log;
           if negb (next =? start) && negb (next =? UNINITIALIZED_LONG)
           then contains_loop fuel hf n to start next d log else Ok (None, hf).
Proof.
  intros S Er. destruct (read_rel_ok hf g y r log S Er) as (hf1 & E1 & S1 & Sh1).
  exists hf1. split_and!; [done|done|]. cbn [contains_loop]. rewrite E1. cbn [mbind res_bind].
  by rewrite (sel_rel g G J y r R Er).
Qed.

Lemma contains_loop_ok start f : pick G P (g_inc G n) = f -> (start ∈ f -> start = hd UNINITIALIZED_LONG f) ->
  forall f2 f1 fuel hf, holds_store hf g -> f = f1 ++ f2 -> f2 <> [] ->
  (start = hd UNINITIALIZED_LONG f \/ (f1 = [] /\ length f2 = 1%nat) \/ pick G J f2 <> []) -> (length f2 < fuel)%nat ->
  exists o hf', contains_loop fuel hf n to start (hd UNINITIALIZED_LONG f2) d log = Ok (o, hf') /\
    search_result f2 o /\ holds_store hf' g /\ same_shape hf hf'.
Proof.
  intros Ef Hst. assert (Nd : NoDup f) by (rewrite <- Ef; apply pick_nodup, inc_nodup).
  induction f2 as [|y f2 IH]; intros f1 fuel hf S Efs Hne Hc Hfu; [done|]. destruct fuel as [|fuel]; [lia|]. cbn [hd].
  assert (In : forall z, z ∈ f -> z ∈ g_inc G n) by (intros z Hz; rewrite <- Ef in Hz; by apply pick_elem in Hz as [? _]).
  assert (Hy : y ∈ g_inc G n) by (apply In; rewrite Efs; set_solver).
  destruct (inc_rel y Hy) as (r & Er & _). destruct (stored_rel hf g y r S Er) as (Ei & _).
  destruct (contains_round fuel hf start y r S Er) as (hf1 & S1 & Sh1 & ->).
  destruct (sel G J y) eqn:Ej.
  { exists (Some r), hf1. split_and!; [done| |done|done]. unfold search_result. rewrite pick_cons, Ej. simpl. by rewrite Ei. }
  destruct (next_picked_ok hf1 f1 y f2 r S1) as (hf2 & E2 & S2 & Sh2); [by rewrite Ef|done|]. rewrite E2. cbn [mbind res_bind].
  rewrite pick_cons, Ej in Hc. destruct f2 as [|z f2].
  - exists None, hf2. split_and!; [|unfold search_result; by rewrite pick_cons, Ej|done|by rewrite Sh1].
    cbn [app]. destruct f1 as [|h f1]; cbn [hd]; [by rewrite Z.eqb_refl, andb_false_r|].
    destruct Hc as [->|[[? _]|Hp]]; [|done|done]. rewrite Efs. cbn [hd app]. by rewrite Z.eqb_refl.
  - cbn [app hd]. assert (Hz : z ∈ f) by (rewrite Efs; set_solver).
    assert (Hzs : z <> start).
    { intros ->. specialize (Hst Hz). rewrite Efs in Nd, Hst. destruct f1 as [|h f1]; cbn [app hd] in *;
        apply NoDup_cons in Nd as [Nd _]; set_solver. }
    rewrite (proj2 (Z.eqb_neq _ _) Hzs), (proj2 (Z.eqb_neq z UNINITIALIZED_LONG)) by (by apply inc_not_uninit, In).
    destruct (IH (f1 ++ [y]) fuel hf2 S2) as (o & hf3 & E3 & Ro & S3 & Sh3); [by rewrite <- app_assoc|done| |simpl in *; lia|].
    { destruct Hc as [?|[[_ ?]|?]]; [by left|done|by right; right]. }
    exists o, hf3. split_and!; [exact E3| |done|by rewrite Sh1, Sh2].
    unfold search_result in *. by rewrite pick_cons, Ej.
Qed.

(** From the start of the chain, in the direction or not. *)
Lemma contains_start_ok h l fuel hf : holds_store hf g -> g_inc G n = h :: l ->
  (sel G P h = true \/ (length (pick G P (g_inc G n)) <= 1)%nat \/ pick G J (g_inc G n) <> []) ->
  (length (g_inc G n) < fuel)%nat ->
  exists o hf', contains_loop (Datatypes.S fuel) hf n to h h d log = Ok (o, hf') /\ search_result (g_inc G n) o /\
    holds_store hf' g /\ same_shape hf hf'.
Proof.
  intros S El Hc Hf. set (f := pick G P (g_inc G n)) in *.
  assert (Res : forall o, search_result f o <-> search_result (g_inc G n) o).
  { intros o. unfold search_result, f. by rewrite pick_joins. }
  pose proof (pick_length G P (g_inc G n)) as Lf. fold f in Lf.
  destruct (sel G P h) eqn:Eh.
  - assert (Hd : f = h :: pick G P l) by (unfold f; by rewrite El, pick_cons, Eh).
    destruct (contains_loop_ok h f eq_refl) with (f2 := f) (f1 := @nil Z) (fuel := Datatypes.S fuel) (hf := hf)
      as (o & hf' & E & Ro & S' & Sh'); [by rewrite Hd|done|done|by rewrite Hd|left; by rewrite Hd|lia|].
    exists o, hf'. rewrite Hd in E. cbn [hd] in E. split_and!; [done|by apply Res|done|done].
  - assert (Hd : f = pick G P l) by (unfold f; by rewrite El, pick_cons, Eh).
    destruct (inc_rel h) as (r & Er & _); [rewrite El; set_solver|].
    destruct (contains_round fuel hf h h r S Er) as (hf1 & S1 & Sh1 & ->).
    assert (Ej : sel G J h = false) by (destruct (sel G J h) eqn:Ej; [apply sel_joins in Ej; congruence|done]).
    rewrite Ej. destruct (next_relationship_ok hf1 [] h l r S1 El Er) as (hf2 & E2 & S2 & Sh2).
    rewrite app_nil_r, <- Hd in E2. rewrite E2. cbn [mbind res_bind].
    destruct f as [|y f'] eqn:Ef; cbn [hd].
    + exists None, hf2. rewrite Z.eqb_refl, andb_false_r. split_and!; [done|by apply Res|done|by rewrite Sh1].
    + assert (Hhf : h ∉ y :: f') by (rewrite <- Ef; intros [_ ?]%pick_elem; congruence).
      assert (Hy : y ∈ g_inc G n).
      { assert (Hy : y ∈ pick G P (g_inc G n)) by (fold f; rewrite Ef; set_solver). by apply pick_elem in Hy as [? _]. }
      rewrite (proj2 (Z.eqb_neq y h)) by set_solver. rewrite (proj2 (Z.eqb_neq y _)) by (by apply inc_not_uninit). cbn [negb andb].
      destruct (contains_loop_ok h (y :: f')) with (f2 := y :: f') (f1 := @nil Z) (fuel := fuel) (hf := hf2)
        as (o & hf' & E & Ro & S' & Sh'); [exact Ef|done|done|done|done| |simpl in *; lia|].
      { right. destruct Hc as [?|[Hc|Hc]]; [done|left|right].
        - split; [done|]. simpl in *. lia.
        - rewrite <- (pick_joins (g_inc G n)) in Hc. fold f in Hc. by rewrite Ef in Hc. }
      exists o, hf'. split_and!; [done|by apply Res|done|by rewrite Sh1, Sh2].
Qed.

(** The loop never comes back to a start that is not in the direction. *)
Lemma contains_loop_diverges h : sel G P h = false -> (2 <= length (pick G P (g_inc G n)))%nat ->
  pick G J (g_inc G n) = [] ->
  forall fuel hf y, holds_store hf g -> y ∈ pick G P (g_inc G n) -> contains_loop fuel hf n to h y d log = NoFuel.
Proof.
  intros Eh Hl Hj. induction fuel as [|fuel IH]; intros hf y S Hy; [done|].
  pose proof Hy as [Hyi _]%pick_elem. destruct (inc_rel y Hyi) as (r & Er & _).
  destruct (contains_round fuel hf h y r S Er) as (hf1 & S1 & Sh1 & ->).
  assert (Ej : sel G J y = false).
  { destruct (sel G J y) eqn:Ej; [|done]. assert (Hin : y ∈ pick G J (g_inc G n)) by (by apply pick_elem).
    rewrite Hj in Hin. by apply elem_of_nil in Hin. }
  rewrite Ej. apply list_elem_of_split in Hy as (f1 & f2 & Ef).
  destruct (next_picked_ok hf1 f1 y f2 r S1 Ef Er) as (hf2 & E2 & S2 & Sh2). rewrite E2. cbn [mbind res_bind].
  destruct (f2 ++ f1) as [|z k] eqn:Ek.
  { rewrite Ef, length_app in Hl. simpl in Hl. apply app_nil in Ek as [-> ->]. simpl in Hl. lia. }
  cbn [hd]. assert (Hz : z ∈ pick G P (g_inc G n)).
  { rewrite Ef. assert (Hz : z ∈ f2 ++ f1) by (rewrite Ek; set_solver). set_solver. }
  pose proof Hz as [Hzi Hzs]%pick_elem.
  rewrite (proj2 (Z.eqb_neq z h)) by congruence. rewrite (proj2 (Z.eqb_neq z _)) by (by apply inc_not_uninit). cbn [negb andb].
  by apply IH.
Qed.
End Node.

(** ** Edges between two stored nodes *)

Section Search.
Context (g : store) (G : graph) (from to : Z) (nf nt : node_t) (d : direction_t) (log : bool).
Hypothesis R : represents g G.
Hypothesis Ef : st_nodes g !! from = Some nf.
Hypothesis Et : st_nodes g !! to = Some nt.

(** An edge between the nodes is in both chains. *)
Lemma joins_both x : x ∈ pick G (joins from to d) (g_inc G from) -> x ∈ g_inc G to.
Proof.
  intros [Hx Hs]%pick_elem. destruct (chain_rel g G from nf x R Ef Hx) as (r & Er & _).
  rewrite (sel_rel g G _ x r R Er) in Hs. destruct (rg_chain _ _ R to nt Et) as [C _].
  apply C. exists r. split; [done|]. unfold joins, touches in *. cbn in Hs.
  apply orb_true_iff in Hs as [[[_ _]%andb_true_iff H2%Z.eqb_eq]%andb_true_iff|[[_ H1%Z.eqb_eq]%andb_true_iff _]%andb_true_iff]; auto.
Qed.

(** The checks before the loop, for stored nodes. *)
Lemma contains_entry fuel hf : holds_store hf g ->
  exists hf1, holds_store hf1 g /\ same_shape hf hf1 /\
    contains_relationship_fuel fuel hf from to d log =
      if (hd UNINITIALIZED_LONG (g_inc G from) =? UNINITIALIZED_LONG) || (hd UNINITIALIZED_LONG (g_inc G to) =? UNINITIALIZED_LONG)
      then Ok (None, hf1)
      else contains_loop fuel hf1 from to (hd UNINITIALIZED_LONG (g_inc G from)) (hd UNINITIALIZED_LONG (g_inc G from)) d log.
Proof.
  intros S. unfold contains_relationship_fuel.
  pose proof (has_node g _ _ Ef) as Hf. pose proof (has_node g _ _ Et) as Ht.
  rewrite (id_initialized hf g true from S), (id_initialized hf g true to S) by (by apply (has_in_file hf g)). cbn [orb].
  destruct (check_exists_ok hf g true from log S) as (hf1 & E1 & S1 & Sh1); [by apply (has_in_file hf g)|].
  rewrite E1, Hf. cbn [mbind res_bind negb].
  destruct (check_exists_ok hf1 g true to log S1) as (hf2 & E2 & S2 & Sh2); [by apply (has_in_file hf1 g)|].
  rewrite E2, Ht. cbn [mbind res_bind negb].
  destruct (read_node_internal_ok hf2 g from nf false log S2 Ef) as (hf3 & E3 & S3 & Sh3). rewrite E3. cbn [mbind res_bind].
  destruct (read_node_internal_ok hf3 g to nt false log S3 Et) as (hf4 & E4 & S4 & Sh4). rewrite E4. cbn [mbind res_bind].
  rewrite (proj2 (rg_chain _ _ R from nf Ef)), (proj2 (rg_chain _ _ R to nt Et)).
  eexists. split; [|split; [|reflexivity]]; [by do 2 apply holds_log|].
  do 2 apply shape_log. by rewrite Sh1, Sh2, Sh3.
Qed.

Lemma hd_uninit n node : st_nodes g !! n = Some node ->
  (hd UNINITIALIZED_LONG (g_inc G n) =? UNINITIALIZED_LONG) = bool_decide (g_inc G n = []).
Proof.
  intros En. destruct (g_inc G n) as [|h l] eqn:El; [done|]. cbn [hd]. rewrite bool_decide_false by done.
  apply Z.eqb_neq, (inc_not_uninit g G n node d R En). rewrite El. set_solver.
Qed.

Lemma contains_ok hf : holds_store hf g ->
  ((forall h, head (g_inc G from) = Some h -> sel G (dir_edge from d) h = true) \/
   (length (pick G (dir_edge from d) (g_inc G from)) <= 1)%nat \/ pick G (joins from to d) (g_inc G from) <> []) ->
  exists o hf', contains_relationship_from_to hf from to d log = Ok (o, hf') /\
    search_result g G from d to (g_inc G from) o /\ holds_store hf' g /\ same_shape hf hf'.
Proof.
  intros S Hc. unfold contains_relationship_from_to.
  destruct (contains_entry (Datatypes.S (scan_fuel hf false)) hf S) as (hf1 & S1 & Sh1 & ->).
  rewrite (hd_uninit from nf Ef), (hd_uninit to nt Et).
  destruct (bool_decide (g_inc G from = [])) eqn:Bf.
  { apply bool_decide_eq_true in Bf. exists None, hf1. split_and!; [done| |done|done]. cbn. by rewrite Bf. }
  destruct (bool_decide (g_inc G to = [])) eqn:Bt; cbn [orb].
  { apply bool_decide_eq_true in Bt. exists None, hf1. split_and!; [done| |done|done]. cbn.
    destruct (pick G (joins from to d) (g_inc G from)) as [|x l] eqn:Ex; [done|]. exfalso.
    assert (Hx : x ∈ g_inc G to) by (apply joins_both; rewrite Ex; set_solver). rewrite Bt in Hx. by apply elem_of_nil in Hx. }
  destruct (g_inc G from) as [|h l] eqn:El; [done|]. cbn [hd]. rewrite <- El in *.
  destruct (contains_start_ok g G from nf d log R Ef to h l (scan_fuel hf false) hf1 S1 El) as (o & hf2 & E2 & Ro & S2 & Sh2).
  - destruct Hc as [Hc|[Hc|Hc]]; [left; apply Hc; by rewrite El|by right; left|by right; right].
  - pose proof (inc_length g G from nf d R Ef hf S). unfold scan_fuel. lia.
  - exists o, hf2. split_and!; [exact E2|done|done|by rewrite Sh1].
Qed.

Lemma contains_diverges hf h : holds_store hf g ->
  head (g_inc G from) = Some h -> sel G (dir_edge from d) h = false ->
  (2 <= length (pick G (dir_edge from d) (g_inc G from)))%nat -> pick G (joins from to d) (g_inc G from) = [] ->
  g_inc G to <> [] ->
  forall fuel, contains_relationship_fuel fuel hf from to d log = NoFuel.
Proof.
  intros S Hh Es Hl Hj Ht fuel. destruct (contains_entry fuel hf S) as (hf1 & S1 & Sh1 & ->).
  destruct (g_inc G from) as [|h' l] eqn:El; [done|]. injection Hh as ->. rewrite <- El in *.
  rewrite (hd_uninit from nf Ef), (hd_uninit to nt Et), !bool_decide_false by (done || by rewrite El). cbn [orb].
  rewrite El at 1 2. cbn [hd]. destruct fuel as [|fuel]; [done|].
  destruct (inc_rel g G from nf d R Ef h) as (r & Er & _); [rewrite El; set_solver|].
  destruct (contains_round g G from d log R to fuel hf1 h h r S1 Er) as (hf2 & S2 & Sh2 & ->).
  assert (Ej : sel G (joins from to d) h = false).
  { destruct (sel G (joins from to d) h) eqn:Ej; [|done]. apply sel_joins in Ej. congruence. }
  rewrite Ej. destruct (next_relationship_ok g G from nf d log R Ef hf2 [] h l r S2 El Er) as (hf3 & E3 & S3 & Sh3).
  assert (Hp : pick G (dir_edge from d) (g_inc G from) = pick G (dir_edge from d) l) by (by rewrite El, pick_cons, Es).
  rewrite E3, app_nil_r, <- Hp. cbn [mbind res_bind].
  destruct (pick G (dir_edge from d) (g_inc G from)) as [|y f] eqn:Ef'; [simpl in Hl; lia|]. cbn [hd].
  assert (Hy : y ∈ pick G (dir_edge from d) (g_inc G from)) by (rewrite Ef'; set_solver).
  pose proof Hy as [Hyi Hys]%pick_elem.
  rewrite (proj2 (Z.eqb_neq y h)) by congruence.
  rewrite (proj2 (Z.eqb_neq y _)) by (by apply (inc_not_uninit g G from nf d R Ef)). cbn [negb andb].
  apply (contains_loop_diverges g G from nf d log R Ef to h Es); try done. by rewrite Ef'.
Qed.
End Search.
End Traversal.
