(* ===== verification/HeapProps.v ===== *)
(** Properties of the heap file: the record layer refines a pair of finite maps, and the
    relationship layer a graph whose nodes keep their relationships in insertion order.

    The sample heap files of the witnesses are built with the operations themselves, from a
    new database with the page size of the target platform. *)

From S2P Require Import Prelude Constants LinkedList HTable ArrayList DiskFile PhysicalDatabase Page PageCache PageCacheInv HeaderPage Records HeapFile HeapFileInv HeapRecords HeapStore Chains Incidence HeapDelete Traversal.
From Stdlib Require Import ZArith Lia Sorting.Sorted.
From stdpp Require Import base list list_numbers option fin_maps gmap strings.

#[local] Open Scope Z_scope.

(** ** Samples *)

Section Samples.
Context `{RecordPages}.
Implicit Types (hf : heap_file) (g : store) (G : graph) (log : bool).

(** A heap file for the graph with room for [k] more allocations of each kind. *)
Definition sample G (k : Z) hf : Prop := graph_file hf G /\ forall node, room hf node k.

Lemma sample_node hf G k lb : sample G (k + 1) hf -> 0 <= k -> is_u64 lb ->
  exists id hf', create_node hf lb true = Ok (id, hf') /\ g_labels G !! id = None /\ sample (add_node G id lb) k hf'.
Proof.
  intros [GF Rm] Hk U. pose proof rp_min.
  assert (R1 : room hf true 1) by (destruct (Rm true); split; nia).
  destruct (create_node_graph hf G lb true GF R1 U) as (id & hf' & E & Fr & GF' & Gr).
  exists id, hf'. split_and!; [done|done|]. split; [done|]. intros [|]; [by apply (grown_room hf)|].
  apply (grown_other hf hf' true false); [done|done|]. destruct (Rm false). split; nia.
Qed.

Lemma sample_edge hf G k from to w lb : sample G (k + 1) hf -> 0 <= k -> is_Some (g_labels G !! from) ->
  is_Some (g_labels G !! to) -> is_u64 w -> is_u64 lb -> double_eqb w UNINITIALIZED_WEIGHT = false ->
  exists id hf', create_relationship hf from to w lb true = Ok (id, hf') /\ g_edges G !! id = None /\
    sample (add_edge G id (Edge from to w lb)) k hf'.
Proof.
  intros [GF Rm] Hk Hf Ht Uw Ul W. pose proof rp_min.
  assert (R1 : room hf false 1) by (destruct (Rm false); split; nia).
  destruct (create_relationship_graph hf G from to w lb true GF R1 Hf Ht Uw Ul W) as (id & hf' & E & Fr & GF' & Gr).
  exists id, hf'. split_and!; [done|done|]. split; [done|]. intros [|]; [|by apply (grown_room hf)].
  apply (grown_other hf hf' false true); [done|done|]. destruct (Rm true). split; nia.
Qed.

Lemma graph_of_store hf g G : holds_store hf g -> represents g G ->
  n_nodes hf = Z.of_nat (size (st_nodes g)) -> n_rels hf = Z.of_nat (size (st_rels g)) -> graph_file hf G.
Proof.
  intros S R A B. split; [by exists g|..].
  - by rewrite A, <- (rg_labels _ _ R), map_size_fmap.
  - by rewrite B, <- (rg_edges _ _ R), map_size_fmap.
Qed.

Lemma open_graph pc log_path g G : stores pc g -> represents g G ->
  exists hf, heap_file_create pc log_path = Ok hf /\ graph_file hf G /\
    forall fk ft, n_pages (hf_cache hf) fk ft = n_pages pc fk ft.
Proof.
  intros S R. destruct (heap_file_create_holds pc log_path g S) as (hf & E & S' & A & B & N).
  exists hf. split_and!; [done|by eapply graph_of_store|done].
Qed.
End Samples.

#[local] Existing Instance x86_pages.

Definition both_counts (m : res (phy_database * file_system)) : res (list Z) :=
  '(db, _) ← m; Ok [df_num_pages (pdb_records db node_ft); df_num_pages (pdb_header db node_ft);
                    df_num_pages (pdb_records db relationship_ft); df_num_pages (pdb_header db relationship_ft)].

Lemma new_db_counts : both_counts (phy_database_create ∅ "g" "l") = Ok [0; 1; 0; 1].
Proof. vm_compute. reflexivity. Qed.

(** A heap file on a new database, with four frames. *)
Definition new_file : res heap_file :=
  '(db, _) ← phy_database_create ∅ "g" "l";
  pc ← page_cache_create db 4 "l" 1;
  heap_file_create pc "h".

Lemma new_file_sample : exists pc hf, new_file = Ok hf /\
  quiescent pc /\ stores pc empty_store /\ heap_file_create pc "h" = Ok hf /\ sample empty_graph 1000 hf.
Proof.
  destruct (create_ok ∅ "g" "l") as (db & fs & E & I & _ & Z0).
  pose proof new_db_counts as X. rewrite E in X. injection X as X1 X2 X3 X4.
  change (df_num_pages (pdb_records db node_ft) = 0) in X1. change (df_num_pages (pdb_header db node_ft) = 1) in X2.
  change (df_num_pages (pdb_records db relationship_ft) = 0) in X3. change (df_num_pages (pdb_header db relationship_ft) = 1) in X4.
  destruct (page_cache_create_quiescent db 4 "l" 1 I) as (pc & Ec & Q & Ep & _ & V); [lia|vm_compute; discriminate|].
  assert (S : stores pc empty_store).
  { apply (fresh_stores db pc I); [intros ft; apply Z0|intros ft; apply Z0|exact Q|exact Ep|exact V]. }
  destruct (open_graph pc "h" empty_store empty_graph S empty_represents) as (hf & Eh & GF & N).
  exists pc, hf. split; [unfold new_file; rewrite E; cbn [mbind res_bind]; rewrite Ec; exact Eh|].
  split; [exact Q|]. split; [exact S|]. split; [exact Eh|]. split; [exact GF|].
  assert (Mx : MAX_PAGE_NO = 2251799813685247) by reflexivity. assert (Sp : SLOTS_PER_PAGE = 256) by reflexivity.
  intros node. unfold room. rewrite !N, Mx, Sp. unfold n_pages. rewrite Ep. cbn [file_of].
  destruct node; cbn [ft_of]; [rewrite X1, X2|rewrite X3, X4]; lia.
Qed.

Lemma sample_new : exists pc hf, quiescent pc /\ stores pc empty_store /\ heap_file_create pc "h" = Ok hf /\ sample empty_graph 1000 hf.
Proof. destruct new_file_sample as (pc & hf & _ & R). by exists pc, hf. Qed.

(** A sample with one node that has a loop, one with the edges [a -> b] and [b -> b], and
    one with [b -> a], [a -> a] and [a -> a]. *)
Lemma sample_loop : exists hf n x, sample (add_edge (add_node empty_graph n 7) x (Edge n n 5 9)) 900 hf.
Proof.
  destruct sample_new as (pc & hf & _ & _ & _ & S).
  destruct (sample_node hf empty_graph 999 7 S ltac:(lia) ltac:(split; [done|reflexivity])) as (n & hf1 & _ & _ & S1).
  destruct (sample_edge hf1 _ 998 n n 5 9 S1) as (x & hf2 & _ & _ & GF & Rm); [lia|..|by vm_compute|].
  1-2: cbn [add_node g_labels]; rewrite lookup_insert_eq; eauto.
  1-2: split; [done|reflexivity].
  exists hf2, n, x. split; [exact GF|]. intros node. destruct (Rm node). pose proof rp_min. split; nia.
Qed.

Definition two_nodes (a b : Z) : graph := add_node (add_node empty_graph a 7) b 8.

Lemma sample_two : exists hf a b, a <> b /\ sample (two_nodes a b) 990 hf.
Proof.
  destruct sample_new as (pc & hf & _ & _ & _ & S).
  destruct (sample_node hf empty_graph 999 7 S ltac:(lia) ltac:(split; [done|reflexivity])) as (a & hf1 & _ & _ & S1).
  destruct (sample_node hf1 _ 998 8 S1 ltac:(lia) ltac:(split; [done|reflexivity])) as (b & hf2 & _ & Fr & GF & Rm).
  exists hf2, a, b. split; [intros ->; cbn [add_node g_labels] in Fr; by rewrite lookup_insert_eq in Fr|].
  split; [exact GF|]. intros node. destruct (Rm node). pose proof rp_min. split; nia.
Qed.

(** Edges between two stored nodes. *)
Lemma sample_edges hf G (es : list edge) : sample G (Z.of_nat (length es)) hf ->
  Forall (fun e => is_Some (g_labels G !! e_source e) /\ is_Some (g_labels G !! e_target e) /\
                   is_u64 (e_weight e) /\ is_u64 (e_label e) /\ double_eqb (e_weight e) UNINITIALIZED_WEIGHT = false) es ->
  exists hf' ids, length ids = length es /\ NoDup ids /\ Forall (fun x => g_edges G !! x = None) ids /\
    sample (foldl (fun G xe => add_edge G xe.1 xe.2) G (zip ids es)) 0 hf'.
Proof.
  revert hf G. induction es as [|e es IH]; intros hf G S F.
  - exists hf, []. split_and!; [done|constructor|constructor|exact S].
  - apply Forall_cons in F as [(A & B & C & D & W) F].
    destruct (sample_edge hf G (Z.of_nat (length es)) (e_source e) (e_target e) (e_weight e) (e_label e))
      as (x & hf1 & _ & Fr & S1); [replace (Z.of_nat (length es) + 1) with (Z.of_nat (length (e :: es))) by (simpl; lia); exact S|lia|done..|].
    destruct (IH hf1 (add_edge G x e)) as (hf2 & ids & Le & Nd & Fi & S2); [by destruct e|exact F|].
    exists hf2, (x :: ids). assert (Hx : x ∉ ids).
    { intros Hx. rewrite Forall_forall in Fi. specialize (Fi x Hx). cbn [add_edge g_edges] in Fi. by rewrite lookup_insert_eq in Fi. }
    split_and!; [simpl; by rewrite Le|by constructor| |exact S2].
    apply Forall_cons. split; [done|]. apply Forall_forall. intros y Hy. rewrite Forall_forall in Fi. specialize (Fi y Hy).
    cbn [add_edge g_edges] in Fi. rewrite lookup_insert_ne in Fi; [done|by intros ->].
Qed.

(** ** Properties *)

(** C14: reading and updating records refine lookups and insertions in finite maps: on a heap
    file that holds a store, a stored node or relationship is what is read, an update
    replaces exactly that record, and an id whose slots are not in use ends the program. *)
Theorem record_operations_refine `{RecordPages} (hf : heap_file) (g : store) (log : bool) (HS : holds_store hf g) :
  (forall id n, st_nodes g !! id = Some n ->
     exists hf', read_node hf id log = Ok (n, hf') /\ holds_store hf' g) /\
  (forall id r, st_rels g !! id = Some r ->
     exists hf', read_relationship hf id log = Ok (r, hf') /\ holds_store hf' g) /\
  (forall n, is_Some (st_nodes g !! n_id n) -> node_range n ->
     exists hf', update_node hf n log = Ok hf' /\ holds_store hf' (Store (<[n_id n := n]> (st_nodes g)) (st_rels g))) /\
  (forall r, is_Some (st_rels g !! r_id r) -> rel_range r -> writable r ->
     exists hf', update_relationship hf r log = Ok hf' /\ holds_store hf' (Store (st_nodes g) (<[r_id r := r]> (st_rels g)))) /\
  (forall id, is_u64 id -> id mod 256 < SLOTS_PER_PAGE ->
     (st_nodes g !! id = None -> read_node hf id log = Exit) /\
     (st_rels g !! id = None -> read_relationship hf id log = Exit /\ delete_relationship hf id log = Exit)).
Proof.
  assert (Mn : forall id, st_nodes g !! id = None -> has g true id = false).
  { intros id E. unfold has. rewrite E. by apply bool_decide_false; intros []. }
  assert (Mr : forall id, st_rels g !! id = None -> has g false id = false).
  { intros id E. unfold has. rewrite E. by apply bool_decide_false; intros []. }
  split_and!.
  - intros id n E. destruct (read_node_ok hf g id n log HS E) as (hf' & ? & ? & _). by exists hf'.
  - intros id r E. destruct (read_rel_ok hf g id r log HS E) as (hf' & ? & ? & _). by exists hf'.
  - intros n [n0 E] Rn. destruct (update_node_ok hf g n log HS (has_node _ _ _ E) Rn) as (hf' & ? & ? & _). by exists hf'.
  - intros r [r0 E] Rr W. destruct (update_rel_ok hf g r log HS (has_rel _ _ _ E) Rr W) as (hf' & ? & ? & _). by exists hf'.
  - intros id U Hs.
    assert (Rr : st_rels g !! id = None -> read_relationship hf id log = Exit).
    { intros E. unfold read_relationship, read_relationship_internal. destruct (id =? UNINITIALIZED_LONG); [done|].
      by rewrite (assert_missing_exit hf g false id log HS U Hs (Mr id E)). }
    split; [|intros E; split; [by apply Rr|]].
    + intros E. unfold read_node, read_node_internal. destruct (id =? UNINITIALIZED_LONG); [done|].
      by rewrite (assert_missing_exit hf g true id log HS U Hs (Mn id E)).
    + unfold delete_relationship. destruct (id =? UNINITIALIZED_LONG); [done|]. by rewrite (Rr E).
Qed.

Lemma record_operations_refine_witness :
  exists hf id label, create_node hf 7 true = Ok (id, label) /\
    read_node (H := x86_pages) label id false <> Exit.
Proof.
  destruct sample_new as (pc & hf & _ & _ & _ & GF & Rm). destruct GF as [(g & S & R) _ _].
  assert (R1 : room hf true 1) by (destruct (Rm true); pose proof rp_min; split; nia).
  destruct (create_node_spec hf g 7 true S R1 ltac:(split; [done|reflexivity])) as (id & hf' & E & _ & S' & _).
  exists hf, id, hf'. split; [exact E|].
  destruct (proj1 (record_operations_refine hf' _ false S') id (Node id UNINITIALIZED_LONG 7)) as (hf2 & E2 & _).
  - cbn [put_node st_nodes]. by rewrite lookup_partial_alter_eq.
  - rewrite E2. discriminate.
Defined.

(** [check_record_exists] decides whether an id is stored: for every id that addresses a
    slot the answer is whether a record has it; only for an id beyond the header file's bits
    the program ends instead, and the records are left as they are. *)
Theorem check_record_exists_decides `{RecordPages} (hf : heap_file) (g : store) (id : Z) (node log : bool)
    (HS : holds_store hf g) (U : is_u64 id) (Sl : id mod 256 < SLOTS_PER_PAGE) :
  (exists hf', check_record_exists hf id node log = Ok (has g node id, hf') /\ holds_store hf' g) \/
  (check_record_exists hf id node log = Exit /\ has g node id = false).
Proof.
  destruct (has g node id) eqn:Hh.
  - left. destruct (check_exists_ok hf g node id log HS (has_in_file _ _ _ _ HS Hh)) as (hf' & E & S' & _).
    rewrite Hh in E. by exists hf'.
  - destruct (check_missing hf g node id log HS U Sl Hh) as [(hf' & E & S' & _)|E]; [left; by exists hf'|by right].
Qed.

Lemma check_record_exists_decides_witness :
  exists pc hf, heap_file_create pc "h" = Ok hf /\
    ((exists hf', check_record_exists hf 12 true true = Ok (false, hf')) \/ check_record_exists hf 12 true true = Exit).
Proof.
  destruct sample_new as (pc & hf & _ & _ & E & GF & _). destruct GF as [(g & S & R) _ _].
  exists pc, hf. split; [exact E|].
  assert (Hn : has g true 12 = false).
  { rewrite (graph_has_node g empty_graph 12 R). cbn [empty_graph g_labels]. rewrite lookup_empty. reflexivity. }
  destruct (check_record_exists_decides hf g 12 true true S ltac:(split; [done|reflexivity]) ltac:(reflexivity))
    as [(hf' & E' & _)|[E' _]]; [left; rewrite Hn in E'; by exists hf'|by right].
Defined.

(** [get_nodes] and [get_relationships] return every stored record exactly once, in the
    order of the ids. *)
Theorem get_records_complete `{RecordPages} (hf : heap_file) (g : store) (log : bool) (HS : holds_store hf g) :
  (exists l xs hf', get_nodes hf log = Ok (l, hf') /\ al_rep l xs /\ holds_store hf' g /\
     StronglySorted (fun a b => n_id a < n_id b) xs /\ xs ≡ₚ (map_to_list (st_nodes g)).*2) /\
  (exists l xs hf', get_relationships hf log = Ok (l, hf') /\ al_rep l xs /\ holds_store hf' g /\
     StronglySorted (fun a b => r_id a < r_id b) xs /\ xs ≡ₚ (map_to_list (st_rels g)).*2).
Proof.
  pose proof (nodes_keyed _ _ HS) as Kn. pose proof (rels_keyed _ _ HS) as Kr. split.
  - destruct (get_nodes_listing hf g log HS) as (l & xs & hf' & E & [A _] & L & S' & _). exists l, xs, hf'.
    split_and!; [done|done|done|apply L|].
    eapply (listing_all n_id); [by intros y n Ey; apply (Kn y n Ey)|exact L|]. intros y n Ey. apply (Kn y n Ey).
  - destruct (get_rels_listing hf g log HS) as (l & xs & hf' & E & [A _] & L & S' & _). exists l, xs, hf'.
    split_and!; [done|done|done|apply L|].
    eapply (listing_all r_id); [by intros y r Ey; apply (Kr y r Ey)|exact L|]. intros y r Ey. apply (Kr y r Ey).
Qed.

Lemma get_records_complete_witness :
  exists hf n x l hf', sample (add_edge (add_node empty_graph n 7) x (Edge n n 5 9)) 900 hf /\
    get_relationships hf true = Ok (l, hf') /\ array_list_size l = 1.
Proof.
  destruct sample_loop as (hf & n & x & S). pose proof S as [[(g & HS & R) _ _] _].
  destruct (get_records_complete hf g true HS) as [_ (l & xs & hf' & E & A & _ & _ & P)].
  exists hf, n, x, l, hf'. split; [exact S|]. split; [exact E|]. unfold array_list_size. rewrite (al_len_ok _ _ A).
  rewrite (Permutation_length P), length_fmap, length_map_to_list.
  rewrite <- (map_size_fmap edge_of), (rg_edges _ _ R). cbn [add_edge add_node g_edges empty_graph].
  rewrite map_size_insert_None by apply lookup_empty. by rewrite map_size_empty.
Defined.

(** [find_node] and [find_relationships] return the record with the label that has the
    smallest id, and end the program exactly when no record has the label. *)
Theorem find_by_label_first `{RecordPages} (hf : heap_file) (g : store) (label : Z) (log : bool) (HS : holds_store hf g) :
  ((exists n hf', find_node hf label log = Ok (n, hf') /\ holds_store hf' g /\ st_nodes g !! n_id n = Some n /\
      n_label n = label /\ forall y m, st_nodes g !! y = Some m -> n_label m = label -> n_id n <= y) \/
   (find_node hf label log = Exit /\ forall y m, st_nodes g !! y = Some m -> n_label m <> label)) /\
  ((exists r hf', find_relationships hf label log = Ok (r, hf') /\ holds_store hf' g /\ st_rels g !! r_id r = Some r /\
      r_label r = label /\ forall y x, st_rels g !! y = Some x -> r_label x = label -> r_id r <= y) \/
   (find_relationships hf label log = Exit /\ forall y x, st_rels g !! y = Some x -> r_label x <> label)).
Proof.
  split.
  - destruct (find_node_first hf g label log HS) as [(n & hf' & E & S' & _ & En & El & F)|]; [left|by right].
    exists n, hf'. split_and!; [done..|]. intros y m Em Ey. apply Z.nlt_ge. intros Hy. by apply (F y m Em Hy).
  - destruct (find_rel_first hf g label log HS) as [(r & hf' & E & S' & _ & Er & El & F)|]; [left|by right].
    exists r, hf'. split_and!; [done..|]. intros y x Ex Ey. apply Z.nlt_ge. intros Hy. by apply (F y x Ex Hy).
Qed.

Lemma find_by_label_first_witness :
  exists hf n x r hf', sample (add_edge (add_node empty_graph n 7) x (Edge n n 5 9)) 900 hf /\
    find_relationships hf 9 true = Ok (r, hf') /\ r_id r = x.
Proof.
  destruct sample_loop as (hf & n & x & S). pose proof S as [[(g & HS & R) _ _] _].
  assert (Ex : exists o, st_rels g !! x = Some o /\ r_label o = 9).
  { pose proof (graph_edge g _ x R) as E. cbn [add_edge g_edges] in E. rewrite lookup_insert_eq in E.
    symmetry in E. apply fmap_Some in E as (o & Eo & Ed). exists o. split; [exact Eo|]. by injection Ed. }
  destruct Ex as (o & Eo & Lo).
  destruct (find_by_label_first hf g 9 true HS) as [_ [(r & hf' & E & _ & Er & _ & _)|[_ N]]];
    [|exfalso; exact (N x o Eo Lo)].
  exists hf, n, x, r, hf'. split; [exact S|]. split; [exact E|].
  pose proof (graph_edge g _ (r_id r) R) as Ee. rewrite Er in Ee. cbn [add_edge add_node g_edges empty_graph] in Ee.
  destruct (decide (r_id r = x)) as [|Hne]; [done|]. rewrite lookup_insert_ne, lookup_empty in Ee by congruence. discriminate.
Defined.

(** C13: [create_node] adds a node with the label and without relationships under an id that
    no node has, whatever pages are allocated, loaded or evicted on the way; nothing else
    changes. *)
Theorem create_node_adds_node `{RecordPages} (hf : heap_file) (G : graph) (label : Z) (log : bool)
    (GF : graph_file hf G) (Rm : room hf true 1) (U : is_u64 label) :
  exists id hf', create_node hf label log = Ok (id, hf') /\ g_labels G !! id = None /\
    graph_file hf' (add_node G id label) /\ grown hf hf' true.
Proof. by apply create_node_graph. Qed.

Lemma create_node_adds_node_witness :
  exists hf n x id hf', sample (add_edge (add_node empty_graph n 7) x (Edge n n 5 9)) 900 hf /\
    create_node hf 3 true = Ok (id, hf') /\ id <> n.
Proof.
  destruct sample_loop as (hf & n & x & S). pose proof S as [GF Rm]. pose proof rp_min.
  destruct (create_node_adds_node hf _ 3 true GF) as (id & hf' & E & Fr & _).
  - destruct (Rm true). split; nia.
  - split; [done|reflexivity].
  - exists hf, n, x, id, hf'. split; [exact S|]. split; [exact E|]. intros ->.
    cbn [add_edge add_node g_labels] in Fr. by rewrite lookup_insert_eq in Fr.
Defined.

(** C1: [create_relationship] between stored nodes adds the edge under a fresh id at the end
    of the chains of both nodes (once for a loop), whichever of the structs that it loads are
    the same relationship: all other edges and the order of all chains stay. *)
Theorem create_relationship_adds_edge `{RecordPages} (hf : heap_file) (G : graph) (from to w label : Z) (log : bool)
    (GF : graph_file hf G) (Rm : room hf false 1)
    (Hf : is_Some (g_labels G !! from)) (Ht : is_Some (g_labels G !! to))
    (Uw : is_u64 w) (Ul : is_u64 label) (W : double_eqb w UNINITIALIZED_WEIGHT = false) :
  exists id hf', create_relationship hf from to w label log = Ok (id, hf') /\ g_edges G !! id = None /\
    graph_file hf' (add_edge G id (Edge from to w label)) /\ grown hf hf' false.
Proof. by apply create_relationship_graph. Qed.

Lemma create_relationship_adds_edge_witness :
  exists hf a b id hf', sample (two_nodes a b) 990 hf /\ create_relationship hf b a 5 6 true = Ok (id, hf') /\
    graph_file hf' (add_edge (two_nodes a b) id (Edge b a 5 6)).
Proof.
  destruct sample_two as (hf & a & b & Hab & S). pose proof S as [GF Rm]. pose proof rp_min.
  destruct (create_relationship_adds_edge hf (two_nodes a b) b a 5 6 true GF) as (id & hf' & E & _ & GF' & _).
  - destruct (Rm false). split; nia.
  - cbn [two_nodes add_node g_labels]. rewrite lookup_insert_eq. eauto.
  - cbn [two_nodes add_node g_labels]. rewrite lookup_insert_ne, lookup_insert_eq by congruence. eauto.
  - split; [done|reflexivity].
  - split; [done|reflexivity].
  - by vm_compute.
  - exists hf, a, b, id, hf'. split; [exact S|]. split; [exact E|exact GF'].
Defined.

(** [create_relationship] ends the program when one of the nodes does not exist. *)
Theorem create_relationship_missing_node `{RecordPages} (hf : heap_file) (G : graph) (from to w label : Z) (log : bool)
    (GF : graph_file hf G) (Rm : room hf false 1) (Uf : is_u64 from) (Ut : is_u64 to)
    (Sf : from mod 256 < SLOTS_PER_PAGE) (St : to mod 256 < SLOTS_PER_PAGE)
    (Hm : g_labels G !! from = None \/ g_labels G !! to = None) :
  create_relationship hf from to w label log = Exit.
Proof.
  rewrite create_relationship_eq. destruct (_ || _); [done|]. destruct GF as [(g & S & R) _ _].
  destruct (next_free_ok hf g false log S Rm) as (hf1 & id & pc & E1 & El & I1 & _ & S1 & _).
  rewrite E1. cbn [mbind res_bind]. cbv zeta. cbn [put_marked] in S1.
  assert (Rd : forall hf2 n, holds_store hf2 (put_rel g id (Some (rel_in (record_view pc false id) id))) ->
    is_u64 n -> n mod 256 < SLOTS_PER_PAGE -> g_labels G !! n = None -> read_node hf2 n log = Exit).
  { intros hf2 n S2 Un Sn En. unfold read_node, read_node_internal. destruct (n =? UNINITIALIZED_LONG); [done|].
    rewrite (assert_missing_exit hf2 _ true n log S2 Un Sn); [done|].
    change (has g true n = false). rewrite (graph_has_node g G n R), En. by apply bool_decide_false; intros []. }
  unfold create_rest. destruct (g_labels G !! from) as [lf|] eqn:Ef.
  - destruct Hm as [|Et]; [done|]. destruct (store_node g G from lf R Ef) as (nf & En & _).
    destruct (read_node_ok hf1 _ from nf log S1 En) as (hf2 & E2 & S2 & _). rewrite E2. cbn [mbind res_bind].
    by rewrite (Rd hf2 to S2 Ut St Et).
  - by rewrite (Rd hf1 from S1 Uf Sf Ef).
Qed.

Lemma create_relationship_missing_node_witness :
  exists pc hf, heap_file_create pc "h" = Ok hf /\ create_relationship hf 3 4 5 6 true = Exit.
Proof.
  destruct sample_new as (pc & hf & _ & _ & E & GF & Rm). exists pc, hf. split; [exact E|].
  apply (create_relationship_missing_node hf empty_graph 3 4 5 6 true GF); try (split; [done|reflexivity]); try reflexivity.
  - destruct (Rm false). pose proof rp_min. split; nia.
  - left. apply lookup_empty.
Defined.

(** C10: [delete_relationship] removes the edge and takes it out of the chains of both of its
    nodes, in which all others keep their order, unless it is alone in its source's chain
    but not in its target's. *)
Theorem delete_relationship_removes_edge `{RecordPages} (hf : heap_file) (G : graph) (id : Z) (log : bool)
    (GF : graph_file hf G) (He : is_Some (g_edges G !! id)) (Cl : clean G id) :
  exists hf', delete_relationship hf id log = Ok hf' /\ graph_file hf' (del_edge G id).
Proof. destruct (delete_relationship_graph hf G id log GF He Cl) as (hf' & E & GF' & _). by exists hf'. Qed.

Lemma delete_relationship_removes_edge_witness :
  exists hf n x hf', sample (add_edge (add_node empty_graph n 7) x (Edge n n 5 9)) 900 hf /\
    delete_relationship hf x true = Ok hf' /\ n_rels hf' = 0.
Proof.
  destruct sample_loop as (hf & n & x & S). pose proof S as [GF Rm].
  destruct (delete_relationship_removes_edge hf _ x true GF) as (hf' & E & [_ _ Nr]).
  - cbn [add_edge g_edges]. rewrite lookup_insert_eq. eauto.
  - intros e. cbn [add_edge g_edges]. rewrite lookup_insert_eq. by intros [= <-].
  - exists hf, n, x, hf'. split; [exact S|]. split; [exact E|]. rewrite Nr. cbn [del_edge add_edge add_node g_edges empty_graph].
    rewrite delete_insert_eq, delete_id by apply lookup_empty. by rewrite map_size_empty.
Defined.

(** C11: deleting a relationship that is alone in the chain of its source but not in the chain
    of its target returns, and leaves a heap file that represents no graph: the target's
    chain still leads to the deleted id. *)
Theorem delete_relationship_leaves_dangling `{RecordPages} (hf : heap_file) (G : graph) (id : Z) (e : edge) (log : bool)
    (GF : graph_file hf G) (He : g_edges G !! id = Some e)
    (Hs : g_inc G (e_source e) = [id]) (Ht : g_inc G (e_target e) <> [id]) :
  exists hf', delete_relationship hf id log = Ok hf' /\ forall G', ~ graph_file hf' G'.
Proof.
  apply (delete_relationship_unclean hf G id log GF); [by exists e|].
  intros Cl. by apply Ht, (Cl e He).
Qed.

Lemma delete_relationship_leaves_dangling_witness :
  exists hf id hf', delete_relationship hf id true = Ok hf' /\ forall G', ~ graph_file hf' G'.
Proof.
  destruct sample_two as (hf & a & b & Hab & GF & Rm).
  assert (S : sample (two_nodes a b) 2 hf).
  { split; [exact GF|]. intros node. destruct (Rm node). pose proof rp_min. split; nia. }
  destruct (sample_edges hf (two_nodes a b) [Edge a b 5 1; Edge b b 5 2] S) as (hf' & ids & Le & Nd & _ & GF' & _).
  { assert (Ha : is_Some (g_labels (two_nodes a b) !! a)).
    { cbn [two_nodes add_node g_labels]. rewrite lookup_insert_ne, lookup_insert_eq by congruence. eauto. }
    assert (Hb : is_Some (g_labels (two_nodes a b) !! b)).
    { cbn [two_nodes add_node g_labels]. rewrite lookup_insert_eq. eauto. }
    apply Forall_cons. split; [|apply Forall_singleton]; (split; [done|split; [done|]]);
      (split; [split; [done|reflexivity]|split; [split; [done|reflexivity]|by vm_compute]]). }
  destruct ids as [|x [|y [|? ?]]]; try discriminate Le.
  assert (Hxy : y <> x) by (intros ->; apply NoDup_cons in Nd as [Nd _]; apply Nd; set_solver).
  cbn [foldl zip fst snd] in GF'. exists hf', x.
  destruct (delete_relationship_leaves_dangling hf' _ x (Edge a b 5 1) true GF') as (hf2 & E & D).
  - cbn [add_edge g_edges]. by rewrite lookup_insert_ne, lookup_insert_eq.
  - cbn. repeat case_decide; try done; intuition congruence.
  - cbn. repeat case_decide; try done; intuition congruence.
  - exists hf2. split; [exact E|exact D].
Defined.

(** C4: [delete_node] deletes the relationships of the node from the last to the first and
    then the node, when none of these deletions is of the kind that leaves the target's
    chain dangling; the loop ends. *)
Theorem delete_node_removes_node `{RecordPages} (hf : heap_file) (G : graph) (n : Z) (log : bool)
    (GF : graph_file hf G) (Hn : is_Some (g_labels G !! n)) (Cl : clean_seq G (reverse (g_inc G n))) :
  exists hf', delete_node hf n log = Ok hf' /\
    graph_file hf' (del_node (del_edges G (reverse (g_inc G n))) n).
Proof. by apply delete_node_graph. Qed.

Lemma delete_node_removes_node_witness :
  exists hf n x hf', sample (add_edge (add_node empty_graph n 7) x (Edge n n 5 9)) 900 hf /\
    delete_node hf n true = Ok hf' /\ n_rels hf' = 0 /\ n_nodes hf' = 0.
Proof.
  destruct sample_loop as (hf & n & x & S). pose proof S as [GF Rm].
  set (G := add_edge (add_node empty_graph n 7) x (Edge n n 5 9)) in *.
  assert (Ei : g_inc G n = [x]).
  { cbn. rewrite decide_True by (by left). by rewrite decide_True. }
  destruct (delete_node_removes_node hf G n true GF) as (hf' & E & [_ Nn Nr]).
  - cbn. rewrite lookup_insert_eq. eauto.
  - rewrite Ei. split; [|exact I]. intros e. cbn [G add_edge g_edges]. rewrite lookup_insert_eq. by intros [= <-].
  - exists hf, n, x, hf'. split; [exact S|]. split; [exact E|]. rewrite Nn, Nr, Ei.
    cbn [del_node del_edges foldl reverse rev_append del_edge G add_edge add_node g_edges g_labels empty_graph].
    rewrite !delete_insert_eq, !delete_id by apply lookup_empty. by rewrite !map_size_empty.
Defined.

(** C5: [expand] returns the relationships of a node in the direction, each once and in the
    order of its chain; in particular the walk along the circular chain ends. *)
Theorem expand_lists_relationships `{RecordPages} (hf : heap_file) (G : graph) (n : Z) (d : direction_t) (log : bool)
    (GF : graph_file hf G) (Hn : is_Some (g_labels G !! n)) :
  exists l xs hf', expand hf n d log = Ok (l, hf') /\ al_rep l xs /\ graph_file hf' G /\
    r_id <$> xs = pick G (dir_edge n d) (g_inc G n) /\
    Forall (fun r => g_edges G !! r_id r = Some (edge_of r)) xs.
Proof.
  destruct GF as [(g & S & R) Nn Nr], Hn as [lb Hn]. destruct (store_node g G n lb R Hn) as (node & En & _).
  destruct (expand_ok g G n node d log R En hf S) as (l & xs & hf' & E & [A _] & I & F & S' & Sh).
  exists l, xs, hf'. split_and!; [done|done| |done|].
  - split; [by exists g|by rewrite (sh_nodes _ _ Sh)|by rewrite (sh_rels _ _ Sh)].
  - eapply Forall_impl; [exact F|]. intros r Er. by rewrite (graph_edge g G _ R), Er.
Qed.

Lemma expand_lists_relationships_witness :
  exists hf n x l hf', sample (add_edge (add_node empty_graph n 7) x (Edge n n 5 9)) 900 hf /\
    expand hf n OUTGOING true = Ok (l, hf') /\ array_list_size l = 1.
Proof.
  destruct sample_loop as (hf & n & x & S). pose proof S as [GF Rm].
  destruct (expand_lists_relationships hf _ n OUTGOING true GF) as (l & xs & hf' & E & A & _ & I & _).
  { cbn. rewrite lookup_insert_eq. eauto. }
  exists hf, n, x, l, hf'. split; [exact S|]. split; [exact E|]. unfold array_list_size. rewrite (al_len_ok _ _ A).
  assert (Ei : g_inc (add_edge (add_node empty_graph n 7) x (Edge n n 5 9)) n = [x])
    by (cbn; rewrite decide_True by (by left); by rewrite decide_True).
  assert (Ex : g_edges (add_edge (add_node empty_graph n 7) x (Edge n n 5 9)) !! x = Some (Edge n n 5 9)) by apply lookup_insert_eq.
  rewrite <- (length_fmap r_id xs), I, Ei. unfold pick, sel. cbn [List.filter]. rewrite Ex.
  unfold dir_edge. cbn. by rewrite Z.eqb_refl.
Defined.

(** C31: [contains_relationship_from_to] returns the first relationship of the start node that
    joins the nodes in the direction, and none exactly when there is none, if the start
    node's first relationship lies in the direction, or at most one does, or there is a
    relationship to be found. *)
Theorem contains_finds_edge `{RecordPages} (hf : heap_file) (G : graph) (from to : Z) (d : direction_t) (log : bool)
    (GF : graph_file hf G) (Hf : is_Some (g_labels G !! from)) (Ht : is_Some (g_labels G !! to))
    (Hc : (forall h, head (g_inc G from) = Some h -> sel G (dir_edge from d) h = true) \/
          (length (pick G (dir_edge from d) (g_inc G from)) <= 1)%nat \/
          pick G (joins from to d) (g_inc G from) <> []) :
  exists o hf', contains_relationship_from_to hf from to d log = Ok (o, hf') /\ graph_file hf' G /\
    r_id <$> o = head (pick G (joins from to d) (g_inc G from)) /\
    forall r, o = Some r -> g_edges G !! r_id r = Some (edge_of r).
Proof.
  destruct GF as [(g & S & R) Nn Nr], Hf as [lf Hf], Ht as [lt Ht].
  destruct (store_node g G from lf R Hf) as (nf & Ef & _), (store_node g G to lt R Ht) as (nt & Et & _).
  destruct (contains_ok g G from to nf nt d log R Ef Et hf S Hc) as (o & hf' & E & Ro & S' & Sh).
  exists o, hf'. split_and!; [done| | |].
  - split; [by exists g|by rewrite (sh_nodes _ _ Sh)|by rewrite (sh_rels _ _ Sh)].
  - destruct o as [r|]; simpl in Ro |- *; [by destruct Ro as [_ ->]|by rewrite Ro].
  - intros r ->. destruct Ro as [Er _]. by rewrite (graph_edge g G _ R), Er.
Qed.

Lemma contains_finds_edge_witness :
  exists hf n x o hf', sample (add_edge (add_node empty_graph n 7) x (Edge n n 5 9)) 900 hf /\
    contains_relationship_from_to hf n n BOTH true = Ok (o, hf') /\ r_id <$> o = Some x.
Proof.
  destruct sample_loop as (hf & n & x & S). pose proof S as [GF Rm].
  set (G := add_edge (add_node empty_graph n 7) x (Edge n n 5 9)) in *.
  assert (Ei : g_inc G n = [x]) by (cbn; rewrite decide_True by (by left); by rewrite decide_True).
  assert (Ex : g_edges G !! x = Some (Edge n n 5 9)) by (cbn [G add_edge g_edges]; apply lookup_insert_eq).
  assert (Hn : is_Some (g_labels G !! n)) by (cbn; rewrite lookup_insert_eq; eauto).
  destruct (contains_finds_edge hf G n n BOTH true GF Hn Hn) as (o & hf' & E & _ & Ro & _).
  - right. left. rewrite Ei. apply pick_length.
  - exists hf, n, x, o, hf'. split; [exact S|]. split; [exact E|]. rewrite Ro, Ei. unfold pick, sel. cbn [List.filter].
    rewrite Ex. unfold joins. cbn. by rewrite !Z.eqb_refl.
Defined.

(** C32: [contains_relationship_from_to] does not end when the start node's first relationship
    is not in the direction, at least two others are, and none joins the nodes (the target
    having relationships): no amount of fuel is enough. *)
Theorem contains_diverges_off_direction `{RecordPages} (hf : heap_file) (G : graph) (from to h : Z) (d : direction_t) (log : bool)
    (GF : graph_file hf G) (Hf : is_Some (g_labels G !! from)) (Ht : is_Some (g_labels G !! to))
    (Hh : head (g_inc G from) = Some h) (Hd : sel G (dir_edge from d) h = false)
    (H2 : (2 <= length (pick G (dir_edge from d) (g_inc G from)))%nat)
    (Hj : pick G (joins from to d) (g_inc G from) = []) (Hto : g_inc G to <> []) :
  forall fuel, contains_relationship_fuel fuel hf from to d log = NoFuel.
Proof.
  destruct GF as [(g & S & R) Nn Nr], Hf as [lf Hf], Ht as [lt Ht].
  destruct (store_node g G from lf R Hf) as (nf & Ef & _), (store_node g G to lt R Ht) as (nt & Et & _).
  by apply (contains_diverges g G from to nf nt d log R Ef Et hf h).
Qed.

(** Node [a] has [b -> a], [a -> a] and [a -> a], in this order. *)
Lemma sample_off_direction : exists hf G a b x y z, graph_file hf G /\
  is_Some (g_labels G !! a) /\ is_Some (g_labels G !! b) /\ g_inc G a = [x; y; z] /\ g_inc G b = [x] /\ a <> b /\
  g_edges G !! x = Some (Edge b a 5 1) /\ g_edges G !! y = Some (Edge a a 5 2) /\ g_edges G !! z = Some (Edge a a 5 3).
Proof.
  destruct sample_two as (hf & a & b & Hab & GF & Rm).
  assert (Ha : is_Some (g_labels (two_nodes a b) !! a)).
  { cbn [two_nodes add_node g_labels]. rewrite lookup_insert_ne, lookup_insert_eq by congruence. eauto. }
  assert (Hb : is_Some (g_labels (two_nodes a b) !! b)).
  { cbn [two_nodes add_node g_labels]. rewrite lookup_insert_eq. eauto. }
  assert (S : sample (two_nodes a b) 3 hf).
  { split; [exact GF|]. intros node. destruct (Rm node). pose proof rp_min. split; nia. }
  destruct (sample_edges hf (two_nodes a b) [Edge b a 5 1; Edge a a 5 2; Edge a a 5 3] S) as (hf' & ids & Le & Nd & _ & GF' & _).
  { repeat apply Forall_cons_2; [..|apply Forall_nil_2]; (split; [done|split; [done|]]);
      (split; [split; [done|reflexivity]|split; [split; [done|reflexivity]|by vm_compute]]). }
  destruct ids as [|x [|y [|z [|? ?]]]]; try discriminate Le.
  apply NoDup_cons in Nd as [Nx Nd]. apply NoDup_cons in Nd as [Ny _].
  rewrite !not_elem_of_cons in Nx. rewrite not_elem_of_cons in Ny. destruct Nx as (N1 & N2 & _), Ny as (N3 & _).
  cbn [foldl zip fst snd] in GF'. exists hf'. eexists _, a, b, x, y, z. split; [exact GF'|].
  split_and!; [exact Ha|exact Hb|..].
  - cbn. rewrite !(decide_True (P := _ \/ a = a)) by (by right). by rewrite decide_False, decide_True by congruence.
  - cbn. rewrite !(decide_False (P := a = b \/ a = b)) by (by intros [?|?]).
    rewrite (decide_True (P := b = b \/ a = b)) by (by left). by rewrite decide_True.
  - exact Hab.
  - cbn [add_edge g_edges]. rewrite !lookup_insert_ne by congruence. apply lookup_insert_eq.
  - cbn [add_edge g_edges]. rewrite lookup_insert_ne by congruence. apply lookup_insert_eq.
  - cbn [add_edge g_edges]. apply lookup_insert_eq.
Qed.

Lemma contains_diverges_off_direction_witness :
  exists hf from to, forall fuel, contains_relationship_fuel fuel hf from to OUTGOING true = NoFuel.
Proof.
  destruct sample_off_direction as (hf & G & a & b & x & y & z & GF & Ha & Hb & Ia & Ib & Hab & Ex & Ey & Ez).
  exists hf, a, b. apply (contains_diverges_off_direction hf G a b x OUTGOING true GF Ha Hb).
  - by rewrite Ia.
  - unfold sel. rewrite Ex. unfold dir_edge. cbn. by rewrite (proj2 (Z.eqb_neq b a)), andb_false_r by congruence.
  - rewrite Ia. unfold pick, sel. cbn [List.filter]. rewrite Ex, Ey, Ez. unfold dir_edge. cbn.
    rewrite (proj2 (Z.eqb_neq b a)) by congruence. rewrite !Z.eqb_refl. cbn.
    change (bool_decide (OUTGOING = OUTGOING)) with true. change (bool_decide (OUTGOING = INCOMING)) with false. cbn. lia.
  - rewrite Ia. unfold pick, sel. cbn [List.filter]. rewrite Ex, Ey, Ez. unfold joins. cbn.
    by rewrite (proj2 (Z.eqb_neq b a)), (proj2 (Z.eqb_neq a b)), !andb_false_r by congruence.
  - by rewrite Ib.
Defined.

(** C12: the graph survives the process: destroying the page cache writes everything back,
    and a heap file that is created on a new cache over the database stands for the same
    graph, with its counters of nodes and relationships. *)
Theorem graph_survives_reopening `{RecordPages} (hf : heap_file) (G : graph) (n seed : Z) (log log_path : string)
    (GF : graph_file hf G) (Hn : 1 <= n) (Hs : n * PAGE_SIZE <= SIZE_MAX) :
  exists db pc hf', page_cache_destroy (hf_cache hf) = Ok db /\ page_cache_create db n log seed = Ok pc /\
    heap_file_create pc log_path = Ok hf' /\ graph_file hf' G.
Proof.
  destruct GF as [(g & S & R) _ _]. pose proof (hs_stores _ _ S) as St.
  destruct (destroy_cache_ok (hf_cache hf) (so_quiet _ _ St)) as (db & Ed & I & Np & V).
  destruct (page_cache_create_quiescent db n log seed I Hn Hs) as (pc & Ec & Q & Ep & _ & V').
  assert (N : forall fk ft, n_pages pc fk ft = n_pages (hf_cache hf) fk ft) by (intros; unfold n_pages at 1; by rewrite Ep).
  assert (St' : stores pc g).
  { eapply (stores_same_pages (hf_cache hf)); [exact St|exact Q| |exact N].
    intros fk ft p Hk Hp. rewrite V' by done. by apply V. }
  destruct (open_graph pc log_path g G St' R) as (hf' & Eh & GF' & _). by exists db, pc, hf'.
Qed.

Lemma graph_survives_reopening_witness :
  exists hf n x db pc hf', sample (add_edge (add_node empty_graph n 7) x (Edge n n 5 9)) 900 hf /\
    page_cache_destroy (hf_cache hf) = Ok db /\ page_cache_create db 3 "l2" 1 = Ok pc /\
    heap_file_create pc "h2" = Ok hf' /\ n_nodes hf' = 1.
Proof.
  destruct sample_loop as (hf & n & x & S). pose proof S as [GF _].
  destruct (graph_survives_reopening hf _ 3 1 "l2" "h2" GF ltac:(lia) ltac:(vm_compute; discriminate))
    as (db & pc & hf' & Ed & Ec & Eh & [_ Nn _]).
  exists hf, n, x, db, pc, hf'. split; [exact S|]. split; [exact Ed|]. split; [exact Ec|]. split; [exact Eh|].
  rewrite Nn. cbn [add_edge add_node g_labels empty_graph].
  rewrite map_size_insert_None by apply lookup_empty. by rewrite map_size_empty.
Defined.
