(* ===== verification/Doubles.v ===== *)
(** IEEE arithmetic on doubles that are stored as 64-bit patterns: decoding, encoding, the
    sum and the order, and the binary32 quotient of the average degree.

    The arithmetic is that of the Standard Library's [SpecFloat] with round to nearest.  C
    leaves open which not-a-number an operation gives; the model always takes the same. *)

From S2P Require Import Prelude Constants.
From Stdlib Require Import ZArith Lia Floats.SpecFloat.
From stdpp Require Import base.

#[local] Open Scope Z_scope.

(** Binary64: 53 bits of precision, exponents below 1024. *)
Definition double_of_bits (w : Z) : spec_float :=
  let s := 2 ^ 63 <=? w in
  let e := w / 2 ^ 52 mod 2 ^ 11 in
  let m := w mod 2 ^ 52 in
  if e =? 0 then match m with Z.pos p => S754_finite s p (-1074) | _ => S754_zero s end
  else if e =? 2047 then if m =? 0 then S754_infinity s else S754_nan
  else match m + 2 ^ 52 with Z.pos p => S754_finite s p (e - 1075) | _ => S754_nan end.

Definition bits_of_double (x : spec_float) : Z :=
  let sign (s : bool) := if s then 2 ^ 63 else 0 in
  match x with
  | S754_zero s => sign s
  | S754_infinity s => sign s + 2047 * 2 ^ 52
  | S754_nan => 0x7FF8000000000000
  | S754_finite s p e =>
      if Z.pos p <? 2 ^ 52 then sign s + Z.pos p
      else sign s + (e + 1075) * 2 ^ 52 + (Z.pos p - 2 ^ 52)
  end.

(** [a + b], [a - b], [fabs(a)] and [a < b]. *)
Definition double_add (a b : Z) : Z :=
  bits_of_double (SFadd 53 1024 (double_of_bits a) (double_of_bits b)).
Definition double_sub (a b : Z) : Z :=
  bits_of_double (SFsub 53 1024 (double_of_bits a) (double_of_bits b)).
Definition double_abs (a : Z) : Z := bits_of_double (SFabs (double_of_bits a)).
Definition double_ltb (a b : Z) : bool := SFltb (double_of_bits a) (double_of_bits b).

(** [(float) a / (float) b] *)
Definition f32_div (x y : spec_float) : spec_float := SFdiv 24 128 x y.

(** ** Encoding *)

(** The patterns of all doubles but the NaNs survive decoding and encoding. *)
Lemma double_bits_inverse (w : Z) : 0 <= w < 2 ^ 64 -> (0x7FF0000000000000 <? w mod 2 ^ 63) = false ->
  bits_of_double (double_of_bits w) = w.
Proof.
  intros Hw Hn. apply Z.ltb_ge in Hn.
  set (s := if 2 ^ 63 <=? w then 2 ^ 63 else 0).
  set (e := w / 2 ^ 52 mod 2 ^ 11). set (m := w mod 2 ^ 52).
  assert (Ew : w = s + e * 2 ^ 52 + m) by (unfold s, e, m; destruct (Z.leb_spec (2 ^ 63) w); lia).
  assert (Hm : 0 <= m < 2 ^ 52) by (unfold m; lia). assert (He : 0 <= e < 2 ^ 11) by (unfold e; lia).
  assert (Hi : e = 2047 -> m = 0) by (unfold e, m; lia).
  unfold double_of_bits. fold e m. fold s in Ew.
  destruct (Z.eqb_spec e 0) as [E0|E0].
  - destruct m as [|p|p] eqn:Em; cbn [bits_of_double]; fold s; [lia| |lia].
    rewrite (proj2 (Z.ltb_lt (Z.pos p) _)) by lia. unfold s. destruct (2 ^ 63 <=? w); lia.
  - destruct (Z.eqb_spec e 2047) as [E1|E1].
    + rewrite (Hi E1). cbn [Z.eqb bits_of_double]. unfold s in Ew. rewrite (Hi E1) in Ew.
      destruct (2 ^ 63 <=? w); lia.
    + destruct (m + 2 ^ 52) as [|p|p] eqn:Em; [lia| |lia]. cbn [bits_of_double].
      rewrite (proj2 (Z.ltb_ge (Z.pos p) _)) by lia. unfold s in Ew. destruct (2 ^ 63 <=? w); lia.
Qed.

(** 0.1 + 0.2 and a sum that overflows. *)
Example double_add_samples :
  double_add 0x3FB999999999999A 0x3FC999999999999A = 0x3FD3333333333334 /\
  double_add 0x7FEFFFFFFFFFFFFF 0x7FEFFFFFFFFFFFFF = 0x7FF0000000000000 /\
  double_ltb 0x8000000000000001 0 = true.
Proof. vm_compute. auto. Qed.
