(* ===== verification/Queries.v ===== *)
(** The queries of src/query that need no priority queue: breadth first and depth first
    search, degrees, random walks, and the result types with the construction of paths.

    A query works on a heap file, whose page cache and counters it changes, and writes its own
    log file.  The tables of a search are created with the value of [rand()] as their seed,
    which is an argument here, and so are the results of [rand()] in a random walk.
    [array_list_destroy] and the destructors of the results only free. *)

From S2P Require Import Prelude Constants LinkedList HTable ArrayList DiskFile PhysicalDatabase Page PageCache HeaderPage Records HeapFile Doubles.
From Stdlib Require Import ZArith Lia Floats.SpecFloat.
From stdpp Require Import base list option gmap strings.

#[local] Open Scope Z_scope.

(** ** Result types *)

(** [dict_ul_ul*] and [dict_ul_d*] are both tables of 64-bit words. *)
Record traversal_result := TraversalResult {
  tr_source : Z;
  traversal_numbers : dict_ul_ul;
  parents : dict_ul_ul }.

Record sssp_result := SsspResult {
  sssp_source : Z;
  distances : dict_ul_ul;
  pred_edges : dict_ul_ul }.

Record path := Path {
  p_source : Z;
  p_target : Z;
  p_distance : Z;
  p_edges : alist Z }.

Definition create_traversal_result (source_node : Z) (traversal_numbers parents : dict_ul_ul)
    : traversal_result := TraversalResult source_node traversal_numbers parents.
Definition create_sssp_result (source_node : Z) (distances parents : dict_ul_ul)
    : sssp_result := SsspResult source_node distances parents.
Definition create_path (source_node_id target_node_id distance : Z) (edges : alist Z) : res path :=
  if source_node_id =? UNINITIALIZED_LONG then Exit
  else Ok (Path source_node_id target_node_id distance edges).

Definition d_ul_ul_create (seed : Z) : dict_ul_ul := htable_create 0 0 seed.

(** The node at the other end of a relationship. *)
Definition other_node (node_id : Z) (rel : relationship_t) : Z :=
  if node_id =? source_node rel then target_node rel else source_node rel.

Section Queries.
Context `{Sysconf}.

(** *** Paths *)

(** The loop of [construct_path] up the tree of predecessors: the relationships from the
    target to the source, and the sum of their weights. *)
Fixpoint path_loop (fuel : nat) (hf : heap_file) (source_node_id node_id : Z) (parents : dict_ul_ul)
    (edges_reverse : alist Z) (distance : Z) (log : bool) : res (alist Z * Z * heap_file) :=
  match fuel with
  | O => NoFuel
  | S fuel' =>
      parent_id ← dict_get_direct parents node_id;
      edges_reverse ← array_list_append edges_reverse parent_id;
      '(rel, hf) ← read_relationship hf parent_id log;
      let node_id := if target_node rel =? node_id then source_node rel else target_node rel in
      let distance := double_add distance (weight rel) in
      if negb (node_id =? source_node_id)
      then path_loop fuel' hf source_node_id node_id parents edges_reverse distance log
      else Ok (edges_reverse, distance, hf)
  end.

(** The relationships in reverse order. *)
Definition path_edges (edges_reverse : alist Z) : res (alist Z) :=
  for_loop (Z.to_nat (array_list_size edges_reverse)) 1
    (fun i edges =>
       e ← array_list_get edges_reverse (array_list_size edges_reverse - i);
       array_list_append edges e)
    array_list_create.

Definition construct_path (hf : heap_file) (source_node_id target_node_id : Z) (parents : dict_ul_ul)
    (log : bool) : res (path * heap_file) :=
  if (source_node_id =? UNINITIALIZED_LONG) || (target_node_id =? UNINITIALIZED_LONG) then Exit
  else
    '(edges_reverse, distance, hf) ←
      path_loop (Z.to_nat (htable_size parents) + 1) hf source_node_id target_node_id parents
        array_list_create 0 log;
    edges ← path_edges edges_reverse;
    p ← create_path source_node_id target_node_id distance edges;
    Ok (p, hf).

(** The nodes along a path: the round for one relationship, and the loop. *)
Definition extract_step (log : bool) (e : Z) (s : alist Z * heap_file) : res (alist Z * heap_file) :=
  let '(nodes, hf) := s in
  '(rel, hf) ← read_relationship hf e log;
  prev_node ← array_list_get nodes (array_list_size nodes - 1);
  nodes ← (if source_node rel =? prev_node then array_list_append nodes (target_node rel)
           else if target_node rel =? prev_node then array_list_append nodes (source_node rel)
           else Ok nodes);
  Ok (nodes, hf).

Definition path_extract_vertices (p : path) (hf : heap_file) (log : bool) : res (alist Z * heap_file) :=
  nodes ← array_list_append array_list_create (p_source p);
  for_loop (Z.to_nat (array_list_size (p_edges p))) 0
    (fun i s => e ← array_list_get (p_edges p) i; extract_step log e s) (nodes, hf).

(** ** Breadth first and depth first search *)

(** The state of a search: the number of each node, [ULONG_MAX] when it was not found yet,
    the relationship it was found by, the nodes to expand, and the log file. *)
Record search := Search {
  s_numbers : dict_ul_ul;
  s_parents : dict_ul_ul;
  s_pending : llist Z;
  s_log : log_file }.

(** [for (i < hf->n_nodes) insert(d, get(nodes, i)->id, ULONG_MAX);] *)
Definition mark_unvisited (n_nodes : Z) (nodes : alist node_t) (d : dict_ul_ul) : res dict_ul_ul :=
  for_loop (Z.to_nat n_nodes) 0
    (fun i d => node ← array_list_get nodes i; dict_insert d (n_id node) ULONG_MAX) d.

(** The body of the loop over the relationships of a node. *)
Definition visit_rel (tag : string) (node_id : Z) (log : bool) (rel : relationship_t) (s : search)
    : res search :=
  let lf := log_when log [LStr tag; LStr "R"; LNum (r_id rel)] (s_log s) in
  let temp := other_node node_id rel in
  number ← dict_get_direct (s_numbers s) temp;
  if number =? ULONG_MAX then
    own ← dict_get_direct (s_numbers s) node_id;
    numbers ← dict_insert (s_numbers s) temp (u64 (own + 1));
    parents ← dict_insert (s_parents s) temp (r_id rel);
    pending ← linked_list_push (s_pending s) temp;
    Ok (Search numbers parents pending lf)
  else Ok (Search (s_numbers s) (s_parents s) (s_pending s) lf).

Definition visit_rels (tag : string) (node_id : Z) (log : bool) (rels : alist relationship_t) (s : search)
    : res search :=
  for_loop (Z.to_nat (array_list_size rels)) 0
    (fun i s => rel ← array_list_get rels i; visit_rel tag node_id log rel s) s.

(** The loop over the pending nodes; breadth first search takes them from a queue, depth
    first search from a stack. *)
Fixpoint search_loop (fuel : nat) (pop : llist Z -> res (Z * llist Z)) (tag : string) (hf : heap_file)
    (direction : direction_t) (log : bool) (s : search) : res (search * heap_file) :=
  match fuel with
  | O => NoFuel
  | S fuel' =>
      if (linked_list_size (s_pending s) =? 0)%nat then Ok (s, hf)
      else
        '(node_id, pending) ← pop (s_pending s);
        '(current_rels, hf) ← expand hf node_id direction log;
        let lf := log_when log [LStr tag; LStr "N"; LNum node_id] (s_log s) in
        s ← visit_rels tag node_id log current_rels (Search (s_numbers s) (s_parents s) pending lf);
        search_loop fuel' pop tag hf direction log s
  end.

(** The two searches, up to the container of the pending nodes. *)
Definition search_from (pop : llist Z -> res (Z * llist Z)) (tag : string) (hf : heap_file) (source_node_id : Z)
    (direction : direction_t) (log : bool) (lf : log_file) (seed_parents seed_numbers : Z)
    : res (traversal_result * heap_file * log_file) :=
  if source_node_id =? UNINITIALIZED_LONG then Exit
  else
    let parents := d_ul_ul_create seed_parents in
    let numbers := d_ul_ul_create seed_numbers in
    '(nodes, hf) ← get_nodes hf log;
    numbers ← mark_unvisited (n_nodes hf) nodes numbers;
    pending ← linked_list_push linked_list_create source_node_id;
    numbers ← dict_insert numbers source_node_id 0;
    '(s, hf) ← search_loop (Z.to_nat (n_nodes hf) + 2) pop tag hf direction log (Search numbers parents pending lf);
    _ ← linked_list_destroy (s_pending s);
    Ok (create_traversal_result source_node_id (s_numbers s) (s_parents s), hf, s_log s).

Definition bfs (hf : heap_file) (source_node_id : Z) (direction : direction_t) (log : bool) (lf : log_file)
    (seed_parents seed_bfs : Z) : res (traversal_result * heap_file * log_file) :=
  search_from queue_pop "bfs" hf source_node_id direction log lf seed_parents seed_bfs.

Definition dfs (hf : heap_file) (source_node_id : Z) (direction : direction_t) (log : bool) (lf : log_file)
    (seed_parents seed_dfs : Z) : res (traversal_result * heap_file * log_file) :=
  search_from stack_pop "dfs" hf source_node_id direction log lf seed_parents seed_dfs.

(** ** Degrees *)

(** [if (log) if (log_file) fprintf(log_file, line);] *)
Definition log_if (log : bool) (line : log_line) (lf : option log_file) : option log_file :=
  log_when log line <$> lf.

(** The loop that logs the relationships. *)
Definition log_rels (log : bool) (tag : string) (rels : alist relationship_t) (lf : option log_file)
    : res (option log_file) :=
  if log && bool_decide (is_Some lf) then
    for_loop (Z.to_nat (array_list_size rels)) 0
      (fun i lf => rel ← array_list_get rels i; Ok (log_if log [LStr tag; LStr "R "; LNum (r_id rel)] lf)) lf
  else Ok lf.

Definition get_degree (hf : heap_file) (node_id : Z) (direction : direction_t) (log : bool)
    (lf : option log_file) : res (Z * heap_file * option log_file) :=
  if node_id =? UNINITIALIZED_LONG then Exit
  else
    let lf := log_if log [LStr "get_degree"; LStr "N "; LNum node_id] lf in
    '(rels, hf) ← expand hf node_id direction log;
    let degree := array_list_size rels in
    lf ← log_rels log "get_degree" rels lf;
    Ok (degree, hf, lf).

Definition get_avg_degree (hf : heap_file) (direction : direction_t) (log : bool) (lf : option log_file)
    : res (spec_float * heap_file * option log_file) :=
  '(nodes, hf) ← get_nodes hf log;
  let num_nodes := array_list_size nodes in
  '(total_degree, hf, lf) ←
    for_loop (Z.to_nat num_nodes) 0
      (fun i '(total_degree, hf, lf) =>
         node ← array_list_get nodes i;
         '(rels, hf) ← expand hf (n_id node) direction log;
         let total_degree := u64 (total_degree + array_list_size rels) in
         let lf := log_if log [LStr "get_avg_degree"; LStr "N "; LNum i] lf in
         lf ← log_rels log "get_avg_degree" rels lf;
         Ok (total_degree, hf, lf))
      (0, hf, lf);
  Ok (f32_div (f32_of_Z total_degree) (f32_of_Z num_nodes), hf, lf).

(** The loop of [get_min_degree] and [get_max_degree], with the update of the result. *)
Definition degree_step (choose : Z -> Z -> Z) (direction : direction_t) (log : bool) (node : node_t)
    (s : Z * heap_file * option log_file) : res (Z * heap_file * option log_file) :=
  let '(best, hf, lf) := s in
  '(degree, hf, lf) ← get_degree hf (n_id node) direction log lf;
  Ok (choose degree best, hf, lf).

Definition fold_degrees (choose : Z -> Z -> Z) (start : Z) (hf : heap_file) (direction : direction_t)
    (log : bool) (lf : option log_file) : res (Z * heap_file * option log_file) :=
  '(nodes, hf) ← get_nodes hf log;
  for_loop (Z.to_nat (array_list_size nodes)) 0
    (fun i s => node ← array_list_get nodes i; degree_step choose direction log node s) (start, hf, lf).

Definition get_min_degree (hf : heap_file) (direction : direction_t) (log : bool) (lf : option log_file)
    : res (Z * heap_file * option log_file) :=
  fold_degrees (fun degree min_degree => if degree <? min_degree then degree else min_degree) SIZE_MAX
    hf direction log lf.

Definition get_max_degree (hf : heap_file) (direction : direction_t) (log : bool) (lf : option log_file)
    : res (Z * heap_file * option log_file) :=
  fold_degrees (fun degree max_degree => if max_degree <? degree then degree else max_degree) 0
    hf direction log lf.

(** ** Random walks *)

(** The loop; [rnd i] is what the [i]-th call of [rand()] returns, and the loop calls it once
    in every round. *)
Fixpoint walk_loop (n : nat) (i : nat) (rnd : nat -> Z) (hf : heap_file) (current_node : Z)
    (direction : direction_t) (visited_rels : alist Z) (distance : Z) (log : bool) (lf : log_file)
    : res (Z * alist Z * Z * heap_file * log_file) :=
  match n with
  | O => Ok (current_node, visited_rels, distance, hf, lf)
  | S n' =>
      '(cur_rels, hf) ← expand hf current_node direction log;
      let lf := log_when log [LStr "random_walk N"; LNum current_node] lf in
      if array_list_size cur_rels =? 0 then Ok (current_node, visited_rels, distance, hf, lf)
      else
        rel ← array_list_get cur_rels (rnd i mod array_list_size cur_rels);
        let lf := log_when log [LStr "random_walk R"; LNum (r_id rel)] lf in
        visited_rels ← array_list_append visited_rels (r_id rel);
        let distance := double_add distance (weight rel) in
        let current_node := if source_node rel =? current_node then target_node rel else source_node rel in
        walk_loop n' (S i) rnd hf current_node direction visited_rels distance log lf
  end.

Definition random_walk (hf : heap_file) (node_id num_steps : Z) (direction : direction_t) (log : bool)
    (lf : log_file) (rnd : nat -> Z) : res (path * heap_file * log_file) :=
  if node_id =? UNINITIALIZED_LONG then Exit
  else
    '(current_node, visited_rels, distance, hf, lf) ←
      walk_loop (Z.to_nat num_steps) 0 rnd hf node_id direction array_list_create 0 log lf;
    p ← create_path node_id current_node distance visited_rels;
    Ok (p, hf, lf).
End Queries.
