(* ===== verification/Walks.v ===== *)
(** Walks in a graph, and what a heap file promises to the queries.

    [step G d a x b] says that relationship [x] leads from [a] to [b] when relationships are
    followed in direction [d], and [walk] that a list of relationships leads from one node to
    another.  [serves hf G] is the interface the queries are verified against: the operations
    of a heap file that represents [G], stated without its records and pages. *)

From S2P Require Import Prelude Constants LinkedList HTable ArrayList DiskFile PhysicalDatabase Page PageCache PageCacheInv HeaderPage Records HeapFile HeapFileInv HeapRecords HeapStore Chains Incidence Traversal Doubles Queries.
From Stdlib Require Import ZArith Lia.
From stdpp Require Import base list list_numbers option fin_maps gmap strings.

#[local] Open Scope Z_scope.

(** ** Walks *)

Definition step (G : graph) (d : direction_t) (a x b : Z) : Prop :=
  exists e, g_edges G !! x = Some e /\
    ((d <> INCOMING /\ e_source e = a /\ e_target e = b) \/
     (d <> OUTGOING /\ e_target e = a /\ e_source e = b)).

Inductive walk (G : graph) (d : direction_t) (a : Z) : list Z -> Z -> Prop :=
  | walk_nil : walk G d a [] a
  | walk_snoc xs b x c : walk G d a xs b -> step G d b x c -> walk G d a (xs ++ [x]) c.

(** [k] is the least number of relationships of a walk from [a] to [b]. *)
Definition distance (G : graph) (d : direction_t) (a b : Z) (k : nat) : Prop :=
  (exists xs, walk G d a xs b /\ length xs = k) /\ forall xs, walk G d a xs b -> (k <= length xs)%nat.

Lemma walk_app G d a xs b ys c : walk G d a xs b -> walk G d b ys c -> walk G d a (xs ++ ys) c.
Proof.
  intros W1 W2. induction W2 as [|ys c x c' W2 IH S]; [by rewrite app_nil_r|].
  rewrite app_assoc. by eapply walk_snoc.
Qed.

Lemma walk_cons G d a x b ys c : step G d a x b -> walk G d b ys c -> walk G d a (x :: ys) c.
Proof. intros S W. change (x :: ys) with ([x] ++ ys). eapply walk_app; [|done]. apply (walk_snoc _ _ _ [] a); [constructor|done]. Qed.

(** The walk along an edge ends at the node that the queries compute. *)
Lemma step_other G d a x b e : g_edges G !! x = Some e ->
  step G d a x b <-> dir_edge a d e = true /\ b = if a =? e_source e then e_target e else e_source e.
Proof.
  intros E. unfold step, dir_edge. split.
  - intros (e' & E' & C). assert (e' = e) as -> by congruence.
    destruct C as [(D & <- & <-)|(D & <- & <-)]; rewrite !Z.eqb_refl; cbn [andb].
    + by rewrite (bool_decide_false (d = INCOMING)).
    + rewrite (bool_decide_false (d = OUTGOING)), orb_true_r by done. split; [done|]. destruct (Z.eqb_spec (e_target e) (e_source e)); done.
  - intros [D ->]. exists e. split; [done|]. apply orb_true_iff in D as [D|D];
      apply andb_true_iff in D as [Ed%Z.eqb_eq Hd%negb_true_iff%bool_decide_eq_false].
    + left. by rewrite <- Ed, Z.eqb_refl.
    + destruct (Z.eqb_spec a (e_source e)) as [Es|Es]; [|by right]. right. split_and!; congruence.
Qed.

Lemma step_unique G d a x b c : step G d a x b -> step G d a x c -> b = c.
Proof.
  intros S1 S2. pose proof S1 as (e & E & _).
  apply (step_other _ _ _ _ _ e E) in S1 as [_ ->]. by apply (step_other _ _ _ _ _ e E) in S2 as [_ ->].
Qed.

Lemma walk_snoc_inv G d a xs x c : walk G d a (xs ++ [x]) c -> exists b, walk G d a xs b /\ step G d b x c.
Proof.
  intros W. inversion W as [E|ys b y c' W' St E]; [by destruct xs|]. subst.
  apply app_inj_tail in E as [-> ->]. eauto.
Qed.

Lemma walk_end G d a xs b c : walk G d a xs b -> walk G d a xs c -> b = c.
Proof.
  intros W. revert c. induction W as [|xs b x b' W IH St]; intros c W'.
  - inversion W' as [E|ys u y c' W2 St E]; [done|by destruct ys].
  - apply walk_snoc_inv in W' as (u & W2 & St2). rewrite (IH u W2) in St. by eapply step_unique.
Qed.

Lemma walk_split G d a ys x zs b : walk G d a (ys ++ x :: zs) b -> exists u v, walk G d a ys u /\ step G d u x v.
Proof.
  revert b. induction zs as [|z zs IH] using rev_ind; intros b W.
  - apply walk_snoc_inv in W as (u & W & St). eauto.
  - rewrite app_comm_cons, app_assoc in W. apply walk_snoc_inv in W as (u & W & _). by eapply IH.
Qed.

(** ** Loops over a list *)

Fixpoint for_each {A S} (body : A -> S -> res S) (xs : list A) (s : S) : res S :=
  match xs with
  | [] => Ok s
  | x :: xs' => s ← body x s; for_each body xs' s
  end.

Lemma for_list {A S} (l : alist A) (ys xs : list A) (body : A -> S -> res S) (s : S) :
  al_rep l (ys ++ xs) ->
  for_loop (length xs) (Z.of_nat (length ys)) (fun i s => x ← array_list_get l i; body x s) s = for_each body xs s.
Proof.
  revert ys s. induction xs as [|x xs IH]; intros ys s R; [done|]. cbn [length for_loop for_each].
  rewrite (array_get_ok l _ _ R), list_lookup_middle by done. cbn [or_exit mbind res_bind].
  destruct (body x s) as [s'| | |]; cbn [mbind res_bind]; try done.
  replace (Z.of_nat (length ys) + 1) with (Z.of_nat (length (ys ++ [x]))) by (rewrite length_app; simpl; lia).
  apply IH. by rewrite <- app_assoc.
Qed.

Lemma for_upto {A S} (l : alist A) (xs : list A) (body : A -> S -> res S) (s : S) : al_rep l xs ->
  for_loop (length xs) 0 (fun i s => x ← array_list_get l i; body x s) s = for_each body xs s.
Proof. apply (for_list l [] xs). Qed.

Lemma for_array {A S} (l : alist A) (xs : list A) (body : A -> S -> res S) (s : S) : al_rep l xs ->
  for_loop (Z.to_nat (array_list_size l)) 0 (fun i s => x ← array_list_get l i; body x s) s = for_each body xs s.
Proof.
  intros R. unfold array_list_size. rewrite (al_len_ok _ _ R), Nat2Z.id. by apply for_upto.
Qed.

(** The loop keeps an invariant over the elements that it has seen. *)
Lemma for_each_inv {A S} (I : list A -> S -> Prop) (body : A -> S -> res S) xs s : I [] s ->
  (forall ys x zs s, xs = ys ++ x :: zs -> I ys s -> exists s', body x s = Ok s' /\ I (ys ++ [x]) s') ->
  exists s', for_each body xs s = Ok s' /\ I xs s'.
Proof.
  intros H0 Hs. cut (forall zs ys s, xs = ys ++ zs -> I ys s -> exists s', for_each body zs s = Ok s' /\ I xs s').
  { intros C. by apply (C xs []). }
  intros zs. induction zs as [|x zs IH]; intros ys t E H1; cbn [for_each].
  - rewrite app_nil_r in E. subst. by eexists.
  - destruct (Hs ys x zs t E H1) as (t' & -> & H2). cbn [mbind res_bind].
    apply (IH (ys ++ [x]) t'); [by rewrite <- app_assoc|done].
Qed.

(** ** The interface *)

Section Access.
Context `{RecordPages}.
Implicit Types (hf : heap_file) (G : graph) (n x : Z) (d : direction_t) (log : bool).

(** The operations of a heap file on which a query relies. *)
Definition serves hf G : Prop := graph_file hf G.

(** The relationships that [expand] returns. *)
Record expansion G d n (rs : list relationship_t) : Prop := Expansion {
  ex_ids : NoDup (r_id <$> rs);
  ex_edges : Forall (fun r => g_edges G !! r_id r = Some (edge_of r)) rs;
  ex_steps : forall x b, step G d n x b <-> exists r, r ∈ rs /\ r_id r = x /\ other_node n r = b }.

Lemma serves_keep hf hf' G g : serves hf G -> holds_store hf' g -> represents g G -> same_shape hf hf' -> serves hf' G.
Proof.
  intros [_ Nn Nr] S R Sh. split; [by exists g|by rewrite (sh_nodes _ _ Sh)|by rewrite (sh_rels _ _ Sh)].
Qed.

Lemma keys_length {A} (m : gmap Z A) l : NoDup l -> (forall x, x ∈ l -> is_Some (m !! x)) -> (length l <= size m)%nat.
Proof.
  intros Nd Hl. rewrite <- length_map_to_list, <- (length_fmap fst (map_to_list m)).
  apply submseteq_length, NoDup_submseteq; [done|]. intros x [a E]%Hl.
  apply list_elem_of_fmap. exists (x, a). split; [done|]. by apply elem_of_map_to_list.
Qed.

Lemma expand_serves hf G n d log : serves hf G -> is_Some (g_labels G !! n) ->
  exists l rs hf', expand hf n d log = Ok (l, hf') /\ al_rep l rs /\ expansion G d n rs /\
    Z.of_nat (length rs) < 2 ^ 59 /\ serves hf' G.
Proof.
  intros GF [lb Hn]. pose proof GF as [(g & S & R) Nn Nr].
  destruct (store_node g G n lb R Hn) as (node & En & _).
  destruct (expand_ok g G n node d log R En hf S) as (l & rs & hf' & E & [A _] & I & F & S' & Sh).
  assert (Fe : Forall (fun r => g_edges G !! r_id r = Some (edge_of r)) rs).
  { eapply Forall_impl; [exact F|]. intros r Er. by rewrite (graph_edge g G _ R), Er. }
  destruct (rg_chain _ _ R n node En) as [C _].
  assert (Nd : NoDup (r_id <$> rs)) by (rewrite I; apply pick_nodup, (ch_nodup _ _ _ C)).
  exists l, rs, hf'. split_and!; [done|done| | |by eapply serves_keep].
  - split; [done|done|].
    intros x b. rewrite Forall_forall in Fe. split.
    + intros St. pose proof St as (e & Ee & _). destruct (proj1 (step_other _ _ _ _ _ e Ee) St) as [Dd Eb].
        assert (Hx : x ∈ r_id <$> rs).
        { rewrite I. apply pick_elem. unfold sel. rewrite Ee. split; [|done].
          apply (ch_mem _ _ _ C). rewrite (graph_edge g G x R) in Ee.
          destruct (st_rels g !! x) as [r|]; [|done]. injection Ee as <-. exists r. split; [done|].
          unfold dir_edge in Dd. cbn in Dd. unfold touches.
          apply orb_true_iff in Dd as [Dd|Dd]; apply andb_true_iff in Dd as [Dd%Z.eqb_eq _]; auto. }
        apply list_elem_of_fmap in Hx as (r & -> & Hr). exists r. split_and!; [done..|].
        rewrite Eb. rewrite (Fe r Hr) in Ee. by injection Ee as <-.
    + intros (r & Hr & <- & <-). apply (step_other _ _ _ _ _ (edge_of r) (Fe r Hr)). split; [|done].
        assert (Hx : r_id r ∈ r_id <$> rs) by (by apply list_elem_of_fmap_2).
        rewrite I in Hx. apply pick_elem in Hx as [_ Hx]. unfold sel in Hx. by rewrite (Fe r Hr) in Hx.
  - rewrite <- (length_fmap r_id). destruct (graph_sizes hf g G S R) as [_ B].
    assert (length (r_id <$> rs) <= size (g_edges G))%nat; [|lia]. apply keys_length; [done|].
    intros x (r & -> & Hr)%list_elem_of_fmap. rewrite Forall_forall in Fe. by rewrite (Fe r Hr).
Qed.

Lemma nodes_serves hf G log : serves hf G ->
  exists l ns hf', get_nodes hf log = Ok (l, hf') /\ al_rep l ns /\ serves hf' G /\
    (n_id <$> ns) ≡ₚ (map_to_list (g_labels G)).*1 /\ Z.of_nat (length ns) = n_nodes hf' /\ n_nodes hf' < 2 ^ 59.
Proof.
  intros GF. pose proof GF as [(g & S & R) Nn Nr].
  destruct (get_nodes_listing hf g log S) as (l & ns & hf' & E & [A _] & L & S' & Sh).
  pose proof (nodes_keyed _ _ S) as K.
  pose proof (listing_all n_id _ (fun y a Ey => proj1 (K y a Ey)) _ _ L (fun y a Ey => proj2 (K y a Ey))) as Pm.
  destruct (graph_sizes hf g G S R) as [B _].
  assert (Sz : length ns = size (g_labels G)).
  { by rewrite Pm, length_fmap, <- (rg_labels _ _ R), map_size_fmap, length_map_to_list. }
  exists l, ns, hf'. split_and!; [done|done|by eapply serves_keep| | |].
  - rewrite Pm, <- (rg_labels _ _ R), map_to_list_fmap, <- !list_fmap_compose.
    match goal with |- ?l1 ≡ₚ ?l2 => cut (l1 = l2); [by intros ->|] end. apply list_fmap_ext. intros i [y a] Hi. cbn. apply list_elem_of_lookup_2, elem_of_map_to_list in Hi.
    by apply K.
  - by rewrite (sh_nodes _ _ Sh), Nn, Sz.
  - by rewrite (sh_nodes _ _ Sh), Nn.
Qed.

Lemma relationship_serves hf G x e log : serves hf G -> g_edges G !! x = Some e ->
  exists r hf', read_relationship hf x log = Ok (r, hf') /\ edge_of r = e /\ r_id r = x /\ serves hf' G.
Proof.
  intros GF Ee. pose proof GF as [(g & S & R) _ _]. rewrite (graph_edge g G x R) in Ee.
  destruct (st_rels g !! x) as [r|] eqn:Er; [|done]. injection Ee as Ee.
  destruct (read_rel_ok hf g x r log S Er) as (hf' & E & S' & Sh).
  exists r, hf'. split_and!; [done|done| |by eapply serves_keep]. by apply (rels_keyed _ _ S).
Qed.

Lemma step_ends hf G d a x b : serves hf G -> step G d a x b -> is_Some (g_labels G !! a) /\ is_Some (g_labels G !! b).
Proof.
  intros [(g & S & R) _ _] (e & E & C). destruct (rg_ends _ _ R x e E) as (A & B & _).
  destruct C as [(_ & <- & <-)|(_ & <- & <-)]; done.
Qed.

Lemma labels_initialized hf G n : serves hf G -> is_Some (g_labels G !! n) -> (n =? UNINITIALIZED_LONG) = false.
Proof.
  intros [(g & S & R) _ _] Hn. apply (id_initialized hf g true n S), (has_in_file hf g true n S).
  rewrite (graph_has_node g G n R). by apply bool_decide_true.
Qed.
End Access.
