(* ===== verification/Searches.v ===== *)
(** Breadth first and depth first search on finite maps, and the simulation of the code.

    The state of the abstract search is the map of numbers, the map of predecessors and the
    list of pending nodes.  [sound] is its invariant: numbers are lengths of walks from the
    source, and every node that is not open has its successors found.  [layered] is what a
    queue adds: the pending nodes are ordered by their numbers, which differ by at most one,
    so that numbers are distances.  The loops of the code are shown to do the abstract steps,
    and to end after as many rounds as there are nodes. *)

From S2P Require Import Prelude Constants LinkedList HTable ArrayList DiskFile PhysicalDatabase Page PageCache PageCacheInv HeaderPage Records HeapFile HeapFileInv HeapRecords HeapStore Chains Incidence Traversal Doubles Queries Walks.
From Stdlib Require Import ZArith Lia Sorting.Sorted.
From stdpp Require Import base list list_numbers option fin_maps gmap strings.

#[local] Open Scope Z_scope.

Record searched := Searched {
  a_num : gmap Z Z;
  a_par : gmap Z Z;
  a_pend : list Z }.

Definition number (a : searched) (n : Z) : Z := default 0 (a_num a !! n).
Definition found (a : searched) (n k : Z) : Prop := a_num a !! n = Some k /\ k <> ULONG_MAX.

(** One round of the inner loop, for the relationship [x] to [b]. *)
Definition visit (n : Z) (a : searched) (x b : Z) : searched :=
  if decide (a_num a !! b = Some ULONG_MAX)
  then Searched (<[b := number a n + 1]> (a_num a)) (<[b := x]> (a_par a)) (a_pend a ++ [b])
  else a.

(** The number of nodes that are not found. *)
Definition hidden (a : searched) : nat := size (filter (fun kv => kv.2 = ULONG_MAX) (a_num a)).

Section Invariants.
Context (G : graph) (d : direction_t) (src : Z).
Implicit Types (a : searched) (n x b u k : Z).

(** The invariant, with the list of open nodes: those whose successors may not be found. *)
Record sound a (open : list Z) : Prop := Sound {
  so_dom : forall n, is_Some (a_num a !! n) <-> is_Some (g_labels G !! n);
  so_source : a_num a !! src = Some 0;
  so_walk : forall n k, found a n k -> exists xs, walk G d src xs n /\ Z.of_nat (length xs) = k;
  so_bound : forall n k, found a n k -> k + Z.of_nat (hidden a) < Z.of_nat (size (g_labels G));
  so_depth : forall n k, found a n k -> k <= Z.of_nat (size (a_par a));
  so_pred : forall n x, a_par a !! n = Some x ->
    n <> src /\ exists u k, found a u k /\ found a n (k + 1) /\ step G d u x n;
  so_tree : forall n k, found a n k -> n <> src -> is_Some (a_par a !! n);
  so_nodup : NoDup open;
  so_open : forall n, n ∈ open -> exists k, found a n k;
  so_closed : forall u k x n, found a u k -> u ∉ open -> step G d u x n -> exists j, found a n j }.

Lemma found_number a n k : found a n k -> number a n = k.
Proof. intros [E _]. unfold number. by rewrite E. Qed.

Lemma found_unique a n j k : found a n j -> found a n k -> j = k.
Proof. intros [E _] [E' _]. congruence. Qed.

Lemma found_dec a n : is_Some (a_num a !! n) -> (exists k, found a n k) \/ a_num a !! n = Some ULONG_MAX.
Proof. intros [k E]. destruct (decide (k = ULONG_MAX)) as [->|Hk]; [by right|]. left. by exists k. Qed.

Lemma hidden_insert a b k : a_num a !! b = Some ULONG_MAX -> k <> ULONG_MAX ->
  S (size (filter (fun kv : Z * Z => kv.2 = ULONG_MAX) (<[b := k]> (a_num a)))) = hidden a.
Proof.
  intros E Hk. unfold hidden. rewrite map_filter_insert_False by done.
  rewrite map_filter_delete. set (m := filter _ (a_num a)).
  assert (Eb : m !! b = Some ULONG_MAX) by (by apply map_lookup_filter_Some).
  rewrite map_size_delete_Some by (by eexists).
  assert (size m <> 0%nat); [|lia]. intros Z%map_size_empty_inv. by rewrite Z, lookup_empty in Eb.
Qed.

Lemma sound_perm a a' o o' : sound a o -> a_num a' = a_num a -> a_par a' = a_par a -> o ≡ₚ o' -> sound a' o'.
Proof.
  intros S En Ep P. destruct a as [num par pend], a' as [num' par' pend']. cbn in En, Ep. subst.
  destruct S as [A1 A2 A3 A4 A5 A6 A7 A8 A9 A10]. split; try done.
  - by rewrite <- P.
  - intros n. rewrite <- P. apply A9.
  - intros u k x n F Hu. rewrite <- P in Hu. by apply (A10 u k).
Qed.

(** After the round the node is closed. *)
Lemma close_ok a n k (rs : list relationship_t) : sound a (n :: a_pend a) -> found a n k ->
  (forall x b, step G d n x b -> exists r, r ∈ rs /\ r_id r = x /\ other_node n r = b) ->
  (forall r, r ∈ rs -> exists j, found a (other_node n r) j) -> sound a (a_pend a).
Proof.
  intros S Fn Hs Ha. split; try apply S.
  - pose proof (so_nodup _ _ S) as Nd. by apply NoDup_cons in Nd as [_ Nd].
  - intros u Hu. apply (so_open _ _ S). set_solver.
  - intros u j x v F Hu St. destruct (decide (u = n)) as [->|Hn].
    + destruct (Hs x v St) as (r & Hr & _ & <-). by apply Ha.
    + apply (so_closed _ _ S u j x v F); [set_solver|done].
Qed.

(** ** The queue *)

(** Numbers of open nodes are those of the current node or one more, in order; closed nodes
    have smaller ones, and their successors at most one more. *)
Record layers a n k (seen : list relationship_t) : Prop := Layers {
  ly_pend : forall q j, q ∈ a_pend a -> found a q j -> k <= j <= k + 1;
  ly_sorted : StronglySorted (fun p q => number a p <= number a q) (a_pend a);
  ly_closed : forall u j, found a u j -> u ∉ n :: a_pend a ->
    j <= k /\ forall x v i, step G d u x v -> found a v i -> i <= j + 1;
  ly_seen : forall r i, r ∈ seen -> found a (other_node n r) i -> i <= k + 1 }.

Record layered a : Prop := Layered {
  la_sorted : StronglySorted (fun p q => number a p <= number a q) (a_pend a);
  la_close : forall p q, p ∈ a_pend a -> q ∈ a_pend a -> number a q <= number a p + 1;
  la_closed : forall u j, found a u j -> u ∉ a_pend a ->
    (forall q, q ∈ a_pend a -> j <= number a q) /\ forall x v i, step G d u x v -> found a v i -> i <= j + 1 }.

Lemma sorted_snoc {A} (R : A -> A -> Prop) l y : StronglySorted R l -> Forall (fun z => R z y) l -> StronglySorted R (l ++ [y]).
Proof.
  induction 1 as [|x l S IH F]; intros Fy; simpl; [by repeat constructor|].
  apply Forall_cons in Fy as [Rx Fy]. constructor; [by apply IH|]. apply Forall_app. by split; [|constructor].
Qed.

Lemma sorted_weaken {A} (R R' : A -> A -> Prop) l : StronglySorted R l ->
  (forall y z, y ∈ l -> z ∈ l -> R y z -> R' y z) -> StronglySorted R' l.
Proof.
  induction 1 as [|x l S IH F]; intros W; constructor.
  - apply IH. intros u v Hu Hv. apply W; set_solver.
  - rewrite Forall_forall in *. intros y Hy. apply W; [set_solver..|]. by apply F.
Qed.

(** Taking the first node from the queue, and the end of the round. *)
Lemma layers_pop a n rest k : layered a -> a_pend a = n :: rest -> sound a (n :: rest) -> found a n k ->
  layers (Searched (a_num a) (a_par a) rest) n k [].
Proof.
  intros [So Cl Cd] E S Fn. rewrite E in *. pose proof (found_number _ _ _ Fn) as Nn. split; cbn [a_pend].
  - intros q j Hq Fq. change (found a q j) in Fq. rewrite <- (found_number _ _ _ Fq), <- Nn.
    apply StronglySorted_inv in So as [_ F]. rewrite Forall_forall in F. split; [by apply F|apply Cl; set_solver].
  - by apply StronglySorted_inv in So as [So _].
  - intros u j F Hu. destruct (Cd u j F Hu) as [A B]. split; [|done]. rewrite <- Nn. apply A. set_solver.
  - intros r i Hr. by apply elem_of_nil in Hr.
Qed.

Lemma layers_end a n k (rs : list relationship_t) : layers a n k rs -> sound a (n :: a_pend a) -> found a n k ->
  (forall x b, step G d n x b -> exists r, r ∈ rs /\ r_id r = x /\ other_node n r = b) -> layered a.
Proof.
  intros L S Fn Hs.
  assert (P : forall q, q ∈ a_pend a -> k <= number a q <= k + 1).
  { intros q Hq. destruct (so_open _ _ S q ltac:(set_solver)) as [j F]. rewrite (found_number _ _ _ F). by apply (ly_pend _ _ _ _ L q). }
  split.
  - apply L.
  - intros p q Hp%P Hq%P. lia.
  - intros u j F Hu. destruct (decide (u = n)) as [->|Hne].
    + rewrite (found_unique _ _ _ _ F Fn). split; [intros q Hq%P; lia|].
      intros x v i (r & Hr & _ & <-)%Hs Fi. by apply (ly_seen _ _ _ _ L r).
    + destruct (ly_closed _ _ _ _ L u j F ltac:(set_solver)) as [A B]. split; [|done]. intros q Hq%P. lia.
Qed.

(** ** The end of a search *)

Lemma search_complete a xs n : sound a [] -> walk G d src xs n -> exists k, found a n k.
Proof.
  intros S W. induction W as [|xs b x c W [k F] St].
  - exists 0. split; [apply S|done].
  - apply (so_closed _ _ S b k x c F); [set_solver|done].
Qed.

Lemma search_shortest a xs n k : sound a [] -> layered a -> a_pend a = [] -> walk G d src xs n -> found a n k ->
  k <= Z.of_nat (length xs).
Proof.
  intros S L E W. revert k. induction W as [|xs b x c W IH St]; intros k F.
  - assert (k = 0) as ->; [|simpl; lia]. apply (found_unique a src); [done|]. split; [apply S|done].
  - destruct (search_complete a xs b S W) as [j Fj]. pose proof (IH j Fj).
    destruct (la_closed _ L b j Fj) as [_ B]; [rewrite E; set_solver|]. pose proof (B x c k St F).
    rewrite length_app. simpl. lia.
Qed.
(** ** The start of a search *)

Definition all_hidden (G : graph) : gmap Z Z := (fun _ => ULONG_MAX) <$> g_labels G.
Definition start : searched := Searched (<[src := 0]> (all_hidden G)) ∅ [src].

Lemma start_found n k : found start n k <-> n = src /\ k = 0.
Proof.
  unfold found, start, all_hidden. cbn [a_num]. rewrite lookup_insert, lookup_fmap.
  destruct (decide (src = n)) as [->|Hn]; split.
  - by intros [[= <-] _].
  - intros [_ ->]. by split.
  - intros [E Hk]. destruct (g_labels G !! n); simplify_eq/=.
  - by intros [-> _].
Qed.

Lemma start_hidden : is_Some (g_labels G !! src) -> S (hidden start) = size (g_labels G).
Proof.
  intros [lb Hl]. unfold hidden, start. cbn [a_num].
  set (a0 := Searched (all_hidden G) ∅ []). change (all_hidden G) with (a_num a0).
  rewrite (hidden_insert a0 src 0); [|unfold a0, all_hidden; cbn; by rewrite lookup_fmap, Hl|done].
  unfold hidden, a0, all_hidden. cbn [a_num]. rewrite map_filter_id; [apply map_size_fmap|].
  intros i k E. rewrite lookup_fmap in E. by destruct (g_labels G !! i); simplify_eq/=.
Qed.

Lemma start_sound : is_Some (g_labels G !! src) -> sound start [src].
Proof.
  intros Hs. pose proof (start_hidden Hs). split.
  - intros n. unfold start, all_hidden. cbn [a_num]. rewrite lookup_insert.
    destruct (decide (src = n)) as [<-|Hn]; [split; eauto|]. by rewrite lookup_fmap, fmap_is_Some.
  - cbn. by rewrite lookup_insert_eq.
  - intros n k [-> ->]%start_found. exists []. split; [constructor|done].
  - intros n k [-> ->]%start_found. lia.
  - intros n k [-> ->]%start_found. lia.
  - intros n x E. cbn in E. by rewrite lookup_empty in E.
  - intros n k [-> _]%start_found. done.
  - apply NoDup_singleton.
  - intros n ->%list_elem_of_singleton. exists 0. by apply start_found.
  - intros u k x n [-> _]%start_found Hu. set_solver.
Qed.

End Invariants.

(** ** The rounds of a search *)

Definition visits (n : Z) (a : searched) (rs : list relationship_t) : searched :=
  foldl (fun a r => visit n a (r_id r) (other_node n r)) a rs.

Section Rounds.
Context (G : graph) (d : direction_t) (src : Z).
Hypothesis Ends : forall a x b, step G d a x b -> is_Some (g_labels G !! a) /\ is_Some (g_labels G !! b).
Hypothesis Small : Z.of_nat (size (g_labels G)) < 2 ^ 59.
Implicit Types (a : searched) (n x b u k : Z).

Lemma found_small a open n k : sound G d src a open -> found a n k -> 0 <= k < 2 ^ 59.
Proof.
  intros S F. destruct (so_walk _ _ _ _ _ S n k F) as (xs & _ & <-). pose proof (so_bound _ _ _ _ _ S n _ F). lia.
Qed.

(** What [visit] does when the node at the other end is new. *)
Section New.
Context (a : searched) (n b x : Z) (open : list Z) (k : Z).
Hypothesis S : sound G d src a (n :: open).
Hypothesis Fn : found a n k.
Hypothesis Eb : a_num a !! b = Some ULONG_MAX.
Hypothesis St : step G d n x b.
Let a' := visit n a x b.

Lemma visit_new : a' = Searched (<[b := k + 1]> (a_num a)) (<[b := x]> (a_par a)) (a_pend a ++ [b]).
Proof. unfold a', visit. by rewrite decide_True, (found_number _ _ _ Fn). Qed.

Lemma new_not_found j : ~ found a b j.
Proof. intros [E N]. congruence. Qed.

Lemma new_number : k + 1 <> ULONG_MAX.
Proof. pose proof (found_small _ _ _ _ S Fn). unfold ULONG_MAX. lia. Qed.

Lemma new_found u j : found a' u j <-> (u = b /\ j = k + 1) \/ (u <> b /\ found a u j).
Proof.
  rewrite visit_new. unfold found. cbn [a_num]. rewrite lookup_insert. pose proof new_number.
  destruct (decide (b = u)) as [->|Hu]; split.
  - intros [[= <-] _]. by left.
  - intros [[_ ->]|[? _]]; [|done]. done.
  - intros F. right. by split.
  - intros [[-> _]|[_ F]]; done.
Qed.

Lemma found_kept u j : found a u j -> found a' u j.
Proof. intros F. apply new_found. right. split; [|done]. intros ->. by apply (new_not_found j). Qed.

Lemma hidden_new : Datatypes.S (hidden a') = hidden a.
Proof. unfold hidden at 1. rewrite visit_new. cbn [a_num]. apply hidden_insert; [done|apply new_number]. Qed.

Lemma sound_new : sound G d src a' (n :: open ++ [b]).
Proof.
  pose proof hidden_new as Hd. pose proof new_number as Nk. split.
  - intros u. rewrite <- (so_dom _ _ _ _ _ S u), visit_new. cbn [a_num]. rewrite lookup_insert.
    destruct (decide (b = u)) as [->|]; [|done]. rewrite Eb. split; intros _; eauto.
  - rewrite visit_new. cbn [a_num]. rewrite lookup_insert_ne; [apply S|]. intros ->.
    rewrite (so_source _ _ _ _ _ S) in Eb. discriminate.
  - intros u j [[-> ->]|[_ F]]%new_found; [|by apply S].
    destruct (so_walk _ _ _ _ _ S n k Fn) as (xs & W & L). exists (xs ++ [x]). split; [by eapply walk_snoc|].
    rewrite length_app. simpl. lia.
  - intros u j [[-> ->]|[_ F]]%new_found; [pose proof (so_bound _ _ _ _ _ S n k Fn)|pose proof (so_bound _ _ _ _ _ S u j F)]; lia.
  - intros u j F. rewrite visit_new. cbn [a_par]. rewrite map_size_insert_None.
    + apply new_found in F as [[-> ->]|[_ F]]; [pose proof (so_depth _ _ _ _ _ S n k Fn)|pose proof (so_depth _ _ _ _ _ S u j F)]; lia.
    + destruct (a_par a !! b) as [y|] eqn:Ey; [|done]. destruct (so_pred _ _ _ _ _ S b y Ey) as (_ & w & i & _ & Fb & _).
      exfalso. by apply (new_not_found (i + 1)).
  - intros u y E. rewrite visit_new in E. cbn [a_par] in E. rewrite lookup_insert in E.
    destruct (decide (b = u)) as [<-|Hu].
    + injection E as <-. split; [intros ->; rewrite (so_source _ _ _ _ _ S) in Eb; discriminate|].
      exists n, k. split_and!; [by apply found_kept|apply new_found; by left|done].
    + destruct (so_pred _ _ _ _ _ S u y E) as (Hs & w & j & F1 & F2 & St'). split; [done|].
      exists w, j. split_and!; [by apply found_kept..|done].
  - intros u j F Hs. rewrite visit_new. cbn [a_par]. rewrite lookup_insert. case_decide; [eauto|].
    apply new_found in F as [[-> _]|[_ F]]; [done|]. by eapply so_tree.
  - pose proof (so_nodup _ _ _ _ _ S) as Nd. rewrite app_comm_cons. apply NoDup_app. split_and!; [done| |apply NoDup_singleton].
    intros u Hu ->%list_elem_of_singleton. destruct (so_open _ _ _ _ _ S b Hu) as [j F]. by apply (new_not_found j).
  - intros u Hu. rewrite app_comm_cons, elem_of_app, list_elem_of_singleton in Hu. destruct Hu as [Hu| ->].
    + destruct (so_open _ _ _ _ _ S u Hu) as [j F]. exists j. by apply found_kept.
    + exists (k + 1). apply new_found. by left.
  - intros u j y w F Hu St'. rewrite app_comm_cons, not_elem_of_app, list_elem_of_singleton in Hu. destruct Hu as [Hu Hb].
    apply new_found in F as [[-> _]|[_ F]]; [done|].
    destruct (so_closed _ _ _ _ _ S u j y w F Hu St') as [i Fi]. exists i. by apply found_kept.
Qed.
End New.

(** [b] is found after the visit, what was found before still is, and the list of pending
    nodes grows by what is no longer hidden. *)
Lemma visit_ok a n k x b : sound G d src a (n :: a_pend a) -> found a n k -> step G d n x b ->
  let a' := visit n a x b in
  sound G d src a' (n :: a_pend a') /\ found a' n k /\ (exists j, found a' b j) /\ (forall u j, found a u j -> found a' u j) /\
  (hidden a' + length (a_pend a') = hidden a + length (a_pend a))%nat.
Proof.
  intros S Fn St. cbv zeta. assert (Hb : is_Some (a_num a !! b)) by (apply (so_dom _ _ _ _ _ S), (Ends _ _ _ St)).
  destruct (found_dec a b Hb) as [[j Fb]|Eb].
  - assert (E : visit n a x b = a) by (unfold visit; rewrite decide_False; [done|]; destruct Fb; congruence).
    rewrite E. split_and!; [done|done|by exists j|done|done].
  - pose proof (sound_new a n b x (a_pend a) k S Fn Eb St) as S'. pose proof (hidden_new a n b x (a_pend a) k S Fn Eb) as Hd.
    assert (Ep : a_pend (visit n a x b) = a_pend a ++ [b]) by (rewrite (visit_new a n b x k Fn Eb); done).
    rewrite Ep. split_and!; [done|by apply (found_kept a n b x (a_pend a) k S Fn Eb St)| | |rewrite length_app; simpl; lia].
    + exists (k + 1). apply (proj2 (new_found a n b x (a_pend a) k S Fn Eb St _ _)). by left.
    + intros u j. apply (found_kept a n b x (a_pend a) k S Fn Eb St).
Qed.

Lemma visits_found n k u j rs : forall a, (forall r, r ∈ rs -> step G d n (r_id r) (other_node n r)) ->
  sound G d src a (n :: a_pend a) -> found a n k -> found a u j -> found (visits n a rs) u j.
Proof.
  induction rs as [|r rs IH]; intros a Hs S F Fu; [done|]. cbn [visits foldl].
  destruct (visit_ok a n k _ _ S F (Hs r ltac:(set_solver))) as (S2 & F2 & _ & K2 & _).
  apply IH; [set_solver|done..|by apply K2].
Qed.

(** The round over the relationships of [n]; [I] is a further invariant. *)
Lemma visits_ok (I : list relationship_t -> searched -> Prop) n k rs : forall seen a,
  (forall r, r ∈ rs -> step G d n (r_id r) (other_node n r)) ->
  (forall seen a r, sound G d src a (n :: a_pend a) -> found a n k -> step G d n (r_id r) (other_node n r) ->
     I seen a -> I (seen ++ [r]) (visit n a (r_id r) (other_node n r))) ->
  sound G d src a (n :: a_pend a) -> found a n k -> I seen a ->
  let a' := visits n a rs in
  sound G d src a' (n :: a_pend a') /\ found a' n k /\ (forall r, r ∈ rs -> exists j, found a' (other_node n r) j) /\
  (hidden a' + length (a_pend a') = hidden a + length (a_pend a))%nat /\ I (seen ++ rs) a'.
Proof.
  induction rs as [|r rs IH]; intros seen a Hs HI S Fn Ha; cbv zeta.
  - rewrite app_nil_r. split_and!; [done|done| |done|done]. intros r Hr. by apply elem_of_nil in Hr.
  - cbn [visits foldl]. fold (visits n (visit n a (r_id r) (other_node n r)) rs).
    assert (St : step G d n (r_id r) (other_node n r)) by (apply Hs; set_solver).
    destruct (visit_ok a n k _ _ S Fn St) as (S1 & F1 & [j Fj] & K1 & Le1). set (a1 := visit n a _ _) in *.
    destruct (IH (seen ++ [r]) a1) as (S2 & F2 & A2 & Le2 & I2); [set_solver|done..|by apply HI|].
    rewrite <- app_assoc in I2. split_and!; [done|done| |lia|done].
    intros r' [-> |Hr']%elem_of_cons; [|by apply A2].
    exists j. apply (visits_found n k); [set_solver|done..].
Qed.

Lemma layers_visit n k seen a r : sound G d src a (n :: a_pend a) -> found a n k -> step G d n (r_id r) (other_node n r) ->
  layers G d a n k seen -> layers G d (visit n a (r_id r) (other_node n r)) n k (seen ++ [r]).
Proof.
  intros S Fn St L. set (b := other_node n r) in *.
  assert (Hb : is_Some (a_num a !! b)) by (apply (so_dom _ _ _ _ _ S), (Ends _ _ _ St)).
  destruct (found_dec a b Hb) as [[j Fb]|Eb].
  - assert (E : visit n a (r_id r) b = a) by (unfold visit; rewrite decide_False; [done|]; destruct Fb; congruence).
    rewrite E. split; [apply L..|]. intros r' i [Hr| ->%list_elem_of_singleton]%elem_of_app Fi; [by apply (ly_seen _ _ _ _ _ _ L r')|].
    fold b in Fi. destruct (decide (b = n)) as [Ebn|Hne]; [rewrite Ebn in Fi; pose proof (found_unique _ _ _ _ Fi Fn); lia|].
    destruct (decide (b ∈ a_pend a)) as [Hin|Hni]; [by apply (ly_pend _ _ _ _ _ _ L b)|].
    destruct (ly_closed _ _ _ _ _ _ L b i Fi); [set_solver|lia].
  - pose proof (new_found a n b (r_id r) (a_pend a) k S Fn Eb St) as Nf.
    assert (Nb : forall q, q ∈ n :: a_pend a -> q <> b).
    { intros q Hq ->. destruct (so_open _ _ _ _ _ S b Hq) as [j F]. by apply (new_not_found a b Eb j). }
    assert (Ep : a_pend (visit n a (r_id r) b) = a_pend a ++ [b]) by (rewrite (visit_new a n b _ k Fn Eb); done).
    assert (Old : forall q, q ∈ a_pend a -> number (visit n a (r_id r) b) q = number a q).
    { intros q Hq. destruct (so_open _ _ _ _ _ S q ltac:(set_solver)) as [j F]. rewrite (found_number _ _ _ F).
      apply found_number, (proj2 (Nf _ _)). right. split; [apply Nb; set_solver|done]. }
    split.
    + intros q j. rewrite Ep. intros Hq [[-> ->]|[Hqb F]]%Nf; [lia|].
      apply (ly_pend _ _ _ _ _ _ L q); [set_solver|done].
    + rewrite Ep. apply sorted_snoc.
      * eapply sorted_weaken; [apply (ly_sorted _ _ _ _ _ _ L)|]. intros p q Hp Hq. by rewrite !Old.
      * apply Forall_forall. intros q Hq. rewrite Old by done.
        rewrite (found_number _ b (k + 1)) by (apply (proj2 (Nf _ _)); by left).
        destruct (so_open _ _ _ _ _ S q ltac:(set_solver)) as [j F]. rewrite (found_number _ _ _ F).
        by apply (ly_pend _ _ _ _ _ _ L q j Hq F).
    + intros u j. rewrite Ep. intros [[-> ->]|[Hub F]]%Nf Hu; [set_solver|].
      assert (Hu' : u ∉ n :: a_pend a) by set_solver. destruct (ly_closed _ _ _ _ _ _ L u j F Hu') as [Hj Hc].
      split; [done|]. intros x v i St' [[-> _]|[_ Fi]]%Nf; [|by apply (Hc x v)].
      destruct (so_closed _ _ _ _ _ S u j x b F Hu' St') as [i' Fi]. exfalso. by apply (new_not_found a b Eb i').
    + intros r' i Hr [[Eo ->]|[Ho F]]%Nf; [lia|]. apply elem_of_app in Hr as [Hr| ->%list_elem_of_singleton]; [|done].
      by apply (ly_seen _ _ _ _ _ _ L r').
Qed.

End Rounds.

(** ** The code does the abstract steps *)

Lemma dict_insert_ok (t : dict_ul_ul) k v : wf fnv_hash_ul t ->
  exists t', dict_insert t k v = Ok t' /\ wf fnv_hash_ul t' /\ contents t' = <[k := v]> (contents t).
Proof. intros W. destruct (ht_insert_ok fnv_hash_ul 0 0 t k v W) as (t' & E & W' & C & _). by exists t'. Qed.

Lemma dict_get_ok (t : dict_ul_ul) k : wf fnv_hash_ul t -> dict_get_direct t k = or_exit (contents t !! k).
Proof. intros [S _]. unfold dict_get_direct, htable_get_direct. by rewrite (ht_get_ok fnv_hash_ul t k S). Qed.

Lemma dict_contains_get (t : dict_ul_ul) k : wf fnv_hash_ul t -> dict_contains t k = Ok (bool_decide (is_Some (contents t !! k))).
Proof. intros [S _]. unfold dict_contains, htable_contains. by rewrite (ht_get_ok fnv_hash_ul t k S). Qed.

Lemma dict_create_ok seed : wf fnv_hash_ul (d_ul_ul_create seed) /\ contents (d_ul_ul_create seed) = ∅.
Proof. split; [apply create_wf|reflexivity]. Qed.

(** The loop that gives all nodes a value. *)
Lemma mark_all_ok (v : Z) l ns n_nodes (t : dict_ul_ul) : al_rep l ns -> Z.of_nat (length ns) = n_nodes ->
  wf fnv_hash_ul t -> contents t = ∅ ->
  exists t', for_loop (Z.to_nat n_nodes) 0 (fun i d => node ← array_list_get l i; dict_insert d (n_id node) v) t = Ok t' /\
    wf fnv_hash_ul t' /\ forall n, contents t' !! n = if decide (n ∈ n_id <$> ns) then Some v else None.
Proof.
  intros Al <- W C. rewrite Nat2Z.id, (for_upto l ns (fun node t => dict_insert t (n_id node) v) t Al).
  set (I := fun (ys : list node_t) (t : dict_ul_ul) => wf fnv_hash_ul t /\
    forall n, contents t !! n = if decide (n ∈ n_id <$> ys) then Some v else None).
  apply (for_each_inv I).
  - split; [done|]. intros n. by rewrite C, lookup_empty.
  - intros ys x zs t1 _ [W1 C1]. destruct (dict_insert_ok t1 (n_id x) v W1) as (t2 & -> & W2 & C2).
    exists t2. split; [done|]. split; [done|]. intros n. rewrite C2, lookup_insert, C1, fmap_app.
    destruct (decide (n_id x = n)) as [<-|Hx].
    + rewrite decide_True; [done|]. apply elem_of_app. right. set_solver.
    + apply decide_ext. rewrite elem_of_app. set_solver.
Qed.

Lemma mark_unvisited_ok l ns n_nodes (t : dict_ul_ul) : al_rep l ns -> Z.of_nat (length ns) = n_nodes ->
  wf fnv_hash_ul t -> contents t = ∅ ->
  exists t', mark_unvisited n_nodes l t = Ok t' /\ wf fnv_hash_ul t' /\
    forall n, contents t' !! n = if decide (n ∈ n_id <$> ns) then Some ULONG_MAX else None.
Proof. apply mark_all_ok. Qed.

Record sim (s : search) (a : searched) : Prop := Sim {
  sim_num : wf fnv_hash_ul (s_numbers s) /\ contents (s_numbers s) = a_num a;
  sim_par : wf fnv_hash_ul (s_parents s) /\ contents (s_parents s) = a_par a;
  sim_pend : rep (s_pending s) (a_pend a) }.

Section Simulation.
Context `{RecordPages}.
Context (G : graph) (d : direction_t) (src : Z) (tag : string) (log : bool).
Hypothesis Ends : forall a x b, step G d a x b -> is_Some (g_labels G !! a) /\ is_Some (g_labels G !! b).
Hypothesis Small : Z.of_nat (size (g_labels G)) < 2 ^ 59.
Implicit Types (a : searched) (s : search) (n x b u k : Z) (hf : heap_file).

Lemma visit_rel_sim s a n k r : sim s a -> sound G d src a (n :: a_pend a) -> found a n k ->
  step G d n (r_id r) (other_node n r) ->
  exists s', visit_rel tag n log r s = Ok s' /\ sim s' (visit n a (r_id r) (other_node n r)).
Proof.
  intros [[Wn Cn] [Wp Cp] Rp] S Fn St. unfold visit_rel, visit. set (b := other_node n r) in *.
  rewrite (dict_get_ok (s_numbers s) b), Cn by done. destruct (so_dom _ _ _ _ _ S b) as [_ Db].
  destruct Db as [j Ej]; [apply (Ends _ _ _ St)|]. rewrite Ej. cbn [or_exit mbind res_bind].
  destruct (Z.eqb_spec j ULONG_MAX) as [->|Hj]; [rewrite decide_True by done|rewrite decide_False by congruence; eexists; split; [reflexivity|by split]].
  pose proof (found_small G d src Small a _ n k S Fn). rewrite (dict_get_ok (s_numbers s) n), Cn, (proj1 Fn) by done. cbn [or_exit mbind res_bind].
  rewrite u64_small by (unfold is_u64; lia).
  destruct (dict_insert_ok (s_numbers s) b (k + 1) Wn) as (t1 & E1 & W1 & C1). rewrite E1. cbn [mbind res_bind].
  destruct (dict_insert_ok (s_parents s) b (r_id r) Wp) as (t2 & E2 & W2 & C2). rewrite E2. cbn [mbind res_bind].
  destruct (append_ring (s_pending s) (a_pend a) b Rp) as (q & E3 & R3). unfold linked_list_push. rewrite E3. cbn [mbind res_bind].
  eexists. split; [reflexivity|]. rewrite (found_number _ _ _ Fn), <- Cn, <- Cp. split; cbn; [done..|by apply ring_rep].
Qed.

Lemma visit_rels_sim n k rs : forall s a, sim s a -> sound G d src a (n :: a_pend a) -> found a n k ->
  (forall r, r ∈ rs -> step G d n (r_id r) (other_node n r)) ->
  exists s', for_each (visit_rel tag n log) rs s = Ok s' /\ sim s' (visits n a rs).
Proof.
  induction rs as [|r rs IH]; intros s a Si S Fn Hs; [by eexists|]. cbn [for_each visits foldl].
  assert (St : step G d n (r_id r) (other_node n r)) by (apply Hs; set_solver).
  destruct (visit_rel_sim s a n k r Si S Fn St) as (s1 & -> & Si1). cbn [mbind res_bind].
  destruct (visit_ok G d src Ends Small a n k _ _ S Fn St) as (S1 & F1 & _).
  apply IH; [done..|set_solver].
Qed.

(** The container of the pending nodes, and a further invariant of the rounds. *)
Context (pop : llist Z -> res (Z * llist Z)) (popf : list Z -> option (Z * list Z)) (X : searched -> Prop).
Hypothesis PopNone : forall pend, popf pend = None -> pend = [].
Hypothesis PopSome : forall pend n rest, popf pend = Some (n, rest) -> pend ≡ₚ n :: rest /\
  forall q, rep q pend -> exists q', pop q = Ok (n, q') /\ rep q' rest.
Hypothesis Round : forall a n rest k rs, X a -> popf (a_pend a) = Some (n, rest) -> sound G d src a (a_pend a) -> found a n k ->
  expansion G d n rs -> X (visits n (Searched (a_num a) (a_par a) rest) rs).

Lemma search_loop_ok fuel : forall hf s a, serves hf G -> sim s a -> sound G d src a (a_pend a) -> X a ->
  (hidden a + length (a_pend a) < fuel)%nat ->
  exists s' hf' a', search_loop fuel pop tag hf d log s = Ok (s', hf') /\ serves hf' G /\ sim s' a' /\
    sound G d src a' [] /\ X a' /\ a_pend a' = [].
Proof.
  induction fuel as [|fuel IH]; intros hf s a Sv Si S HX Hf; [lia|]. cbn [search_loop]. unfold linked_list_size.
  rewrite (rep_ll_len _ _ (sim_pend _ _ Si)).
  destruct (popf (a_pend a)) as [[n rest]|] eqn:Ep.
  2:{ rewrite (PopNone _ Ep) in *. exists s, hf, a. split_and!; try done. by apply PopNone. }
  destruct (PopSome _ _ _ Ep) as [Pm Pop]. pose proof (Permutation_length Pm) as Pl. cbn [length] in Pl.
  rewrite (proj2 (Nat.eqb_neq _ 0)) by lia.
  destruct (Pop _ (sim_pend _ _ Si)) as (q & -> & Rq). cbn [mbind res_bind].
  set (a1 := Searched (a_num a) (a_par a) rest).
  assert (S1 : sound G d src a1 (n :: rest)) by (by apply (sound_perm G d src a a1 (a_pend a))).
  destruct (so_open _ _ _ _ _ S1 n) as [k Fn]; [set_solver|].
  assert (Hn : is_Some (g_labels G !! n)) by (apply (so_dom _ _ _ _ _ S1); destruct Fn; eauto).
  destruct (expand_serves hf G n d log Sv Hn) as (l & rs & hf1 & -> & Al & Ex & Ln & Sv1). cbn [mbind res_bind].
  pose proof (ex_steps _ _ _ _ Ex) as Hs.
  assert (Hr : forall r, r ∈ rs -> step G d n (r_id r) (other_node n r)) by (intros r Hr; apply Hs; eauto).
  unfold visit_rels. rewrite (for_array l rs _ _ Al).
  destruct (visit_rels_sim n k rs (Search (s_numbers s) (s_parents s) q (log_when log [LStr tag; LStr "N"; LNum n] (s_log s))) a1)
    as (s2 & -> & Si2); [by destruct Si as [A B _]; split|done..|]. cbn [mbind res_bind].
  destruct (visits_ok G d src Ends Small (fun _ _ => True) n k rs [] a1) as (S2 & F2 & A2 & Le & _); [done..|].
  set (a2 := visits n a1 rs) in *.
  assert (Eh : hidden a1 = hidden a) by done. assert (El : a_pend a1 = rest) by done. rewrite Eh, El in Le.
  apply (IH hf1 s2 a2); [done|done| |by apply (Round a n rest k)|lia].
  eapply (close_ok G d src); [done|done| |done]. intros x b St. by apply Hs.
Qed.

Lemma search_from_ok hf lf seed1 seed2 : serves hf G -> is_Some (g_labels G !! src) -> X (start G src) ->
  exists r hf' lf' a, search_from pop tag hf src d log lf seed1 seed2 = Ok (r, hf', lf') /\ serves hf' G /\ tr_source r = src /\
    wf fnv_hash_ul (traversal_numbers r) /\ contents (traversal_numbers r) = a_num a /\
    wf fnv_hash_ul (parents r) /\ contents (parents r) = a_par a /\ sound G d src a [] /\ X a /\ a_pend a = [].
Proof.
  intros Sv Hs HX. unfold search_from. rewrite (labels_initialized hf G src Sv Hs).
  destruct (nodes_serves hf G log Sv) as (l & ns & hf1 & -> & Al & Sv1 & Pm & Nn & _). cbn [mbind res_bind].
  destruct (dict_create_ok seed1) as [Wp Cp], (dict_create_ok seed2) as [Wn Cn].
  destruct (mark_unvisited_ok l ns (n_nodes hf1) _ Al Nn Wn Cn) as (t & -> & Wt & Ct). cbn [mbind res_bind].
  destruct (append_ring (linked_list_create (T := Z)) [] src (ring_rep _ _ create_ring)) as (q & Eq & Rq).
  unfold linked_list_push. rewrite Eq. cbn [mbind res_bind].
  destruct (dict_insert_ok t src 0 Wt) as (t1 & -> & W1 & C1). cbn [mbind res_bind].
  assert (Em : contents t1 = a_num (start G src)).
  { rewrite C1. unfold start, all_hidden. cbn [a_num]. f_equal. apply map_eq. intros n. rewrite Ct, lookup_fmap.
    destruct (g_labels G !! n) as [lb|] eqn:El.
    - rewrite decide_True; [done|]. rewrite Pm. apply list_elem_of_fmap. exists (n, lb). split; [done|]. by apply elem_of_map_to_list.
    - rewrite decide_False; [done|]. rewrite Pm. intros ([n' lb] & -> & E%elem_of_map_to_list)%list_elem_of_fmap. cbn in El. congruence. }
  destruct (search_loop_ok (Z.to_nat (n_nodes hf1) + 2) hf1 (Search t1 (d_ul_ul_create seed1) q lf) (start G src))
    as (s & hf2 & a & -> & Sv2 & [[A1 A2] [B1 B2] R2] & S2 & X2 & P2).
  { done. } { split; cbn; [done|done|by apply ring_rep]. } { by apply start_sound. } { done. }
  { pose proof (start_hidden G src Hs). destruct Sv1 as [_ Nn1 _]. rewrite Nn1, Nat2Z.id. cbn [start a_pend length]. lia. }
  cbn [mbind res_bind]. destruct (destroy_ok (s_pending s) (a_pend a) R2) as (q' & -> & _). cbn [mbind res_bind].
  eexists _, hf2, _, a. split; [reflexivity|]. by split_and!.
Qed.
End Simulation.
