(* ===== verification/Paths.v ===== *)
(** Paths: their construction from the tree of a search, the nodes along them, and random
    walks.

    [length_of G xs] is the sum of the weights in the order of the additions; doubles do not
    add associatively, so the order matters. *)

From S2P Require Import Prelude Constants LinkedList HTable ArrayList DiskFile PhysicalDatabase Page PageCache PageCacheInv HeaderPage Records HeapFile HeapFileInv HeapRecords HeapStore Chains Incidence Traversal Doubles Queries Walks Searches.
From Stdlib Require Import ZArith Lia.
From stdpp Require Import base list list_numbers option fin_maps gmap strings.

#[local] Open Scope Z_scope.

Definition weight_of (G : graph) (x : Z) : Z :=
  match g_edges G !! x with Some e => e_weight e | None => 0 end.
Definition add_weights (G : graph) (s : Z) (xs : list Z) : Z :=
  foldl (fun s x => double_add s (weight_of G x)) s xs.
Definition length_of (G : graph) (xs : list Z) : Z := add_weights G 0 xs.

(** A walk with the nodes along it. *)
Inductive trail (G : graph) (d : direction_t) (a : Z) : list Z -> list Z -> Z -> Prop :=
  | trail_nil : trail G d a [] [a] a
  | trail_snoc xs ns b x c : trail G d a xs ns b -> step G d b x c -> trail G d a (xs ++ [x]) (ns ++ [c]) c.

Lemma table_size (t : dict_ul_ul) : wf fnv_hash_ul t -> htable_size t = Z.of_nat (size (contents t)).
Proof.
  intros [S U]. unfold htable_size, contents. rewrite U. f_equal.
  rewrite <- length_map_to_list. apply Permutation_length. symmetry. apply map_to_list_to_map. by eapply entries_nodup.
Qed.

Lemma trail_facts G d a xs ns b : trail G d a xs ns b -> length ns = S (length xs) /\ head ns = Some a /\ last ns = Some b.
Proof.
  induction 1 as [|xs ns b x c T (L & Hd & La) St]; [done|]. rewrite !length_app, last_snoc. simpl.
  split_and!; [lia| |done]. by destruct ns.
Qed.

Lemma trail_walk G d a xs ns b : trail G d a xs ns b -> walk G d a xs b.
Proof. induction 1 as [|xs ns b x c T W St]; [constructor|by eapply walk_snoc]. Qed.

Section Paths.
Context `{RecordPages}.
Implicit Types (G : graph) (hf : heap_file) (d : direction_t) (log : bool) (n x b u k : Z).

(** ** The construction of a path *)

Section Tree.
Context (G : graph) (d : direction_t) (src : Z) (a : searched) (par : dict_ul_ul) (log : bool).
Hypothesis S : sound G d src a [].
Hypothesis Wp : wf fnv_hash_ul par.
Hypothesis Cp : contents par = a_par a.

(** The predecessor of a node, as the code computes it from the relationship. *)
Lemma tree_step n k : found a n k -> n <> src -> exists x u e, dict_get_direct par n = Ok x /\ found a u (k - 1) /\
  step G d u x n /\ g_edges G !! x = Some e /\ (if e_target e =? n then e_source e else e_target e) = u.
Proof.
  intros F Hn. destruct (so_tree _ _ _ _ _ S n k F Hn) as [x Ex].
  destruct (so_pred _ _ _ _ _ S n x Ex) as (_ & u & j & Fu & Fn & St).
  pose proof (found_unique _ _ _ _ F Fn) as ->. pose proof St as (e & Ee & C). exists x, u, e.
  rewrite dict_get_ok, Cp, Ex by done. split_and!; [done|by replace (j + 1 - 1) with j by lia|done|done|].
  destruct C as [(_ & <- & <-)|(_ & Et & Es)]; [by rewrite Z.eqb_refl|].
  rewrite (proj2 (Z.eqb_neq _ _)); [done|]. intros En. rewrite <- Et, En in Fu.
  pose proof (found_unique _ _ _ _ Fu Fn). lia.
Qed.

Lemma path_loop_ok (k : nat) : forall n fuel hf el zs s, found a n (Z.of_nat (Datatypes.S k)) -> (k < fuel)%nat -> serves hf G ->
  al_appended el zs -> Z.of_nat (length zs + k) < 2 ^ 59 ->
  exists es el' hf', path_loop fuel hf src n par el s log = Ok (el', add_weights G s (reverse es), hf') /\ serves hf' G /\
    al_appended el' (zs ++ reverse es) /\ walk G d src es n /\ length es = Datatypes.S k.
Proof.
  assert (F0 : found a src 0) by (split; [apply S|done]).
  induction k as [|k IH]; intros n fuel hf el zs s F Hf Sv Al Hz; (destruct fuel as [|fuel]; [lia|]); cbn [path_loop].
  all: assert (Hn : n <> src) by (intros ->; pose proof (found_unique _ _ _ _ F F0); lia).
  all: destruct (tree_step n _ F Hn) as (x & u & e & Ex & Fu & St & Ee & Eu); rewrite Ex; cbn [mbind res_bind].
  all: destruct (array_append_ok el zs x Al ltac:(lia)) as (el1 & -> & Al1); cbn [mbind res_bind].
  all: destruct (relationship_serves hf G x e log Sv Ee) as (r & hf1 & -> & <- & _ & Sv1); cbn [mbind res_bind].
  all: cbn [edge_of e_source e_target] in Eu; rewrite Eu.
  all: assert (Ew : weight r = weight_of G x) by (unfold weight_of; by rewrite Ee); rewrite Ew.
  - replace (Z.of_nat 1 - 1) with 0 in Fu by lia.
    assert (u = src) as ->.
    { destruct (decide (u = src)) as [|Hu]; [done|]. destruct (tree_step u 0 Fu Hu) as (y & v & e' & _ & Fv & _).
      destruct (so_walk _ _ _ _ _ S v _ Fv) as (ws & _ & Lw). lia. }
    rewrite Z.eqb_refl. cbn [negb]. exists [x], el1, hf1. split_and!; [done|done|done| |done].
    by apply (walk_cons G d src x n [] n); [|constructor].
  - replace (Z.of_nat (Datatypes.S (Datatypes.S k)) - 1) with (Z.of_nat (Datatypes.S k)) in Fu by lia.
    rewrite (proj2 (Z.eqb_neq u src)) by (intros ->; pose proof (found_unique _ _ _ _ Fu F0); lia). cbn [negb].
    destruct (IH u fuel hf1 el1 (zs ++ [x]) (double_add s (weight_of G x)) Fu ltac:(lia) Sv1 Al1) as (es & el2 & hf2 & -> & Sv2 & Al2 & W & L).
    { rewrite length_app. simpl. lia. }
    exists (es ++ [x]), el2, hf2. rewrite reverse_snoc. split_and!; [done|done|by rewrite <- app_assoc in Al2|by eapply walk_snoc|].
    rewrite length_app. simpl. lia.
Qed.

Lemma path_edges_ok el es : al_rep el (reverse es) -> Z.of_nat (length es) < 2 ^ 59 ->
  exists l, path_edges el = Ok l /\ al_appended l es.
Proof.
  intros Al Hz. unfold path_edges, array_list_size. rewrite (al_len_ok _ _ Al), length_reverse, Nat2Z.id.
  destruct (for_loop_inv (fun i l => al_appended l (take (Z.to_nat (i - 1)) es)) (length es) 1
    (fun i edges => e ← array_list_get el (Z.of_nat (length es) - i); array_list_append edges e) array_list_create) as (l & E & A).
  - apply array_create_appended.
  - intros i l Hi A. destruct (lookup_lt_is_Some_2 es (Z.to_nat (i - 1))) as [e Ee]; [lia|].
    replace (Z.of_nat (length es) - i) with (Z.of_nat (length es - Datatypes.S (Z.to_nat (i - 1)))) by lia.
    rewrite (array_get_ok el _ _ Al), reverse_lookup by lia.
    replace (length es - Datatypes.S (length es - Datatypes.S (Z.to_nat (i - 1))))%nat with (Z.to_nat (i - 1)) by lia.
    rewrite Ee. cbn [or_exit mbind res_bind].
    destruct (array_append_ok l _ e A) as (l' & -> & A'); [rewrite length_take; lia|]. exists l'. split; [done|].
    replace (Z.to_nat (i + 1 - 1)) with (Datatypes.S (Z.to_nat (i - 1))) by lia. by rewrite (take_S_r _ _ _ Ee).
  - exists l. rewrite E. split; [done|]. replace (Z.to_nat (1 + Z.of_nat (length es) - 1)) with (length es) in A by lia.
    by rewrite firstn_all in A.
Qed.

Lemma construct_path_ok hf n k : Z.of_nat (size (g_labels G)) < 2 ^ 59 -> serves hf G -> is_Some (g_labels G !! src) -> n <> src -> found a n k ->
  exists p es hf', construct_path hf src n par log = Ok (p, hf') /\ serves hf' G /\ p_source p = src /\ p_target p = n /\
    al_rep (p_edges p) es /\ walk G d src es n /\ Z.of_nat (length es) = k /\ p_distance p = length_of G (reverse es).
Proof.
  intros Sm Sv Hs Hn F. unfold construct_path.
  assert (Hl : is_Some (g_labels G !! n)) by (apply (so_dom _ _ _ _ _ S); destruct F; eauto).
  rewrite (labels_initialized hf G src Sv Hs), (labels_initialized hf G n Sv Hl). cbn [orb].
  destruct (so_walk _ _ _ _ _ S n k F) as (ws & Ww & Lw).
  assert (Hk : exists j, k = Z.of_nat (Datatypes.S j)).
  { destruct ws as [|y ws _] using rev_ind; [|exists (length ws); rewrite length_app in Lw; simpl in Lw; lia].
    inversion Ww as [E|? ? ? ? ? ? E]; [by subst|by destruct xs]. }
  destruct Hk as [j ->]. pose proof (so_bound _ _ _ _ _ S n _ F). pose proof (so_depth _ _ _ _ _ S n _ F).
  rewrite (table_size par Wp), Cp, Nat2Z.id.
  destruct (path_loop_ok j n (size (a_par a) + 1)%nat hf array_list_create [] 0 F ltac:(lia) Sv array_create_appended ltac:(simpl; lia))
    as (es & el & hf1 & -> & Sv1 & [Al _] & W & L). cbn [mbind res_bind].
  destruct (path_edges_ok el es Al ltac:(lia)) as (l & -> & [Al2 _]). cbn [mbind res_bind]. unfold create_path.
  rewrite (labels_initialized hf G src Sv Hs). cbn [mbind res_bind].
  eexists _, es, hf1. split; [reflexivity|]. split_and!; [done..|by rewrite L|done].
Qed.
End Tree.

(** ** The nodes along a path *)

Lemma extract_ok G d hf p es log : serves hf G -> al_rep (p_edges p) es -> walk G d (p_source p) es (p_target p) ->
  Z.of_nat (length es) < 2 ^ 59 ->
  exists l ns hf', path_extract_vertices p hf log = Ok (l, hf') /\ serves hf' G /\ al_rep l ns /\
    trail G d (p_source p) es ns (p_target p).
Proof.
  intros Sv Al W Le. unfold path_extract_vertices.
  destruct (array_append_ok array_list_create [] (p_source p) array_create_appended ltac:(simpl; lia)) as (l0 & -> & A0). cbn [mbind res_bind].
  rewrite (for_array (p_edges p) es (extract_step log) (l0, hf) Al).
  set (I := fun ys (st : alist Z * heap_file) => serves st.2 G /\
    exists ns c, al_appended st.1 ns /\ trail G d (p_source p) ys ns c).
  destruct (for_each_inv I (extract_step log) es (l0, hf)) as ([l hf'] & -> & Sv' & ns & c & [A' _] & Tc).
  - split; [done|]. exists [p_source p], (p_source p). split; [done|constructor].
  - intros ys x zs [l1 hf1] E [Sv1 (ns & c & A1 & Tc)]. cbn [fst snd] in *. rewrite E in W.
    destruct (walk_split _ _ _ _ _ _ _ W) as (c0 & c' & Wc & Sc). rewrite (walk_end _ _ _ _ _ _ Wc (trail_walk _ _ _ _ _ _ Tc)) in Sc.
    pose proof Sc as (e & Ee & _). destruct (relationship_serves hf1 G x e log Sv1 Ee) as (r & hf2 & Er & <- & _ & Sv2).
    unfold extract_step. rewrite Er. cbn [mbind res_bind]. destruct (trail_facts _ _ _ _ _ _ Tc) as (L1 & _ & La).
    unfold array_list_size. rewrite (al_len_ok _ _ (proj1 A1)), L1.
    replace (Z.of_nat (Datatypes.S (length ys)) - 1) with (Z.of_nat (length ys)) by lia.
    rewrite last_lookup, L1 in La. cbn [pred] in La. rewrite (array_get_ok l1 ns _ (proj1 A1)), La. cbn [or_exit mbind res_bind].
    assert (Hl : Z.of_nat (length ns) < 2 ^ 59) by (rewrite L1; rewrite E, length_app in Le; simpl in Le; lia).
    assert (Ec : (if source_node r =? c then array_list_append l1 (target_node r)
                else if target_node r =? c then array_list_append l1 (source_node r) else Ok l1) = array_list_append l1 c').
    { destruct (proj1 (step_other _ _ _ _ _ _ Ee) Sc) as [Dd ->]. unfold dir_edge in Dd. cbn [edge_of e_source e_target] in *.
      rewrite (Z.eqb_sym c). destruct (source_node r =? c); [done|]. cbn [andb orb] in Dd.
      apply andb_true_iff in Dd as [-> _]. done. }
    rewrite Ec. destruct (array_append_ok l1 ns c' A1 Hl) as (l2 & -> & A2). cbn [mbind res_bind].
    eexists (l2, hf2). split; [done|]. split; [done|]. exists (ns ++ [c']), c'. split; [done|]. by eapply trail_snoc.
  - exists l, ns, hf'. split_and!; [done|done|done|]. by rewrite (walk_end _ _ _ _ _ _ W (trail_walk _ _ _ _ _ _ Tc)).
Qed.

(** ** Random walks *)

Lemma walk_loop_ok G d log rnd : forall steps i hf cur el es s lf src, serves hf G -> is_Some (g_labels G !! cur) ->
  al_appended el es -> walk G d src es cur -> Z.of_nat (length es + steps) < 2 ^ 59 ->
  exists cur' el' es' hf' lf', walk_loop steps i rnd hf cur d el s log lf = Ok (cur', el', add_weights G s (drop (length es) es'), hf', lf') /\
    serves hf' G /\ al_appended el' es' /\ walk G d src es' cur' /\ take (length es) es' = es /\ is_Some (g_labels G !! cur') /\
    (length es' = length es + steps \/ (length es' < length es + steps /\ forall x b, ~ step G d cur' x b))%nat.
Proof.
  induction steps as [|steps IH]; intros i hf cur el es s lf src Sv Hc Al W Le; cbn [walk_loop].
  { exists cur, el, es, hf, lf. rewrite drop_all, firstn_all. split_and!; [done..|]. left. lia. }
  destruct (expand_serves hf G cur d log Sv Hc) as (l & rs & hf1 & -> & Ar & Ex & _ & Sv1). cbn [mbind res_bind].
  unfold array_list_size. rewrite (al_len_ok _ _ Ar). destruct (Z.eqb_spec (Z.of_nat (length rs)) 0) as [E0|E0].
  { eexists cur, el, es, hf1, _. rewrite drop_all, firstn_all. split_and!; [done..|]. right. split; [lia|].
    intros x b (r & Hr & _)%(ex_steps _ _ _ _ Ex). destruct rs; [by apply elem_of_nil in Hr|]. simpl in E0. lia. }
  set (j := Z.to_nat (rnd i mod Z.of_nat (length rs))).
  replace (rnd i mod Z.of_nat (length rs)) with (Z.of_nat j) by (unfold j; lia).
  destruct (lookup_lt_is_Some_2 rs j) as [r Er]; [unfold j; lia|]. rewrite (array_get_ok l rs j Ar), Er. cbn [or_exit mbind res_bind].
  destruct (array_append_ok el es (r_id r) Al ltac:(lia)) as (el1 & -> & Al1). cbn [mbind res_bind].
  apply list_elem_of_lookup_2 in Er. pose proof (ex_edges _ _ _ _ Ex) as Fe. rewrite Forall_forall in Fe. pose proof (Fe r Er) as Ee.
  assert (St : step G d cur (r_id r) (other_node cur r)) by (apply (ex_steps _ _ _ _ Ex); eauto).
  assert (Eo : (if source_node r =? cur then target_node r else source_node r) = other_node cur r) by (unfold other_node; by rewrite Z.eqb_sym).
  rewrite Eo. destruct (step_ends hf1 G d _ _ _ Sv1 St) as [_ Hb].
  destruct (IH (Datatypes.S i) hf1 (other_node cur r) el1 (es ++ [r_id r]) (double_add s (weight r))
    (log_when log [LStr "random_walk R"; LNum (r_id r)] (log_when log [LStr "random_walk N"; LNum cur] lf)) src Sv1 Hb Al1)
    as (cur' & el' & es' & hf' & lf' & -> & Sv' & Al' & W' & T' & Hc' & Q); [by eapply walk_snoc|rewrite length_app; simpl; lia|].
  rewrite length_app in *. cbn [length] in *. assert (Ln : (length es + 1 <= length es')%nat).
  { pose proof (f_equal length T') as L. rewrite length_take, length_app in L. simpl in L. lia. }
  assert (Ex' : es' = es ++ r_id r :: drop (length es + 1) es') by (rewrite <- (take_drop (length es + 1) es') at 1; rewrite T', <- app_assoc; done).
  exists cur', el', es', hf', lf'. split_and!; [|done..| |done|].
  - f_equal. f_equal. f_equal. f_equal. rewrite Ex' at 2. rewrite drop_app_length. unfold add_weights. cbn [foldl].
    by replace (weight_of G (r_id r)) with (weight r) by (unfold weight_of; by rewrite Ee).
  - rewrite Ex'. apply take_app_length.
  - destruct Q as [Q|[Q D]]; [left; lia|right; split; [lia|done]].
Qed.

Lemma random_walk_ok G d hf src steps log lf rnd : serves hf G -> is_Some (g_labels G !! src) -> 0 <= steps < 2 ^ 59 ->
  exists p es hf' lf', random_walk hf src steps d log lf rnd = Ok (p, hf', lf') /\ serves hf' G /\
    al_rep (p_edges p) es /\ p_source p = src /\ walk G d src es (p_target p) /\ p_distance p = length_of G es /\
    (Z.of_nat (length es) = steps \/ (Z.of_nat (length es) < steps /\ forall x b, ~ step G d (p_target p) x b)).
Proof.
  intros Sv Hs St. unfold random_walk. rewrite (labels_initialized hf G src Sv Hs).
  destruct (walk_loop_ok G d log rnd (Z.to_nat steps) 0 hf src array_list_create [] 0 lf src Sv Hs array_create_appended)
    as (cur & el & es & hf' & lf' & -> & Sv' & [Al _] & W & _ & _ & Q); [constructor|simpl; lia|]. cbn [mbind res_bind length] in *.
  unfold create_path. rewrite (labels_initialized hf G src Sv Hs). cbn [mbind res_bind]. rewrite drop_0.
  eexists _, es, hf', lf'. split; [reflexivity|]. cbn. split_and!; [done..|].
  destruct Q as [Q|[Q D]]; [left; lia|right; split; [lia|done]].
Qed.
End Paths.
