(* ===== verification/Degrees.v ===== *)
(** Degrees: what the queries count, and the handshake lemma for their sum.

    [degree G d n] is the number of edges at [n] in the direction; a loop counts once. *)

From S2P Require Import Prelude Constants LinkedList HTable ArrayList DiskFile PhysicalDatabase Page PageCache PageCacheInv HeaderPage Records HeapFile HeapFileInv HeapRecords HeapStore Chains Incidence Traversal Doubles Queries Walks.
From Stdlib Require Import ZArith Lia.
From stdpp Require Import base list list_numbers option fin_maps gmap strings.

#[local] Open Scope Z_scope.

Definition edges_at (n : Z) (d : direction_t) (m : gmap Z edge) : nat :=
  size (filter (fun kv => dir_edge n d kv.2 = true) m).
Definition degree (G : graph) (d : direction_t) (n : Z) : nat := edges_at n d (g_edges G).

(** The sum of the degrees: every edge has two ends, a loop one. *)
Definition loops (m : gmap Z edge) : nat := size (filter (fun kv => e_source kv.2 = e_target kv.2) m).
Definition incidences (G : graph) (d : direction_t) : nat :=
  match d with BOTH => 2 * size (g_edges G) - loops (g_edges G) | _ => size (g_edges G) end.

(** ** The handshake lemma *)

Definition ends (d : direction_t) (e : edge) (n : Z) : nat := if dir_edge n d e then 1 else 0.

Lemma edges_at_insert n d m i e : m !! i = None -> edges_at n d (<[i := e]> m) = (ends d e n + edges_at n d m)%nat.
Proof.
  intros Ei. unfold edges_at, ends. destruct (dir_edge n d e) eqn:D.
  - rewrite map_filter_insert_True by done. rewrite map_size_insert_None; [done|].
    apply map_lookup_filter_None. by left.
  - rewrite map_filter_insert_False by (cbn; by rewrite D). by rewrite delete_id.
Qed.

Lemma loops_insert m i e : m !! i = None ->
  loops (<[i := e]> m) = ((if decide (e_source e = e_target e) then 1 else 0) + loops m)%nat.
Proof.
  intros Ei. unfold loops. destruct (decide (e_source e = e_target e)) as [D|D].
  - rewrite map_filter_insert_True by done. rewrite map_size_insert_None; [done|].
    apply map_lookup_filter_None. by left.
  - rewrite map_filter_insert_False by done. by rewrite delete_id.
Qed.

Lemma loops_le m : (loops m <= size m)%nat.
Proof. apply map_subseteq_size, map_filter_subseteq. Qed.

Lemma sum_list_plus {A} (f g : A -> nat) l : sum_list_with (fun x => f x + g x)%nat l = (sum_list_with f l + sum_list_with g l)%nat.
Proof. induction l as [|x l IH]; simpl; [done|]. rewrite IH. lia. Qed.

Lemma sum_list_ext {A} (f g : A -> nat) l : (forall x, f x = g x) -> sum_list_with f l = sum_list_with g l.
Proof. intros E. induction l as [|x l IH]; simpl; [done|]. by rewrite E, IH. Qed.

Lemma sum_one (a : Z) l : NoDup l -> sum_list_with (fun n => if decide (n = a) then 1 else 0)%nat l = if decide (a ∈ l) then 1%nat else 0%nat.
Proof.
  induction 1 as [|x l Hx _ IH]; [done|]. cbn [sum_list_with]. rewrite IH.
  destruct (decide (x = a)) as [->|Hne].
  - rewrite (decide_False (P := a ∈ l)) by done. rewrite decide_True by set_solver. done.
  - destruct (decide (a ∈ l)); [rewrite decide_True by set_solver|rewrite decide_False by set_solver]; done.
Qed.

Lemma sum_ends d e l : NoDup l -> e_source e ∈ l -> e_target e ∈ l ->
  (sum_list_with (ends d e) l + (if decide (d = BOTH /\ e_source e = e_target e) then 1 else 0) = match d with BOTH => 2 | _ => 1 end)%nat.
Proof.
  intros Nd Hs Ht.
  assert (S1 : sum_list_with (fun n => if decide (n = e_source e) then 1 else 0)%nat l = 1%nat) by (by rewrite sum_one, decide_True).
  assert (S2 : sum_list_with (fun n => if decide (n = e_target e) then 1 else 0)%nat l = 1%nat) by (by rewrite sum_one, decide_True).
  assert (Dir : forall f, (forall n, ends d e n = f n) -> sum_list_with (ends d e) l = sum_list_with f l) by (intros f; apply sum_list_ext).
  destruct d.
  - rewrite decide_False by (by intros [? _]). rewrite (Dir (fun n => if decide (n = e_source e) then 1 else 0)%nat); [lia|]. intros n.
    unfold ends, dir_edge. cbn. rewrite andb_true_r, andb_false_r, orb_false_r. destruct (Z.eqb_spec (e_source e) n); case_decide; congruence.
  - rewrite decide_False by (by intros [? _]). rewrite (Dir (fun n => if decide (n = e_target e) then 1 else 0)%nat); [lia|]. intros n.
    unfold ends, dir_edge. cbn. rewrite andb_true_r, andb_false_r. destruct (Z.eqb_spec (e_target e) n); case_decide; cbn; congruence.
  - destruct (decide (e_source e = e_target e)) as [Es|Es].
    + rewrite decide_True by done. rewrite (Dir (fun n => if decide (n = e_source e) then 1 else 0)%nat); [lia|]. intros n.
      unfold ends, dir_edge. cbn. rewrite !andb_true_r, <- Es, orb_diag. destruct (Z.eqb_spec (e_source e) n); case_decide; congruence.
    + rewrite decide_False by (by intros [_ ?]). rewrite (Dir (fun n => (if decide (n = e_source e) then 1 else 0) + (if decide (n = e_target e) then 1 else 0))%nat).
      { rewrite sum_list_plus. lia. }
      intros n. unfold ends, dir_edge. cbn. rewrite !andb_true_r.
      destruct (Z.eqb_spec (e_source e) n), (Z.eqb_spec (e_target e) n); repeat case_decide; cbn; congruence.
Qed.

Lemma handshake_edges d (l : list Z) m : NoDup l -> (forall x e, m !! x = Some e -> e_source e ∈ l /\ e_target e ∈ l) ->
  (sum_list_with (fun n => edges_at n d m) l + (if decide (d = BOTH) then loops m else 0) = match d with BOTH => 2 | _ => 1 end * size m)%nat.
Proof.
  intros Nd. induction m as [|i e m Ei IH] using map_ind; intros He.
  - rewrite map_size_empty, Nat.mul_0_r, (sum_list_ext _ (fun _ => 0%nat)) by done.
    assert (E : sum_list_with (fun _ : Z => 0%nat) l = 0%nat) by (clear; induction l; done). rewrite E. by destruct (decide (d = BOTH)).
  - rewrite (sum_list_ext _ (fun n => ends d e n + edges_at n d m)%nat) by (intros n; by apply edges_at_insert).
    rewrite sum_list_plus, loops_insert, map_size_insert_None by done.
    destruct (He i e) as [Hs Ht]; [apply lookup_insert_eq|]. pose proof (sum_ends d e l Nd Hs Ht) as Se.
    specialize (IH ltac:(intros x e' Ex; apply (He x); rewrite lookup_insert_ne by congruence; done)).
    destruct (decide (d = BOTH)) as [->|Hd].
    + destruct (decide (e_source e = e_target e)); [rewrite decide_True in Se by done|rewrite decide_False in Se by tauto]; lia.
    + rewrite decide_False in Se by tauto. destruct d; [lia|lia|done].
Qed.

Lemma handshake G d l : NoDup l -> (forall x e, g_edges G !! x = Some e -> e_source e ∈ l /\ e_target e ∈ l) ->
  sum_list_with (degree G d) l = incidences G d.
Proof.
  intros Nd He. pose proof (handshake_edges d l (g_edges G) Nd He) as E. unfold degree, incidences.
  destruct d; [rewrite decide_False in E by done..|rewrite decide_True in E by done]; lia.
Qed.

(** ** The queries *)

Section Degrees.
Context `{RecordPages}.
Implicit Types (G : graph) (hf : heap_file) (d : direction_t) (log : bool) (n x b u k : Z) (lf : option log_file).

Lemma expansion_degree G d n rs : expansion G d n rs -> length rs = degree G d n.
Proof.
  intros [Nd Fe Hs]. unfold degree, edges_at. rewrite <- length_map_to_list, <- (length_fmap r_id rs), <- (length_fmap fst (map_to_list _)).
  apply Permutation_length, NoDup_Permutation; [done|apply NoDup_fst_map_to_list|].
  intros x. rewrite !list_elem_of_fmap. rewrite Forall_forall in Fe. split.
  - intros (r & -> & Hr). exists (r_id r, edge_of r). split; [done|]. apply elem_of_map_to_list, map_lookup_filter_Some.
    split; [by apply Fe|]. cbn. assert (St : step G d n (r_id r) (other_node n r)) by (apply Hs; eauto).
    apply (proj1 (step_other _ _ _ _ _ _ (Fe r Hr)) St).
  - intros ([y e] & -> & Hx). apply elem_of_map_to_list, map_lookup_filter_Some in Hx as [Ee D]. cbn in D |- *.
    destruct (proj1 (Hs y _) (proj2 (step_other _ _ _ _ _ _ Ee) (conj D eq_refl))) as (r & Hr & <- & _). eauto.
Qed.

Lemma log_rels_ok log tag l rs lf : al_rep l rs -> exists lf', log_rels log tag l lf = Ok lf'.
Proof.
  intros Al. unfold log_rels. destruct (_ && _); [|eauto].
  rewrite (for_array l rs (fun rel lf => Ok (log_if log [LStr tag; LStr "R "; LNum (r_id rel)] lf)) lf Al).
  destruct (for_each_inv (fun _ _ => True) (fun rel lf => Ok (log_if log [LStr tag; LStr "R "; LNum (r_id rel)] lf)) rs lf)
    as (lf' & E & _); [done| |by exists lf']. intros. by eexists.
Qed.

Lemma get_degree_ok G hf n d log lf : serves hf G -> is_Some (g_labels G !! n) ->
  exists hf' lf', get_degree hf n d log lf = Ok (Z.of_nat (degree G d n), hf', lf') /\ serves hf' G /\ Z.of_nat (degree G d n) < 2 ^ 59.
Proof.
  intros Sv Hn. unfold get_degree. rewrite (labels_initialized hf G n Sv Hn).
  destruct (expand_serves hf G n d log Sv Hn) as (l & rs & hf1 & -> & Al & Ex & Ln & Sv1). cbn [mbind res_bind].
  destruct (log_rels_ok log "get_degree" l rs (log_if log [LStr "get_degree"; LStr "N "; LNum n] lf) Al) as (lf' & ->). cbn [mbind res_bind].
  unfold array_list_size. rewrite (al_len_ok _ _ Al), (expansion_degree _ _ _ _ Ex) in *. by exists hf1, lf'.
Qed.

(** The minimum and the maximum are folds over the nodes, in some order. *)
Lemma fold_degrees_ok G hf d log lf choose start : serves hf G ->
  exists hf' lf' ids, fold_degrees choose start hf d log lf = Ok (foldl (fun b n => choose (Z.of_nat (degree G d n)) b) start ids, hf', lf') /\
    serves hf' G /\ (forall n, n ∈ ids <-> is_Some (g_labels G !! n)).
Proof.
  intros Sv. unfold fold_degrees. destruct (nodes_serves hf G log Sv) as (l & ns & hf1 & -> & Al & Sv1 & Pm & _). cbn [mbind res_bind].
  rewrite (for_array l ns (degree_step choose d log) (start, hf1, lf) Al).
  set (I := fun (ys : list node_t) (s : Z * heap_file * option log_file) => serves s.1.2 G /\
    s.1.1 = foldl (fun b n => choose (Z.of_nat (degree G d n)) b) start (n_id <$> ys)).
  assert (Mem : forall n, n ∈ n_id <$> ns <-> is_Some (g_labels G !! n)).
  { intros n. rewrite Pm, list_elem_of_fmap. split.
    - intros ([y lb] & -> & E%elem_of_map_to_list). by exists lb.
    - intros [lb E]. exists (n, lb). split; [done|]. by apply elem_of_map_to_list. }
  destruct (for_each_inv I (degree_step choose d log) ns (start, hf1, lf)) as ([[r hf2] lf2] & -> & Sv2 & Er); [done| |].
  - intros ys node zs [[b hf2] lf2] E [Sv2 Eb]. cbn in Sv2, Eb. unfold degree_step.
    destruct (get_degree_ok G hf2 (n_id node) d log lf2 Sv2) as (hf3 & lf3 & -> & Sv3 & _).
    { apply Mem. rewrite E, fmap_app. set_solver. }
    eexists. split; [reflexivity|]. split; [done|]. cbn. by rewrite fmap_app, foldl_app, Eb.
  - cbn in Er. subst. by exists hf2, lf2, (n_id <$> ns).
Qed.

Lemma fold_min (f : Z -> Z) ids s : let r := foldl (fun b n => if f n <? b then f n else b) s ids in
  r <= s /\ (forall n, n ∈ ids -> r <= f n) /\ (r = s \/ exists n, n ∈ ids /\ r = f n).
Proof.
  revert s. induction ids as [|a ids IH]; intros s; cbv zeta; cbn [foldl].
  - split_and!; [lia| |by left]. intros n Hn. by apply elem_of_nil in Hn.
  - destruct (IH (if f a <? s then f a else s)) as (A & B & C). cbv zeta in *.
    assert (Hs : (if f a <? s then f a else s) <= s /\ (if f a <? s then f a else s) <= f a) by (destruct (Z.ltb_spec (f a) s); lia).
    split_and!; [lia| |].
    + intros n [->|Hn]%elem_of_cons; [lia|by apply B].
    + destruct C as [C|(n & Hn & C)]; [|right; exists n; split; [set_solver|done]].
      rewrite C. destruct (f a <? s); [right; exists a; split; [set_solver|done]|by left].
Qed.

Lemma fold_max (f : Z -> Z) ids s : let r := foldl (fun b n => if b <? f n then f n else b) s ids in
  s <= r /\ (forall n, n ∈ ids -> f n <= r) /\ (r = s \/ exists n, n ∈ ids /\ r = f n).
Proof.
  revert s. induction ids as [|a ids IH]; intros s; cbv zeta; cbn [foldl].
  - split_and!; [lia| |by left]. intros n Hn. by apply elem_of_nil in Hn.
  - destruct (IH (if s <? f a then f a else s)) as (A & B & C). cbv zeta in *.
    assert (Hs : s <= (if s <? f a then f a else s) /\ f a <= (if s <? f a then f a else s)) by (destruct (Z.ltb_spec s (f a)); lia).
    split_and!; [lia| |].
    + intros n [->|Hn]%elem_of_cons; [lia|by apply B].
    + destruct C as [C|(n & Hn & C)]; [|right; exists n; split; [set_solver|done]].
      rewrite C. destruct (s <? f a); [right; exists a; split; [set_solver|done]|by left].
Qed.

Lemma incidences_small hf G d : serves hf G -> Z.of_nat (incidences G d) < 2 ^ 60.
Proof.
  intros [(g & S & R) _ _]. destruct (graph_sizes hf g G S R). unfold incidences. destruct d; lia.
Qed.

Lemma sum_take {A} (f : A -> nat) (i : nat) l : (sum_list_with f (take i l) <= sum_list_with f l)%nat.
Proof. rewrite <- (take_drop i l) at 2. rewrite sum_list_with_app. lia. Qed.

Lemma get_avg_degree_ok G hf d log lf : serves hf G ->
  exists hf' lf', get_avg_degree hf d log lf =
    Ok (f32_div (f32_of_Z (Z.of_nat (incidences G d))) (f32_of_Z (Z.of_nat (size (g_labels G)))), hf', lf') /\ serves hf' G.
Proof.
  intros Sv. unfold get_avg_degree. destruct (nodes_serves hf G log Sv) as (l & ns & hf1 & -> & Al & Sv1 & Pm & Nn & _). cbn [mbind res_bind].
  cbv zeta. assert (Es : array_list_size l = Z.of_nat (length ns)) by apply (al_len_ok _ _ Al). rewrite Es, Nat2Z.id.
  assert (Mem : forall n, n ∈ n_id <$> ns <-> is_Some (g_labels G !! n)).
  { intros n. rewrite Pm, list_elem_of_fmap. split.
    - intros ([y lb] & -> & E%elem_of_map_to_list). by exists lb.
    - intros [lb E]. exists (n, lb). split; [done|]. by apply elem_of_map_to_list. }
  assert (Hk : sum_list_with (degree G d) (n_id <$> ns) = incidences G d).
  { apply handshake; [rewrite Pm; apply NoDup_fst_map_to_list|]. intros x e Ee. destruct Sv as [(g & S & R) _ _].
    destruct (rg_ends _ _ R x e Ee) as (A & B & _). by rewrite !Mem. }
  pose proof (incidences_small hf G d Sv) as Sm.
  set (I := fun (j : Z) (s : Z * heap_file * option log_file) => serves s.1.2 G /\
    s.1.1 = Z.of_nat (sum_list_with (degree G d) (n_id <$> take (Z.to_nat j) ns))).
  match goal with |- context [for_loop _ _ ?b _] =>
    destruct (for_loop_inv I (length ns) 0 b (0, hf1, lf)) as ([[t hf2] lf2] & E2 & Sv2 & Et); [| |rewrite E2] end.
  - done.
  - intros j [[t hf2] lf2] Hj [Sv2 Et]. cbn in Sv2, Et. cbv beta iota.
    destruct (lookup_lt_is_Some_2 ns (Z.to_nat j)) as [node En]; [lia|].
    assert (Eg : array_list_get l j = Ok node).
    { replace j with (Z.of_nat (Z.to_nat j)) by lia. by rewrite (array_get_ok l ns _ Al), En. }
    rewrite Eg. cbn [mbind res_bind].
    destruct (expand_serves hf2 G (n_id node) d log Sv2) as (lr & rs & hf3 & -> & Ar & Ex & Ln & Sv3).
    { apply Mem, list_elem_of_fmap_2. by eapply list_elem_of_lookup_2. }
    cbn [mbind res_bind].
    destruct (log_rels_ok log "get_avg_degree" lr rs (log_if log [LStr "get_avg_degree"; LStr "N "; LNum j] lf2) Ar) as (lf3 & ->). cbn [mbind res_bind].
    eexists. split; [reflexivity|]. split; [done|]. cbn. unfold array_list_size. rewrite (al_len_ok _ _ Ar), (expansion_degree _ _ _ _ Ex).
    replace (Z.to_nat (j + 1)) with (Datatypes.S (Z.to_nat j)) by lia. rewrite (take_S_r _ _ _ En), fmap_app, sum_list_with_app.
    cbn [fmap list_fmap sum_list_with]. pose proof (sum_take (degree G d) (Datatypes.S (Z.to_nat j)) (n_id <$> ns)) as Le.
    rewrite Hk, <- fmap_take, (take_S_r _ _ _ En), fmap_app, sum_list_with_app in Le. cbn [fmap list_fmap sum_list_with] in Le.
    rewrite u64_small by (unfold is_u64; lia). lia.
  - cbn [mbind res_bind]. cbn in Et, Sv2. rewrite Z.add_0_l, Nat2Z.id, firstn_all, Hk in Et. subst t.
    assert (El : length ns = size (g_labels G)) by (destruct Sv1 as [_ N1 _]; lia). rewrite El. by exists hf2, lf2.
Qed.
End Degrees.
