(* ===== verification/QueryProps.v ===== *)
(** Properties of the queries on a heap file that represents a graph. *)

From S2P Require Import Prelude Constants LinkedList HTable ArrayList DiskFile PhysicalDatabase Page PageCache PageCacheInv HeaderPage Records HeapFile HeapFileInv HeapRecords HeapStore Chains Incidence Traversal Doubles Queries Walks Searches Paths Degrees HeapProps.
From Stdlib Require Import ZArith Lia.
From stdpp Require Import base list list_numbers option fin_maps gmap strings.

#[local] Open Scope Z_scope.

(** ** The two searches *)

Definition queue_next (pend : list Z) : option (Z * list Z) :=
  match pend with [] => None | n :: rest => Some (n, rest) end.
Definition stack_next (pend : list Z) : option (Z * list Z) :=
  n ← last pend; Some (n, take (length pend - 1) pend).

Lemma queue_next_ok pend n rest : queue_next pend = Some (n, rest) -> pend ≡ₚ n :: rest /\
  forall q, rep q pend -> exists q', queue_pop q = Ok (n, q') /\ rep q' rest.
Proof. destruct pend as [|m l]; [done|]. intros [= -> ->]. split; [done|]. intros q. apply queue_pop_ok. Qed.

Lemma stack_next_snoc pend n : stack_next (pend ++ [n]) = Some (n, pend).
Proof.
  unfold stack_next. rewrite last_snoc. cbn. rewrite length_app. cbn [length].
  replace (length pend + 1 - 1)%nat with (length pend) by lia. by rewrite take_app_length.
Qed.

Lemma stack_next_ok pend n rest : stack_next pend = Some (n, rest) -> pend ≡ₚ n :: rest /\
  forall q, rep q pend -> exists q', stack_pop q = Ok (n, q') /\ rep q' rest.
Proof.
  destruct pend as [|m l _] using rev_ind; [done|]. rewrite stack_next_snoc. intros [= -> ->].
  split; [by rewrite Permutation_app_comm|]. intros q. apply stack_pop_ok.
Qed.

Section Searches.
Context `{RecordPages}.
Implicit Types (G : graph) (hf : heap_file) (d : direction_t) (log : bool) (n x b u k src : Z).

(** What the maps of a search say about a graph. *)
Definition numbered (num par : gmap Z Z) G d src : Prop :=
  (forall n, is_Some (num !! n) <-> is_Some (g_labels G !! n)) /\
  (forall n k, num !! n = Some k -> k <> ULONG_MAX -> exists xs, walk G d src xs n /\ Z.of_nat (length xs) = k) /\
  (forall n xs, walk G d src xs n -> exists k, num !! n = Some k /\ k <> ULONG_MAX) /\
  (forall n x, par !! n = Some x -> n <> src /\ exists u k, num !! u = Some k /\ num !! n = Some (k + 1) /\ step G d u x n) /\
  (forall n k, num !! n = Some k -> k <> ULONG_MAX -> n <> src -> is_Some (par !! n)).

Lemma sound_numbered G d src a : sound G d src a [] -> numbered (a_num a) (a_par a) G d src.
Proof.
  intros S. split_and!.
  - apply S.
  - intros n k E Hk. by apply (so_walk _ _ _ _ _ S).
  - intros n xs W. by apply (search_complete G d src a xs n S W).
  - intros n x E. destruct (so_pred _ _ _ _ _ S n x E) as (Hn & u & k & [Eu _] & [En _] & St). split; [done|]. by exists u, k.
  - intros n k E Hk. by apply (so_tree _ _ _ _ _ S n k).
Qed.

Lemma graph_access hf G : graph_file hf G ->
  (forall d a x b, step G d a x b -> is_Some (g_labels G !! a) /\ is_Some (g_labels G !! b)) /\
  Z.of_nat (size (g_labels G)) < 2 ^ 59.
Proof.
  intros GF. split; [intros d a x b; by apply (step_ends hf)|].
  destruct GF as [(g & S & R) _ _]. by destruct (graph_sizes hf g G S R).
Qed.

Lemma bfs_ok hf G src d log lf seed1 seed2 : graph_file hf G -> is_Some (g_labels G !! src) ->
  exists r hf' lf' a, bfs hf src d log lf seed1 seed2 = Ok (r, hf', lf') /\ serves hf' G /\ tr_source r = src /\
    wf fnv_hash_ul (traversal_numbers r) /\ contents (traversal_numbers r) = a_num a /\
    wf fnv_hash_ul (parents r) /\ contents (parents r) = a_par a /\ sound G d src a [] /\ layered G d a /\ a_pend a = [].
Proof.
  intros GF Hs. destruct (graph_access hf G GF) as [Ends Small].
  apply (search_from_ok G d src "bfs" log (Ends d) Small queue_pop queue_next (layered G d)); [|apply queue_next_ok| |done|done|].
  - by intros [|m l].
  - intros a n rest k rs L Ep S Fn Ex. destruct (a_pend a) as [|m l] eqn:El; [done|]. injection Ep as -> ->.
    set (a1 := Searched (a_num a) (a_par a) rest).
    assert (S1 : sound G d src a1 (n :: a_pend a1)) by (by apply (sound_perm G d src a a1 (n :: rest))).
    pose proof (layers_pop G d src a n rest k L El S Fn) as L1. pose proof (ex_steps _ _ _ _ Ex) as Hs'.
    destruct (visits_ok G d src (Ends d) Small (fun seen a => layers G d a n k seen) n k rs [] a1) as (S2 & F2 & _ & _ & L2); [..|done|done|done|].
    + intros r Hr. apply Hs'. eauto.
    + intros seen a2 r S2 F2 St. by apply (layers_visit G d src (Ends d) Small).
    + eapply (layers_end G d src); [exact L2|done|done|]. intros x b St. by apply Hs'.
  - split; cbn; [by repeat constructor| |].
    + by intros p q ->%list_elem_of_singleton ->%list_elem_of_singleton; lia.
    + intros u j [-> _]%(start_found G src) Hu. set_solver.
Qed.

Lemma dfs_ok hf G src d log lf seed1 seed2 : graph_file hf G -> is_Some (g_labels G !! src) ->
  exists r hf' lf' a, dfs hf src d log lf seed1 seed2 = Ok (r, hf', lf') /\ serves hf' G /\ tr_source r = src /\
    wf fnv_hash_ul (traversal_numbers r) /\ contents (traversal_numbers r) = a_num a /\
    wf fnv_hash_ul (parents r) /\ contents (parents r) = a_par a /\ sound G d src a [] /\ True /\ a_pend a = [].
Proof.
  intros GF Hs. destruct (graph_access hf G GF) as [Ends Small].
  apply (search_from_ok G d src "dfs" log (Ends d) Small stack_pop stack_next (fun _ => True)); [|apply stack_next_ok|done..].
  intros pend E. destruct pend as [|m l _] using rev_ind; [done|]. by rewrite stack_next_snoc in E.
Qed.

Lemma search_missing hf G src d log lf seed1 seed2 pop tag : graph_file hf G -> is_u64 src -> src mod 256 < SLOTS_PER_PAGE ->
  g_labels G !! src = None -> (forall q, rep q [src] -> exists q', pop q = Ok (src, q')) ->
  search_from pop tag hf src d log lf seed1 seed2 = Exit.
Proof.
  intros GF Us Sl Hm Pop. unfold search_from. destruct (src =? UNINITIALIZED_LONG); [done|].
  destruct (nodes_serves hf G log GF) as (l & ns & hf1 & -> & Al & Sv1 & Pm & Nn & _). cbn [mbind res_bind].
  destruct (dict_create_ok seed2) as [Wn Cn].
  destruct (mark_unvisited_ok l ns (n_nodes hf1) _ Al Nn Wn Cn) as (t & -> & Wt & _). cbn [mbind res_bind].
  destruct (append_ring (linked_list_create (T := Z)) [] src (ring_rep _ _ create_ring)) as (q & Eq & Rq).
  unfold linked_list_push. rewrite Eq. cbn [mbind res_bind].
  destruct (dict_insert_ok t src 0 Wt) as (t1 & -> & _). cbn [mbind res_bind].
  rewrite Nat.add_comm. cbn [Nat.add search_loop s_pending]. unfold linked_list_size. rewrite (rep_ll_len _ _ (ring_rep _ _ Rq)).
  cbn [app length Nat.eqb]. destruct (Pop q (ring_rep _ _ Rq)) as (q' & ->). cbn [mbind res_bind].
  destruct Sv1 as [(g & S & R) _ _]. unfold expand, read_node, read_node_internal. destruct (src =? UNINITIALIZED_LONG); [done|].
  rewrite (assert_missing_exit hf1 g true src log S Us Sl); [done|].
  rewrite (graph_has_node g G src R), Hm. by apply bool_decide_false; intros [].
Qed.
End Searches.

(** ** Samples *)

#[local] Existing Instance x86_pages.

(** One relationship from [b] to [a], and loops at [a]. *)
Lemma sample_pair : exists hf G a b x, graph_file hf G /\ is_Some (g_labels G !! a) /\ is_Some (g_labels G !! b) /\
  a <> b /\ step G OUTGOING b x a.
Proof.
  destruct sample_off_direction as (hf & G & a & b & x & _ & _ & GF & Ha & Hb & _ & _ & Hab & Ex & _).
  exists hf, G, a, b, x. split_and!; [done..|]. exists (Edge b a 5 1). split; [done|]. by left.
Qed.

(** ** Properties *)

(** C7: breadth first search ends and numbers every node with its distance from the source,
    the least number of relationships of a walk in the direction; nodes that cannot be
    reached keep the number ULONG_MAX. *)
Theorem bfs_numbers_are_distances `{RecordPages} (hf : heap_file) (G : graph) (src : Z) (d : direction_t) (log : bool)
    (lf : log_file) (seed1 seed2 : Z) (GF : graph_file hf G) (Hs : is_Some (g_labels G !! src)) :
  exists r hf' lf', bfs hf src d log lf seed1 seed2 = Ok (r, hf', lf') /\ graph_file hf' G /\
    forall n, is_Some (g_labels G !! n) ->
      (exists k, contents (traversal_numbers r) !! n = Some (Z.of_nat k) /\ distance G d src n k) \/
      (contents (traversal_numbers r) !! n = Some ULONG_MAX /\ forall xs, ~ walk G d src xs n).
Proof.
  destruct (bfs_ok hf G src d log lf seed1 seed2 GF Hs) as (r & hf' & lf' & a & E & Sv & _ & _ & Cn & _ & _ & S & L & P).
  destruct (graph_access hf G GF) as [Ends Small].
  exists r, hf', lf'. split_and!; [done|done|]. intros n Hn. rewrite Cn.
  destruct (found_dec a n) as [[k F]|En]; [by apply (so_dom _ _ _ _ _ S)|left|right].
  - destruct (so_walk _ _ _ _ _ S n k F) as (xs & W & Lk). exists (length xs). rewrite Lk. split; [apply F|].
    split; [by exists xs|]. intros ys Wy. pose proof (search_shortest G d src a ys n k S L P Wy F). lia.
  - split; [done|]. intros xs W. destruct (search_complete G d src a xs n S W) as [k [E' N]]. congruence.
Qed.

Lemma bfs_numbers_are_distances_witness :
  exists hf a b r hf' lf', bfs hf b OUTGOING true (log_open "q") 1 2 = Ok (r, hf', lf') /\ a <> b /\
    contents (traversal_numbers r) !! a = Some 1.
Proof.
  destruct sample_pair as (hf & G & a & b & x & GF & Ha & Hb & Hab & St).
  destruct (bfs_numbers_are_distances hf G b OUTGOING true (log_open "q") 1 2 GF Hb) as (r & hf' & lf' & E & _ & D).
  exists hf, a, b, r, hf', lf'. split; [exact E|]. split; [exact Hab|].
  assert (W : walk G OUTGOING b [x] a) by (apply (walk_cons _ _ _ _ a [] a); [exact St|constructor]).
  destruct (D a Ha) as [(k & -> & (ys & Wy & Ly) & Min)|[_ N]]; [|destruct (N [x] W)].
  pose proof (Min [x] W) as M. cbn [length] in M. destruct ys as [|y ys].
  - destruct Hab. exact (walk_end _ _ _ _ _ _ Wy (walk_nil _ _ _)).
  - cbn [length] in Ly. do 2 f_equal. lia.
Defined.

(** C9: depth first search ends and finds exactly the nodes that can be reached: their numbers
    are lengths of walks, and the relationships it records form a tree along which the
    numbers grow by one from the source. *)
Theorem dfs_spans_reachable `{RecordPages} (hf : heap_file) (G : graph) (src : Z) (d : direction_t) (log : bool)
    (lf : log_file) (seed1 seed2 : Z) (GF : graph_file hf G) (Hs : is_Some (g_labels G !! src)) :
  exists r hf' lf', dfs hf src d log lf seed1 seed2 = Ok (r, hf', lf') /\ graph_file hf' G /\
    numbered (contents (traversal_numbers r)) (contents (parents r)) G d src.
Proof.
  destruct (dfs_ok hf G src d log lf seed1 seed2 GF Hs) as (r & hf' & lf' & a & E & Sv & _ & _ & Cn & _ & Cp & S & _).
  exists r, hf', lf'. split_and!; [done|done|]. rewrite Cn, Cp. by apply sound_numbered.
Qed.

Lemma dfs_spans_reachable_witness :
  exists hf a b r hf' lf' k, dfs hf b OUTGOING true (log_open "q") 1 2 = Ok (r, hf', lf') /\ a <> b /\
    contents (traversal_numbers r) !! a = Some k /\ k <> ULONG_MAX.
Proof.
  destruct sample_pair as (hf & G & a & b & x & GF & Ha & Hb & Hab & St).
  destruct (dfs_spans_reachable hf G b OUTGOING true (log_open "q") 1 2 GF Hb) as (r & hf' & lf' & E & _ & _ & _ & R & _).
  destruct (R a [x]) as (k & Ek & Nk); [apply (walk_cons _ _ _ _ a [] a); [exact St|constructor]|].
  exists hf, a, b, r, hf', lf', k. split; [exact E|]. split; [exact Hab|]. split; [exact Ek|exact Nk].
Defined.

(** C8: the path that is constructed from the tree of a breadth first search, to a node other
    than the source that can be reached, is a shortest walk from the source with the sum of
    its weights; extracting its vertices gives the nodes along it.  For the source itself and
    for nodes that cannot be reached the construction ends the program. *)
Theorem bfs_paths_are_shortest `{RecordPages} (hf : heap_file) (G : graph) (src n : Z) (d : direction_t) (log : bool)
    (lf : log_file) (seed1 seed2 : Z) (GF : graph_file hf G) (Hs : is_Some (g_labels G !! src)) (Hn : is_Some (g_labels G !! n)) :
  exists r hf1 lf1, bfs hf src d log lf seed1 seed2 = Ok (r, hf1, lf1) /\
    ((n <> src /\ (exists xs, walk G d src xs n)) ->
       exists p es hf2 l ns hf3, construct_path hf1 src n (parents r) log = Ok (p, hf2) /\ graph_file hf2 G /\
         p_source p = src /\ p_target p = n /\ al_rep (p_edges p) es /\ walk G d src es n /\ distance G d src n (length es) /\
         p_distance p = length_of G (reverse es) /\
         path_extract_vertices p hf2 log = Ok (l, hf3) /\ al_rep l ns /\ trail G d src es ns n) /\
    ((n = src \/ forall xs, ~ walk G d src xs n) -> construct_path hf1 src n (parents r) log = Exit).
Proof.
  destruct (bfs_ok hf G src d log lf seed1 seed2 GF Hs) as (r & hf1 & lf1 & a & E & Sv & _ & _ & Cn & Wp & Cp & S & L & P).
  destruct (graph_access hf G GF) as [_ Small]. exists r, hf1, lf1. split; [done|]. split.
  - intros [Hne [xs W]]. destruct (search_complete G d src a xs n S W) as [k F].
    destruct (construct_path_ok G d src a (parents r) log S Wp Cp hf1 n k Small Sv Hs Hne F) as (p & es & hf2 & Ep & Sv2 & Es & Et & Al & We & Le & Ed).
    assert (Di : distance G d src n (length es)).
    { split; [by exists es|]. intros ys Wy. pose proof (search_shortest G d src a ys n k S L P Wy F). lia. }
    pose proof (found_small G d src Small a [] n k S F).
    rewrite <- Es, <- Et in We. destruct (extract_ok G d hf2 p es log Sv2 Al We ltac:(lia)) as (l & ns & hf3 & El & _ & Al3 & T).
    rewrite Es, Et in *. exists p, es, hf2, l, ns, hf3. by split_and!.
  - intros Hx. unfold construct_path. destruct (_ || _); [done|]. rewrite Nat.add_comm. cbn [Nat.add path_loop].
    rewrite dict_get_ok, Cp by done. destruct (a_par a !! n) as [x|] eqn:Ex; [|done]. exfalso.
    destruct (so_pred _ _ _ _ _ S n x Ex) as (Hne & u & k & _ & F & _). destruct Hx as [->|Hx]; [done|].
    destruct (so_walk _ _ _ _ _ S n _ F) as (xs & W & _). by apply (Hx xs).
Qed.

Lemma bfs_paths_are_shortest_witness :
  exists hf a b r hf' lf' p hf2, bfs hf b OUTGOING true (log_open "q") 1 2 = Ok (r, hf', lf') /\
    construct_path hf' b a (parents r) true = Ok (p, hf2) /\ array_list_size (p_edges p) = 1.
Proof.
  destruct sample_pair as (hf & G & a & b & x & GF & Ha & Hb & Hab & St).
  assert (W : walk G OUTGOING b [x] a) by (apply (walk_cons _ _ _ _ a [] a); [exact St|constructor]).
  destruct (bfs_paths_are_shortest hf G b a OUTGOING true (log_open "q") 1 2 GF Hb Ha) as (r & hf' & lf' & E & Pt & _).
  destruct (Pt (conj Hab (ex_intro _ _ W))) as (p & es & hf2 & l & ns & hf3 & Ep & _ & _ & _ & Al & We & [_ Min] & _).
  exists hf, a, b, r, hf', lf', p, hf2. split; [exact E|]. split; [exact Ep|].
  unfold array_list_size. rewrite (al_len_ok _ _ Al). pose proof (Min [x] W) as M. cbn [length] in M.
  destruct es as [|y es]; [|cbn [length] in *; lia]. destruct Hab. exact (walk_end _ _ _ _ _ _ We (walk_nil _ _ _)).
Defined.

(** A search from an id that no node has ends the program. *)
Theorem search_from_missing_node `{RecordPages} (hf : heap_file) (G : graph) (src : Z) (d : direction_t) (log : bool)
    (lf : log_file) (seed1 seed2 : Z) (GF : graph_file hf G) (Us : is_u64 src) (Sl : src mod 256 < SLOTS_PER_PAGE)
    (Hm : g_labels G !! src = None) :
  bfs hf src d log lf seed1 seed2 = Exit /\ dfs hf src d log lf seed1 seed2 = Exit.
Proof.
  split; [apply (search_missing hf G src d log lf seed1 seed2 queue_pop "bfs" GF Us Sl Hm)
         |apply (search_missing hf G src d log lf seed1 seed2 stack_pop "dfs" GF Us Sl Hm)].
  - intros q R. destruct (queue_pop_ok q src [] R) as (q' & -> & _). by exists q'.
  - intros q R. destruct (stack_pop_ok q src [] R) as (q' & -> & _). by exists q'.
Qed.

Lemma search_from_missing_node_witness :
  exists pc hf, heap_file_create pc "h" = Ok hf /\ bfs hf 3 BOTH false (log_open "q") 1 2 = Exit.
Proof.
  destruct sample_new as (pc & hf & _ & _ & E & GF & _). exists pc, hf. split; [exact E|].
  exact (proj1 (search_from_missing_node hf empty_graph 3 BOTH false (log_open "q") 1 2 GF
    ltac:(split; [done|reflexivity]) ltac:(reflexivity) (lookup_empty 3))).
Defined.

(** C34: the degree of a node is the number of edges at it in the direction, and the minimal
    and maximal degrees are the least and the greatest of them; without nodes they are
    SIZE_MAX and 0. *)
Theorem degrees_count_edges `{RecordPages} (hf : heap_file) (G : graph) (d : direction_t) (log : bool)
    (lf : option log_file) (GF : graph_file hf G) :
  (forall n, is_Some (g_labels G !! n) ->
     exists hf' lf', get_degree hf n d log lf = Ok (Z.of_nat (degree G d n), hf', lf') /\ graph_file hf' G) /\
  (exists k hf' lf', get_min_degree hf d log lf = Ok (k, hf', lf') /\ graph_file hf' G /\
     (forall n, is_Some (g_labels G !! n) -> k <= Z.of_nat (degree G d n)) /\
     (if decide (g_labels G = ∅) then k = SIZE_MAX else exists n, is_Some (g_labels G !! n) /\ k = Z.of_nat (degree G d n))) /\
  (exists k hf' lf', get_max_degree hf d log lf = Ok (k, hf', lf') /\ graph_file hf' G /\
     (forall n, is_Some (g_labels G !! n) -> Z.of_nat (degree G d n) <= k) /\
     (if decide (g_labels G = ∅) then k = 0 else exists n, is_Some (g_labels G !! n) /\ k = Z.of_nat (degree G d n))).
Proof.
  assert (Sm : forall n, is_Some (g_labels G !! n) -> Z.of_nat (degree G d n) < SIZE_MAX).
  { intros n Hn. destruct (get_degree_ok G hf n d log lf GF Hn) as (_ & _ & _ & _ & B). unfold SIZE_MAX. lia. }
  assert (Ex : g_labels G <> ∅ -> exists n, is_Some (g_labels G !! n)).
  { intros Ne. apply map_choose in Ne as (n & lb & En). eauto. }
  split_and!.
  - intros n Hn. destruct (get_degree_ok G hf n d log lf GF Hn) as (hf' & lf' & E & Sv & _). by exists hf', lf'.
  - destruct (fold_degrees_ok G hf d log lf (fun a b => if a <? b then a else b) SIZE_MAX GF) as (hf' & lf' & ids & E & Sv & Hi).
    destruct (fold_min (fun n => Z.of_nat (degree G d n)) ids SIZE_MAX) as (A & B & C).
    eexists _, hf', lf'. split; [exact E|]. split_and!; [done|intros n Hn%Hi; by apply B|]. case_decide as De.
    + destruct C as [C|(n & Hn%Hi & _)]; [done|]. rewrite De, lookup_empty in Hn. by destruct Hn.
    + destruct C as [C|(n & Hn%Hi & C)]; [|by exists n]. destruct (Ex De) as [n Hn].
      pose proof (B n (proj2 (Hi n) Hn)). pose proof (Sm n Hn). cbv zeta in *. lia.
  - destruct (fold_degrees_ok G hf d log lf (fun a b => if b <? a then a else b) 0 GF) as (hf' & lf' & ids & E & Sv & Hi).
    destruct (fold_max (fun n => Z.of_nat (degree G d n)) ids 0) as (A & B & C).
    eexists _, hf', lf'. split; [exact E|]. split_and!; [done|intros n Hn%Hi; by apply B|]. case_decide as De.
    + destruct C as [C|(n & Hn%Hi & _)]; [done|]. rewrite De, lookup_empty in Hn. by destruct Hn.
    + destruct C as [C|(n & Hn%Hi & C)]; [|by exists n]. destruct (Ex De) as [n Hn]. exists n. split; [done|].
      pose proof (B n (proj2 (Hi n) Hn)). cbv zeta in *. lia.
Qed.

Lemma degrees_count_edges_witness :
  exists hf n x k hf' lf', sample (add_edge (add_node empty_graph n 7) x (Edge n n 5 9)) 900 hf /\
    get_max_degree hf OUTGOING true None = Ok (k, hf', lf') /\ 1 <= k.
Proof.
  destruct sample_loop as (hf & n & x & S). pose proof S as [GF Rm].
  set (G := add_edge (add_node empty_graph n 7) x (Edge n n 5 9)) in *.
  destruct (degrees_count_edges hf G OUTGOING true None GF) as (_ & _ & k & hf' & lf' & E & _ & B & _).
  exists hf, n, x, k, hf', lf'. split; [exact S|]. split; [exact E|].
  assert (Ed : degree G OUTGOING n = 1%nat).
  { unfold degree, G. cbn [add_edge add_node g_edges empty_graph]. rewrite edges_at_insert by apply lookup_empty.
    unfold ends, dir_edge. cbn. rewrite Z.eqb_refl. reflexivity. }
  specialize (B n). rewrite Ed in B. apply B. unfold G. cbn. rewrite lookup_insert_eq. eauto.
Defined.

(** C33: the average degree is the binary32 quotient of the number of incidences and the
    number of nodes: in one direction every edge is counted once, in both directions twice
    unless it is a loop. *)
Theorem average_degree_handshake `{RecordPages} (hf : heap_file) (G : graph) (d : direction_t) (log : bool)
    (lf : option log_file) (GF : graph_file hf G) :
  exists hf' lf', get_avg_degree hf d log lf =
    Ok (f32_div (f32_of_Z (match d with
                           | BOTH => 2 * Z.of_nat (size (g_edges G)) - Z.of_nat (loops (g_edges G))
                           | _ => Z.of_nat (size (g_edges G)) end))
                (f32_of_Z (Z.of_nat (size (g_labels G)))), hf', lf') /\ graph_file hf' G.
Proof.
  destruct (get_avg_degree_ok G hf d log lf GF) as (hf' & lf' & E & Sv). exists hf', lf'. split; [|done].
  rewrite E. unfold incidences. pose proof (loops_le (g_edges G)). destruct d; [done..|].
  by replace (Z.of_nat (2 * size (g_edges G) - loops (g_edges G))) with (2 * Z.of_nat (size (g_edges G)) - Z.of_nat (loops (g_edges G))) by lia.
Qed.

Lemma average_degree_handshake_witness :
  exists hf hf' lf', get_avg_degree hf BOTH true None = Ok (f32_of_Z 1, hf', lf').
Proof.
  destruct sample_loop as (hf & n & x & S). pose proof S as [GF Rm].
  set (G := add_edge (add_node empty_graph n 7) x (Edge n n 5 9)) in *.
  destruct (average_degree_handshake hf G BOTH true None GF) as (hf' & lf' & E & _). exists hf, hf', lf'.
  assert (E1 : size (g_edges G) = 1%nat).
  { unfold G. cbn [add_edge add_node g_edges empty_graph]. rewrite map_size_insert_None by apply lookup_empty. by rewrite map_size_empty. }
  assert (E2 : size (g_labels G) = 1%nat).
  { unfold G. cbn [add_edge add_node g_labels empty_graph]. rewrite map_size_insert_None by apply lookup_empty. by rewrite map_size_empty. }
  assert (E3 : loops (g_edges G) = 1%nat).
  { unfold G. cbn [add_edge add_node g_edges empty_graph]. rewrite loops_insert by apply lookup_empty. by rewrite decide_True. }
  rewrite E1, E2, E3 in E. rewrite E. reflexivity.
Defined.

(** A random walk, whatever [rand()] returns, follows relationships in the direction from
    its start node: it takes all its steps or stops at a node from which no relationship
    leads, and its distance is the sum of the weights. *)
Theorem random_walk_is_walk `{RecordPages} (hf : heap_file) (G : graph) (src steps : Z) (d : direction_t) (log : bool)
    (lf : log_file) (rnd : nat -> Z) (GF : graph_file hf G) (Hs : is_Some (g_labels G !! src)) (Hst : 0 <= steps < 2 ^ 59) :
  exists p es hf' lf', random_walk hf src steps d log lf rnd = Ok (p, hf', lf') /\ graph_file hf' G /\
    al_rep (p_edges p) es /\ p_source p = src /\ walk G d src es (p_target p) /\ p_distance p = length_of G es /\
    (Z.of_nat (length es) = steps \/ (Z.of_nat (length es) < steps /\ forall x b, ~ step G d (p_target p) x b)).
Proof. by apply random_walk_ok. Qed.

Lemma random_walk_is_walk_witness :
  exists hf a b p hf' lf', random_walk hf b 1 OUTGOING true (log_open "q") (fun i => Z.of_nat i) = Ok (p, hf', lf') /\
    a <> b /\ array_list_size (p_edges p) = 1.
Proof.
  destruct sample_pair as (hf & G & a & b & x & GF & Ha & Hb & Hab & St).
  destruct (random_walk_is_walk hf G b 1 OUTGOING true (log_open "q") (fun i => Z.of_nat i) GF Hb ltac:(lia))
    as (p & es & hf' & lf' & E & _ & Al & _ & W & _ & Q).
  exists hf, a, b, p, hf', lf'. split; [exact E|]. split; [exact Hab|].
  unfold array_list_size. rewrite (al_len_ok _ _ Al). destruct Q as [Q|[Q N]]; [exact Q|exfalso].
  destruct es as [|y es]; [|cbn [length] in Q; lia].
  rewrite <- (walk_end _ _ _ _ _ _ (walk_nil _ _ _) W) in N. exact (N x a St).
Defined.
