(* ===== verification/MemGraph.v ===== *)
(** The graph in memory (src/access/in_memory_graph.c).

    The same records as in the heap file, but held in two hash tables from ids to pointers:
    ids are counted up, and nothing is deleted.  The structs are entries of an arena per kind
    of record and a pointer is a position in it, so that a struct that is reached by two
    pointers is one struct; the lists that are returned hold pointers, as the code's do.

    [next_relationship_id], [expand] and [contains_relationship_from_to] only read.  Their
    loops get one unit of fuel per relationship and two more. *)

From S2P Require Import Prelude Constants HTable ArrayList Records HeapFile.
From Stdlib Require Import ZArith Lia.
From stdpp Require Import base list option gmap.

#[local] Open Scope Z_scope.

(** ** Data *)

Abbreviation ptr := nat.
Abbreviation dict_ul_ptr := (htable Z ptr).

Record in_memory_graph := InMemoryGraph {
  cache_nodes : dict_ul_ptr;
  cache_rels : dict_ul_ptr;
  im_n_nodes : Z;
  im_n_rels : Z;
  node_structs : list node_t;
  rel_structs : list relationship_t }.

(** [seed_nodes] and [seed_rels] are what [rand()] returns when the tables are made. *)
Definition in_memory_graph_create (seed_nodes seed_rels : Z) : in_memory_graph :=
  InMemoryGraph (htable_create 0 0%nat seed_nodes) (htable_create 0 0%nat seed_rels) 0 0 [] [].

Definition set_structs (db : in_memory_graph) (ns : list node_t) (rs : list relationship_t) : in_memory_graph :=
  InMemoryGraph (cache_nodes db) (cache_rels db) (im_n_nodes db) (im_n_rels db) ns rs.

Definition dict_put (d : dict_ul_ptr) (id : Z) (p : ptr) : res dict_ul_ptr :=
  htable_insert fnv_hash_ul 0 0%nat d id p.
Definition dict_find (d : dict_ul_ptr) (id : Z) : res ptr := htable_get_direct fnv_hash_ul d id.

(** [*p] *)
Definition node_at (db : in_memory_graph) (p : ptr) : res node_t := deref (node_structs db !! p).
Definition rel_at (db : in_memory_graph) (p : ptr) : res relationship_t := deref (rel_structs db !! p).

(** ** Nodes *)

Definition in_memory_create_node (db : in_memory_graph) (label : Z) : res (Z * in_memory_graph) :=
  let p := length (node_structs db) in
  let id := im_n_nodes db in
  let node := Node id (first_relationship new_node_record) label in
  nodes ← dict_put (cache_nodes db) id p;
  Ok (id, InMemoryGraph nodes (cache_rels db) (u64 (im_n_nodes db + 1)) (im_n_rels db)
            (node_structs db ++ [node]) (rel_structs db)).

Definition in_memory_get_node (db : in_memory_graph) (id : Z) : res ptr :=
  if id =? UNINITIALIZED_LONG then Exit else dict_find (cache_nodes db) id.

(** [while (iterator_next(it, &id, &p) > -1) append(list, p);] *)
Fixpoint collect (fuel : nat) (d : dict_ul_ptr) (it : iterator Z ptr) (acc : alist ptr) : res (alist ptr) :=
  match fuel with
  | O => NoFuel
  | S fuel' =>
      '(o, it) ← iterator_next d it;
      match o with
      | None => Ok acc
      | Some (_, p) => acc ← array_list_append acc p; collect fuel' d it acc
      end
  end.
Definition in_memory_get_nodes (db : in_memory_graph) : res (alist ptr) :=
  collect (S (length (node_structs db))) (cache_nodes db) iterator_create array_list_create.

(** ** Relationships *)

(** [1.0] *)
Definition DOUBLE_ONE : Z := 0x3FF0000000000000.

Definition in_memory_get_relationship (db : in_memory_graph) (id : Z) : res ptr :=
  if id =? UNINITIALIZED_LONG then Exit else dict_find (cache_rels db) id.

Definition in_memory_get_relationships (db : in_memory_graph) : res (alist ptr) :=
  collect (S (length (rel_structs db))) (cache_rels db) iterator_create array_list_create.

(** The first and the last relationship of the chain of a node: the new one, [rel], if the
    chain is empty. *)
Definition chain_ends (db : in_memory_graph) (node : node_t) (rel : ptr) : res (ptr * ptr) :=
  if first_relationship node =? UNINITIALIZED_LONG then Ok (rel, rel)
  else
    first ← in_memory_get_relationship db (first_relationship node);
    f ← rel_at db first;
    last ← in_memory_get_relationship db (prev_id (n_id node) f);
    Ok (first, last).

(** The links of the new relationship and of its neighbours, through the pointers. *)
Definition link_structs (a : list relationship_t) (rel : ptr) (node_from node_to id : Z)
    (first_source last_source first_target last_target : ptr) : res (list relationship_t) :=
  ls ← deref (a !! last_source);
  fs ← deref (a !! first_source);
  lt ← deref (a !! last_target);
  ft ← deref (a !! first_target);
  let a := alter (fun r => set_next_target (set_prev_target (set_next_source (set_prev_source r (r_id ls))
                             (r_id fs)) (r_id lt)) (r_id ft)) rel a in
  let a := alter (adjust_next node_from id) last_source a in
  let a := alter (adjust_next node_to id) last_target a in
  let a := alter (adjust_prev node_from id) first_source a in
  Ok (alter (adjust_prev node_to id) first_target a).

(** [if (node->first_relationship == UNINITIALIZED_LONG) node->first_relationship = id;] *)
Definition set_first_unset (id : Z) (node : node_t) : node_t :=
  if first_relationship node =? UNINITIALIZED_LONG then set_first node id else node.

Definition in_memory_create_relationship_weighted (db : in_memory_graph) (node_from node_to weight label : Z)
    : res (Z * in_memory_graph) :=
  if (node_from =? UNINITIALIZED_LONG) || (node_to =? UNINITIALIZED_LONG)
     || double_eqb weight UNINITIALIZED_WEIGHT then Exit
  else
    source ← dict_find (cache_nodes db) node_from;
    target ← dict_find (cache_nodes db) node_to;
    let rel := length (rel_structs db) in
    let id := im_n_rels db in
    let new := Relationship id node_from node_to (prev_rel_source new_relationship)
                 (next_rel_source new_relationship) (prev_rel_target new_relationship)
                 (next_rel_target new_relationship) weight label in
    let db := InMemoryGraph (cache_nodes db) (cache_rels db) (im_n_nodes db) (u64 (im_n_rels db + 1))
                (node_structs db) (rel_structs db ++ [new]) in
    source_node ← node_at db source;
    '(first_source, last_source) ← chain_ends db source_node rel;
    target_node ← node_at db target;
    '(first_target, last_target) ← chain_ends db target_node rel;
    rels ← link_structs (rel_structs db) rel node_from node_to id first_source last_source first_target last_target;
    let nodes := alter (set_first_unset id) target (alter (set_first_unset id) source (node_structs db)) in
    let db := set_structs db nodes rels in
    table ← dict_put (cache_rels db) id rel;
    Ok (id, InMemoryGraph (cache_nodes db) table (im_n_nodes db) (im_n_rels db) (node_structs db) (rel_structs db)).

Definition in_memory_create_relationship (db : in_memory_graph) (node_from node_to label : Z)
    : res (Z * in_memory_graph) :=
  in_memory_create_relationship_weighted db node_from node_to DOUBLE_ONE label.

(** ** Traversal *)

(** The successor in the chain of [node_id]; not its source means its target here. *)
Definition link_of (node_id : Z) (r : relationship_t) : Z :=
  if node_id =? source_node r then next_rel_source r else next_rel_target r.

Definition chain_fuel (db : in_memory_graph) : nat := S (S (length (rel_structs db))).

Fixpoint next_relationship_id_loop (fuel : nat) (db : in_memory_graph) (node_id start_rel_id rel_id : Z)
    (direction : direction_t) : res Z :=
  match fuel with
  | O => NoFuel
  | S fuel' =>
      p ← dict_find (cache_rels db) rel_id;
      rel ← rel_at db p;
      if negb (rel_id =? start_rel_id) && has_direction node_id direction rel then Ok (r_id rel)
      else
        let rel_id := link_of node_id rel in
        if rel_id =? start_rel_id then Ok UNINITIALIZED_LONG
        else next_relationship_id_loop fuel' db node_id start_rel_id rel_id direction
  end.

Definition in_memory_next_relationship_id (db : in_memory_graph) (node_id : Z) (rel : ptr)
    (direction : direction_t) : res Z :=
  if node_id =? UNINITIALIZED_LONG then Exit
  else
    r ← rel_at db rel;
    next_relationship_id_loop (chain_fuel db) db node_id (r_id r) (link_of node_id r) direction.

Fixpoint in_memory_expand_loop (fuel : nat) (db : in_memory_graph) (node_id start_id rel_id : Z)
    (direction : direction_t) (result : alist ptr) : res (alist ptr) :=
  match fuel with
  | O => NoFuel
  | S fuel' =>
      if rel_id =? UNINITIALIZED_LONG then Ok result
      else
        rel ← dict_find (cache_rels db) rel_id;
        result ← array_list_append result rel;
        rel_id ← in_memory_next_relationship_id db node_id rel direction;
        if rel_id =? start_id then Ok result
        else in_memory_expand_loop fuel' db node_id start_id rel_id direction result
  end.

Definition in_memory_expand (db : in_memory_graph) (node_id : Z) (direction : direction_t) : res (alist ptr) :=
  p ← dict_find (cache_nodes db) node_id;
  node ← node_at db p;
  let rel_id := first_relationship node in
  if rel_id =? UNINITIALIZED_LONG then Ok array_list_create
  else
    rel ← in_memory_get_relationship db rel_id;
    r ← rel_at db rel;
    start_id ← (if has_direction node_id direction r then Ok rel_id
                else in_memory_next_relationship_id db node_id rel direction);
    in_memory_expand_loop (chain_fuel db) db node_id start_id start_id direction array_list_create.

(** [None] is the null pointer. *)
Fixpoint in_memory_contains_loop (fuel : nat) (db : in_memory_graph) (node_from node_to start_id next_id : Z)
    (direction : direction_t) : res (option ptr) :=
  match fuel with
  | O => NoFuel
  | S fuel' =>
      rel ← dict_find (cache_rels db) next_id;
      r ← rel_at db rel;
      if (negb (bool_decide (direction = INCOMING)) && (source_node r =? node_from) && (target_node r =? node_to))
         || (negb (bool_decide (direction = OUTGOING)) && (source_node r =? node_to) && (target_node r =? node_from))
      then Ok (Some rel)
      else
        next_id ← in_memory_next_relationship_id db node_from rel direction;
        if negb (next_id =? start_id) && negb (next_id =? UNINITIALIZED_LONG)
        then in_memory_contains_loop fuel' db node_from node_to start_id next_id direction
        else Ok None
  end.

(** With the fuel of the search as an argument. *)
Definition in_memory_contains_fuel (fuel : nat) (db : in_memory_graph) (node_from node_to : Z)
    (direction : direction_t) : res (option ptr) :=
  if (node_from =? UNINITIALIZED_LONG) || (node_to =? UNINITIALIZED_LONG) then Ok None
  else
    source ← dict_find (cache_nodes db) node_from;
    target ← dict_find (cache_nodes db) node_to;
    s ← node_at db source;
    t ← node_at db target;
    if (first_relationship s =? UNINITIALIZED_LONG) || (first_relationship t =? UNINITIALIZED_LONG) then Ok None
    else
      let start_id := first_relationship s in
      in_memory_contains_loop fuel db node_from node_to start_id start_id direction.

Definition in_memory_contains_relationship_from_to (db : in_memory_graph) (node_from node_to : Z)
    (direction : direction_t) : res (option ptr) :=
  in_memory_contains_fuel (chain_fuel db) db node_from node_to direction.
