(* ===== verification/MemGraphInv.v ===== *)
(** The graph in memory represents a graph: the tables give every id the struct of that
    position, and the structs, read as a store, represent an abstract graph just as the
    records of a heap file do ([represents]). *)

From S2P Require Import Prelude Constants HTable ArrayList Records HeapFile HeapFileInv Chains Incidence Traversal MemGraph.
From Stdlib Require Import ZArith Lia.
From stdpp Require Import base list list_numbers option fin_maps gmap.

#[local] Open Scope Z_scope.

(** ** Positions as ids *)

Section Positions.
Context {A : Type}.
Implicit Types (l : list A) (f : A -> A).

Definition by_id l : gmap Z A := map_seqZ 0 l.

Lemma by_id_lookup l i x : by_id l !! i = Some x <-> 0 <= i /\ l !! Z.to_nat i = Some x.
Proof. unfold by_id. rewrite lookup_map_seqZ_Some, Z.sub_0_r. done. Qed.
Lemma by_id_nat l (i : nat) : by_id l !! Z.of_nat i = l !! i.
Proof. unfold by_id. by rewrite lookup_map_seqZ_0, Nat2Z.id by lia. Qed.
Lemma by_id_range l i : is_Some (by_id l !! i) <-> 0 <= i < Z.of_nat (length l).
Proof. unfold by_id. rewrite lookup_map_seqZ_is_Some. lia. Qed.
Lemma by_id_snoc l x : by_id (l ++ [x]) = <[Z.of_nat (length l) := x]> (by_id l).
Proof. unfold by_id. by rewrite map_seqZ_snoc. Qed.
Lemma by_id_fresh l : by_id l !! Z.of_nat (length l) = None.
Proof. apply (map_seqZ_snoc_disjoint (M := gmap Z) 0 l). Qed.
Lemma by_id_alter f l (p : nat) i : i = Z.of_nat p -> by_id (alter f p l) = alter f i (by_id l).
Proof.
  intros ->. apply map_eq. intros j. destruct (decide (j = Z.of_nat p)) as [->|Hj].
  - by rewrite lookup_alter_eq, !by_id_nat, list_lookup_alter_eq.
  - rewrite lookup_alter_ne by congruence. unfold by_id. rewrite !lookup_map_seqZ. case_guard; [|done].
    simpl. rewrite list_lookup_alter_ne by lia. done.
Qed.
End Positions.

(** ** The invariant *)

Definition table_ok (d : dict_ul_ptr) (n : nat) : Prop :=
  wf fnv_hash_ul d /\ load_ok d /\ contents d = by_id (seq 0 n).

Definition mem_store (db : in_memory_graph) : store := Store (by_id (node_structs db)) (by_id (rel_structs db)).

Record mem_graph (db : in_memory_graph) (G : graph) : Prop := MemGraph {
  mg_nodes : table_ok (cache_nodes db) (length (node_structs db));
  mg_rels : table_ok (cache_rels db) (length (rel_structs db));
  mg_n_nodes : im_n_nodes db = Z.of_nat (length (node_structs db));
  mg_n_rels : im_n_rels db = Z.of_nat (length (rel_structs db));
  mg_node_ids : forall p n, node_structs db !! p = Some n -> n_id n = Z.of_nat p;
  mg_rel_ids : forall p r, rel_structs db !! p = Some r -> r_id r = Z.of_nat p;
  mg_bound : Z.of_nat (length (node_structs db)) <= 2 ^ 59 /\ Z.of_nat (length (rel_structs db)) <= 2 ^ 59;
  mg_represents : represents (mem_store db) G }.

Lemma dict_find_ok d n i : table_ok d n -> 0 <= i < Z.of_nat n -> dict_find d i = Ok (Z.to_nat i).
Proof.
  intros ([S _] & _ & C) Hi. unfold dict_find, htable_get_direct. rewrite (ht_get_ok fnv_hash_ul d i S), C.
  rewrite (proj2 (by_id_lookup (seq 0 n) i (Z.to_nat i))); [done|]. split; [lia|]. apply lookup_seq. lia.
Qed.

Lemma dict_find_none d n i : table_ok d n -> ~ 0 <= i < Z.of_nat n -> dict_find d i = Exit.
Proof.
  intros ([S _] & _ & C) Hi. unfold dict_find, htable_get_direct. rewrite (ht_get_ok fnv_hash_ul d i S), C.
  destruct (by_id (seq 0 n) !! i) eqn:E; [|done]. destruct Hi. pose proof (by_id_range (seq 0 n) i) as B.
  rewrite length_seq in B. apply B. eauto.
Qed.

Lemma dict_put_ok d n : table_ok d n ->
  exists d', dict_put d (Z.of_nat n) n = Ok d' /\ table_ok d' (S n).
Proof.
  intros (W & L & C). destruct (ht_insert_ok fnv_hash_ul 0 0%nat d (Z.of_nat n) n W) as (d' & E & W' & C' & U & B).
  exists d'. split; [exact E|]. split_and!; [done|by eapply insert_load|].
  rewrite C', C, seq_S, by_id_snoc, length_seq. done.
Qed.

Lemma dict_new_ok seed : table_ok (htable_create 0 0%nat seed) 0.
Proof.
  split_and!; [apply create_wf|apply create_load|reflexivity].
Qed.

(** ** Reading *)

Section Reading.
Context (db : in_memory_graph) (G : graph).
Hypothesis M : mem_graph db G.

Lemma find_node_ok n node : st_nodes (mem_store db) !! n = Some node ->
  dict_find (cache_nodes db) n = Ok (Z.to_nat n) /\ node_at db (Z.to_nat n) = Ok node /\ n_id node = n /\
  n <> UNINITIALIZED_LONG.
Proof.
  intros E. pose proof E as [Hn El]%by_id_lookup. assert (B : is_Some (by_id (node_structs db) !! n)) by (cbn in E; eauto).
  apply by_id_range in B. pose proof (mg_bound _ _ M). split_and!.
  - apply (dict_find_ok _ _ _ (mg_nodes _ _ M)). done.
  - unfold node_at. by rewrite El.
  - rewrite (mg_node_ids _ _ M _ _ El). lia.
  - unfold UNINITIALIZED_LONG, ULONG_MAX. lia.
Qed.

Lemma find_rel_ok x r : st_rels (mem_store db) !! x = Some r ->
  dict_find (cache_rels db) x = Ok (Z.to_nat x) /\ rel_at db (Z.to_nat x) = Ok r /\ r_id r = x /\ x <> UNINITIALIZED_LONG.
Proof.
  intros E. pose proof E as [Hn El]%by_id_lookup. assert (B : is_Some (by_id (rel_structs db) !! x)) by (cbn in E; eauto).
  apply by_id_range in B. pose proof (mg_bound _ _ M). split_and!.
  - apply (dict_find_ok _ _ _ (mg_rels _ _ M)). done.
  - unfold rel_at. by rewrite El.
  - rewrite (mg_rel_ids _ _ M _ _ El). lia.
  - unfold UNINITIALIZED_LONG, ULONG_MAX. lia.
Qed.

Lemma get_relationship_ok x r : st_rels (mem_store db) !! x = Some r ->
  in_memory_get_relationship db x = Ok (Z.to_nat x).
Proof.
  intros E. destruct (find_rel_ok x r E) as (F & _ & _ & U). unfold in_memory_get_relationship.
  by rewrite (proj2 (Z.eqb_neq _ _) U), F.
Qed.
End Reading.

(** ** Creation *)

Lemma in_memory_graph_create_ok seed_nodes seed_rels :
  mem_graph (in_memory_graph_create seed_nodes seed_rels) empty_graph.
Proof.
  split; try apply dict_new_ok; try done; apply empty_represents.
Qed.

Lemma create_node_mem db G lb : mem_graph db G -> Z.of_nat (length (node_structs db)) < 2 ^ 59 ->
  exists db', in_memory_create_node db lb = Ok (im_n_nodes db, db') /\ g_labels G !! im_n_nodes db = None /\
    mem_graph db' (add_node G (im_n_nodes db) lb) /\ rel_structs db' = rel_structs db /\
    length (node_structs db') = S (length (node_structs db)).
Proof.
  intros M Hb. destruct (dict_put_ok _ _ (mg_nodes _ _ M)) as (d' & Ed & T). unfold in_memory_create_node.
  pose proof (mg_n_nodes _ _ M) as N. rewrite N, Ed. cbn [mbind res_bind]. eexists. split; [reflexivity|].
  assert (Fr : st_nodes (mem_store db) !! Z.of_nat (length (node_structs db)) = None) by apply by_id_fresh.
  split; [rewrite (graph_node _ _ _ (mg_represents _ _ M)), Fr; done|].
  split; [|cbn; rewrite length_app; simpl; split; [done|lia]].
  split; cbn [cache_nodes cache_rels im_n_nodes im_n_rels node_structs rel_structs]; rewrite ?length_app; simpl length;
    rewrite ?Nat.add_1_r; try done.
  - by apply M.
  - unfold u64. rewrite Z.mod_small by lia. lia.
  - by apply M.
  - intros p n. rewrite lookup_app_Some. intros [E|[Hp E]]; [by apply (mg_node_ids _ _ M)|].
    apply list_lookup_singleton_Some in E as [? <-]. cbn. f_equal. lia.
  - by apply M.
  - pose proof (mg_bound _ _ M). lia.
  - pose proof (add_node_represents _ _ _ lb (mg_represents _ _ M) Fr) as R.
    unfold mem_store. cbn [node_structs rel_structs]. by rewrite by_id_snoc.
Qed.

(** Changes of structs that keep what the positions say. *)
Lemma alter_ids {A} (idf : A -> Z) (f : A -> A) (p : nat) (l : list A) : (forall a, idf (f a) = idf a) ->
  (forall q a, l !! q = Some a -> idf a = Z.of_nat q) -> forall q a, alter f p l !! q = Some a -> idf a = Z.of_nat q.
Proof.
  intros Hf Hl q a. destruct (decide (q = p)) as [->|Hne].
  - rewrite list_lookup_alter_eq. intros (b & E & ->)%fmap_Some. rewrite Hf. by apply Hl.
  - rewrite list_lookup_alter_ne by done. apply Hl.
Qed.

Lemma last_default (h : Z) l d : List.last (h :: l) d = List.last (h :: l) h.
Proof. destruct l as [|b l _] using rev_ind; [done|]. by rewrite !app_comm_cons, !last_last. Qed.

Section Creation.
Context (db : in_memory_graph) (G : graph).
Hypothesis M : mem_graph db G.
Let rel := length (rel_structs db).
Let id := Z.of_nat rel.

Lemma chain_ends_ok db1 new n node : cache_rels db1 = cache_rels db -> rel_structs db1 = rel_structs db ++ [new] ->
  st_nodes (mem_store db) !! n = Some node ->
  exists pf pl, chain_ends db1 node rel = Ok (pf, pl) /\ Z.of_nat pf = hd id (g_inc G n) /\
    Z.of_nat pl = List.last (g_inc G n) id /\ (pf <= rel)%nat /\ (pl <= rel)%nat.
Proof.
  intros Ec Es En. unfold chain_ends. pose proof (mg_represents _ _ M) as R.
  destruct (rg_chain _ _ R n node En) as [C F]. rewrite F.
  destruct (g_inc G n) as [|h l] eqn:El; cbn [hd].
  { exists rel, rel. by split_and!. }
  assert (Get : forall x r, st_rels (mem_store db) !! x = Some r ->
    in_memory_get_relationship db1 x = Ok (Z.to_nat x) /\ rel_at db1 (Z.to_nat x) = Ok r /\
    Z.of_nat (Z.to_nat x) = x /\ (Z.to_nat x <= rel)%nat /\ x <> UNINITIALIZED_LONG).
  { intros x r Er. pose proof (get_relationship_ok db G M x r Er) as Eg.
    destruct (find_rel_ok db G M x r Er) as (_ & _ & _ & U). pose proof Er as [H0 El']%by_id_lookup.
    split_and!; [|unfold rel_at; rewrite Es; by rewrite (lookup_app_l_Some _ _ _ _ El')|lia| |done].
    - rewrite <- Eg. unfold in_memory_get_relationship. by rewrite Ec.
    - apply lookup_lt_Some in El'. unfold rel. lia. }
  destruct (first_prev _ G n node h l R En El) as (r & Er & Ep & _).
  destruct (Get h r Er) as (-> & E1 & I1 & L1 & U1). rewrite (proj2 (Z.eqb_neq _ _) U1). cbn [mbind res_bind].
  rewrite E1. cbn [mbind res_bind].
  assert (Hn : n_id node = n) by apply (find_node_ok db G M n node En). rewrite Hn, Ep.
  destruct (chain_rel _ G n node (List.last (h :: l) h) R En) as (r2 & Er2 & _).
  { rewrite El. eapply cycle_fst, cycle_last. }
  destruct (Get _ r2 Er2) as (-> & _ & I2 & L2 & _). cbn [mbind res_bind].
  exists (Z.to_nat h), (Z.to_nat (List.last (h :: l) h)). split_and!; try done.
  by rewrite (last_default h l id).
Qed.

Lemma link_structs_ok (a : list relationship_t) (from to : Z) (fs ls ft lt : ptr) :
  (forall p r, a !! p = Some r -> r_id r = Z.of_nat p) -> length a = S rel ->
  (fs <= rel)%nat -> (ls <= rel)%nat -> (ft <= rel)%nat -> (lt <= rel)%nat ->
  exists a', link_structs a rel from to id fs ls ft lt = Ok a' /\ length a' = length a /\
    (forall p r, a' !! p = Some r -> r_id r = Z.of_nat p) /\
    by_id a' = link_rels (alter (fun r => place r (Z.of_nat ls) (Z.of_nat fs) (Z.of_nat lt) (Z.of_nat ft)) id (by_id a))
                 from to id (Z.of_nat ls) (Z.of_nat fs) (Z.of_nat lt) (Z.of_nat ft).
Proof.
  intros Ids La L1 L2 L3 L4. unfold link_structs.
  assert (At : forall p, (p <= rel)%nat -> exists r, a !! p = Some r /\ r_id r = Z.of_nat p).
  { intros p Hp. destruct (lookup_lt_is_Some_2 a p ltac:(lia)) as [r E]. exists r. split; [done|by apply Ids]. }
  destruct (At ls L2) as (r1 & -> & I1), (At fs L1) as (r2 & -> & I2),
    (At lt L4) as (r3 & -> & I3), (At ft L3) as (r4 & -> & I4).
  cbn [deref mbind res_bind]. eexists. split; [reflexivity|]. split; [|split].
  - by rewrite !length_alter.
  - repeat (apply alter_ids; [intros; first [apply adjust_next_id|apply adjust_prev_id|done]|]); exact Ids.
  - unfold link_rels. rewrite I1, I2, I3, I4. by rewrite !(by_id_alter _ _ _ _ eq_refl).
Qed.

Lemma create_relationship_mem from to w lb : is_Some (g_labels G !! from) -> is_Some (g_labels G !! to) ->
  double_eqb w UNINITIALIZED_WEIGHT = false -> id < 2 ^ 59 ->
  exists db', in_memory_create_relationship_weighted db from to w lb = Ok (id, db') /\ g_edges G !! id = None /\
    mem_graph db' (add_edge G id (Edge from to w lb)) /\
    length (node_structs db') = length (node_structs db) /\ length (rel_structs db') = S (length (rel_structs db)).
Proof.
  intros [lf Hf] [lt Ht] W Hb. pose proof (mg_represents _ _ M) as R.
  destruct (store_node _ G from lf R Hf) as (nf & Ef & _), (store_node _ G to lt R Ht) as (nt & Et & _).
  assert (Fr : st_rels (mem_store db) !! id = None) by apply by_id_fresh.
  unfold in_memory_create_relationship_weighted.
  destruct (find_node_ok db G M from nf Ef) as (-> & Af & _ & Uf), (find_node_ok db G M to nt Et) as (-> & At & _ & Ut).
  rewrite (proj2 (Z.eqb_neq _ _) Uf), (proj2 (Z.eqb_neq _ _) Ut), W, (mg_n_rels _ _ M). cbn [orb mbind res_bind].
  fold rel. fold id. set (new := Relationship _ _ _ _ _ _ _ _ _). set (db1 := InMemoryGraph _ _ _ _ _ _).
  change (node_at db1) with (node_at db). rewrite Af, At. cbn [mbind res_bind].
  destruct (chain_ends_ok db1 new from nf eq_refl eq_refl Ef) as (fs & ls & -> & Ifs & Ils & Lfs & Lls).
  destruct (chain_ends_ok db1 new to nt eq_refl eq_refl Et) as (ft & lst & -> & Ift & Ilt & Lft & Llt). cbn [mbind res_bind].
  assert (Ids : forall p r, rel_structs db1 !! p = Some r -> r_id r = Z.of_nat p).
  { intros p r. cbn. rewrite lookup_app_Some. intros [E|[Hp E]]; [by apply (mg_rel_ids _ _ M)|].
    apply list_lookup_singleton_Some in E as [? <-]. cbn. unfold id, rel. lia. }
  destruct (link_structs_ok (rel_structs db1) from to fs ls ft lst Ids) as (a' & -> & La & Ids' & Ba);
    [cbn; rewrite length_app; simpl; unfold rel; lia|done..|]. cbn [mbind res_bind].
  cbn [rel_structs db1] in La, Ba. rewrite length_app in La. simpl in La.
  destruct (dict_put_ok _ _ (mg_rels _ _ M)) as (d' & Ed & T). cbn [cache_rels set_structs db1].
  fold rel in Ed, T |- *. fold id in Ed |- *. rewrite Ed. cbn [mbind res_bind]. eexists. split; [reflexivity|].
  split; [by rewrite (graph_edge _ _ _ R), Fr|].
  cbn [cache_nodes cache_rels im_n_nodes im_n_rels node_structs rel_structs set_structs db1].
  split; [|rewrite !length_alter; unfold rel in La; split; [done|lia]].
  pose proof (mg_bound _ _ M) as [B1 B2]. fold rel in B2.
  split; cbn [cache_nodes cache_rels im_n_nodes im_n_rels node_structs rel_structs]; rewrite ?length_alter; try by apply M.
  - replace (length a') with (S rel) by (unfold rel in *; lia). exact T.
  - unfold u64. rewrite Z.mod_small by lia. unfold rel in *. lia.
  - repeat (apply alter_ids; [intros; unfold set_first_unset; by case_match|]). by apply M.
  - exact Ids'.
  - unfold rel in *. lia.
  - pose proof (add_edge_represents (mem_store db) G id (Edge from to w lb) R Fr (ex_intro _ _ Ef) (ex_intro _ _ Et)) as A.
    unfold linked, placed in A. cbn [e_source e_target e_weight e_label] in A.
    unfold mem_store. cbn [node_structs rel_structs]. rewrite !(by_id_alter _ _ _ _ eq_refl), Ba.
    pose proof Ef as [Pf _]%by_id_lookup. pose proof Et as [Pt _]%by_id_lookup. rewrite !Z2Nat.id by done.
    rewrite by_id_snoc. fold rel. fold id. rewrite Ifs, Ils, Ift, Ilt.
    rewrite alter_insert_eq. apply A; [unfold UNINITIALIZED_LONG, ULONG_MAX; lia|done].
Qed.
End Creation.
