(* ===== verification/MemTraversal.v ===== *)
(** Traversal of the graph in memory: the next relationship in a direction, all
    relationships of a node, the search for an edge, the lists of all records; and the
    properties of the graph in memory.

    The loops follow the same chains as those of the heap file (Traversal.v), but nothing
    changes while they run, so that the statements are equations.  A pointer is the id of its
    struct, and lists of pointers are compared with lists of ids. *)

From S2P Require Import Prelude Constants HTable ArrayList Records HeapFile HeapFileInv Chains Incidence Traversal MemGraph MemGraphInv.
From Stdlib Require Import ZArith Lia.
From stdpp Require Import base list list_numbers option fin_maps gmap.

#[local] Open Scope Z_scope.

Section Traversal.
Context (db : in_memory_graph) (G : graph).
Hypothesis M : mem_graph db G.
Let g := mem_store db.
Let R : represents g G := mg_represents _ _ M.

Lemma stored_rel_range x r : st_rels g !! x = Some r -> 0 <= x < Z.of_nat (length (rel_structs db)).
Proof. intros E. apply by_id_range. cbn in E. eauto. Qed.

Lemma stored_length (l : list Z) : NoDup l -> (forall x, x ∈ l -> is_Some (st_rels g !! x)) ->
  (length l <= length (rel_structs db))%nat.
Proof.
  intros Nd Hl. rewrite <- (length_seq (length (rel_structs db)) 0), <- (length_fmap Z.of_nat).
  apply List.NoDup_incl_length; [by apply NoDup_ListNoDup|]. intros x Hx. apply list_elem_of_In in Hx.
  destruct (Hl x Hx) as [r E]. apply stored_rel_range in E. apply list_elem_of_In, list_elem_of_fmap.
  exists (Z.to_nat x). split; [lia|]. apply elem_of_seq. lia.
Qed.

Section Node.
Context (n : Z) (node : node_t) (d : direction_t).
Hypothesis En : st_nodes g !! n = Some node.
Let P := dir_edge n d.

Lemma incidence_length : (length (g_inc G n) <= length (rel_structs db))%nat.
Proof.
  apply stored_length; [by apply (inc_nodup g G n node R)|]. intros x Hx.
  destruct (inc_rel g G n node d R En x Hx) as (r & E & _). eauto.
Qed.

(** The struct of an id of the chain. *)
Lemma chain_struct x : x ∈ g_inc G n -> exists r, st_rels g !! x = Some r /\ touches n r /\
  has_direction n d r = sel G P x /\ dict_find (cache_rels db) x = Ok (Z.to_nat x) /\ rel_at db (Z.to_nat x) = Ok r /\
  r_id r = x /\ x <> UNINITIALIZED_LONG /\ 0 <= x.
Proof.
  intros Hx. destruct (inc_rel g G n node d R En x Hx) as (r & E & T & Hd). exists r.
  destruct (find_rel_ok db G M x r E) as (F & A & I & U). split_and!; try done. apply stored_rel_range in E. lia.
Qed.

Lemma link_of_ok x y r : (x, y) ∈ cycle (g_inc G n) -> st_rels g !! x = Some r -> touches n r -> link_of n r = y.
Proof.
  intros Hc E T. destruct (rg_chain _ _ R n node En) as [C _]. destruct (ch_next _ _ _ C x y r Hc E) as [N1 N2].
  unfold link_of. destruct (Z.eqb_spec n (source_node r)) as [->|D1]; [by rewrite N1|]. apply N2. destruct T; congruence.
Qed.

Lemma next_loop_mem start k : forall k2 fuel, g_inc G n ≡ₚ start :: k ->
  (forall x y, (x, y) ∈ links (start :: k) start -> (x, y) ∈ cycle (g_inc G n)) ->
  (exists k1, k = k1 ++ k2) -> (k2 = [] -> k = []) -> (length k2 < fuel)%nat ->
  next_relationship_id_loop fuel db n start (hd start k2) d = Ok (hd UNINITIALIZED_LONG (pick G P k2)).
Proof.
  induction k2 as [|y k2 IH]; intros fuel Pm Lk [k1 Ek] Hk Hf; (destruct fuel as [|fuel]; [simpl in Hf; lia|]);
    cbn [next_relationship_id_loop hd].
  - rewrite (Hk eq_refl) in *. destruct (chain_struct start) as (r & Er & T & _ & -> & Ea & _); [rewrite Pm; set_solver|].
    cbn [mbind res_bind]. rewrite Ea. cbn [mbind res_bind]. rewrite Z.eqb_refl. cbn [negb andb].
    rewrite (link_of_ok start start r) by (done || apply Lk; set_solver). by rewrite Z.eqb_refl.
  - assert (Nd : NoDup (start :: k)) by (rewrite <- Pm; apply (inc_nodup g G n node R En)).
    apply NoDup_cons in Nd as [Ns Nd]. assert (Hy : y ∈ k) by (rewrite Ek; set_solver).
    destruct (chain_struct y) as (r & Er & T & Hd & -> & Ea & Ei & _); [rewrite Pm; set_solver|].
    cbn [mbind res_bind]. rewrite Ea. cbn [mbind res_bind]. rewrite (proj2 (Z.eqb_neq y start)) by congruence.
    cbn [negb andb]. rewrite Hd, pick_cons. destruct (sel G P y); [by rewrite Ei|].
    rewrite (link_of_ok y (hd start k2) r); [|apply Lk|done|done].
    2:{ rewrite Ek. cbn [links]. apply elem_of_cons. right. rewrite links_app. apply elem_of_app. right. set_solver. }
    destruct k2 as [|z k2]; cbn [hd]; [by rewrite Z.eqb_refl|].
    assert (Hz : z ∈ k) by (rewrite Ek; set_solver). rewrite (proj2 (Z.eqb_neq z start)) by congruence.
    apply (IH fuel Pm Lk); [exists (k1 ++ [y]); by rewrite <- app_assoc|done|simpl in *; lia].
Qed.

(** The next relationship in the direction, going round the chain. *)
Lemma next_relationship_mem l1 x l2 : g_inc G n = l1 ++ x :: l2 ->
  in_memory_next_relationship_id db n (Z.to_nat x) d = Ok (hd UNINITIALIZED_LONG (pick G P (l2 ++ l1))).
Proof.
  intros El. assert (Hx : x ∈ g_inc G n) by (rewrite El; set_solver).
  destruct (chain_struct x Hx) as (r & Er & T & _ & _ & Ea & Ei & _). unfold in_memory_next_relationship_id.
  rewrite (proj2 (Z.eqb_neq n _)) by apply (find_node_ok db G M n node En). rewrite Ea. cbn [mbind res_bind].
  assert (Lk : forall a b, (a, b) ∈ links (x :: l2 ++ l1) x -> (a, b) ∈ cycle (g_inc G n)).
  { intros a b Hab. rewrite El, cycle_rotate. exact Hab. }
  rewrite (link_of_ok x (hd x (l2 ++ l1)) r); [|apply Lk; cbn [links]; set_solver|done|done].
  rewrite Ei. apply (next_loop_mem x (l2 ++ l1)); try done.
  - rewrite El, Permutation_app_comm. done.
  - by exists [].
  - pose proof incidence_length as B. rewrite El, length_app in B. simpl in B. rewrite length_app. unfold chain_fuel. lia.
Qed.

Lemma next_picked_mem f1 y f2 : pick G P (g_inc G n) = f1 ++ y :: f2 ->
  in_memory_next_relationship_id db n (Z.to_nat y) d = Ok (hd UNINITIALIZED_LONG (f2 ++ f1)).
Proof.
  intros Ef. apply pick_split in Ef as (l1 & l2 & El & <- & <-). rewrite <- pick_app. by apply next_relationship_mem.
Qed.

(** The first one in the direction, from the head of the chain. *)
Lemma first_picked_mem h l r : g_inc G n = h :: l -> st_rels g !! h = Some r ->
  (if has_direction n d r then Ok h else in_memory_next_relationship_id db n (Z.to_nat h) d) =
    Ok (hd UNINITIALIZED_LONG (pick G P (g_inc G n))).
Proof.
  intros El Er. destruct (chain_struct h) as (r' & Er' & _ & Hd & _); [rewrite El; set_solver|].
  assert (r' = r) as -> by congruence. rewrite Hd, El, pick_cons. destruct (sel G P h); [done|].
  rewrite (next_relationship_mem [] h l El). by rewrite app_nil_r.
Qed.

Lemma picked_in f1 y f2 : pick G P (g_inc G n) = f1 ++ y :: f2 -> y ∈ g_inc G n /\ sel G P y = true.
Proof. intros Ef. apply pick_elem. rewrite Ef. set_solver. Qed.

Lemma room_to_append : Z.of_nat (length (pick G P (g_inc G n))) <= 2 ^ 59.
Proof. pose proof (pick_length G P (g_inc G n)). pose proof incidence_length. pose proof (mg_bound _ _ M). lia. Qed.

Lemma expand_loop_mem f : pick G P (g_inc G n) = f -> forall f2 f1 fuel acc, f = f1 ++ f2 ->
  al_appended acc (Z.to_nat <$> f1) -> (f2 = [] -> f = []) -> (length f2 + 1 < fuel)%nat ->
  exists l, in_memory_expand_loop fuel db n (hd UNINITIALIZED_LONG f) (hd UNINITIALIZED_LONG f2) d acc = Ok l /\
    al_appended l (Z.to_nat <$> f).
Proof.
  intros Ef. assert (Nd : NoDup f) by (rewrite <- Ef; apply pick_nodup, (inc_nodup g G n node R En)).
  pose proof room_to_append as Rm. rewrite Ef in Rm.
  induction f2 as [|y f2 IH]; intros f1 fuel acc Efs Al Hf2 Hfu; (destruct fuel as [|fuel]; [lia|]);
    cbn [in_memory_expand_loop hd].
  { rewrite Z.eqb_refl. exists acc. split; [done|]. by rewrite Efs, app_nil_r. }
  destruct (picked_in f1 y f2) as [Hy _]; [by rewrite Ef|].
  destruct (chain_struct y Hy) as (r & Er & _ & _ & Fd & _ & _ & Uy & _).
  rewrite (proj2 (Z.eqb_neq y _) Uy), Fd. cbn [mbind res_bind].
  assert (Ll : (length f = length f1 + S (length f2))%nat) by (rewrite Efs, length_app; done).
  destruct (array_append_ok acc _ (Z.to_nat y) Al) as (l' & -> & Al'); [rewrite length_fmap; lia|]. cbn [mbind res_bind].
  rewrite (next_picked_mem f1 y f2) by (by rewrite Ef). cbn [mbind res_bind].
  assert (Al1 : al_appended l' (Z.to_nat <$> f1 ++ [y])) by (by rewrite fmap_app).
  destruct f2 as [|z f2]; cbn [app hd].
  - destruct f1 as [|h f1].
    + rewrite Efs. cbn [app hd]. rewrite (proj2 (Z.eqb_neq UNINITIALIZED_LONG y)) by congruence.
      destruct fuel as [|fuel]; [simpl in Hfu; lia|]. cbn [in_memory_expand_loop]. rewrite Z.eqb_refl. by exists l'.
    + rewrite Efs. cbn [hd app]. rewrite Z.eqb_refl. by exists l'.
  - assert (Hz : z <> hd UNINITIALIZED_LONG f).
    { rewrite Efs in Nd |- *. destruct f1 as [|h f1]; cbn [app hd] in *; apply NoDup_cons in Nd as [Nd _]; set_solver. }
    rewrite (proj2 (Z.eqb_neq z _) Hz). apply (IH (f1 ++ [y])); [by rewrite <- app_assoc|done|done|simpl in *; lia].
Qed.

Lemma expand_mem : exists l, in_memory_expand db n d = Ok l /\ al_appended l (Z.to_nat <$> pick G P (g_inc G n)).
Proof.
  unfold in_memory_expand. destruct (find_node_ok db G M n node En) as (-> & An & _). cbn [mbind res_bind].
  rewrite An. cbn [mbind res_bind]. destruct (rg_chain _ _ R n node En) as [_ F]. rewrite F.
  destruct (g_inc G n) as [|h l] eqn:El; cbn [hd].
  { rewrite Z.eqb_refl. exists array_list_create. split; [done|apply array_create_appended]. }
  rewrite <- El. destruct (chain_struct h) as (r & Er & _ & _ & _ & Ea & _ & Uh & _); [rewrite El; set_solver|].
  rewrite (proj2 (Z.eqb_neq h _) Uh), (get_relationship_ok db G M h r Er). cbn [mbind res_bind]. rewrite Ea.
  cbn [mbind res_bind]. rewrite (first_picked_mem h l r El Er). cbn [mbind res_bind].
  apply (expand_loop_mem _ eq_refl _ []); [done|apply array_create_appended|done|].
  pose proof (pick_length G P (g_inc G n)). pose proof incidence_length. unfold chain_fuel. lia.
Qed.

(** ** Searching an edge *)

Context (to : Z).
Let J := joins n to d.

Lemma contains_round_mem fuel start y : y ∈ g_inc G n ->
  in_memory_contains_loop (S fuel) db n to start y d =
    if sel G J y then Ok (Some (Z.to_nat y))
    else next ← in_memory_next_relationship_id db n (Z.to_nat y) d;
         if negb (next =? start) && negb (next =? UNINITIALIZED_LONG)
         then in_memory_contains_loop fuel db n to start next d else Ok None.
Proof.
  intros Hy. destruct (chain_struct y Hy) as (r & Er & _ & _ & Fd & Ea & _). cbn [in_memory_contains_loop].
  rewrite Fd. cbn [mbind res_bind]. rewrite Ea. cbn [mbind res_bind]. by rewrite (sel_rel g G J y r R Er).
Qed.

Lemma contains_loop_mem start f : pick G P (g_inc G n) = f -> (start ∈ f -> start = hd UNINITIALIZED_LONG f) ->
  forall f2 f1 fuel, f = f1 ++ f2 -> f2 <> [] ->
  (start = hd UNINITIALIZED_LONG f \/ (f1 = [] /\ length f2 = 1%nat) \/ pick G J f2 <> []) -> (length f2 < fuel)%nat ->
  in_memory_contains_loop fuel db n to start (hd UNINITIALIZED_LONG f2) d = Ok (Z.to_nat <$> head (pick G J f2)).
Proof.
  intros Ef Hst. assert (Nd : NoDup f) by (rewrite <- Ef; apply pick_nodup, (inc_nodup g G n node R En)).
  induction f2 as [|y f2 IH]; intros f1 fuel Efs Hne Hc Hfu; [done|]. destruct fuel as [|fuel]; [lia|]. cbn [hd].
  destruct (picked_in f1 y f2) as [Hy _]; [by rewrite Ef|]. rewrite (contains_round_mem fuel start y Hy), pick_cons.
  rewrite pick_cons in Hc. destruct (sel G J y); [done|].
  rewrite (next_picked_mem f1 y f2) by (by rewrite Ef). cbn [mbind res_bind]. destruct f2 as [|z f2]; cbn [app hd].
  - destruct f1 as [|h f1]; cbn [hd]; [by rewrite Z.eqb_refl, andb_false_r|].
    destruct Hc as [->|[[? _]|Hp]]; [|done|done]. rewrite Efs. cbn [hd app]. by rewrite Z.eqb_refl.
  - assert (Hz : z ∈ f) by (rewrite Efs; set_solver).
    assert (Hzs : z <> start).
    { intros ->. specialize (Hst Hz). rewrite Efs in Nd, Hst. destruct f1 as [|h f1]; cbn [app hd] in *;
        apply NoDup_cons in Nd as [Nd _]; set_solver. }
    assert (Uz : z <> UNINITIALIZED_LONG).
    { rewrite <- Ef in Hz. apply pick_elem in Hz as [Hz _]. by destruct (chain_struct z Hz) as (? & _ & _ & _ & _ & _ & _ & ? & _). }
    rewrite (proj2 (Z.eqb_neq _ _) Hzs), (proj2 (Z.eqb_neq _ _) Uz).
    apply (IH (f1 ++ [y])); [by rewrite <- app_assoc|done| |simpl in *; lia].
    destruct Hc as [?|[[_ ?]|?]]; [by left|done|by right; right].
Qed.

Lemma contains_start_mem h l fuel : g_inc G n = h :: l ->
  (sel G P h = true \/ (length (pick G P (g_inc G n)) <= 1)%nat \/ pick G J (g_inc G n) <> []) ->
  (length (g_inc G n) < fuel)%nat ->
  in_memory_contains_loop (S fuel) db n to h h d = Ok (Z.to_nat <$> head (pick G J (g_inc G n))).
Proof.
  intros El Hc Hf. unfold J in *. rewrite <- (pick_joins G n d to (g_inc G n)) in Hc |- *. fold P J in Hc |- *.
  pose proof (pick_length G P (g_inc G n)) as Lf. destruct (sel G P h) eqn:Eh.
  - assert (Hd : pick G P (g_inc G n) = h :: pick G P l) by (by rewrite El, pick_cons, Eh).
    rewrite Hd in Lf |- *. change h with (hd UNINITIALIZED_LONG (h :: pick G P l)) at 2.
    apply (contains_loop_mem h _ Hd) with (f1 := []); [done|done|done|by left|lia].
  - assert (Hd : pick G P (g_inc G n) = pick G P l) by (by rewrite El, pick_cons, Eh).
    rewrite contains_round_mem by (rewrite El; set_solver).
    destruct (sel G J h) eqn:Ej; [apply sel_joins in Ej; fold P in Ej; congruence|].
    rewrite (next_relationship_mem [] h l El), app_nil_r, <- Hd. cbn [mbind res_bind].
    destruct (pick G P (g_inc G n)) as [|y f'] eqn:Ef; cbn [hd]; [by rewrite Z.eqb_refl, andb_false_r|].
    assert (Hhf : h ∉ y :: f') by (rewrite <- Ef; intros [_ ?]%pick_elem; congruence).
    destruct (picked_in [] y f' Ef) as [Hy _].
    assert (Uy : y <> UNINITIALIZED_LONG) by (by destruct (chain_struct y Hy) as (? & _ & _ & _ & _ & _ & _ & ? & _)).
    rewrite (proj2 (Z.eqb_neq y h)) by set_solver. rewrite (proj2 (Z.eqb_neq y _) Uy). cbn [negb andb].
    change y with (hd UNINITIALIZED_LONG (y :: f')) at 1.
    apply (contains_loop_mem h _ Ef) with (f1 := []); [done|done|done| |simpl in *; lia].
    right. destruct Hc as [?|[Hc|Hc]]; [done|left|by right]. split; [done|]. simpl in *. lia.
Qed.

(** A start that is not in the direction is never reached again. *)
Lemma contains_diverges_mem h : sel G P h = false -> (2 <= length (pick G P (g_inc G n)))%nat ->
  pick G J (g_inc G n) = [] ->
  forall fuel y, y ∈ pick G P (g_inc G n) -> in_memory_contains_loop fuel db n to h y d = NoFuel.
Proof.
  intros Eh Hl Hj. induction fuel as [|fuel IH]; intros y Hy; [done|].
  pose proof Hy as [Hyi _]%pick_elem. rewrite contains_round_mem by done. destruct (sel G J y) eqn:Ej.
  { assert (Hin : y ∈ pick G J (g_inc G n)) by (by apply pick_elem). rewrite Hj in Hin. by apply elem_of_nil in Hin. }
  apply list_elem_of_split in Hy as (f1 & f2 & Ef). rewrite (next_picked_mem f1 y f2 Ef). cbn [mbind res_bind].
  destruct (f2 ++ f1) as [|z k] eqn:Ek.
  { rewrite Ef, length_app in Hl. apply app_nil in Ek as [-> ->]. simpl in Hl. lia. }
  cbn [hd]. assert (Hz : z ∈ pick G P (g_inc G n)).
  { rewrite Ef. assert (Hz : z ∈ f2 ++ f1) by (rewrite Ek; set_solver). set_solver. }
  pose proof Hz as [Hzi Hzs]%pick_elem. destruct (chain_struct z Hzi) as (? & _ & _ & _ & _ & _ & _ & Uz & _).
  rewrite (proj2 (Z.eqb_neq z h)) by congruence. rewrite (proj2 (Z.eqb_neq z _) Uz). by apply IH.
Qed.
End Node.

Lemma hd_uninit_mem n node : st_nodes g !! n = Some node ->
  (hd UNINITIALIZED_LONG (g_inc G n) =? UNINITIALIZED_LONG) = bool_decide (g_inc G n = []).
Proof.
  intros En. destruct (g_inc G n) as [|h l] eqn:El; [done|]. rewrite bool_decide_false by done. apply Z.eqb_neq.
  destruct (chain_struct n node OUTGOING En h) as (? & _ & _ & _ & _ & _ & _ & U & _); [rewrite El; set_solver|done].
Qed.

(** The checks of the search before its loop. *)
Lemma contains_entry_mem fuel from to nf nt d : st_nodes g !! from = Some nf -> st_nodes g !! to = Some nt ->
  in_memory_contains_fuel fuel db from to d =
    match g_inc G from, g_inc G to with
    | h :: _, _ :: _ => in_memory_contains_loop fuel db from to h h d
    | _, _ => Ok None
    end.
Proof.
  intros Ef Et. unfold in_memory_contains_fuel.
  destruct (find_node_ok db G M from nf Ef) as (-> & Af & _ & Uf), (find_node_ok db G M to nt Et) as (-> & At & _ & Ut).
  rewrite (proj2 (Z.eqb_neq _ _) Uf), (proj2 (Z.eqb_neq _ _) Ut). cbn [orb mbind res_bind]. rewrite Af, At. cbn [mbind res_bind].
  rewrite (proj2 (rg_chain _ _ R from nf Ef)), (proj2 (rg_chain _ _ R to nt Et)).
  rewrite (hd_uninit_mem from nf Ef), (hd_uninit_mem to nt Et).
  by destruct (g_inc G from) as [|h l], (g_inc G to) as [|h' l'].
Qed.

Lemma contains_mem from to nf nt d : st_nodes g !! from = Some nf -> st_nodes g !! to = Some nt ->
  ((forall h, head (g_inc G from) = Some h -> sel G (dir_edge from d) h = true) \/
   (length (pick G (dir_edge from d) (g_inc G from)) <= 1)%nat \/ pick G (joins from to d) (g_inc G from) <> []) ->
  in_memory_contains_relationship_from_to db from to d =
    Ok (Z.to_nat <$> head (pick G (joins from to d) (g_inc G from))).
Proof.
  intros Ef Et Hc. unfold in_memory_contains_relationship_from_to. rewrite (contains_entry_mem _ from to nf nt d Ef Et).
  pose proof (joins_both g G from to nf nt d R Ef Et) as Jb. pose proof (incidence_length from nf d Ef) as Cl.
  destruct (g_inc G from) as [|h l] eqn:El; [done|]. rewrite <- El in *. destruct (g_inc G to) as [|h' l'].
  - destruct (pick G (joins from to d) (g_inc G from)) as [|x k] eqn:Ex; [done|]. exfalso.
    specialize (Jb x ltac:(set_solver)). by apply elem_of_nil in Jb.
  - unfold chain_fuel. apply (contains_start_mem from nf d Ef to h l); [done| |lia].
    destruct Hc as [Hc|Hc]; [left; apply Hc; by rewrite El|by right].
Qed.

Lemma pairs_collect_ok t : forall kvs fuel it acc xs, iterate fuel t it = Ok kvs -> al_appended acc xs ->
  Z.of_nat (length xs + length kvs) <= 2 ^ 59 ->
  exists l, collect fuel t it acc = Ok l /\ al_appended l (xs ++ kvs.*2).
Proof.
  intros kvs fuel. revert kvs. induction fuel as [|fuel IH]; intros kvs it acc xs; cbn [iterate collect]; [done|].
  destruct (iterator_next t it) as [[o it']| | |] eqn:Ei; cbn [mbind res_bind]; try done. intros E Al B.
  destruct o as [[k p]|].
  - destruct (iterate fuel t it') as [kvs'| | |] eqn:Ek; try done. injection E as <-. simpl in B.
    destruct (array_append_ok acc xs p Al ltac:(lia)) as (acc' & -> & Al'). cbn [mbind res_bind].
    destruct (IH kvs' it' acc' (xs ++ [p]) Ek Al') as (l & El & Al2); [rewrite length_app; simpl; lia|].
    exists l. split; [done|]. by rewrite <- app_assoc in Al2.
  - injection E as <-. exists acc. split; [done|]. by rewrite app_nil_r.
Qed.

(** All entries of a table: every id once, with its pointer. *)
Lemma collect_all t n : table_ok t n -> Z.of_nat n <= 2 ^ 59 ->
  exists l ids, collect (S n) t iterator_create array_list_create = Ok l /\ al_appended l (Z.to_nat <$> ids) /\
    NoDup ids /\ forall x, x ∈ ids <-> 0 <= x < Z.of_nat n.
Proof.
  intros ((Sh & U) & _ & C) B.
  assert (Mm : map_to_list (contents t) ≡ₚ entries t) by (apply map_to_list_to_map; by eapply entries_nodup).
  assert (Kv : forall k v, (k, v) ∈ entries t <-> 0 <= k < Z.of_nat n /\ v = Z.to_nat k).
  { intros k v. rewrite <- Mm, elem_of_map_to_list, C, by_id_lookup, lookup_seq. lia. }
  assert (Ln : length (entries t) = n).
  { rewrite <- Mm, <- (length_fmap fst). transitivity (length (Z.of_nat <$> seq 0 n)); [|by rewrite length_fmap, length_seq].
    apply Permutation_length, NoDup_Permutation.
    - apply NoDup_fst_map_to_list.
    - apply NoDup_fmap_2; [intros ???; lia|apply NoDup_seq].
    - intros x. rewrite !list_elem_of_fmap. split.
      + intros ([k v] & -> & Hk). rewrite Mm, Kv in Hk. exists (Z.to_nat k). cbn. split; [lia|]. apply elem_of_seq. lia.
      + intros (i & -> & Hi%elem_of_seq). exists (Z.of_nat i, i). split; [done|]. rewrite Mm, Kv. lia. }
  destruct (pairs_collect_ok t (entries t) (S n) iterator_create array_list_create []) as (l & El & Al); [|apply array_create_appended|simpl; lia|].
  { rewrite (iterate_ok fnv_hash_ul); unfold remaining; simpl; rewrite ?drop_0; [done|done|lia|].
    change (length (entries t) < S n)%nat. lia. }
  exists l, (entries t).*1. split; [exact El|]. split_and!.
  - replace (Z.to_nat <$> (entries t).*1) with (entries t).*2; [done|]. rewrite <- list_fmap_compose.
    apply list_fmap_ext. intros i [k v] Hi%list_elem_of_lookup_2. apply Kv in Hi as [_ ->]. done.
  - by eapply entries_nodup.
  - intros x. rewrite list_elem_of_fmap. split; [intros ([k v] & -> & Hk); by apply Kv in Hk as [? _]|].
    intros Hx. exists (x, Z.to_nat x). split; [done|]. by apply Kv.
Qed.
End Traversal.

(** ** Properties *)

(** A sample: nodes 0 and 1 with the edges 0 -> 1 and 1 -> 1. *)
Definition pair_graph : graph :=
  add_edge (add_edge (add_node (add_node empty_graph 0 7) 1 8) 0 (Edge 0 1 5 9)) 1 (Edge 1 1 6 10).

Lemma pair_sample : exists db, mem_graph db pair_graph /\
  length (node_structs db) = 2%nat /\ length (rel_structs db) = 2%nat.
Proof.
  pose proof (in_memory_graph_create_ok 1 2) as M0.
  destruct (create_node_mem _ _ 7 M0) as (db1 & _ & _ & M1 & R1 & N1); [by vm_compute|].
  destruct (create_node_mem _ _ 8 M1) as (db2 & _ & _ & M2 & R2 & N2); [rewrite N1; by vm_compute|].
  assert (L2 : rel_structs db2 = []) by (by rewrite R2, R1). rewrite (mg_n_nodes _ _ M1), N1 in M2. cbn in M2.
  destruct (create_relationship_mem _ _ M2 0 1 5 9) as (db3 & _ & _ & M3 & N3 & R3); [by eexists..|done|by rewrite L2|].
  rewrite L2 in M3, R3. cbn in M3, R3.
  destruct (create_relationship_mem _ _ M3 1 1 6 10) as (db4 & _ & _ & M4 & N4 & R4); [by eexists..|done|by rewrite R3|].
  rewrite R3 in M4, R4. exists db4. split; [exact M4|]. split; [by rewrite N4, N3, N2, N1|done].
Qed.

(** C6: Creating a relationship between two nodes of the graph in memory adds the edge to the
    graph, at the end of the chains of both nodes, under the next id; a self-loop is entered
    once. *)
Theorem in_memory_create_relationship_adds_edge (db : in_memory_graph) (G : graph) (from to w label : Z)
    (M : mem_graph db G) (Rm : im_n_rels db < 2 ^ 59)
    (Hf : is_Some (g_labels G !! from)) (Ht : is_Some (g_labels G !! to))
    (W : double_eqb w UNINITIALIZED_WEIGHT = false) :
  exists db', in_memory_create_relationship_weighted db from to w label = Ok (im_n_rels db, db') /\
    g_edges G !! im_n_rels db = None /\ mem_graph db' (add_edge G (im_n_rels db) (Edge from to w label)) /\
    im_n_rels db' = im_n_rels db + 1.
Proof.
  rewrite (mg_n_rels _ _ M) in *. destruct (create_relationship_mem db G M from to w label Hf Ht W Rm) as (db' & E & Fr & M' & _ & L).
  exists db'. split_and!; [done|done|done|]. rewrite (mg_n_rels _ _ M'), L. lia.
Qed.

Lemma in_memory_create_relationship_adds_edge_witness :
  exists db db', mem_graph db pair_graph /\
    in_memory_create_relationship_weighted db 1 0 5 9 = Ok (2, db') /\
    mem_graph db' (add_edge pair_graph 2 (Edge 1 0 5 9)).
Proof.
  destruct pair_sample as (db & M & _ & L). exists db.
  assert (N : im_n_rels db = 2) by (by rewrite (mg_n_rels _ _ M), L).
  destruct (in_memory_create_relationship_adds_edge db pair_graph 1 0 5 9 M) as (db' & E & _ & M' & _);
    [rewrite N; lia|by eexists..|done|].
  rewrite N in *. by exists db'.
Defined.

(** [in_memory_expand] returns the pointers of exactly the relationships of a node that
    have the direction, in the order of the node's chain, which is that of their creation. *)
Theorem in_memory_expand_lists (db : in_memory_graph) (G : graph) (n : Z) (d : direction_t)
    (M : mem_graph db G) (Hn : is_Some (g_labels G !! n)) :
  exists l ids, in_memory_expand db n d = Ok l /\ al_rep l (Z.to_nat <$> ids) /\
    ids = pick G (dir_edge n d) (g_inc G n) /\
    Forall (fun x => exists r, rel_structs db !! Z.to_nat x = Some r /\ r_id r = x /\ g_edges G !! x = Some (edge_of r)) ids.
Proof.
  destruct Hn as [lb Hn]. pose proof (mg_represents _ _ M) as R. destruct (store_node _ G n lb R Hn) as (node & En & _).
  destruct (expand_mem db G M n node d En) as (l & E & [A _]). eexists l, _. split_and!; [exact E|exact A|done|].
  apply Forall_forall. intros x [Hx _]%pick_elem.
  destruct (chain_struct db G M n node d En x Hx) as (r & Er & _ & _ & _ & _ & Ei & _).
  exists r. pose proof Er as [_ El]%by_id_lookup. split_and!; [done|done|]. by rewrite (graph_edge _ _ _ R), Er.
Qed.

Lemma in_memory_expand_lists_witness :
  exists db l, mem_graph db pair_graph /\ in_memory_expand db 1 INCOMING = Ok l /\ al_rep l [0%nat; 1%nat].
Proof.
  destruct pair_sample as (db & M & _). exists db.
  destruct (in_memory_expand_lists db pair_graph 1 INCOMING M) as (l & ids & E & A & -> & _); [by eexists|].
  by exists l.
Defined.

(** The search for an edge in memory finds the first relationship of the source's chain
    that joins the nodes as the direction asks, provided that the chain starts in the
    direction, or has at most one relationship in it, or there is such an edge. *)
Theorem in_memory_contains_finds (db : in_memory_graph) (G : graph) (from to : Z) (d : direction_t)
    (M : mem_graph db G) (Hf : is_Some (g_labels G !! from)) (Ht : is_Some (g_labels G !! to))
    (Hc : (forall h, head (g_inc G from) = Some h -> sel G (dir_edge from d) h = true) \/
          (length (pick G (dir_edge from d) (g_inc G from)) <= 1)%nat \/
          pick G (joins from to d) (g_inc G from) <> []) :
  in_memory_contains_relationship_from_to db from to d =
    Ok (Z.to_nat <$> head (pick G (joins from to d) (g_inc G from))).
Proof.
  pose proof (mg_represents _ _ M) as R. destruct Hf as [lf Hf], Ht as [lt Ht].
  destruct (store_node _ G from lf R Hf) as (nf & Ef & _), (store_node _ G to lt R Ht) as (nt & Et & _).
  by apply (contains_mem db G M from to nf nt).
Qed.

Lemma in_memory_contains_finds_witness :
  exists db, mem_graph db pair_graph /\ in_memory_contains_relationship_from_to db 1 0 BOTH = Ok (Some 0%nat).
Proof.
  destruct pair_sample as (db & M & _). exists db. split; [exact M|].
  rewrite (in_memory_contains_finds db pair_graph 1 0 BOTH M); [reflexivity|by eexists..|].
  left. intros h [= <-]. reflexivity.
Defined.

(** The search in memory does not end, whatever the fuel, when the chain starts off the
    direction, at least two of its relationships are in the direction, and none joins the nodes. *)
Theorem in_memory_contains_diverges (db : in_memory_graph) (G : graph) (from to h h2 : Z) (l l2 : list Z) (d : direction_t)
    (M : mem_graph db G) (Hf : is_Some (g_labels G !! from)) (Ht : is_Some (g_labels G !! to))
    (Hh : g_inc G from = h :: l) (Hd : sel G (dir_edge from d) h = false)
    (H2 : (2 <= length (pick G (dir_edge from d) (g_inc G from)))%nat)
    (Hj : pick G (joins from to d) (g_inc G from) = []) (Hto : g_inc G to = h2 :: l2) :
  forall fuel, in_memory_contains_fuel fuel db from to d = NoFuel.
Proof.
  intros fuel. pose proof (mg_represents _ _ M) as R. destruct Hf as [lf Hf], Ht as [lt Ht].
  destruct (store_node _ G from lf R Hf) as (nf & Ef & _), (store_node _ G to lt R Ht) as (nt & Et & _).
  rewrite (contains_entry_mem db G M fuel from to nf nt d Ef Et), Hh, Hto. destruct fuel as [|fuel]; [done|].
  rewrite (contains_round_mem db G M from nf d Ef to) by (rewrite Hh; set_solver).
  destruct (sel G (joins from to d) h) eqn:Ej; [apply sel_joins in Ej; congruence|].
  rewrite (next_relationship_mem db G M from nf d Ef [] h l Hh), app_nil_r. cbn [mbind res_bind].
  assert (Hp : pick G (dir_edge from d) (g_inc G from) = pick G (dir_edge from d) l) by (by rewrite Hh, pick_cons, Hd).
  rewrite <- Hp. destruct (pick G (dir_edge from d) (g_inc G from)) as [|y f] eqn:Ep; [simpl in H2; lia|]. cbn [hd].
  assert (Hys : y ∈ pick G (dir_edge from d) (g_inc G from)) by (rewrite Ep; set_solver).
  apply pick_elem in Hys as [Hy Hys]. destruct (chain_struct db G M from nf d Ef y Hy) as (? & _ & _ & _ & _ & _ & _ & Uy & _).
  rewrite (proj2 (Z.eqb_neq y h)) by congruence. rewrite (proj2 (Z.eqb_neq y _) Uy). cbn [negb andb].
  apply (contains_diverges_mem db G M from nf d Ef to h Hd); [by rewrite Ep|done|rewrite Ep; set_solver].
Qed.

Lemma in_memory_contains_diverges_witness :
  exists db, mem_graph db (add_edge pair_graph 2 (Edge 1 1 5 9)) /\
    forall fuel, in_memory_contains_fuel fuel db 1 0 OUTGOING = NoFuel.
Proof.
  destruct pair_sample as (db & M & _ & L).
  destruct (create_relationship_mem db _ M 1 1 5 9) as (db' & _ & _ & M' & _); [by eexists..|done|by rewrite L|].
  rewrite L in M'. exists db'. split; [exact M'|].
  apply (in_memory_contains_diverges db' (add_edge pair_graph 2 (Edge 1 1 5 9)) 1 0 0 0 [1; 2] [] OUTGOING M');
    [by eexists..|reflexivity|reflexivity|apply le_n|reflexivity|reflexivity].
Defined.

(** The lists of all nodes and of all relationships hold the pointer of every one once. *)
Theorem in_memory_lists_complete (db : in_memory_graph) (G : graph) (M : mem_graph db G) :
  exists ln lr ns rs, in_memory_get_nodes db = Ok ln /\ in_memory_get_relationships db = Ok lr /\
    al_rep ln (Z.to_nat <$> ns) /\ al_rep lr (Z.to_nat <$> rs) /\ NoDup ns /\ NoDup rs /\
    (forall n, n ∈ ns <-> is_Some (g_labels G !! n)) /\ (forall x, x ∈ rs <-> is_Some (g_edges G !! x)).
Proof.
  pose proof (mg_represents _ _ M) as R. destruct (mg_bound _ _ M) as [Bn Br].
  destruct (collect_all _ _ (mg_nodes _ _ M) Bn) as (ln & ns & En & [An _] & Nn & Dn).
  destruct (collect_all _ _ (mg_rels _ _ M) Br) as (lr & rs & Er & [Ar _] & Nr & Dr).
  exists ln, lr, ns, rs. split_and!; try done.
  - intros n. rewrite Dn, (graph_node _ _ _ R), fmap_is_Some. symmetry. apply by_id_range.
  - intros x. rewrite Dr, (graph_edge _ _ _ R), fmap_is_Some. symmetry. apply by_id_range.
Qed.

Lemma in_memory_lists_complete_witness :
  exists db ln lr ns rs, mem_graph db pair_graph /\ in_memory_get_nodes db = Ok ln /\
    in_memory_get_relationships db = Ok lr /\ al_rep ln (Z.to_nat <$> ns) /\ al_rep lr (Z.to_nat <$> rs) /\
    0 ∈ ns /\ 1 ∈ rs.
Proof.
  destruct pair_sample as (db & M & _). destruct (in_memory_lists_complete db _ M) as (ln & lr & ns & rs & A & B & C & D & _ & _ & N & Rr).
  exists db, ln, lr, ns, rs. split_and!; [done..|apply N; by eexists|apply Rr; by eexists].
Defined.
