(* ===== verification/Rounding.v ===== *)
(** Rounding to nearest, ties to even, in [SpecFloat].

    A positive float is a mantissa times a power of two; its value in units of the smallest
    positive float is an integer.  [rnd] rounds an integer to [prec] significant bits;
    [round_aux_units] and [round_units] say that [SpecFloat]'s rounding computes it.  Rounding
    is monotone and leaves alone what has at most [prec] significant bits. *)

From S2P Require Import Prelude.
From Stdlib Require Import ZArith Lia Floats.SpecFloat.
From stdpp Require Import base tactics.

#[local] Open Scope Z_scope.

(** ** Rounding a quotient by a power of two *)

Definition rne (v k : Z) : Z :=
  let q := v / 2 ^ k in
  match 2 * (v mod 2 ^ k) ?= 2 ^ k with
  | Lt => q
  | Eq => if Z.even q then q else q + 1
  | Gt => q + 1
  end.

Lemma rne_near v k : 0 <= k -> v / 2 ^ k <= rne v k <= v / 2 ^ k + 1.
Proof. intros Hk. unfold rne. destruct (_ ?= _); try destruct (Z.even _); lia. Qed.

Lemma rne_exact q k : 0 <= k -> rne (q * 2 ^ k) k = q.
Proof.
  intros Hk. pose proof (Z.pow_pos_nonneg 2 k ltac:(lia) Hk). unfold rne. rewrite Z.mod_mul, Z.div_mul by lia.
  by rewrite (proj2 (Z.compare_lt_iff _ _)) by lia.
Qed.

Lemma rne_mono v w k : 0 <= k -> v <= w -> rne v k <= rne w k.
Proof.
  intros Hk Hvw. pose proof (Z.pow_pos_nonneg 2 k ltac:(lia) Hk) as P. pose proof (rne_near v k Hk). pose proof (rne_near w k Hk).
  pose proof (Z.div_le_mono v w (2 ^ k) P Hvw). destruct (Z.eq_dec (v / 2 ^ k) (w / 2 ^ k)) as [E|N]; [|lia].
  assert (M : v mod 2 ^ k <= w mod 2 ^ k).
  { rewrite !Z.mod_eq, E by lia. lia. }
  unfold rne. rewrite <- E. destruct (Z.compare_spec (2 * (v mod 2 ^ k)) (2 ^ k)), (Z.compare_spec (2 * (w mod 2 ^ k)) (2 ^ k));
    try destruct (Z.even _); lia.
Qed.

Lemma rne_scale v k j : 0 <= k -> 0 <= j -> rne (v * 2 ^ j) (k + j) = rne v k.
Proof.
  intros Hk Hj. pose proof (Z.pow_pos_nonneg 2 k ltac:(lia) Hk). pose proof (Z.pow_pos_nonneg 2 j ltac:(lia) Hj).
  unfold rne. rewrite Z.pow_add_r, Z.div_mul_cancel_r, Z.mul_mod_distr_r by lia.
  replace (2 * (v mod 2 ^ k * 2 ^ j)) with (2 ^ j * (2 * (v mod 2 ^ k))) by lia. rewrite (Z.mul_comm (2 ^ k)).
  destruct (Z.compare_spec (2 * (v mod 2 ^ k)) (2 ^ k)) as [E|E|E].
  - rewrite E, Z.compare_refl. done.
  - rewrite (proj2 (Z.compare_lt_iff _ _)) by nia. done.
  - rewrite (proj2 (Z.compare_gt_iff _ _)) by nia. done.
Qed.

(** ** The shifts of [SpecFloat] *)

Definition shifted (v : Z) (k : nat) : shr_record :=
  match k with
  | O => Build_shr_record v false false
  | S k' => Build_shr_record (v / 2 ^ Z.of_nat k) (Z.odd (v / 2 ^ Z.of_nat k')) (negb (v mod 2 ^ Z.of_nat k' =? 0))
  end.

Lemma shr_1_value m r s : 0 <= m -> shr_1 (Build_shr_record m r s) = Build_shr_record (m / 2) (Z.odd m) (r || s).
Proof.
  intros Hm. destruct m as [|[p|p|]|p]; try lia; unfold shr_1; f_equal; rewrite ?Z.div2_div; try done.
  - rewrite <- Z.div2_div. done.
  - rewrite <- Z.div2_div. done.
Qed.

Lemma shifted_step v k : 0 <= v -> shr_1 (shifted v k) = shifted v (S k).
Proof.
  intros Hv. destruct k as [|k].
  - cbn [shifted]. rewrite shr_1_value by done. f_equal; [by rewrite Z.div_1_r|].
    by rewrite Z.mod_1_r.
  - assert (P : 0 < 2 ^ Z.of_nat k) by (apply Z.pow_pos_nonneg; lia).
    assert (E : 2 ^ Z.of_nat (S k) = 2 * 2 ^ Z.of_nat k) by (rewrite Nat2Z.inj_succ, Z.pow_succ_r; lia).
    unfold shifted at 1. rewrite shr_1_value by (apply Z.div_pos; lia). unfold shifted. f_equal.
    + rewrite Z.div_div by lia. f_equal. rewrite (Nat2Z.inj_succ (S k)), Z.pow_succ_r by lia. lia.
    + rewrite E. pose proof (Z.mod_pos_bound v (2 ^ Z.of_nat k) P) as B.
      pose proof (Z.div_mod v (2 ^ Z.of_nat k) ltac:(lia)) as D. set (q := v / 2 ^ Z.of_nat k) in *. set (r := v mod 2 ^ Z.of_nat k) in *.
      assert (M : v mod (2 * 2 ^ Z.of_nat k) = (if Z.odd q then 2 ^ Z.of_nat k else 0) + r).
      { symmetry. apply Z.mod_unique_pos with (q / 2); [destruct (Z.odd q); lia|]. pose proof (Z.div_mod q 2 ltac:(lia)) as Dq.
        rewrite Zmod_odd in Dq. destruct (Z.odd q); nia. }
      rewrite M. destruct (Z.odd q), (Z.eqb_spec r 0); cbn [orb negb]; symmetry; (apply Z.eqb_neq || apply negb_false_iff, Z.eqb_eq || idtac); try lia.
Qed.

Lemma iter_pos_nat {A} (f : A -> A) p : forall x, iter_pos f p x = Nat.iter (Pos.to_nat p) f x.
Proof.
  induction p as [p IH|p IH|]; intros x; cbn [iter_pos].
  - rewrite !IH, <- Nat.iter_add, <- Nat.iter_succ_r. f_equal. lia.
  - rewrite !IH, <- Nat.iter_add. f_equal. lia.
  - done.
Qed.

Lemma shifted_iter v k : 0 <= v -> Nat.iter k shr_1 (Build_shr_record v false false) = shifted v k.
Proof. intros Hv. induction k as [|k IH]; [done|]. rewrite Nat.iter_succ, IH. by apply shifted_step. Qed.

Lemma shr_value v e n : 0 <= v -> 0 <= n ->
  shr (Build_shr_record v false false) e n = (shifted v (Z.to_nat n), e + n).
Proof.
  intros Hv Hn. destruct n as [|p|p]; [by rewrite Z.add_0_r| |lia].
  unfold shr. rewrite iter_pos_nat, shifted_iter by done. f_equal.
Qed.

Lemma shifted_m v k : shr_m (shifted v k) = v / 2 ^ Z.of_nat k.
Proof. destruct k; [by rewrite Z.div_1_r|done]. Qed.

Lemma round_shifted v k : 0 <= v -> round_nearest_even (shr_m (shifted v k)) (loc_of_shr_record (shifted v k)) = rne v (Z.of_nat k).
Proof.
  intros Hv. destruct k as [|k].
  - cbn. unfold rne. by rewrite Z.div_1_r, Z.mod_1_r.
  - assert (P : 0 < 2 ^ Z.of_nat k) by (apply Z.pow_pos_nonneg; lia).
    assert (E : 2 ^ Z.of_nat (S k) = 2 * 2 ^ Z.of_nat k) by (rewrite Nat2Z.inj_succ, Z.pow_succ_r; lia).
    rewrite shifted_m. unfold shifted, rne. rewrite E. pose proof (Z.mod_pos_bound v (2 ^ Z.of_nat k) P) as B.
    pose proof (Z.div_mod v (2 ^ Z.of_nat k) ltac:(lia)) as D. set (q := v / 2 ^ Z.of_nat k) in *. set (r := v mod 2 ^ Z.of_nat k) in *.
    assert (M : v mod (2 * 2 ^ Z.of_nat k) = (if Z.odd q then 2 ^ Z.of_nat k else 0) + r).
    { symmetry. apply Z.mod_unique_pos with (q / 2); [destruct (Z.odd q); lia|]. pose proof (Z.div_mod q 2 ltac:(lia)) as Dq.
      rewrite Zmod_odd in Dq. destruct (Z.odd q); nia. }
    rewrite M. destruct (Z.odd q), (Z.eqb_spec r 0); cbn [negb loc_of_shr_record round_nearest_even].
    + by rewrite (proj2 (Z.compare_eq_iff _ _)) by lia.
    + by rewrite (proj2 (Z.compare_gt_iff _ _)) by lia.
    + by rewrite (proj2 (Z.compare_lt_iff _ _)) by lia.
    + by rewrite (proj2 (Z.compare_lt_iff _ _)) by lia.
Qed.

Lemma zdigits_log2 v : 0 < v -> Zdigits2 v = Z.log2 v + 1.
Proof.
  intros Hv. destruct v as [|p|p]; try lia. unfold Zdigits2. clear Hv.
  assert (E : forall q, Z.pos (digits2_pos q) = Z.log2 (Z.pos q) + 1); [|by rewrite E].
  induction q as [q IH|q IH|]; cbn [digits2_pos]; [| |done].
  - rewrite Pos2Z.inj_succ, IH. rewrite (Pos2Z.inj_xI q). rewrite Z.log2_succ_double by lia. lia.
  - rewrite Pos2Z.inj_succ, IH. rewrite (Pos2Z.inj_xO q). rewrite Z.log2_double by lia. lia.
Qed.

Lemma shl_align_value m e f : f <= e -> Z.pos (fst (shl_align m e f)) = Z.pos m * 2 ^ (e - f).
Proof.
  intros Hf. unfold shl_align. destruct (f - e) as [|d|d] eqn:E; cbn [fst].
  - replace (e - f) with 0 by lia. by rewrite Z.mul_1_r.
  - lia.
  - replace (e - f) with (Z.pos d) by lia. change (Pos.iter xO m d) with (Zpower.shift_pos d m).
    by rewrite Zpower.shift_pos_correct, Z.mul_comm.
Qed.

(** ** Rounding to [prec] bits *)

Section Round.
Context (prec emax : Z).
Hypothesis Prec : 1 < prec < emax.
Let e0 := emin prec emax.

Definition excess (v : Z) : Z := Z.max 0 (Z.log2 v + 1 - prec).
Definition rnd (v : Z) : Z := rne v (excess v) * 2 ^ excess v.

Lemma rnd_fix p k : 0 <= p < 2 ^ prec -> 0 <= k -> rnd (p * 2 ^ k) = p * 2 ^ k.
Proof.
  intros Hp Hk. destruct (Z.eq_dec p 0) as [->|Np].
  { rewrite Z.mul_0_l. unfold rnd, excess. change (Z.log2 0) with 0. by rewrite Z.max_l by lia. }
  unfold rnd. set (n := excess (p * 2 ^ k)). assert (Hn : 0 <= n <= k).
  { unfold n, excess. rewrite Z.log2_mul_pow2 by lia.
    assert (Z.log2 p < prec) by (apply Z.log2_lt_pow2; lia). lia. }
  replace (p * 2 ^ k) with (p * 2 ^ (k - n) * 2 ^ n).
  - rewrite rne_exact; [done|lia].
  - rewrite <- Z.mul_assoc, <- Z.pow_add_r by lia. do 2 f_equal. lia.
Qed.

Lemma rnd_small v : 0 <= v < 2 ^ prec -> rnd v = v.
Proof. intros Hv. pose proof (rnd_fix v 0 Hv ltac:(lia)) as E. by rewrite Z.mul_1_r in E. Qed.

Lemma rnd_pow k : 0 <= k -> rnd (2 ^ k) = 2 ^ k.
Proof.
  intros Hk. pose proof (rnd_fix 1 k) as E. rewrite Z.mul_1_l in E. apply E; [|done]. split; [lia|].
  apply Z.pow_gt_1; lia.
Qed.

Lemma rnd_mono v w : 0 <= v <= w -> rnd v <= rnd w.
Proof.
  intros [Hv Hw]. destruct (Z.eq_dec v 0) as [->|Nv].
  { rewrite (rnd_small 0) by (pose proof (Z.pow_pos_nonneg 2 prec); lia). unfold rnd.
    assert (0 <= rne w (excess w)); [|apply Z.mul_nonneg_nonneg; [done|apply Z.pow_nonneg; lia]].
    pose proof (rne_near w (excess w) ltac:(unfold excess; lia)).
    pose proof (Z.div_pos w (2 ^ excess w) ltac:(lia) ltac:(apply Z.pow_pos_nonneg; unfold excess; lia)). lia. }
  destruct (Z.eq_dec (excess v) (excess w)) as [E|N].
  - unfold rnd. rewrite E. apply Z.mul_le_mono_nonneg_r; [apply Z.pow_nonneg; lia|]. apply rne_mono; [unfold excess; lia|done].
  - assert (L : Z.log2 v < Z.log2 w).
    { pose proof (Z.log2_le_mono v w Hw). destruct (Z.eq_dec (Z.log2 v) (Z.log2 w)) as [E|]; [|lia].
      unfold excess in N. rewrite E in N. done. }
    assert (V : v < 2 ^ Z.log2 w) by (apply Z.log2_lt_pow2; lia). assert (W : 2 ^ Z.log2 w <= w) by (apply Z.log2_spec; lia).
    pose proof (Z.log2_nonneg v) as Lv.
    assert (Up : forall k x, 0 <= k <= Z.log2 w -> 0 <= x -> (x <= 2 ^ Z.log2 w -> rne x k * 2 ^ k <= 2 ^ Z.log2 w) /\
                  (2 ^ Z.log2 w <= x -> 2 ^ Z.log2 w <= rne x k * 2 ^ k)).
    { intros k x Hk Hx. replace (2 ^ Z.log2 w) with (2 ^ (Z.log2 w - k) * 2 ^ k) by (rewrite <- Z.pow_add_r by lia; f_equal; lia).
      pose proof (Z.pow_nonneg 2 k ltac:(lia)). split; intros Hxw;
        (apply Z.mul_le_mono_nonneg_r; [lia|]); rewrite <- (rne_exact (2 ^ (Z.log2 w - k)) k) by lia; by apply rne_mono; [lia|]. }
    unfold rnd. transitivity (2 ^ Z.log2 w).
    + apply Up; [unfold excess; lia|lia|lia].
    + apply Up; [unfold excess; lia|lia|lia].
Qed.

Lemma rnd_nonneg v : 0 <= v -> 0 <= rnd v.
Proof. intros Hv. rewrite <- (rnd_small 0) at 1 by (pose proof (Z.pow_pos_nonneg 2 prec); lia). apply rnd_mono. lia. Qed.

(** The value of a mantissa and an exponent, in units of the smallest positive float. *)
Definition value (m e : Z) : Z := m * 2 ^ (e - e0).

Lemma rnd_value m e : 0 < m -> e0 <= e ->
  exists n, n = excess m /\ rnd (value m e) = rne m n * 2 ^ (n + (e - e0)).
Proof.
  intros Hm He. exists (excess m). split; [done|]. destruct (Z.le_gt_cases (Z.log2 m + 1) prec) as [L|L].
  - assert (E : excess m = 0) by (unfold excess; lia). rewrite E, Z.add_0_l. unfold value. rewrite rnd_fix; [|split; [lia|]|lia].
    + unfold rne. by rewrite Z.div_1_r, Z.mod_1_r.
    + apply Z.log2_lt_pow2; lia.
  - unfold rnd, value. assert (E : excess (m * 2 ^ (e - e0)) = excess m + (e - e0)).
    { unfold excess. rewrite Z.log2_mul_pow2 by lia. lia. }
    rewrite E, rne_scale; [done|unfold excess; lia|lia].
Qed.

(** A mantissa and an exponent in the form that floats have. *)
Definition canonical (m e : Z) : Prop := 0 < m < 2 ^ prec /\ e0 <= e /\ (e = e0 \/ 2 ^ (prec - 1) <= m).
Definition packed (m : positive) (e : Z) : spec_float :=
  if e <=? emax - prec then S754_finite false m e else S754_infinity false.

Lemma fexp_excess m e : 0 < m -> e0 <= e -> Z.max 0 (fexp prec emax (Zdigits2 m + e) - e) = excess m.
Proof. intros Hm He. rewrite zdigits_log2 by done. unfold fexp, excess. fold e0. lia. Qed.

Lemma shr_fexp_value m e : 0 < m -> e0 <= e ->
  shr_fexp prec emax m e loc_Exact = (shifted m (Z.to_nat (excess m)), e + excess m).
Proof.
  intros Hm He. pose proof (fexp_excess m e Hm He) as X. unfold shr_fexp, shr_record_of_loc.
  destruct (Z.le_gt_cases 0 (fexp prec emax (Zdigits2 m + e) - e)) as [L|L].
  - replace (fexp prec emax (Zdigits2 m + e) - e) with (excess m) by lia. apply shr_value; [lia|unfold excess; lia].
  - replace (excess m) with 0 by lia. destruct (fexp prec emax (Zdigits2 m + e) - e) eqn:E; try lia.
    cbn [shr]. by rewrite Z.add_0_r.
Qed.

Lemma round_aux_units m e : e0 <= e ->
  exists p e', binary_round_aux prec emax false (Z.pos m) e loc_Exact = packed p e' /\ e <= e' /\
    value (Z.pos p) e' = rnd (value (Z.pos m) e) /\ Z.pos p < 2 ^ prec /\
    (2 ^ (prec - 1) <= Z.pos m -> 2 ^ (prec - 1) <= Z.pos p) /\ (e' = e \/ 2 ^ (prec - 1) <= Z.pos p).
Proof.
  intros He. destruct (rnd_value (Z.pos m) e) as (n & En & Rv); [lia|done|].
  assert (Hn : 0 <= n) by (unfold excess in En; lia).
  unfold binary_round_aux. rewrite shr_fexp_value by lia. rewrite <- En. rewrite round_shifted, Z2Nat.id by lia.
  set (q := rne (Z.pos m) n) in *.
  assert (Q : 0 < q <= 2 ^ prec /\ (q = 2 ^ prec -> 0 < n) /\ (2 ^ (prec - 1) <= Z.pos m -> 2 ^ (prec - 1) <= q) /\
    (n = 0 \/ 2 ^ (prec - 1) <= q)).
  { pose proof (Z.log2_spec (Z.pos m) ltac:(lia)) as [L1 L2]. pose proof (Z.log2_nonneg (Z.pos m)) as L0.
    destruct (Z.eq_dec n 0) as [->|Nn].
    - assert (Eq : q = Z.pos m) by (unfold q, rne; by rewrite Z.div_1_r, Z.mod_1_r).
      assert (Z.pos m < 2 ^ prec).
      { apply (Z.lt_le_trans _ _ _ L2). apply Z.pow_le_mono_r; [lia|]. unfold excess in En. lia. }
      rewrite Eq. lia.
    - assert (E : n = Z.log2 (Z.pos m) + 1 - prec) by (unfold excess in En; lia).
      assert (A1 : 2 ^ (prec - 1) <= q).
      { unfold q. rewrite <- (rne_exact (2 ^ (prec - 1)) n) by lia. apply rne_mono; [lia|]. rewrite <- Z.pow_add_r by lia.
        replace (prec - 1 + n) with (Z.log2 (Z.pos m)) by lia. lia. }
      assert (A2 : q <= 2 ^ prec).
      { unfold q. rewrite <- (rne_exact (2 ^ prec) n) by lia. apply rne_mono; [lia|]. rewrite <- Z.pow_add_r by lia.
        replace (prec + n) with (Z.succ (Z.log2 (Z.pos m))) by lia. lia. }
      pose proof (Z.pow_pos_nonneg 2 (prec - 1) ltac:(lia) ltac:(lia)). lia. }
  destruct Q as (Q1 & Q2 & Q3 & Q4). rewrite shr_fexp_value by lia.
  destruct (Z.eq_dec q (2 ^ prec)) as [E|N].
  - specialize (Q2 E). assert (Ex : excess q = 1) by (unfold excess; rewrite E, Z.log2_pow2 by lia; lia).
    rewrite Ex. change (Z.to_nat 1) with 1%nat. rewrite shifted_m. change (2 ^ Z.of_nat 1) with 2.
    assert (Hq : q / 2 = 2 ^ (prec - 1)).
    { rewrite E. replace prec with (Z.succ (prec - 1)) at 1 by lia. rewrite Z.pow_succ_r, Z.mul_comm, Z.div_mul by lia. done. }
    rewrite Hq. pose proof (Z.pow_pos_nonneg 2 (prec - 1) ltac:(lia) ltac:(lia)). destruct (2 ^ (prec - 1)) as [|p|p] eqn:Ep; try lia.
    exists p, (e + n + 1). split_and!; [done|lia| |rewrite <- Ep; apply Z.pow_lt_mono_r; lia|lia|right; lia].
    rewrite Rv, E, <- Ep. unfold value. rewrite <- !Z.pow_add_r by lia. f_equal. lia.
  - assert (Ex : excess q = 0).
    { unfold excess. assert (Z.log2 q < prec) by (apply Z.log2_lt_pow2; lia). lia. }
    rewrite Ex. cbn [Z.to_nat shifted shr_m]. destruct q as [|p|p] eqn:Ep; try lia.
    exists p, (e + n). rewrite Z.add_0_r. split_and!; [done|lia| |lia|done|destruct Q4; [left; lia|by right]].
    rewrite Rv. unfold value. do 2 f_equal. lia.
Qed.

(** The sum of floats is rounded from the exact sum. *)
Lemma round_units m e : e0 <= e ->
  exists p e', binary_normalize prec emax (Z.pos m) e false = packed p e' /\
    value (Z.pos p) e' = rnd (value (Z.pos m) e) /\ canonical (Z.pos p) e'.
Proof.
  intros He. unfold binary_normalize, binary_round. set (f := fexp prec emax (Z.pos (digits2_pos m) + e)).
  assert (Ef : f = Z.max (Z.log2 (Z.pos m) + 1 + e - prec) e0).
  { unfold f, fexp. fold e0. change (Z.pos (digits2_pos m)) with (Zdigits2 (Z.pos m)). rewrite zdigits_log2 by lia. lia. }
  assert (Al : exists m' e1, shl_align m e f = (m', e1) /\ e0 <= e1 /\ value (Z.pos m') e1 = value (Z.pos m) e /\
     (e1 = e0 \/ 2 ^ (prec - 1) <= Z.pos m')).
  { pose proof (Z.log2_spec (Z.pos m) ltac:(lia)) as [L1 _]. pose proof (Z.log2_nonneg (Z.pos m)) as L0.
    unfold shl_align. destruct (f - e) as [|d|d] eqn:Ed.
    - exists m, e. split_and!; [done|done|done|].
      destruct (Z.eq_dec e e0); [by left|right]. etransitivity; [|exact L1]. apply Z.pow_le_mono_r; lia.
    - exists m, e. split_and!; [done|done|done|].
      right. etransitivity; [|exact L1]. apply Z.pow_le_mono_r; lia.
    - exists (Pos.iter xO m d), f. pose proof (shl_align_value m e f ltac:(lia)) as It. unfold shl_align in It.
      rewrite Ed in It. cbn [fst] in It. replace (e - f) with (Z.pos d) in It by lia.
      rewrite It. split_and!; [done|lia| |].
      + unfold value. rewrite <- Z.mul_assoc, <- Z.pow_add_r by lia. do 2 f_equal. lia.
      + destruct (Z.eq_dec f e0); [by left|right].
        apply Z.le_trans with (2 ^ (Z.log2 (Z.pos m) + Z.pos d)); [apply Z.pow_le_mono_r; lia|].
        rewrite Z.pow_add_r by lia. apply Z.mul_le_mono_nonneg_r; [apply Z.pow_nonneg; lia|done]. }
  destruct Al as (m' & e1 & -> & He1 & V & Cn).
  destruct (round_aux_units m' e1 He1) as (p & e' & -> & Ee & Vp & Bp & Np & Ep).
  exists p, e'. split_and!; [done|by rewrite <- V|]. split_and!; [lia|lia|lia|].
  destruct Cn as [->|Cn]; [destruct Ep; [by left|by right]|right; by apply Np].
Qed.
End Round.
