(* ===== verification/DoubleOrder.v ===== *)
(** The order of doubles and the rounding of their sums.

    [rank] embeds the doubles that are numbers into the integers so that C's [<] is the
    order of the ranks.  For doubles that are not negative the rank is the bit pattern, and
    [units] is the value in units of the smallest positive double, 2^-1074: the sum of two of
    them is the exact sum rounded to 53 significant bits ([double_add_units]), which is
    monotone. *)

From S2P Require Import Prelude Constants Records Doubles Rounding.
From Stdlib Require Import ZArith Lia Floats.SpecFloat.
From stdpp Require Import base tactics option.

#[local] Open Scope Z_scope.

Definition is_num (w : Z) : Prop := is_u64 w /\ double_is_nan w = false.
Definition INFINITY_BITS : Z := 0x7FF0000000000000.

Definition rank (w : Z) : Z := if w <? 2 ^ 63 then w else 2 ^ 63 - w.

(** ** Decoding *)

(** A finite pattern of the sign 0. *)
Record finite_bits (u : Z) (p : positive) (e : Z) : Prop := FiniteBits {
  fin_decoded : double_of_bits u = S754_finite false p e;
  fin_value : u = Z.pos p + (e + 1074) * 2 ^ 52;
  fin_top : u < INFINITY_BITS;
  fin_exponent : -1074 <= e;
  fin_bound : Z.pos p < 2 ^ 53;
  fin_normal : e = -1074 \/ 2 ^ 52 <= Z.pos p }.

Lemma decode_cases u : 0 <= u <= INFINITY_BITS ->
  (u = 0 /\ double_of_bits u = S754_zero false) \/ (exists p e, finite_bits u p e) \/
  (u = INFINITY_BITS /\ double_of_bits u = S754_infinity false).
Proof.
  unfold INFINITY_BITS. intros Hu.
  assert (Es : (2 ^ 63 <=? u) = false) by (apply Z.leb_gt; lia).
  set (e := u / 2 ^ 52 mod 2 ^ 11). set (m := u mod 2 ^ 52).
  assert (Eu : u = e * 2 ^ 52 + m) by (unfold e, m; lia).
  assert (Hm : 0 <= m < 2 ^ 52) by (unfold m; lia). assert (He : 0 <= e < 2 ^ 11) by (unfold e; lia).
  assert (D : double_of_bits u = if e =? 0 then match m with Z.pos p => S754_finite false p (-1074) | _ => S754_zero false end
     else if e =? 2047 then if m =? 0 then S754_infinity false else S754_nan
     else match m + 2 ^ 52 with Z.pos p => S754_finite false p (e - 1075) | _ => S754_nan end).
  { unfold double_of_bits. rewrite Es. done. }
  rewrite D. destruct (Z.eqb_spec e 0) as [E0|E0].
  - destruct m as [|p|p] eqn:Em; [left; split; [lia|done]|right; left|lia].
    exists p, (-1074). split; [by rewrite D|unfold INFINITY_BITS; lia..].
  - destruct (Z.eqb_spec e 2047) as [E1|E1].
    + right; right. assert (m = 0) as -> by lia. split; [lia|done].
    + right; left. destruct (m + 2 ^ 52) as [|p|p] eqn:Em; [lia| |lia]. exists p, (e - 1075). split; [by rewrite D|unfold INFINITY_BITS; lia..].
Qed.

Lemma compare_magnitudes u v : 0 <= u <= INFINITY_BITS -> 0 <= v <= INFINITY_BITS ->
  SFcompare (double_of_bits u) (double_of_bits v) = Some (u ?= v).
Proof.
  intros Hu Hv. symmetry.
  destruct (decode_cases u Hu) as [[Eu ->]|[(p & e & [-> Eu Tu He Hp Np])|[Eu ->]]],
    (decode_cases v Hv) as [[Ev ->]|[(p' & e' & [-> Ev Tv He' Hp' Np'])|[Ev ->]]]; cbn [SFcompare]; f_equal;
    unfold INFINITY_BITS in *; try (apply Z.compare_eq_iff; lia); try (apply Z.compare_lt_iff; lia);
    try (apply Z.compare_gt_iff; lia).
  destruct (Z.compare_spec e e') as [E|E|E]; [|apply Z.compare_lt_iff; lia|apply Z.compare_gt_iff; lia].
  subst e'. rewrite Eu, Ev, !(Z.add_comm (Z.pos _)), Z.add_compare_mono_l. done.
Qed.

Lemma decode_neg w : 2 ^ 63 <= w < 2 ^ 64 -> double_is_nan w = false ->
  double_of_bits w = SFopp (double_of_bits (w - 2 ^ 63)) /\ 0 <= w - 2 ^ 63 <= INFINITY_BITS.
Proof.
  intros Hw Hn. unfold double_is_nan in Hn. apply Z.ltb_ge in Hn. unfold INFINITY_BITS.
  assert (Em : w mod 2 ^ 63 = w - 2 ^ 63) by lia. rewrite Em in Hn. split; [|lia].
  unfold double_of_bits. rewrite (proj2 (Z.leb_le _ _)) by lia. rewrite (proj2 (Z.leb_gt _ _)) by lia.
  replace ((w - 2 ^ 63) mod 2 ^ 52) with (w mod 2 ^ 52) by lia.
  replace ((w - 2 ^ 63) / 2 ^ 52 mod 2 ^ 11) with (w / 2 ^ 52 mod 2 ^ 11) by lia.
  destruct (_ =? 0); [by destruct (w mod 2 ^ 52)|]. destruct (_ =? 2047); [by destruct (_ =? 0)|].
  by destruct (_ + 2 ^ 52).
Qed.

Lemma magnitude_of w : 0 <= w < 2 ^ 63 -> double_is_nan w = false -> 0 <= w <= INFINITY_BITS.
Proof. unfold double_is_nan, INFINITY_BITS. intros Hw Hn%Z.ltb_ge. lia. Qed.

Lemma compare_opp x y : SFcompare (SFopp x) (SFopp y) = CompOpp <$> SFcompare x y.
Proof.
  destruct x as [[]|[]| |[] p e], y as [[]|[]| |[] p' e']; try done; simpl; f_equal;
    destruct (e ?= e'); simpl; rewrite ?CompOpp_involutive; done.
Qed.

(** C's order is the order of the ranks. *)
Lemma double_ltb_rank a b : is_num a -> is_num b -> double_ltb a b = (rank a <? rank b).
Proof.
  intros [Ha Na] [Hb Nb]. unfold is_u64 in *. unfold double_ltb, SFltb, rank.
  assert (Cp : forall u v, 0 <= u <= INFINITY_BITS -> 0 <= v <= INFINITY_BITS ->
    SFcompare (SFopp (double_of_bits u)) (double_of_bits v) = Some (- u ?= v)).
  { intros u v Hu Hv. symmetry.
    destruct (decode_cases u Hu) as [[Eu ->]|[(p & e & [-> Eu Tu He Hp Np])|[Eu ->]]],
      (decode_cases v Hv) as [[Ev ->]|[(p' & e' & [-> Ev Tv He' Hp' Np'])|[Ev ->]]]; cbn [SFcompare SFopp negb]; f_equal;
      unfold INFINITY_BITS in *; try (apply Z.compare_eq_iff; lia); try (apply Z.compare_lt_iff; lia);
      try (apply Z.compare_gt_iff; lia). }
  destruct (Z.ltb_spec a (2 ^ 63)) as [Sa|Sa], (Z.ltb_spec b (2 ^ 63)) as [Sb|Sb].
  - rewrite compare_magnitudes by (apply magnitude_of; [lia|done]). done.
  - destruct (decode_neg b ltac:(lia) Nb) as [-> Rb]. pose proof (magnitude_of a ltac:(lia) Na) as Ra.
    pose proof (compare_opp (SFopp (double_of_bits a)) (double_of_bits (b - 2 ^ 63))) as O.
    assert (Eo : SFopp (SFopp (double_of_bits a)) = double_of_bits a) by (destruct (double_of_bits a) as [[]|[]| |[] ? ?]; done).
    rewrite Eo, Cp in O by done. rewrite O. simpl. rewrite Z.compare_antisym, CompOpp_involutive.
    destruct (Z.compare_spec (b - 2 ^ 63) (- a)); symmetry; (apply Z.ltb_lt || apply Z.ltb_ge); lia.
  - destruct (decode_neg a ltac:(lia) Na) as [-> Ra]. pose proof (magnitude_of b ltac:(lia) Nb) as Rb.
    rewrite Cp by done. unfold Z.ltb. f_equal. by replace (- (a - 2 ^ 63)) with (2 ^ 63 - a) by lia.
  - destruct (decode_neg a ltac:(lia) Na) as [-> Ra], (decode_neg b ltac:(lia) Nb) as [-> Rb].
    rewrite compare_opp, compare_magnitudes by done. simpl. rewrite <- Z.compare_antisym.
    destruct (Z.compare_spec (b - 2 ^ 63) (a - 2 ^ 63)); symmetry; (apply Z.ltb_lt || apply Z.ltb_ge); lia.
Qed.

(** ** Values and sums of doubles that are not negative *)

Abbreviation unit_value := (value 53 1024).
Abbreviation rnd53 := (rnd 53).
Definition INFINITY_UNITS : Z := 2 ^ 2098.
Definition float_units (x : spec_float) : Z :=
  match x with
  | S754_finite _ m e => unit_value (Z.pos m) e
  | S754_infinity _ => INFINITY_UNITS
  | _ => 0
  end.
Definition units (w : Z) : Z := float_units (double_of_bits w).

Lemma unit_value_eq m e : unit_value m e = m * 2 ^ (e + 1074).
Proof. unfold value. change (emin 53 1024) with (-1074). do 2 f_equal. Qed.

Lemma finite_units u p e : finite_bits u p e -> units u = unit_value (Z.pos p) e /\ 0 < units u < INFINITY_UNITS.
Proof.
  intros [D V T E B N]. unfold units. rewrite D. cbn [float_units]. split; [done|]. rewrite unit_value_eq. unfold INFINITY_BITS in T.
  assert (He : e <= 971) by lia. pose proof (Z.pow_pos_nonneg 2 (e + 1074) ltac:(lia) ltac:(lia)) as P.
  split; [nia|]. apply Z.lt_le_trans with (2 ^ 53 * 2 ^ (e + 1074)); [nia|].
  rewrite <- Z.pow_add_r by lia. unfold INFINITY_UNITS. apply Z.pow_le_mono_r; lia.
Qed.

Lemma units_range u : 0 <= u <= INFINITY_BITS -> 0 <= units u <= INFINITY_UNITS.
Proof.
  intros Hu. destruct (decode_cases u Hu) as [[_ E]|[(p & e & Fb)|[_ E]]].
  - unfold units. rewrite E. unfold float_units, INFINITY_UNITS. lia.
  - destruct (finite_units u p e Fb). lia.
  - unfold units. rewrite E. unfold float_units, INFINITY_UNITS. lia.
Qed.

Lemma units_lt u v : 0 <= u -> u < v -> v <= INFINITY_BITS -> units u < units v.
Proof.
  intros Hu Hl Hv. destruct (decode_cases v ltac:(lia)) as [[Ev _]|[(p' & e' & Fv)|[Ev Dv]]]; [lia| |].
  - pose proof (finite_units v p' e' Fv) as [Uv Pv].
    destruct (decode_cases u ltac:(lia)) as [[_ Du]|[(p & e & Fu)|[Eu _]]].
    + unfold units at 1. rewrite Du. cbn [float_units]. lia.
    + destruct (finite_units u p e Fu) as [Uu _]. rewrite Uu, Uv, !unit_value_eq.
      destruct Fu as [_ Vu _ Eu Bu Nu], Fv as [_ Vv _ Ev Bv Nv].
      pose proof (Z.pow_pos_nonneg 2 (e + 1074) ltac:(lia) ltac:(lia)).
      destruct (Z.compare_spec e e') as [->|L|G]; [nia| |].
      * apply Z.lt_le_trans with (2 ^ 53 * 2 ^ (e + 1074)); [nia|]. apply Z.le_trans with (2 ^ 52 * 2 ^ (e' + 1074)).
        { rewrite <- !Z.pow_add_r by lia. apply Z.pow_le_mono_r; lia. }
        apply Z.mul_le_mono_nonneg_r; [apply Z.pow_nonneg; lia|lia].
      * destruct Nu as [Nu|Nu]; lia.
    + destruct Fv as [_ _ T _ _ _]. lia.
  - unfold units at 2. rewrite Dv. cbn [float_units]. destruct (decode_cases u ltac:(lia)) as [[_ Du]|[(p & e & Fu)|[Eu _]]]; [|by apply (finite_units u p e)|lia].
    unfold units. rewrite Du. unfold float_units, INFINITY_UNITS. lia.
Qed.

Lemma units_le u v : 0 <= u <= INFINITY_BITS -> 0 <= v <= INFINITY_BITS -> u <= v <-> units u <= units v.
Proof.
  intros Hu Hv. destruct (Z.lt_total u v) as [L|[->|G]]; [|lia|].
  - pose proof (units_lt u v). lia.
  - pose proof (units_lt v u). lia.
Qed.

(** The pattern of a rounded value. *)
Lemma encode_packed p e : canonical 53 1024 (Z.pos p) e ->
  0 <= bits_of_double (packed 53 1024 p e) <= INFINITY_BITS /\
  units (bits_of_double (packed 53 1024 p e)) = Z.min (unit_value (Z.pos p) e) INFINITY_UNITS.
Proof.
  intros (Bp & Ge & Np). change (emin 53 1024) with (-1074) in *. unfold packed. change (1024 - 53) with 971.
  destruct (Z.leb_spec e 971) as [L|L].
  - assert (D : bits_of_double (S754_finite false p e) = Z.pos p + (e + 1074) * 2 ^ 52).
    { cbn [bits_of_double]. destruct (Z.ltb_spec (Z.pos p) (2 ^ 52)); lia. }
    set (w := bits_of_double _) in *. assert (T : 0 < w < INFINITY_BITS) by (unfold INFINITY_BITS; lia). split; [lia|].
    destruct (decode_cases w ltac:(lia)) as [[? _]|[(p' & e' & Fb)|[? _]]]; [lia| |lia].
    destruct (finite_units w p' e' Fb) as [-> Hi]. destruct Fb as [_ V _ E' B' N'].
    assert (e = e' /\ p = p') as [-> ->] by lia. rewrite Z.min_l; [done|]. lia.
  - cbn [bits_of_double]. change (0 + 2047 * 2 ^ 52) with INFINITY_BITS. split; [unfold INFINITY_BITS; lia|].
    change (units INFINITY_BITS) with INFINITY_UNITS. rewrite Z.min_r; [done|]. rewrite unit_value_eq. unfold INFINITY_UNITS.
    apply Z.le_trans with (2 ^ 52 * 2 ^ (e + 1074)).
    + rewrite <- Z.pow_add_r by lia. apply Z.pow_le_mono_r; lia.
    + apply Z.mul_le_mono_nonneg_r; [apply Z.pow_nonneg; lia|lia].
Qed.

Lemma rnd53_infinite v : INFINITY_UNITS <= v -> Z.min (rnd53 v) INFINITY_UNITS = INFINITY_UNITS.
Proof.
  intros Hv. apply Z.min_r. unfold INFINITY_UNITS in *. rewrite <- (rnd_pow 53 1024) by lia.
  apply (rnd_mono 53 1024); [lia|]. split; [apply Z.pow_nonneg; lia|done].
Qed.

Lemma finite_fixed u p e : finite_bits u p e -> rnd53 (units u) = units u.
Proof.
  intros Fb. destruct (finite_units u p e Fb) as [-> _]. destruct Fb as [_ V _ E' B' N']. rewrite unit_value_eq.
  apply (rnd_fix 53 1024); lia.
Qed.

Lemma double_add_units a b : 0 <= a <= INFINITY_BITS -> 0 <= b <= INFINITY_BITS ->
  0 <= double_add a b <= INFINITY_BITS /\ units (double_add a b) = Z.min (rnd53 (units a + units b)) INFINITY_UNITS.
Proof.
  intros Ha Hb. pose proof (units_range a Ha) as Ra. pose proof (units_range b Hb) as Rb.
  assert (Inf : 0 <= INFINITY_BITS <= INFINITY_BITS) by (unfold INFINITY_BITS; lia).
  assert (UI : units INFINITY_BITS = INFINITY_UNITS) by done.
  assert (Id : forall u p e, finite_bits u p e -> 0 <= u <= INFINITY_BITS -> 
            bits_of_double (double_of_bits u) = u /\ units u = Z.min (rnd53 (units u)) INFINITY_UNITS).
  { intros u p e Fb Hu. split; [apply double_bits_inverse; unfold INFINITY_BITS in *; [lia|apply Z.ltb_ge; lia]|].
    rewrite (finite_fixed u p e Fb). pose proof (units_range u Hu). lia. }
  unfold double_add. destruct (decode_cases a Ha) as [[Ea Da]|[(p & e & Fa)|[Ea Da]]], (decode_cases b Hb) as [[Eb Db]|[(p' & e' & Fb)|[Eb Db]]];
    try (destruct (Id _ _ _ Fa Ha) as [Ia Va]); try (destruct (Id _ _ _ Fb Hb) as [Ib Vb]);
    try (pose proof (fin_decoded _ _ _ Fa) as Da); try (pose proof (fin_decoded _ _ _ Fb) as Db); rewrite Da, Db; cbn [SFadd].
  - subst. vm_compute. split; [split; discriminate|done].
  - rewrite <- Db, Ib. subst a. split; [done|exact Vb].
  - subst. vm_compute. split; [split; discriminate|done].
  - rewrite <- Da, Ia. subst b. change (units 0) with 0. rewrite Z.add_0_r. split; [done|exact Va].
  - destruct (finite_units a p e Fa) as [Ua _], (finite_units b p' e' Fb) as [Ub _].
    destruct Fa as [_ _ _ E _ _], Fb as [_ _ _ E' _ _].
    cbn [cond_Zopp]. rewrite !shl_align_value by lia. set (ez := Z.min e e') in *.
    assert (Pe : 0 < 2 ^ (e - ez) /\ 0 < 2 ^ (e' - ez)) by (split; apply Z.pow_pos_nonneg; lia).
    destruct (Z.pos p * 2 ^ (e - ez) + Z.pos p' * 2 ^ (e' - ez)) as [|q|q] eqn:Eq; [nia| |nia].
    destruct (round_units 53 1024 ltac:(lia) q ez) as (r & er & -> & Vr & Cr); [by unfold ez; change (emin 53 1024) with (-1074); lia|].
    destruct (encode_packed r er Cr) as [Rr ->]. split; [done|]. rewrite Vr, <- Eq, Ua, Ub, !unit_value_eq.
    do 2 f_equal. rewrite Z.mul_add_distr_r, <- !Z.mul_assoc, <- !Z.pow_add_r by lia.
    by replace (e - ez + (ez + 1074)) with (e + 1074) by lia; replace (e' - ez + (ez + 1074)) with (e' + 1074) by lia.
  - subst b. change (bits_of_double (S754_infinity false)) with INFINITY_BITS. rewrite UI, rnd53_infinite by lia. done.
  - subst. vm_compute. split; [split; discriminate|done].
  - subst a. change (bits_of_double (S754_infinity false)) with INFINITY_BITS. rewrite UI, rnd53_infinite by lia. done.
  - subst. vm_compute. split; [split; discriminate|done].
Qed.

Section Sums.
Context (a b : Z).
Hypothesis Ha : 0 <= a <= INFINITY_BITS.
Hypothesis Hb : 0 <= b <= INFINITY_BITS.

Lemma double_add_range : 0 <= double_add a b <= INFINITY_BITS.
Proof. by apply double_add_units. Qed.

(** Adding a double that is not negative does not decrease a sum, and addition is monotone. *)
Lemma double_add_ge : a <= double_add a b.
Proof.
  destruct (double_add_units a b Ha Hb) as [R U]. apply units_le; [done..|]. rewrite U.
  pose proof (units_range a Ha) as Ra. pose proof (units_range b Hb) as Rb. apply Z.min_glb; [|lia].
  destruct (decode_cases a Ha) as [[-> _]|[(p & e & Fa)|[-> _]]].
  - change (units 0) with 0. apply (rnd_nonneg 53 1024); lia.
  - rewrite <- (finite_fixed a p e Fa) at 1. apply (rnd_mono 53 1024); lia.
  - change (units INFINITY_BITS) with INFINITY_UNITS in *. unfold INFINITY_UNITS in *.
    rewrite <- (rnd_pow 53 1024) at 1 by lia. apply (rnd_mono 53 1024); lia.
Qed.

Lemma double_add_mono a' : 0 <= a' <= INFINITY_BITS -> a <= a' -> double_add a b <= double_add a' b.
Proof.
  intros Ha' L. destruct (double_add_units a b Ha Hb) as [R U], (double_add_units a' b Ha' Hb) as [R' U'].
  apply units_le; [done..|]. rewrite U, U'. apply units_le in L; [|done..].
  pose proof (units_range a Ha). pose proof (units_range b Hb).
  pose proof (rnd_mono 53 1024 ltac:(lia) (units a + units b) (units a' + units b) ltac:(lia)). lia.
Qed.
End Sums.
