(* ===== verification/FibHeap.v ===== *)
(** The Fibonacci heap of include/data-struct/fibonacci_heap.h, at the level of its nodes
    and pointers.

    A node has a key (a double), a value, pointers to its parent and one child, the links of
    the ring of its siblings, its number of children and a mark.  Nodes live in a memory from
    addresses to nodes; the null pointer is an address without a node, and so is the address
    of a freed node until [malloc] hands it out again: following either is undefined
    behaviour.  A heap is the struct with the pointer to its minimum and its number of nodes;
    several heaps may share the memory.

    [malloc] is an argument, the class [Malloc]: it returns any address that is not in use,
    freed ones included, and fails when the memory is full, which depends on the nodes that
    are live and not on how many there have been.

    [logf] of the C library is an argument of the operations that size the table of
    [consolidate] with it: the table has [floor(2.1 * logf(num_nodes))] entries, and reading
    or writing past its end is undefined behaviour. *)

From S2P Require Import Prelude Constants Records Doubles.
From Stdlib Require Import ZArith Lia Floats.SpecFloat.
From stdpp Require Import base list option gmap.

#[local] Open Scope Z_scope.

(** [-DBL_MAX], the literal [2.1], and [(unsigned int) floor(x)]. *)
Definition NEG_DBL_MAX : Z := 0xFFEFFFFFFFFFFFFF.
Definition log_golden_ratio_factor : spec_float := S754_finite false 0x10CCCCCCCCCCCD (-51).
Definition floor_u32 (x : spec_float) : res Z :=
  match x with
  | S754_zero _ => Ok 0
  | S754_finite false m e =>
      let v := if 0 <=? e then Z.pos m * 2 ^ e else Z.pos m / 2 ^ (- e) in
      if v <? 2 ^ 32 then Ok v else Undef
  | _ => Undef
  end.

(** ** Data *)

Abbreviation addr := Z.
Definition NULL : addr := 0.

(** The allocator: how many nodes there is room for, and the address that the [k]-th call
    returns when the addresses [X] are in use. *)
Class Malloc := {
  malloc_capacity : Z;
  malloc_addr : Z -> gset addr -> addr;
  malloc_capacity_u64 : 0 < malloc_capacity < 2 ^ 64;
  malloc_fresh k X : Z.of_nat (size X) < malloc_capacity -> malloc_addr k X ∉ X;
  malloc_range k X : Z.of_nat (size X) < malloc_capacity -> NULL < malloc_addr k X < 2 ^ 64 }.

Section FibHeap.
Context {T : Type}.

Record fb_node := FbNode {
  fb_key : Z;
  fb_value : T;
  fb_parent : addr;
  fb_child : addr;
  fb_left : addr;
  fb_right : addr;
  fb_degree : Z;
  fb_mark : bool }.

Record fib_heap := FibHeap { fh_min : addr; num_nodes : Z }.

(** The live nodes, and the number of calls of [malloc] so far. *)
Record memory := Memory { fcells : gmap addr fb_node; fcalls : Z }.

Definition with_key (k : Z) (n : fb_node) : fb_node :=
  FbNode k (fb_value n) (fb_parent n) (fb_child n) (fb_left n) (fb_right n) (fb_degree n) (fb_mark n).
Definition with_parent (p : addr) (n : fb_node) : fb_node :=
  FbNode (fb_key n) (fb_value n) p (fb_child n) (fb_left n) (fb_right n) (fb_degree n) (fb_mark n).
Definition with_child (p : addr) (n : fb_node) : fb_node :=
  FbNode (fb_key n) (fb_value n) (fb_parent n) p (fb_left n) (fb_right n) (fb_degree n) (fb_mark n).
Definition with_left (p : addr) (n : fb_node) : fb_node :=
  FbNode (fb_key n) (fb_value n) (fb_parent n) (fb_child n) p (fb_right n) (fb_degree n) (fb_mark n).
Definition with_right (p : addr) (n : fb_node) : fb_node :=
  FbNode (fb_key n) (fb_value n) (fb_parent n) (fb_child n) (fb_left n) p (fb_degree n) (fb_mark n).
Definition with_degree (d : Z) (n : fb_node) : fb_node :=
  FbNode (fb_key n) (fb_value n) (fb_parent n) (fb_child n) (fb_left n) (fb_right n) d (fb_mark n).
Definition with_mark (b : bool) (n : fb_node) : fb_node :=
  FbNode (fb_key n) (fb_value n) (fb_parent n) (fb_child n) (fb_left n) (fb_right n) (fb_degree n) b.

(** Reading [*p], changing a field of [*p], [malloc] and [free]. *)
Definition load (m : memory) (p : addr) : res fb_node := deref (fcells m !! p).
Definition upd (m : memory) (p : addr) (f : fb_node -> fb_node) : res memory :=
  _ ← load m p; Ok (Memory (alter f p (fcells m)) (fcalls m)).
Definition live (m : memory) : Z := Z.of_nat (size (fcells m)).
Definition next_addr `{Malloc} (m : memory) : addr := malloc_addr (fcalls m) (dom (fcells m)).
Definition alloc `{Malloc} (m : memory) (n : fb_node) : option (addr * memory) :=
  if live m <? malloc_capacity
  then Some (next_addr m, Memory (<[next_addr m := n]> (fcells m)) (fcalls m + 1))
  else None.
Definition free (m : memory) (p : addr) : res memory :=
  _ ← load m p; Ok (Memory (delete p (fcells m)) (fcalls m)).

(** ** Rings *)

(** [p->right = x->right; p->right->left = p; p->left = x; x->right = p;] *)
Definition insert_right (m : memory) (x p : addr) : res memory :=
  nx ← load m x;
  m ← upd m p (with_right (fb_right nx));
  np ← load m p;
  m ← upd m (fb_right np) (with_left p);
  m ← upd m p (with_left x);
  upd m x (with_right p).

(** [p->right = x->right; p->left = x; x->right->left = p; x->right = p;] *)
Definition insert_after (m : memory) (x p : addr) : res memory :=
  nx ← load m x;
  m ← upd m p (with_right (fb_right nx));
  m ← upd m p (with_left x);
  nx ← load m x;
  m ← upd m (fb_right nx) (with_left p);
  upd m x (with_right p).

(** [p->left = x; p->right = x->right; x->right->left = p; x->right = p;] *)
Definition move_after (m : memory) (x p : addr) : res memory :=
  m ← upd m p (with_left x);
  nx ← load m x;
  m ← upd m p (with_right (fb_right nx));
  nx ← load m x;
  m ← upd m (fb_right nx) (with_left p);
  upd m x (with_right p).

(** [p->left->right = p->right; p->right->left = p->left;] *)
Definition unlink_node (m : memory) (p : addr) : res memory :=
  np ← load m p;
  m ← upd m (fb_left np) (with_right (fb_right np));
  np ← load m p;
  upd m (fb_right np) (with_left (fb_left np)).

(** [p->left = p; p->right = p;] *)
Definition alone_in_ring (m : memory) (p : addr) : res memory :=
  m ← upd m p (with_left p);
  upd m p (with_right p).

(** ** Insertion *)

Definition fib_heap_create : fib_heap := FibHeap NULL 0.

Definition fib_heap_insert `{Malloc} (m : memory) (fh : fib_heap) (key : Z) (value : T) : res (memory * fib_heap) :=
  if double_eqb key NEG_DBL_MAX then Exit
  else
    '(node, m) ← or_exit (alloc m (FbNode key value NULL NULL NULL NULL 0 false));
    '(m, min) ←
      (if fh_min fh =? NULL then m ← alone_in_ring m node; Ok (m, node)
       else
         m ← insert_right m (fh_min fh) node;
         nmin ← load m (fh_min fh);
         nnode ← load m node;
         Ok (m, if double_ltb (fb_key nnode) (fb_key nmin) then node else fh_min fh));
    Ok (m, FibHeap min (u64 (num_nodes fh + 1))).

(** The function [min], which exits for an empty heap. *)
Definition fib_heap_min (fh : fib_heap) : res addr :=
  if fh_min fh =? NULL then Exit else Ok (fh_min fh).

(** ** Consolidation *)

Definition fib_heap_make_child (m : memory) (x y : addr) : res memory :=
  if (x =? NULL) || (y =? NULL) then Exit
  else
    m ← unlink_node m y;
    m ← upd m y (with_parent x);
    nx ← load m x;
    m ← (if negb (fb_child nx =? NULL) then insert_right m (fb_child nx) y
         else m ← upd m x (with_child y); alone_in_ring m y);
    m ← upd m y (with_mark false);
    nx ← load m x;
    upd m x (with_degree (u32 (fb_degree nx + 1))).

(** [while (nodes_w_degree[d]) ...]: links [x] with the registered root of its degree, as
    long as there is one. *)
Fixpoint link_same (fuel : nat) (m : memory) (a : list addr) (x d first : addr)
    : res (memory * list addr * addr * Z * addr) :=
  match fuel with
  | O => NoFuel
  | S fuel' =>
      y ← deref (a !! Z.to_nat d);
      if (y =? NULL) || (x =? y) then Ok (m, a, x, d, first)
      else
        ny ← load m y;
        nx ← load m x;
        let '(x, y) := if double_ltb (fb_key ny) (fb_key nx) then (y, x) else (x, y) in
        m ← fib_heap_make_child m x y;
        let first := if y =? first then x else first in
        a ← mem_set a (Z.to_nat d) NULL;
        link_same fuel' m a x (u32 (d + 1)) first
  end.

(** The do-while loop over the roots. *)
Fixpoint merge_roots (fuel : nat) (m : memory) (a : list addr) (x first : addr) : res (memory * list addr) :=
  match fuel with
  | O => NoFuel
  | S fuel' =>
      nx ← load m x;
      '(m, a, x, d, first) ← link_same (S (length a)) m a x (fb_degree nx) first;
      a ← mem_set a (Z.to_nat d) x;
      nx ← load m x;
      if fb_right nx =? first then Ok (m, a) else merge_roots fuel' m a (fb_right nx) first
  end.

(** The loop that makes the registered roots the new root list. *)
Fixpoint rebuild (m : memory) (min : addr) (a : list addr) : res (memory * addr) :=
  match a with
  | [] => Ok (m, min)
  | x :: a' =>
      if x =? NULL then rebuild m min a'
      else if min =? NULL then m ← alone_in_ring m x; rebuild m x a'
      else
        m ← insert_after m min x;
        nx ← load m x;
        nmin ← load m min;
        rebuild m (if double_ltb (fb_key nx) (fb_key nmin) then x else min) a'
  end.
End FibHeap.
Arguments fb_node T : clear implicits.
Arguments memory T : clear implicits.

(** A root is visited at most once between two links, and there are fewer links than roots. *)
Definition merge_fuel {T} (m : memory T) : nat := let n := size (fcells m) in S (n * n).

Section Extract.
Context {T : Type}.
(** The [logf] of the C library, on binary32. *)
Variable logf : spec_float -> spec_float.

Definition table_size (n : Z) : res Z :=
  floor_u32 (SFmul 53 1024 log_golden_ratio_factor (logf (f32_of_Z n))).

Definition fib_heap_consolidate (m : memory T) (fh : fib_heap) : res (memory T * addr) :=
  if fh_min fh =? NULL then Exit
  else
    max_degree ← table_size (num_nodes fh);
    nmin ← load m (fh_min fh);
    '(m, a) ← merge_roots (merge_fuel m) m (replicate (Z.to_nat max_degree) NULL) (fb_right nmin) (fb_right nmin);
    rebuild m NULL a.

(** The loop that makes the children of the minimum roots. *)
Fixpoint move_children (fuel : nat) (m : memory T) (z node : addr) : res (memory T) :=
  match fuel with
  | O => NoFuel
  | S fuel' =>
      if node =? NULL then Ok m
      else
        n ← load m node;
        let next := if negb (fb_right n =? node) then fb_right n else NULL in
        m ← upd m node (with_parent NULL);
        m ← unlink_node m node;
        m ← move_after m z node;
        move_children fuel' m z next
  end.

(** The node that is returned is no longer in the heap, and is the caller's to free. *)
Definition fib_heap_extract_min (m : memory T) (fh : fib_heap) : res (addr * memory T * fib_heap) :=
  let z := fh_min fh in
  if negb (z =? NULL) then
    nz ← load m z;
    m ← move_children (S (size (fcells m))) m z (fb_child nz);
    m ← unlink_node m z;
    nz ← load m z;
    '(m, min) ← (if fb_right nz =? z then Ok (m, NULL) else fib_heap_consolidate m fh);
    Ok (z, m, FibHeap min (u64 (num_nodes fh - 1)))
  else Exit.

(** ** Union *)

Definition fib_heap_union (m : memory T) (fh1 fh2 : fib_heap) : res (memory T * fib_heap) :=
  if (num_nodes fh1 =? 0) && (num_nodes fh2 =? 0) then Ok (m, fib_heap_create)
  else
    '(m, min) ←
      (if (num_nodes fh1 =? 0) || (num_nodes fh2 =? 0)
       then Ok (m, if num_nodes fh1 =? 0 then fh_min fh2 else fh_min fh1)
       else
         n1 ← load m (fh_min fh1);
         let fh1_temp := fb_right n1 in
         n2 ← load m (fh_min fh2);
         let fh2_temp := fb_left n2 in
         m ← upd m (fh_min fh1) (with_right (fh_min fh2));
         m ← upd m (fh_min fh2) (with_left (fh_min fh1));
         m ← upd m fh1_temp (with_left fh2_temp);
         m ← upd m fh2_temp (with_right fh1_temp);
         n1 ← load m (fh_min fh1);
         n2 ← load m (fh_min fh2);
         Ok (m, if double_ltb (fb_key n2) (fb_key n1) then fh_min fh2 else fh_min fh1));
    Ok (m, FibHeap min (u64 (num_nodes fh1 + num_nodes fh2))).

(** ** Decreasing keys *)

Definition fib_heap_cut (m : memory T) (fh : fib_heap) (node parent : addr) : res (memory T) :=
  if (node =? NULL) || (parent =? NULL) then Exit
  else
    np ← load m parent;
    m ← (if fb_degree np =? 1 then upd m parent (with_child NULL)
         else
           n ← load m node;
           m ← upd m (fb_right n) (with_left (fb_left n));
           n ← load m node;
           m ← upd m (fb_left n) (with_right (fb_right n));
           np ← load m parent;
           if node =? fb_child np then n ← load m node; upd m parent (with_child (fb_right n)) else Ok m);
    np ← load m parent;
    m ← upd m parent (with_degree (u32 (fb_degree np - 1)));
    m ← upd m node (with_parent NULL);
    m ← upd m node (with_mark false);
    insert_after m (fh_min fh) node.

Fixpoint cascade (fuel : nat) (m : memory T) (fh : fib_heap) (node : addr) : res (memory T) :=
  match fuel with
  | O => NoFuel
  | S fuel' =>
      n ← load m node;
      let parent := fb_parent n in
      if parent =? NULL then Ok m
      else if negb (fb_mark n) then upd m node (with_mark true)
      else
        m ← fib_heap_cut m fh node parent;
        cascade fuel' m fh parent
  end.
Definition fib_heap_cascading_cut (m : memory T) (fh : fib_heap) (node : addr) : res (memory T) :=
  if node =? NULL then Exit else cascade (S (size (fcells m))) m fh node.

Definition fib_heap_decrease_key_internal (m : memory T) (fh : fib_heap) (node : addr) (new_key : Z) (delete : bool)
    : res (memory T * fib_heap) :=
  if node =? NULL then Exit
  else
    n ← load m node;
    if double_ltb (fb_key n) new_key then Exit
    else if negb delete && double_eqb new_key NEG_DBL_MAX then Exit
    else
      m ← upd m node (with_key new_key);
      n ← load m node;
      let parent := fb_parent n in
      below ← (if negb (parent =? NULL) then np ← load m parent; Ok (double_ltb (fb_key n) (fb_key np)) else Ok false);
      m ← (if below : bool then m ← fib_heap_cut m fh node parent; fib_heap_cascading_cut m fh parent else Ok m);
      n ← load m node;
      nmin ← load m (fh_min fh);
      Ok (m, if double_ltb (fb_key n) (fb_key nmin) then FibHeap node (num_nodes fh) else fh).

Definition fib_heap_decrease_key (m : memory T) (fh : fib_heap) (node : addr) (new_key : Z) : res (memory T * fib_heap) :=
  fib_heap_decrease_key_internal m fh node new_key false.

Definition fib_heap_delete (m : memory T) (fh : fib_heap) (node : addr) : res (memory T * fib_heap) :=
  '(m, fh) ← fib_heap_decrease_key_internal m fh node NEG_DBL_MAX true;
  '(z, m, fh) ← fib_heap_extract_min m fh;
  m ← free m z;
  Ok (m, fh).

(** ** Destruction *)

(** [while (node->degree > 0) node = node->child;] *)
Fixpoint descend (fuel : nat) (m : memory T) (node : addr) : res addr :=
  match fuel with
  | O => NoFuel
  | S fuel' => n ← load m node; if 0 <? fb_degree n then descend fuel' m (fb_child n) else Ok node
  end.

Fixpoint destroy_nodes (n : nat) (m : memory T) (next : addr) : res (memory T) :=
  match n with
  | O => Ok m
  | S n' =>
      node ← descend (S (size (fcells m))) m next;
      nd ← load m node;
      let continue (m : memory T) (next : addr) :=
        m ← (if negb (fb_parent nd =? NULL) then
               np ← load m (fb_parent nd); upd m (fb_parent nd) (with_degree (u32 (fb_degree np - 1)))
             else Ok m);
        m ← free m node;
        destroy_nodes n' m next in
      if negb (fb_right nd =? node) then
        m ← upd m (fb_right nd) (with_left (fb_left nd));
        nd ← load m node;
        m ← upd m (fb_left nd) (with_right (fb_right nd));
        continue m (fb_right nd)
      else if negb (fb_parent nd =? NULL) then continue m (fb_parent nd)
      else free m node
  end.
Definition fib_heap_destroy (m : memory T) (fh : fib_heap) : res (memory T) :=
  if negb (fh_min fh =? NULL) then
    nmin ← load m (fh_min fh);
    destroy_nodes (Z.to_nat (num_nodes fh)) m (fb_right nmin)
  else Ok m.
End Extract.
