(* ===== verification/FibTable.v ===== *)
(** Fibonacci heaps: the table of [consolidate] is large enough.

    The table has [floor(2.1 * logf(n))] entries, where [n] is the number of nodes before the
    minimum left.  A class states what is assumed of [logf], the natural logarithm of the C
    library: bounds that it keeps as long as it is within some percent of the logarithm.  A
    heap of [n - 1] nodes in binomial trees then has no root of a degree beyond the table.

    The file ends with concrete instances of the two classes, allocators ([Malloc]) and
    [LogfBounds]: they show that the classes can be satisfied, and serve the witnesses and the
    examples.  The properties are about any allocator and any such [logf]. *)

From S2P Require Import Prelude Constants Records Doubles Rounding DoubleOrder FibHeap.
From Stdlib Require Import ZArith Lia Floats.SpecFloat.
From stdpp Require Import base tactics list list_numbers fin_sets gmap.

#[local] Open Scope Z_scope.

(** 1.0 in units of the smallest double. *)
Definition ONE_UNITS : Z := 2 ^ 1074.

(** [logf]: finite, at most 45 on the 64-bit integers (the logarithm of [2^64] is 44.4), at
    least 0.69 times [k] from [2^k] on, at least 1.09 from 3 on and at least 1.6 from 5 on. *)
Class LogfBounds (logf : spec_float -> spec_float) : Prop := {
  logf_finite n : 2 <= n < 2 ^ 64 -> exists m e, logf (f32_of_Z n) = S754_finite false m e /\ -149 <= e;
  logf_upper n : 2 <= n < 2 ^ 64 -> float_units (logf (f32_of_Z n)) <= 45 * ONE_UNITS;
  logf_power n k : 1 <= k -> 2 ^ k <= n < 2 ^ 64 -> 69 * k * ONE_UNITS <= 100 * float_units (logf (f32_of_Z n));
  logf_three n : 3 <= n < 2 ^ 64 -> 109 * ONE_UNITS <= 100 * float_units (logf (f32_of_Z n));
  logf_five n : 5 <= n < 2 ^ 64 -> 160 * ONE_UNITS <= 100 * float_units (logf (f32_of_Z n)) }.

Lemma floor_u32_value p e : -1074 <= e <= 971 -> unit_value (Z.pos p) e < 2 ^ 32 * ONE_UNITS ->
  floor_u32 (S754_finite false p e) = Ok (unit_value (Z.pos p) e / ONE_UNITS).
Proof.
  intros He Hv. rewrite unit_value_eq in *. unfold ONE_UNITS in *. unfold floor_u32.
  assert (V : (if 0 <=? e then Z.pos p * 2 ^ e else Z.pos p / 2 ^ (- e)) = Z.pos p * 2 ^ (e + 1074) / 2 ^ 1074).
  { destruct (Z.leb_spec 0 e).
    - rewrite Z.pow_add_r, Z.mul_assoc, Z.div_mul by lia. done.
    - replace 1074 with (- e + (e + 1074)) at 2 by lia. rewrite (Z.pow_add_r 2 (- e)) by lia.
      rewrite Z.div_mul_cancel_r; [done|apply Z.pow_nonzero; lia..]. }
  rewrite V. rewrite (proj2 (Z.ltb_lt _ _)); [done|]. apply Z.div_lt_upper_bound; [apply Z.pow_pos_nonneg; lia|]. lia.
Qed.

Section TableSize.
Context (logf : spec_float -> spec_float) `{LogfBounds logf}.

(** The product of 2.1, which is stored as a little more, is rounded to a double. *)
Lemma table_size_floor n : 2 <= n < 2 ^ 64 -> exists s, table_size logf n = Ok s /\ 0 <= s < 2 ^ 32 /\
  forall c, 0 <= c < 2 ^ 32 -> 10 * c * ONE_UNITS <= 21 * float_units (logf (f32_of_Z n)) -> c <= s.
Proof.
  intros Hn. destruct (logf_finite n Hn) as (m & e & E & He). pose proof (logf_upper n Hn) as Up.
  assert (P0 : 0 < ONE_UNITS) by (unfold ONE_UNITS; apply Z.pow_pos_nonneg; lia).
  unfold table_size. rewrite E in *. unfold log_golden_ratio_factor. cbn [SFmul xorb float_units] in *.
  set (M := 0x10CCCCCCCCCCCD%positive) in *. set (U := unit_value (Z.pos m) e) in *.
  destruct (round_aux_units 53 1024 ltac:(lia) (M * m) (-51 + e)) as (p & e' & -> & He' & V & _).
  { change (emin 53 1024) with (-1074). lia. }
  assert (Ex : unit_value (Z.pos (M * m)) (-51 + e) * 2 ^ 51 = Z.pos M * U).
  { unfold U. rewrite !unit_value_eq, Pos2Z.inj_mul, <- !Z.mul_assoc, <- Z.pow_add_r by lia. do 3 f_equal. lia. }
  set (X := unit_value (Z.pos (M * m)) (-51 + e)) in *. assert (U0 : 0 < U).
  { unfold U. rewrite unit_value_eq. apply Z.mul_pos_pos; [lia|]. apply Z.pow_pos_nonneg; lia. }
  assert (Mb : 21 * 2 ^ 51 <= 10 * Z.pos M <= 22 * 2 ^ 51) by (unfold M; lia).
  assert (X0 : 0 < X) by nia. assert (Xu : X <= 128 * ONE_UNITS) by nia.
  assert (Ru : rnd53 X <= 128 * ONE_UNITS).
  { unfold ONE_UNITS in *. rewrite <- (rnd_fix 53 1024 ltac:(lia) 128 1074) by lia. apply (rnd_mono 53 1024); lia. }
  rewrite <- V in Ru. assert (Le : e' <= 971).
  { destruct (Z.le_gt_cases e' 971) as [L|G]; [done|]. exfalso. rewrite unit_value_eq in Ru.
    assert (2 ^ 2000 <= 2 ^ (e' + 1074)) by (apply Z.pow_le_mono_r; lia). assert (128 * ONE_UNITS < 2 ^ 2000) by (by vm_compute). nia. }
  unfold packed. rewrite (proj2 (Z.leb_le _ _)) by lia. rewrite floor_u32_value by lia.
  exists (unit_value (Z.pos p) e' / ONE_UNITS). split_and!; [done|apply Z.div_pos; [|done]|apply Z.div_lt_upper_bound; lia|].
  - rewrite V. apply (rnd_nonneg 53 1024); lia.
  - intros c Hc Hl. apply Z.div_le_lower_bound; [done|]. rewrite V. unfold ONE_UNITS in *.
    rewrite (Z.mul_comm _ c), <- (rnd_fix 53 1024 ltac:(lia) c 1074) by lia. apply (rnd_mono 53 1024); [lia|].
    split; [apply Z.mul_nonneg_nonneg; lia|]. nia.
Qed.

Lemma table_size_enough n : 2 <= n < 2 ^ 64 -> exists s, table_size logf n = Ok s /\ 0 <= s < 2 ^ 32 /\ n - 1 < 2 ^ s.
Proof.
  intros Hn. destruct (table_size_floor n Hn) as (s & Es & Hs & Low). exists s. split_and!; try done; try lia.
  assert (P0 : 0 < ONE_UNITS) by (unfold ONE_UNITS; apply Z.pow_pos_nonneg; lia).
  set (k := Z.log2 (n - 1)). assert (K : 2 ^ k <= n - 1 < 2 ^ Z.succ k) by (apply Z.log2_spec; lia).
  assert (K0 : 0 <= k) by apply Z.log2_nonneg.
  assert (K64 : k < 64) by (apply Z.log2_lt_pow2; lia).
  assert (Ks : k + 1 <= s).
  { apply Low; [lia|]. destruct (Z.le_gt_cases 3 k) as [L|L].
    - pose proof (logf_power n k ltac:(lia) ltac:(lia)). nia.
    - assert (k = 0 \/ k = 1 \/ k = 2) as [E|[E|E]] by lia; rewrite E in *.
      + pose proof (logf_power n 1 ltac:(lia) ltac:(lia)). lia.
      + pose proof (logf_three n ltac:(lia)). lia.
      + pose proof (logf_five n ltac:(lia)). lia. }
  assert (2 ^ Z.succ k <= 2 ^ s) by (apply Z.pow_le_mono_r; lia). lia.
Qed.
End TableSize.

(** ** Allocators

    The least address that is not in use, with room for [c] nodes. *)
Definition lowest_addr (X : gset addr) : addr :=
  default 1 (List.find (fun a => bool_decide (a ∉ X)) (seqZ 1 (Z.of_nat (size X) + 1))).

Lemma lowest_addr_free X : (lowest_addr X ∉ X) /\ 0 < lowest_addr X <= Z.of_nat (size X) + 1.
Proof.
  unfold lowest_addr. destruct (List.find _ _) as [a|] eqn:E; cbn [default].
  - apply List.find_some in E as [Ha%list_elem_of_In Hx]. apply elem_of_seqZ in Ha. apply bool_decide_eq_true in Hx. split; [done|].
    unfold id; lia.
  - exfalso. pose proof (List.find_none _ _ E) as Nf. set (Y := list_to_set (seqZ 1 (Z.of_nat (size X) + 1)) : gset addr).
    assert (Sub : Y ⊆ X).
    { intros a Ha. apply elem_of_list_to_set, list_elem_of_In, Nf, bool_decide_eq_false in Ha. by apply dec_stable in Ha. }
    apply subseteq_size in Sub. unfold Y in Sub. rewrite size_list_to_set, length_seqZ in Sub by apply NoDup_seqZ. lia.
Qed.

Definition lowest_free_of (c : Z) (Hc : 0 < c < 2 ^ 64) : Malloc.
Proof.
  refine {| malloc_capacity := c; malloc_addr := fun _ => lowest_addr |}; [done| |].
  - intros _ X _. apply lowest_addr_free.
  - intros _ X HX. pose proof (lowest_addr_free X) as [_ B]. unfold NULL. lia.
Defined.
Definition lowest_free : Malloc := lowest_free_of (2 ^ 64 - 1) ltac:(lia).

(** ** A logarithm with the bounds

    The binary32 logarithms of the integers below 9, and 44.5 for all others. *)
Definition logf_sample (x : spec_float) : spec_float :=
  match f32_to_Z x with
  | 2 => S754_finite false 11629080 (-24)
  | 3 => S754_finite false 9215828 (-23)
  | 4 => S754_finite false 11629080 (-23)
  | 5 => S754_finite false 13500944 (-23)
  | 6 => S754_finite false 15030368 (-23)
  | 7 => S754_finite false 16323477 (-23)
  | 8 => S754_finite false 8721810 (-22)
  | _ => S754_finite false 89 (-1)
  end.

Lemma f32_of_large n : 9 <= n < 2 ^ 64 -> 9 <= f32_to_Z (f32_of_Z n).
Proof.
  intros Hn. destruct n as [|p|p]; try lia. unfold f32_of_Z.
  destruct (round_units 24 128 ltac:(lia) p 0 ltac:(change (emin 24 128) with (-149); lia)) as (q & e & -> & V & (Bq & Ee & _)).
  change (emin 24 128) with (-149) in *. assert (Ev : forall m x, value 24 128 m x = m * 2 ^ (x + 149)).
  { intros m x. unfold value. change (emin 24 128) with (-149). do 2 f_equal. }
  rewrite !Ev in V. change (0 + 149) with 149 in V.
  assert (Lo : 9 * 2 ^ 149 <= rnd 24 (Z.pos p * 2 ^ 149)).
  { rewrite <- (rnd_fix 24 128 ltac:(lia) 9 149) by lia. apply (rnd_mono 24 128); lia. }
  assert (Hi : rnd 24 (Z.pos p * 2 ^ 149) <= 2 ^ 213).
  { rewrite <- (rnd_pow 24 128 ltac:(lia) 213) by lia. apply (rnd_mono 24 128); [lia|].
    replace (2 ^ 213) with (2 ^ 64 * 2 ^ 149) by (by vm_compute). lia. }
  rewrite <- V in Lo, Hi. assert (Le : e <= 104).
  { destruct (Z.le_gt_cases e 104) as [L|G]; [done|]. exfalso.
    assert (2 ^ 254 <= 2 ^ (e + 149)) by (apply Z.pow_le_mono_r; lia). assert (2 ^ 213 < 2 ^ 254) by (by vm_compute). nia. }
  unfold packed. rewrite (proj2 (Z.leb_le _ _)) by lia. cbn [f32_to_Z].
  assert (P : 0 < 2 ^ 149) by (by vm_compute). destruct (Z.leb_spec 0 e).
  - rewrite Z.pow_add_r, Z.mul_assoc in Lo by lia. nia.
  - apply Z.div_le_lower_bound; [apply Z.pow_pos_nonneg; lia|].
    replace 149 with (- e + (e + 149)) in Lo at 1 by lia. rewrite Z.pow_add_r in Lo by lia.
    pose proof (Z.pow_pos_nonneg 2 (e + 149) ltac:(lia) ltac:(lia)). nia.
Qed.

Lemma logf_sample_cases n : 2 <= n < 2 ^ 64 ->
  (n <= 8 /\ n ∈ [2; 3; 4; 5; 6; 7; 8]) \/ (9 <= n /\ logf_sample (f32_of_Z n) = S754_finite false 89 (-1)).
Proof.
  intros Hn. destruct (Z.le_gt_cases n 8) as [L|L].
  - left. split; [done|]. rewrite !elem_of_cons. lia.
  - right. split; [lia|]. pose proof (f32_of_large n ltac:(lia)) as B. unfold logf_sample.
    destruct (f32_to_Z (f32_of_Z n)) as [|p|p]; try lia. destruct p as [p|p|]; try lia; (destruct p as [p|p|]; try lia;
      (destruct p as [p|p|]; try lia; destruct p; try lia; done)).
Qed.

(** The bounds at the small integers, by evaluation. *)
Lemma logf_sample_small n : n ∈ [2; 3; 4; 5; 6; 7; 8] -> exists m e,
  logf_sample (f32_of_Z n) = S754_finite false m e /\ -149 <= e /\
  let U := unit_value (Z.pos m) e in U <= 45 * ONE_UNITS /\ 69 * Z.log2 n * ONE_UNITS <= 100 * U /\
  (3 <= n -> 109 * ONE_UNITS <= 100 * U) /\ (5 <= n -> 160 * ONE_UNITS <= 100 * U).
Proof.
  rewrite !elem_of_cons. intros [->|[->|[->|[->|[->|[->|[->|[]%elem_of_nil]]]]]]];
    (eexists _, _; split; [vm_compute; reflexivity|]; vm_compute; split_and!; try discriminate; intros H; try discriminate; by destruct H).
Qed.

#[export] Instance logf_sample_bounds : LogfBounds logf_sample.
Proof.
  assert (All : forall n, 2 <= n < 2 ^ 64 -> exists m e,
    logf_sample (f32_of_Z n) = S754_finite false m e /\ -149 <= e /\
    let U := unit_value (Z.pos m) e in U <= 45 * ONE_UNITS /\ 69 * Z.log2 n * ONE_UNITS <= 100 * U /\
    (3 <= n -> 109 * ONE_UNITS <= 100 * U) /\ (5 <= n -> 160 * ONE_UNITS <= 100 * U)).
  { intros n Hn. destruct (logf_sample_cases n Hn) as [[_ S]|[L E]]; [by apply logf_sample_small|].
    exists 89%positive, (-1). rewrite E. split_and!; [done|lia|]. cbv zeta.
    assert (V : 2 * unit_value 89 (-1) = 89 * ONE_UNITS) by (by vm_compute).
    assert (P0 : 0 < ONE_UNITS) by (unfold ONE_UNITS; apply Z.pow_pos_nonneg; lia).
    assert (Z.log2 n < 64) by (apply Z.log2_lt_pow2; lia). split_and!; try lia. nia. }
  split.
  - intros n Hn. destruct (All n Hn) as (m & e & E & He & _). by exists m, e.
  - intros n Hn. destruct (All n Hn) as (m & e & -> & _ & U & _). exact U.
  - intros n k Hk Hn. destruct (Z.le_gt_cases 2 n) as [L|L]; [|assert (2 ^ 1 <= 2 ^ k) by (apply Z.pow_le_mono_r; lia); lia].
    destruct (All n ltac:(lia)) as (m & e & -> & _ & _ & U & _). cbn [float_units].
    assert (P0 : 0 < ONE_UNITS) by (unfold ONE_UNITS; apply Z.pow_pos_nonneg; lia).
    assert (k <= Z.log2 n) by (apply Z.log2_le_pow2; lia). nia.
  - intros n Hn. destruct (All n ltac:(lia)) as (m & e & -> & _ & _ & _ & U & _). apply U. lia.
  - intros n Hn. destruct (All n ltac:(lia)) as (m & e & -> & _ & _ & _ & _ & U). apply U. lia.
Qed.
