(* ===== verification/FibRing.v ===== *)
(** Rings of nodes of a Fibonacci heap: the nodes of a list are linked to their neighbours in
    both directions, the last one to the first.  The lemmas give the effect of the pointer
    manipulations that insert a node into a ring and take one out, and say
    which nodes they leave alone.

    [same_bodies] relates memories that differ in links only. *)

From S2P Require Import Prelude Constants Records Chains FibHeap.
From Stdlib Require Import ZArith Lia.
From stdpp Require Import base list option fin_maps gmap.

#[local] Open Scope Z_scope.

Section Rings.
Context {T : Type}.
Implicit Types (c : gmap addr (fb_node T)) (m : memory T) (n : fb_node T) (l ls : list addr) (p q x y : addr).

Definition ring c ls : Prop :=
  forall x y, (x, y) ∈ cycle ls -> fb_right <$> c !! x = Some y /\ fb_left <$> c !! y = Some x.

(** All fields but the links. *)
Definition body n : Z * T * addr * addr * Z * bool :=
  (fb_key n, fb_value n, fb_parent n, fb_child n, fb_degree n, fb_mark n).
Definition same_bodies c c' : Prop := forall q, body <$> c' !! q = body <$> c !! q.

#[export] Instance same_bodies_equiv : Equivalence same_bodies.
Proof.
  split; intros c; [done| |].
  - intros c' H q. by rewrite H.
  - intros c2 c3 H1 H2 q. by rewrite H2, H1.
Qed.

(** [c'] has the nodes of [c] outside of [ls]. *)
Definition same_outside ls c c' : Prop := forall q, q ∉ ls -> c' !! q = c !! q.

Lemma same_outside_trans ls ls' c c2 c3 : same_outside ls c c2 -> same_outside ls' c2 c3 ->
  (forall q, q ∈ ls' -> q ∈ ls) -> same_outside ls c c3.
Proof. intros H1 H2 Hs q Hq. rewrite H2, H1; naive_solver. Qed.

(** ** Loading and updating *)

Lemma load_cell_ok m p n : fcells m !! p = Some n -> load m p = Ok n.
Proof. unfold load. by intros ->. Qed.
Lemma upd_ok m p f : is_Some (fcells m !! p) -> upd m p f = Ok (Memory (alter f p (fcells m)) (fcalls m)).
Proof. intros [n E]. unfold upd. by rewrite (load_cell_ok m p n E). Qed.

Lemma lookup_alter_cell (f : fb_node T -> fb_node T) i c x :
  alter f i c !! x = (fun a => if decide (x = i) then f a else a) <$> c !! x.
Proof. apply lookup_alter_if. Qed.

Lemma alter_links f p c : (forall n, body (f n) = body n) -> same_bodies c (alter f p c).
Proof.
  intros Hf q. rewrite lookup_alter_cell. destruct (c !! q); [|done]. simpl. case_decide; by rewrite ?Hf.
Qed.
Lemma alter_some f p q c : is_Some (alter f p c !! q) <-> is_Some (c !! q).
Proof. rewrite lookup_alter_cell. by rewrite fmap_is_Some. Qed.

Lemma body_left p n : body (with_left p n) = body n. Proof. done. Qed.
Lemma body_right p n : body (with_right p n) = body n. Proof. done. Qed.

Lemma same_body_field {B} (f : fb_node T -> B) c c' q : (forall n n', body n = body n' -> f n = f n') ->
  same_bodies c c' -> f <$> c' !! q = f <$> c !! q.
Proof.
  intros Hf H. specialize (H q). destruct (c !! q), (c' !! q); try done. simpl in *. injection H as H.
  f_equal. apply Hf. unfold body. congruence.
Qed.

Lemma same_bodies_some c c' q : same_bodies c c' -> is_Some (c' !! q) <-> is_Some (c !! q).
Proof. intros H. specialize (H q). destruct (c !! q), (c' !! q); try done; split; intros [? ?]; done. Qed.

(** ** Rings *)

Lemma ring_in c ls x : ring c ls -> x ∈ ls -> is_Some (c !! x).
Proof.
  intros R (y & Hc)%cycle_succ. destruct (R x y Hc) as [E _]. apply fmap_Some in E as (n & -> & _). eauto.
Qed.

Lemma ring_ext c c' ls : ring c ls -> (forall x, x ∈ ls -> c' !! x = c !! x) -> ring c' ls.
Proof.
  intros R H x y Hc. rewrite (H x) by (by eapply cycle_fst). rewrite (H y) by (by eapply cycle_snd). by apply R.
Qed.

Lemma ring_rotate c l1 l2 : ring c (l1 ++ l2) -> ring c (l2 ++ l1).
Proof. intros R x y Hc. apply R. by rewrite cycle_rotate. Qed.

Lemma ring_nil c : ring c [].
Proof. intros x y ?%elem_of_nil. done. Qed.

Lemma ring_self c x : ring c [x] <-> exists n, c !! x = Some n /\ fb_left n = x /\ fb_right n = x.
Proof.
  split.
  - intros R. destruct (R x x) as [E1 E2]; [set_solver|]. apply fmap_Some in E1 as (n & E & ->).
    rewrite E in E2. exists n. split_and!; [done| |done]. by injection E2.
  - intros (n & E & L & Rr) a b Hc. apply list_elem_of_singleton in Hc. injection Hc as -> ->.
    rewrite E. simpl. by rewrite L, Rr.
Qed.

(** The neighbours of the head. *)
Lemma ring_head c x l : ring c (x :: l) ->
  exists n, c !! x = Some n /\ fb_right n = hd x l /\ fb_left n = List.last l x.
Proof.
  intros R. destruct (R x (hd x l)) as [E _]; [rewrite cycle_cons; set_solver|].
  apply fmap_Some in E as (n & E & Er). exists n. split_and!; [done|done|].
  destruct (R (List.last (x :: l) x) x) as [_ E2]; [apply cycle_last|].
  rewrite E in E2. injection E2 as ->. by destruct l.
Qed.

(** ** Insertion *)

Definition place_after x r p c : gmap addr (fb_node T) :=
  alter (with_right p) x (alter (with_left p) r (alter (fun n => with_left x (with_right r n)) p c)).

Lemma place_after_lookup x r p c q : place_after x r p c !! q =
  (fun n => (if decide (q = x) then with_right p else id)
     ((if decide (q = r) then with_left p else id)
        (if decide (q = p) then with_left x (with_right r n) else n))) <$> c !! q.
Proof.
  unfold place_after. rewrite !lookup_alter_cell. destruct (c !! q); [|done]. simpl. by repeat case_decide.
Qed.

Lemma place_after_bodies x r p c : same_bodies c (place_after x r p c).
Proof.
  unfold place_after. transitivity (alter (fun n => with_left x (with_right r n)) p c); [by apply alter_links|].
  etransitivity; [by apply (alter_links (with_left p) r)|]. by apply alter_links.
Qed.

Lemma place_after_outside x r p c : same_outside [p; x; r] c (place_after x r p c).
Proof.
  intros q Hq. rewrite place_after_lookup. destruct (c !! q); [|done]. simpl.
  by rewrite !decide_False by set_solver.
Qed.

Lemma place_after_ring x p l c : ring c (x :: l) -> NoDup (x :: l) -> p ∉ x :: l -> is_Some (c !! p) ->
  ring (place_after x (hd x l) p c) (x :: p :: l).
Proof.
  intros R Nd Hp Sp. assert (Nx : p <> x) by set_solver.
  assert (Hr : hd x l <> p) by (destruct l; set_solver).
  assert (In : forall q, q ∈ x :: p :: l -> is_Some (c !! q)).
  { intros q Hq. destruct (decide (q = p)) as [->|]; [done|]. apply (ring_in c (x :: l)); [done|set_solver]. }
  apply NoDup_cons in Nd as [Hx Nd].
  assert (Rt : forall a b, (a = x -> b = p) -> (a = p -> b = hd x l) -> (a <> x -> a <> p -> fb_right <$> c !! a = Some b) ->
     a ∈ x :: p :: l -> fb_right <$> place_after x (hd x l) p c !! a = Some b).
  { intros a b A1 A2 A3 Ha. rewrite place_after_lookup. destruct (In a Ha) as [n En]. rewrite En in *. simpl.
    destruct (decide (a = x)) as [->|]; [simpl; by rewrite A1|].
    destruct (decide (a = p)) as [->|]; [rewrite decide_False by congruence; simpl; by rewrite A2|].
    by case_decide; apply A3. }
  assert (Lf : forall a b, (a = p -> b = x) -> (a = hd x l -> b = p) -> (a <> p -> a <> hd x l -> fb_left <$> c !! a = Some b) ->
     a ∈ x :: p :: l -> fb_left <$> place_after x (hd x l) p c !! a = Some b).
  { intros a b A1 A2 A3 Ha. rewrite place_after_lookup. destruct (In a Ha) as [n En]. rewrite En in *. simpl.
    destruct (decide (a = hd x l)) as [->|].
    - rewrite A2 by done. rewrite (decide_False (P := hd x l = p)) by done. by case_decide.
    - destruct (decide (a = p)) as [->|]; [rewrite decide_False by done; simpl; by rewrite A1|].
      case_decide; simpl; by apply A3. }
  intros a b. rewrite cycle_cons. cbn [hd links]. rewrite !elem_of_cons.
  intros [[= -> ->]|[[= -> ->]|Hc]].
  - split; [apply Rt|apply Lf]; try done; set_solver.
  - split; [apply Rt; try done; set_solver|]. apply Lf; try done. destruct l; set_solver.
  - pose proof (links_fst _ _ _ _ Hc) as Ha. pose proof (links_snd _ _ _ _ Hc) as Hb.
    destruct (R a b) as [R1 R2]; [rewrite cycle_cons; apply elem_of_cons; by right|].
    assert (Hbh : b <> hd x l).
    { destruct l as [|h l]; [by apply elem_of_nil in Ha|]. cbn [hd tail] in *. apply NoDup_cons in Nd as [Nh _].
      destruct Hb as [Hb| ->]; [by intros ->|set_solver]. }
    assert (Hax : a <> x) by (by intros ->). assert (Hl : forall q, q ∈ l -> q <> p /\ q ∈ x :: p :: l) by set_solver.
    assert (Hbp : b <> p /\ b ∈ x :: p :: l).
    { destruct Hb as [Hb| ->]; [|set_solver]. apply Hl. destruct l; [done|]. apply elem_of_cons. by right. }
    destruct (Hl a Ha) as [Hap Ha']. split; [apply Rt|apply Lf]; tauto.
Qed.

(** ** Removal *)

Definition take_out p l c : gmap addr (fb_node T) :=
  alter (with_left (List.last l p)) (hd p l) (alter (with_right (hd p l)) (List.last l p) c).

Lemma take_out_lookup p l c q : take_out p l c !! q =
  (fun n => (if decide (q = hd p l) then with_left (List.last l p) else id)
     (if decide (q = List.last l p) then with_right (hd p l) n else n)) <$> c !! q.
Proof. unfold take_out. rewrite !lookup_alter_cell. destruct (c !! q); [|done]. simpl. by repeat case_decide. Qed.

Lemma take_out_bodies p l c : same_bodies c (take_out p l c).
Proof. unfold take_out. etransitivity; by apply alter_links. Qed.

Lemma last_in (h : addr) l d : List.last (h :: l) d ∈ h :: l.
Proof. destruct l as [|y l _] using rev_ind; [set_solver|]. rewrite app_comm_cons, last_last. set_solver. Qed.

Lemma take_out_outside p l c : ring c (p :: l) -> same_outside l c (take_out p l c).
Proof.
  intros R q Hq. rewrite take_out_lookup. destruct l as [|h l].
  - apply ring_self in R as (n & E & L & Rr). simpl. case_decide as D; [|by destruct (c !! q)].
    subst q. rewrite E. simpl. f_equal. destruct n; simpl in *. by subst.
  - destruct (c !! q); [|done]. simpl. pose proof (last_in h l p) as Hl.
    change (match l with [] => h | _ :: _ => List.last l p end) with (List.last (h :: l) p).
    by rewrite !decide_False by set_solver.
Qed.

Lemma take_out_ring p l c : ring c (p :: l) -> NoDup (p :: l) -> ring (take_out p l c) l.
Proof.
  intros R Nd a b Hc. pose proof (cycle_fst _ _ _ Hc) as Ha. pose proof (cycle_snd _ _ _ Hc) as Hb.
  apply NoDup_cons in Nd as [Hp Nd].
  assert (Sa : is_Some (c !! a)) by (apply (ring_in c (p :: l)); [done|set_solver]).
  assert (Sb : is_Some (c !! b)) by (apply (ring_in c (p :: l)); [done|set_solver]).
  assert (D : (a, b) = (List.last l p, hd p l) \/
              ((a, b) ∈ cycle (p :: l) /\ a <> List.last l p /\ b <> hd p l)).
  { destruct l as [|h l _] using rev_ind; [by apply elem_of_nil in Hc|]. rewrite cycle_snoc in Hc.
    apply elem_of_app in Hc as [Hc|[= -> ->]%list_elem_of_singleton]; [right|left].
    - rewrite last_last. split_and!.
      + rewrite cycle_cons, links_app. simpl. apply elem_of_cons. right. apply elem_of_app. by left.
      + intros ->. apply links_fst in Hc. apply NoDup_app in Nd as (_ & Nd & _). apply (Nd h Hc). set_solver.
      + intros ->. destruct l as [|y l]; [by apply elem_of_nil in Hc|]. simpl in Nd, Hc |- *.
        apply NoDup_cons in Nd as [Ny Nd]. apply elem_of_cons in Hc as [[= _ E]|Hc].
        * destruct l; simpl in E; subst; apply Ny; set_solver.
        * apply links_snd in Hc as [Hc| ->]; apply Ny; [|set_solver]. destruct l; [by apply elem_of_nil in Hc|].
          simpl in Hc. set_solver.
    - rewrite last_last. by destruct l. }
  rewrite !take_out_lookup. destruct Sa as [na Ea], Sb as [nb Eb]. rewrite Ea, Eb. simpl.
  destruct D as [[= -> ->]|(Hc' & Da & Db)].
  - rewrite (decide_True (P := hd p l = hd p l)) by done. rewrite (decide_True (P := List.last l p = List.last l p)) by done.
    split; case_decide; simpl; congruence.
  - destruct (R a b Hc') as [R1 R2]. rewrite Ea in R1. rewrite Eb in R2. simpl in R1, R2.
    rewrite (decide_False (P := a = List.last l p)) by done. rewrite (decide_False (P := b = hd p l)) by done.
    split; case_decide; simpl; congruence.
Qed.

Lemma take_out_comm p l c :
  alter (with_right (hd p l)) (List.last l p) (alter (with_left (List.last l p)) (hd p l) c) = take_out p l c.
Proof.
  apply map_eq. intros q. unfold take_out. rewrite !lookup_alter_cell. destruct (c !! q); [|done]. simpl.
  by repeat case_decide.
Qed.

(** ** What the pointer manipulations do *)

Lemma alone_ring c p : is_Some (c !! p) ->
  ring (alter (with_right p) p (alter (with_left p) p c)) [p] /\
  same_bodies c (alter (with_right p) p (alter (with_left p) p c)) /\
  same_outside [p] c (alter (with_right p) p (alter (with_left p) p c)).
Proof.
  intros [n E]. split_and!.
  - apply ring_self. exists (with_right p (with_left p n)). rewrite !lookup_alter_cell, E. simpl. by rewrite !decide_True.
  - etransitivity; by apply alter_links.
  - intros q Hq. rewrite !lookup_alter_cell. destruct (c !! q); [|done]. simpl. by rewrite !decide_False by set_solver.
Qed.

Lemma alone_in_ring_ok m p : is_Some (fcells m !! p) ->
  alone_in_ring m p = Ok (Memory (alter (with_right p) p (alter (with_left p) p (fcells m))) (fcalls m)).
Proof.
  intros E. unfold alone_in_ring. rewrite upd_ok by done. cbn [mbind res_bind]. by rewrite upd_ok by (simpl; by apply alter_some).
Qed.

Lemma neighbours_in l p q : q = hd p l \/ q = List.last l p -> q ∈ p :: l.
Proof. intros [->| ->]; (destruct l as [|h l]; [set_solver|]); [set_solver|]. pose proof (last_in h l p). set_solver. Qed.

Lemma unlink_node_ok m p l : ring (fcells m) (p :: l) ->
  unlink_node m p = Ok (Memory (take_out p l (fcells m)) (fcalls m)).
Proof.
  intros R. destruct (ring_head _ _ _ R) as (n & E & Er & El). unfold unlink_node.
  assert (In : forall q, q ∈ p :: l -> is_Some (fcells m !! q)) by (intros; by eapply ring_in).
  rewrite (load_cell_ok m p n E). cbn [mbind res_bind]. rewrite El, Er, upd_ok by (apply In, neighbours_in; by right).
  cbn [mbind res_bind]. set (m1 := Memory _ _).
  assert (E' : exists n', fcells m1 !! p = Some n' /\ fb_right n' = hd p l /\ fb_left n' = List.last l p).
  { simpl. rewrite lookup_alter_cell, E. simpl. eexists. split; [done|]. by case_decide. }
  destruct E' as (n' & E' & Er' & El'). rewrite (load_cell_ok m1 p n' E'). cbn [mbind res_bind]. rewrite Er', El'.
  rewrite upd_ok; [done|]. simpl. apply alter_some, In, neighbours_in. by left.
Qed.

(** Insertion in the three orders of assignments that the code has. *)
Lemma place_after_left_first x r p c : p <> x -> alter (with_right p) x (alter (with_left p) r
    (alter (with_right r) p (alter (with_left x) p c))) = place_after x r p c.
Proof.
  intros Hp. apply map_eq. intros q. unfold place_after. rewrite !lookup_alter_cell. destruct (c !! q); [|done]. simpl.
  by repeat case_decide.
Qed.
Lemma place_after_right_first x r p c : p <> x -> alter (with_right p) x (alter (with_left p) r
    (alter (with_left x) p (alter (with_right r) p c))) = place_after x r p c.
Proof.
  intros Hp. apply map_eq. intros q. unfold place_after. rewrite !lookup_alter_cell. destruct (c !! q); [|done]. simpl.
  by repeat case_decide.
Qed.
Lemma place_after_right_left x r p c : p <> r -> alter (with_right p) x (alter (with_left x) p
    (alter (with_left p) r (alter (with_right r) p c))) = place_after x r p c.
Proof.
  intros Hp. apply map_eq. intros q. unfold place_after. rewrite !lookup_alter_cell. destruct (c !! q); [|done]. simpl.
  repeat case_decide; subst; done.
Qed.

Section Insert.
Context (m : memory T) (x p : addr) (l : list addr).
Hypothesis R : ring (fcells m) (x :: l).
Hypothesis Hp : p ∉ x :: l.
Hypothesis Sp : is_Some (fcells m !! p).
Let m' := Memory (place_after x (hd x l) p (fcells m)) (fcalls m).

Lemma insert_sides : p <> x /\ p <> hd x l /\ is_Some (fcells m !! x) /\ is_Some (fcells m !! hd x l).
Proof.
  assert (In : forall q, q ∈ x :: l -> is_Some (fcells m !! q)) by (intros; by eapply ring_in).
  split_and!; [set_solver|destruct l; set_solver|apply In; set_solver|apply In, neighbours_in; by left].
Qed.

Lemma insert_right_ok : insert_right m x p = Ok m'.
Proof.
  destruct insert_sides as (Px & Pr & Sx & Sr), (ring_head _ _ _ R) as (n & E & Er & _), Sp as [np Ep].
  unfold insert_right. rewrite (load_cell_ok m x n E). cbn [mbind res_bind]. rewrite Er, upd_ok by done. cbn [mbind res_bind].
  set (m1 := Memory _ _). assert (E1 : fcells m1 !! p = Some (with_right (hd x l) np)) by (simpl; by rewrite lookup_alter_eq, Ep).
  rewrite (load_cell_ok m1 p _ E1). cbn [mbind res_bind with_right fb_right].
  rewrite upd_ok by (simpl; by rewrite !alter_some). cbn [mbind res_bind fcells fcalls m1].
  rewrite upd_ok by (simpl; by rewrite !alter_some). cbn [mbind res_bind fcells fcalls].
  rewrite upd_ok by (simpl; by rewrite !alter_some). cbn [fcells fcalls]. unfold m'. by rewrite place_after_right_left.
Qed.

Lemma insert_after_ok : insert_after m x p = Ok m'.
Proof.
  destruct insert_sides as (Px & Pr & Sx & Sr), (ring_head _ _ _ R) as (n & E & Er & _).
  unfold insert_after. rewrite (load_cell_ok m x n E). cbn [mbind res_bind]. rewrite Er, upd_ok by done.
  cbn [mbind res_bind fcells fcalls]. rewrite upd_ok by (simpl; by rewrite !alter_some). cbn [mbind res_bind fcells fcalls].
  set (m1 := Memory _ _). assert (E1 : fcells m1 !! x = Some n) by (simpl; by rewrite !lookup_alter_ne).
  rewrite (load_cell_ok m1 x n E1). cbn [mbind res_bind]. rewrite Er, upd_ok by (simpl; by rewrite !alter_some).
  cbn [mbind res_bind fcells fcalls m1]. rewrite upd_ok by (simpl; by rewrite !alter_some). cbn [fcells fcalls].
  unfold m'. by rewrite place_after_right_first.
Qed.

Lemma move_after_ok : move_after m x p = Ok m'.
Proof.
  destruct insert_sides as (Px & Pr & Sx & Sr), (ring_head _ _ _ R) as (n & E & Er & _).
  unfold move_after. rewrite upd_ok by done. cbn [mbind res_bind]. set (m0 := Memory _ _).
  assert (E0 : fcells m0 !! x = Some n) by (simpl; by rewrite lookup_alter_ne).
  rewrite (load_cell_ok m0 x n E0). cbn [mbind res_bind]. rewrite Er, upd_ok by (simpl; by rewrite !alter_some).
  cbn [mbind res_bind fcells fcalls m0]. set (m1 := Memory _ _).
  assert (E1 : fcells m1 !! x = Some n) by (simpl; by rewrite !lookup_alter_ne).
  rewrite (load_cell_ok m1 x n E1). cbn [mbind res_bind]. rewrite Er, upd_ok by (simpl; by rewrite !alter_some).
  cbn [mbind res_bind fcells fcalls m1]. rewrite upd_ok by (simpl; by rewrite !alter_some). cbn [fcells fcalls].
  unfold m'. by rewrite place_after_left_first.
Qed.
End Insert.
End Rings.
