(* ===== verification/FibForest.v ===== *)
(** The trees of a Fibonacci heap.

    [forest c C roots kids]: the nodes with the contents [C] (address to key and value) form
    trees with the given roots; [kids a] lists the children of [a] in the order of their ring,
    from the one that [a] points to; no child's key is below its parent's.  Nothing is said
    about the links among the roots and about their parents, so that the predicate also
    describes the heap in the middle of an operation.

    The operations on trees: making a root the child of another, forgetting trees, new roots. *)

From S2P Require Import Prelude Constants Records Chains Doubles DoubleOrder FibHeap FibRing.
From Stdlib Require Import ZArith Lia.
From stdpp Require Import base list list_numbers option fin_maps gmap relations.

#[local] Open Scope Z_scope.

Section Forest.
Context {T : Type}.
Implicit Types (c : gmap addr (fb_node T)) (m : memory T) (n : fb_node T) (C : gmap addr (Z * T)) (l ls roots : list addr)
  (kids : addr -> list addr) (p q x y a b r : addr).

Definition below C a b : Prop :=
  exists ka va kb vb, C !! a = Some (ka, va) /\ C !! b = Some (kb, vb) /\ rank ka <= rank kb.
Definition kid_of C kids b a : Prop := is_Some (C !! a) /\ b ∈ kids a.

Record forest c C roots kids : Prop := Forest {
  fo_null : c !! NULL = None;
  fo_node : forall a k v, C !! a = Some (k, v) ->
    (fb_key <$> c !! a) = Some k /\ (fb_value <$> c !! a) = Some v /\
    (fb_degree <$> c !! a) = Some (Z.of_nat (length (kids a))) /\ (fb_child <$> c !! a) = Some (hd NULL (kids a));
  fo_num : forall a k v, C !! a = Some (k, v) -> is_num k;
  fo_ring : forall a, is_Some (C !! a) -> NoDup (kids a) /\ ring c (kids a);
  fo_kid : forall a b, is_Some (C !! a) -> b ∈ kids a ->
    (b ∉ roots) /\ (fb_parent <$> c !! b) = Some a /\ below C a b;
  fo_roots : NoDup roots /\ forall a, a ∈ roots -> is_Some (C !! a);
  fo_cover : forall b, is_Some (C !! b) -> exists r, r ∈ roots /\ rtc (kid_of C kids) b r }.

(** ** Consequences *)

Lemma below_refl C a : is_Some (C !! a) -> below C a a.
Proof. intros [[k v] E]. exists k, v, k, v. split_and!; done. Qed.
Lemma below_trans C a b x : below C a b -> below C b x -> below C a x.
Proof.
  intros (ka & va & kb & vb & E1 & E2 & L1) (kb' & vb' & kx & vx & E3 & E4 & L2). simplify_eq.
  exists ka, va, kx, vx. split_and!; try done. lia.
Qed.
Lemma below_some C a b : below C a b -> is_Some (C !! a) /\ is_Some (C !! b).
Proof. intros (ka & va & kb & vb & E1 & E2 & _). eauto. Qed.

Section Facts.
Context {c C roots kids} (F : forest c C roots kids).

Lemma fo_cell a : is_Some (C !! a) -> is_Some (c !! a) /\ a <> NULL.
Proof.
  intros [[k v] E]. destruct (fo_node _ _ _ _ F a k v E) as (K & _). apply fmap_Some in K as (n & En & _).
  split; [eauto|]. intros ->. by rewrite (fo_null _ _ _ _ F) in En.
Qed.

Lemma fo_kid_some a b : is_Some (C !! a) -> b ∈ kids a -> is_Some (C !! b).
Proof. intros Ha Hb. destruct (fo_kid _ _ _ _ F a b Ha Hb) as (_ & _ & B). by apply below_some in B as [_ ?]. Qed.

Lemma fo_kids_disjoint a a' b : is_Some (C !! a) -> is_Some (C !! a') -> b ∈ kids a -> b ∈ kids a' -> a = a'.
Proof.
  intros Ha Ha' Hb Hb'. destruct (fo_kid _ _ _ _ F a b Ha Hb) as (_ & P & _).
  destruct (fo_kid _ _ _ _ F a' b Ha' Hb') as (_ & P' & _). congruence.
Qed.

Lemma fo_root_cell r : r ∈ roots -> is_Some (c !! r) /\ r <> NULL.
Proof. intros Hr. apply fo_cell. by apply (fo_roots _ _ _ _ F). Qed.

(** Every key is at least that of the root of its tree. *)
Lemma fo_rtc_below b r : is_Some (C !! b) -> rtc (kid_of C kids) b r -> below C r b.
Proof.
  intros Hb P. revert Hb. induction P as [b|b a r [Ha Hk] P IH]; intros Hb; [by apply below_refl|].
  eapply below_trans; [by apply IH|]. by apply (fo_kid _ _ _ _ F).
Qed.

(** A node without a parent among the nodes is a root. *)
Lemma fo_is_root b : is_Some (C !! b) -> (forall a, is_Some (C !! a) -> b ∉ kids a) -> b ∈ roots.
Proof.
  intros Hb Hn. destruct (fo_cover _ _ _ _ F b Hb) as (r & Hr & P).
  inversion P as [|? a ? [Ha Hk] P' E]; subst; [done|]. by destruct (Hn a Ha).
Qed.
End Facts.

(** ** Changes that do not concern the trees *)

Definition links n : addr * addr := (fb_left n, fb_right n).

Lemma ring_alter f p c ls : (forall n, links (f n) = links n) -> ring (alter f p c) ls <-> ring c ls.
Proof.
  intros Hf. assert (E : forall q, fb_right <$> alter f p c !! q = fb_right <$> c !! q /\
                                   fb_left <$> alter f p c !! q = fb_left <$> c !! q).
  { intros q. rewrite lookup_alter_cell. destruct (c !! q) as [n|]; [|done]. simpl. case_decide; [|done].
    specialize (Hf n). unfold links in Hf. by injection Hf as -> ->. }
  unfold ring. setoid_rewrite (fun q => proj1 (E q)). setoid_rewrite (fun q => proj2 (E q)). done.
Qed.

Lemma field_alter {B} (g : fb_node T -> B) f p c q :
  g <$> alter f p c !! q = (fun n => if decide (q = p) then g (f n) else g n) <$> c !! q.
Proof. rewrite lookup_alter_cell. destruct (c !! q); [|done]. simpl. by case_decide. Qed.

(** A field that an update does not set. *)
Lemma field_alter_same {B} (g : fb_node T -> B) f p c q : (forall n, g (f n) = g n) -> g <$> alter f p c !! q = g <$> c !! q.
Proof. intros H. rewrite field_alter. destruct (c !! q); [|done]. simpl. case_decide; by rewrite ?H. Qed.

(** New links: the trees stay if the rings of children do. *)
Lemma forest_links c c' C roots kids : forest c C roots kids -> same_bodies c c' ->
  (forall a, is_Some (C !! a) -> ring c' (kids a)) -> forest c' C roots kids.
Proof.
  intros F B Rg.
  assert (Fd : forall {X} (f : fb_node T -> X) q, (forall n n', body n = body n' -> f n = f n') -> f <$> c' !! q = f <$> c !! q).
  { intros X f q Hf. by apply same_body_field. }
  assert (B1 : forall n n', body n = body n' -> fb_key n = fb_key n' /\ fb_value n = fb_value n' /\ fb_degree n = fb_degree n' /\
    fb_child n = fb_child n' /\ fb_parent n = fb_parent n') by (unfold body; intros n n' [= -> -> -> -> -> _]; done).
  split; try apply F.
  - pose proof (fo_null _ _ _ _ F) as N. pose proof (same_bodies_some c c' NULL B) as S. rewrite N in S.
    destruct (c' !! NULL); [|done]. by destruct (proj1 S (ex_intro _ _ eq_refl)).
  - intros a k v E. rewrite !Fd by (intros; by apply B1). by apply F.
  - intros a Ha. split; [by apply F|by apply Rg].
  - intros a b Ha Hb. rewrite Fd by (intros; by apply B1). by apply F.
Qed.

Lemma forest_perm c C roots roots' kids : roots ≡ₚ roots' -> forest c C roots kids -> forest c C roots' kids.
Proof.
  intros P F. split; try apply F.
  - intros a b Ha Hb. rewrite <- P. by apply F.
  - split; [rewrite <- P|intros a; rewrite <- P]; apply F.
  - intros b Hb. destruct (fo_cover _ _ _ _ F b Hb) as (r & Hr & Pa). exists r. by rewrite <- P.
Qed.

(** A ring of roots is not touched by changes outside of the roots. *)
Lemma same_outside_ring ls ls' c c' : same_outside ls c c' -> ring c ls' -> (forall q, q ∈ ls' -> q ∉ ls) -> ring c' ls'.
Proof. intros S R D. eapply ring_ext; [done|]. intros q Hq. apply S. by apply D. Qed.

(** ** Making a root the child of another *)

(** The ring of children after an insertion to the right of the first. *)
Definition insert_kid y ls : list addr := match ls with [] => [y] | h :: ls' => h :: y :: ls' end.
Definition add_kid kids x y : addr -> list addr := fun a => if decide (a = x) then insert_kid y (kids a) else kids a.

Lemma insert_kid_perm y ls : insert_kid y ls ≡ₚ y :: ls.
Proof. destruct ls; simpl; [done|]. apply Permutation_swap. Qed.

Section MakeChild.
Context (m : memory T) (C : gmap addr (Z * T)) (l : list addr) (kids : addr -> list addr) (x y : addr).
Let c := fcells m.
Hypothesis F : forest c C (y :: l) kids.
Hypothesis Rg : ring c (y :: l).
Hypothesis Hx : x ∈ l.
Hypothesis Le : below C x y.
Hypothesis Deg : Z.of_nat (length (kids x)) < 2 ^ 32 - 1.

(** The links after [y] has left the ring of roots and entered that of the children of [x]. *)
Let c1 := alter (with_parent x) y (take_out y l c).
Let c3 := match kids x with
          | [] => alter (with_right y) y (alter (with_left y) y (alter (with_child y) x c1))
          | h :: ks => place_after h (hd h ks) y c1
          end.
Let c' := alter (with_degree (Z.of_nat (length (kids x)) + 1)) x (alter (with_mark false) y c3).

Lemma mc_facts : NoDup (y :: l) /\ is_Some (C !! x) /\ is_Some (C !! y) /\ x <> y /\
  (forall a, is_Some (C !! a) -> (y ∉ kids a) /\ (x ∉ kids a) /\ forall q, q ∈ kids a -> q ∉ y :: l).
Proof.
  destruct (fo_roots _ _ _ _ F) as [Nd Sm]. split_and!; [done|apply Sm; set_solver|apply Sm; set_solver| |].
  - intros ->. apply NoDup_cons in Nd as [? _]. done.
  - intros a Ha. assert (K : forall q, q ∈ kids a -> q ∉ y :: l) by (intros q Hq; by apply (fo_kid _ _ _ _ F a q)).
    split_and!; [intros Hy; apply (K y Hy); set_solver|intros Hy; apply (K x Hy); set_solver|exact K].
Qed.

Lemma mc_c1 : ring c1 l /\ forall a, is_Some (C !! a) -> ring c1 (kids a).
Proof.
  destruct mc_facts as (Nd & Sx & Sy & Nxy & K). unfold c1. split.
  - apply ring_alter; [done|]. by apply take_out_ring.
  - intros a Ha. apply ring_alter; [done|]. eapply same_outside_ring; [by apply take_out_outside|by apply (fo_ring _ _ _ _ F)|].
    intros q Hq. apply (K a Ha) in Hq. set_solver.
Qed.

(** [c3] has the links right. *)
Lemma mc_c3 : ring c3 l /\ (forall a, is_Some (C !! a) -> ring c3 (add_kid kids x y a)) /\
  (forall a, a <> x -> a <> y -> a ∉ kids x -> a ∉ l -> c3 !! a = c !! a) /\
  (forall q, is_Some (c3 !! q) <-> is_Some (c !! q)).
Proof.
  destruct mc_facts as (Nd & Sx & Sy & Nxy & K), mc_c1 as [R1 Rk]. destruct (K x Sx) as (Ky & Kx & Kr).
  assert (O1 : forall q, q ∉ y :: l -> c1 !! q = c !! q).
  { intros q Hq. unfold c1. rewrite lookup_alter_ne by set_solver. apply (take_out_outside y l c Rg). set_solver. }
  assert (S1 : forall q, is_Some (c1 !! q) <-> is_Some (c !! q)).
  { intros q. unfold c1. rewrite alter_some. apply same_bodies_some, take_out_bodies. }
  assert (Cy : is_Some (c1 !! y)) by (apply S1, (fo_cell F y Sy)).
  assert (Disj : forall a q, is_Some (C !! a) -> a <> x -> q ∈ kids a -> q ∉ y :: kids x).
  { intros a q Ha Hax Hq [->|Hq']%elem_of_cons; [by destruct (K a Ha) as [Hn _]|].
    apply Hax. by eapply (fo_kids_disjoint F). }
  assert (Ly : y ∉ l) by (by apply NoDup_cons in Nd as [? _]).
  unfold c3, add_kid. destruct (kids x) as [|h ks] eqn:Ek.
  - set (c2 := alter (with_child y) x c1). assert (Cy2 : is_Some (c2 !! y)) by (by apply alter_some).
    destruct (alone_ring c2 y Cy2) as (A1 & A2 & A3). set (c3' := alter (with_right y) y _) in *.
    assert (R2 : forall ls, ring c1 ls -> y ∉ ls -> ring c3' ls).
    { intros ls Rl Hl. eapply same_outside_ring; [exact A3|by apply ring_alter|]. intros q Hq. set_solver. }
    split_and!; [by apply R2| | |].
    + intros a Ha. case_decide as D; [subst a; by rewrite Ek|]. apply R2; [by apply Rk|by apply (K a Ha)].
    + intros a Hax Hay _ Hal. rewrite A3 by set_solver. unfold c2. rewrite lookup_alter_ne by done. apply O1. set_solver.
    + intros q. rewrite <- S1. unfold c3', c2. by rewrite !alter_some.
  - pose proof (place_after_outside h (hd h ks) y c1) as O.
    assert (O2 : forall q, q ∉ y :: kids x -> place_after h (hd h ks) y c1 !! q = c1 !! q).
    { intros q Hq. rewrite Ek in Hq. apply O. destruct ks; set_solver. }
    assert (Nk : NoDup (h :: ks)) by (rewrite <- Ek; by apply (fo_ring _ _ _ _ F)).
    split_and!.
    + eapply ring_ext; [exact R1|]. intros q Hq. apply O2. intros [->|Hk]%elem_of_cons; [done|].
      rewrite Ek in Hk. apply (Kr q Hk). set_solver.
    + intros a Ha. case_decide as D.
      * subst a. rewrite Ek. simpl. apply place_after_ring; [rewrite <- Ek; by apply Rk|done|done|done].
      * eapply ring_ext; [by apply Rk|]. intros q Hq. apply O2. rewrite Ek. by apply (Disj a).
    + intros a Hax Hay Hak Hal. rewrite O2 by (rewrite Ek; set_solver). apply O1. set_solver.
    + intros q. rewrite <- S1. apply same_bodies_some, place_after_bodies.
Qed.

Lemma make_child_run : fib_heap_make_child m x y = Ok (Memory c' (fcalls m)).
Proof.
  destruct mc_facts as (Nd & Sx & Sy & Nxy & K), mc_c1 as [R1 Rk]. destruct (K x Sx) as (Ky & Kx & Kr).
  destruct (fo_cell F x Sx) as [Cx Ux], (fo_cell F y Sy) as [Cy Uy].
  unfold fib_heap_make_child. rewrite (proj2 (Z.eqb_neq _ _) Ux), (proj2 (Z.eqb_neq _ _) Uy). cbn [orb].
  rewrite (unlink_node_ok m y l Rg). cbn [mbind res_bind].
  assert (S1 : forall q, is_Some (c1 !! q) <-> is_Some (c !! q)).
  { intros q. unfold c1. rewrite alter_some. apply same_bodies_some, take_out_bodies. }
  rewrite upd_ok by (cbn [fcells]; by apply (same_bodies_some c _ y (take_out_bodies y l c))).
  cbn [mbind res_bind fcells fcalls]. change (alter (with_parent x) y (take_out y l (fcells m))) with c1.
  destruct Sx as [[k v] Ex]. destruct (fo_node _ _ _ _ F x k v Ex) as (_ & _ & Dx & Ch).
  assert (Fx : forall f : fb_node T -> Z, (forall n n', body n = body n' -> f n = f n') -> (forall n, f (with_parent x n) = f n) ->
    f <$> c1 !! x = f <$> c !! x).
  { intros f Hf Hp. unfold c1. rewrite field_alter_same by done. apply same_body_field; [done|apply take_out_bodies]. }
  assert (Ch1 : fb_child <$> c1 !! x = Some (hd NULL (kids x))).
  { rewrite Fx; [done|unfold body; by intros n n' [= _ _ _ ? _ _]|done]. }
  assert (Dx1 : fb_degree <$> c1 !! x = Some (Z.of_nat (length (kids x)))).
  { rewrite Fx; [done|unfold body; by intros n n' [= _ _ _ _ ? _]|done]. }
  apply fmap_Some in Ch1 as (nx & Enx & Hch). rewrite Enx in Dx1. injection Dx1 as Dx1.
  rewrite (load_cell_ok (Memory c1 (fcalls m)) x nx Enx). cbn [mbind res_bind]. rewrite <- Hch.
  assert (Cy1 : is_Some (c1 !! y)) by (by apply S1).
  assert (Step : (if negb (hd NULL (kids x) =? NULL) then insert_right (Memory c1 (fcalls m)) (hd NULL (kids x)) y
                  else m0 ← upd (Memory c1 (fcalls m)) x (with_child y); alone_in_ring m0 y) = Ok (Memory c3 (fcalls m)) /\
                 fb_degree <$> c3 !! x = Some (Z.of_nat (length (kids x)))).
  { unfold c3. destruct (kids x) as [|h ks] eqn:Ek.
    - cbn [hd]. rewrite Z.eqb_refl. cbn [negb]. rewrite upd_ok by (cbn [fcells]; by apply S1). cbn [mbind res_bind fcells fcalls].
      rewrite alone_in_ring_ok by (cbn [fcells]; by rewrite alter_some). split; [done|].
      rewrite !field_alter_same by done. rewrite Enx. cbn. by rewrite Dx1.
    - cbn [hd]. assert (Hh : h ∈ kids x) by (rewrite Ek; set_solver).
      assert (Uh : h <> NULL) by (apply (fo_cell F h); apply (fo_kid_some F x h); eauto).
      rewrite (proj2 (Z.eqb_neq _ _) Uh). cbn [negb]. split.
      + rewrite (insert_right_ok (Memory c1 (fcalls m)) h y ks); [done|cbn [fcells]; rewrite <- Ek; apply Rk; eauto|done|done].
      + rewrite (same_body_field fb_degree c1); [rewrite Enx; cbn; by rewrite Dx1|unfold body; by intros n n' [= _ _ _ _ ? _]|].
        apply place_after_bodies. }
  destruct Step as [-> D3]. cbn [mbind res_bind]. destruct mc_c3 as (_ & _ & _ & S3).
  rewrite upd_ok by (cbn [fcells]; by apply S3). cbn [mbind res_bind fcells fcalls].
  assert (D4 : fb_degree <$> alter (with_mark false) y c3 !! x = Some (Z.of_nat (length (kids x)))) by (by rewrite field_alter_same).
  apply fmap_Some in D4 as (n4 & E4 & D4).
  rewrite (load_cell_ok (Memory (alter (with_mark false) y c3) (fcalls m)) x n4 E4). cbn [mbind res_bind].
  rewrite upd_ok by (cbn [fcells]; rewrite alter_some; by apply S3). cbn [fcells fcalls].
  rewrite <- D4. unfold u32. rewrite Z.mod_small by lia. done.
Qed.

(** The fields of a node afterwards. *)
Lemma mc_field {X} (f : fb_node T -> X) q : (forall n n', body n = body n' -> f n = f n') ->
  (forall z n, f (with_child z n) = f n) -> (forall z n, f (with_left z n) = f n) -> (forall z n, f (with_right z n) = f n) ->
  (q <> y \/ forall z n, f (with_parent z n) = f n) -> (q <> y \/ forall z n, f (with_mark z n) = f n) ->
  (q <> x \/ forall z n, f (with_degree z n) = f n) -> f <$> c' !! q = f <$> c !! q.
Proof.
  intros Hb Hc Hl Hr Hp Hm Hd. unfold c'. transitivity (f <$> c3 !! q).
  { assert (Hd' : forall z n, q = x -> f (with_degree z n) = f n) by (intros z n E; by destruct Hd as [|Hd']; [|rewrite Hd']).
    assert (Hm' : forall z n, q = y -> f (with_mark z n) = f n) by (intros z n E; by destruct Hm as [|Hm']; [|rewrite Hm']).
    rewrite !field_alter. destruct (c3 !! q); [|done]. simpl. f_equal.
    destruct (decide (q = y)) as [E|E], (decide (q = x)) as [E'|E']; by rewrite ?Hd', ?Hm'. }
  transitivity (f <$> c1 !! q).
  { unfold c3. destruct (kids x) as [|h ks]; [by rewrite !field_alter_same|]. apply same_body_field; [done|apply place_after_bodies]. }
  unfold c1. rewrite field_alter. transitivity (f <$> take_out y l c !! q).
  - destruct (take_out y l c !! q); [|done]. simpl. f_equal. case_decide; [|done]. by destruct Hp as [|Hp]; [|rewrite Hp].
  - apply same_body_field; [done|apply take_out_bodies].
Qed.

Lemma mc_some q : is_Some (c' !! q) <-> is_Some (c !! q).
Proof. unfold c'. rewrite !alter_some. apply mc_c3. Qed.

Lemma mc_parent : fb_parent <$> c' !! y = Some x.
Proof.
  destruct mc_facts as (_ & _ & Sy & Nxy & _), (fo_cell F y Sy) as [[n E] _]. unfold c'.
  rewrite !field_alter_same by done.
  assert (E1 : fb_parent <$> c1 !! y = Some x).
  { unfold c1. rewrite field_alter. destruct (proj2 (same_bodies_some c _ y (take_out_bodies y l c)) (ex_intro _ n E)) as [n' ->].
    simpl. by rewrite decide_True. }
  unfold c3. destruct (kids x) as [|h ks]; [by rewrite !field_alter_same|].
  rewrite (same_body_field fb_parent c1); [done|unfold body; by intros ?? [= _ _ ? _ _ _]|apply place_after_bodies].
Qed.

Lemma mc_child : fb_child <$> c' !! x = Some (hd NULL (add_kid kids x y x)).
Proof.
  destruct mc_facts as (_ & [[k v] Ex] & _ & Nxy & _). destruct (fo_node _ _ _ _ F x k v Ex) as (_ & _ & _ & Ch).
  assert (E1 : fb_child <$> c1 !! x = Some (hd NULL (kids x))).
  { unfold c1. rewrite field_alter_same by done.
    rewrite (same_body_field fb_child c); [done|unfold body; by intros ?? [= _ _ _ ? _ _]|apply take_out_bodies]. }
  unfold c', add_kid. rewrite decide_True, !field_alter_same by done. unfold c3. destruct (kids x) as [|h ks].
  - rewrite !field_alter_same by done. rewrite field_alter. destruct (c1 !! x); [|done]. simpl. by rewrite decide_True.
  - rewrite (same_body_field fb_child c1); [done|unfold body; by intros ?? [= _ _ _ ? _ _]|apply place_after_bodies].
Qed.

Lemma mc_degree : fb_degree <$> c' !! x = Some (Z.of_nat (length (add_kid kids x y x))).
Proof.
  destruct mc_facts as (_ & Sx & _). destruct (fo_cell F x Sx) as [Cx _]. apply mc_some in Cx as [n' En'].
  unfold c', add_kid in *. rewrite decide_True by done. rewrite field_alter. rewrite lookup_alter_cell in En'.
  destruct (alter (with_mark false) y c3 !! x); [|done]. simpl. rewrite decide_True by done. simpl. f_equal.
  rewrite (Permutation_length (insert_kid_perm y (kids x))). simpl. lia.
Qed.

Lemma make_child_forest : forest c' C l (add_kid kids x y).
Proof.
  destruct mc_facts as (Nd & Sx & Sy & Nxy & K), mc_c3 as (_ & R3 & _ & _).
  assert (Mem : forall a b, b ∈ add_kid kids x y a <-> (a = x /\ b = y) \/ b ∈ kids a).
  { intros a b. unfold add_kid. case_decide as D; [|naive_solver]. rewrite (insert_kid_perm y). set_solver. }
  split.
  - pose proof (fo_null _ _ _ _ F) as N. destruct (c' !! NULL) eqn:E; [|done].
    destruct (proj1 (mc_some NULL) (ex_intro _ _ E)) as [? E']. congruence.
  - intros a k v Ea. destruct (fo_node _ _ _ _ F a k v Ea) as (N1 & N2 & N3 & N4). split_and!.
    + rewrite mc_field; try done; try (by right); unfold body; by intros ?? [= ? _ _ _ _ _].
    + rewrite mc_field; try done; try (by right); unfold body; by intros ?? [= _ ? _ _ _ _].
    + destruct (decide (a = x)) as [->|Na]; [apply mc_degree|]. unfold add_kid. rewrite decide_False by done.
      rewrite mc_field; try done; try (by right); try (by left); unfold body; by intros ?? [= _ _ _ _ ? _].
    + destruct (decide (a = x)) as [->|Na]; [apply mc_child|]. unfold add_kid. rewrite decide_False by done.
      destruct (decide (a = y)) as [->|Nay].
      { unfold c'. rewrite !field_alter_same by done. rewrite <- N4. transitivity (fb_child <$> c1 !! y).
        - unfold c3. destruct (kids x) as [|h ks].
          + rewrite !field_alter_same by done. rewrite field_alter. destruct (c1 !! y); [|done]. simpl. by rewrite decide_False by congruence.
          + apply same_body_field; [unfold body; by intros ?? [= _ _ _ ? _ _]|apply place_after_bodies].
        - unfold c1. rewrite field_alter_same by done.
          apply same_body_field; [unfold body; by intros ?? [= _ _ _ ? _ _]|apply take_out_bodies]. }
      unfold c'. rewrite !field_alter_same by done. rewrite <- N4. transitivity (fb_child <$> c1 !! a).
      * unfold c3. destruct (kids x) as [|h ks].
        -- rewrite !field_alter_same by done. rewrite field_alter. destruct (c1 !! a); [|done]. simpl. by rewrite decide_False.
        -- apply same_body_field; [unfold body; by intros ?? [= _ _ _ ? _ _]|apply place_after_bodies].
      * unfold c1. rewrite field_alter_same by done.
        apply same_body_field; [unfold body; by intros ?? [= _ _ _ ? _ _]|apply take_out_bodies].
  - apply F.
  - intros a Ha. split; [|unfold c'; apply ring_alter; [done|]; apply ring_alter; [done|]; by apply R3].
    unfold add_kid. case_decide as D; [|by apply (fo_ring _ _ _ _ F)].
    rewrite (insert_kid_perm y). apply NoDup_cons. split; [by apply (K a)|by apply (fo_ring _ _ _ _ F)].
  - intros a b Ha [[-> ->]|Hb]%Mem.
    + split_and!; [by apply NoDup_cons in Nd as [? _]|apply mc_parent|done].
    + destruct (fo_kid _ _ _ _ F a b Ha Hb) as (N1 & N2 & N3). split_and!; [set_solver| |done].
      rewrite mc_field; try done; try (by right); try (by left; set_solver); unfold body; by intros ?? [= _ _ ? _ _ _].
  - destruct (fo_roots _ _ _ _ F) as [_ S]. apply NoDup_cons in Nd as [_ Nd]. split; [done|]. intros a Ha. apply S. set_solver.
  - assert (Up : forall b r, rtc (kid_of C kids) b r -> rtc (kid_of C (add_kid kids x y)) b r).
    { induction 1 as [|b a r [H1 H2] P IH]; [done|]. eapply rtc_l; [|done]. split; [done|]. apply Mem. by right. }
    intros b Hb. destruct (fo_cover _ _ _ _ F b Hb) as (r & [->|Hr]%elem_of_cons & P); [|exists r; split; [done|by apply Up]].
    exists x. split; [done|]. eapply rtc_r; [by apply Up|]. split; [done|]. apply Mem. by left.
Qed.

Lemma make_child_ring : ring c' l.
Proof. unfold c'. do 2 (apply ring_alter; [done|]). apply mc_c3. Qed.

Lemma make_child_outside q : C !! q = None -> c' !! q = c !! q.
Proof.
  intros Hq. destruct mc_facts as (_ & Sx & Sy & _ & K), mc_c3 as (_ & _ & O & _).
  assert (Hs : forall a, is_Some (C !! a) -> q <> a) by (intros a [? ?] ->; congruence).
  unfold c'. rewrite !lookup_alter_ne by (apply not_eq_sym, Hs; done). apply O; [by apply Hs..| |].
  - intros Hk. by apply (Hs q); [apply (fo_kid_some F x)|].
  - intros Hl. by apply (Hs q); [apply (fo_roots _ _ _ _ F); set_solver|].
Qed.

Lemma make_child_parent q : q <> y -> fb_parent <$> c' !! q = fb_parent <$> c !! q.
Proof. intros Hq. apply mc_field; try done; try (by right); try (by left); unfold body; by intros ?? [= _ _ ? _ _ _]. Qed.
End MakeChild.
End Forest.
