(* ===== verification/FibHeapInv.v ===== *)
(** Fibonacci heaps: the representation, and insertion.

    [heap_rep m fh C roots kids]: the nodes with the contents [C] form a forest whose roots
    are a ring and have no parent, and the struct points to a root with a least key.  The
    number of nodes that the struct records is a field of its own: extraction can lose nodes
    (FibExtract.v), so that it may be larger than the number of nodes in the heap.

    [binomial kids C]: every node is the root of a binomial tree, as far as the numbers of
    children tell.  That holds as long as no key is decreased, and bounds the degrees. *)

From S2P Require Import Prelude Constants Records Chains Doubles DoubleOrder FibHeap FibRing FibForest.
From Stdlib Require Import ZArith Lia.
From stdpp Require Import base list list_numbers option fin_maps gmap relations.

#[local] Open Scope Z_scope.

Section HeapRep.
Context {T : Type}.
Implicit Types (c : gmap addr (fb_node T)) (m : memory T) (n : fb_node T) (C : gmap addr (Z * T)) (l ls roots : list addr)
  (kids : addr -> list addr) (p q x y a b r : addr) (fh : fib_heap).

Record heap_rep m fh C roots kids : Prop := HeapRep {
  hr_forest : forest (fcells m) C roots kids;
  hr_ring : ring (fcells m) roots;
  hr_parent : forall r, r ∈ roots -> fb_parent <$> fcells m !! r = Some NULL;
  hr_min : fh_min fh = hd NULL roots;
  hr_least : forall r, r ∈ roots -> below C (hd NULL roots) r }.

(** The number of nodes of binomial trees with the degrees of the given nodes. *)
Definition weight kids ls : Z := foldr (fun a s => 2 ^ Z.of_nat (length (kids a)) + s) 0 ls.
Definition binomial C kids : Prop :=
  forall a, is_Some (C !! a) -> 2 ^ Z.of_nat (length (kids a)) = weight kids (kids a) + 1.

Lemma weight_app kids l1 l2 : weight kids (l1 ++ l2) = weight kids l1 + weight kids l2.
Proof. induction l1 as [|a l1 IH]; simpl; [done|]. rewrite IH. lia. Qed.
Lemma weight_nonneg kids l : 0 <= weight kids l.
Proof. induction l as [|a l IH]; simpl; [done|]. pose proof (Z.pow_nonneg 2 (Z.of_nat (length (kids a)))). lia. Qed.
#[export] Instance weight_perm kids : Proper ((≡ₚ) ==> (=)) (weight kids).
Proof. intros l1 l2 P. induction P; simpl; lia. Qed.
Lemma weight_ext kids kids' l : (forall a, a ∈ l -> length (kids a) = length (kids' a)) -> weight kids l = weight kids' l.
Proof.
  induction l as [|a l IH]; simpl; intros H; [done|]. rewrite H by set_solver. rewrite IH; [done|]. intros; apply H. set_solver.
Qed.
Lemma weight_in kids l a : a ∈ l -> 2 ^ Z.of_nat (length (kids a)) <= weight kids l.
Proof.
  intros (l1 & l2 & ->)%list_elem_of_split. rewrite weight_app. simpl. pose proof (weight_nonneg kids l1).
  pose proof (weight_nonneg kids l2). lia.
Qed.

(** The root that the struct points to has a least key of all nodes. *)
Lemma least_of_all m fh C roots kids b : heap_rep m fh C roots kids -> is_Some (C !! b) -> below C (fh_min fh) b.
Proof.
  intros H Hb. rewrite (hr_min _ _ _ _ _ H).
  destruct (fo_cover _ _ _ _ (hr_forest _ _ _ _ _ H) b Hb) as (r & Hr & P).
  apply below_trans with r; [by apply (hr_least _ _ _ _ _ H)|]. exact (fo_rtc_below (hr_forest _ _ _ _ _ H) b r Hb P).
Qed.

Lemma roots_empty m fh C roots kids : heap_rep m fh C roots kids -> roots = [] <-> C = ∅.
Proof.
  intros H. split.
  - intros ->. apply map_empty. intros b. destruct (C !! b) eqn:E; [|done].
    destruct (fo_cover _ _ _ _ (hr_forest _ _ _ _ _ H) b) as (r & Hr & _); [eauto|]. by apply elem_of_nil in Hr.
  - intros ->. destruct roots as [|r l]; [done|].
    destruct (fo_roots _ _ _ _ (hr_forest _ _ _ _ _ H)) as [_ S]. destruct (S r) as [? E]; [set_solver|]. by rewrite lookup_empty in E.
Qed.

(** A heap in a memory that changes elsewhere. *)
Lemma heap_rep_frame m m' fh C roots kids : heap_rep m fh C roots kids ->
  (forall q, is_Some (C !! q) -> fcells m' !! q = fcells m !! q) -> fcells m' !! NULL = None -> heap_rep m' fh C roots kids.
Proof.
  intros [F Rg Pa Mi Le] K N.
  assert (Kr : forall r, r ∈ roots -> fcells m' !! r = fcells m !! r) by (intros r Hr; apply K; by apply (fo_roots _ _ _ _ F)).
  split; [split|..]; try done; try apply F.
  - intros a k v E. rewrite K by eauto. by apply (fo_node _ _ _ _ F).
  - intros a Ha. destruct (fo_ring _ _ _ _ F a Ha) as [Nd Ra]. split; [done|]. eapply ring_ext; [done|].
    intros q Hq. apply K. by apply (fo_kid_some F a).
  - intros a b Ha Hb. rewrite K by (by apply (fo_kid_some F a)). by apply (fo_kid _ _ _ _ F).
  - by apply (ring_ext (fcells m)).
  - intros r Hr. rewrite Kr by done. by apply Pa.
Qed.

(** ** Insertion *)

(** A new node without links joins the roots. *)
Lemma forest_new c C roots kids p k v : forest c C roots kids -> c !! p = None -> p <> NULL -> is_num k ->
  forest (<[p := FbNode k v NULL NULL NULL NULL 0 false]> c) (<[p := (k, v)]> C) (p :: roots)
    (fun a => if decide (a = p) then [] else kids a).
Proof.
  intros F Hp Up Nk. set (n := FbNode k v NULL NULL NULL NULL 0 false).
  assert (Cp : C !! p = None).
  { destruct (C !! p) eqn:E; [|done]. destruct (fo_cell F p) as [[? ?] _]; [eauto|congruence]. }
  assert (Old : forall a, is_Some (<[p:=(k, v)]> C !! a) -> a <> p -> is_Some (C !! a)).
  { intros a Ha Hap. by rewrite lookup_insert_ne in Ha. }
  assert (Bl : forall a b, below C a b -> below (<[p:=(k, v)]> C) a b).
  { intros a b (ka & va & kb & vb & E1 & E2 & L). exists ka, va, kb, vb.
    rewrite !lookup_insert_ne by congruence. done. }
  assert (Kp : forall a b, is_Some (C !! a) -> b ∈ kids a -> b <> p).
  { intros a b Ha Hb ->. destruct (fo_kid_some F a p Ha Hb) as [? ?]. congruence. }
  split.
  - rewrite lookup_insert_ne by done. apply (fo_null _ _ _ _ F).
  - intros a k' v' E. destruct (decide (a = p)) as [->|Hne].
    + rewrite lookup_insert_eq in E. injection E as <- <-. rewrite lookup_insert_eq. done.
    + rewrite lookup_insert_ne in E by done. rewrite lookup_insert_ne by done. by apply (fo_node _ _ _ _ F).
  - intros a k' v' E. destruct (decide (a = p)) as [->|Hne].
    + rewrite lookup_insert_eq in E. by injection E as <- <-.
    + rewrite lookup_insert_ne in E by done. by eapply (fo_num _ _ _ _ F).
  - intros a Ha. case_decide as D; [split; [constructor|apply ring_nil]|]. pose proof (Old a Ha D) as Old'.
    destruct (fo_ring _ _ _ _ F a Old') as [Nd Rg].
    split; [done|]. eapply ring_ext; [done|]. intros q Hq. rewrite lookup_insert_ne; [done|].
    intros ->. by apply (Kp a q).
  - intros a b Ha Hb. case_decide as D; [by apply elem_of_nil in Hb|]. specialize (Old a Ha D).
    destruct (fo_kid _ _ _ _ F a b Old Hb) as (N1 & N2 & N3). pose proof (Kp a b Old Hb) as Hbp.
    split_and!; [set_solver|by rewrite lookup_insert_ne|by apply Bl].
  - destruct (fo_roots _ _ _ _ F) as [Nd S]. split.
    + apply NoDup_cons. split; [|done]. intros Hr. destruct (S p Hr) as [? ?]. congruence.
    + intros a [->|Ha]%elem_of_cons; [rewrite lookup_insert_eq; eauto|]. destruct (S a Ha) as [y Ey].
      rewrite lookup_insert_ne by congruence. eauto.
  - intros b Hb. destruct (decide (b = p)) as [->|Hne]; [exists p; split; [set_solver|done]|].
    destruct (fo_cover _ _ _ _ F b (Old b Hb Hne)) as (r & Hr & P). exists r. split; [set_solver|].
    clear Hb Hne. induction P as [|b a r [H1 H2] P IH]; [done|]. eapply rtc_l; [|by apply IH]. split.
    + destruct H1 as [y Ey]. rewrite lookup_insert_ne by congruence. eauto.
    + rewrite decide_False; [done|]. intros ->. destruct H1. congruence.
Qed.

Lemma rep_fresh m fh C roots kids p : heap_rep m fh C roots kids -> fcells m !! p = None -> C !! p = None.
Proof.
  intros H E. destruct (C !! p) eqn:E'; [|done]. destruct (fo_cell (hr_forest _ _ _ _ _ H) p) as [[? ?] _]; [eauto|congruence].
Qed.

(** The address of a new node, in a memory that is not full. *)
Lemma next_addr_fresh `{Malloc} m : live m < malloc_capacity -> fcells m !! next_addr m = None /\ next_addr m <> NULL.
Proof.
  unfold live. rewrite <- (size_dom (D := gset addr)). intros R. unfold next_addr.
  split; [apply (not_elem_of_dom (D := gset addr)); by apply malloc_fresh|].
  pose proof (malloc_range (fcalls m) (dom (fcells m)) R). lia.
Qed.
Lemma alloc_ok `{Malloc} m (n : fb_node T) : live m < malloc_capacity ->
  alloc m n = Some (next_addr m, Memory (<[next_addr m := n]> (fcells m)) (fcalls m + 1)).
Proof. intros R. unfold alloc. by rewrite (proj2 (Z.ltb_lt _ _) R). Qed.
Lemma alloc_full `{Malloc} m (n : fb_node T) : malloc_capacity <= live m -> alloc m n = None.
Proof. intros R. unfold alloc. by rewrite (proj2 (Z.ltb_ge _ _) R). Qed.

Lemma live_insert c k p (n : fb_node T) : c !! p = None -> live (Memory (<[p := n]> c) k) = Z.of_nat (size c) + 1.
Proof. intros E. unfold live. cbn [fcells]. rewrite map_size_insert_None by done. lia. Qed.
Lemma live_same m m' : (forall q, is_Some (fcells m' !! q) <-> is_Some (fcells m !! q)) -> live m' = live m.
Proof.
  intros S. unfold live. rewrite <- !(size_dom (D := gset addr)). do 2 f_equal. apply set_eq. intros q.
  rewrite !elem_of_dom. apply S.
Qed.

(** The keys of two nodes, compared. *)
Lemma below_or_less C a b ka va kb vb : C !! a = Some (ka, va) -> C !! b = Some (kb, vb) -> is_num ka -> is_num kb ->
  if double_ltb kb ka then below C b a else below C a b.
Proof.
  intros Ea Eb Na Nb. rewrite (double_ltb_rank kb ka) by done. destruct (Z.ltb_spec (rank kb) (rank ka)).
  - exists kb, vb, ka, va. split_and!; [done..|lia].
  - exists ka, va, kb, vb. split_and!; done.
Qed.

Section Insert.
Context (m : memory T) (fh : fib_heap) (C : gmap addr (Z * T)) (roots : list addr) (kids : addr -> list addr).
Context `{Malloc} (k : Z) (v : T).
Hypothesis HR : heap_rep m fh C roots kids.
Hypothesis Nk : is_num k.
Hypothesis Lk : double_eqb k NEG_DBL_MAX = false.
Hypothesis Room : live m < malloc_capacity.

Let p := next_addr m.
Let n := FbNode k v NULL NULL NULL NULL 0 false.
Let C' := <[p := (k, v)]> C.
Let kids' a := if decide (a = p) then [] else kids a.

Lemma new_node_fresh : fcells m !! p = None /\ p <> NULL /\ C !! p = None.
Proof. destruct (next_addr_fresh m Room) as [Fr Up]. split_and!; [done..|]. by apply (rep_fresh _ _ _ _ _ p HR). Qed.

Lemma new_node_live c' j : same_bodies (<[p := n]> (fcells m)) c' -> live (Memory c' j) = live m + 1.
Proof.
  intros B. destruct new_node_fresh as (Fr & _ & _). unfold live at 2. rewrite <- (live_insert (fcells m) j p n Fr). apply live_same.
  intros q. cbn [fcells]. by apply (same_bodies_some _ c').
Qed.

(** The links of the new root may be anything. *)
Lemma insert_rep_links c' fh' roots' : roots' ≡ₚ p :: roots -> same_bodies (<[p := n]> (fcells m)) c' -> ring c' roots' ->
  same_outside (p :: roots) (<[p := n]> (fcells m)) c' -> fh_min fh' = hd NULL roots' ->
  (forall r, r ∈ roots' -> below C' (hd NULL roots') r) -> heap_rep (Memory c' (fcalls m + 1)) fh' C' roots' kids'.
Proof.
  intros P B Rg O Mi Le. destruct new_node_fresh as (Fr & Up & Cp). pose proof (hr_forest _ _ _ _ _ HR) as F.
  pose proof (forest_new _ _ _ _ p k v F Fr Up Nk) as F'. fold n C' kids' in F'.
  split; try done.
  - apply (forest_perm c' C' (p :: roots)); [done|]. eapply forest_links; [exact F'|exact B|]. intros a Ha.
    destruct (fo_ring _ _ _ _ F' a Ha) as [_ Ra]. eapply same_outside_ring; [exact O|exact Ra|].
    intros q Hq. by apply (fo_kid _ _ _ _ F' a q).
  - intros r Hr. cbn [fcells]. rewrite (same_body_field fb_parent (<[p:=n]> (fcells m))); [|unfold body; by intros ?? [= _ _ ? _ _ _]|done].
    rewrite P in Hr. apply elem_of_cons in Hr as [->|Hr]; [by rewrite lookup_insert_eq|].
    rewrite lookup_insert_ne; [by apply (hr_parent _ _ _ _ _ HR)|].
    intros <-. destruct (fo_root_cell F p Hr) as [[? E] _]. congruence.
Qed.

Lemma insert_run : exists m' fh' roots', fib_heap_insert m fh k v = Ok (m', fh') /\ heap_rep m' fh' C' roots' kids' /\ (roots' ≡ₚ p :: roots) /\ num_nodes fh' = u64 (num_nodes fh + 1) /\ live m' = live m + 1 /\
  (forall q, C' !! q = None -> fcells m' !! q = fcells m !! q).
Proof.
  destruct new_node_fresh as (Fr & Up & Cp). pose proof (hr_forest _ _ _ _ _ HR) as F.
  assert (Pr : p ∉ roots) by (intros Hr; destruct (fo_root_cell F p Hr) as [[? E] _]; congruence).
  assert (Out : forall c', same_outside (p :: roots) (<[p := n]> (fcells m)) c' ->
     forall q, C' !! q = None -> c' !! q = fcells m !! q).
  { intros c' O q Hq. assert (Hp : p <> q) by (intros <-; unfold C' in Hq; by rewrite lookup_insert_eq in Hq).
    unfold C' in Hq. rewrite lookup_insert_ne in Hq by done. rewrite O; [by rewrite lookup_insert_ne|].
    intros [->|Hr]%elem_of_cons; [done|]. destruct (fo_roots _ _ _ _ F) as [_ S]. destruct (S q Hr). congruence. }
  assert (Ep : <[p := n]> (fcells m) !! p = Some n) by apply lookup_insert_eq.
  unfold fib_heap_insert. rewrite Lk. rewrite alloc_ok by done. cbn [or_exit mbind res_bind]. fold n p. rewrite (hr_min _ _ _ _ _ HR).
  assert (Er : roots = [] \/ exists h l, roots = h :: l) by (destruct roots; eauto). destruct Er as [Er|(h & l & Er)].
  - rewrite Er. cbn [hd]. rewrite Z.eqb_refl, alone_in_ring_ok by eauto. cbn [mbind res_bind fcells fcalls].
    destruct (alone_ring (<[p := n]> (fcells m)) p) as (R1 & B1 & O1); [eauto|].
    eexists _, _, [p]. split_and!; [done| |done|done|by apply new_node_live|by apply Out; rewrite Er].
    apply insert_rep_links; rewrite ?Er; try done. cbn [hd]. intros r ->%list_elem_of_singleton. apply below_refl. unfold C'.
    rewrite lookup_insert_eq. eauto.
  - destruct (fo_root_cell F h) as [[nh Eh] Uh]; [set_solver|]. rewrite Er. cbn [hd]. rewrite (proj2 (Z.eqb_neq _ _) Uh).
    assert (Hph : p <> h) by set_solver.
    assert (R1 : ring (<[p := n]> (fcells m)) (h :: l)).
    { rewrite <- Er. eapply ring_ext; [apply (hr_ring _ _ _ _ _ HR)|]. intros q Hq. rewrite lookup_insert_ne; [done|]. by intros <-. }
    assert (Sp : is_Some (<[p := n]> (fcells m) !! p)) by eauto.
    destruct (fo_roots _ _ _ _ F) as [Nd Sm]. rewrite Er in Nd, Sm, Pr.
    rewrite (insert_right_ok (Memory (<[p := n]> (fcells m)) (fcalls m + 1)) h p l R1 Pr Sp). cbn [mbind res_bind fcells fcalls].
    pose proof (place_after_bodies h (hd h l) p (<[p := n]> (fcells m))) as B2.
    pose proof (place_after_outside h (hd h l) p (<[p := n]> (fcells m))) as O2.
    pose proof (place_after_ring h p l (<[p := n]> (fcells m)) R1 Nd Pr Sp) as R2.
    set (c2 := place_after _ _ _ _) in *.
    assert (O3 : same_outside (p :: h :: l) (<[p := n]> (fcells m)) c2) by (intros q Hq; apply O2; destruct l; set_solver).
    destruct (Sm h) as [[kh vh] Ch]; [set_solver|]. destruct (fo_node _ _ _ _ F h kh vh Ch) as (Kh & _).
    assert (K2 : forall q, fb_key <$> c2 !! q = fb_key <$> <[p := n]> (fcells m) !! q).
    { intros q. apply same_body_field; [unfold body; by intros ?? [= ? _ _ _ _ _]|done]. }
    assert (K2h : fb_key <$> c2 !! h = Some kh) by (rewrite K2, lookup_insert_ne by done; done).
    assert (K2p : fb_key <$> c2 !! p = Some k) by (rewrite K2, Ep; done).
    apply fmap_Some in K2h as (nh2 & Eh2 & ->), K2p as (np2 & Ep2 & Ekp).
    rewrite (load_cell_ok (Memory c2 (fcalls m + 1)) h nh2 Eh2). cbn [mbind res_bind].
    rewrite (load_cell_ok (Memory c2 (fcalls m + 1)) p np2 Ep2). cbn [mbind res_bind]. rewrite <- Ekp.
    assert (Ch' : C' !! h = Some (fb_key nh2, vh)) by (unfold C'; by rewrite lookup_insert_ne).
    assert (Cp' : C' !! p = Some (k, v)) by apply lookup_insert_eq.
    pose proof (below_or_less C' h p _ _ _ _ Ch' Cp' (fo_num _ _ _ _ F h _ _ Ch) Nk) as Cmp.
    assert (Lh : forall r, r ∈ h :: l -> below C' h r).
    { intros r Hr. rewrite <- Er in Hr. destruct (hr_least _ _ _ _ _ HR r Hr) as (ka & va & kb & vb & E1 & E2 & L).
      rewrite Er in E1. cbn [hd] in E1.
      exists ka, va, kb, vb. unfold C'. rewrite !lookup_insert_ne by (intros <-; congruence). done. }
    destruct (double_ltb k (fb_key nh2)).
    + eexists _, _, ((p :: l) ++ [h]). split_and!; [done| |solve_Permutation|done|by apply new_node_live|by apply Out; rewrite Er].
      apply insert_rep_links; rewrite ?Er; try done; [solve_Permutation|by apply (ring_rotate c2 [h] (p :: l))|].
      cbn [hd app]. intros r Hr. assert (D : r = p \/ r ∈ h :: l) by set_solver.
      destruct D as [->|Hr']; [apply below_refl; eauto|]. eapply below_trans; [exact Cmp|by apply Lh].
    + eexists _, _, (h :: p :: l). split_and!; [done| |solve_Permutation|done|by apply new_node_live|by apply Out; rewrite Er].
      apply insert_rep_links; rewrite ?Er; try done; [solve_Permutation|].
      cbn [hd]. intros r Hr. assert (D : r = p \/ r ∈ h :: l) by set_solver.
      destruct D as [->|Hr']; [done|by apply Lh].
Qed.

Lemma insert_binomial : binomial C kids -> binomial C' kids'.
Proof.
  intros B a Ha. destruct new_node_fresh as (Fr & Up & Cp). pose proof (hr_forest _ _ _ _ _ HR) as F.
  unfold kids' at 1 3. case_decide as D; [done|]. unfold C' in Ha. rewrite lookup_insert_ne in Ha by done. rewrite (B a Ha). f_equal.
  apply weight_ext. intros b Hb. unfold kids'. case_decide as D'; [|done]. subst b.
  destruct (fo_kid_some F a p Ha Hb) as [? ?]. congruence.
Qed.
End Insert.
End HeapRep.
