(* ===== verification/FibExtract.v ===== *)
(** Fibonacci heaps: extraction of the minimum.

    The children of the minimum become roots ([move_children_run]), the minimum leaves the
    ring of roots, and [consolidate] links roots of equal degree and makes the registered
    roots the new ring.  [extract_min_run] composes the steps.

    The invariant of the loop of [consolidate] does not say that all roots have been
    registered when the loop ends, because that is not so: when the first root of the walk
    becomes the child of a later one, the walk ends at the later one, and a link that moves
    the current root back to a root between the two skips the roots ahead.  The roots that
    are skipped are not part of the new ring.  [extract_min_loses_a_node] runs the program on a
    heap where this happens. *)

From S2P Require Import Prelude Constants Records Chains Doubles DoubleOrder FibHeap FibRing FibForest FibHeapInv.
From Stdlib Require Import ZArith Lia.
From stdpp Require Import base list list_numbers option fin_maps gmap relations.

#[local] Open Scope Z_scope.

Section Extract.
Context {T : Type}.
Implicit Types (c : gmap addr (fb_node T)) (m : memory T) (n : fb_node T) (C : gmap addr (Z * T)) (l ls roots : list addr)
  (kids : addr -> list addr) (p q x y a b r z : addr) (fh : fib_heap).

(** ** Forgetting trees *)

Lemma map_split {A} (C : gmap addr A) (P Q : addr -> Prop) : (forall a, is_Some (C !! a) -> P a \/ Q a) ->
  (forall a, P a -> Q a -> False) -> exists C1 : gmap addr A, forall a (v : A), C1 !! a = Some v <-> (C !! a = Some v /\ P a).
Proof.
  intros D E. induction C as [|a v C Ha IH] using map_ind.
  - exists ∅. intros a v. rewrite lookup_empty. naive_solver.
  - destruct IH as [C1 IH].
    { intros b Hb. apply D. destruct (decide (a = b)) as [->|]; [rewrite lookup_insert_eq; eauto|by rewrite lookup_insert_ne]. }
    destruct (D a) as [Pa|Qa]; [rewrite lookup_insert_eq; eauto| |].
    + exists (<[a := v]> C1). intros b w. destruct (decide (a = b)) as [->|Hn]; [rewrite !lookup_insert_eq; naive_solver|].
      by rewrite !lookup_insert_ne.
    + exists C1. intros b w. destruct (decide (a = b)) as [->|Hn]; [|by rewrite lookup_insert_ne].
      rewrite lookup_insert_eq, IH, Ha. naive_solver.
Qed.

Section Facts.
Context {c C roots kids} (F : forest c C roots kids).

(** A node is in the tree of one root. *)
Lemma fo_root_unique b r r' : r ∈ roots -> r' ∈ roots -> rtc (kid_of C kids) b r -> rtc (kid_of C kids) b r' -> r = r'.
Proof.
  intros Hr Hr' P P'. induction P as [b|b a r [Ha Hk] P IH].
  - inversion P' as [|? a ? [Ha Hk]]; subst; [done|]. destruct (fo_kid _ _ _ _ F a b Ha Hk) as (Nr & _). done.
  - inversion P' as [|? a' ? [Ha' Hk'] P'']; subst; [destruct (fo_kid _ _ _ _ F a r' Ha Hk) as (Nr & _); done|].
    rewrite (fo_kids_disjoint F a' a b) in P'' by done. by apply IH.
Qed.

Lemma forest_restrict roots1 : NoDup roots1 -> (forall r, r ∈ roots1 -> r ∈ roots) ->
  exists C1, forest c C1 roots1 kids /\ C1 ⊆ C.
Proof.
  intros Nd Sub. destruct (map_split C (fun b => exists r, r ∈ roots1 /\ rtc (kid_of C kids) b r)
    (fun b => exists r, (r ∈ roots /\ r ∉ roots1) /\ rtc (kid_of C kids) b r)) as [C1 HC].
  { intros b Hb. destruct (fo_cover _ _ _ _ F b Hb) as (r & Hr & P). destruct (decide (r ∈ roots1)); [left|right]; eauto. }
  { intros b (r & Hr & P) (r' & (Hr' & Nr') & P'). apply Nr'. by rewrite <- (fo_root_unique b r r'); auto. }
  assert (Sb : C1 ⊆ C) by (apply map_subseteq_spec; intros b v E; by apply HC in E as [? _]).
  assert (S1 : forall b, is_Some (C1 !! b) <-> is_Some (C !! b) /\ exists r, r ∈ roots1 /\ rtc (kid_of C kids) b r).
  { intros b. split; [intros [v E]; apply HC in E as [? ?]; eauto|]. intros [[v E] P]. exists v. by apply HC. }
  assert (Kid : forall a b, is_Some (C1 !! a) -> b ∈ kids a -> is_Some (C1 !! b)).
  { intros a b [Ha (r & Hr & P)]%S1 Hb. apply S1. split; [by apply (fo_kid_some F a)|]. exists r. split; [done|].
    by eapply rtc_l. }
  exists C1. split; [|done]. split.
  - apply (fo_null _ _ _ _ F).
  - intros a k v E. apply (fo_node _ _ _ _ F). by eapply lookup_weaken.
  - intros a k v E. apply (fo_num _ _ _ _ F a k v). by eapply lookup_weaken.
  - intros a [Ha _]%S1. by apply (fo_ring _ _ _ _ F).
  - intros a b Ha Hb. pose proof (Kid a b Ha Hb) as Hb1. apply S1 in Ha as [Ha P].
    destruct (fo_kid _ _ _ _ F a b Ha Hb) as (Nr & Pb & (ka & va & kb & vb & E1 & E2 & L)).
    split_and!; [intros Hr; by apply Nr, Sub|done|]. exists ka, va, kb, vb.
    split_and!; [|by destruct Hb1 as [w Ew]; rewrite Ew; apply HC in Ew as [Ew _]; congruence|done].
    apply HC. split; [done|exact P].
  - split; [done|]. intros a Ha. apply S1. split; [by apply (fo_roots _ _ _ _ F), Sub|]. by exists a.
  - intros b Hb. apply S1 in Hb as [Hb (r & Hr & P)]. exists r. split; [done|]. clear Hb.
    induction P as [|b a r [Ha Hk] P IH]; [done|]. eapply rtc_l; [|by apply IH]. split; [|done].
    apply S1. split; [done|]. by exists r.
Qed.

(** Removing a root makes its children roots. *)
Lemma forest_drop_root z l : roots ≡ₚ z :: l -> forest c (delete z C) (kids z ++ l) kids.
Proof.
  intros P. destruct (fo_roots _ _ _ _ F) as [Nd S]. rewrite P in Nd. apply NoDup_cons in Nd as [Nz Nd].
  assert (Sz : is_Some (C !! z)) by (apply S; rewrite P; set_solver).
  destruct (fo_ring _ _ _ _ F z Sz) as [Nk _].
  assert (Kr : forall a b, is_Some (C !! a) -> b ∈ kids a -> b <> z /\ b ∉ l).
  { intros a b Ha Hb. destruct (fo_kid _ _ _ _ F a b Ha Hb) as (Nr & _). rewrite P in Nr. set_solver. }
  assert (Old : forall a, is_Some (delete z C !! a) <-> is_Some (C !! a) /\ a <> z).
  { intros a. rewrite lookup_delete_is_Some. naive_solver. }
  split.
  - apply (fo_null _ _ _ _ F).
  - intros a k v [Ha E]%lookup_delete_Some. by apply (fo_node _ _ _ _ F).
  - intros a k v [Ha E]%lookup_delete_Some. by apply (fo_num _ _ _ _ F a k v).
  - intros a [Ha _]%Old. by apply (fo_ring _ _ _ _ F).
  - intros a b [Ha Hz]%Old Hb. destruct (Kr a b Ha Hb) as [Bz Bl].
    destruct (fo_kid _ _ _ _ F a b Ha Hb) as (Nr & Pb & (ka & va & kb & vb & E1 & E2 & L)). split_and!; [|done|].
    + intros [Hk|Hl]%elem_of_app; [|done]. apply Hz. by apply (fo_kids_disjoint F a z b).
    + exists ka, va, kb, vb. by rewrite !lookup_delete_ne.
  - split.
    + apply NoDup_app. split_and!; [done| |done]. intros b Hb. by apply (Kr z b).
    + intros a [Ha|Ha]%elem_of_app; apply Old; [split; [by apply (fo_kid_some F z)|by apply (Kr z a)]|].
      split; [apply S; rewrite P; set_solver|by intros ->].
  - intros b [Hb Bz]%Old. destruct (fo_cover _ _ _ _ F b Hb) as (r & Hr & Pa). rewrite P in Hr.
    induction Pa as [b|b a r [Ha Hk] Pa IH].
    + exists b. split; [set_solver|done].
    + destruct (decide (a = z)) as [->|Haz]; [exists b; split; [set_solver|done]|].
      destruct IH as (r' & Hr' & P'); [done..|]. exists r'. split; [done|]. eapply rtc_l; [|done]. split; [by apply Old|done].
Qed.
End Facts.

(** Fields of the roots that the trees do not fix. *)
Lemma forest_root_field f c C roots kids r : forest c C roots kids -> r ∈ roots ->
  (forall n, fb_key (f n) = fb_key n /\ fb_value (f n) = fb_value n /\ fb_degree (f n) = fb_degree n /\
    fb_child (f n) = fb_child n /\ links (f n) = links n) -> forest (alter f r c) C roots kids.
Proof.
  intros F Hr Hf. split; try apply F.
  - destruct (fo_root_cell F r Hr) as [_ Ur]. rewrite lookup_alter_ne by done. apply (fo_null _ _ _ _ F).
  - intros a k v E. rewrite !field_alter_same by (intros; apply Hf). by apply (fo_node _ _ _ _ F).
  - intros a Ha. destruct (fo_ring _ _ _ _ F a Ha) as [Nd Rg]. split; [done|]. apply ring_alter; [intros; apply Hf|done].
  - intros a b Ha Hb. destruct (fo_kid _ _ _ _ F a b Ha Hb) as (Nr & P & B). split_and!; [done| |done].
    rewrite lookup_alter_ne by (by intros ->). done.
Qed.

(** Rings that an operation on the links of [ls] leaves alone. *)
Lemma forest_relink ls c c' C roots kids : forest c C roots kids -> same_bodies c c' -> same_outside ls c c' ->
  (forall q, q ∈ ls -> q ∈ roots \/ C !! q = None) -> forest c' C roots kids.
Proof.
  intros F B O Sub. eapply forest_links; [done..|]. intros a Ha. destruct (fo_ring _ _ _ _ F a Ha) as [_ Rg].
  eapply same_outside_ring; [done..|]. intros q Hq Hl. destruct (Sub q Hl) as [Hr|Hn].
  - by destruct (fo_kid _ _ _ _ F a q Ha Hq) as (Nr & _).
  - destruct (fo_kid_some F a q Ha Hq) as [? ?]. congruence.
Qed.

(** ** The children of the minimum become roots *)

Record moved z C kids ks l c c' (l' : list addr) : Prop := Moved {
  mv_perm : l' ≡ₚ ks ++ l;
  mv_forest : forest c' C l' kids;
  mv_ring : ring c' (z :: l');
  mv_parent : forall r, r ∈ l' -> fb_parent <$> c' !! r = Some NULL;
  mv_some : forall q, is_Some (c' !! q) <-> is_Some (c !! q);
  mv_outside : same_outside (z :: ks ++ l) c c';
  mv_min : body <$> c' !! z = body <$> c !! z }.

Section MoveOne.
Context (c : gmap addr (fb_node T)) (C : gmap addr (Z * T)) (kids : addr -> list addr) (z node : addr) (ks l : list addr).
Hypothesis F : forest c C (node :: ks ++ l) kids.
Hypothesis Cz : C !! z = None.
Hypothesis Rz : ring c (z :: l).
Hypothesis Rk : ring c (node :: ks).
Hypothesis Nd : NoDup (z :: node :: ks ++ l).
Hypothesis Pl : forall r, r ∈ l -> fb_parent <$> c !! r = Some NULL.

Let c1 := alter (with_parent NULL) node c.
Let c2 := take_out node ks c1.
Let c3 := place_after z (hd z l) node c2.

Lemma move_one : forest c3 C (ks ++ node :: l) kids /\ ring c3 (z :: node :: l) /\ ring c3 ks /\
  (forall r, r ∈ node :: l -> fb_parent <$> c3 !! r = Some NULL) /\ (forall q, is_Some (c3 !! q) <-> is_Some (c !! q)) /\
  same_outside (z :: node :: ks ++ l) c c3 /\ (body <$> c3 !! z = body <$> c !! z) /\
  ring c1 (node :: ks) /\ ring c2 (z :: l) /\ (node ∉ z :: l) /\ is_Some (c2 !! node).
Proof.
  assert (Nd' := Nd). apply NoDup_cons in Nd' as [Zn Nd']. apply NoDup_cons in Nd' as [Nn Nd'].
  apply NoDup_app in Nd' as (Nk & Dis & Nl).
  assert (R1 : ring c1 (node :: ks)) by (by apply ring_alter).
  assert (R1z : ring c1 (z :: l)) by (by apply ring_alter).
  assert (N1 : NoDup (node :: ks)) by (apply NoDup_cons; set_solver).
  assert (Nz : NoDup (z :: l)) by (apply NoDup_cons; set_solver).
  assert (S1 : is_Some (c1 !! node)) by (apply (ring_in c1 (node :: ks)); [done|set_solver]).
  pose proof (take_out_ring node ks c1 R1 N1) as R2. pose proof (take_out_bodies node ks c1) as B2.
  pose proof (take_out_outside node ks c1 R1) as O2. fold c2 in R2, B2, O2.
  assert (R2z : ring c2 (z :: l)) by (apply (same_outside_ring ks _ c1); [done|done|set_solver]).
  assert (Hn : node ∉ z :: l) by set_solver.
  assert (S2 : is_Some (c2 !! node)) by (by apply (same_bodies_some c1)).
  pose proof (place_after_ring z node l c2 R2z Nz Hn S2) as R3. pose proof (place_after_bodies z (hd z l) node c2) as B3.
  pose proof (place_after_outside z (hd z l) node c2) as O3. fold c3 in R3, B3, O3.
  assert (Hh : forall q, q ∈ [node; z; hd z l] -> q ∈ node :: z :: l) by (destruct l; set_solver).
  assert (B : same_bodies c1 c3) by (by transitivity c2).
  assert (O : same_outside (z :: node :: ks ++ l) c1 c3).
  { intros q Hq. rewrite (O3 q) by (intros Hq'; apply Hh in Hq'; set_solver). apply O2. set_solver. }
  assert (Fld : forall q, q <> node -> body <$> c3 !! q = body <$> c !! q).
  { intros q Hq. rewrite (B q). unfold c1. by rewrite lookup_alter_ne by done. }
  split_and!; try done.
  - apply (forest_perm c3 C (node :: ks ++ l)); [solve_Permutation|].
    apply (forest_relink (z :: node :: ks ++ l) c1); [|done|done|].
    + apply forest_root_field; [exact F|set_solver|done].
    + intros q [->|Hq]%elem_of_cons; [by right|by left].
  - apply (same_outside_ring [node; z; hd z l] _ c2); [done|done|]. intros q Hq Hq'. apply Hh in Hq'. set_solver.
  - intros r Hr. rewrite (same_body_field fb_parent c1); [|unfold body; by intros ?? [= _ _ ? _ _ _]|done].
    unfold c1. rewrite field_alter. apply elem_of_cons in Hr as [->|Hr].
    + destruct S1 as [n1 E1]. unfold c1 in E1. rewrite lookup_alter_cell in E1. destruct (c !! node); [|done]. simpl. by rewrite decide_True.
    + specialize (Pl r Hr). destruct (c !! r); [|done]. simpl. rewrite decide_False by set_solver. done.
  - intros q. rewrite (same_bodies_some c1 c3 q B). unfold c1. apply alter_some.
  - intros q Hq. rewrite (O q Hq). unfold c1. rewrite lookup_alter_ne; [done|]. set_solver.
  - apply Fld. set_solver.
Qed.
End MoveOne.

Lemma move_children_run z C kids ks : forall l m fuel, forest (fcells m) C (ks ++ l) kids -> C !! z = None ->
  ring (fcells m) (z :: l) -> ring (fcells m) ks -> NoDup (z :: ks ++ l) ->
  (forall r, r ∈ l -> fb_parent <$> fcells m !! r = Some NULL) -> (length ks < fuel)%nat ->
  exists c' l', move_children fuel m z (hd NULL ks) = Ok (Memory c' (fcalls m)) /\ moved z C kids ks l (fcells m) c' l'.
Proof.
  induction ks as [|node ks IH]; intros l m [|fuel] F Cz Rz Rk Nd Pl Hf; try (simpl in Hf; lia).
  - exists (fcells m), l. split; [by destruct m|]. by split.
  - destruct (fo_root_cell F node) as [_ Un]; [set_solver|]. cbn [move_children hd].
    rewrite (proj2 (Z.eqb_neq _ _) Un). destruct (ring_head _ _ _ Rk) as (n & En & Er & _).
    rewrite (load_cell_ok m node n En). cbn [mbind res_bind]. rewrite upd_ok by eauto. cbn [mbind res_bind].
    destruct (move_one (fcells m) C kids z node ks l F Cz Rz Rk Nd Pl) as (F3 & R3 & Rk3 & P3 & S3 & O3 & B3 & R1 & R2 & Hn & S2).
    rewrite (unlink_node_ok (Memory _ _) node ks R1). cbn [mbind res_bind fcells fcalls].
    rewrite (move_after_ok (Memory _ _) z node l R2 Hn S2). cbn [mbind res_bind fcells fcalls].
    assert (Next : (if negb (fb_right n =? node) then fb_right n else NULL) = hd NULL ks).
    { rewrite Er. destruct ks as [|k ks']; cbn [hd]; [by rewrite Z.eqb_refl|].
      rewrite (proj2 (Z.eqb_neq _ _)); [done|]. intros ->. apply NoDup_cons in Nd as [_ Nd].
      apply NoDup_cons in Nd as [Nd _]. set_solver. }
    rewrite Next. set (c3 := place_after _ _ _ _) in *.
    destruct (IH (node :: l) (Memory c3 (fcalls m)) fuel) as (c' & l' & -> & Mv); try done; [|simpl in Hf; lia|].
    { assert (Pz : z :: ks ++ node :: l ≡ₚ z :: node :: ks ++ l) by solve_Permutation. by rewrite Pz. }
    exists c', l'. split; [done|]. destruct Mv as [P Fm R Pm S O B]. cbn [fcells] in S, O, B. split; try done.
    + rewrite P. solve_Permutation.
    + intros q. by rewrite S.
    + intros q Hq. rewrite O, O3; [done|set_solver..].
    + by rewrite B, B3.
Qed.

(** ** Linking roots of the same degree *)

(** What an operation on the trees leaves alone. *)
Definition framed C m m' : Prop :=
  fcalls m' = fcalls m /\ (forall q, is_Some (fcells m' !! q) <-> is_Some (fcells m !! q)) /\
  forall q, C !! q = None -> fcells m' !! q = fcells m !! q.
#[export] Instance framed_preorder C : PreOrder (framed C).
Proof.
  split; [by intros m|]. intros m1 m2 m3 (B1 & S1 & O1) (B2 & S2 & O2). split_and!; [congruence| |].
  - intros q. by rewrite S2, S1.
  - intros q Hq. by rewrite O2, O1.
Qed.

(** The loop of [consolidate] walks over the ring [ls], which starts with its [first]; the
    table [a] maps degrees to roots; linking does not change the number [W] of nodes. *)
Record merging C W m (a : list addr) ls kids : Prop := Merging {
  mg_forest : forest (fcells m) C ls kids;
  mg_ring : ring (fcells m) ls;
  mg_parent : forall r, r ∈ ls -> fb_parent <$> fcells m !! r = Some NULL;
  mg_binomial : binomial C kids;
  mg_weight : weight kids ls = W;
  mg_room : W < 2 ^ Z.of_nat (length a);
  mg_size : Z.of_nat (length a) < 2 ^ 32;
  mg_table : forall d r, a !! d = Some r -> r <> NULL -> r ∈ ls /\ length (kids r) = d }.

Lemma mg_degree C W m (a : list addr) ls kids x : merging C W m a ls kids -> x ∈ ls -> (length (kids x) < length a)%nat.
Proof.
  intros M Hx. pose proof (weight_in kids ls x Hx) as Wx. rewrite (mg_weight _ _ _ _ _ _ M) in Wx.
  pose proof (mg_room _ _ _ _ _ _ M) as R.
  assert (L : 2 ^ Z.of_nat (length (kids x)) < 2 ^ Z.of_nat (length a)) by lia.
  apply Z.pow_lt_mono_r_iff in L; lia.
Qed.

Section LinkPair.
Context (C : gmap addr (Z * T)) (W : Z) (m : memory T) (a : list addr) (ls : list addr) (kids : addr -> list addr).
Context (x y : addr).
Hypothesis M : merging C W m a ls kids.
Hypothesis Hx : x ∈ ls.
Hypothesis Hy : y ∈ ls.
Hypothesis Hxy : x <> y.
Hypothesis Dy : length (kids y) = length (kids x).
Hypothesis Le : below C x y.
Hypothesis Reg : forall r, a !! length (kids x) = Some r -> r = NULL \/ r = x \/ r = y.

Lemma add_kid_x : length (add_kid kids x y x) = S (length (kids x)).
Proof. unfold add_kid. rewrite decide_True by done. by rewrite (insert_kid_perm y). Qed.
Lemma add_kid_other b : b <> x -> add_kid kids x y b = kids b.
Proof. intros Hb. unfold add_kid. by rewrite decide_False. Qed.

Lemma link_weight ls' : ls ≡ₚ y :: ls' -> NoDup ls -> x ∈ ls' /\ weight (add_kid kids x y) ls' = W.
Proof.
  intros P Nd. rewrite P in Nd. apply NoDup_cons in Nd as [_ Nd].
  assert (Hx' : x ∈ ls') by (rewrite P in Hx; set_solver). split; [done|].
  apply list_elem_of_split in Hx' as (u & w & ->). assert (Nx : x ∉ u ++ w).
  { rewrite <- Permutation_middle in Nd. by apply NoDup_cons in Nd as [? _]. }
  rewrite <- (mg_weight _ _ _ _ _ _ M), P, <- Permutation_middle. cbn [weight foldr].
  fold (weight (add_kid kids x y) (u ++ w)) (weight kids (u ++ w)). rewrite add_kid_x, Dy.
  rewrite (weight_ext (add_kid kids x y) kids (u ++ w)); [rewrite Nat2Z.inj_succ, Z.pow_succ_r; lia|].
  intros b Hb. rewrite add_kid_other; [done|]. by intros ->.
Qed.

Lemma link_binomial : forest (fcells m) C ls kids -> binomial C kids -> binomial C (add_kid kids x y).
Proof.
  intros F B. assert (Sx : is_Some (C !! x)) by (by apply (fo_roots _ _ _ _ F)).
  assert (Same : forall b ls', is_Some (C !! b) -> (forall q, q ∈ ls' -> q ∈ kids b) ->
     weight (add_kid kids x y) ls' = weight kids ls').
  { intros b ls' Hb Sub. apply weight_ext. intros q Hq. rewrite add_kid_other; [done|]. intros ->.
    by destruct (fo_kid _ _ _ _ F b x Hb (Sub x Hq)). }
  intros b Hb. destruct (decide (b = x)) as [->|Hn].
  - rewrite add_kid_x. unfold add_kid at 2. rewrite decide_True by done. rewrite (insert_kid_perm y). cbn [weight foldr].
    fold (weight (add_kid kids x y) (kids x)). rewrite (add_kid_other y) by congruence.
    rewrite (Same x) by done. rewrite Nat2Z.inj_succ, Z.pow_succ_r, Dy by lia. pose proof (B x Hb). lia.
  - rewrite !(add_kid_other b) by done. rewrite (Same b) by done. by apply B.
Qed.

(** The ring without [y], from its new first root. *)
Lemma ring_without c : (forall l1 l2, ls = l1 ++ y :: l2 -> ring c (l2 ++ l1)) -> NoDup ls ->
  exists ls', ls ≡ₚ y :: ls' /\ ring c ls' /\ hd NULL ls' = (if y =? hd NULL ls then x else hd NULL ls).
Proof.
  intros R Nd. destruct (list_elem_of_split ls y Hy) as (l1 & l2 & E). specialize (R l1 l2 E). rewrite E in *.
  destruct l1 as [|h l1].
  - cbn [app hd]. rewrite Z.eqb_refl. assert (Hx2 : x ∈ l2) by (cbn [app] in *; set_solver).
    destruct (list_elem_of_split l2 x Hx2) as (u & w & ->). exists (x :: w ++ u). split_and!; [|by rewrite app_nil_r in R; apply (ring_rotate c u (x :: w))|done].
    apply Permutation_skip. solve_Permutation.
  - exists ((h :: l1) ++ l2). split_and!; [solve_Permutation|by apply ring_rotate|]. cbn [app hd].
    rewrite (proj2 (Z.eqb_neq _ _)); [done|]. intros ->. apply NoDup_cons in Nd as [Nd _]. set_solver.
Qed.

Lemma link_pair : exists m' kids' ls', fib_heap_make_child m x y = Ok m' /\ framed C m m' /\
  merging C W m' (<[length (kids x) := NULL]> a) ls' kids' /\
  hd NULL ls' = (if y =? hd NULL ls then x else hd NULL ls) /\ x ∈ ls' /\
  length (kids' x) = S (length (kids x)) /\ (length ls' < length ls)%nat.
Proof.
  pose proof (mg_forest _ _ _ _ _ _ M) as F. destruct (fo_roots _ _ _ _ F) as [Nd Sm].
  pose proof (mg_degree _ _ _ _ _ _ x M Hx) as Dx. pose proof (mg_size _ _ _ _ _ _ M) as Sz.
  assert (Deg : Z.of_nat (length (kids x)) < 2 ^ 32 - 1) by lia.
  assert (Mc : forall l1 l2, ls = l1 ++ y :: l2 -> forest (fcells m) C (y :: l2 ++ l1) kids /\
    ring (fcells m) (y :: l2 ++ l1) /\ x ∈ l2 ++ l1).
  { intros l1 l2 E. split_and!.
    - apply (forest_perm _ _ ls); [rewrite E; solve_Permutation|done].
    - apply (ring_rotate _ l1 (y :: l2)). rewrite <- E. apply (mg_ring _ _ _ _ _ _ M).
    - rewrite E in Hx. set_solver. }
  destruct (list_elem_of_split ls y Hy) as (l1 & l2 & E). destruct (Mc l1 l2 E) as (F1 & R1 & X1).
  pose proof (make_child_run m C (l2 ++ l1) kids x y F1 R1 X1 Le Deg) as Run.
  pose proof (make_child_forest m C (l2 ++ l1) kids x y F1 R1 X1 Le Deg) as F2.
  pose proof (make_child_ring m C (l2 ++ l1) kids x y F1 R1 X1 Le Deg) as R2.
  pose proof (make_child_outside m C (l2 ++ l1) kids x y F1 R1 X1 Le Deg) as O2.
  pose proof (make_child_parent m (l2 ++ l1) kids x y Deg) as P2.
  pose proof (mc_some m C (l2 ++ l1) kids x y F1 R1 X1 Le Deg) as S2.
  set (c' := alter (with_degree _) x _) in *.
  destruct (ring_without c') as (ls' & P & R' & Hd); [|done|].
  { intros u w E'. assert (U : u = l1 /\ w = l2); [|by destruct U as [-> ->]].
    rewrite E in E'. rewrite E in Nd. apply NoDup_app in Nd as (Nd1 & Nd2 & Nd3).
    assert (Y1 : y ∉ l1) by (intros Hn; apply (Nd2 y Hn); set_solver). apply NoDup_cons in Nd3 as [Y2 _].
    clear -E' Y1 Y2. revert u E'. induction l1 as [|h l1 IH]; intros [|h' u] E'; cbn [app] in E'.
    - by injection E' as ->.
    - injection E' as -> E'. rewrite E' in Y2. set_solver.
    - injection E' as -> E'. set_solver.
    - injection E' as -> E'. destruct (IH ltac:(set_solver) u E') as [-> ->]. done. }
  destruct (link_weight ls' P Nd) as [X' W']. exists (Memory c' (fcalls m)), (add_kid kids x y), ls'.
  split_and!; [done|by split_and!| |done|done|apply add_kid_x|rewrite P; cbn; lia].
  assert (P' : l2 ++ l1 ≡ₚ ls').
  { apply (Permutation_cons_inv (a := y)). rewrite <- P, E. solve_Permutation. }
  assert (Ny : y ∉ ls') by (rewrite P in Nd; by apply NoDup_cons in Nd as [? _]).
  split; [by apply (forest_perm _ _ (l2 ++ l1))|done| |apply link_binomial; [done|apply (mg_binomial _ _ _ _ _ _ M)]|done|..].
  - intros r Hr. cbn [fcells]. rewrite P2; [|by intros ->]. apply (mg_parent _ _ _ _ _ _ M). rewrite P. set_solver.
  - rewrite length_insert. apply (mg_room _ _ _ _ _ _ M).
  - by rewrite length_insert.
  - intros d r Ed Ur. rewrite list_lookup_insert in Ed. case_decide as Dd; [naive_solver|].
    destruct (mg_table _ _ _ _ _ _ M d r Ed Ur) as [Hr Dr].
    assert (Nx : r <> x) by (intros ->; naive_solver). assert (Nr : r <> y) by (intros ->; apply Dd; split; congruence).
    rewrite add_kid_other by done. split; [|done]. rewrite P in Hr. set_solver.
Qed.
End LinkPair.
End Extract.
