(* ===== verification/FibConsolidate.v ===== *)
(** Fibonacci heaps: [consolidate] and [extract_min].

    The inner loop links the current root with the registered root of its degree while there
    is one ([link_same_run]); the outer loop walks over the ring of roots until it meets its
    first ([merge_roots_run]); [rebuild_run] makes the registered roots the ring of the heap. *)

From S2P Require Import Prelude Constants Records Chains Doubles DoubleOrder FibHeap FibTable FibRing FibForest FibHeapInv FibExtract.
From Stdlib Require Import ZArith Lia.
From stdpp Require Import base list list_numbers option fin_maps gmap relations.

#[local] Open Scope Z_scope.

Section Consolidate.
Context {T : Type}.
Implicit Types (c : gmap addr (fb_node T)) (m : memory T) (n : fb_node T) (C : gmap addr (Z * T)) (l ls roots : list addr)
  (kids : addr -> list addr) (p q x y b r z : addr) (fh : fib_heap).

Section Loops.
Context (C : gmap addr (Z * T)) (W : Z).

(** The current root [x] is unregistered, or registered at its degree, unless there is
    another root at its degree. *)
Lemma table_entry m a ls kids x : merging C W m a ls kids -> x ∈ ls -> exists y, a !! length (kids x) = Some y /\
  (y <> NULL -> y ∈ ls /\ length (kids y) = length (kids x)).
Proof.
  intros M Hx. destruct (lookup_lt_is_Some_2 a (length (kids x))) as [y Ey]; [by eapply mg_degree|].
  exists y. split; [done|]. intros Uy. by apply (mg_table _ _ _ _ _ _ M).
Qed.

Lemma mg_key m a ls kids x : merging C W m a ls kids -> x ∈ ls ->
  exists n v, fcells m !! x = Some n /\ C !! x = Some (fb_key n, v) /\ is_num (fb_key n).
Proof.
  intros M Hx. pose proof (mg_forest _ _ _ _ _ _ M) as F. destruct (fo_roots _ _ _ _ F) as [_ S].
  destruct (S x Hx) as [[k v] E]. destruct (fo_node _ _ _ _ F x k v E) as (K & _).
  apply fmap_Some in K as (n & En & ->). exists n, v. split_and!; [done|done|]. by apply (fo_num _ _ _ _ F x _ v).
Qed.

Lemma link_same_run fuel : forall m a ls kids x, merging C W m a ls kids -> x ∈ ls ->
  (length a < fuel + length (kids x))%nat ->
  exists m' a' ls' kids' x',
    link_same fuel m a x (Z.of_nat (length (kids x))) (hd NULL ls) =
      Ok (m', a', x', Z.of_nat (length (kids' x')), hd NULL ls') /\
    framed C m m' /\ merging C W m' a' ls' kids' /\ x' ∈ ls' /\ length a' = length a /\
    (a' !! length (kids' x') = Some NULL \/ a' !! length (kids' x') = Some x') /\
    ((m', ls', x') = (m, ls, x) \/ (length ls' < length ls)%nat).
Proof.
  induction fuel as [|fuel IH]; intros m a ls kids x M Hx Hf.
  { pose proof (mg_degree _ _ _ _ _ _ x M Hx). lia. }
  destruct (table_entry m a ls kids x M Hx) as (y & Ey & Ty). pose proof (mg_degree _ _ _ _ _ _ x M Hx) as Dx.
  pose proof (mg_size _ _ _ _ _ _ M) as Sz.
  cbn [link_same]. rewrite Nat2Z.id, Ey. cbn [deref mbind res_bind].
  destruct (Z.eqb_spec y NULL) as [->|Uy].
  { cbn [orb]. exists m, a, ls, kids, x. split_and!; try done; by left. }
  destruct (Z.eqb_spec x y) as [->|Nxy].
  { cbn [orb]. exists m, a, ls, kids, y. split_and!; try done; [by right|by left]. }
  cbn [orb]. destruct (Ty Uy) as [Hy Dy].
  destruct (mg_key m a ls kids x M Hx) as (nx & vx & Enx & Cx & Kx), (mg_key m a ls kids y M Hy) as (ny & vy & Eny & Cy & Ky).
  rewrite (load_cell_ok m y ny Eny). cbn [mbind res_bind]. rewrite (load_cell_ok m x nx Enx). cbn [mbind res_bind].
  pose proof (below_or_less C x y _ _ _ _ Cx Cy Kx Ky) as Le.
  assert (Step : exists w u m1 kids1 ls1, (if double_ltb (fb_key ny) (fb_key nx) then (y, x) else (x, y)) = (w, u) /\
    fib_heap_make_child m w u = Ok m1 /\ framed C m m1 /\ merging C W m1 (<[length (kids x) := NULL]> a) ls1 kids1 /\
    hd NULL ls1 = (if u =? hd NULL ls then w else hd NULL ls) /\ w ∈ ls1 /\
    length (kids1 w) = S (length (kids x)) /\ (length ls1 < length ls)%nat).
  { destruct (double_ltb (fb_key ny) (fb_key nx)).
    - destruct (link_pair C W m a ls kids y x M Hy Hx (not_eq_sym Nxy) (eq_sym Dy) Le) as (m1 & kids1 & ls1 & Q).
      { intros r Er. right. left. rewrite Dy in Er. congruence. }
      rewrite Dy in Q. by exists y, x, m1, kids1, ls1.
    - destruct (link_pair C W m a ls kids x y M Hx Hy Nxy Dy Le) as (m1 & kids1 & ls1 & Q).
      { intros r Er. right. right. congruence. }
      by exists x, y, m1, kids1, ls1. }
  destruct Step as (w & u & m1 & kids1 & ls1 & -> & -> & Fr & M1 & Hd & Hw & D1 & L1). cbn [mbind res_bind].
  unfold mem_set. rewrite ?Nat2Z.id. rewrite (proj2 (Nat.ltb_lt _ _)) by done. cbn [mbind res_bind]. rewrite <- Hd.
  assert (U : u32 (Z.of_nat (length (kids x)) + 1) = Z.of_nat (length (kids1 w))).
  { unfold u32. rewrite Z.mod_small by lia. lia. }
  rewrite U. destruct (IH m1 (<[length (kids x) := NULL]> a) ls1 kids1 w M1 Hw) as (m' & a' & ls' & kids' & x' & -> & Fr' & M' & Hx' & La & Fin & Ch).
  { rewrite length_insert. lia. }
  exists m', a', ls', kids', x'. split_and!; try done.
  - by transitivity m1.
  - by rewrite La, length_insert.
  - right. destruct Ch as [[= -> -> ->]|Ch]; lia.
Qed.

(** Registering a root. *)
Lemma register m a ls kids x : merging C W m a ls kids -> x ∈ ls -> merging C W m (<[length (kids x) := x]> a) ls kids.
Proof.
  intros M Hx. split; try apply M; rewrite ?length_insert; try apply M.
  intros d r E Ur. rewrite list_lookup_insert in E. case_decide as D; [|by apply (mg_table _ _ _ _ _ _ M)].
  destruct D as [<- _]. by injection E as <-.
Qed.

Lemma merge_roots_run N fuel : forall m a kids P x Q, merging C W m a (P ++ x :: Q) kids ->
  (length (P ++ x :: Q) <= N)%nat -> ((length (P ++ x :: Q) - 1) * N + length Q < fuel)%nat ->
  exists m' a' ls' kids', merge_roots fuel m a x (hd NULL (P ++ x :: Q)) = Ok (m', a') /\ framed C m m' /\
    merging C W m' a' ls' kids' /\ length a' = length a /\ exists d r, a' !! d = Some r /\ r <> NULL.
Proof.
  induction fuel as [|fuel IH]; intros m a kids P x Q M HN Hf; [by apply Nat.nlt_0_r in Hf|].
  assert (Hx : x ∈ P ++ x :: Q) by set_solver. set (ls := P ++ x :: Q) in *.
  destruct (mg_key m a ls kids x M Hx) as (nx & vx & Enx & Cx & _).
  assert (Dg : fb_degree nx = Z.of_nat (length (kids x))).
  { pose proof (fo_node _ _ _ _ (mg_forest _ _ _ _ _ _ M) x _ _ Cx) as (_ & _ & D & _). rewrite Enx in D. by injection D. }
  cbn [merge_roots]. rewrite (load_cell_ok m x nx Enx). cbn [mbind res_bind]. rewrite Dg.
  destruct (link_same_run (S (length a)) m a ls kids x M Hx) as (m1 & a1 & ls1 & kids1 & x1 & -> & Fr & M1 & Hx1 & La & _ & Ch); [lia|].
  cbn [mbind res_bind]. pose proof (mg_degree _ _ _ _ _ _ x1 M1 Hx1) as D1.
  unfold mem_set. rewrite Nat2Z.id, (proj2 (Nat.ltb_lt _ _)) by done. cbn [mbind res_bind].
  pose proof (register m1 a1 ls1 kids1 x1 M1 Hx1) as M2. set (a2 := <[_ := x1]> a1) in *.
  assert (L2 : length a2 = length a) by (unfold a2; by rewrite length_insert).
  destruct (mg_key m1 a1 ls1 kids1 x1 M1 Hx1) as (n1 & v1 & En1 & C1 & _). rewrite (load_cell_ok m1 x1 n1 En1). cbn [mbind res_bind].
  pose proof (fo_root_cell (mg_forest _ _ _ _ _ _ M1) x1 Hx1) as [_ Ux1].
  assert (Sp : exists P1 Q1, ls1 = P1 ++ x1 :: Q1 /\ (length Q1 + (length ls1 - 1) * N < S fuel)%nat /\ (length ls1 <= N)%nat).
  { destruct Ch as [[= E1 E2 E3]|Lt].
    - subst. exists P, Q. split_and!; [done|by rewrite Nat.add_comm|done].
    - destruct (list_elem_of_split ls1 x1 Hx1) as (P1 & Q1 & E). exists P1, Q1. split_and!; [done| |lia].
      assert (Lq : (length Q1 < length ls1)%nat) by (rewrite E, length_app; cbn; lia). nia. }
  destruct Sp as (P1 & Q1 & E & Lf & LN).
  assert (Rt : fb_right n1 = hd (hd NULL ls1) Q1).
  { pose proof (mg_ring _ _ _ _ _ _ M1) as R. rewrite E in R. apply ring_rotate in R.
    destruct (ring_head _ _ _ R) as (n1' & En1' & Er & _). assert (n1' = n1) as -> by congruence. rewrite Er, E.
    destruct Q1; [|done]. by destruct P1. }
  rewrite Rt. destruct Q1 as [|q Q1].
  - cbn [hd]. rewrite Z.eqb_refl. exists m1, a2, ls1, kids1. split_and!; try done.
    exists (length (kids1 x1)), x1. split; [|done]. unfold a2. by apply list_lookup_insert_eq.
  - cbn [hd]. assert (Nq : q <> hd NULL ls1).
    { destruct (fo_roots _ _ _ _ (mg_forest _ _ _ _ _ _ M1)) as [Nd _]. rewrite E in *. destruct P1 as [|h P1]; cbn [app hd] in *.
      - intros ->. apply NoDup_cons in Nd as [Nd _]. set_solver.
      - intros ->. apply NoDup_cons in Nd as [Nd _]. set_solver. }
    rewrite (proj2 (Z.eqb_neq _ _) Nq). assert (E' : ls1 = (P1 ++ [x1]) ++ q :: Q1) by (rewrite E, <- app_assoc; done).
    rewrite E' in M2, LN, Lf |- *. destruct (IH m1 a2 kids1 (P1 ++ [x1]) q Q1 M2 LN) as (m' & a' & ls' & kids' & -> & Fr' & M' & La' & Ex).
    { cbn [length] in Lf. lia. }
    exists m', a', ls', kids'. split_and!; try done; [by transitivity m1|congruence].
Qed.
End Loops.

(** ** The new ring of roots *)

Section Rebuild.
Context (C : gmap addr (Z * T)) (ls : list addr) (kids : addr -> list addr).

Record rebuilt m (cur : list addr) : Prop := Rebuilt {
  rb_forest : forest (fcells m) C ls kids;
  rb_parent : forall r, r ∈ ls -> fb_parent <$> fcells m !! r = Some NULL;
  rb_ring : ring (fcells m) cur;
  rb_roots : NoDup cur /\ forall r, r ∈ cur -> r ∈ ls;
  rb_least : forall r, r ∈ cur -> below C (hd NULL cur) r }.

(** New links among the roots. *)
Lemma rebuilt_links m c' (cur cur' : list addr) : rebuilt m cur -> same_bodies (fcells m) c' ->
  same_outside cur' (fcells m) c' -> ring c' cur' -> NoDup cur' -> (forall r, r ∈ cur' -> r ∈ ls) ->
  (forall r, r ∈ cur' -> below C (hd NULL cur') r) ->
  rebuilt (Memory c' (fcalls m)) cur' /\ framed C m (Memory c' (fcalls m)).
Proof.
  intros Rb B O R Nd Sub Le. pose proof (rb_forest _ _ Rb) as F. split; [split; try done|].
  - apply (forest_relink cur' (fcells m)); try done. intros q Hq. left. by apply Sub.
  - intros r Hr. cbn [fcells]. rewrite (same_body_field fb_parent (fcells m)); [|unfold body; by intros ?? [= _ _ ? _ _ _]|done].
    by apply (rb_parent _ _ Rb).
  - split_and!; [done|intros q; by apply same_bodies_some|]. intros q Hq. apply O. intros Hq'.
    destruct (fo_roots _ _ _ _ F) as [_ S]. destruct (S q (Sub q Hq')). congruence.
Qed.

Lemma rb_key m cur x : rebuilt m cur -> x ∈ ls ->
  exists n v, fcells m !! x = Some n /\ C !! x = Some (fb_key n, v) /\ is_num (fb_key n).
Proof.
  intros Rb Hx. pose proof (rb_forest _ _ Rb) as F. destruct (fo_roots _ _ _ _ F) as [_ S].
  destruct (S x Hx) as [[k v] E]. destruct (fo_node _ _ _ _ F x k v E) as (K & _).
  apply fmap_Some in K as (n & En & ->). exists n, v. split_and!; [done|done|]. by apply (fo_num _ _ _ _ F x _ v).
Qed.

Lemma rebuild_one m cur x a' : rebuilt m cur -> x ∈ ls -> x ∉ cur ->
  exists m' cur', rebuild m (hd NULL cur) (x :: a') = rebuild m' (hd NULL cur') a' /\ framed C m m' /\
    rebuilt m' cur' /\ (cur' ≡ₚ x :: cur).
Proof.
  intros Rb Hx Hc. pose proof (rb_forest _ _ Rb) as F. destruct (fo_root_cell F x Hx) as [Sx Ux].
  destruct (rb_roots _ _ Rb) as [Nd Sub]. cbn [rebuild]. rewrite (proj2 (Z.eqb_neq _ _) Ux).
  destruct (rb_key m cur x Rb Hx) as (nx & vx & Enx & Cx & Kx). destruct cur as [|h l].
  - cbn [hd]. rewrite Z.eqb_refl, alone_in_ring_ok by done. cbn [mbind res_bind].
    destruct (alone_ring (fcells m) x Sx) as (R & B & O). set (c' := alter _ x _) in *.
    destruct (rebuilt_links m c' [] [x] Rb B O R) as [Rb' Fr]; [apply NoDup_singleton|set_solver| |].
    { intros r ->%list_elem_of_singleton. apply below_refl. eauto. }
    exists (Memory c' (fcalls m)), [x]. by split_and!.
  - destruct (fo_root_cell F h) as [_ Uh]; [apply Sub; set_solver|]. cbn [hd]. rewrite (proj2 (Z.eqb_neq _ _) Uh).
    rewrite (insert_after_ok m h x l (rb_ring _ _ Rb) Hc Sx). cbn [mbind res_bind].
    pose proof (place_after_ring h x l (fcells m) (rb_ring _ _ Rb) Nd Hc Sx) as R.
    pose proof (place_after_bodies h (hd h l) x (fcells m)) as B. pose proof (place_after_outside h (hd h l) x (fcells m)) as O.
    set (c' := place_after _ _ _ _) in *.
    assert (O' : forall cur', (cur' ≡ₚ h :: x :: l) -> same_outside cur' (fcells m) c').
    { intros cur' P q Hq. rewrite P in Hq. apply O. destruct l; set_solver. }
    assert (Nd' : NoDup (h :: x :: l)).
    { apply NoDup_cons in Nd as [N1 N2]. apply NoDup_cons. split; [set_solver|]. apply NoDup_cons. split; [set_solver|done]. }
    assert (Hh : h ∈ ls) by (apply Sub; set_solver).
    destruct (rb_key m (h :: l) h Rb Hh) as (nh & vh & Enh & Ch & Kh).
    assert (K : forall q n, fcells m !! q = Some n -> exists n', c' !! q = Some n' /\ fb_key n' = fb_key n).
    { intros q n Eq. specialize (B q). rewrite Eq in B. destruct (c' !! q) as [n'|]; [|done]. exists n'. split; [done|].
      cbn in B. unfold body in B. congruence. }
    destruct (K x nx Enx) as (nx' & Enx' & Kx'), (K h nh Enh) as (nh' & Enh' & Kh').
    rewrite (load_cell_ok (Memory c' (fcalls m)) x nx' Enx'). cbn [mbind res_bind].
    rewrite (load_cell_ok (Memory c' (fcalls m)) h nh' Enh'). cbn [mbind res_bind]. rewrite Kx', Kh'.
    pose proof (below_or_less C h x _ _ _ _ Ch Cx Kh Kx) as Le. pose proof (rb_least _ _ Rb) as Lh. cbn [hd] in Lh.
    assert (In : forall r, r ∈ h :: x :: l -> r = x \/ r ∈ h :: l) by set_solver.
    destruct (double_ltb (fb_key nx) (fb_key nh)).
    + assert (P : (x :: l) ++ [h] ≡ₚ h :: x :: l) by solve_Permutation.
      destruct (rebuilt_links m c' (h :: l) ((x :: l) ++ [h]) Rb B (O' _ P)) as [Rb' Fr].
      * by apply (ring_rotate c' [h] (x :: l)).
      * by rewrite P.
      * intros r. rewrite P. set_solver.
      * intros r Hr. rewrite P in Hr. cbn [app hd]. apply In in Hr as [->|Hr]; [apply below_refl; eauto|].
        eapply below_trans; [exact Le|by apply Lh].
      * exists (Memory c' (fcalls m)), ((x :: l) ++ [h]). split_and!; try done. rewrite P. apply Permutation_swap.
    + destruct (rebuilt_links m c' (h :: l) (h :: x :: l) Rb B (O' _ ltac:(done)) R Nd') as [Rb' Fr]; [set_solver| |].
      * cbn [hd]. intros r [->|Hr]%In; [done|by apply Lh].
      * exists (Memory c' (fcalls m)), (h :: x :: l). split_and!; try done. apply Permutation_swap.
Qed.

Abbreviation registered := (filter (fun r => r <> NULL)).

Lemma rebuild_run a : forall m cur, rebuilt m cur -> (forall r, r ∈ a -> r <> NULL -> r ∈ ls) ->
  NoDup (registered a ++ cur) -> exists m' cur', rebuild m (hd NULL cur) a = Ok (m', hd NULL cur') /\ framed C m m' /\
    rebuilt m' cur' /\ (cur' ≡ₚ registered a ++ cur).
Proof.
  induction a as [|x a IH]; intros m cur Rb Sub Nd.
  - exists m, cur. by split_and!.
  - rewrite filter_cons in Nd |- *. destruct (decide (x <> NULL)) as [Ux|Ux].
    + destruct (rebuild_one m cur x a Rb) as (m1 & cur1 & -> & Fr & Rb1 & P1); [apply Sub; [set_solver|done]| |].
      { apply NoDup_app in Nd as (_ & Nd & _). apply Nd. set_solver. }
      assert (P : registered a ++ cur1 ≡ₚ x :: registered a ++ cur) by (rewrite P1; solve_Permutation).
      destruct (IH m1 cur1 Rb1) as (m' & cur' & -> & Fr' & Rb' & P'); [set_solver|by rewrite P|].
      exists m', cur'. split_and!; try done; [by transitivity m1|by rewrite P', P].
    + assert (x = NULL) as -> by (destruct (decide (x = NULL)); done). cbn [rebuild]. rewrite Z.eqb_refl.
      apply IH; [done|set_solver|done].
Qed.
End Rebuild.

(** The registered roots are distinct, since each is registered at its degree. *)
Lemma registered_nodup (a : list addr) : (forall i j r, a !! i = Some r -> a !! j = Some r -> r <> NULL -> i = j) ->
  NoDup (filter (fun r => r <> NULL) a).
Proof.
  induction a as [|x a IH]; intros H; [constructor|].
  assert (N : NoDup (filter (fun r => r <> NULL) a)).
  { apply IH. intros i j r Ei Ej Ur. specialize (H (S i) (S j) r Ei Ej Ur). lia. }
  rewrite filter_cons. case_decide as Ux; [|done]. apply NoDup_cons. split; [|done].
  intros [_ Hx]%list_elem_of_filter. apply list_elem_of_lookup in Hx as [j Ej]. specialize (H 0%nat (S j) x eq_refl Ej Ux). lia.
Qed.

Lemma table_registered C W m a ls kids : merging C W m a ls kids ->
  NoDup (filter (fun r => r <> NULL) a) /\ forall r, r ∈ a -> r <> NULL -> r ∈ ls.
Proof.
  intros M. split.
  - apply registered_nodup. intros i j r Ei Ej Ur.
    destruct (mg_table _ _ _ _ _ _ M i r Ei Ur), (mg_table _ _ _ _ _ _ M j r Ej Ur). congruence.
  - intros r [i Ei]%list_elem_of_lookup Ur. by apply (mg_table _ _ _ _ _ _ M i r).
Qed.

Lemma weight_le kids l l' : NoDup l -> (forall r, r ∈ l -> r ∈ l') -> weight kids l <= weight kids l'.
Proof.
  intros Nd Sub. apply NoDup_submseteq in Sub as [k ->]%submseteq_Permutation; [|done].
  rewrite weight_app. pose proof (weight_nonneg kids k). lia.
Qed.

(** ** Consolidation *)

Section Run.
Context (logf : SpecFloat.spec_float -> SpecFloat.spec_float).

Lemma consolidate_run m fh z nz C ls kids s : forest (fcells m) C ls kids -> ring (fcells m) ls -> ls <> [] ->
  (forall r, r ∈ ls -> fb_parent <$> fcells m !! r = Some NULL) -> binomial C kids ->
  fh_min fh = z -> z <> NULL -> fcells m !! z = Some nz -> fb_right nz = hd NULL ls ->
  table_size logf (num_nodes fh) = Ok s -> weight kids ls < 2 ^ s -> 0 <= s < 2 ^ 32 ->
  exists m' C' roots' kids', fib_heap_consolidate logf m fh = Ok (m', hd NULL roots') /\ framed C m m' /\ C' ⊆ C /\
    roots' <> [] /\ forest (fcells m') C' roots' kids' /\ ring (fcells m') roots' /\
    (forall r, r ∈ roots' -> fb_parent <$> fcells m' !! r = Some NULL) /\
    (forall r, r ∈ roots' -> below C' (hd NULL roots') r) /\ binomial C' kids' /\ weight kids' roots' <= weight kids ls.
Proof.
  intros F R Ne Pa B Mz Uz Ez Rz Ts Ws Ss. unfold fib_heap_consolidate. rewrite Mz, (proj2 (Z.eqb_neq _ _) Uz), Ts.
  cbn [mbind res_bind]. rewrite (load_cell_ok m z nz Ez). cbn [mbind res_bind]. rewrite Rz.
  assert (M : merging C (weight kids ls) m (replicate (Z.to_nat s) NULL) ls kids).
  { split; try done; rewrite ?length_replicate, ?Z2Nat.id by lia; try lia.
    intros d r [-> _]%lookup_replicate Ur. done. }
  destruct ls as [|x Q] eqn:El; [done|]. rewrite <- El in *.
  assert (Nd : NoDup ls /\ forall r, r ∈ ls -> r ∈ dom (fcells m)).
  { split; [apply F|]. intros r Hr. apply elem_of_dom. by apply (fo_root_cell F). }
  assert (Ln : (length ls <= size (fcells m))%nat).
  { destruct Nd as [Nd Sub]. rewrite <- size_dom, <- (size_list_to_set (C := gset addr) ls) by done.
    apply subseteq_size. intros r Hr%elem_of_list_to_set. by apply Sub. }
  destruct (merge_roots_run C (weight kids ls) (size (fcells m)) (merge_fuel m) m (replicate (Z.to_nat s) NULL) kids [] x Q)
    as (m1 & a & ls1 & kids1 & Run & Fr1 & M1 & La & (d & r0 & E0 & U0)).
  - by rewrite <- El.
  - cbn [app]. by rewrite <- El.
  - cbn [app]. unfold merge_fuel. rewrite El in Ln. cbn [length] in Ln |- *. nia.
  - cbn [app hd] in Run. rewrite ?El. cbn [hd]. rewrite Run. cbn [mbind res_bind].
    destruct (table_registered _ _ _ _ _ _ M1) as [Na Sa].
    destruct (rebuild_run C ls1 kids1 a m1 []) as (m' & cur & Run2 & Fr2 & Rb & P).
    { split; try apply M1; [apply ring_nil|split; [constructor|set_solver]|set_solver]. }
    { done. }
    { by rewrite app_nil_r. }
    cbn [hd] in Run2. rewrite Run2, app_nil_r in *. destruct (rb_roots _ _ _ _ _ Rb) as [Nc Sc].
    destruct (forest_restrict (rb_forest _ _ _ _ _ Rb) cur Nc Sc) as (C' & F' & Sub).
    assert (Hr0 : r0 ∈ cur).
    { rewrite P. apply list_elem_of_filter. split; [done|]. apply list_elem_of_lookup. eauto. }
    exists m', C', cur, kids1. split_and!; try done.
    + by transitivity m1.
    + intros ->. by apply elem_of_nil in Hr0.
    + apply (rb_ring _ _ _ _ _ Rb).
    + intros r Hr. apply (rb_parent _ _ _ _ _ Rb). by apply Sc.
    + intros r Hr. destruct (rb_least _ _ _ _ _ Rb r Hr) as (ka & va & kb & vb & E1 & E2 & L).
      destruct (fo_roots _ _ _ _ F') as [_ S']. assert (Hh : hd NULL cur ∈ cur) by (destruct cur; set_solver).
      destruct (S' _ Hh) as [w1 G1], (S' r Hr) as [w2 G2].
      pose proof (lookup_weaken _ _ _ _ G1 Sub). pose proof (lookup_weaken _ _ _ _ G2 Sub). exists ka, va, kb, vb.
      split_and!; congruence.
    + intros b [w Eb]. apply (mg_binomial _ _ _ _ _ _ M1). pose proof (lookup_weaken _ _ _ _ Eb Sub). eauto.
    + pose proof (weight_le kids1 cur ls1 Nc Sc) as Lw. rewrite (mg_weight _ _ _ _ _ _ M1) in Lw. by rewrite <- ?El.
Qed.

(** ** Extraction *)

Context `{!LogfBounds logf}.

(** The minimum is unlinked, with its children among the roots. *)
Lemma detach_min m fh C roots kids z l : heap_rep m fh C roots kids -> roots = z :: l ->
  exists m1 c2 nz l', fcells m !! z = Some nz /\ fb_child nz = hd NULL (kids z) /\
    move_children (S (size (fcells m))) m z (hd NULL (kids z)) = Ok m1 /\ unlink_node m1 z = Ok (Memory c2 (fcalls m)) /\
    (l' ≡ₚ kids z ++ l) /\ forest c2 (delete z C) l' kids /\ ring c2 l' /\
    (forall r, r ∈ l' -> fb_parent <$> c2 !! r = Some NULL) /\ (forall q, is_Some (c2 !! q) <-> is_Some (fcells m !! q)) /\
    (forall q, C !! q = None -> c2 !! q = fcells m !! q) /\
    exists nz2, c2 !! z = Some nz2 /\ body nz2 = body nz /\ fb_right nz2 = hd z l'.
Proof.
  intros H E. pose proof (hr_forest _ _ _ _ _ H) as F. assert (Pz : roots ≡ₚ z :: l) by (by rewrite E).
  pose proof (forest_drop_root F z l Pz) as F0. destruct (fo_roots _ _ _ _ F) as [Nd S]. rewrite E in Nd, S.
  assert (Sz : is_Some (C !! z)) by (apply S; set_solver). destruct Sz as [[kz vz] Ez].
  destruct (fo_node _ _ _ _ F z kz vz Ez) as (_ & _ & _ & Ch). apply fmap_Some in Ch as (nz & Enz & Ch).
  destruct (fo_ring _ _ _ _ F z) as [Nk Rk]; [eauto|]. destruct (fo_roots _ _ _ _ F0) as [N0 S0].
  assert (Zl : forall q, q ∈ kids z ++ l -> q <> z).
  { intros q Hq ->. specialize (S0 z Hq). rewrite lookup_delete_eq in S0. by destruct S0. }
  assert (Lf : (length (kids z) <= size (fcells m))%nat).
  { rewrite <- size_dom, <- (size_list_to_set (C := gset addr) (kids z)) by done. apply subseteq_size.
    intros r Hr%elem_of_list_to_set. apply elem_of_dom, (fo_cell F). by apply (fo_kid_some F z); eauto. }
  destruct (move_children_run z (delete z C) kids (kids z) l m (Datatypes.S (size (fcells m)))) as (c1 & l' & -> & Mv).
  - exact F0.
  - apply lookup_delete_eq.
  - rewrite <- E. apply (hr_ring _ _ _ _ _ H).
  - exact Rk.
  - apply NoDup_cons. split; [|done]. intros Hz. by apply (Zl z).
  - intros r Hr. apply (hr_parent _ _ _ _ _ H). rewrite E. set_solver.
  - lia.
  - destruct Mv as [P F1 R1 Pa1 S1 O1 B1].
    assert (N1 : NoDup (z :: l')) by (rewrite P; apply NoDup_cons; split; [intros Hz; by apply (Zl z)|done]).
    pose proof (unlink_node_ok (Memory c1 (fcalls m)) z l' R1) as Ul. cbn [fcells fcalls] in Ul.
    pose proof (take_out_ring z l' c1 R1 N1) as R2. pose proof (take_out_bodies z l' c1) as B2.
    pose proof (take_out_outside z l' c1 R1) as O2. set (c2 := take_out z l' c1) in *.
    destruct (ring_head _ _ _ R1) as (n1 & E1 & Er & _).
    assert (Ez2 : c2 !! z = Some n1) by (rewrite O2; [done|]; by apply NoDup_cons in N1 as [? _]).
    exists (Memory c1 (fcalls m)), c2, nz, l'. split_and!; try done.
    + apply (forest_relink l' c1); try done. intros q Hq. by left.
    + intros r Hr. rewrite (same_body_field fb_parent c1); [by apply Pa1|unfold body; by intros ?? [= _ _ ? _ _ _]|done].
    + intros q. rewrite <- S1. by apply same_bodies_some.
    + intros q Hq. assert (Ql : q ∉ z :: kids z ++ l).
      { intros [->|Hq']%elem_of_cons; [congruence|]. destruct (S0 q Hq') as [w Ew]. apply lookup_delete_Some in Ew as [_ Ew]. congruence. }
      rewrite O2 by (rewrite P; set_solver). by apply O1.
    + exists n1. split_and!; [done| |done]. rewrite E1, Enz in B1. cbn in B1. congruence.
Qed.

Lemma binomial_sub C C' kids : binomial C kids -> C' ⊆ C -> binomial C' kids.
Proof. intros B Sub b [w Eb]. apply B. exists w. by eapply lookup_weaken. Qed.

(** Extraction: the node with a least key leaves the heap, which keeps a part of the other
    nodes, and some if there are others. *)
Lemma extract_min_run m fh C roots kids : heap_rep m fh C roots kids -> binomial C kids -> C <> ∅ ->
  weight kids roots <= num_nodes fh < 2 ^ 64 ->
  exists m' fh' C' roots' kids', fib_heap_extract_min logf m fh = Ok (fh_min fh, m', fh') /\ framed C m m' /\
    heap_rep m' fh' C' roots' kids' /\ binomial C' kids' /\ C' ⊆ delete (fh_min fh) C /\
    (C' = ∅ -> delete (fh_min fh) C = ∅) /\ num_nodes fh' = num_nodes fh - 1 /\ weight kids' roots' <= num_nodes fh' /\
    (forall b, is_Some (C !! b) -> below C (fh_min fh) b) /\
    exists n v, fcells m' !! fh_min fh = Some n /\ fb_value n = v /\ C !! fh_min fh = Some (fb_key n, v).
Proof.
  intros H B Ne W. pose proof (hr_forest _ _ _ _ _ H) as F.
  assert (Er : exists z l, roots = z :: l).
  { destruct roots as [|z l]; [by destruct Ne; apply (roots_empty _ _ _ _ _ H)|eauto]. }
  destruct Er as (z & l & Er). assert (Mz : fh_min fh = z) by (rewrite (hr_min _ _ _ _ _ H), Er; done).
  destruct (fo_roots _ _ _ _ F) as [Nd Sm]. assert (Hz : z ∈ roots) by (rewrite Er; set_solver).
  destruct (fo_root_cell F z Hz) as [_ Uz]. destruct (Sm z Hz) as [[kz vz] Ez].
  pose proof (fun b => least_of_all m fh C roots kids b H) as Least.
  assert (Wz : weight kids roots = weight kids (kids z) + 1 + weight kids l).
  { rewrite Er. cbn [weight foldr]. fold (weight kids l). rewrite (B z); [lia|eauto]. }
  destruct (detach_min m fh C roots kids z l H Er) as (m1 & c2 & nz & l' & Enz & Ch & Mc & Ul & P & F2 & R2 & Pa2 & S2 & O2 & (n2 & E2 & B2 & Rz)).
  pose proof (weight_nonneg kids (kids z)). pose proof (weight_nonneg kids l).
  assert (Nn : u64 (num_nodes fh - 1) = num_nodes fh - 1) by (unfold u64; rewrite Z.mod_small; lia).
  unfold fib_heap_extract_min. rewrite Mz in *. rewrite (proj2 (Z.eqb_neq _ _) Uz). cbn [negb].
  rewrite (load_cell_ok m z nz Enz). cbn [mbind res_bind]. rewrite Ch, Mc. cbn [mbind res_bind]. rewrite Ul. cbn [mbind res_bind].
  rewrite (load_cell_ok (Memory c2 (fcalls m)) z n2 E2). cbn [mbind res_bind]. rewrite Rz, Nn.
  assert (Val : forall m' : memory T, fcells m' !! z = Some n2 -> exists n v, fcells m' !! z = Some n /\ fb_value n = v /\ C !! z = Some (fb_key n, v)).
  { intros m' Em. exists n2, (fb_value n2). split_and!; [done..|]. destruct (fo_node _ _ _ _ F z kz vz Ez) as (K1 & K2 & _).
    rewrite Enz in K1, K2. injection K1 as <-. injection K2 as <-. unfold body in B2. rewrite Ez. congruence. }
  assert (Zl : z ∉ l').
  { intros Hl. destruct (fo_roots _ _ _ _ F2) as [_ S']. specialize (S' z Hl). rewrite lookup_delete_eq in S'. by destruct S'. }
  assert (Wl : weight kids l' = weight kids (kids z) + weight kids l) by (by rewrite P, weight_app).
  pose proof (binomial_sub C (delete z C) kids B (delete_subseteq C z)) as B'.
  destruct l' as [|h t] eqn:El.
  - cbn [hd]. rewrite Z.eqb_refl. cbn [mbind res_bind].
    assert (Em : delete z C = ∅).
    { apply map_empty. intros b. destruct (delete z C !! b) eqn:Eb; [|done].
      destruct (fo_cover _ _ _ _ F2 b) as (r & Hr & _); [eauto|]. by apply elem_of_nil in Hr. }
    exists (Memory c2 (fcalls m)), (FibHeap NULL (num_nodes fh - 1)), (delete z C), [], kids.
    split_and!; try done; [|cbn [weight foldr num_nodes]; lia|by apply Val].
    split; try done; intros r Hr; by apply elem_of_nil in Hr.
  - rewrite <- El in *. cbn [hd]. assert (Hh : h <> z) by (intros ->; apply Zl; rewrite El; set_solver).
    assert (Hd : hd z l' = hd NULL l') by (by rewrite El). assert (Eh : hd NULL l' = h) by (by rewrite El).
    assert (Wp : 1 <= weight kids l').
    { rewrite El. cbn [weight foldr]. fold (weight kids t). pose proof (weight_nonneg kids t).
      pose proof (Z.pow_pos_nonneg 2 (Z.of_nat (length (kids h))) ltac:(lia) ltac:(lia)). lia. }
    destruct (table_size_enough logf (num_nodes fh)) as (s & Es & Hs & Ws); [lia|].
    destruct (consolidate_run (Memory c2 (fcalls m)) fh z n2 (delete z C) l' kids s) as
      (m' & C' & roots' & kids' & Rc & Fr & Sub & Ne' & F' & R' & Pa' & Le' & Bn' & Wn'); try done; try lia.
    { rewrite El. done. }
    rewrite Hd, Eh. rewrite (proj2 (Z.eqb_neq _ _) Hh), Rc. cbn [mbind res_bind].
    destruct Fr as (Fb & Fs & Fo). cbn [fcells fcalls] in Fb, Fs, Fo.
    assert (Ss : forall q, is_Some (fcells m' !! q) <-> is_Some (fcells m !! q)) by (intros q; by rewrite Fs, S2).
    exists m', (FibHeap (hd NULL roots') (num_nodes fh - 1)), C', roots', kids'. split_and!; try done.
    + split_and!; [done|done|]. intros q Hq. rewrite Fo, O2; [done|done|]. apply lookup_delete_None. by right.
    + intros ->. destruct roots' as [|r rs]; [done|]. destruct (fo_roots _ _ _ _ F') as [_ S'].
      destruct (S' r) as [? E']; [set_solver|]. by rewrite lookup_empty in E'.
    + cbn [num_nodes]. lia.
    + apply Val. rewrite Fo; [done|]. apply lookup_delete_eq.
Qed.
End Run.
End Consolidate.
