(* ===== verification/FibProps.v ===== *)
(** Fibonacci heaps: what the operations do to the contents of a heap.

    [fheap m fh C]: the struct [fh] describes a well-formed heap in the memory [m] whose nodes
    have the contents [C], address to key and value, with binomial degrees and a node count
    that is at least the number of nodes, and at most the number of nodes in memory.
    Insertion and extraction keep it; insertion adds the new node, extraction takes a node
    with a least key.

    Two runs show where the program fails: [extract_min] loses a node, and after
    [decrease_key] it writes past the end of its table. *)

From S2P Require Import Prelude Constants Records Chains Doubles DoubleOrder FibHeap FibTable FibRing FibForest FibHeapInv FibExtract FibConsolidate.
From Stdlib Require Import ZArith Lia Floats.SpecFloat.
From stdpp Require Import base list option fin_maps gmap.

#[local] Open Scope Z_scope.

Section FibProps.
Context {T : Type}.
Implicit Types (m : memory T) (C : gmap addr (Z * T)) (fh : fib_heap).

Definition fheap m fh C : Prop := exists roots kids, heap_rep m fh C roots kids /\ binomial C kids /\
  weight kids roots <= num_nodes fh <= live m /\ live m < 2 ^ 64.

(** A heap without nodes. *)
Lemma fheap_create m : fcells m !! NULL = None -> live m < 2 ^ 64 -> fheap m fib_heap_create ∅.
Proof.
  intros N Lv. exists [], (fun _ => []). split_and!; [|intros a [? E]; by rewrite lookup_empty in E|cbn; lia|cbn; unfold live; lia|done].
  split; try done; try (intros r Hr; by apply elem_of_nil in Hr); [|apply ring_nil].
  split; [done|intros a k v E; by rewrite lookup_empty in E|intros a k v E; by rewrite lookup_empty in E|
    intros a [? E]; by rewrite lookup_empty in E|intros a b [? E]; by rewrite lookup_empty in E| |intros b [? E]; by rewrite lookup_empty in E].
  split; [constructor|]. intros a Ha. by apply elem_of_nil in Ha.
Qed.

Section Insert.
Context `{Malloc}.

(** Insertion, but for the order. *)
Lemma fheap_insert m fh C k v : fheap m fh C -> is_num k -> double_eqb k NEG_DBL_MAX = false ->
  live m < malloc_capacity ->
  exists m' fh', fib_heap_insert m fh k v = Ok (m', fh') /\ fcells m !! next_addr m = None /\ C !! next_addr m = None /\
    fheap m' fh' (<[next_addr m := (k, v)]> C) /\ num_nodes fh' = num_nodes fh + 1 /\ live m' = live m + 1 /\
    (forall q, <[next_addr m := (k, v)]> C !! q = None -> fcells m' !! q = fcells m !! q).
Proof.
  intros (roots & kids & Hr & B & W & Lv) Nk Lk Room.
  destruct (insert_run m fh C roots kids k v Hr Nk Lk Room) as (m' & fh' & roots' & Run & H' & P & Nn & Lm & O).
  destruct (next_addr_fresh m Room) as [Fr Up]. pose proof (rep_fresh _ _ _ _ _ _ Hr Fr) as Cp.
  set (kids' := fun a => if decide (a = next_addr m) then [] else kids a) in *.
  pose proof (weight_nonneg kids roots). pose proof malloc_capacity_u64 as Cu.
  assert (En : num_nodes fh' = num_nodes fh + 1) by (rewrite Nn; apply Z.mod_small; lia).
  exists m', fh'. split_and!; try done.
  exists roots', kids'. split_and!; [done|by eapply insert_binomial| |lia|lia]. rewrite P, En. cbn [weight foldr].
  fold (weight kids' roots). unfold kids' at 1. rewrite decide_True by done. cbn [length Z.of_nat Z.pow].
  rewrite (weight_ext kids' kids roots); [lia|]. intros a Ha. unfold kids'. rewrite decide_False; [done|]. intros ->.
  destruct (fo_root_cell (hr_forest _ _ _ _ _ Hr) (next_addr m) Ha) as [[? E] _]. congruence.
Qed.

Lemma fib_insert_full m fh k (v : T) : malloc_capacity <= live m -> fib_heap_insert m fh k v = Exit.
Proof. intros Full. unfold fib_heap_insert. by destruct (double_eqb _ _); rewrite ?alloc_full. Qed.

(** C18: Insertion into a heap that describes the contents [C].  While the memory has room it
    returns a heap with [C] and the new node at an address that was not in use; the count
    grows by one, the new minimum has a least key of all, and the nodes outside of the heap
    keep their fields.  When the memory is full the program exits. *)
Theorem insert_refines m fh C k v : fheap m fh C -> is_num k -> double_eqb k NEG_DBL_MAX = false ->
  (live m < malloc_capacity ->
   exists m' fh' p, fib_heap_insert m fh k v = Ok (m', fh') /\ fcells m !! p = None /\ C !! p = None /\
     fheap m' fh' (<[p := (k, v)]> C) /\ num_nodes fh' = num_nodes fh + 1 /\ live m' = live m + 1 /\
     (forall b, is_Some (<[p := (k, v)]> C !! b) -> below (<[p := (k, v)]> C) (fh_min fh') b) /\
     (forall q, <[p := (k, v)]> C !! q = None -> fcells m' !! q = fcells m !! q)) /\
  (malloc_capacity <= live m -> fib_heap_insert m fh k v = Exit).
Proof.
  intros F Nk Lk. split; [intros Room|by apply fib_insert_full].
  destruct (fheap_insert m fh C k v F Nk Lk Room) as (m' & fh' & Run & Fr & Cp & F' & Nn & Lm & O).
  exists m', fh', (next_addr m). split_and!; try done.
  destruct F' as (roots & kids & Hr & _). intros b. by apply (least_of_all m' fh' _ roots kids).
Qed.
End Insert.

(** Extraction, but for the order. *)
Lemma fheap_extract logf `{LogfBounds logf} m fh C : fheap m fh C -> C <> ∅ ->
  exists n m' fh' C', fib_heap_extract_min logf m fh = Ok (fh_min fh, m', fh') /\
    fcells m' !! fh_min fh = Some n /\ C !! fh_min fh = Some (fb_key n, fb_value n) /\
    fheap m' fh' C' /\ C' ⊆ delete (fh_min fh) C /\ (C' = ∅ -> delete (fh_min fh) C = ∅) /\
    num_nodes fh' = num_nodes fh - 1 /\ live m' = live m.
Proof.
  intros (roots & kids & Hr & B & W & Lv) Ne.
  destruct (extract_min_run logf m fh C roots kids Hr B Ne ltac:(lia)) as
    (m' & fh' & C' & roots' & kids' & Run & (_ & Sm & O) & H' & B' & Sub & Em & Nn & W' & Least & n & v & En & <- & Ec).
  pose proof (live_same m m' Sm). exists n, m', fh', C'. split_and!; try done. exists roots', kids'. split_and!; [done..|lia|lia].
Qed.

Lemma fheap_empty_min m fh : fheap m fh ∅ -> fh_min fh = NULL.
Proof.
  intros (roots & kids & Hr & _). rewrite (hr_min _ _ _ _ _ Hr).
  by rewrite (proj2 (roots_empty _ _ _ _ _ Hr) eq_refl).
Qed.

Lemma fheap_count m fh C : fheap m fh C -> 0 <= num_nodes fh <= live m /\ live m < 2 ^ 64 /\
  forall p, is_Some (C !! p) -> is_Some (fcells m !! p).
Proof.
  intros (roots & kids & Hr & B & W & Lv). pose proof (weight_nonneg kids roots). split_and!; try lia.
  intros p Hp. by apply (fo_cell (hr_forest _ _ _ _ _ Hr)).
Qed.

Lemma fheap_value m fh C p k v : fheap m fh C -> C !! p = Some (k, v) -> exists n, fcells m !! p = Some n /\ fb_value n = v.
Proof.
  intros (roots & kids & Hr & _) E. destruct (fo_node _ _ _ _ (hr_forest _ _ _ _ _ Hr) p k v E) as (_ & Ev & _).
  apply fmap_Some in Ev as (n & En & ->). by exists n.
Qed.

(** Freeing a node that is in no heap and not counted. *)
Lemma fheap_free m fh C z : fheap m fh C -> is_Some (fcells m !! z) -> C !! z = None -> num_nodes fh < live m ->
  exists m', free m z = Ok m' /\ fheap m' fh C /\ live m' = live m - 1.
Proof.
  intros (roots & kids & Hr & B & W & Lv) [n En] Cz Ct. exists (Memory (delete z (fcells m)) (fcalls m)). unfold free.
  rewrite (load_cell_ok m z n En).
  assert (Lm : live (Memory (delete z (fcells m)) (fcalls m)) = live m - 1).
  { unfold live. cbn [fcells]. rewrite map_size_delete_Some by eauto. destruct (size (fcells m)) eqn:E; [|lia].
    apply map_size_empty_inv in E. rewrite E in En. by rewrite lookup_empty in En. }
  split_and!; [done| |done]. exists roots, kids. split_and!; [|done|lia|lia|lia].
  apply (heap_rep_frame m _ fh C roots kids Hr); cbn [fcells].
  - intros q Hq. rewrite lookup_delete_ne; [done|]. intros <-. rewrite Cz in Hq. by destruct Hq.
  - rewrite lookup_delete_None. right. apply (fo_null _ _ _ _ (hr_forest _ _ _ _ _ Hr)).
Qed.

End FibProps.

(** ** Two runs *)

Module Runs.
#[local] Existing Instance lowest_free.

Definition num (n : Z) : Z := bits_of_double (binary_normalize 53 1024 n 0 false).

(** Nodes with the given keys and their numbers as values, one after the other, starting at
    the address 1; extraction with the node freed, as the callers do. *)
Fixpoint insert_all (ks : list Z) (m : memory Z) (fh : fib_heap) : res (memory Z * fib_heap) :=
  match ks with
  | [] => Ok (m, fh)
  | k :: ks' => '(m, fh) ← fib_heap_insert m fh (num k) k; insert_all ks' m fh
  end.
Definition extract_one (m : memory Z) (fh : fib_heap) : res (Z * memory Z * fib_heap) :=
  '(z, m, fh) ← fib_heap_extract_min logf_sample m fh;
  n ← load m z;
  m ← free m z;
  Ok (fb_value n, m, fh).
Fixpoint extract_all (n : nat) (m : memory Z) (fh : fib_heap) : res (list Z * memory Z * fib_heap) :=
  match n with
  | O => Ok ([], m, fh)
  | S n' =>
      '(v, m, fh) ← extract_one m fh;
      '(vs, m, fh) ← extract_all n' m fh;
      Ok (v :: vs, m, fh)
  end.

Definition three_then_six : res (memory Z * fib_heap) :=
  '(m, fh) ← insert_all [680; 465; 612] (Memory ∅ 0) fib_heap_create;
  '(_, m, fh) ← extract_one m fh;
  insert_all [603; 409; 202; 438; 913; 926] m fh.
Definition five_then_decrease (node : addr) : res (memory Z * fib_heap) :=
  '(m, fh) ← insert_all [100; 200; 300; 400; 500] (Memory ∅ 0) fib_heap_create;
  '(_, m, fh) ← extract_one m fh;
  fib_heap_decrease_key m fh node (num 150).

(** [extract_min] loses nodes: three insertions, one extraction and six insertions leave
    eight nodes, of which seven extractions return seven others than 409, in an order that
    skips it; the node is in memory and belongs to no heap, the count says that one node is
    left, and an eighth extraction exits. *)
Example extract_min_loses_a_node :
  (fh ← ('(_, fh) ← three_then_six; Ok fh); Ok (num_nodes fh)) = Ok 8 /\
  (exists m fh, ('(m, fh) ← three_then_six; extract_all 7 m fh) = Ok ([202; 438; 603; 612; 680; 913; 926], m, fh) /\
     fh = FibHeap NULL 1 /\ (fb_key <$> fcells m !! 4) = Some (num 409)) /\
  ('(m, fh) ← three_then_six; extract_all 8 m fh) = Exit.
Proof. vm_compute. split; [done|]. split; [|done]. eexists _, _. split; [reflexivity|done]. Qed.

(** After [decrease_key] has cut a node of a heap of four nodes, the next [extract_min]
    reads past the end of its table of two entries: a root has two children. *)
Example decrease_key_overruns_table :
  (exists m fh, five_then_decrease 5 = Ok (m, fh) /\ num_nodes fh = 4 /\ table_size logf_sample 4 = Ok 2 /\
     (fb_degree <$> fcells m !! 2) = Some 2 /\ (fb_parent <$> fcells m !! 2) = Some NULL) /\
  ('(m, fh) ← five_then_decrease 5; extract_one m fh) = Undef.
Proof. vm_compute. split; [|done]. eexists _, _. split; [reflexivity|done]. Qed.

Lemma empty_fheap : fheap (Memory (∅ : gmap addr (fb_node Z)) 0) fib_heap_create ∅.
Proof. by apply fheap_create. Qed.

(** In a memory with room for two nodes: the second insertion, and the third. *)
Lemma insert_refines_witness : let two := lowest_free_of 2 ltac:(lia) in
  exists m fh m' fh' p C, fib_heap_insert (Memory ∅ 0) fib_heap_create (num 2) 7 = Ok (m, fh) /\
    fib_heap_insert m fh (num 1) 8 = Ok (m', fh') /\ fheap m' fh' C /\ C !! p = Some (num 1, 8) /\ size C = 2%nat /\
    below C (fh_min fh') p /\ fib_heap_insert m' fh' (num 3) 9 = Exit.
Proof.
  intros two.
  destruct (fheap_insert (Memory ∅ 0) fib_heap_create ∅ (num 2) 7 empty_fheap) as (m & fh & Run & _ & _ & F & _ & Lm & _);
    [by vm_compute|reflexivity|reflexivity|].
  set (q := next_addr _) in F. set (C := <[q := (num 2, 7)]> ∅) in F.
  destruct (insert_refines m fh C (num 1) 8 F ltac:(by vm_compute) eq_refl) as [Room _].
  destruct Room as (m' & fh' & p & Run' & _ & Cp & F' & _ & Lm' & Least & _); [by rewrite Lm|].
  destruct (insert_refines m' fh' _ (num 3) 9 F' ltac:(by vm_compute) eq_refl) as [_ Full].
  exists m, fh, m', fh', p, (<[p := (num 1, 8)]> C). split_and!; [exact Run|exact Run'|exact F'|apply lookup_insert_eq| | |].
  - by rewrite map_size_insert_None.
  - apply Least. rewrite lookup_insert_eq. eauto.
  - apply Full. by rewrite Lm', Lm.
Defined.

End Runs.
