(* ===== verification/FibDestroy.v ===== *)
(** Fibonacci heaps: destruction.

    The loop of [fib_heap_destroy] goes down to a leaf, takes it out of the ring of its
    siblings, frees it, and goes on with its right sibling, or with its parent if it was the
    last child.  The child pointer of the parent dangles as soon as the child it points to is
    freed; [ruins] is the invariant that such a pointer is not followed any more: the nodes
    with stale child pointers are ancestors of the node where the loop goes on. *)

From S2P Require Import Prelude Constants Records Chains Doubles DoubleOrder FibHeap FibTable FibRing FibForest FibHeapInv FibProps.
From Stdlib Require Import ZArith Lia.
From stdpp Require Import base list option fin_maps fin_sets gmap relations.

#[local] Open Scope Z_scope.

Lemma tc_first {A} (R : relation A) x y : tc R x y -> exists z, R x z /\ rtc R z y.
Proof. inversion 1; subst; eauto using tc_rtc, rtc_refl. Qed.

Section Destroy.
Context {T : Type}.
Implicit Types (c : gmap addr (fb_node T)) (m : memory T) (n : fb_node T) (C : gmap addr (Z * T)) (l ls roots : list addr)
  (sibs kids : addr -> list addr) (p q x y a b r v next : addr) (fh : fib_heap) (R : gset addr).

(** [sibs a] lists the children of [a] that are left, and the roots if [a] is null. *)
Definition child_of sibs b a : Prop := b ∈ sibs a.

Record ruins c R sibs next : Prop := Ruins {
  ru_null : NULL ∉ R;
  ru_node : forall a, a ∈ R -> fb_degree <$> c !! a = Some (Z.of_nat (length (sibs a)));
  ru_degree : forall a, a ∈ R -> Z.of_nat (length (sibs a)) < 2 ^ 32;
  ru_ring : forall a, NoDup (sibs a) /\ ring c (sibs a);
  ru_kid : forall a b, b ∈ sibs a -> b ∈ R /\ (a = NULL \/ a ∈ R) /\ fb_parent <$> c !! b = Some a;
  ru_cover : forall b, b ∈ R -> rtc (child_of sibs) b NULL;
  ru_child : forall a, a ∈ R -> sibs a <> [] ->
    tc (child_of sibs) next a \/ exists b, fb_child <$> c !! a = Some b /\ b ∈ sibs a }.

Section Facts.
Context {c R sibs next} (H : ruins c R sibs next).

Lemma ru_parent_unique a a' b : b ∈ sibs a -> b ∈ sibs a' -> a = a'.
Proof.
  intros Ha Ha'. destruct (ru_kid _ _ _ _ H a b Ha) as (_ & _ & P). destruct (ru_kid _ _ _ _ H a' b Ha') as (_ & _ & P'). congruence.
Qed.

Lemma ru_not_null b : b ∈ R -> b <> NULL.
Proof. intros Hb ->. by apply (ru_null _ _ _ _ H). Qed.

(** No node is its own ancestor. *)
Lemma ru_acyclic b : b ∈ R -> ~ tc (child_of sibs) b b.
Proof.
  intros Hb. pose proof (ru_cover _ _ _ _ H b Hb) as P. clear Hb. remember NULL as z eqn:Ez. induction P as [b|b a z Hba P IH]; intros L.
  - subst b. apply tc_first in L as (x & Hx & _). destruct (ru_kid _ _ _ _ H x NULL Hx) as [Hn _]. by apply (ru_null _ _ _ _ H).
  - apply IH; [done|]. apply tc_first in L as (a' & Ha' & L). rewrite (ru_parent_unique a' a b Ha' Hba) in L.
    by eapply tc_rtc_l; [exact L|apply tc_once].
Qed.

(** Going down from [next] ends at a node without children. *)
Lemma descend_ok m fuel : fcells m = c -> forall x vs, rtc (child_of sibs) x next -> x ∈ R -> NoDup (x :: vs) ->
  (forall v, v ∈ vs -> v ∈ R /\ tc (child_of sibs) x v) -> (size R < S fuel + length vs)%nat ->
  exists v, descend (S fuel) m x = Ok v /\ v ∈ R /\ sibs v = [] /\ rtc (child_of sibs) v next.
Proof.
  intros Em. induction fuel as [|fuel IH]; intros x vs Px Hx Nd Hv Sz.
  all: assert (Le : (size (list_to_set (x :: vs) : gset addr) <= size R)%nat)
    by (apply subseteq_size; intros y Hy; apply elem_of_list_to_set, elem_of_cons in Hy as [->|Hy]; [done|by apply Hv]).
  all: rewrite size_list_to_set in Le by done; cbn [length] in Le.
  { lia. }
  pose proof (ru_node _ _ _ _ H x Hx) as Dx. apply fmap_Some in Dx as (n & En & Dx). rewrite <- Em in En.
  cbn [descend]. rewrite (load_cell_ok m x n En). cbn [mbind res_bind]. rewrite <- Dx. destruct (sibs x) as [|s l] eqn:Es.
  - cbn. by exists x.
  - rewrite (proj2 (Z.ltb_lt _ _)) by (cbn; lia). rewrite <- Es in *.
    destruct (ru_child _ _ _ _ H x Hx) as [Lp|(b & Eb & Hb)]; [by rewrite Es| |].
    { exfalso. apply (ru_acyclic x Hx). by eapply tc_rtc_l. }
    rewrite <- Em, En in Eb. injection Eb as ->. destruct (ru_kid _ _ _ _ H x b Hb) as (Rb & _ & _).
    assert (Cb : child_of sibs b x) by exact Hb.
    apply (IH b (x :: vs)); [by eapply rtc_l|done| | |cbn [length]; lia].
    + constructor; [|done]. intros [->|Hi]%elem_of_cons.
      * apply (ru_acyclic x Hx). by apply tc_once.
      * destruct (Hv b Hi) as [_ L]. apply (ru_acyclic b Rb). by eapply tc_l.
    + intros v [->|Hi]%elem_of_cons; [split; [done|by apply tc_once]|]. destruct (Hv v Hi) as [Rv L]. split; [done|by eapply tc_l].
Qed.
End Facts.

(** ** One round *)

Section Round.
Context (m : memory T) (R : gset addr) (sibs : addr -> list addr) (next v p : addr) (l1 l2 : list addr).
Let c := fcells m.
Let rest := l2 ++ l1.
Hypothesis H : ruins c R sibs next.
Hypothesis Hp : sibs p = l1 ++ v :: l2.
Hypothesis Lf : sibs v = [].
Hypothesis Lv : rtc (child_of sibs) v next.

Let c2 := if p =? NULL then take_out v rest c else alter (with_degree (Z.of_nat (length rest))) p (take_out v rest c).
Let c' := delete v c2.
Let sibs' a := if decide (a = p) then l1 ++ l2 else sibs a.
Let next' := match rest with [] => p | h :: _ => h end.

Lemma rd_facts : v ∈ R /\ v <> NULL /\ (p = NULL \/ p ∈ R) /\ p <> v /\ NoDup (v :: rest) /\ ring c (v :: rest) /\
  fb_parent <$> c !! v = Some p /\ (forall q, q ∈ rest -> q ∈ R /\ q ∈ sibs p).
Proof.
  assert (Hv : v ∈ sibs p) by (rewrite Hp; set_solver). destruct (ru_kid _ _ _ _ H p v Hv) as (Rv & Rp & Pv).
  destruct (ru_ring _ _ _ _ H p) as [Nd Rg]. rewrite Hp in Nd, Rg.
  split_and!; [done|by apply (ru_not_null H)|done|intros ->; rewrite Lf in Hv; by apply elem_of_nil in Hv| |by apply (ring_rotate c l1 (v :: l2))|done|].
  - unfold rest. rewrite (Permutation_app_comm l2 l1), Permutation_middle. exact Nd.
  - intros q Hq. assert (Hq' : q ∈ sibs p) by (rewrite Hp; unfold rest in Hq; set_solver). split; [|done].
    by apply (ru_kid _ _ _ _ H p q).
Qed.

Lemma rd_field {X} (f : fb_node T -> X) q : (forall n n', body n = body n' -> f n = f n') -> (q <> p \/ forall z n, f (with_degree z n) = f n) ->
  q <> v -> f <$> c' !! q = f <$> c !! q.
Proof.
  intros Hf Hd Hq. unfold c'. rewrite lookup_delete_ne by congruence.
  transitivity (f <$> take_out v rest c !! q); [|by apply same_body_field, take_out_bodies].
  unfold c2. destruct (p =? NULL); [done|]. rewrite field_alter. destruct (take_out v rest c !! q); [|done]. simpl. f_equal.
  case_decide; [|done]. by destruct Hd as [|Hd]; [|rewrite Hd].
Qed.

Lemma rd_outside q : q ∉ R -> c' !! q = c !! q.
Proof.
  intros Hq. destruct rd_facts as (Rv & Nv & Rp & Npv & Nd & Rg & Pv & Rs).
  assert (E : take_out v rest c !! q = c !! q) by (apply (take_out_outside v rest c Rg); intros Hr; apply Hq; by apply Rs).
  unfold c'. rewrite lookup_delete_ne by congruence. unfold c2. destruct (Z.eqb_spec p NULL) as [|Np]; [done|].
  rewrite lookup_alter_ne; [done|]. destruct Rp; congruence.
Qed.

Lemma rd_ring ls : ring (take_out v rest c) ls -> v ∉ ls -> ring c' ls.
Proof.
  intros Rl Hv. apply (ring_ext c2).
  - unfold c2. destruct (p =? NULL); [done|]. by apply ring_alter.
  - intros q Hq. unfold c'. rewrite lookup_delete_ne; [done|congruence].
Qed.

Lemma rd_child b a : b ∈ sibs' a <-> b ∈ sibs a /\ b <> v.
Proof.
  destruct rd_facts as (Rv & Nv & Rp & Npv & Nd & Rg & Pv & Rs). unfold sibs'. case_decide as D.
  - subst a. rewrite Hp. apply NoDup_cons in Nd as [Hv _]. unfold rest in Hv. set_solver.
  - split; [|by intros [? _]]. intros Hb. split; [done|]. intros ->. apply D. apply (ru_parent_unique H a p v Hb).
    rewrite Hp. set_solver.
Qed.

(** Ways up do not lead through a leaf. *)
Lemma rd_up b a : rtc (child_of sibs) b a -> b <> v -> rtc (child_of sibs') b a.
Proof.
  induction 1 as [|b x a Hbx P IH]; intros Nb; [done|]. eapply rtc_l; [by apply rd_child|]. apply IH.
  intros ->. unfold child_of in Hbx. rewrite Lf in Hbx. by apply elem_of_nil in Hbx.
Qed.

Lemma rd_next_cases : (rest = [] /\ next' = p) \/ exists h t, rest = h :: t /\ next' = h.
Proof. unfold next'. destruct rest as [|h t]; [by left|right; by exists h, t]. Qed.

(** What is above [next] is above [next'], and so is the parent. *)
Lemma rd_next : next' <> NULL -> next' ∈ R ∖ {[v]} /\
  forall a, sibs' a <> [] -> a = p \/ tc (child_of sibs) next a -> tc (child_of sibs') next' a.
Proof.
  intros Nn. destruct rd_facts as (Rv & Nv & Rp & Npv & Nd & Rg & Pv & Rs).
  assert (Cv : child_of sibs v p) by (unfold child_of; rewrite Hp; set_solver).
  assert (Up : forall a, tc (child_of sibs) next a -> a = p \/ tc (child_of sibs) p a).
  { intros a La. assert (Lva : tc (child_of sibs) v a) by (by eapply tc_rtc_l). apply tc_first in Lva as (x & Hx & Lx).
    rewrite (ru_parent_unique H x p v Hx Cv) in Lx. apply rtc_tc in Lx as [->|Lx]; auto. }
  assert (Up' : forall a, tc (child_of sibs) p a -> tc (child_of sibs') p a).
  { intros a La. apply tc_first in La as (x & Hx & Lx). eapply tc_rtc_r; [apply tc_once, rd_child; split; [exact Hx|done]|].
    apply rd_up; [done|]. intros ->. unfold child_of in Hx. rewrite Lf in Hx. by apply elem_of_nil in Hx. }
  destruct rd_next_cases as [[Er En]|(h & t & Er & En)]; rewrite En in *.
  - split; [destruct Rp; set_solver|]. intros a Hs D. destruct D as [->|La].
    { exfalso. apply Hs. unfold sibs'. rewrite decide_True by done. unfold rest in Er. apply app_nil in Er as [-> ->]. done. }
    destruct (Up a La) as [->|L]; [|by apply Up'].
    exfalso. apply Hs. unfold sibs'. rewrite decide_True by done. unfold rest in Er. apply app_nil in Er as [-> ->]. done.
  - destruct (Rs h) as [Rh Sh]; [rewrite Er; set_solver|].
    assert (Nh : h <> v) by (apply NoDup_cons in Nd as [Hv _]; rewrite Er in Hv; set_solver).
    split; [set_solver|]. intros a _ D. assert (Ch : child_of sibs' h p) by (by apply rd_child).
    assert (D' : a = p \/ tc (child_of sibs) p a) by (destruct D as [->|La]; [by left|by apply Up]).
    destruct D' as [->|La]; [by apply tc_once|]. eapply tc_l; [exact Ch|by apply Up'].
Qed.

Lemma rd_ruins : next' <> NULL -> ruins c' (R ∖ {[v]}) sibs' next'.
Proof.
  intros Nn. destruct rd_facts as (Rv & Nv & Rp & Npv & Nd & Rg & Pv & Rs), (rd_next Nn) as [Rn Up].
  assert (Lp : length (sibs p) = S (length rest)) by (rewrite Hp; unfold rest; rewrite !length_app; simpl; lia).
  assert (Lr : length (l1 ++ l2) = length rest) by (unfold rest; rewrite !length_app; lia).
  split.
  - intros Hn. apply (ru_null _ _ _ _ H). set_solver.
  - intros a Ha. assert (Hav : a <> v) by set_solver. unfold sibs'. case_decide as D.
    + subst a. unfold c'. rewrite lookup_delete_ne by congruence. unfold c2.
      rewrite (proj2 (Z.eqb_neq _ _)) by (apply (ru_not_null H); set_solver). rewrite field_alter, Lr.
      pose proof (ru_node _ _ _ _ H p ltac:(set_solver)) as Dp.
      rewrite <- (same_body_field fb_degree c (take_out v rest c)) in Dp; [|unfold body; by intros ?? [= _ _ _ _ ? _]|apply take_out_bodies].
      destruct (take_out v rest c !! p); [|done]. simpl. by rewrite decide_True.
    + rewrite rd_field; [apply (ru_node _ _ _ _ H a); set_solver|unfold body; by intros ?? [= _ _ _ _ ? _]|by left|done].
  - intros a Ha. unfold sibs'. case_decide; [|apply (ru_degree _ _ _ _ H); set_solver]. subst a.
    pose proof (ru_degree _ _ _ _ H p ltac:(set_solver)). lia.
  - intros a. unfold sibs'. case_decide as D.
    + apply NoDup_cons in Nd as [Hv Nr]. split; [unfold rest in Nr; by rewrite Permutation_app_comm|].
      apply rd_ring; [|unfold rest in Hv; set_solver]. apply (ring_rotate _ l2 l1). apply take_out_ring; [done|by constructor].
    + destruct (ru_ring _ _ _ _ H a) as [Na Ra]. split; [done|].
      assert (Dj : forall q, q ∈ sibs a -> q ∉ v :: rest).
      { intros q Hq Hr. apply D. apply (ru_parent_unique H a p q Hq). rewrite Hp. unfold rest in Hr. set_solver. }
      apply rd_ring; [|intros Hv; apply (Dj v Hv); set_solver].
      eapply ring_ext; [exact Ra|]. intros q Hq. apply (take_out_outside v rest c Rg). intros Hr. apply (Dj q Hq). set_solver.
  - intros a b [Hb Nb]%rd_child. destruct (ru_kid _ _ _ _ H a b Hb) as (Rb & Ra & Pb). split_and!; [set_solver| |].
    + destruct Ra as [?|Ra]; [by left|]. right. assert (a <> v); [|set_solver]. intros ->. rewrite Lf in Hb. by apply elem_of_nil in Hb.
    + rewrite rd_field; [done|unfold body; by intros ?? [= _ _ ? _ _ _]|by right|done].
  - intros b Hb. apply rd_up; [apply (ru_cover _ _ _ _ H); set_solver|set_solver].
  - intros a Ha Hs. destruct (decide (a = p)) as [->|Na]; [left; apply Up; auto|].
    assert (Hs' : sibs a <> []) by (unfold sibs' in Hs; by rewrite decide_False in Hs).
    destruct (ru_child _ _ _ _ H a ltac:(set_solver) Hs') as [La|(b & Eb & Hb)]; [left; apply Up; auto|].
    right. exists b. split; [rewrite rd_field; [done|unfold body; by intros ?? [= _ _ _ ? _ _]|by left|set_solver]|].
    unfold sibs'. by rewrite decide_False.
Qed.

(** The degree of the parent is counted down, and the leaf is freed. *)
Lemma rd_unlinked c1 (nd : fb_node T) : c1 = take_out v rest c -> fb_parent nd = p ->
  (m ← (if negb (fb_parent nd =? NULL) then
          np ← load (Memory c1 (fcalls m)) (fb_parent nd);
          upd (Memory c1 (fcalls m)) (fb_parent nd) (with_degree (u32 (fb_degree np - 1)))
        else Ok (Memory c1 (fcalls m)));
   free m v) = Ok (Memory c' (fcalls m)).
Proof.
  intros -> ->. destruct rd_facts as (Rv & Nv & Rp & Npv & Nd & Rg & Pv & Rs).
  assert (Sv : is_Some (take_out v rest c !! v)).
  { apply (same_bodies_some c); [apply take_out_bodies|]. apply fmap_Some in Pv as (nv & -> & _). by eexists. }
  unfold c', c2. destruct (Z.eqb_spec p NULL) as [|Np]; cbn [negb mbind res_bind].
  - unfold free. cbn [fcells]. destruct Sv as [nv Ev]. by rewrite (load_cell_ok (Memory _ _) v nv Ev).
  - destruct Rp as [|Rp]; [done|]. pose proof (ru_node _ _ _ _ H p Rp) as Dp. pose proof (ru_degree _ _ _ _ H p Rp) as B.
    rewrite <- (same_body_field fb_degree c (take_out v rest c)) in Dp; [|unfold body; by intros ?? [= _ _ _ _ ? _]|apply take_out_bodies].
    apply fmap_Some in Dp as (np & Ep & Dp). rewrite (load_cell_ok (Memory _ _) p np Ep). cbn [mbind res_bind].
    rewrite upd_ok by (cbn [fcells]; eauto). cbn [mbind res_bind fcells fcalls]. rewrite <- Dp.
    assert (Lp : length (sibs p) = S (length rest)) by (rewrite Hp; unfold rest; rewrite !length_app; simpl; lia).
    replace (u32 (Z.of_nat (length (sibs p)) - 1)) with (Z.of_nat (length rest)) by (unfold u32; rewrite Z.mod_small; lia).
    unfold free. cbn [fcells fcalls]. destruct (proj2 (alter_some (with_degree (Z.of_nat (length rest))) p v _) Sv) as [nv Ev].
    by rewrite (load_cell_ok (Memory _ _) v nv Ev).
Qed.

Lemma rd_run k : descend (S (size c)) m next = Ok v ->
  destroy_nodes (S k) m next = if decide (next' = NULL) then Ok (Memory (delete v c) (fcalls m)) else destroy_nodes k (Memory c' (fcalls m)) next'.
Proof.
  intros Ds. destruct rd_facts as (Rv & Nv & Rp & Npv & Nd & Rg & Pv & Rs).
  destruct (ring_head c v rest Rg) as (nd & End & Er & El). rewrite End in Pv. injection Pv as Pv.
  cbn [destroy_nodes]. fold c. rewrite Ds. cbn [mbind res_bind]. rewrite (load_cell_ok m v nd End). cbn [mbind res_bind].
  pose proof (rd_unlinked (take_out v rest c) nd eq_refl Pv) as Un.
  destruct rd_next_cases as [[E En]|(h & t & E & En)]; rewrite En.
  - assert (T0 : take_out v rest c = c).
    { apply map_eq. intros q. apply (take_out_outside v rest c Rg). rewrite E. apply not_elem_of_nil. }
    rewrite Er, E. cbn [hd]. rewrite Z.eqb_refl. cbn [negb]. rewrite Pv. destruct (Z.eqb_spec p NULL) as [Ep|Np]; cbn [negb].
    + rewrite decide_True by done. unfold free. by rewrite (load_cell_ok m v nd End).
    + rewrite decide_False by done. rewrite T0, Pv, (proj2 (Z.eqb_neq _ _) Np) in Un. cbn [negb] in Un.
      change (Memory c (fcalls m)) with (Memory (fcells m) (fcalls m)) in Un. destruct m as [cc kk] eqn:Em. cbn [fcells fcalls] in *.
      destruct (load _ p) as [np| | |]; cbn [mbind res_bind] in *; try done.
      destruct (upd _ p _) as [mu| | |]; cbn [mbind res_bind] in *; try done. by rewrite Un.
  - assert (Hh : h <> v /\ h <> NULL).
    { destruct (Rs h) as [Rh _]; [rewrite E; set_solver|]. split; [|by apply (ru_not_null H)].
      apply NoDup_cons in Nd as [Hv _]. rewrite E in Hv. set_solver. }
    destruct Hh as [Hhv Hh]. rewrite (decide_False (P := h = NULL)) by done.
    assert (Eh : hd v rest = h) by (by rewrite E). rewrite Er, Eh, (proj2 (Z.eqb_neq _ _) Hhv). cbn [negb].
    assert (In : forall q, q ∈ v :: rest -> is_Some (c !! q)) by (intros; by eapply ring_in).
    rewrite upd_ok by (apply In; rewrite E; set_solver). cbn [mbind res_bind].
    assert (Ev : alter (with_left (fb_left nd)) h (fcells m) !! v = Some nd) by (by rewrite lookup_alter_ne).
    rewrite (load_cell_ok (Memory _ _) v nd Ev). cbn [mbind res_bind].
    rewrite upd_ok; [|cbn [fcells]; apply alter_some, In; rewrite El; apply neighbours_in; by right].
    cbn [mbind res_bind fcells fcalls]. pose proof (take_out_comm v rest c) as Tc. rewrite Eh in Tc.
    rewrite El, Er, Eh. change (fcells m) with c.
    rewrite Tc.
    destruct (if negb (fb_parent nd =? NULL) then _ else _) as [mu| | |]; cbn [mbind res_bind] in *; try done.
    by rewrite Un.
Qed.
End Round.

(** ** The loop *)

(** Without a node to go on with, the leaf was the last node. *)
Lemma ruins_last c R sibs next v : ruins c R sibs next -> sibs NULL = [v] -> sibs v = [] -> forall b, b ∈ R -> b = v.
Proof.
  intros H Hn Hv b Hb. pose proof (ru_cover _ _ _ _ H b Hb) as P. apply rtc_inv_r in P as [->|(y & P & Hy)].
  { by destruct (ru_null _ _ _ _ H). }
  unfold child_of in Hy. rewrite Hn in Hy. apply list_elem_of_singleton in Hy as ->.
  apply rtc_inv_r in P as [|(z & _ & Hz)]; [done|]. unfold child_of in Hz. rewrite Hv in Hz. by apply elem_of_nil in Hz.
Qed.

Lemma destroy_loop k : forall m R sibs next, ruins (fcells m) R sibs next -> next ∈ R -> (size R <= k)%nat ->
  exists m', destroy_nodes k m next = Ok m' /\ forall q, fcells m' !! q = if decide (q ∈ R) then None else fcells m !! q.
Proof.
  induction k as [|k IH]; intros m R sibs next H Hn Sz.
  { exfalso. assert (E : size R = 0%nat) by lia. apply size_empty_inv in E. set_solver. }
  assert (Rc : (size R <= size (fcells m))%nat).
  { rewrite <- (size_dom (D := gset addr)). apply subseteq_size. intros a Ha. apply elem_of_dom.
    pose proof (ru_node _ _ _ _ H a Ha) as D. apply fmap_Some in D as (n & -> & _). by eexists. }
  destruct (descend_ok H m (size (fcells m)) eq_refl next []) as (v & Ds & Rv & Lf & Lv);
    [done|done|constructor; [apply not_elem_of_nil|constructor]|intros v Hv; by apply elem_of_nil in Hv|cbn; lia|].
  pose proof (ru_cover _ _ _ _ H v Rv) as P. apply rtc_inv in P as [->|(p & Hp & _)]; [by destruct (ru_null _ _ _ _ H)|].
  apply list_elem_of_split in Hp as (l1 & l2 & Hp).
  rewrite (rd_run m R sibs next v p l1 l2 H Hp Lf Lv k Ds). pose proof (rd_ruins m R sibs next v p l1 l2 H Hp Lf Lv) as Ru.
  pose proof (rd_next m R sibs next v p l1 l2 H Hp Lf Lv) as Nx. pose proof (rd_outside m R sibs next v p l1 l2 H Hp Lf Lv) as Ou.
  destruct (rd_facts m R sibs next v p l1 l2 H Hp Lf Lv) as (_ & _ & _ & _ & _ & _ & _ & Rs).
  destruct (decide (match l2 ++ l1 with [] => p | h :: _ => h end = NULL)) as [En|En].
  - eexists. split; [done|]. cbn [fcells]. assert (E : l2 ++ l1 = []).
    { destruct (l2 ++ l1) as [|h t] eqn:E; [done|]. exfalso. apply (ru_not_null H h); [|done]. apply Rs. set_solver. }
    rewrite E in En. subst p. apply app_nil in E as [-> ->]. pose proof (ruins_last _ _ _ _ v H Hp Lf) as La.
    intros q. destruct (decide (q = v)) as [->|Hq]; [by rewrite lookup_delete_eq, decide_True|].
    rewrite lookup_delete_ne, decide_False by (try congruence; intros Hr; by apply Hq, La). done.
  - destruct (Nx En) as [Rn _]. edestruct IH as (m' & -> & E); [exact (Ru En)|exact Rn| |].
    + rewrite size_difference, size_singleton by set_solver. lia.
    + exists m'. split; [done|]. intros q. rewrite E. cbn [fcells]. destruct (decide (q = v)) as [->|Hq].
      * rewrite lookup_delete_eq. by destruct (decide (v ∈ R ∖ {[v]})), (decide (v ∈ R)).
      * destruct (decide (q ∈ R)) as [Hr|Hr]; [by rewrite decide_True by set_solver|].
        rewrite decide_False by set_solver. by apply Ou.
Qed.

(** ** Heaps *)

Definition left_of C roots kids a : list addr :=
  if decide (a = NULL) then roots else if decide (is_Some (C !! a)) then kids a else [].

(** Binomial trees have small degrees. *)
Lemma degree_bound C roots kids c b N : forest c C roots kids -> binomial C kids -> weight kids roots < 2 ^ N -> is_Some (C !! b) ->
  Z.of_nat (length (kids b)) < N.
Proof.
  intros F B W Hb. destruct (fo_cover _ _ _ _ F b Hb) as (r & Hr & P). induction P as [r|b a r [Ha Hk] P IH].
  - pose proof (weight_in kids roots r Hr). apply (Z.pow_lt_mono_r_iff 2); [lia| |lia].
    destruct (Z.lt_ge_cases N 0) as [Ng|]; [|done]. rewrite Z.pow_neg_r in W by done. pose proof (weight_nonneg kids roots). lia.
  - specialize (IH Ha Hr). pose proof (weight_in kids (kids a) b Hk) as L. rewrite <- (Z.add_simpl_r (weight _ _) 1), <- (B a Ha) in L.
    assert (2 ^ Z.of_nat (length (kids b)) < 2 ^ Z.of_nat (length (kids a))) as M by lia.
    apply Z.pow_lt_mono_r_iff in M; lia.
Qed.

Lemma heap_ruins m fh C roots kids next : heap_rep m fh C roots kids -> binomial C kids -> weight kids roots < 2 ^ 64 ->
  ruins (fcells m) (dom C) (left_of C roots kids) next.
Proof.
  intros Hr B W. pose proof (hr_forest _ _ _ _ _ Hr) as F.
  assert (Nn : C !! NULL = None).
  { destruct (C !! NULL) eqn:E; [|done]. by destruct (fo_cell F NULL) as [_ ?]; [eauto|]. }
  assert (Lk : forall a, a ∈ dom C -> left_of C roots kids a = kids a /\ is_Some (C !! a)).
  { intros a Ha%elem_of_dom. unfold left_of. rewrite decide_False by (intros ->; rewrite Nn in Ha; by destruct Ha).
    by rewrite decide_True. }
  assert (Ups : forall b a, rtc (kid_of C kids) b a -> rtc (child_of (left_of C roots kids)) b a).
  { induction 1 as [|b x a [Hx Hk] P IH]; [done|]. eapply rtc_l; [|exact IH]. unfold child_of.
    destruct (Lk x) as [-> _]; [by apply elem_of_dom|done]. }
  split.
  - intros H%elem_of_dom. rewrite Nn in H. by destruct H.
  - intros a Ha. destruct (Lk a Ha) as [-> [[k v] E]]. apply (fo_node _ _ _ _ F a k v E).
  - intros a Ha. destruct (Lk a Ha) as [-> Sa]. pose proof (degree_bound C roots kids _ a 64 F B W Sa). lia.
  - intros a. unfold left_of. case_decide; [split; [apply (fo_roots _ _ _ _ F)|apply (hr_ring _ _ _ _ _ Hr)]|].
    case_decide; [by apply (fo_ring _ _ _ _ F)|]. split; [constructor|apply ring_nil].
  - intros a b. unfold left_of. case_decide as D; [subst a|case_decide as D'; [|intros Hb; by apply elem_of_nil in Hb]]; intros Hb.
    + split_and!; [apply elem_of_dom; by apply (fo_roots _ _ _ _ F)|by left|by apply (hr_parent _ _ _ _ _ Hr)].
    + split_and!; [apply elem_of_dom; by apply (fo_kid_some F a)|right; by apply elem_of_dom|by apply (fo_kid _ _ _ _ F a b)].
  - intros b Hb%elem_of_dom. destruct (fo_cover _ _ _ _ F b Hb) as (r & Rr & P). eapply rtc_r; [by apply Ups|].
    unfold child_of, left_of. by rewrite decide_True.
  - intros a Ha Hs. right. destruct (Lk a Ha) as [El [[k v] E]]. rewrite El in *.
    destruct (fo_node _ _ _ _ F a k v E) as (_ & _ & _ & Ch). exists (hd NULL (kids a)). split; [done|].
    destruct (kids a); [done|]. cbn. set_solver.
Qed.

Lemma fheap_destroy m fh C : fheap m fh C -> Z.of_nat (size C) <= num_nodes fh ->
  exists m', fib_heap_destroy m fh = Ok m' /\ forall q, fcells m' !! q = if decide (is_Some (C !! q)) then None else fcells m !! q.
Proof.
  intros (roots & kids & Hr & B & W & Lv) Ct. pose proof (hr_forest _ _ _ _ _ Hr) as F. unfold fib_heap_destroy.
  rewrite (hr_min _ _ _ _ _ Hr). destruct roots as [|h l] eqn:Er.
  - rewrite (proj1 (roots_empty _ _ _ _ _ Hr) eq_refl). cbn [hd]. rewrite Z.eqb_refl. exists m. split; [done|].
    intros q. rewrite decide_False; [done|]. intros [? E]. by rewrite lookup_empty in E.
  - destruct (fo_root_cell F h) as [_ Uh]; [set_solver|]. cbn [hd]. rewrite (proj2 (Z.eqb_neq _ _) Uh). cbn [negb].
    destruct (ring_head _ _ _ (hr_ring _ _ _ _ _ Hr)) as (nh & Eh & Rh & _). rewrite (load_cell_ok m h nh Eh). cbn [mbind res_bind].
    assert (Hn : fb_right nh ∈ h :: l) by (rewrite Rh; apply neighbours_in; by left).
    destruct (destroy_loop (Z.to_nat (num_nodes fh)) m (dom C) (left_of C (h :: l) kids) (fb_right nh)) as (m' & -> & E).
    + apply (heap_ruins m fh C (h :: l) kids); [done|done|lia].
    + apply elem_of_dom. by apply (fo_roots _ _ _ _ F).
    + rewrite size_dom. lia.
    + exists m'. split; [done|]. intros q. rewrite E. pose proof (elem_of_dom C q) as D.
      destruct (decide (q ∈ dom C)), (decide (is_Some (C !! q))); tauto.
Qed.

(** C19: Destruction of a heap whose count is at least its number of nodes, as insertion and
    extraction keep it, ends and follows no pointer to a freed node: exactly the nodes of the
    heap are freed, each once, and the others stay as they are.  So a node that extraction has
    lost stays allocated. *)
Theorem fib_heap_destroy_frees m fh C (F : fheap m fh C) (Ct : Z.of_nat (size C) <= num_nodes fh) :
  exists m', fib_heap_destroy m fh = Ok m' /\ live m' = live m - Z.of_nat (size C) /\
    forall q, fcells m' !! q = if decide (is_Some (C !! q)) then None else fcells m !! q.
Proof.
  destruct (fheap_destroy m fh C F Ct) as (m' & Run & E). exists m'. split_and!; [done| |done].
  destruct (fheap_count m fh C F) as (_ & _ & Sub).
  assert (Sd : dom C ⊆ dom (fcells m)) by (intros q Hq%elem_of_dom; by apply elem_of_dom, Sub).
  assert (Ed : dom (fcells m') = dom (fcells m) ∖ dom C).
  { apply set_eq. intros q. rewrite elem_of_difference, !elem_of_dom, E. case_decide; [|tauto].
    split; [intros [? ?]; done|intros [_ ?]; done]. }
  unfold live. rewrite <- !(size_dom (D := gset addr)), Ed, size_difference by done.
  apply subseteq_size in Sd. lia.
Qed.
End Destroy.

(** ** A run *)

Module Runs.
Import FibProps.Runs.
#[local] Existing Instance lowest_free.

Lemma insert_all_fheap ks : forall m fh C, fheap m fh C -> num_nodes fh = Z.of_nat (size C) -> live m + Z.of_nat (length ks) <= malloc_capacity ->
  Forall (fun k => is_num (num k) /\ double_eqb (num k) NEG_DBL_MAX = false) ks ->
  exists m' fh' C', insert_all ks m fh = Ok (m', fh') /\ fheap m' fh' C' /\ num_nodes fh' = Z.of_nat (size C') /\
    size C' = (size C + length ks)%nat.
Proof.
  induction ks as [|k ks IH]; intros m fh C F Nn Room Fk; cbn [insert_all length] in *; [exists m, fh, C; split_and!; [done..|lia]|].
  apply Forall_cons in Fk as [[Nk Mk] Fk]. destruct (fheap_insert m fh C (num k) k F Nk Mk) as (m1 & fh1 & -> & _ & Cn & F1 & Nn1 & Lm & _); [lia|].
  cbn [mbind res_bind]. destruct (IH m1 fh1 _ F1) as (m' & fh' & C' & -> & F' & Nn' & Sz); [|lia|done|].
  - rewrite map_size_insert_None by done. lia.
  - exists m', fh', C'. split_and!; [done..|]. rewrite Sz, map_size_insert_None by done. lia.
Qed.

(** Four nodes, of which one is taken out; it outlives the heap. *)
Lemma fib_heap_destroy_frees_witness : exists m fh m1 fh1 m2 C,
  insert_all [680; 465; 612; 100] (Memory ∅ 0) fib_heap_create = Ok (m, fh) /\
  fib_heap_extract_min logf_sample m fh = Ok (fh_min fh, m1, fh1) /\ fheap m1 fh1 C /\ C <> ∅ /\
  fib_heap_destroy m1 fh1 = Ok m2 /\ is_Some (fcells m2 !! fh_min fh) /\ (forall q, is_Some (C !! q) -> fcells m2 !! q = None).
Proof.
  destruct (insert_all_fheap [680; 465; 612; 100] (Memory ∅ 0) fib_heap_create ∅ empty_fheap) as (m & fh & C & Run & F & Nn & Sz);
    [reflexivity|vm_compute; discriminate|repeat (apply Forall_cons; split; [split; by vm_compute|]); constructor|].
  destruct (fheap_extract logf_sample m fh C F) as (n & m1 & fh1 & C1 & Ex & En & Ec & F1 & Sub & Em & Nn1 & _).
  { intros ->. rewrite map_size_empty in Sz. discriminate Sz. }
  assert (Sd : size (delete (fh_min fh) C) = 3%nat) by (rewrite map_size_delete_Some, Sz by eauto; reflexivity).
  destruct (fib_heap_destroy_frees m1 fh1 C1 F1) as (m2 & Ds & _ & E).
  { apply map_subseteq_size in Sub. rewrite Sz in Nn. cbn in Nn. lia. }
  exists m, fh, m1, fh1, m2, C1. split_and!; [exact Run|exact Ex|exact F1| |exact Ds| |].
  - intros X. rewrite (Em X), map_size_empty in Sd. discriminate Sd.
  - rewrite E, decide_False; [by exists n|]. intros [y Ey]. eapply lookup_weaken in Ey; [|exact Sub]. by rewrite lookup_delete_eq in Ey.
  - intros q Hq. by rewrite E, decide_True.
Defined.
End Runs.
