(* ===== verification/WeightedQueries.v ===== *)
(** The shortest-path queries of src/query: Dijkstra's algorithm, A* and ALT.

    They take nodes from a Fibonacci heap and keep distances in a table of doubles.  The heap
    is private to a query, so that the memory of its nodes starts empty.  The tables are created
    with the value of [rand()] as their seed; a landmark is drawn with [rand()] until one has
    at least the average degree.  Both are arguments, as [logf] and the allocator are.

    A node enters the heap when its distance got smaller, and distances are doubles: they can
    get smaller only finitely often.  The loops get a power of two of rounds ([while_fuel])
    that exceeds the number of times this can happen to all nodes of a graph; ShortestPaths.v
    and AStar.v show that they end within them. *)

From S2P Require Import Prelude Constants HTable ArrayList DiskFile PhysicalDatabase Page PageCache HeaderPage Records HeapFile Doubles FibHeap Queries.
From Stdlib Require Import ZArith Lia Floats.SpecFloat.
From stdpp Require Import base list option gmap strings.

#[local] Open Scope Z_scope.

Definition DBL_MAX : Z := 0x7FEFFFFFFFFFFFFF.

(** ** Loops *)

(** [2 ^ k] rounds of a loop, or less when a round ends it. *)
Fixpoint while_pow {S A} (k : nat) (round : S -> res (S + A)) (s : S) : res (S + A) :=
  match k with
  | O => round s
  | S k' =>
      r ← while_pow k' round s;
      match r with inl s => while_pow k' round s | inr a => Ok (inr a) end
  end.
Definition while_fuel {S A} (k : nat) (round : S -> res (S + A)) (s : S) : res A :=
  r ← while_pow k round s;
  match r with inl _ => NoFuel | inr a => Ok a end.

(** [if (log) fprintf(log_file, line);] with a file that may be null. *)
Definition fprint_when (log : bool) (line : log_line) (lf : option log_file) : res (option log_file) :=
  if log then match lf with Some f => Ok (Some (log_when true line f)) | None => Undef end else Ok lf.

(** The state of a query: the distance of each node, the relationship it was reached by, the
    nodes of the heap in memory, the heap, and the log. *)
Record sssp := Sssp {
  ds_distance : dict_ul_ul;
  ds_parents : dict_ul_ul;
  ds_memory : memory Z;
  ds_queue : fib_heap;
  ds_log : option log_file }.

Definition set_ds_log (s : sssp) (lf : option log_file) : sssp :=
  Sssp (ds_distance s) (ds_parents s) (ds_memory s) (ds_queue s) lf.
Definition set_ds_heap (s : sssp) (m : memory Z) (fh : fib_heap) : sssp :=
  Sssp (ds_distance s) (ds_parents s) m fh (ds_log s).

(** A shorter way to [temp], over [rel], was found. *)
Definition improve `{Malloc} (s : sssp) (temp new_dist : Z) (rel : relationship_t) : res sssp :=
  distance ← dict_insert (ds_distance s) temp new_dist;
  parents ← dict_insert (ds_parents s) temp (r_id rel);
  '(m, fh) ← fib_heap_insert (ds_memory s) (ds_queue s) new_dist temp;
  Ok (Sssp distance parents m fh (ds_log s)).

(** The memory of the heap before the query. *)
Definition no_nodes : memory Z := Memory ∅ 0.

(** [2 ^ 124] rounds.  A graph has less than [2 ^ 59] nodes, and the bit pattern of a distance
    that is not negative is less than [2 ^ 63] and gets less with the distance: less than
    [2 ^ 122] insertions into the heap, each of which adds a round, and that of the source. *)
Definition ROUNDS : nat := 124.

Section Dijkstra.
Context `{Sysconf} `{Malloc} (logf : spec_float -> spec_float).

(** ** Dijkstra's algorithm *)

(** [for (i < hf->n_nodes) insert(distance, get(nodes, i)->id, DBL_MAX);] *)
Definition mark_far (n_nodes : Z) (nodes : alist node_t) (d : dict_ul_ul) : res dict_ul_ul :=
  for_loop (Z.to_nat n_nodes) 0
    (fun i d => node ← array_list_get nodes i; dict_insert d (n_id node) DBL_MAX) d.

Definition relax_rel (node_id : Z) (log : bool) (rel : relationship_t) (s : sssp) : res sssp :=
  lf ← fprint_when log [LStr "dijkstra"; LStr "R"; LNum (r_id rel)] (ds_log s);
  let s := set_ds_log s lf in
  let temp := other_node node_id rel in
  own ← dict_get_direct (ds_distance s) node_id;
  let new_dist := double_add own (weight rel) in
  old ← dict_get_direct (ds_distance s) temp;
  if double_ltb new_dist old then improve s temp new_dist rel else Ok s.

(** The loop over the relationships of a node, for the two queries. *)
Definition relax_rels (relax : relationship_t -> sssp -> res sssp) (rels : alist relationship_t) (s : sssp) : res sssp :=
  for_loop (Z.to_nat (array_list_size rels)) 0 (fun i s => rel ← array_list_get rels i; relax rel s) s.

Definition dijkstra_round (direction : direction_t) (log : bool) (st : sssp * heap_file)
    : res ((sssp * heap_file) + (sssp * heap_file)) :=
  let '(s, hf) := st in
  if 0 <? num_nodes (ds_queue s) then
    '(fh_node, m, fh) ← fib_heap_extract_min logf (ds_memory s) (ds_queue s);
    let s := set_ds_heap s m fh in
    n ← load m fh_node;
    '(current_rels, hf) ← expand hf (fb_value n) direction log;
    lf ← fprint_when log [LStr "dijkstra"; LStr "N"; LNum (fb_value n)] (ds_log s);
    s ← relax_rels (relax_rel (fb_value n) log) current_rels (set_ds_log s lf);
    m ← free (ds_memory s) fh_node;
    Ok (inl (set_ds_heap s m (ds_queue s), hf))
  else Ok (inr (s, hf)).

(** The tables and the heap before the loop. *)
Definition dijkstra_start (hf : heap_file) (source_node_id : Z) (log : bool) (lf : option log_file)
    (seed_parents seed_distance : Z) : res (sssp * heap_file) :=
  let parents := d_ul_ul_create seed_parents in
  let distance := d_ul_ul_create seed_distance in
  '(nodes, hf) ← get_nodes hf log;
  distance ← mark_far (n_nodes hf) nodes distance;
  '(m, fh) ← fib_heap_insert no_nodes fib_heap_create DBL_MAX source_node_id;
  distance ← dict_insert distance source_node_id 0;
  Ok (Sssp distance parents m fh lf, hf).

Definition dijkstra (hf : heap_file) (source_node_id : Z) (direction : direction_t) (log : bool)
    (lf : option log_file) (seed_parents seed_distance : Z) : res (sssp_result * heap_file * option log_file) :=
  if source_node_id =? UNINITIALIZED_LONG then Exit
  else
    st ← dijkstra_start hf source_node_id log lf seed_parents seed_distance;
    '(s, hf) ← while_fuel ROUNDS (dijkstra_round direction log) st;
    _ ← fib_heap_destroy (ds_memory s) (ds_queue s);
    Ok (create_sssp_result source_node_id (ds_distance s) (ds_parents s), hf, ds_log s).

(** ** A* *)

(** The distance that is compared and stored includes the heuristic of the node. *)
Definition a_star_rel (heuristic : dict_ul_ul) (node_id : Z) (log : bool) (rel : relationship_t) (s : sssp) : res sssp :=
  lf ← fprint_when log [LStr "a-star R"; LNum (r_id rel)] (ds_log s);
  let s := set_ds_log s lf in
  let temp := other_node node_id rel in
  own ← dict_get_direct (ds_distance s) node_id;
  h ← dict_get_direct heuristic node_id;
  let new_dist := double_add (double_add own (weight rel)) h in
  known ← dict_contains (ds_distance s) temp;
  better ← (if known : bool then old ← dict_get_direct (ds_distance s) temp; Ok (double_ltb new_dist old) else Ok true);
  if better : bool then improve s temp new_dist rel else Ok s.

(** The result is the path to the target, when it is taken from the heap, or the state in
    which the heap is empty. *)
Definition a_star_round (heuristic : dict_ul_ul) (source_node_id target_node_id : Z) (direction : direction_t) (log : bool)
    (st : sssp * heap_file) : res ((sssp * heap_file) + (path * heap_file * option log_file)) :=
  let '(s, hf) := st in
  if 0 <? num_nodes (ds_queue s) then
    '(fh_node, m, fh) ← fib_heap_extract_min logf (ds_memory s) (ds_queue s);
    let s := set_ds_heap s m fh in
    n ← load m fh_node;
    if fb_value n =? target_node_id then
      m ← free m fh_node;
      _ ← fib_heap_destroy m fh;
      '(p, hf) ← construct_path hf source_node_id target_node_id (ds_parents s) (bool_decide (is_Some (ds_log s)));
      Ok (inr (p, hf, ds_log s))
    else
      '(current_rels, hf) ← expand hf (fb_value n) direction log;
      lf ← fprint_when log [LStr "a-star N"; LNum (fb_value n)] (ds_log s);
      s ← relax_rels (a_star_rel heuristic (fb_value n) log) current_rels (set_ds_log s lf);
      m ← free (ds_memory s) fh_node;
      Ok (inl (set_ds_heap s m (ds_queue s), hf))
  else
    _ ← fib_heap_destroy (ds_memory s) (ds_queue s);
    p ← create_path source_node_id target_node_id DBL_MAX array_list_create;
    Ok (inr (p, hf, ds_log s)).

(** The tables and the heap before the loop. *)
Definition a_star_start (hf : heap_file) (source_node_id : Z) (lf : option log_file) (seed_parents seed_distance : Z)
    : res (sssp * heap_file) :=
  let parents := d_ul_ul_create seed_parents in
  let distance := d_ul_ul_create seed_distance in
  '(m, fh) ← fib_heap_insert no_nodes fib_heap_create DBL_MAX source_node_id;
  distance ← dict_insert distance source_node_id 0;
  Ok (Sssp distance parents m fh lf, hf).

Definition a_star (hf : heap_file) (heuristic : dict_ul_ul) (source_node_id target_node_id : Z) (direction : direction_t)
    (log : bool) (lf : option log_file) (seed_parents seed_distance : Z) : res (path * heap_file * option log_file) :=
  if (source_node_id =? UNINITIALIZED_LONG) || (target_node_id =? UNINITIALIZED_LONG) then Exit
  else
    st ← a_star_start hf source_node_id lf seed_parents seed_distance;
    while_fuel ROUNDS (a_star_round heuristic source_node_id target_node_id direction log) st.

(** ** ALT *)

(** A float as a double, and a [size_t] as a double. *)
Definition f64_of_f32 (x : spec_float) : spec_float :=
  match x with
  | S754_finite s m e => binary_normalize 53 1024 (if s then Z.neg m else Z.pos m) e s
  | _ => x
  end.
Definition f64_of_Z (n : Z) : spec_float := binary_normalize 53 1024 n 0 false.

(** The loop that draws a landmark; [draws] are the results of the calls of [rand()], and the
    loop goes on as long as the degree is below the average.  The other draws are left. *)
Fixpoint draw_landmark (draws : list Z) (hf : heap_file) (nodes : alist node_t) (avg_degree : spec_float)
    (direction : direction_t) (log : bool) (lf : option log_file) : res (Z * list Z * heap_file * option log_file) :=
  match draws with
  | [] => NoFuel
  | r :: draws' =>
      if n_nodes hf =? 0 then Undef
      else
        node ← array_list_get nodes (r mod n_nodes hf);
        let landmark_id := n_id node in
        lf ← fprint_when log [LStr "alt_chose_avg_deg_rand_landmark N"; LNum landmark_id] lf;
        '(degree, hf, lf) ← get_degree hf landmark_id direction log lf;
        if SFltb (f64_of_Z degree) avg_degree then draw_landmark draws' hf nodes avg_degree direction log lf
        else Ok (landmark_id, draws', hf, lf)
  end.

Definition alt_chose_avg_deg_rand_landmark (draws : list Z) (hf : heap_file) (direction : direction_t) (log : bool)
    (lf : option log_file) : res (Z * list Z * heap_file * option log_file) :=
  '(nodes, hf) ← get_nodes hf log;
  '(avg_degree, hf, lf) ← get_avg_degree hf direction log lf;
  draw_landmark draws hf nodes (f64_of_f32 avg_degree) direction log lf.

(** One table of distances for each landmark; [seeds i] are the seeds of the tables of the
    [i]-th run of [dijkstra]. *)
Definition alt_preprocess (draws : list Z) (seeds : nat -> Z * Z) (hf : heap_file) (d : direction_t) (num_landmarks : Z)
    (log : bool) (lf : option log_file) : res (list dict_ul_ul * list Z * heap_file * option log_file) :=
  for_loop (Z.to_nat num_landmarks) 0
    (fun i '(landmark_dists, draws, hf, lf) =>
       '(landmark, draws, hf, lf) ← alt_chose_avg_deg_rand_landmark draws hf d log lf;
       let '(seed_parents, seed_distance) := seeds (Z.to_nat i) in
       '(result, hf, lf) ← dijkstra hf landmark d log lf seed_parents seed_distance;
       Ok (landmark_dists ++ [distances result], draws, hf, lf))
    ([], draws, hf, lf).

(** The heuristic of a node after the landmark with the distances [dists]. *)
Definition alt_node (dists : dict_ul_ul) (target_node_id : Z) (log : bool) (node : node_t)
    (st : dict_ul_ul * option log_file) : res (dict_ul_ul * option log_file) :=
  let '(heuristic, lf) := st in
  from ← dict_get_direct dists (n_id node);
  to ← dict_get_direct dists target_node_id;
  let temp_dist := double_abs (double_sub from to) in
  lf ← fprint_when log [LStr "alt N"; LNum (n_id node)] lf;
  known ← dict_contains heuristic (n_id node);
  smaller ← (if negb known then Ok true else old ← dict_get_direct heuristic (n_id node); Ok (double_ltb temp_dist old));
  if smaller : bool then heuristic ← dict_insert heuristic (n_id node) temp_dist; Ok (heuristic, lf) else Ok (heuristic, lf).

Definition alt (hf : heap_file) (landmark_dists : list dict_ul_ul) (num_landmarks source_node_id target_node_id : Z)
    (direction : direction_t) (log : bool) (lf : option log_file) (seed_heuristic seed_parents seed_distance : Z)
    : res (path * heap_file * option log_file) :=
  let heuristic := d_ul_ul_create seed_heuristic in
  '(nodes, hf) ← get_nodes hf log;
  '(heuristic, lf) ←
    for_loop (Z.to_nat num_landmarks) 0
      (fun i st =>
         dists ← deref (landmark_dists !! Z.to_nat i);
         for_loop (Z.to_nat (array_list_size nodes)) 0
           (fun j st => node ← array_list_get nodes j; alt_node dists target_node_id log node st) st)
      (heuristic, lf);
  a_star hf heuristic source_node_id target_node_id direction log lf seed_parents seed_distance.
End Dijkstra.
