(* ===== verification/ShortestPaths.v ===== *)
(** Dijkstra's algorithm on a heap file that represents a graph.

    The length of a walk is the sum of its weights in the order of the walk, each sum rounded
    to a double.  Rounded addition of weights that are not negative is monotone and does not
    decrease ([double_add_ge], [double_add_mono]), which is what the argument needs: [labels]
    is the invariant of label correction, distances are lengths of walks and the relationships
    of nodes that are not open are relaxed.

    The loop ends because a node is put into the heap only when its distance got smaller: the
    sum of all distances, as bit patterns, counted twice, and the count of the heap, together
    decrease in every round ([work]).

    The heap can lose nodes (FibProps.v).  The invariant counts them: a node is open as long
    as it is pending or anything was lost.  The loop ends with [num_nodes] zero, and then
    nothing was lost; after a loss it comes to a state in which the heap is empty and its
    count is not ([drained]), and the program ends with "minimum is not set".  The statements
    have the form of [returns E]: a program that exits does so because of [E], and otherwise
    returns a result. *)

From S2P Require Import Prelude Constants LinkedList HTable ArrayList DiskFile PhysicalDatabase Page PageCache PageCacheInv HeaderPage Records HeapFile HeapFileInv HeapRecords HeapStore Chains Incidence Traversal Doubles Queries Walks Searches Paths HeapProps DoubleOrder FibHeap FibTable FibRing FibProps WeightedQueries.
From Stdlib Require Import ZArith Lia Floats.SpecFloat.
From stdpp Require Import base list list_numbers option fin_maps gmap strings.

#[local] Open Scope Z_scope.

(** ** Programs that exit or return *)

Definition returns {A} (E : Prop) (r : res A) (P : A -> Prop) : Prop :=
  match r with Ok a => P a | Exit => E | Undef | NoFuel => False end.

Section Returns.
Context {A B : Type} (E : Prop).
Implicit Types (r : res A) (f : A -> res B) (P : A -> Prop) (Q : B -> Prop).

Lemma returns_bind r f P Q : returns E r P -> (forall a, P a -> returns E (f a) Q) -> returns E (r ≫= f) Q.
Proof. destruct r; simpl; auto. Qed.
Lemma returns_step r f Q a : r = Ok a -> returns E (f a) Q -> returns E (r ≫= f) Q.
Proof. by intros ->. Qed.
Lemma returns_ok r P a : r = Ok a -> P a -> returns E r P.
Proof. by intros ->. Qed.
Lemma returns_weaken (E' : Prop) r P P' : returns E r P -> (E -> E') -> (forall a, P a -> P' a) -> returns E' r P'.
Proof. destruct r; simpl; auto. Qed.
Lemma returns_cases r P : returns E r P -> (r = Exit /\ E) \/ exists a, r = Ok a /\ P a.
Proof. destruct r; simpl; naive_solver. Qed.
End Returns.

Lemma for_each_returns {A S} (E : Prop) (I : list A -> S -> Prop) (body : A -> S -> res S) xs s : I [] s ->
  (forall ys x zs s, xs = ys ++ x :: zs -> I ys s -> returns E (body x s) (I (ys ++ [x]))) ->
  returns E (for_each body xs s) (I xs).
Proof.
  intros H0 Hs. cut (forall zs ys s, xs = ys ++ zs -> I ys s -> returns E (for_each body zs s) (I xs)).
  { intros C. by apply (C xs []). }
  intros zs. induction zs as [|x zs IH]; intros ys t Eq H1; cbn [for_each].
  - rewrite app_nil_r in Eq. by subst.
  - apply (returns_bind _ _ _ (I (ys ++ [x]))); [by eapply Hs|]. intros t' H2. apply (IH (ys ++ [x])); [by rewrite <- app_assoc|done].
Qed.

(** A round that goes on, and a loop whose rounds decrease a measure: when it exits, it does so
    in a state that the rounds lead to. *)
Definition next_round {S A} (round : S -> res (S + A)) (s s' : S) : Prop := round s = Ok (inl s').

Lemma while_returns {S A} (I : S -> Prop) (E : S -> Prop) (mu : S -> Z) (P : A -> Prop) (round : S -> res (S + A)) k s :
  (forall s, I s -> returns (E s) (round s) (fun r => match r with inl s' => I s' /\ mu s' < mu s | inr a => P a end)) ->
  (forall s, I s -> 0 <= mu s) -> I s -> mu s < 2 ^ Z.of_nat k ->
  returns (exists s', rtc (next_round round) s s' /\ E s') (while_fuel k round s) P.
Proof.
  intros Hr Hm Hs Hk.
  assert (W : forall k s, I s -> returns (exists s', rtc (next_round round) s s' /\ E s') (while_pow k round s)
    (fun r => match r with
              | inl s' => I s' /\ rtc (next_round round) s s' /\ mu s' + 2 ^ Z.of_nat k <= mu s
              | inr a => P a
              end)).
  { intros j. induction j as [|j IH]; intros t Ht; cbn [while_pow].
    - specialize (Hr t Ht). destruct (round t) as [[t'|a]| | |] eqn:Er; cbn [returns] in *; try done.
      + destruct Hr as [? ?]. split_and!; [done|by apply rtc_once|]. cbn. lia.
      + by exists t.
    - eapply returns_bind; [by apply IH|]. intros [t'|a]; [|done]. intros (It & Rt & Lt).
      eapply returns_weaken; [by apply IH| |].
      + intros (t2 & R2 & E2). exists t2. split; [by etrans|done].
      + intros [t2|a]; [|done]. intros (It2 & Rt2 & Lt2). split_and!; [done|by etrans|].
        rewrite Nat2Z.inj_succ, Z.pow_succ_r by lia. lia. }
  unfold while_fuel. eapply returns_bind; [by apply W|]. intros [t|a]; [|done]. intros (It & _ & Lt). specialize (Hm t It). lia.
Qed.

(** ** Sums of distances *)

Definition sum_of (D : gmap Z Z) : Z := map_fold (fun _ k s => k + s) 0 D.

Lemma sum_insert_new D n k : D !! n = None -> sum_of (<[n := k]> D) = k + sum_of D.
Proof. intros E. unfold sum_of. rewrite map_fold_insert_L; [done|intros; lia|done]. Qed.
Lemma sum_insert D n j k : D !! n = Some j -> sum_of (<[n := k]> D) = sum_of D - j + k.
Proof.
  intros E. rewrite <- (insert_delete_id D n j E) at 2. rewrite <- insert_delete_eq, !sum_insert_new by apply lookup_delete_eq. lia.
Qed.
Lemma sum_bounds D b : (forall n k, D !! n = Some k -> 0 <= k <= b) -> 0 <= sum_of D <= Z.of_nat (size D) * b.
Proof.
  induction D as [|n k D E IH] using map_ind; intros H; [by rewrite map_size_empty|].
  rewrite sum_insert_new, map_size_insert_None by done. pose proof (H n k (lookup_insert_eq _ _ _)).
  assert (0 <= sum_of D <= Z.of_nat (size D) * b); [|lia]. apply IH. intros m j Ej. apply (H m).
  rewrite lookup_insert_ne; [done|]. intros ->. congruence.
Qed.

(** ** Lengths of walks *)

(** The weights are doubles that are not negative; the order of such doubles is that of
    their patterns. *)
Definition weights_ok (G : graph) : Prop := forall x e, g_edges G !! x = Some e -> 0 <= e_weight e <= INFINITY_BITS.

(** [k] is the length of a shortest walk from [a] to [b], or [DBL_MAX] if none is shorter. *)
Definition shortest (G : graph) (d : direction_t) (a b k : Z) : Prop :=
  (forall xs, walk G d a xs b -> k <= length_of G xs) /\
  ((exists xs, walk G d a xs b /\ length_of G xs = k /\ k < DBL_MAX) \/ k = DBL_MAX).

Section Labels.
Context (G : graph) (d : direction_t) (src : Z).
Hypothesis Ends : forall a x b, step G d a x b -> is_Some (g_labels G !! a) /\ is_Some (g_labels G !! b).
Hypothesis Wt : weights_ok G.
Implicit Types (D P : gmap Z Z) (open : Z -> Prop) (n x u v k j : Z).

Lemma weight_of_range x : 0 <= weight_of G x <= INFINITY_BITS.
Proof. unfold weight_of. destruct (g_edges G !! x) as [e|] eqn:E; [by apply (Wt x)|]. unfold INFINITY_BITS. lia. Qed.

Lemma max_range k : 0 <= k <= DBL_MAX -> 0 <= k <= INFINITY_BITS.
Proof. unfold DBL_MAX, INFINITY_BITS. lia. Qed.

Lemma length_of_range xs : 0 <= length_of G xs <= INFINITY_BITS.
Proof.
  induction xs as [|x xs IH] using rev_ind; [unfold length_of, INFINITY_BITS; cbn; lia|].
  unfold length_of, add_weights in *. rewrite foldl_app. simpl. apply double_add_range; [done|apply weight_of_range].
Qed.

Lemma length_of_snoc xs x : length_of G (xs ++ [x]) = double_add (length_of G xs) (weight_of G x).
Proof. unfold length_of, add_weights. by rewrite foldl_app. Qed.

Record labels D P open : Prop := Labels {
  lb_dom : forall n, is_Some (D !! n) <-> is_Some (g_labels G !! n);
  lb_range : forall n k, D !! n = Some k -> 0 <= k <= DBL_MAX;
  lb_source : D !! src = Some 0;
  lb_walk : forall n k, D !! n = Some k -> (exists xs, walk G d src xs n /\ length_of G xs = k /\ k < DBL_MAX) \/ k = DBL_MAX;
  lb_relaxed : forall u k x n j, D !! u = Some k -> ~ open u -> step G d u x n -> D !! n = Some j ->
    j <= double_add k (weight_of G x);
  lb_pred : forall n x, P !! n = Some x -> n <> src /\ exists u k j, step G d u x n /\ D !! u = Some k /\ D !! n = Some j /\
    double_add k (weight_of G x) <= j;
  lb_tree : forall n k, D !! n = Some k -> k < DBL_MAX -> n <> src -> is_Some (P !! n) }.

Lemma labels_weaken D P open open' : labels D P open -> (forall u, open u -> open' u) -> labels D P open'.
Proof. intros [A1 A2 A3 A4 A5 A6 A7] Ho. split; try done. intros u k x n j E Nu. apply (A5 u k x n j E). auto. Qed.

(** A label is improved over a relationship from [u]. *)
Lemma labels_improve D P open u k x n j : labels D P open -> D !! u = Some k -> step G d u x n -> D !! n = Some j ->
  double_add k (weight_of G x) < j ->
  labels (<[n := double_add k (weight_of G x)]> D) (<[n := x]> P) (fun v => v = n \/ open v).
Proof.
  intros L Eu St En Lt. pose proof (max_range k (lb_range _ _ _ L u k Eu)) as Rk. pose proof (lb_range _ _ _ L n j En) as Rj.
  pose proof (weight_of_range x) as Rw. pose proof (double_add_range k _ Rk Rw) as Ra.
  pose proof (double_add_ge k _ Rk Rw) as Ge. set (w := double_add k (weight_of G x)) in *.
  assert (Nu : n <> u) by (intros ->; assert (j = k) by congruence; lia).
  assert (Ns : n <> src) by (intros ->; rewrite (lb_source _ _ _ L) in En; injection En as <-; lia).
  assert (Old : forall v i, D !! v = Some i -> exists i', <[n := w]> D !! v = Some i' /\ i' <= i).
  { intros v i Ev. destruct (decide (n = v)) as [->|Hv]; [exists w; rewrite lookup_insert_eq; split; [done|]; assert (i = j) by congruence; lia|].
    exists i. rewrite lookup_insert_ne by done. by split. }
  split.
  - intros v. rewrite <- (lb_dom _ _ _ L v). destruct (decide (n = v)) as [->|Hv]; [rewrite lookup_insert_eq, En; by split; eauto|].
    by rewrite lookup_insert_ne.
  - intros v i [[<- <-]|[Hv Ev]]%lookup_insert_Some; [lia|by apply (lb_range _ _ _ L v)].
  - rewrite lookup_insert_ne by done. apply L.
  - intros v i [[<- <-]|[Hv Ev]]%lookup_insert_Some; [|by apply (lb_walk _ _ _ L)]. left.
    destruct (lb_walk _ _ _ L u k Eu) as [(xs & Wk & Lk & _)| ->]; [|lia].
    exists (xs ++ [x]). split_and!; [by eapply walk_snoc|by rewrite length_of_snoc, Lk|lia].
  - intros a ka y b jb Ea Na Sy Eb. apply lookup_insert_Some in Ea as [[<- <-]|[Ha Ea]]; [naive_solver|].
    assert (Na' : ~ open a) by auto. destruct (Ends a y b Sy) as [_ Hb]. apply (lb_dom _ _ _ L) in Hb as [ib Eb'].
    pose proof (lb_relaxed _ _ _ L a ka y b ib Ea Na' Sy Eb') as Rl.
    destruct (Old b ib Eb') as (ib' & Eb2 & Le). assert (ib' = jb) by congruence. lia.
  - intros v y [[<- <-]|[Hv Ev]]%lookup_insert_Some.
    + split; [done|]. exists u, k, w. rewrite lookup_insert_eq, lookup_insert_ne by done. by split_and!.
    + destruct (lb_pred _ _ _ L v y Ev) as (Vs & a & ka & jv & Sa & Ea & Ej & Le). split; [done|].
      destruct (Old a ka Ea) as (ka' & Ea' & La). exists a, ka', jv. rewrite (lookup_insert_ne D n v) by done.
      split_and!; [done..|]. pose proof (weight_of_range y) as Ry. pose proof (max_range _ (lb_range _ _ _ L a ka Ea)) as Rka.
      assert (Rka' : 0 <= ka' <= INFINITY_BITS).
      { apply lookup_insert_Some in Ea' as [[_ <-]|[_ Ea']]; [done|]. by apply max_range, (lb_range _ _ _ L a). }
      pose proof (double_add_mono ka' (weight_of G y) Rka' Ry ka Rka La). lia.
  - intros v i [[<- <-]|[Hv Ev]]%lookup_insert_Some Lt' Vs; [rewrite lookup_insert_eq; eauto|].
    rewrite lookup_insert_ne by done. by apply (lb_tree _ _ _ L v i).
Qed.

(** At the end, with no open nodes. *)
Lemma labels_least D P xs n k : labels D P (fun _ => False) -> walk G d src xs n -> D !! n = Some k -> k <= length_of G xs.
Proof.
  intros L W. revert k. induction W as [|xs b x c W IH St]; intros k E.
  - rewrite (lb_source _ _ _ L) in E. injection E as <-. cbn. lia.
  - destruct (Ends b x c St) as [Hb _]. apply (lb_dom _ _ _ L) in Hb as [j Ej]. specialize (IH j Ej).
    pose proof (lb_relaxed _ _ _ L b j x c k Ej (fun h => h) St E) as Rl. rewrite length_of_snoc.
    pose proof (double_add_mono j (weight_of G x) (max_range _ (lb_range _ _ _ L b j Ej)) (weight_of_range x) _ (length_of_range xs) IH). lia.
Qed.

Lemma labels_shortest D P n k : labels D P (fun _ => False) -> D !! n = Some k -> shortest G d src n k.
Proof. intros L E. split; [intros xs W; by apply (labels_least D P xs n k)|by apply (lb_walk _ _ _ L)]. Qed.

Lemma labels_tree D P n k : labels D P (fun _ => False) -> D !! n = Some k -> n <> src -> k < DBL_MAX ->
  exists x u j, P !! n = Some x /\ step G d u x n /\ D !! u = Some j /\ k = double_add j (weight_of G x).
Proof.
  intros L E Ns Lt. destruct (lb_tree _ _ _ L n k E Lt Ns) as [x Ex].
  destruct (lb_pred _ _ _ L n x Ex) as (_ & u & j & k' & St & Eu & En & Le). assert (k' = k) as -> by congruence.
  exists x, u, j. split_and!; try done. pose proof (lb_relaxed _ _ _ L u j x n k Eu (fun h => h) St E). lia.
Qed.
End Labels.

(** ** The simulation *)

(** A node is pending when it is in the heap, or when a node was lost. *)
Definition pending (C : gmap addr (Z * Z)) (lost v : Z) : Prop := 0 < lost \/ exists p k, C !! p = Some (k, v).

Lemma double_key w : 0 <= w <= INFINITY_BITS -> is_num w /\ double_eqb w NEG_DBL_MAX = false.
Proof.
  unfold INFINITY_BITS. intros Hw. assert (N : double_is_nan w = false) by (unfold double_is_nan; apply Z.ltb_ge; lia).
  split; [split; [unfold is_u64; lia|done]|]. unfold double_eqb. rewrite N. change (double_is_nan NEG_DBL_MAX) with false.
  change (NEG_DBL_MAX mod 2 ^ 63 =? 0) with false. rewrite (proj2 (Z.eqb_neq _ _)) by (unfold NEG_DBL_MAX; lia).
  by rewrite andb_false_r.
Qed.

Lemma double_ltb_nonneg a b : 0 <= a <= INFINITY_BITS -> 0 <= b <= INFINITY_BITS -> double_ltb a b = (a <? b).
Proof.
  unfold INFINITY_BITS. intros Ha Hb. assert (N : forall w, 0 <= w <= INFINITY_BITS -> is_num w).
  { unfold INFINITY_BITS. intros w Hw. split; [unfold is_u64; lia|]. unfold double_is_nan. apply Z.ltb_ge. lia. }
  rewrite double_ltb_rank by (apply N; unfold INFINITY_BITS; lia). unfold rank.
  by rewrite !(proj2 (Z.ltb_lt _ (2 ^ 63))) by lia.
Qed.

Section Simulation.
Context `{RecordPages} `{Malloc} (logf : spec_float -> spec_float) `{!LogfBounds logf}.
Context (G : graph) (d : direction_t) (src : Z) (log : bool).
Hypothesis Ends : forall a x b, step G d a x b -> is_Some (g_labels G !! a) /\ is_Some (g_labels G !! b).
Hypothesis Wt : weights_ok G.
Implicit Types (D P : gmap Z Z) (C : gmap addr (Z * Z)) (s : sssp) (n x u v k j lost : Z).

Record dsim s D P C lost : Prop := Dsim {
  di_dist : wf fnv_hash_ul (ds_distance s) /\ contents (ds_distance s) = D;
  di_par : wf fnv_hash_ul (ds_parents s) /\ contents (ds_parents s) = P;
  di_heap : fheap (ds_memory s) (ds_queue s) C;
  di_count : num_nodes (ds_queue s) = Z.of_nat (size C) + lost /\ 0 <= lost;
  di_nodes : forall p k v, C !! p = Some (k, v) -> is_Some (g_labels G !! v);
  di_log : log = true -> is_Some (ds_log s) }.

(** Twice the sum of the distances, and the count of the heap. *)
Definition work s D : Z := 2 * sum_of D + num_nodes (ds_queue s).

(** The program exits when the count of the heap is not zero and its minimum is not set. *)
Definition drained s : Prop := 0 < num_nodes (ds_queue s) /\ fh_min (ds_queue s) = NULL.
(** The memory may become full in this round: not all relationships of the next node find
    room for another one. *)
Definition memory_short (st : sssp * heap_file) : Prop := exists nd rels hf',
  fcells (ds_memory st.1) !! fh_min (ds_queue st.1) = Some nd /\ expand st.2 (fb_value nd) d log = Ok (rels, hf') /\
  malloc_capacity < live (ds_memory st.1) + array_list_size rels.

Lemma fprint_returns E line lf : (log = true -> is_Some lf) -> returns E (fprint_when log line lf) (fun lf' => log = true -> is_Some lf').
Proof. unfold fprint_when. destruct log; [|done]. intros [f ->]; [done|]. simpl. eauto. Qed.

Lemma improve_sim s D P C lost v w r : dsim s D P C lost -> 0 <= w <= INFINITY_BITS -> is_Some (g_labels G !! v) ->
  returns (malloc_capacity <= live (ds_memory s)) (improve s v w r)
    (fun s' => exists C', dsim s' (<[v := w]> D) (<[v := r_id r]> P) C' lost /\
      (exists p, C' = <[p := (w, v)]> C /\ C !! p = None) /\ num_nodes (ds_queue s') = num_nodes (ds_queue s) + 1 /\
      live (ds_memory s') = live (ds_memory s) + 1 /\
      forall q, is_Some (fcells (ds_memory s) !! q) -> C !! q = None ->
        fcells (ds_memory s') !! q = fcells (ds_memory s) !! q /\ C' !! q = None).
Proof.
  intros [[Wd Cd] [Wp Cp] F [Nn Ls] Nv Lg] Hw Hv. unfold improve. destruct (double_key w Hw) as [Kn Km].
  destruct (dict_insert_ok (ds_distance s) v w Wd) as (t1 & -> & W1 & C1). cbn [mbind res_bind].
  destruct (dict_insert_ok (ds_parents s) v (r_id r) Wp) as (t2 & -> & W2 & C2). cbn [mbind res_bind].
  destruct (Z.lt_ge_cases (live (ds_memory s)) malloc_capacity) as [Room|Full]; [|by rewrite fib_insert_full].
  destruct (fheap_insert _ _ _ w v F Kn Km Room) as (m' & fh' & -> & Fr & Cn & F' & Nn' & Lm & O). cbn [mbind res_bind returns].
  set (p := next_addr (ds_memory s)) in *. exists (<[p := (w, v)]> C). split_and!; [|by exists p|done|done|].
  - split; cbn; [by rewrite C1, Cd|by rewrite C2, Cp|done| | |done].
    + rewrite map_size_insert_None by done. lia.
    + intros q k u [[_ [= _ <-]]|[_ E]]%lookup_insert_Some; [done|by eapply Nv].
  - intros q Hq Cq. assert (Hp : p <> q) by (intros <-; rewrite Fr in Hq; by destruct Hq).
    assert (Cq' : <[p := (w, v)]> C !! q = None) by (by rewrite lookup_insert_ne). split; [|done]. by apply O.
Qed.

(** The state in the round of [u], which was taken from the heap at [z], after the
    relationships [ys]. *)
Record relaxing s0 D0 u k z (nd : fb_node Z) lost (ys : list relationship_t) s D P C : Prop := Relaxing {
  rx_sim : dsim s D P C lost;
  rx_labels : labels G d src D P (fun v => v = u \/ pending C lost v);
  rx_own : D !! u = Some k;
  rx_seen : forall r j, r ∈ ys -> D !! other_node u r = Some j -> j <= double_add k (weight r);
  rx_node : fcells (ds_memory s) !! z = Some nd /\ C !! z = None;
  rx_count : num_nodes (ds_queue s) < live (ds_memory s) <= live (ds_memory s0) + Z.of_nat (length ys);
  rx_work : work s D <= work s0 D0 }.

Lemma relax_rel_returns s0 D0 u k z nd lost ys r s D P C : relaxing s0 D0 u k z nd lost ys s D P C ->
  step G d u (r_id r) (other_node u r) -> weight_of G (r_id r) = weight r ->
  returns (malloc_capacity <= live (ds_memory s0) + Z.of_nat (length ys)) (relax_rel u log r s)
    (fun s' => exists D' P' C', relaxing s0 D0 u k z nd lost (ys ++ [r]) s' D' P' C').
Proof.
  intros [Si L Eu Sn [Ez Cz] [Ct1 Ct2] Wk] St Ew. unfold relax_rel. set (b := other_node u r) in *.
  eapply returns_bind; [apply fprint_returns, (di_log _ _ _ _ _ Si)|]. intros lf Hl.
  set (s1 := set_ds_log s lf). assert (Si1 : dsim s1 D P C lost) by (destruct Si; by split).
  destruct (di_dist _ _ _ _ _ Si1) as [Wd Cd]. destruct (Ends _ _ _ St) as [_ Hb]. pose proof Hb as Hb'.
  apply (lb_dom _ _ _ _ _ _ L) in Hb as [j Ej]. rewrite !dict_get_ok, Cd, Eu, Ej by done. cbn [or_exit mbind res_bind].
  pose proof (max_range k (lb_range _ _ _ _ _ _ L u k Eu)) as Rk. pose proof (lb_range _ _ _ _ _ _ L b j Ej) as Rj.
  pose proof (weight_of_range G Wt (r_id r)) as Rw. rewrite Ew in Rw. pose proof (double_add_range k _ Rk Rw) as Ra.
  rewrite double_ltb_nonneg by (done || by apply max_range). destruct (Z.ltb_spec (double_add k (weight r)) j) as [Lt|Ge].
  - assert (Hbu : b <> u) by (intros Hbu; pose proof (double_add_ge k _ Rk Rw); rewrite Hbu in Ej; assert (j = k) by congruence; lia).
    eapply returns_weaken; [apply (improve_sim s1 D P C lost b (double_add k (weight r)) r Si1); [lia|done]|cbn; lia|].
    intros s' (C' & Si' & (p & -> & Fp) & Nn' & Lm' & Fr). exists (<[b := double_add k (weight r)]> D), (<[b := r_id r]> P), (<[p := (double_add k (weight r), b)]> C).
    split.
    + done.
    + rewrite <- Ew. eapply labels_weaken; [eapply (labels_improve G d src Ends Wt D P _ u k (r_id r) b j); try done; by rewrite Ew|].
      intros v [->|[->|[Hl'|(q & kq & Eq)]]]; [right; right|by left|right; by left|right; right].
      * exists p, (double_add k (weight_of G (r_id r))). by rewrite lookup_insert_eq.
      * exists q, kq. rewrite lookup_insert_ne; [done|]. intros ->. congruence.
    + by rewrite lookup_insert_ne.
    + intros r' i Hr'. destruct (decide (b = other_node u r')) as [Eb|Nb].
      * rewrite <- Eb, lookup_insert_eq. intros [= <-]. apply elem_of_app in Hr' as [Hr'| ->%list_elem_of_singleton]; [|done].
        specialize (Sn r' j Hr'). rewrite <- Eb in Sn. specialize (Sn Ej). lia.
      * rewrite lookup_insert_ne by done. apply elem_of_app in Hr' as [Hr'| ->%list_elem_of_singleton]; [by apply Sn|done].
    + destruct (Fr z) as [-> ->]; [cbn; eauto|done|]. done.
    + rewrite length_app, Nn', Lm'. cbn. lia.
    + unfold work in *. rewrite (sum_insert D b j _ Ej), Nn'. cbn [ds_queue s1 set_ds_log]. lia.
  - simpl. exists D, P, C. split; try done; [|rewrite length_app; cbn; lia]. intros r' i [Hr'| ->%list_elem_of_singleton]%elem_of_app; [by apply Sn|].
    fold b. intros Ei. assert (i = j) as -> by congruence. done.
Qed.

(** After all relationships of [u] the node is closed. *)
Lemma labels_close D P u k (open : Z -> Prop) (rs : list relationship_t) : labels G d src D P (fun v => v = u \/ open v) ->
  D !! u = Some k -> (forall x b, step G d u x b -> exists r, r ∈ rs /\ r_id r = x /\ other_node u r = b) ->
  (forall r, r ∈ rs -> weight_of G (r_id r) = weight r) ->
  (forall r j, r ∈ rs -> D !! other_node u r = Some j -> j <= double_add k (weight r)) -> labels G d src D P open.
Proof.
  intros L Eu Hs Hw Sn. split; try apply L. intros a ka x b j Ea Na St Eb. destruct (decide (a = u)) as [->|Hu].
  - assert (ka = k) as -> by congruence. destruct (Hs x b St) as (r & Hr & <- & <-). rewrite (Hw r Hr). by apply (Sn r).
  - apply (lb_relaxed _ _ _ _ _ _ L a ka x b j Ea); [naive_solver|done|done].
Qed.

(** Taking a node from the heap: what was pending is the node, or pending, or lost. *)
Lemma pop_pending C C' lost lost' z kz u num : C !! z = Some (kz, u) -> C' ⊆ delete z C ->
  num = Z.of_nat (size C) + lost -> num - 1 = Z.of_nat (size C') + lost' -> 0 <= lost ->
  0 <= lost' /\ forall v, pending C lost v -> v = u \/ pending C' lost' v.
Proof.
  intros Ez Sub N1 N2 L0. assert (Sz : size C = S (size (delete z C))).
  { rewrite map_size_delete_Some by eauto. destruct (size C) eqn:E0; [|done]. apply map_size_empty_inv in E0. subst. by rewrite lookup_empty in Ez. }
  pose proof (map_subseteq_size _ _ Sub) as Le. split; [lia|]. intros v [Hl|(p & kp & Ep)]; [right; left; lia|].
  destruct (decide (p = z)) as [->|Hp]; [left; congruence|]. right. destruct (C' !! p) as [[k' v']|] eqn:E'.
  - right. exists p, k'. rewrite E'. assert (E2 : delete z C !! p = Some (k', v')) by (by eapply lookup_weaken).
    rewrite lookup_delete_ne in E2 by done. congruence.
  - left. assert (Lt : (size C' < size (delete z C))%nat); [|lia]. apply map_subset_size. split; [done|]. intros Sub2.
    assert (E2 : C' !! p = Some (kp, v)); [|congruence]. eapply lookup_weaken; [|done]. by rewrite lookup_delete_ne.
Qed.

Definition round_inv (st : sssp * heap_file) : Prop := exists D P C lost,
  dsim (st.1) D P C lost /\ labels G d src D P (pending C lost) /\ serves (st.2) G.
Definition round_end (st : sssp * heap_file) : Prop := exists D P,
  (wf fnv_hash_ul (ds_distance st.1) /\ contents (ds_distance st.1) = D) /\
  (wf fnv_hash_ul (ds_parents st.1) /\ contents (ds_parents st.1) = P) /\
  labels G d src D P (fun _ => False) /\ fh_min (ds_queue st.1) = NULL /\ serves st.2 G.
Definition st_work (st : sssp * heap_file) : Z := work st.1 (contents (ds_distance st.1)).
Definition no_room (st : sssp * heap_file) : Prop := drained st.1 \/ memory_short st.

(** The first part of a round: a node is taken from the heap. *)
Lemma round_pop s D P C lost : dsim s D P C lost -> C <> ∅ -> let z := fh_min (ds_queue s) in
  exists nd m1 fh1 C1 lost1, fib_heap_extract_min logf (ds_memory s) (ds_queue s) = Ok (z, m1, fh1) /\
    fcells m1 !! z = Some nd /\ (exists nd0, fcells (ds_memory s) !! z = Some nd0 /\ fb_value nd0 = fb_value nd) /\
    (exists kz, C !! z = Some (kz, fb_value nd)) /\ C1 ⊆ C /\ C1 !! z = None /\ num_nodes fh1 = num_nodes (ds_queue s) - 1 /\
    num_nodes fh1 < live m1 /\ live m1 = live (ds_memory s) /\ (forall v, pending C lost v -> v = fb_value nd \/ pending C1 lost1 v) /\
    forall lf, (log = true -> is_Some lf) -> dsim (set_ds_log (set_ds_heap s m1 fh1) lf) D P C1 lost1.
Proof.
  intros Si Ne z. pose proof (di_heap _ _ _ _ _ Si) as F. destruct (di_count _ _ _ _ _ Si) as [Nn Ls].
  destruct (fheap_count _ _ _ F) as (Ct & _ & _).
  destruct (fheap_extract logf _ _ _ F Ne) as (nd & m1 & fh1 & C1 & Ext & End & Ec & F1 & Sub & _ & Nn1 & Lm). fold z in Ext, End, Ec, Sub.
  set (lost1 := num_nodes fh1 - Z.of_nat (size C1)).
  destruct (pop_pending C C1 lost lost1 z _ (fb_value nd) (num_nodes (ds_queue s)) Ec Sub Nn ltac:(unfold lost1; lia) Ls) as [L1 Pend].
  exists nd, m1, fh1, C1, lost1. split_and!; try done; [by eapply fheap_value|by eexists|by etrans; [exact Sub|apply delete_subseteq]| |lia|].
  - eapply lookup_weaken_None; [|exact Sub]. apply lookup_delete_eq.
  - intros lf Hl. destruct Si as [A1 A2 A3 A4 A5 A6]. split; cbn; [done|done|done|unfold lost1; lia| |done].
    intros p kp v E. assert (E2 : delete z C !! p = Some (kp, v)) by (by eapply lookup_weaken).
    apply lookup_delete_Some in E2 as [_ E2]. by eapply A5.
Qed.

Lemma dijkstra_round_returns st : round_inv st ->
  returns (no_room st) (dijkstra_round logf d log st)
    (fun r => match r with inl st' => round_inv st' /\ st_work st' < st_work st | inr st' => round_end st' end).
Proof.
  destruct st as [s hf]. intros (D & P & C & lost & Si & L & Sv). cbn [fst snd] in *. unfold dijkstra_round.
  pose proof (di_heap _ _ _ _ _ Si) as F. destruct (di_count _ _ _ _ _ Si) as [Nn Ls].
  destruct (Z.ltb_spec 0 (num_nodes (ds_queue s))) as [Pos|Zero].
  2:{ cbn [returns]. assert (lost = 0) as -> by lia. assert (size C = 0%nat) as E0 by lia. apply map_size_empty_inv in E0. subst C.
      exists D, P. split; [apply Si|]. split; [apply Si|]. split; [|split; [by apply (fheap_empty_min (ds_memory s))|done]].
      eapply labels_weaken; [exact L|]. intros v [?|(p & k & E)]; [lia|]. by rewrite lookup_empty in E. }
  destruct (decide (C = ∅)) as [->|Ne].
  { pose proof (fheap_empty_min _ _ F) as Mn. unfold fib_heap_extract_min. rewrite Mn, Z.eqb_refl. by left. }
  destruct (round_pop s D P C lost Si Ne) as (nd & m1 & fh1 & C1 & lost1 & -> & End & (nd0 & En0 & Ev) & [kz Ez] & _ & Cz & Nn1 & Ct & Lm & Pend & Si1).
  set (z := fh_min (ds_queue s)) in *. set (u := fb_value nd) in *.
  cbn [mbind res_bind]. rewrite (load_cell_ok m1 z nd End). cbn [mbind res_bind]. fold u.
  pose proof (di_nodes _ _ _ _ _ Si z kz u Ez) as Hu.
  destruct (expand_serves hf G u d log Sv Hu) as (l & rs & hf1 & Exp & Al & Ex & _ & Sv1).
  rewrite Exp. cbn [mbind res_bind]. eapply returns_bind; [apply fprint_returns, (di_log _ _ _ _ _ Si)|]. intros lf Hl.
  specialize (Si1 lf Hl). set (s1 := set_ds_log (set_ds_heap s m1 fh1) lf) in *.
  pose proof Hu as [k Ek]%(lb_dom _ _ _ _ _ _ L).
  assert (Rx1 : relaxing s1 D u k z nd lost1 [] s1 D P C1).
  { split; [done|by eapply labels_weaken|done|intros r j Hr; by apply elem_of_nil in Hr|done|cbn; lia|done]. }
  pose proof (ex_steps _ _ _ _ Ex) as Hs. pose proof (ex_edges _ _ _ _ Ex) as He. rewrite Forall_forall in He.
  assert (Hw : forall r, r ∈ rs -> weight_of G (r_id r) = weight r) by (intros r Hr; unfold weight_of; by rewrite (He r Hr)).
  unfold relax_rels. rewrite (for_array l rs _ _ Al).
  eapply returns_bind.
  { apply (for_each_returns _ (fun ys s => exists D' P C, relaxing s1 D u k z nd lost1 ys s D' P C)); [by exists D, P, C1|].
    intros ys r zs s2 E (D2 & P2 & C2 & Rx2). assert (Hr : r ∈ rs) by (rewrite E; set_solver).
    eapply returns_weaken; [apply (relax_rel_returns s1 D _ k z nd lost1 ys r s2 D2 P2 C2 Rx2); [apply Hs; eauto|by apply Hw]| |done].
    intros Full. right. exists nd0, l, hf1. rewrite Ev. split_and!; [done..|]. unfold array_list_size. rewrite (al_len_ok _ _ Al), E, length_app.
    cbn [fst length]. change (live (ds_memory s1)) with (live m1) in Full. lia. }
  intros s2 (D2 & P2 & C2 & [Si2 L2 Ek2 Sn2 [Ez2 Cz2] [Ct2 _] Wk2]).
  destruct (fheap_free (ds_memory s2) (ds_queue s2) C2 z (di_heap _ _ _ _ _ Si2) ltac:(eauto) Cz2 Ct2) as (m3 & -> & F3 & Lm3).
  cbn [mbind res_bind returns fst snd]. split.
  - exists D2, P2, C2, lost1. split_and!; [destruct Si2; by split| |done].
    apply (labels_close D2 P2 u k _ rs L2 Ek2); [|done|done]. intros x b St. by apply Hs.
  - unfold st_work. cbn [fst set_ds_heap ds_distance]. rewrite (proj2 (di_dist _ _ _ _ _ Si)), (proj2 (di_dist _ _ _ _ _ Si2)).
    change (work (set_ds_heap s2 m3 (ds_queue s2)) D2) with (work s2 D2). unfold work in *.
    change (num_nodes (ds_queue s1)) with (num_nodes fh1) in Wk2. lia.
Qed.

(** ** The start *)

Definition far : gmap Z Z := (fun _ => DBL_MAX) <$> g_labels G.

Lemma labels_start : is_Some (g_labels G !! src) -> labels G d src (<[src := 0]> far) ∅ (fun v => v = src).
Proof.
  intros Hs. assert (Cs : forall n k, <[src := 0]> far !! n = Some k -> (n = src /\ k = 0) \/ (n <> src /\ k = DBL_MAX)).
  { intros n k [[<- <-]|[Hn E]]%lookup_insert_Some; [by left|right]. unfold far in E. rewrite lookup_fmap in E.
    by destruct (g_labels G !! n); simplify_eq/=. }
  split.
  - intros n. rewrite lookup_insert_is_Some. unfold far. rewrite lookup_fmap, fmap_is_Some. destruct (decide (src = n)) as [<-|Hn]; naive_solver.
  - intros n k [[_ ->]|[_ ->]]%Cs; unfold DBL_MAX; lia.
  - apply lookup_insert_eq.
  - intros n k [[-> ->]|[_ ->]]%Cs; [left|by right]. exists []. split_and!; [constructor|done|unfold DBL_MAX; lia].
  - intros u k x n j E Nu St En. apply Cs in E as [[-> _]|[_ ->]]; [done|].
    assert (Rj : 0 <= j <= DBL_MAX) by (apply Cs in En as [[_ ->]|[_ ->]]; unfold DBL_MAX; lia).
    pose proof (double_add_ge DBL_MAX (weight_of G x) (max_range DBL_MAX ltac:(unfold DBL_MAX; lia)) (weight_of_range G Wt x)). lia.
  - intros n x E. by rewrite lookup_empty in E.
  - intros n k [[-> _]|[_ ->]]%Cs Lt Ns; [done|lia].
Qed.

(** The loop, from the heap with the source. *)
Lemma dijkstra_loop_returns st : round_inv st -> st_work st < 2 ^ Z.of_nat ROUNDS ->
  returns (exists st', rtc (next_round (dijkstra_round logf d log)) st st' /\ no_room st')
    (while_fuel ROUNDS (dijkstra_round logf d log) st) round_end.
Proof.
  intros I Hw. apply (while_returns round_inv no_room st_work); [by apply dijkstra_round_returns| |done|done].
  intros [s hf2] (D & P & C & lost & Si & L & _). cbn [fst] in *. unfold st_work, work. cbn [fst]. rewrite (proj2 (di_dist _ _ _ _ _ Si)).
  destruct (fheap_count _ _ _ (di_heap _ _ _ _ _ Si)) as [[Ct _] _]. pose proof (sum_bounds D DBL_MAX (lb_range _ _ _ _ _ _ L)). lia.
Qed.

Lemma first_insert v : exists m fh p, fib_heap_insert no_nodes fib_heap_create DBL_MAX v = Ok (m, fh) /\
  fheap m fh (<[p := (DBL_MAX, v)]> ∅) /\ num_nodes fh = 1.
Proof.
  assert (F0 : fheap no_nodes fib_heap_create (∅ : gmap addr (Z * Z))) by (by apply fheap_create).
  destruct (double_key DBL_MAX ltac:(unfold DBL_MAX, INFINITY_BITS; lia)) as [Kn Km]. pose proof malloc_capacity_u64 as [Room _].
  destruct (fheap_insert no_nodes fib_heap_create ∅ DBL_MAX v F0 Kn Km Room) as (m & fh & Run & _ & _ & F1 & Nn & _).
  by exists m, fh, (next_addr no_nodes).
Qed.

Lemma far_contents (t : dict_ul_ul) (ns : list node_t) : (n_id <$> ns) ≡ₚ (map_to_list (g_labels G)).*1 ->
  (forall n, contents t !! n = if decide (n ∈ n_id <$> ns) then Some DBL_MAX else None) -> contents t = far.
Proof.
  intros Pm Ct. apply map_eq. intros n. unfold far. rewrite Ct, lookup_fmap. destruct (g_labels G !! n) as [lb|] eqn:El.
  - rewrite decide_True; [done|]. rewrite Pm. apply list_elem_of_fmap. exists (n, lb). split; [done|]. by apply elem_of_map_to_list.
  - rewrite decide_False; [done|]. rewrite Pm. intros ([n' lb] & -> & E%elem_of_map_to_list)%list_elem_of_fmap. cbn in El. congruence.
Qed.

Lemma dijkstra_start_ok hf lf seed1 seed2 : serves hf G -> is_Some (g_labels G !! src) -> (log = true -> is_Some lf) ->
  exists st, dijkstra_start hf src log lf seed1 seed2 = Ok st /\ round_inv st /\ st_work st < 2 ^ Z.of_nat ROUNDS.
Proof.
  intros Sv Hs Hl. unfold dijkstra_start.
  destruct (dict_create_ok seed1) as [Wp Cp], (dict_create_ok seed2) as [Wn Cn].
  destruct (nodes_serves hf G log Sv) as (l & ns & hf1 & -> & Al & Sv1 & Pm & Nn & Sm). cbn [mbind res_bind].
  destruct (mark_all_ok DBL_MAX l ns (n_nodes hf1) _ Al Nn Wn Cn) as (t & Et & Wt' & Ct). unfold mark_far. rewrite Et. cbn [mbind res_bind].
  destruct (first_insert src) as (m & fh & p & -> & F1 & Nn1). cbn [mbind res_bind].
  destruct (dict_insert_ok t src 0 Wt') as (t1 & -> & W1 & C1). cbn [mbind res_bind]. rewrite (far_contents t ns Pm Ct) in C1.
  pose proof (labels_start Hs) as Ls. eexists. split; [reflexivity|]. split.
  - exists (<[src := 0]> far), ∅, (<[p := (DBL_MAX, src)]> ∅), 0. split_and!; [| |done].
    + split; cbn; [done|done|done| | |done].
      * rewrite Nn1, map_size_insert_None, map_size_empty by done. done.
      * intros q k v [[_ [= _ <-]]|[_ E]]%lookup_insert_Some; [done|]. by rewrite lookup_empty in E.
    + eapply labels_weaken; [exact Ls|]. intros v ->. right. exists p, DBL_MAX. apply lookup_insert_eq.
  - unfold st_work, work. cbn [fst ds_queue ds_distance]. rewrite C1, Nn1.
    pose proof (sum_bounds _ DBL_MAX (lb_range _ _ _ _ _ _ Ls)) as B.
    assert (Sz : Z.of_nat (size (<[src := 0]> far)) < 2 ^ 59).
    { apply Permutation_length in Pm. rewrite !length_fmap, length_map_to_list in Pm. destruct Hs as [lb El].
      rewrite map_size_insert_Some by (unfold far; rewrite lookup_fmap, El; by eexists).
      unfold far. rewrite map_size_fmap, <- Pm. lia. }
    unfold DBL_MAX in B. change (2 ^ Z.of_nat ROUNDS) with (2 ^ 124). nia.
Qed.

Lemma dijkstra_returns hf lf seed1 seed2 : serves hf G -> is_Some (g_labels G !! src) -> (log = true -> is_Some lf) ->
  returns (exists st0 st, dijkstra_start hf src log lf seed1 seed2 = Ok st0 /\ rtc (next_round (dijkstra_round logf d log)) st0 st /\ no_room st)
    (dijkstra logf hf src d log lf seed1 seed2)
    (fun '(r, hf', _) => sssp_source r = src /\ round_end (Sssp (distances r) (pred_edges r) no_nodes fib_heap_create None, hf')).
Proof.
  intros Sv Hs Hl. unfold dijkstra. rewrite (labels_initialized hf G src Sv Hs).
  destruct (dijkstra_start_ok hf lf seed1 seed2 Sv Hs Hl) as (st0 & Es & I & Wk).
  eapply returns_step; [exact Es|]. eapply returns_bind.
  { eapply returns_weaken; [by apply dijkstra_loop_returns| |done]. intros (st & R & N). by exists st0, st. }
  intros [s hf2] (D & P & A & B & L & Mn & Sv2).
  eapply returns_step; [unfold fib_heap_destroy; cbn [fst] in Mn; by rewrite Mn, Z.eqb_refl|].
  split; [done|]. exists D, P. split; [exact A|]. split; [exact B|]. split; [exact L|]. split; [done|exact Sv2].
Qed.
End Simulation.

(** ** Properties *)

(** C15: Dijkstra's algorithm, on a graph whose weights are not negative, ends.  It returns for
    every node the length of a shortest walk from the source in the direction, DBL_MAX when
    there is none that is shorter; and the relationship that it records for a node is the last
    one of such a walk, whose length is that of the node before and its weight.  Lengths are
    sums of doubles in the order of the walk.  Or it exits, and then the rounds of the loop
    have led to a state in which the heap has lost nodes, its count being positive and its
    minimum not set, or in which the memory may not have room for the relationships of the
    next node. *)
Theorem dijkstra_distances_are_shortest `{RecordPages} `{Malloc} (logf : spec_float -> spec_float) `{LogfBounds logf}
    (hf : heap_file) (G : graph) (src : Z) (d : direction_t) (log : bool) (lf : option log_file) (seed1 seed2 : Z)
    (GF : graph_file hf G) (Hs : is_Some (g_labels G !! src)) (Wt : weights_ok G) (Hl : log = true -> is_Some lf) :
  (dijkstra logf hf src d log lf seed1 seed2 = Exit /\
   exists st0 st, dijkstra_start hf src log lf seed1 seed2 = Ok st0 /\ rtc (next_round (dijkstra_round logf d log)) st0 st /\
     (drained st.1 \/ memory_short d log st)) \/
  exists r hf' lf', dijkstra logf hf src d log lf seed1 seed2 = Ok (r, hf', lf') /\ graph_file hf' G /\ sssp_source r = src /\
    forall n, is_Some (g_labels G !! n) -> exists k, contents (distances r) !! n = Some k /\ shortest G d src n k /\
      (n <> src -> k < DBL_MAX -> exists x u j, contents (pred_edges r) !! n = Some x /\ step G d u x n /\
         contents (distances r) !! u = Some j /\ k = double_add j (weight_of G x)).
Proof.
  assert (Ends : forall a x b, step G d a x b -> is_Some (g_labels G !! a) /\ is_Some (g_labels G !! b)).
  { intros a x b. by apply (step_ends hf). }
  pose proof (dijkstra_returns logf G d src log Ends Wt hf lf seed1 seed2 GF Hs Hl) as R.
  apply returns_cases in R as [R|([[r hf'] lf'] & R & Sr & D & P & [_ Cd] & [_ Cp] & L & _ & Sv)]; [by left|right].
  cbn [fst snd ds_distance ds_parents] in *. exists r, hf', lf'. split_and!; [done|done|done|]. intros n Hn.
  apply (lb_dom _ _ _ _ _ _ L) in Hn as [k Ek]. exists k. rewrite Cd, Cp. split; [done|].
  split; [by apply (labels_shortest G d src Ends Wt D P)|]. intros Ns Lt. by apply (labels_tree G d src D P n k L Ek Ns Lt).
Qed.

(** ** Runs *)

Module Runs.
#[local] Existing Instance x86_pages.
#[local] Existing Instance lowest_free.

Definition num (n : Z) : Z := bits_of_double (binary_normalize 53 1024 n 0 false).

(** A heap file with [n] nodes, which have the ids from 0 on, and relationships between them,
    given by source, target and weight. *)
Fixpoint create_nodes (n : nat) (hf : heap_file) : res heap_file :=
  match n with O => Ok hf | S n' => '(_, hf) ← create_node hf 1 true; create_nodes n' hf end.
Fixpoint create_edges (es : list (Z * Z * Z)) (hf : heap_file) : res heap_file :=
  match es with
  | [] => Ok hf
  | (a, b, w) :: es' => '(_, hf) ← create_relationship hf a b (num w) 1 true; create_edges es' hf
  end.
Definition build (n : nat) (es : list (Z * Z * Z)) : res heap_file :=
  hf ← new_file; hf ← create_nodes n hf; create_edges es hf.

(** The distances of the nodes from the first. *)
Definition distances_from_first (n : nat) (es : list (Z * Z * Z)) : res (list Z) :=
  hf ← build n es;
  '(r, _, _) ← dijkstra logf_sample hf 0 OUTGOING false None 1 2;
  mapM (fun v => dict_get_direct (distances r) (Z.of_nat v)) (seq 0 n).

(** Nine nodes, one of them in reach in two ways. *)
Definition nine (last : Z) : list (Z * Z * Z) :=
  [(1, 2, 3); (0, 8, 15); (1, 3, 2); (0, 7, 7); (1, 4, 2); (1, 5, 12); (1, 6, 11); (0, 2, 14); (0, 1, last)].

(** On a graph of nine nodes and nine relationships, with small positive weights and all nodes
    in reach, Dijkstra's algorithm ends the program: the heap loses the entry of a node, and
    the loop expects one more than there are.  With another weight of the last relationship it
    returns the distances. *)
Example dijkstra_exits_on_a_small_graph :
  (hf ← build 9 (nine 3); Ok (n_nodes hf, n_rels hf)) = Ok (9, 9) /\
  distances_from_first 9 (nine 3) = Exit /\
  distances_from_first 9 (nine 9) = Ok (num <$> [0; 9; 12; 11; 11; 21; 20; 7; 15]).
Proof. vm_compute. split_and!; reflexivity. Qed.

(** One relationship of weight 2, and a run of the algorithm that returns. *)
Definition pair_file : res (heap_file * Z * Z) :=
  hf ← new_file;
  '(a, hf) ← create_node hf 1 true;
  '(b, hf) ← create_node hf 2 true;
  '(_, hf) ← create_relationship hf a b (num 2) 5 true;
  Ok (hf, a, b).
Definition pair_run : res Z :=
  '(hf, a, b) ← pair_file;
  '(r, _, _) ← dijkstra logf_sample hf a OUTGOING false None 1 2;
  dict_get_direct (distances r) b.
Lemma pair_run_result : pair_run = Ok (num 2).
Proof. vm_compute. reflexivity. Qed.

Lemma pair_file_sample : exists hf G a b, pair_file = Ok (hf, a, b) /\ graph_file hf G /\ is_Some (g_labels G !! a) /\
  is_Some (g_labels G !! b) /\ a <> b /\ weights_ok G /\ forall n, is_Some (g_labels G !! n) -> n = a \/ n = b.
Proof.
  destruct new_file_sample as (pc & hf & E0 & _ & _ & _ & S0).
  destruct (sample_node hf empty_graph 999 1 S0) as (a & hf1 & E1 & _ & S1); [lia|vm_compute; split; [discriminate|reflexivity]|].
  destruct (sample_node hf1 _ 998 2 S1) as (b & hf2 & E2 & Fb & S2); [lia|vm_compute; split; [discriminate|reflexivity]|].
  set (G2 := add_node (add_node empty_graph a 1) b 2) in *.
  assert (Hab : a <> b) by (intros <-; cbn in Fb; by rewrite lookup_insert_eq in Fb).
  assert (Lb : is_Some (g_labels G2 !! b)) by (exists 2; apply lookup_insert_eq).
  assert (La : is_Some (g_labels G2 !! a)) by (exists 1; cbn; rewrite lookup_insert_ne by congruence; apply lookup_insert_eq).
  destruct (sample_edge hf2 G2 997 a b (num 2) 5 S2) as (x & hf3 & E3 & _ & S3);
    [done|exact La|exact Lb|vm_compute; split; [discriminate|reflexivity]|vm_compute; split; [discriminate|reflexivity]|by vm_compute|].
  exists hf3, (add_edge G2 x (Edge a b (num 2) 5)), a, b. split_and!; [|by destruct S3|done|done|done| |].
  - unfold pair_file. rewrite E0. cbn [mbind res_bind]. rewrite E1. cbn [mbind res_bind]. rewrite E2. cbn [mbind res_bind]. by rewrite E3.
  - intros y e Ey. cbn [add_edge g_edges] in Ey. apply lookup_insert_Some in Ey as [[_ <-]|[_ E]]; [vm_compute; split; discriminate|].
    cbn in E. by rewrite lookup_empty in E.
  - intros n. cbn. rewrite !lookup_insert_is_Some, lookup_empty. intros [<-|[_ [<-|[_ []]]]]; [by right|by left|done].
Qed.

Lemma dijkstra_distances_are_shortest_witness : exists hf G a b r hf' lf',
  dijkstra logf_sample hf a OUTGOING false None 1 2 = Ok (r, hf', lf') /\ graph_file hf' G /\
  contents (distances r) !! b <> None /\ shortest G OUTGOING a b (default 0 (contents (distances r) !! b)).
Proof.
  destruct pair_file_sample as (hf & G & a & b & E & GF & Ha & Hb & _ & Wt & _).
  pose proof pair_run_result as Rr. unfold pair_run in Rr. rewrite E in Rr. cbn [mbind res_bind] in Rr.
  destruct (dijkstra_distances_are_shortest logf_sample hf G a OUTGOING false None 1 2 GF Ha Wt) as [[Ex _]|(r & hf' & lf' & R & GF' & _ & D)].
  - intros X. discriminate X.
  - rewrite Ex in Rr. discriminate Rr.
  - destruct (D b Hb) as (k & Ek & Sh & _). exists hf, G, a, b, r, hf', lf'. split; [exact R|]. split; [exact GF'|].
    rewrite Ek. split; [intros X; discriminate X|exact Sh].
Defined.
End Runs.
