(* ===== verification/AStar.v ===== *)
(** A* on a heap file that represents a graph.

    The distance that A* stores for a node is the length of the way to it with the estimates
    of the nodes along it, so that the path it returns need not be shortest; but estimates and
    weights that are not negative make it a number that does not decrease along the
    predecessors.  That is enough for the predecessors to form a tree ([tracked]), which
    [construct_path] follows back to the source, and for the loop to end. *)

From S2P Require Import Prelude Constants LinkedList HTable ArrayList DiskFile PhysicalDatabase Page PageCache PageCacheInv HeaderPage Records HeapFile HeapFileInv HeapRecords HeapStore Chains Incidence Traversal Doubles Queries Walks Searches Paths HeapProps DoubleOrder FibHeap FibTable FibRing FibProps FibDestroy WeightedQueries ShortestPaths.
From Stdlib Require Import ZArith Lia Floats.SpecFloat.
From stdpp Require Import base list list_numbers option fin_maps gmap strings.

#[local] Open Scope Z_scope.

Section Tracks.
Context (G : graph) (d : direction_t) (src : Z).
Implicit Types (P D : gmap Z Z) (n u x : Z) (xs : list Z).

(** [xs] are the relationships on the way to [n] that the predecessors record. *)
Inductive tracked P : Z -> list Z -> Prop :=
  | tracked_source : tracked P src []
  | tracked_snoc n u x xs : n <> src -> P !! n = Some x -> step G d u x n -> tracked P u xs -> tracked P n (xs ++ [x]).

Lemma step_source a b x n : step G d a x n -> step G d b x n -> a = b.
Proof.
  intros (e & E & C) (e' & E' & C'). assert (e' = e) as -> by congruence. destruct C as [(?&?&?)|(?&?&?)], C' as [(?&?&?)|(?&?&?)]; congruence.
Qed.

Lemma tracked_walk P n xs : tracked P n xs -> walk G d src xs n.
Proof. induction 1 as [|n u x xs _ _ St _ W]; [constructor|by eapply walk_snoc]. Qed.

Lemma tracked_unique P n xs ys : tracked P n xs -> tracked P n ys -> xs = ys.
Proof.
  intros T. revert ys. induction T as [|n u x xs Hn Ex St T IH]; intros ys T'.
  - inversion T' as [|? ? ? ? Hn]; [done|by destruct Hn].
  - inversion T' as [E|? u' x' ys' _ Ex' St' T2]; subst; [done|]. assert (x' = x) as -> by congruence.
    rewrite (step_source u' u x n St' St) in T2. by rewrite (IH ys' T2).
Qed.

(** A way meets each node at most once. *)
Lemma tracked_length P n xs : tracked P n xs -> (length xs <= size P)%nat.
Proof.
  intros T. cut (exists V : gset Z, V ⊆ dom P /\ size V = length xs /\ forall v, v ∈ V -> exists ys, tracked P v ys /\ (length ys <= length xs)%nat).
  { intros (V & Sub & Sz & _). apply subseteq_size in Sub. rewrite size_dom in Sub. lia. }
  induction T as [|n u x xs Hn Ex St T (V & Sub & Sz & Ht)]; [exists ∅; split_and!; set_solver|].
  assert (Nv : n ∉ V).
  { intros (ys & Ty & Le)%Ht. assert (ys = xs ++ [x]) as -> by (eapply tracked_unique; [exact Ty|by econstructor]).
    rewrite length_app in Le. cbn in Le. lia. }
  exists ({[n]} ∪ V). split_and!.
  - intros v [->%elem_of_singleton|Hv]%elem_of_union; [apply elem_of_dom; eauto|by apply Sub].
  - rewrite size_union, size_singleton, length_app by set_solver. cbn. lia.
  - rewrite length_app. cbn. intros v [->%elem_of_singleton|(ys & Ty & Le)%Ht]%elem_of_union.
    + exists (xs ++ [x]). split; [by econstructor|]. rewrite length_app. done.
    + exists ys. split; [done|lia].
Qed.
End Tracks.

(** ** The path *)

Section TrackedPath.
Context `{RecordPages} (G : graph) (d : direction_t) (src : Z) (par : dict_ul_ul) (P : gmap Z Z) (log : bool).
Hypothesis Wp : wf fnv_hash_ul par.
Hypothesis Cp : contents par = P.

Lemma tracked_loop n xs : tracked G d src P n xs -> n <> src -> forall fuel hf el zs s, (length xs <= fuel)%nat -> serves hf G ->
  al_appended el zs -> Z.of_nat (length zs + length xs) < 2 ^ 59 ->
  exists el' hf', path_loop fuel hf src n par el s log = Ok (el', add_weights G s (reverse xs), hf') /\ serves hf' G /\
    al_appended el' (zs ++ reverse xs).
Proof.
  induction 1 as [|n u x xs Hn Ex St T IH]; intros Ns fuel hf el zs s Hf Sv Al Hz; [done|].
  rewrite length_app in *. cbn [length] in *. destruct fuel as [|fuel]; [lia|]. cbn [path_loop].
  rewrite dict_get_ok, Cp, Ex by done. cbn [or_exit mbind res_bind].
  destruct (array_append_ok el zs x Al ltac:(lia)) as (el1 & -> & Al1). cbn [mbind res_bind].
  pose proof St as (e & Ee & Ce). destruct (relationship_serves hf G x e log Sv Ee) as (r & hf1 & -> & Er & <- & Sv1). cbn [mbind res_bind].
  assert (Eu : (if target_node r =? n then source_node r else target_node r) = u).
  { rewrite <- Er in Ce. cbn in Ce. destruct Ce as [(_ & Es & Et)|(_ & Et & Es)]; [by rewrite Et, Z.eqb_refl|].
    destruct (Z.eqb_spec (target_node r) n); congruence. }
  assert (Ew : weight r = weight_of G (r_id r)) by (unfold weight_of; rewrite Ee, <- Er; done).
  rewrite Eu, Ew, reverse_snoc. destruct (Z.eqb_spec u src) as [->|Nu]; cbn [negb].
  - assert (xs = []) as -> by (eapply tracked_unique; [exact T|constructor]). by exists el1, hf1.
  - destruct (IH Nu fuel hf1 el1 (zs ++ [r_id r]) (double_add s (weight_of G (r_id r)))) as (el2 & hf2 & -> & Sv2 & Al2);
      [lia|done|done|rewrite length_app; cbn; lia|]. exists el2, hf2. split_and!; [done|done|]. by rewrite <- app_assoc in Al2.
Qed.

Lemma tracked_path hf n xs : serves hf G -> is_Some (g_labels G !! src) -> is_Some (g_labels G !! n) -> n <> src ->
  tracked G d src P n xs -> Z.of_nat (size P) < 2 ^ 59 ->
  exists p hf', construct_path hf src n par log = Ok (p, hf') /\ serves hf' G /\ p_source p = src /\ p_target p = n /\
    al_rep (p_edges p) xs /\ p_distance p = length_of G (reverse xs).
Proof.
  intros Sv Hs Hl Hn T Sz. unfold construct_path. rewrite (labels_initialized hf G src Sv Hs), (labels_initialized hf G n Sv Hl). cbn [orb].
  pose proof (tracked_length _ _ _ _ _ _ T) as Le. rewrite (Paths.table_size par Wp), Cp, Nat2Z.id.
  destruct (tracked_loop n xs T Hn (size P + 1)%nat hf array_list_create [] 0) as (el & hf1 & -> & Sv1 & [Al _]);
    [lia|done|apply array_create_appended|cbn; lia|]. cbn [mbind res_bind].
  destruct (path_edges_ok el xs Al ltac:(lia)) as (l & -> & [Al2 _]). cbn [mbind res_bind]. unfold create_path.
  rewrite (labels_initialized hf G src Sv Hs). cbn [mbind res_bind]. eexists _, hf1. split; [reflexivity|]. by split_and!.
Qed.
End TrackedPath.

(** ** The labels *)

Section Labels.
Context (G : graph) (d : direction_t) (src : Z).
Hypothesis Ends : forall a x b, step G d a x b -> is_Some (g_labels G !! a) /\ is_Some (g_labels G !! b).
Implicit Types (P D : gmap Z Z) (open : Z -> Prop) (n u v x j k w : Z) (xs : list Z).

(** The nodes with a label are those that were found; the labels do not decrease along the
    predecessors; the successors of a found node are found unless it is open. *)
Record astar D P open : Prop := AStar {
  as_dom : forall n, is_Some (D !! n) -> is_Some (g_labels G !! n);
  as_range : forall n k, D !! n = Some k -> 0 <= k <= INFINITY_BITS;
  as_source : D !! src = Some 0;
  as_tree : forall n, is_Some (D !! n) -> exists xs, tracked G d src P n xs;
  as_par : forall n, is_Some (P !! n) -> is_Some (D !! n);
  as_mono : forall u x n, P !! n = Some x -> step G d u x n -> exists j k, D !! u = Some j /\ D !! n = Some k /\ j <= k;
  as_closed : forall u x n, is_Some (D !! u) -> ~ open u -> step G d u x n -> is_Some (D !! n) }.

Lemma astar_weaken D P open open' : astar D P open -> (forall u, open u -> open' u) -> astar D P open'.
Proof. intros [A1 A2 A3 A4 A5 A6 A7] Ho. split; try done. intros u x n Hu Nu. apply A7; auto. Qed.

(** A way that stays below the old label of [n] does not lead through [n]. *)
Lemma tracked_insert D P open n x v xs : astar D P open -> tracked G d src P v xs ->
  (forall j k, D !! n = Some j -> D !! v = Some k -> k < j) -> tracked G d src (<[n := x]> P) v xs.
Proof.
  intros A T. induction T as [|v u y xs Hv Ey St T IH]; intros Lt; [constructor|].
  destruct (as_mono _ _ _ A u y v Ey St) as (j & k & Eu & Ev & Le).
  assert (Nv : n <> v) by (intros ->; specialize (Lt k k Ev Ev); lia).
  econstructor; [done|by rewrite lookup_insert_ne|done|]. apply IH. intros i k' Ei Ek. assert (k' = j) as -> by congruence.
  specialize (Lt i k Ei Ev). lia.
Qed.

Lemma astar_improve D P open u k x n w : astar D P open -> D !! u = Some k -> step G d u x n -> k <= w <= INFINITY_BITS ->
  (forall j, D !! n = Some j -> w < j) -> astar (<[n := w]> D) (<[n := x]> P) (fun v => v = n \/ open v).
Proof.
  intros A Eu St Rw Lt. pose proof (as_range _ _ _ A u k Eu) as Rk.
  assert (Nu : n <> u) by (intros ->; specialize (Lt k Eu); lia).
  assert (Ns : n <> src) by (intros ->; specialize (Lt 0 (as_source _ _ _ A)); lia).
  destruct (as_tree _ _ _ A u ltac:(eauto)) as [xu Tu].
  assert (Tn : tracked G d src (<[n := x]> P) n (xu ++ [x])).
  { econstructor; [done|apply lookup_insert_eq|exact St|]. apply (tracked_insert D P open n x u xu A Tu).
    intros j k' Ej Ek. assert (k' = k) as -> by congruence. specialize (Lt j Ej). lia. }
  split.
  - intros m [<-|[_ Hm]]%lookup_insert_is_Some; [apply (Ends _ _ _ St)|by apply A].
  - intros m i [[<- <-]|[_ Hm]]%lookup_insert_Some; [lia|by apply (as_range _ _ _ A m)].
  - rewrite lookup_insert_ne by done. apply A.
  - intros m Hm. assert (Tm : m = n \/ exists ys, tracked G d src P m ys).
    { apply lookup_insert_is_Some in Hm as [<-|[_ Hm]]; [by left|right; by apply A]. }
    destruct Tm as [->|[ys T]]; [by eexists|]. clear Hm.
    induction T as [|m v y ys Hm Ey Sy T (zs & IH)]; [exists []; constructor|].
    destruct (decide (m = n)) as [->|Hmn]; [by eexists|]. exists (zs ++ [y]). econstructor; [done|by rewrite lookup_insert_ne|done|done].
  - intros m. rewrite !lookup_insert_is_Some. intros [<-|[? Hm]]; [by left|right; split; [done|by apply A]].
  - intros v y m [[<- <-]|[Hm Ey]]%lookup_insert_Some Sy.
    + rewrite (step_source G d v u x n Sy St). exists k, w. rewrite lookup_insert_ne, lookup_insert_eq by done. split_and!; [done|done|lia].
    + destruct (as_mono _ _ _ A v y m Ey Sy) as (j & i & Ev & Em & Le). rewrite (lookup_insert_ne D n m) by done.
      destruct (decide (n = v)) as [->|Hv]; [exists w, i; rewrite lookup_insert_eq|exists j, i; rewrite lookup_insert_ne by done].
      * specialize (Lt j Ev). split_and!; [done|done|lia].
      * done.
  - intros v y m Hv No Sy. apply lookup_insert_is_Some in Hv as [->|[_ Hv]]; [naive_solver|].
    destruct (as_closed _ _ _ A v y m Hv ltac:(auto) Sy) as [i Ei]. rewrite lookup_insert_is_Some.
    destruct (decide (n = m)); [by left|right; split; [done|by exists i]].
Qed.

(** With no open nodes, all nodes that can be reached are found. *)
Lemma astar_reach D P xs n : astar D P (fun _ => False) -> walk G d src xs n -> is_Some (D !! n).
Proof.
  intros A. induction 1 as [|xs b x c W IH St]; [rewrite (as_source _ _ _ A); eauto|].
  by apply (as_closed _ _ _ A b x c IH (fun h => h)).
Qed.

Lemma astar_start : is_Some (g_labels G !! src) -> astar {[src := 0]} ∅ (fun v => v = src).
Proof.
  intros Hs. assert (Dm : forall n, is_Some (({[src := 0]} : gmap Z Z) !! n) -> n = src) by (by intros n [k [? _]%lookup_singleton_Some]).
  split.
  - by intros n ->%Dm.
  - intros n k [_ <-]%lookup_singleton_Some. by split.
  - apply lookup_singleton_eq.
  - intros n ->%Dm. exists []. constructor.
  - intros n [? E]. by rewrite lookup_empty in E.
  - intros u x n E. by rewrite lookup_empty in E.
  - intros u x n ->%Dm Nu. by destruct Nu.
Qed.

(** The labels, with more than infinity for the nodes that are not found. *)
Definition fill D : gmap Z Z := D ∪ ((fun _ => INFINITY_BITS + 1) <$> g_labels G).

Lemma fill_lookup D P open n : astar D P open -> is_Some (g_labels G !! n) -> exists j, fill D !! n = Some j /\
  (D !! n = Some j \/ (D !! n = None /\ j = INFINITY_BITS + 1)).
Proof.
  intros A [lb El]. unfold fill. rewrite lookup_union, lookup_fmap, El. destruct (D !! n) as [k|]; cbn; eauto.
Qed.
Lemma fill_insert D n w : fill (<[n := w]> D) = <[n := w]> (fill D).
Proof. unfold fill. by rewrite insert_union_l. Qed.
Lemma fill_bounds D P open : astar D P open -> 0 <= sum_of (fill D) <= Z.of_nat (size (g_labels G)) * (INFINITY_BITS + 1).
Proof.
  intros A. replace (size (g_labels G)) with (size (fill D)).
  - apply sum_bounds. intros n k [E|[_ E]]%lookup_union_Some_raw; [pose proof (as_range _ _ _ A n k E); lia|].
    rewrite lookup_fmap in E. destruct (g_labels G !! n); [|done]. injection E as <-. unfold INFINITY_BITS. lia.
  - rewrite <- !(size_dom (D := gset Z)). f_equal. apply set_eq. intros n. unfold fill.
    rewrite dom_union_L, dom_fmap_L, elem_of_union, !elem_of_dom. split; [intros [Hn|]; [by apply A|done]|by right].
Qed.
End Labels.

(** ** The rounds *)

Section Rounds.
Context `{RecordPages} `{Malloc} (logf : spec_float -> spec_float) `{!LogfBounds logf}.
Context (G : graph) (d : direction_t) (src tgt : Z) (log : bool) (heuristic : dict_ul_ul).
Hypothesis Ends : forall a x b, step G d a x b -> is_Some (g_labels G !! a) /\ is_Some (g_labels G !! b).
Hypothesis Wt : weights_ok G.
Hypothesis Wh : wf fnv_hash_ul heuristic.
Hypothesis Est : forall n, is_Some (g_labels G !! n) -> exists h, contents heuristic !! n = Some h /\ 0 <= h <= INFINITY_BITS.
Hypothesis Hs : is_Some (g_labels G !! src).
Hypothesis Ht : is_Some (g_labels G !! tgt).
Hypothesis Ne : src <> tgt.
Hypothesis Small : Z.of_nat (size (g_labels G)) < 2 ^ 59.
Implicit Types (D P : gmap Z Z) (C : gmap addr (Z * Z)) (s : sssp) (u v k lost : Z).

(** The nodes in the heap were found, and the target is in the heap when it was found. *)
Definition awaits D C lost : Prop :=
  (forall p k v, C !! p = Some (k, v) -> is_Some (D !! v)) /\ (is_Some (D !! tgt) -> pending C lost tgt).
Definition a_work s D : Z := work s (fill G D).

(** The state in the round of [u], which was taken from the heap at [z], after the
    relationships [ys]. *)
Record a_relaxing s0 D0 u k z (nd : fb_node Z) lost (ys : list relationship_t) s D P C : Prop := ARelaxing {
  ar_sim : dsim G log s D P C lost;
  ar_labels : astar G d src D P (fun v => v = u \/ pending C lost v);
  ar_own : D !! u = Some k;
  ar_seen : forall r, r ∈ ys -> is_Some (D !! other_node u r);
  ar_target : awaits D C lost;
  ar_node : fcells (ds_memory s) !! z = Some nd /\ C !! z = None;
  ar_count : num_nodes (ds_queue s) < live (ds_memory s) <= live (ds_memory s0) + Z.of_nat (length ys);
  ar_work : a_work s D <= a_work s0 D0 }.

Lemma pending_insert C lost p k n v : C !! p = None -> v = n \/ pending C lost v -> pending (<[p := (k, n)]> C) lost v.
Proof.
  intros Fp [->|[Hl|(q & kq & Eq)]]; [right; exists p, k; by rewrite lookup_insert_eq|by left|right].
  exists q, kq. rewrite lookup_insert_ne; [done|congruence].
Qed.

Lemma a_star_rel_returns s0 D0 u k z nd lost ys r s D P C : a_relaxing s0 D0 u k z nd lost ys s D P C ->
  step G d u (r_id r) (other_node u r) -> weight_of G (r_id r) = weight r ->
  returns (malloc_capacity <= live (ds_memory s0) + Z.of_nat (length ys)) (a_star_rel heuristic u log r s)
    (fun s' => exists D' P' C', a_relaxing s0 D0 u k z nd lost (ys ++ [r]) s' D' P' C').
Proof.
  intros [Si A Eu Sn Aw [Ez Cz] [Ct1 Ct2] Wk] St Ew. unfold a_star_rel. set (b := other_node u r) in *.
  eapply returns_bind; [apply fprint_returns, (di_log _ _ _ _ _ _ _ Si)|]. intros lf Hl.
  set (s1 := set_ds_log s lf). assert (Si1 : dsim G log s1 D P C lost) by (destruct Si; by split).
  destruct (di_dist _ _ _ _ _ _ _ Si1) as [Wd Cd]. destruct (Ends _ _ _ St) as [Hu Hb].
  destruct (Est u Hu) as (h & Eh & Rh). rewrite !dict_get_ok, Cd, Eu, Eh by done. cbn [or_exit mbind res_bind].
  pose proof (as_range _ _ _ _ _ _ A u k Eu) as Rk. pose proof (weight_of_range G Wt (r_id r)) as Rw. rewrite Ew in Rw.
  pose proof (double_add_range k _ Rk Rw) as Ra. pose proof (double_add_ge k _ Rk Rw) as Ga.
  pose proof (double_add_range _ h Ra Rh) as Rn. pose proof (double_add_ge _ h Ra Rh) as Gn.
  set (w := double_add (double_add k (weight r)) h) in *.
  assert (Improve : (forall j, D !! b = Some j -> w < j) ->
    returns (malloc_capacity <= live (ds_memory s0) + Z.of_nat (length ys)) (improve s1 b w r)
      (fun s' => exists D' P' C', a_relaxing s0 D0 u k z nd lost (ys ++ [r]) s' D' P' C')).
  { intros Lt. assert (Hbu : b <> u) by (intros Hbu; specialize (Lt k); rewrite Hbu in Lt; specialize (Lt Eu); lia).
    eapply returns_weaken; [apply (improve_sim G log s1 D P C lost b w r Si1 Rn Hb)|cbn; lia|].
    intros s' (C' & Si' & (p & -> & Fp) & Nn' & Lm' & Fr). exists (<[b := w]> D), (<[b := r_id r]> P), (<[p := (w, b)]> C). split.
    - done.
    - eapply astar_weaken; [apply (astar_improve G d src Ends D P _ u k (r_id r) b w A Eu St); [lia|done]|].
      intros v [->|[->|Pv]]; [right|by left|right]; apply pending_insert; auto.
    - by rewrite lookup_insert_ne.
    - intros r' [Hr'| ->%list_elem_of_singleton]%elem_of_app; rewrite lookup_insert_is_Some; [|by left].
      destruct (decide (b = other_node u r')); [by left|right; split; [done|by apply Sn]].
    - destruct Aw as [Aq Aw]. split.
      + intros q kq v [[_ [= _ <-]]|[_ E]]%lookup_insert_Some; rewrite lookup_insert_is_Some; [by left|].
        destruct (decide (b = v)); [by left|right; split; [done|by eapply Aq]].
      + intros Ht'. apply pending_insert; [done|]. apply lookup_insert_is_Some in Ht' as [<-|[_ Ht']]; [by left|right; by apply Aw].
    - destruct (Fr z) as [-> ->]; [cbn; eauto|done|]. done.
    - rewrite length_app, Nn', Lm'. cbn. lia.
    - destruct (fill_lookup G d src D P _ b A Hb) as (j & Ej & Cj). unfold a_work, work in *.
      rewrite fill_insert, (sum_insert _ b j w Ej), Nn'. cbn [ds_queue s1 set_ds_log].
      assert (w < j); [|lia]. destruct Cj as [Cj|[_ ->]]; [by apply Lt|lia]. }
  rewrite dict_contains_get, Cd by done. cbn [mbind res_bind].
  assert (Stay : is_Some (D !! b) -> exists D' P' C', a_relaxing s0 D0 u k z nd lost (ys ++ [r]) s1 D' P' C').
  { intros Kb. exists D, P, C. split; try done; [|rewrite length_app; cbn; lia].
    intros r' [Hr'| ->%list_elem_of_singleton]%elem_of_app; [by apply Sn|done]. }
  destruct (D !! b) as [j|] eqn:Ej.
  - rewrite bool_decide_true by eauto. cbn [or_exit mbind res_bind].
    rewrite double_ltb_nonneg by (done || by apply (as_range _ _ _ _ _ _ A b)). destruct (Z.ltb_spec w j) as [Lt|Ge].
    + apply Improve. intros j' [= <-]. done.
    + apply Stay. eauto.
  - rewrite bool_decide_false by (by intros []). cbn [mbind res_bind]. by apply Improve.
Qed.

Definition a_inv (st : sssp * heap_file) : Prop := exists D P C lost,
  dsim G log st.1 D P C lost /\ astar G d src D P (pending C lost) /\ awaits D C lost /\ serves st.2 G.
(** The path to the target, or that there is none. *)
Definition a_end (a : path * heap_file * option log_file) : Prop := let '(p, hf, _) := a in
  serves hf G /\ p_source p = src /\ p_target p = tgt /\ exists xs, al_rep (p_edges p) xs /\
    ((walk G d src xs tgt /\ p_distance p = length_of G (reverse xs)) \/
     (xs = [] /\ p_distance p = DBL_MAX /\ forall ys, ~ walk G d src ys tgt)).
Definition a_st_work (st : sssp * heap_file) : Z := a_work st.1 (contents (ds_distance st.1)).

(** The heap is empty, and the target was not found. *)
Lemma a_star_empty s hf D P lf : dsim G log s D P ∅ 0 -> astar G d src D P (pending ∅ 0) -> awaits D ∅ 0 -> serves hf G ->
  forall E : Prop, returns E (_ ← fib_heap_destroy (ds_memory s) (ds_queue s);
     p ← create_path src tgt DBL_MAX array_list_create; Ok (inr (p, hf, lf)) : res (sssp * heap_file + path * heap_file * option log_file))
    (fun r => match r with inl _ => False | inr a => a_end a end).
Proof.
  intros Si A Aw Sv E. pose proof (fheap_empty_min _ _ (di_heap _ _ _ _ _ _ _ Si)) as Mn.
  unfold fib_heap_destroy. rewrite Mn. cbn [negb mbind res_bind Z.eqb].
  unfold create_path. rewrite (labels_initialized hf G src Sv Hs). cbn [mbind res_bind returns].
  split_and!; [done|done|done|]. exists []. split; [apply array_create_appended|]. right. split_and!; [done|done|].
  assert (Np : forall v, ~ pending ∅ 0 v) by (intros v [?|(p & k & X)]; [lia|by rewrite lookup_empty in X]).
  intros ys W. apply (Np tgt), Aw. apply (astar_reach G d src D P ys tgt); [|done].
  eapply astar_weaken; [exact A|]. intros v Hv. by apply (Np v).
Qed.

(** The target was taken from the heap. *)
Lemma a_star_found s hf D P C lost z nd : dsim G log s D P C lost -> astar G d src D P (fun v => v = tgt \/ pending C lost v) ->
  is_Some (D !! tgt) -> serves hf G -> fcells (ds_memory s) !! z = Some nd -> C !! z = None -> num_nodes (ds_queue s) < live (ds_memory s) ->
  forall E : Prop, returns E (m ← free (ds_memory s) z; _ ← fib_heap_destroy m (ds_queue s);
     '(p, hf) ← construct_path hf src tgt (ds_parents s) (bool_decide (is_Some (ds_log s)));
     Ok (inr (p, hf, ds_log s)) : res (sssp * heap_file + path * heap_file * option log_file))
    (fun r => match r with inl _ => False | inr a => a_end a end).
Proof.
  intros Si A Kt Sv Ez Cz Ct E. destruct (di_par _ _ _ _ _ _ _ Si) as [Wp Cp], (di_count _ _ _ _ _ _ _ Si) as [Nn Ls].
  destruct (fheap_free (ds_memory s) (ds_queue s) C z (di_heap _ _ _ _ _ _ _ Si) ltac:(eauto) Cz Ct) as (m & -> & F & _).
  cbn [mbind res_bind]. destruct (fheap_destroy m (ds_queue s) C F ltac:(lia)) as (m' & -> & _). cbn [mbind res_bind].
  destruct (as_tree _ _ _ _ _ _ A tgt Kt) as [xs T].
  destruct (tracked_path G d src (ds_parents s) P (bool_decide (is_Some (ds_log s))) Wp Cp hf tgt xs Sv Hs Ht) as
    (p & hf' & -> & Sv' & Ps & Pt & Al & Pd); [done|done| |].
  { assert (Sub : dom P ⊆ dom (g_labels G)).
    { intros n Hn%elem_of_dom. apply elem_of_dom, (as_dom _ _ _ _ _ _ A), (as_par _ _ _ _ _ _ A), Hn. }
    apply subseteq_size in Sub. rewrite !size_dom in Sub. lia. }
  cbn [mbind res_bind returns]. split_and!; [done|done|done|]. exists xs. split; [done|]. left. split; [by eapply tracked_walk|done].
Qed.

(** After all relationships of [u] the node is closed. *)
Lemma astar_close D P u (open : Z -> Prop) (rs : list relationship_t) : astar G d src D P (fun v => v = u \/ open v) ->
  (forall x b, step G d u x b -> exists r, r ∈ rs /\ r_id r = x /\ other_node u r = b) ->
  (forall r, r ∈ rs -> is_Some (D !! other_node u r)) -> astar G d src D P open.
Proof.
  intros A Hx Sn. split; try apply A. intros v x n Hv No St. destruct (decide (v = u)) as [->|Hn].
  - destruct (Hx x n St) as (r & Hr & _ & <-). by apply Sn.
  - apply (as_closed _ _ _ _ _ _ A v x n Hv); [naive_solver|done].
Qed.

Lemma a_star_round_returns st : a_inv st ->
  returns (no_room d log st) (a_star_round logf heuristic src tgt d log st)
    (fun r => match r with inl st' => a_inv st' /\ a_st_work st' < a_st_work st | inr a => a_end a end).
Proof.
  destruct st as [s hf]. intros (D & P & C & lost & Si & A & Aw & Sv). cbn [fst snd] in *. unfold a_star_round.
  pose proof (di_heap _ _ _ _ _ _ _ Si) as F. destruct (di_count _ _ _ _ _ _ _ Si) as [Nn Ls].
  destruct (Z.ltb_spec 0 (num_nodes (ds_queue s))) as [Pos|Zero].
  2:{ assert (lost = 0) as -> by lia. assert (size C = 0%nat) as E0 by lia. apply map_size_empty_inv in E0. subst C.
      eapply returns_weaken; [by apply (a_star_empty s hf D P)|done|]. by intros [?|a]. }
  destruct (decide (C = ∅)) as [->|Nc].
  { pose proof (fheap_empty_min _ _ F) as Mn. unfold fib_heap_extract_min. rewrite Mn, Z.eqb_refl. by left. }
  destruct (round_pop logf G log s D P C lost Si Nc) as
    (nd & m1 & fh1 & C1 & lost1 & -> & End & (nd0 & En0 & Ev) & [kz Ez] & Sub & Cz & Nn1 & Ct & Lm & Pend & Si1).
  set (z := fh_min (ds_queue s)) in *. set (u := fb_value nd) in *.
  cbn [mbind res_bind]. rewrite (load_cell_ok m1 z nd End). cbn [mbind res_bind]. fold u.
  assert (A1 : astar G d src D P (fun v => v = u \/ pending C1 lost1 v)) by (by eapply astar_weaken).
  destruct Aw as [Aq Aw]. pose proof (Aq z kz u Ez) as Ku. destruct (Z.eqb_spec u tgt) as [Eu|Nu].
  { rewrite Eu in A1, Ku. eapply returns_weaken with (P := fun r => match r with inl _ => False | inr a => a_end a end) (E := False); [|done|by intros [?|a]].
    exact (a_star_found _ hf D P C1 lost1 z nd (Si1 _ (di_log _ _ _ _ _ _ _ Si)) A1 Ku Sv End Cz Ct _). }
  assert (Aw1 : awaits D C1 lost1).
  { split; [intros p k v E; eapply Aq; by eapply lookup_weaken|]. intros Kt. by destruct (Pend tgt (Aw Kt)) as [|]; [congruence|]. }
  pose proof (di_nodes _ _ _ _ _ _ _ Si z kz u Ez) as Hu.
  destruct (expand_serves hf G u d log Sv Hu) as (l & rs & hf1 & Exp & Al & Ex & _ & Sv1).
  rewrite Exp. cbn [mbind res_bind]. eapply returns_bind; [apply fprint_returns, (di_log _ _ _ _ _ _ _ Si)|]. intros lf Hl.
  specialize (Si1 lf Hl). set (s1 := set_ds_log (set_ds_heap s m1 fh1) lf) in *. destruct Ku as [k Ek].
  assert (Rx1 : a_relaxing s1 D u k z nd lost1 [] s1 D P C1).
  { split; [done|done|done|intros r Hr; by apply elem_of_nil in Hr|done|done|cbn; lia|done]. }
  pose proof (ex_steps _ _ _ _ Ex) as Hx. pose proof (ex_edges _ _ _ _ Ex) as He. rewrite Forall_forall in He.
  assert (Hw : forall r, r ∈ rs -> weight_of G (r_id r) = weight r) by (intros r Hr; unfold weight_of; by rewrite (He r Hr)).
  unfold relax_rels. rewrite (for_array l rs _ _ Al). eapply returns_bind.
  { apply (for_each_returns _ (fun ys s => exists D' P C, a_relaxing s1 D u k z nd lost1 ys s D' P C)); [by exists D, P, C1|].
    intros ys r zs s2 E (D2 & P2 & C2 & Rx2). assert (Hr : r ∈ rs) by (rewrite E; set_solver).
    eapply returns_weaken; [apply (a_star_rel_returns s1 D _ k z nd lost1 ys r s2 D2 P2 C2 Rx2); [apply Hx; eauto|by apply Hw]| |done].
    intros Full. right. exists nd0, l, hf1. rewrite Ev. split_and!; [done..|]. unfold array_list_size. rewrite (al_len_ok _ _ Al), E, length_app.
    cbn [fst length]. change (live (ds_memory s1)) with (live m1) in Full. lia. }
  intros s2 (D2 & P2 & C2 & [Si2 A2 Ek2 Sn2 Aw2 [Ez2 Cz2] [Ct2 _] Wk2]).
  destruct (fheap_free (ds_memory s2) (ds_queue s2) C2 z (di_heap _ _ _ _ _ _ _ Si2) ltac:(eauto) Cz2 Ct2) as (m3 & -> & F3 & Lm3).
  cbn [mbind res_bind returns fst snd]. split.
  - exists D2, P2, C2, lost1. split_and!; [destruct Si2; by split| |done|done].
    apply (astar_close D2 P2 u _ rs A2); [|done]. intros x b St. by apply Hx.
  - unfold a_st_work. cbn [fst set_ds_heap ds_distance]. rewrite (proj2 (di_dist _ _ _ _ _ _ _ Si)), (proj2 (di_dist _ _ _ _ _ _ _ Si2)).
    change (a_work (set_ds_heap s2 m3 (ds_queue s2)) D2) with (a_work s2 D2). unfold a_work, work in *.
    change (num_nodes (ds_queue s1)) with (num_nodes fh1) in Wk2. lia.
Qed.

(** ** The query *)

(** The state before the loop: the source is in the heap, with the distance zero. *)
Lemma a_star_start_ok hf lf seed1 seed2 : serves hf G -> (log = true -> is_Some lf) ->
  exists st, a_star_start hf src lf seed1 seed2 = Ok st /\ a_inv st /\ a_st_work st < 2 ^ Z.of_nat ROUNDS.
Proof.
  intros Sv Hl. destruct (dict_create_ok seed1) as [Wp Cp], (dict_create_ok seed2) as [Wn Cn]. unfold a_star_start.
  destruct (first_insert src) as (m & fh & p & -> & F1 & Nn1). cbn [mbind res_bind].
  destruct (dict_insert_ok (d_ul_ul_create seed2) src 0 Wn) as (t & -> & W1 & C1). cbn [mbind res_bind]. rewrite Cn, insert_empty in C1.
  pose proof (astar_start G d src Hs) as A0. eexists. split; [reflexivity|]. split.
  - exists {[src := 0]}, ∅, (<[p := (DBL_MAX, src)]> ∅), 0. split_and!; [| | |done].
    + split; cbn; [done|done|done| | |done].
      * rewrite Nn1, map_size_insert_None, map_size_empty by done. done.
      * intros q k v [[_ [= _ <-]]|[_ E]]%lookup_insert_Some; [done|]. by rewrite lookup_empty in E.
    + eapply astar_weaken; [exact A0|]. intros v ->. right. exists p, DBL_MAX. apply lookup_insert_eq.
    + split.
      * intros q k v [[_ [= _ <-]]|[_ E]]%lookup_insert_Some; [by rewrite lookup_singleton_eq|]. by rewrite lookup_empty in E.
      * rewrite lookup_singleton_ne by done. by intros [].
  - unfold a_st_work, a_work, work. cbn [fst ds_queue ds_distance]. rewrite C1, Nn1. pose proof (fill_bounds G d src _ _ _ A0) as B.
    unfold INFINITY_BITS in B. change (2 ^ Z.of_nat ROUNDS) with (2 ^ 124). nia.
Qed.

Lemma a_star_returns hf lf seed1 seed2 : serves hf G -> (log = true -> is_Some lf) ->
  returns (exists st0 st, a_star_start hf src lf seed1 seed2 = Ok st0 /\
             rtc (next_round (a_star_round logf heuristic src tgt d log)) st0 st /\ no_room d log st)
    (a_star logf hf heuristic src tgt d log lf seed1 seed2) a_end.
Proof.
  intros Sv Hl. unfold a_star. rewrite (labels_initialized hf G src Sv Hs), (labels_initialized hf G tgt Sv Ht). cbn [orb].
  destruct (a_star_start_ok hf lf seed1 seed2 Sv Hl) as (st0 & Es & I & Wk). eapply returns_step; [exact Es|].
  eapply returns_weaken; [apply (while_returns a_inv (no_room d log) a_st_work); [apply a_star_round_returns| |done|done]| |done].
  - intros [s hf2] (D & P & C & lost & Si & A & _). unfold a_st_work, a_work, work. cbn [fst] in *.
    rewrite (proj2 (di_dist _ _ _ _ _ _ _ Si)). destruct (fheap_count _ _ _ (di_heap _ _ _ _ _ _ _ Si)) as [[Ct _] _].
    pose proof (fill_bounds G d src D P _ A). lia.
  - intros (st & R & N). by exists st0, st.
Qed.
End Rounds.

(** C16: A*, on a graph whose weights are not negative, with estimates that are not negative for all
    nodes, from a node to another one, ends.  It returns a walk from the source to the target
    in the direction, whose length, summed up from the target to the source, is the distance
    of the path; or an empty path of length DBL_MAX, and then no walk leads to the target.  Or
    it exits, and then the rounds of the loop have led to a state in which the heap has lost
    nodes, its count being positive and its minimum not set, or in which the memory may not
    have room for the relationships of the next node. *)
Theorem a_star_finds_walk `{RecordPages} `{Malloc} (logf : spec_float -> spec_float) `{LogfBounds logf}
    (hf : heap_file) (G : graph) (src tgt : Z) (d : direction_t) (log : bool) (lf : option log_file) (heuristic : dict_ul_ul)
    (seed1 seed2 : Z) (GF : graph_file hf G) (Hs : is_Some (g_labels G !! src)) (Ht : is_Some (g_labels G !! tgt)) (Ne : src <> tgt)
    (Wt : weights_ok G) (Wh : wf fnv_hash_ul heuristic)
    (Est : forall n, is_Some (g_labels G !! n) -> exists h, contents heuristic !! n = Some h /\ 0 <= h <= INFINITY_BITS)
    (Hl : log = true -> is_Some lf) :
  (a_star logf hf heuristic src tgt d log lf seed1 seed2 = Exit /\
   exists st0 st, a_star_start hf src lf seed1 seed2 = Ok st0 /\
     rtc (next_round (a_star_round logf heuristic src tgt d log)) st0 st /\ (drained st.1 \/ memory_short d log st)) \/
  exists p hf' lf' xs, a_star logf hf heuristic src tgt d log lf seed1 seed2 = Ok (p, hf', lf') /\ graph_file hf' G /\
    p_source p = src /\ p_target p = tgt /\ al_rep (p_edges p) xs /\
    ((walk G d src xs tgt /\ p_distance p = length_of G (reverse xs)) \/
     (xs = [] /\ p_distance p = DBL_MAX /\ forall ys, ~ walk G d src ys tgt)).
Proof.
  assert (Ends : forall a x b, step G d a x b -> is_Some (g_labels G !! a) /\ is_Some (g_labels G !! b)).
  { intros a x b. by apply (step_ends hf). }
  assert (Small : Z.of_nat (size (g_labels G)) < 2 ^ 59).
  { destruct (nodes_serves hf G true GF) as (l & ns & hf1 & _ & _ & _ & Pm & Nn & Sm). apply Permutation_length in Pm.
    rewrite !length_fmap, length_map_to_list in Pm. lia. }
  pose proof (a_star_returns logf G d src tgt log heuristic Ends Wt Wh Est Hs Ht Ne Small hf lf seed1 seed2 GF Hl) as R.
  apply returns_cases in R as [R|([[p hf'] lf'] & R & Sv & Ps & Pt & xs & Al & C)]; [by left|right].
  exists p, hf', lf', xs. by split_and!.
Qed.

(** ** Runs *)

Module Runs.
Import ShortestPaths.Runs.
#[local] Existing Instance x86_pages.
#[local] Existing Instance lowest_free.

(** A* from the first node to [target], with the estimates [hs] of the nodes from 0 on: the
    length of the path that it returns and the number of its relationships. *)
Definition heuristic_of (hs : list Z) : res dict_ul_ul :=
  for_loop (length hs) 0 (fun v h => k ← deref (hs !! Z.to_nat v); dict_insert h v (num k)) (d_ul_ul_create 3).
Definition a_star_run (n : nat) (es : list (Z * Z * Z)) (hs : list Z) (target : Z) : res (Z * Z) :=
  hf ← build n es;
  h ← heuristic_of hs;
  '(p, _, _) ← a_star logf_sample hf h 0 target OUTGOING true (Some (log_open "q")) 1 2;
  Ok (p_distance p, array_list_size (p_edges p)).

(** A* with the exact distances to the target as its heuristic returns a path of length 5
    where Dijkstra's algorithm finds 4: the estimates of all nodes along a path are added up.
    With estimates of zero it returns the shorter path of two relationships. *)
Example a_star_accumulates_estimates :
  let es := [(0, 1, 2); (1, 2, 2); (0, 2, 5)] in
  distances_from_first 3 es = Ok (num <$> [0; 2; 4]) /\
  a_star_run 3 es [4; 2; 0] 2 = Ok (num 5, 1) /\ a_star_run 3 es [0; 0; 0] 2 = Ok (num 4, 2).
Proof. vm_compute. split_and!; reflexivity. Qed.

(** Along one relationship, with estimates of zero. *)
Definition zero_estimates (a b : Z) : res dict_ul_ul := t ← dict_insert (d_ul_ul_create 3) a 0; dict_insert t b 0.
Definition a_star_pair : res Z :=
  '(hf, a, b) ← pair_file;
  h ← zero_estimates a b;
  '(p, _, _) ← a_star logf_sample hf h a b OUTGOING false None 1 2;
  Ok (array_list_size (p_edges p)).
Lemma a_star_pair_result : a_star_pair = Ok 1.
Proof. vm_compute. reflexivity. Qed.

Lemma a_star_finds_walk_witness : exists hf G a b h p hf' lf' xs,
  a_star logf_sample hf h a b OUTGOING false None 1 2 = Ok (p, hf', lf') /\ graph_file hf' G /\ al_rep (p_edges p) xs /\
  length xs = 1%nat /\ walk G OUTGOING a xs b /\ p_distance p = length_of G (reverse xs).
Proof.
  destruct pair_file_sample as (hf & G & a & b & E & GF & Ha & Hb & Hab & Wt & Hn).
  pose proof a_star_pair_result as X. unfold a_star_pair in X. rewrite E in X. cbn [mbind res_bind] in X.
  destruct (dict_create_ok 3) as [W0 C0]. destruct (dict_insert_ok (d_ul_ul_create 3) a 0 W0) as (t1 & E1 & W1 & C1).
  destruct (dict_insert_ok t1 b 0 W1) as (h & E2 & Wh & Ch). unfold zero_estimates in X. rewrite E1 in X. cbn [mbind res_bind] in X.
  rewrite E2 in X. cbn [mbind res_bind] in X.
  destruct (a_star_finds_walk logf_sample hf G a b OUTGOING false None h 1 2 GF Ha Hb Hab Wt Wh) as
    [[Ex _]|(p & hf' & lf' & xs & R & GF' & _ & _ & Al & C)].
  - clear X. intros n Hl%Hn. exists 0. rewrite Ch, C1, C0. split; [|unfold INFINITY_BITS; lia].
    destruct (decide (b = n)) as [->|Hb']; [apply lookup_insert_eq|]. rewrite lookup_insert_ne by done.
    destruct Hl as [->|]; [apply lookup_insert_eq|congruence].
  - intros Y. discriminate Y.
  - rewrite Ex in X. discriminate X.
  - rewrite R in X. cbn [mbind res_bind] in X. injection X as X. unfold array_list_size in X. rewrite (al_len_ok _ _ Al) in X.
    destruct C as [[W Pd]|[-> _]]; [|discriminate X].
    exists hf, G, a, b, h, p, hf', lf', xs. split_and!; [exact R|exact GF'|exact Al| |exact W|exact Pd]. clear -X. lia.
Defined.
End Runs.
