(* ===== verification/Orders.v ===== *)
(** Record orders: src/order/random_order.c, which computes orders of the records of a heap
    file, and src/order/reorder_records.c, which moves the records to the slots that an order
    gives them and rewrites the references to them.

    An order is a table from the ids that records have to the ids that they shall have.  The
    seeds of the tables are arguments, and so are the results of [rand()].  The temporary
    database in which [reorder_*_by_sequence] allocates the new ids is created in the file
    system that is passed along. *)

From S2P Require Import Prelude Constants LinkedList HTable HSet ArrayList DiskFile PhysicalDatabase Page PageCache HeaderPage Records HeapFile Queries.
From Stdlib Require Import ZArith Lia.
From stdpp Require Import base list option gmap strings sorting.

#[local] Open Scope Z_scope.

Definition dict_get (d : dict_ul_ul) (k : Z) : res (option Z) := htable_get fnv_hash_ul d k.

Section Orders.
Context `{Sysconf}.

(** ** Orders *)

(** [for (i < size(records)) insert(order, records[i]->id, records[i]->id);] *)
Definition identity_order {A} (key : A -> Z) (records : alist A) (seed : Z) : res dict_ul_ul :=
  for_loop (Z.to_nat (array_list_size records)) 0
    (fun i order =>
       k ← array_list_get records i;
       v ← array_list_get records i;
       dict_insert order (key k) (key v)) (d_ul_ul_create seed).

Definition identity_node_order (hf : heap_file) (seed : Z) : res (dict_ul_ul * heap_file) :=
  '(nodes, hf) ← get_nodes hf false;
  order ← identity_order n_id nodes seed;
  Ok (order, hf).

Definition identity_relationship_order (hf : heap_file) (seed : Z) : res (dict_ul_ul * heap_file) :=
  '(rels, hf) ← get_relationships hf false;
  order ← identity_order r_id rels seed;
  Ok (order, hf).

(** The loop that exchanges the new id of every record with that of a random one; [rnd i] is
    what the [i]-th call of [rand()] returns, [n] the number of records of the heap file. *)
Definition exchange {A} (key : A -> Z) (records : alist A) (rnd : Z -> Z) (n i : Z) (order : dict_ul_ul)
    : res dict_ul_ul :=
  r_i ← (if n =? 0 then Undef else Ok (rnd i mod n));
  rand_rec ← array_list_get records r_i;
  let rand_id := key rand_rec in
  cur_rec ← array_list_get records i;
  let cur_id := key cur_rec in
  cur_val ← dict_get_direct order cur_id;
  rand_val ← dict_get_direct order rand_id;
  order ← dict_insert order cur_id rand_val;
  dict_insert order rand_id cur_val.

(** [for (i = 0; i < size(order); ++i)]: the size is read in every round. *)
Fixpoint exchange_loop {A} (fuel : nat) (key : A -> Z) (records : alist A) (rnd : Z -> Z) (n i : Z)
    (order : dict_ul_ul) : res dict_ul_ul :=
  match fuel with
  | O => NoFuel
  | S fuel' =>
      if i <? htable_size order then
        order ← exchange key records rnd n i order;
        exchange_loop fuel' key records rnd n (i + 1) order
      else Ok order
  end.

Definition random_node_order (hf : heap_file) (seed : Z) (rnd : Z -> Z) : res (dict_ul_ul * heap_file) :=
  '(order, hf) ← identity_node_order hf seed;
  '(nodes, hf) ← get_nodes hf false;
  order ← exchange_loop (S (Z.to_nat (array_list_size nodes))) n_id nodes rnd (n_nodes hf) 0 order;
  Ok (order, hf).

Definition random_relationship_order (hf : heap_file) (seed : Z) (rnd : Z -> Z) : res (dict_ul_ul * heap_file) :=
  '(order, hf) ← identity_relationship_order hf seed;
  '(rels, hf) ← get_relationships hf false;
  order ← exchange_loop (S (Z.to_nat (array_list_size rels))) r_id rels rnd (n_rels hf) 0 order;
  Ok (order, hf).

(** ** Exchanging two records *)

(** The condition for "Invalid Arguments": the ids must be within the pages of the file, and
    their records must not cross a page boundary. *)
Definition bad_swap (hf : heap_file) (node : bool) (fst snd : Z) : bool :=
  let crosses id := (u64 (id + num_slots node - 1)) mod SLOTS_PER_PAGE <? id mod SLOTS_PER_PAGE in
  (fst =? UNINITIALIZED_LONG) || (snd =? UNINITIALIZED_LONG)
  || (pages_of hf node <=? record_page fst) || (pages_of hf node <=? record_page snd)
  || crosses fst || crosses snd.

(** [if (x == fst) x = snd; else if (x == snd) x = fst;] *)
Definition swap_id (fst snd x : Z) : Z := if x =? fst then snd else if x =? snd then fst else x.

Definition swap_ends (fst snd : Z) (r : relationship_t) : relationship_t :=
  Relationship (r_id r) (swap_id fst snd (source_node r)) (swap_id fst snd (target_node r))
    (prev_rel_source r) (next_rel_source r) (prev_rel_target r) (next_rel_target r) (weight r) (r_label r).
Definition swap_links (fst snd : Z) (r : relationship_t) : relationship_t :=
  Relationship (r_id r) (source_node r) (target_node r)
    (swap_id fst snd (prev_rel_source r)) (swap_id fst snd (next_rel_source r))
    (swap_id fst snd (prev_rel_target r)) (swap_id fst snd (next_rel_target r)) (weight r) (r_label r).
Definition set_node_id (n : node_t) (id : Z) : node_t := Node id (first_relationship n) (n_label n).
Definition set_rel_id (r : relationship_t) (id : Z) : relationship_t :=
  Relationship id (source_node r) (target_node r) (prev_rel_source r) (next_rel_source r)
    (prev_rel_target r) (next_rel_target r) (weight r) (r_label r).

(** The header bits of two records of which one exists. *)
Definition exchange_slots (hf : heap_file) (node : bool) (fst snd : Z) (fst_exists snd_exists log : bool)
    : res heap_file :=
  if Bool.eqb fst_exists snd_exists then Ok hf
  else
    hf ← mark_slots hf node fst (if snd_exists then UCHAR_MAX else 0) log;
    mark_slots hf node snd (if fst_exists then UCHAR_MAX else 0) log.

(** [if (cond) r = read(...);] *)
Definition read_if {A} (cond : bool) (read : heap_file -> res (A * heap_file)) (hf : heap_file)
    : res (option A * heap_file) :=
  if cond then '(r, hf) ← read hf; Ok (Some r, hf) else Ok (None, hf).
(** [if (cond) { r->id = id; update(r); }] *)
Definition update_if {A} (r : option A) (update : heap_file -> A -> res heap_file) (hf : heap_file)
    : res heap_file :=
  match r with Some r => update hf r | None => Ok hf end.

(** *** Nodes *)

(** The relationships of the second node that are not among those of the first. *)
Definition add_missing (rels rels_snd : alist relationship_t) : res (alist relationship_t) :=
  for_loop (Z.to_nat (array_list_size rels_snd)) 0
    (fun i rels =>
       rel ← array_list_get rels_snd i;
       b ← array_list_contains relationship_equals rels rel;
       if b : bool then Ok rels else array_list_append rels (relationship_copy rel)) rels.

Definition redirect (hf : heap_file) (fst snd : Z) (rels : alist relationship_t) (log : bool)
    : res heap_file :=
  for_loop (Z.to_nat (array_list_size rels)) 0
    (fun i hf => rel ← array_list_get rels i; update_relationship hf (swap_ends fst snd rel) log) hf.

Definition label_of (n : option node_t) : Z := from_option n_label UNINITIALIZED_LONG n.

Definition swap_nodes (hf : heap_file) (fst snd : Z) (log : bool) : res heap_file :=
  if bad_swap hf true fst snd then Exit
  else
    '(fst_exists, hf) ← check_record_exists hf fst true log;
    '(snd_exists, hf) ← check_record_exists hf snd true log;
    if (fst =? snd) || (negb fst_exists && negb snd_exists) then Ok hf
    else
      '(rels, hf) ← (if fst_exists : bool then expand hf fst BOTH log else Ok (array_list_create, hf));
      hf ← (if snd_exists : bool then
              '(rels_snd, hf) ← expand hf snd BOTH log;
              rels ← add_missing rels rels_snd;
              redirect hf fst snd rels log
            else Ok hf);
      '(fst_node, hf) ← read_if fst_exists (fun hf => read_node hf fst log) hf;
      '(snd_node, hf) ← read_if snd_exists (fun hf => read_node hf snd log) hf;
      let hf := hf_log_when log [LStr "swap_nodes"; LNum fst; LNum (label_of fst_node);
                                 LNum snd; LNum (label_of snd_node)] hf in
      hf ← exchange_slots hf true fst snd fst_exists snd_exists log;
      hf ← update_if fst_node (fun hf n => update_node hf (set_node_id n snd) log) hf;
      update_if snd_node (fun hf n => update_node hf (set_node_id n fst) log) hf.

(** *** Relationships *)

(** [if (!contains(l, x)) append(l, x);] *)
Definition append_new (l : alist Z) (x : Z) : res (alist Z) :=
  b ← array_list_contains unsigned_long_eq l x;
  if b : bool then Ok l else array_list_append l x.

(** The nodes and relationships that refer to a relationship; the elements that are appended
    to an empty list are not searched first. *)
Definition note_references (first : bool) (rel : relationship_t) (nodes rels : alist Z)
    : res (alist Z * alist Z) :=
  nodes ← (if first then array_list_append nodes (source_node rel) else append_new nodes (source_node rel));
  nodes ← append_new nodes (target_node rel);
  rels ← (if first then array_list_append rels (prev_rel_source rel) else append_new rels (prev_rel_source rel));
  rels ← append_new rels (prev_rel_target rel);
  rels ← append_new rels (next_rel_source rel);
  rels ← append_new rels (next_rel_target rel);
  Ok (nodes, rels).

Definition relink_rels (hf : heap_file) (fst snd : Z) (rels_to_update : alist Z) (log : bool) : res heap_file :=
  for_loop (Z.to_nat (array_list_size rels_to_update)) 0
    (fun i hf =>
       x ← array_list_get rels_to_update i;
       '(rel, hf) ← read_relationship hf x log;
       update_relationship hf (swap_links fst snd rel) log) hf.

Definition relink_nodes (hf : heap_file) (fst snd : Z) (nodes_to_update : alist Z) (log : bool) : res heap_file :=
  for_loop (Z.to_nat (array_list_size nodes_to_update)) 0
    (fun i hf =>
       x ← array_list_get nodes_to_update i;
       '(node, hf) ← read_node hf x log;
       update_node hf (set_first node (swap_id fst snd (first_relationship node))) log) hf.

Definition swap_relationships (hf : heap_file) (fst snd : Z) (log : bool) : res heap_file :=
  if bad_swap hf false fst snd then Exit
  else
    '(fst_exists, hf) ← check_record_exists hf fst false log;
    '(snd_exists, hf) ← check_record_exists hf snd false log;
    if (fst =? snd) || (negb fst_exists && negb snd_exists) then Ok hf
    else
      '(nodes, rels, hf) ←
        (if fst_exists : bool then
           '(fst_rel, hf) ← read_relationship hf fst log;
           '(nodes, rels) ← note_references true fst_rel array_list_create array_list_create;
           Ok (nodes, rels, hf)
         else Ok (array_list_create, array_list_create, hf));
      '(nodes, rels, hf) ←
        (if snd_exists : bool then
           '(snd_rel, hf) ← read_relationship hf snd log;
           '(nodes, rels) ← note_references false snd_rel nodes rels;
           Ok (nodes, rels, hf)
         else Ok (nodes, rels, hf));
      hf ← relink_rels hf fst snd rels log;
      hf ← relink_nodes hf fst snd nodes log;
      '(snd_rel, hf) ← read_if snd_exists (fun hf => read_relationship hf snd log) hf;
      '(fst_rel, hf) ← read_if fst_exists (fun hf => read_relationship hf fst log) hf;
      let hf := hf_log_when log [LStr "swap_relationships"; LNum fst; LNum snd] hf in
      hf ← exchange_slots hf false fst snd fst_exists snd_exists log;
      hf ← update_if fst_rel (fun hf r => update_relationship hf (set_rel_id r snd) log) hf;
      update_if snd_rel (fun hf r => update_relationship hf (set_rel_id r fst) log) hf.

Definition swap_records (node : bool) (hf : heap_file) (fst snd : Z) (log : bool) : res heap_file :=
  if node then swap_nodes hf fst snd log else swap_relationships hf fst snd log.

(** *** Pages *)

(** [for (i = 0; i < SLOTS_PER_PAGE; i += n_slots_records)] *)
Definition swap_record_pages (hf : heap_file) (fst snd : Z) (ft : file_type) (log : bool) : res heap_file :=
  if (MAX_PAGE_NO <=? fst) || (MAX_PAGE_NO <? snd) then Exit
  else if fst =? snd then Ok hf
  else
    let node := bool_decide (ft = node_ft) in
    let n_slots_records := if node then NUM_SLOTS_PER_NODE else NUM_SLOTS_PER_REL in
    hf ← for_loop (Z.to_nat ((SLOTS_PER_PAGE + n_slots_records - 1) / n_slots_records)) 0
           (fun k hf =>
              let i := k * n_slots_records in
              swap_records node hf (id_of fst i) (id_of snd i) log) hf;
    let tag := if node then "swap_node_pages"%string else "swap_rel_pages"%string in
    Ok (hf_log_when log [LStr tag; LNum fst; LNum snd] hf).

(** ** Reordering *)

(** [while (next(it, &old_id, &new_id) == 0) insert(inverse_new_ids, new_id, old_id);] *)
Fixpoint invert (fuel : nat) (new_ids : dict_ul_ul) (it : iterator Z Z) (inverse_new_ids : dict_ul_ul)
    : res dict_ul_ul :=
  match fuel with
  | O => NoFuel
  | S fuel' =>
      '(o, it) ← iterator_next new_ids it;
      match o with
      | None => Ok inverse_new_ids
      | Some (old_id, new_id) =>
          inverse_new_ids ← dict_insert inverse_new_ids new_id old_id;
          invert fuel' new_ids it inverse_new_ids
      end
  end.

(** The heap file, the order of the records that are not yet placed, and its inverse. *)
Record placing := Placing {
  pl_file : heap_file;
  pl_new : dict_ul_ul;
  pl_inverse : dict_ul_ul }.

(** The record that shall have [new_id] gets it, by an exchange with the record that has it;
    the order of relationships asserts that both tables have the same size. *)
Definition place_record (node : bool) (new_id : Z) (log : bool) (s : placing) : res placing :=
  o ← dict_get (pl_inverse s) new_id;
  match o with
  | None => Ok s
  | Some old_id =>
      hf ← swap_records node (pl_file s) old_id new_id log;
      new_ids ← dict_remove (pl_new s) old_id;
      inverse ← dict_remove (pl_inverse s) new_id;
      if old_id =? new_id then Ok (Placing hf new_ids inverse)
      else
        temp_new ← dict_get_direct new_ids new_id;
        new_ids ← dict_remove new_ids new_id;
        inverse ← dict_remove inverse temp_new;
        new_ids ← dict_insert new_ids old_id temp_new;
        inverse ← dict_insert inverse temp_new old_id;
        if node || (htable_size new_ids =? htable_size inverse) then Ok (Placing hf new_ids inverse) else Exit
  end.

(** [for (i = 0; i < n; ++i)], with the page and the slot of the next id. *)
Fixpoint place_loop (n : nat) (node : bool) (cur_page cur_slot : Z) (log : bool) (s : placing) : res placing :=
  match n with
  | O => Ok s
  | S n' =>
      s ← place_record node (id_of cur_page cur_slot) log s;
      if htable_size (pl_new s) =? 0 then Ok s
      else if UCHAR_MAX <=? cur_slot + num_slots node
      then place_loop n' node (u64 (cur_page + 1)) 0 log s
      else place_loop n' node cur_page (cur_slot + num_slots node) log s
  end.

(** The heap file, and the table that was passed, which is changed. *)
Definition reorder (node : bool) (hf : heap_file) (new_ids : dict_ul_ul) (log : bool) (seed : Z)
    : res (heap_file * dict_ul_ul) :=
  inverse ← invert (S (Z.to_nat (htable_size new_ids))) new_ids iterator_create (d_ul_ul_create seed);
  s ← place_loop (Z.to_nat (if node then n_nodes hf else n_rels hf)) node 0 0 log (Placing hf new_ids inverse);
  Ok (pl_file s, pl_new s).

Definition reorder_nodes := reorder true.
Definition reorder_relationships := reorder false.

(** The ids that a new heap file allocates, in order, for the records of the sequence. *)
Definition assign_ids (node : bool) (n : Z) (sequence : list Z) (temp_hf : heap_file) (seed : Z)
    : res (dict_ul_ul * heap_file) :=
  for_loop (Z.to_nat n) 0
    (fun i '(new_ids, temp_hf) =>
       temp_hf ← next_free_slots temp_hf node false;
       x ← deref (sequence !! Z.to_nat i);
       new_ids ← dict_insert new_ids x (last_alloc temp_hf node);
       Ok (new_ids, temp_hf)) (d_ul_ul_create seed, temp_hf).

(** [n_pages] of the two functions: for nodes, the second summand is about relationships. *)
Definition pages_for_nodes (hf : heap_file) : Z :=
  u64 (n_nodes hf * NUM_SLOTS_PER_NODE) / (PAGE_SIZE * CHAR_BIT)
  + (if u64 (n_rels hf * NUM_SLOTS_PER_NODE) mod (PAGE_SIZE * CHAR_BIT) =? 0 then 0 else 1).
Definition pages_for_rels (hf : heap_file) : Z :=
  u64 (n_rels hf * NUM_SLOTS_PER_REL) / (PAGE_SIZE * CHAR_BIT)
  + (if u64 (n_rels hf * NUM_SLOTS_PER_REL) mod (PAGE_SIZE * CHAR_BIT) =? 0 then 0 else 1).

Definition reorder_nodes_by_sequence (fs : file_system) (hf : heap_file) (sequence : list Z) (log : bool)
    (seed : Z) : res (heap_file * file_system) :=
  '(temp_pdb, fs) ← phy_database_create fs "reord_temp" "temp_log";
  temp_pc ← page_cache_create temp_pdb (pages_for_nodes hf) "temp_log" seed;
  temp_hf ← heap_file_create temp_pc "temp_log";
  '(new_ids, temp_hf) ← assign_ids true (n_nodes hf) sequence temp_hf seed;
  temp_pdb ← page_cache_destroy (hf_cache temp_hf);
  let fs := phy_database_delete fs temp_pdb in
  '(hf, _) ← reorder_nodes hf new_ids log seed;
  Ok (hf, fs).

(** The header file of the temporary database grows before it is used. *)
Definition reorder_relationships_by_sequence (fs : file_system) (hf : heap_file) (sequence : list Z)
    (log : bool) (seed : Z) : res (heap_file * file_system) :=
  '(temp_pdb, fs) ← phy_database_create fs "reord_temp" "temp_log";
  p ← disk_file_grow (pdb_header temp_pdb relationship_ft) (pages_for_rels hf) false (pdb_log temp_pdb);
  let temp_pdb := set_header temp_pdb relationship_ft p in
  temp_pc ← page_cache_create temp_pdb (pages_for_rels hf) "temp_log" seed;
  temp_hf ← heap_file_create temp_pc "temp_log";
  '(new_ids, temp_hf) ← assign_ids false (n_rels hf) sequence temp_hf seed;
  temp_pdb ← page_cache_destroy (hf_cache temp_hf);
  let fs := phy_database_delete fs temp_pdb in
  '(hf, _) ← reorder_relationships hf new_ids log seed;
  Ok (hf, fs).

(** The outgoing relationships of the nodes in turn, written to an array of [n_rels] ids. *)
Definition outgoing_sequence (hf : heap_file) (log : bool) : res (list Z * heap_file) :=
  '(nodes, hf) ← get_nodes hf log;
  '(new_order, _, hf) ←
    for_loop (Z.to_nat (n_nodes hf)) 0
      (fun i '(new_order, k, hf) =>
         node ← array_list_get nodes i;
         '(rels, hf) ← expand hf (n_id node) OUTGOING log;
         '(new_order, k) ←
           for_loop (Z.to_nat (array_list_size rels)) 0
             (fun j '(new_order, k) =>
                rel ← array_list_get rels j;
                new_order ← mem_set new_order k (r_id rel);
                Ok (new_order, S k)) (new_order, k);
         Ok (new_order, k, hf))
      (replicate (Z.to_nat (n_rels hf)) 0, O, hf);
  Ok (new_order, hf).

Definition reorder_relationships_by_nodes (fs : file_system) (hf : heap_file) (log : bool) (seed : Z)
    : res (heap_file * file_system) :=
  '(new_order, hf) ← outgoing_sequence hf log;
  reorder_relationships_by_sequence fs hf new_order log seed.

(** ** Sorting the incidence lists *)

(** [qsort] with [ul_cmp]. *)
Definition ul_le (a b : Z) : Prop := ul_cmp a b <= 0.
#[export] Instance ul_le_dec : RelDecision ul_le.
Proof. intros a b. unfold ul_le. apply _. Defined.

(** [while (next(it, &elem) == 0) { sorted_rel_ids[i] = elem; ++i; }] *)
Fixpoint set_elements (fuel : nat) (s : hset Z) (it : set_iterator Z) (i : nat) (sorted_rel_ids : list Z)
    : res (list Z) :=
  match fuel with
  | O => NoFuel
  | S fuel' =>
      '(o, it) ← set_iterator_next s it;
      match o with
      | None => Ok sorted_rel_ids
      | Some elem => sorted_rel_ids ← mem_set sorted_rel_ids i elem; set_elements fuel' s it (S i) sorted_rel_ids
      end
  end.

(** The ids of the relationships, collected in a set, read from it and sorted. *)
Definition sort_ids (rels : alist relationship_t) (seed : Z) : res (list Z) :=
  rel_ids ←
    for_loop (Z.to_nat (array_list_size rels)) 0
      (fun i s => rel ← array_list_get rels i; set_insert fnv_hash_ul s_ul_cbs 0 s (r_id rel))
      (set_create 0 seed);
  sorted_rel_ids ←
    set_elements (S (Z.to_nat (HSet.set_size rel_ids))) rel_ids set_iterator_create 0
      (replicate (Z.to_nat (HSet.set_size rel_ids)) 0);
  Ok (merge_sort ul_le sorted_rel_ids).

(** The links on one side of a relationship, the source's if it is a loop. *)
Definition link_between (node_id prev next : Z) (r : relationship_t) : relationship_t :=
  if source_node r =? node_id then set_next_source (set_prev_source r prev) next
  else set_next_target (set_prev_target r prev) next.

Definition link_at (hf : heap_file) (node_id : Z) (ids : list Z) (prev cur next : Z) (log : bool) : res heap_file :=
  x ← deref (ids !! Z.to_nat cur);
  '(rel, hf) ← read_relationship hf x log;
  p ← deref (ids !! Z.to_nat prev);
  n ← deref (ids !! Z.to_nat next);
  update_relationship hf (link_between node_id p n rel) log.

Definition link_sorted (hf : heap_file) (node_id : Z) (ids : list Z) (rels_size : Z) (log : bool) : res heap_file :=
  hf ← link_at hf node_id ids (rels_size - 1) 0 1 log;
  hf ← for_loop (Z.to_nat (rels_size - 2)) 1
         (fun j hf => link_at hf node_id ids (j - 1) j (j + 1) log) hf;
  link_at hf node_id ids (rels_size - 2) (rels_size - 1) 0 log.

(** The round for one node. *)
Definition sort_incidence (seed : Z) (log : bool) (node : node_t) (hf : heap_file) : res heap_file :=
  let node_id := n_id node in
  '(rels, hf) ← expand hf node_id BOTH log;
  let rels_size := array_list_size rels in
  if rels_size <? 3 then Ok hf
  else
    ids ← sort_ids rels seed;
    link_sorted hf node_id ids rels_size log.

Definition sort_incidence_list (hf : heap_file) (log : bool) (seed : Z) : res heap_file :=
  '(nodes, hf) ← get_nodes hf log;
  for_loop (Z.to_nat (n_nodes hf)) 0
    (fun i hf => node ← array_list_get nodes i; sort_incidence seed log node hf) hf.
End Orders.
