(* ===== verification/RandomOrders.v ===== *)
(** The orders of src/order/random_order.c are permutations of the ids of the stored records,
    whatever [rand()] returns.

    [order_on D m] says that the map [m] is a bijection of the set [D] of ids; an exchange of
    two values of it composes it with a transposition. *)

From S2P Require Import Prelude Constants LinkedList HTable ArrayList DiskFile PhysicalDatabase Page PageCache PageCacheInv HeaderPage Records HeapFile HeapFileInv HeapRecords HeapStore Chains Incidence Traversal Queries Walks Searches Paths Orders HeapProps.
From Stdlib Require Import ZArith Lia.
From stdpp Require Import base list option fin_maps fin_sets gmap strings.

#[local] Open Scope Z_scope.

(** ** Transpositions *)

Lemma swap_id_l a b : swap_id a b a = b.
Proof. unfold swap_id. by rewrite Z.eqb_refl. Qed.
Lemma swap_id_r a b : swap_id a b b = a.
Proof. unfold swap_id. rewrite Z.eqb_refl. by destruct (Z.eqb_spec b a). Qed.
Lemma swap_id_other a b x : x <> a -> x <> b -> swap_id a b x = x.
Proof. intros Ha Hb. unfold swap_id. by rewrite (proj2 (Z.eqb_neq x a) Ha), (proj2 (Z.eqb_neq x b) Hb). Qed.
Lemma swap_id_same a x : swap_id a a x = x.
Proof. unfold swap_id. by destruct (Z.eqb_spec x a) as [->|]. Qed.
Lemma swap_id_twice a b x : swap_id a b (swap_id a b x) = x.
Proof.
  destruct (decide (x = a)) as [->|Ha]; [by rewrite swap_id_l, swap_id_r|].
  destruct (decide (x = b)) as [->|Hb]; [by rewrite swap_id_r, swap_id_l|]. by rewrite !(swap_id_other a b x).
Qed.
Lemma swap_id_inj a b x y : swap_id a b x = swap_id a b y -> x = y.
Proof. intros E. by rewrite <- (swap_id_twice a b x), E, swap_id_twice. Qed.
Lemma swap_id_in (D : gset Z) a b x : a ∈ D -> b ∈ D -> swap_id a b x ∈ D <-> x ∈ D.
Proof.
  intros Ha Hb. unfold swap_id. destruct (Z.eqb_spec x a) as [->|]; [by split|]. by destruct (Z.eqb_spec x b) as [->|].
Qed.
#[export] Instance swap_id_injective a b : Inj (=) (=) (swap_id a b).
Proof. intros x y. apply swap_id_inj. Qed.

(** ** Bijections of a finite set of ids *)

Record order_on (D : gset Z) (m : gmap Z Z) : Prop := OrderOn {
  on_dom : forall x, is_Some (m !! x) <-> x ∈ D;
  on_range : forall x v, m !! x = Some v -> v ∈ D;
  on_inj : forall x y v, m !! x = Some v -> m !! y = Some v -> x = y;
  on_sur : forall v, v ∈ D -> exists x, m !! x = Some v }.

Lemma order_identity (D : gset Z) (m : gmap Z Z) :
  (forall x, m !! x = if decide (x ∈ D) then Some x else None) -> order_on D m.
Proof.
  intros E. split.
  - intros x. rewrite E. case_decide; split; try done; by intros [].
  - intros x v. rewrite E. case_decide; [by intros [= <-]|done].
  - intros x y v. rewrite !E. repeat case_decide; congruence.
  - intros v Hv. exists v. rewrite E. by rewrite decide_True.
Qed.

Lemma order_exchange (D : gset Z) (m m' : gmap Z Z) a b : order_on D m -> a ∈ D -> b ∈ D ->
  (forall x, m' !! x = m !! swap_id a b x) -> order_on D m'.
Proof.
  intros [Dm R I Su] Ha Hb E. split.
  - intros x. rewrite E, Dm. by apply swap_id_in.
  - intros x v. rewrite E. apply R.
  - intros x y v. rewrite !E. intros X Y. by eapply swap_id_inj, I.
  - intros v [x Hx]%Su. exists (swap_id a b x). by rewrite E, swap_id_twice.
Qed.

Lemma insert_exchange (m : gmap Z Z) a b va vb x : m !! a = Some va -> m !! b = Some vb ->
  <[b := va]> (<[a := vb]> m) !! x = m !! swap_id a b x.
Proof.
  intros Ea Eb. rewrite !lookup_insert. unfold swap_id.
  destruct (decide (b = x)) as [<-|Hb].
  - destruct (Z.eqb_spec b a) as [->|]; [congruence|]. by rewrite Z.eqb_refl.
  - destruct (decide (a = x)) as [<-|Ha]; [by rewrite Z.eqb_refl|].
    rewrite (proj2 (Z.eqb_neq x a)), (proj2 (Z.eqb_neq x b)) by congruence. done.
Qed.

(** ** The loops *)

Lemma for_loop_ext {S} n i (f g : Z -> S -> res S) s : (forall i s, f i s = g i s) -> for_loop n i f s = for_loop n i g s.
Proof. intros E. revert i s. induction n as [|n IH]; intros i s; [done|]. cbn [for_loop]. rewrite E. by destruct (g i s); cbn [mbind res_bind]. Qed.

Section Loops.
Context {A : Type} (key : A -> Z).
Implicit Types (l : alist A) (xs : list A) (t : dict_ul_ul).

Lemma identity_order_ok l xs seed : al_rep l xs ->
  exists t, identity_order key l seed = Ok t /\ wf fnv_hash_ul t /\
    forall x, contents t !! x = if decide (x ∈ key <$> xs) then Some x else None.
Proof.
  intros Al. unfold identity_order.
  assert (Eq : for_loop (Z.to_nat (array_list_size l)) 0 (fun i order =>
      k ← array_list_get l i; v ← array_list_get l i; dict_insert order (key k) (key v)) (d_ul_ul_create seed) =
    for_each (fun x t => dict_insert t (key x) (key x)) xs (d_ul_ul_create seed)).
  { rewrite <- (for_array l xs _ _ Al). apply for_loop_ext. intros i t. by destruct (array_list_get l i). }
  rewrite Eq. set (I := fun (ys : list A) (t : dict_ul_ul) => wf fnv_hash_ul t /\
    forall x, contents t !! x = if decide (x ∈ key <$> ys) then Some x else None).
  destruct (for_each_inv I (fun x t => dict_insert t (key x) (key x)) xs (d_ul_ul_create seed)) as (t & E & W & C).
  - destruct (dict_create_ok seed) as [W C]. split; [done|]. intros x. by rewrite C, lookup_empty.
  - intros ys a zs t _ [W C]. destruct (dict_insert_ok t (key a) (key a) W) as (t' & -> & W' & C').
    exists t'. split; [done|]. split; [done|]. intros x. rewrite C', lookup_insert, C, fmap_app.
    destruct (decide (key a = x)) as [<-|Hx].
    + rewrite decide_True; [done|]. apply elem_of_app. right. set_solver.
    + apply decide_ext. rewrite elem_of_app. set_solver.
  - by exists t.
Qed.

(** A round exchanges the values of two ids. *)
Lemma exchange_ok l xs (rnd : Z -> Z) (D : gset Z) t (i : nat) : al_rep l xs -> wf fnv_hash_ul t ->
  order_on D (contents t) -> (forall x, x ∈ key <$> xs -> x ∈ D) -> (i < length xs)%nat ->
  exists t', exchange key l rnd (Z.of_nat (length xs)) (Z.of_nat i) t = Ok t' /\ wf fnv_hash_ul t' /\
    order_on D (contents t') /\ size (contents t') = size (contents t).
Proof.
  intros Al W O Sub Hi. unfold exchange. rewrite (proj2 (Z.eqb_neq _ _)) by lia. cbn [mbind res_bind].
  set (j := rnd (Z.of_nat i) mod Z.of_nat (length xs)).
  assert (Hj : 0 <= j < Z.of_nat (length xs)) by (apply Z.mod_pos_bound; lia).
  assert (Get : forall k, 0 <= k < Z.of_nat (length xs) ->
    exists a va, array_list_get l k = Ok a /\ key a ∈ D /\ contents t !! key a = Some va).
  { intros k Hk. rewrite <- (Z2Nat.id k) by lia. destruct (lookup_lt_is_Some_2 xs (Z.to_nat k)) as [a Ea]; [lia|].
    assert (Ha : key a ∈ D) by (apply Sub; apply list_elem_of_fmap; exists a; split; [done|by eapply list_elem_of_lookup_2]).
    destruct (proj2 (on_dom _ _ O (key a)) Ha) as [va Eva]. exists a, va. split_and!; [|done|done].
    by rewrite (array_get_ok l xs _ Al), Ea. }
  destruct (Get j Hj) as (b & vb & -> & Hb & Eb). destruct (Get (Z.of_nat i) ltac:(lia)) as (a & va & -> & Ha & Ea).
  cbn [mbind res_bind]. rewrite !dict_get_ok, Ea, Eb by done. cbn [or_exit mbind res_bind].
  destruct (dict_insert_ok t (key a) vb W) as (t1 & -> & W1 & C1). cbn [mbind res_bind].
  destruct (dict_insert_ok t1 (key b) va W1) as (t2 & -> & W2 & C2). exists t2. split; [done|]. split; [done|].
  assert (Ex : forall x, contents t2 !! x = contents t !! swap_id (key a) (key b) x).
  { intros x. rewrite C2, C1. by apply insert_exchange. }
  assert (O' : order_on D (contents t2)) by exact (order_exchange D _ _ _ _ O Ha Hb Ex).
  split; [done|]. rewrite <- !(size_dom (D := gset Z)). f_equal. apply set_eq. intros x.
  by rewrite !elem_of_dom, (on_dom _ _ O), (on_dom _ _ O').
Qed.

Lemma exchange_loop_ok l xs (rnd : Z -> Z) (D : gset Z) : al_rep l xs -> (forall x, x ∈ key <$> xs -> x ∈ D) ->
  size D = length xs -> forall fuel (i : nat) t,
  wf fnv_hash_ul t -> order_on D (contents t) -> (i <= length xs)%nat -> (length xs - i < fuel)%nat ->
  exists t', exchange_loop fuel key l rnd (Z.of_nat (length xs)) (Z.of_nat i) t = Ok t' /\ wf fnv_hash_ul t' /\
    order_on D (contents t').
Proof.
  intros Al Sub Sz fuel. induction fuel as [|fuel IH]; intros i t W O Hi Hf; [lia|]. cbn [exchange_loop].
  assert (Sc : size (contents t) = length xs).
  { rewrite <- Sz, <- (size_dom (D := gset Z)). f_equal. apply set_eq. intros x. by rewrite elem_of_dom, (on_dom _ _ O). }
  rewrite (table_size t W), Sc. destruct (Z.ltb_spec (Z.of_nat i) (Z.of_nat (length xs))); [|by exists t].
  destruct (exchange_ok l xs rnd D t i Al W O Sub ltac:(lia)) as (t1 & -> & W1 & O1 & _). cbn [mbind res_bind].
  replace (Z.of_nat i + 1) with (Z.of_nat (S i)) by lia. apply IH; [done|done|lia|lia].
Qed.
End Loops.

(** ** The functions *)

Section RandomOrders.
Context `{RecordPages}.
Implicit Types (hf : heap_file) (G : graph).

Lemma rels_serves hf G log : serves hf G ->
  exists l rs hf', get_relationships hf log = Ok (l, hf') /\ al_rep l rs /\ serves hf' G /\
    (r_id <$> rs) ≡ₚ (map_to_list (g_edges G)).*1 /\ Z.of_nat (length rs) = n_rels hf'.
Proof.
  intros GF. pose proof GF as [(g & S & R) Nn Nr].
  destruct (get_rels_listing hf g log S) as (l & rs & hf' & E & [A _] & L & S' & Sh).
  pose proof (rels_keyed _ _ S) as K.
  pose proof (listing_all r_id _ (fun y a Ey => proj1 (K y a Ey)) _ _ L (fun y a Ey => proj2 (K y a Ey))) as Pm.
  assert (Sz : length rs = size (g_edges G)).
  { by rewrite Pm, length_fmap, <- (rg_edges _ _ R), map_size_fmap, length_map_to_list. }
  exists l, rs, hf'. split_and!; [done|done|by eapply serves_keep| |].
  - rewrite Pm, <- (rg_edges _ _ R), map_to_list_fmap, <- !list_fmap_compose.
    match goal with |- ?l1 ≡ₚ ?l2 => cut (l1 = l2); [by intros ->|] end. apply list_fmap_ext. intros i [y a] Hi. cbn.
    apply list_elem_of_lookup_2, elem_of_map_to_list in Hi. by apply K.
  - by rewrite (sh_rels _ _ Sh), Nr, Sz.
Qed.

Lemma keys_set {A} (m : gmap Z A) (ids : list Z) : ids ≡ₚ (map_to_list m).*1 ->
  (list_to_set ids : gset Z) = dom m /\ length ids = size (dom m : gset Z).
Proof.
  intros P. split.
  - apply set_eq. intros x. rewrite elem_of_list_to_set, P, elem_of_dom, list_elem_of_fmap. split.
    + intros ([k v] & -> & Hk%elem_of_map_to_list). by exists v.
    + intros [v Hv]. exists (x, v). split; [done|]. by apply elem_of_map_to_list.
  - by rewrite P, length_fmap, size_dom, length_map_to_list.
Qed.

(** The orders are permutations of the ids of the stored records: the identity, and after
    the random exchanges still a bijection, for every sequence of values that [rand()] returns;
    the graph in the heap file stays as it is. *)
Lemma random_orders_ok hf G (seed : Z) (rnd : Z -> Z) (GF : graph_file hf G) :
  (exists t hf', identity_node_order hf seed = Ok (t, hf') /\ graph_file hf' G /\ wf fnv_hash_ul t /\
     forall x, contents t !! x = if decide (x ∈ dom (g_labels G)) then Some x else None) /\
  (exists t hf', random_node_order hf seed rnd = Ok (t, hf') /\ graph_file hf' G /\ wf fnv_hash_ul t /\
     order_on (dom (g_labels G)) (contents t)) /\
  (exists t hf', random_relationship_order hf seed rnd = Ok (t, hf') /\ graph_file hf' G /\ wf fnv_hash_ul t /\
     order_on (dom (g_edges G)) (contents t)).
Proof.
  destruct (nodes_serves hf G false GF) as (l & ns & hf1 & E1 & Al & GF1 & P & _ & _).
  destruct (keys_set _ _ P) as [Es Ls].
  destruct (identity_order_ok n_id l ns seed Al) as (t & E2 & W & C).
  assert (Cd : forall x, contents t !! x = if decide (x ∈ dom (g_labels G)) then Some x else None).
  { intros x. rewrite C. apply decide_ext. by rewrite <- Es, elem_of_list_to_set. }
  assert (Id : identity_node_order hf seed = Ok (t, hf1)).
  { unfold identity_node_order. rewrite E1. cbn [mbind res_bind]. by rewrite E2. }
  split; [by exists t, hf1|]. split.
  - destruct (nodes_serves hf1 G false GF1) as (l' & ns' & hf2 & E3 & Al' & GF2 & P' & Nn & _).
    destruct (keys_set _ _ P') as [Es' Ls'].
    destruct (exchange_loop_ok n_id l' ns' rnd (dom (g_labels G)) Al') with (fuel := S (length ns')) (i := 0%nat) (t := t)
      as (t' & E4 & W' & O'); [|by rewrite <- Ls', length_fmap|done|by apply order_identity|lia|lia|].
    { intros x Hx. by rewrite <- Es', elem_of_list_to_set. }
    exists t', hf2. split; [|done]. unfold random_node_order. rewrite Id. cbn [mbind res_bind]. rewrite E3. cbn [mbind res_bind].
    rewrite <- Nn. unfold array_list_size. rewrite (al_len_ok _ _ Al'), Nat2Z.id.
    change 0 with (Z.of_nat 0). by rewrite E4.
  - destruct (rels_serves hf G false GF) as (l2 & rs & hf2 & E3 & Al2 & GF2 & P2 & _).
    destruct (keys_set _ _ P2) as [Es2 Ls2].
    destruct (identity_order_ok r_id l2 rs seed Al2) as (t2 & E4 & W2 & C2).
    destruct (rels_serves hf2 G false GF2) as (l' & rs' & hf3 & E5 & Al' & GF3 & P' & Nr).
    destruct (keys_set _ _ P') as [Es' Ls'].
    destruct (exchange_loop_ok r_id l' rs' rnd (dom (g_edges G)) Al') with (fuel := S (length rs')) (i := 0%nat) (t := t2)
      as (t' & E6 & W' & O'); [|by rewrite <- Ls', length_fmap|done| |lia|lia|].
    { intros x Hx. by rewrite <- Es', elem_of_list_to_set. }
    { apply order_identity. intros x. rewrite C2. apply decide_ext. by rewrite <- Es2, elem_of_list_to_set. }
    exists t', hf3. split; [|done]. unfold random_relationship_order, identity_relationship_order. rewrite E3. cbn [mbind res_bind].
    rewrite E4. cbn [mbind res_bind]. rewrite E5. cbn [mbind res_bind].
    rewrite <- Nr. unfold array_list_size. rewrite (al_len_ok _ _ Al'), Nat2Z.id.
    change 0 with (Z.of_nat 0). by rewrite E6.
Qed.
End RandomOrders.
