(* ===== verification/Renaming.v ===== *)
(** Renaming the nodes or the relationships of a graph, and what that means for the records
    of the heap file that stands for it.

    [nodes_renamed f G G'] says that [G'] is [G] with every node [n] called [f n], and
    [rels_renamed f G G'] that it is [G] with every relationship [x] called [f x].  For a
    transposition, [swap_nodes_represents] and [swap_rels_represents] give the records that
    stand for the renamed graph: the record of [x] lies at [f x], and every reference to [x]
    is one to [f x]. *)

From S2P Require Import Prelude Constants DiskFile PhysicalDatabase Page PageCache PageCacheInv HeaderPage Records HeapFile HeapFileInv HeapRecords Chains Orders RandomOrders.
From Stdlib Require Import ZArith Lia.
From stdpp Require Import base list option fin_maps gmap.

#[local] Open Scope Z_scope.

(** ** Renamed graphs *)

Definition rename_ends (f : Z -> Z) (e : edge) : edge :=
  Edge (f (e_source e)) (f (e_target e)) (e_weight e) (e_label e).

Record nodes_renamed (f : Z -> Z) (G G' : graph) : Prop := NodesRenamed {
  nr_labels : forall n, g_labels G' !! f n = g_labels G !! n;
  nr_edges : forall x, g_edges G' !! x = rename_ends f <$> g_edges G !! x;
  nr_inc : forall n, is_Some (g_labels G !! n) -> g_inc G' (f n) = g_inc G n }.

Record rels_renamed (f : Z -> Z) (G G' : graph) : Prop := RelsRenamed {
  rr_labels : forall n, g_labels G' !! n = g_labels G !! n;
  rr_edges : forall x, g_edges G' !! f x = g_edges G !! x;
  rr_inc : forall n, is_Some (g_labels G !! n) -> g_inc G' n = f <$> g_inc G n }.

(** Both kinds at once, for the code that treats them alike. *)
Definition renamed (node : bool) : (Z -> Z) -> graph -> graph -> Prop :=
  if node then nodes_renamed else rels_renamed.
(** The ids of the records of a kind. *)
Definition ids_of (node : bool) (G : graph) : gset Z := if node then dom (g_labels G) else dom (g_edges G).

Lemma nodes_renamed_id G : nodes_renamed (fun n => n) G G.
Proof. split; [done| |done]. intros x. destruct (g_edges G !! x) as [[? ? ? ?]|]; done. Qed.
Lemma rels_renamed_id G : rels_renamed (fun x => x) G G.
Proof. split; [done|done|]. intros n _. by rewrite list_fmap_id. Qed.

Lemma nodes_renamed_trans f f' G G1 G2 :
  nodes_renamed f G G1 -> nodes_renamed f' G1 G2 -> nodes_renamed (fun n => f' (f n)) G G2.
Proof.
  intros [L E I] [L' E' I']. split.
  - intros n. by rewrite L', L.
  - intros x. rewrite E', E. by destruct (g_edges G !! x).
  - intros n Hn. rewrite I' by (by rewrite L). by apply I.
Qed.
Lemma rels_renamed_trans f f' G G1 G2 :
  rels_renamed f G G1 -> rels_renamed f' G1 G2 -> rels_renamed (fun x => f' (f x)) G G2.
Proof.
  intros [L E I] [L' E' I']. split.
  - intros n. by rewrite L', L.
  - intros x. by rewrite E', E.
  - intros n Hn. rewrite I' by (by rewrite L). rewrite I by done. by rewrite <- list_fmap_compose.
Qed.

Lemma renamed_id node G : renamed node (fun x => x) G G.
Proof. destruct node; [apply nodes_renamed_id|apply rels_renamed_id]. Qed.
Lemma renamed_trans node f f' G G1 G2 :
  renamed node f G G1 -> renamed node f' G1 G2 -> renamed node (fun x => f' (f x)) G G2.
Proof. destruct node; [apply nodes_renamed_trans|apply rels_renamed_trans]. Qed.

(** The ids in use are renamed. *)
Lemma renamed_ids node f G G' : renamed node f G G' -> (forall x, x ∈ ids_of node G <-> f x ∈ ids_of node G').
Proof.
  intros R x. destruct node; cbn [ids_of]; rewrite !elem_of_dom; [by rewrite (nr_labels _ _ _ R)|by rewrite (rr_edges _ _ _ R)].
Qed.

(** ** Relabelled records *)

Section Swap.
Context (a b : Z).
Implicit Types (m : gmap Z relationship_t) (r : relationship_t) (n x y : Z) (l : list Z) (g : store) (G : graph).
Let t := swap_id a b.

Lemma links_fmap (f : Z -> Z) l e : links (f <$> l) (f e) = prod_map f f <$> links l e.
Proof. induction l as [|x l IH]; [done|]. cbn. f_equal; [|exact IH]. by destruct l. Qed.
Lemma cycle_fmap (f : Z -> Z) l : cycle (f <$> l) = prod_map f f <$> cycle l.
Proof. destruct l as [|x l]; [done|]. apply (links_fmap f (x :: l) x). Qed.

(** An equation of lookups, turned around. *)
Lemma lookup_swapped {A B} (h : Z -> A -> B) (m : gmap Z A) (m' : gmap Z B) x (v : B) :
  (forall x, m' !! t x = h x <$> m !! x) -> m' !! x = Some v -> exists w, m !! t x = Some w /\ v = h (t x) w.
Proof.
  intros E Ex. specialize (E (t x)). unfold t in E. rewrite swap_id_twice, Ex in E.
  symmetry in E. apply fmap_Some in E as (w & Ew & ->). by exists w.
Qed.

(** *** Nodes *)

Record nodes_swapped g g' : Prop := NodesSwapped {
  ns_rels : forall x, st_rels g' !! x = swap_ends a b <$> st_rels g !! x;
  ns_nodes : forall n, st_nodes g' !! t n = (fun k => set_node_id k (t n)) <$> st_nodes g !! n }.

Lemma touches_swap_ends n r : touches (t n) (swap_ends a b r) <-> touches n r.
Proof. unfold touches. cbn. fold t. split; (intros [E|E]; [left|right]);
    first [by rewrite E|exact (swap_id_inj a b _ _ E)]. Qed.
Lemma next_swap_ends n y r : next_is (t n) y (swap_ends a b r) <-> next_is n y r.
Proof.
  unfold next_is. cbn. fold t.
  split; intros [A B]; (split; intros E; [apply A|apply B]);
    first [by rewrite E|exact (swap_id_inj a b _ _ E)].
Qed.
Lemma prev_swap_ends n y r : prev_is (t n) y (swap_ends a b r) <-> prev_is n y r.
Proof.
  unfold prev_is. cbn. fold t.
  split; intros [A B]; (split; intros E; [apply A|apply B]);
    first [by rewrite E|exact (swap_id_inj a b _ _ E)].
Qed.

Lemma chain_swap_ends m m' n l : (forall x, m' !! x = swap_ends a b <$> m !! x) -> chain m n l -> chain m' (t n) l.
Proof.
  intros E [Nd Me Ne Pr]. split; [done|..].
  - intros x. rewrite Me, E. split.
    + intros (r & -> & T). exists (swap_ends a b r). split; [done|]. by apply touches_swap_ends.
    + intros (r' & Er & T). apply fmap_Some in Er as (r & Er & ->). exists r. split; [done|]. by apply touches_swap_ends.
  - intros x y r' C Er. rewrite E in Er. apply fmap_Some in Er as (r & Er & ->). apply next_swap_ends. by apply (Ne x y r).
  - intros x y r' C Er. rewrite E in Er. apply fmap_Some in Er as (r & Er & ->). apply prev_swap_ends. by apply (Pr x y r).
Qed.

Lemma swap_nodes_represents g g' G : represents g G -> nodes_swapped g g' ->
  exists G', represents g' G' /\ nodes_renamed t G G'.
Proof.
  intros R [Er En]. exists (Graph (n_label <$> st_nodes g') (edge_of <$> st_rels g') (fun n => g_inc G (t n))).
  assert (L : forall n, (n_label <$> st_nodes g') !! t n = g_labels G !! n).
  { intros n. rewrite lookup_fmap, En, (graph_node g G n R). by destruct (st_nodes g !! n). }
  assert (Ee : forall x, (edge_of <$> st_rels g') !! x = rename_ends t <$> g_edges G !! x).
  { intros x. rewrite lookup_fmap, Er, (graph_edge g G x R). by destruct (st_rels g !! x). }
  split; split; cbn [g_labels g_edges g_inc]; [done|done|..|exact L|exact Ee|].
  - intros n node En'. destruct (lookup_swapped _ _ _ _ _ En En') as (k & Ek & ->).
    destruct (rg_chain _ _ R _ k Ek) as [C F]. split; [|exact F].
    replace n with (t (t n)) at 1 by apply swap_id_twice. by apply (chain_swap_ends (st_rels g)).
  - intros x e. rewrite Ee. intros (e0 & E0 & ->)%fmap_Some. destruct (rg_ends _ _ R x e0 E0) as (A & B & W).
    cbn. by rewrite !L.
  - by rewrite Er, (rg_uninit _ _ R).
  - intros n _. unfold t. by rewrite swap_id_twice.
Qed.

(** *** Relationships *)

Record rels_swapped g g' : Prop := RelsSwapped {
  rs_rels : forall x, st_rels g' !! t x = (fun r => set_rel_id (swap_links a b r) (t x)) <$> st_rels g !! x;
  rs_nodes : forall n, st_nodes g' !! n = (fun k => set_first k (t (first_relationship k))) <$> st_nodes g !! n }.

Lemma next_swap_links n y z r : next_is n y r -> next_is n (t y) (set_rel_id (swap_links a b r) z).
Proof. intros [A B]. split; cbn; intros E; [by rewrite A|by rewrite B]. Qed.
Lemma prev_swap_links n y z r : prev_is n y r -> prev_is n (t y) (set_rel_id (swap_links a b r) z).
Proof. intros [A B]. split; cbn; intros E; [by rewrite A|by rewrite B]. Qed.

Lemma chain_swap_links m m' n l :
  (forall x, m' !! t x = (fun r => set_rel_id (swap_links a b r) (t x)) <$> m !! x) -> chain m n l -> chain m' n (t <$> l).
Proof.
  intros E [Nd Me Ne Pr]. split.
  - apply NoDup_fmap_2; [|done]. unfold t. apply _.
  - intros x. rewrite list_elem_of_fmap. split.
    + intros (y & -> & Hy). apply Me in Hy as (r & Er & T). rewrite E, Er. eexists. split; [reflexivity|]. exact T.
    + intros (r' & Er & T). destruct (lookup_swapped _ _ _ _ _ E Er) as (r & Er' & ->). exists (t x).
      split; [unfold t; by rewrite swap_id_twice|]. apply Me. by exists r.
  - intros x y r'. rewrite cycle_fmap, list_elem_of_fmap. intros ([x0 y0] & [= -> ->] & C). rewrite E.
    intros (r & Er & ->)%fmap_Some. apply next_swap_links. by apply (Ne x0 y0 r).
  - intros x y r'. rewrite cycle_fmap, list_elem_of_fmap. intros ([x0 y0] & [= -> ->] & C). rewrite E.
    intros (r & Er & ->)%fmap_Some. apply prev_swap_links. by apply (Pr x0 y0 r).
Qed.

Lemma swap_rels_represents g g' G : a <> UNINITIALIZED_LONG -> b <> UNINITIALIZED_LONG ->
  represents g G -> rels_swapped g g' -> exists G', represents g' G' /\ rels_renamed t G G'.
Proof.
  intros Ua Ub R [Er En]. exists (Graph (n_label <$> st_nodes g') (edge_of <$> st_rels g') (fun n => t <$> g_inc G n)).
  assert (Tu : t UNINITIALIZED_LONG = UNINITIALIZED_LONG) by (apply swap_id_other; congruence).
  assert (L : forall n, (n_label <$> st_nodes g') !! n = g_labels G !! n).
  { intros n. rewrite lookup_fmap, En, (graph_node g G n R). by destruct (st_nodes g !! n). }
  assert (Ee : forall x, (edge_of <$> st_rels g') !! t x = g_edges G !! x).
  { intros x. rewrite lookup_fmap, Er, (graph_edge g G x R). by destruct (st_rels g !! x). }
  split; split; cbn [g_labels g_edges g_inc]; [done|done|..|exact L|exact Ee|done].
  - intros n node. rewrite En. intros (k & Ek & ->)%fmap_Some.
    destruct (rg_chain _ _ R n k Ek) as [C F]. split; [by apply (chain_swap_links (st_rels g))|].
    cbn. rewrite F. by destruct (g_inc G n).
  - intros x e Ex. rewrite <- (swap_id_twice a b x) in Ex. fold t in Ex. rewrite Ee in Ex.
    rewrite !L. by apply (rg_ends _ _ R (t x)).
  - rewrite <- Tu, Er. by rewrite (rg_uninit _ _ R).
Qed.
End Swap.
