(* ===== verification/RecordKinds.v ===== *)
(** What the nodes and the relationships of a heap file have in common: the class
    [RecordKind] with the operations on the records of one kind, and [RecordKindLaws] with
    what [HeapStore] and [HeapFileInv] prove about them.

    The code that exchanges two records is the same for both kinds, so the proof that it does
    is against the class. *)

From S2P Require Import Prelude Constants ArrayList DiskFile PhysicalDatabase Page PageCache PageCacheInv HeaderPage Records HeapFile HeapFileInv HeapRecords HeapStore Walks Orders RandomOrders.
From Stdlib Require Import ZArith Lia.
From stdpp Require Import base list option fin_maps gmap.

#[local] Open Scope Z_scope.

Section Kinds.
Context `{RecordPages}.

Class RecordKind (A : Type) := {
  rk_node : bool;
  rk_all : store -> gmap Z A;
  rk_set : store -> gmap Z A -> store;
  rk_id : A -> Z;
  rk_set_id : A -> Z -> A;
  rk_good : A -> Prop;
  rk_read : heap_file -> Z -> bool -> res (A * heap_file);
  rk_update : heap_file -> A -> bool -> res heap_file }.

Class RecordKindLaws (A : Type) `{RecordKind A} : Prop := {
  rk_all_set g m : rk_all (rk_set g m) = m;
  rk_set_set g m m' : rk_set (rk_set g m) m' = rk_set g m';
  rk_set_all g : rk_set g (rk_all g) = g;
  rk_has g x : has g rk_node x = bool_decide (is_Some (rk_all g !! x));
  rk_marked g pc x (b : bool) : exists o : option A, (is_Some o <-> b = true) /\
    put_marked g pc rk_node x b = rk_set g (partial_alter (fun _ => o) x (rk_all g));
  rk_stored hf g x r : holds_store hf g -> rk_all g !! x = Some r -> rk_id r = x;
  rk_id_set r x : rk_id (rk_set_id r x) = x;
  rk_set_same r : rk_set_id r (rk_id r) = r;
  rk_good_set r x : rk_good r -> rk_good (rk_set_id r x);
  rk_reads hf g x r log : holds_store hf g -> rk_all g !! x = Some r ->
    exists hf', rk_read hf x log = Ok (r, hf') /\ holds_store hf' g /\ same_shape hf hf';
  rk_updated hf g r log : holds_store hf g -> is_Some (rk_all g !! rk_id r) -> rk_good r ->
    exists hf', rk_update hf r log = Ok hf' /\ holds_store hf' (rk_set g (<[rk_id r := r]> (rk_all g))) /\
      same_shape hf hf' }.

#[export] Instance node_kind : RecordKind node_t := {|
  rk_node := true; rk_all := st_nodes; rk_set g m := Store m (st_rels g);
  rk_id := n_id; rk_set_id := set_node_id; rk_good := node_range;
  rk_read := read_node; rk_update := update_node |}.

#[export] Instance rel_kind : RecordKind relationship_t := {|
  rk_node := false; rk_all := st_rels; rk_set g m := Store (st_nodes g) m;
  rk_id := r_id; rk_set_id := set_rel_id; rk_good r := rel_range r /\ writable r;
  rk_read := read_relationship; rk_update := update_relationship |}.

#[export] Instance node_kind_laws : RecordKindLaws node_t.
Proof.
  split; try done.
  - by intros [].
  - intros g pc x []; cbn; eexists; (split; [|reflexivity]); split; first [done|by intros []|by intros; eexists].
  - intros hf g x r S E. by destruct (stored_node hf g x r S E).
  - by intros [].
  - intros hf g x r log. apply read_node_ok.
  - intros hf g r log S Hs R. cbn in Hs. apply update_node_ok; [done| |done]. unfold has. by apply bool_decide_true.
Qed.

#[export] Instance rel_kind_laws : RecordKindLaws relationship_t.
Proof.
  split; try done.
  - by intros [].
  - intros g pc x []; cbn; eexists; (split; [|reflexivity]); split; first [done|by intros []|by intros; eexists].
  - intros hf g x r S E. by destruct (stored_rel hf g x r S E).
  - by intros [].
  - intros hf g x r log. apply read_rel_ok.
  - intros hf g r log S Hs [R W]. cbn in Hs. apply update_rel_ok; [done| |done|done]. unfold has. by apply bool_decide_true.
Qed.

(** ** Exchanging the records of two ids *)

Section Exchange.
Context {A : Type} `{RecordKindLaws A}.
Implicit Types (hf : heap_file) (g : store) (log : bool) (a b x : Z) (r : A).

(** The map of the records of the kind, and nothing else, becomes [m]. *)
Definition holds_map hf g (m : gmap Z A) : Prop := holds_store hf (rk_set g m).

(** Reading a record if there is one. *)
Lemma rk_read_if hf g x log : holds_store hf g ->
  exists hf', read_if (bool_decide (is_Some (rk_all g !! x))) (fun hf => rk_read hf x log) hf = Ok (rk_all g !! x, hf') /\
    holds_store hf' g /\ same_shape hf hf'.
Proof.
  intros S. unfold read_if. case_bool_decide as D.
  - destruct D as [v E]. destruct (rk_reads hf g x v log S E) as (hf' & -> & S' & Sh). rewrite E. by exists hf'.
  - apply eq_None_not_Some in D. rewrite D. by exists hf.
Qed.

(** A loop that reads, changes and writes the records of a list of ids, each once. *)
Lemma rk_modify_all hf g m (ids : list Z) (change : A -> A) log : holds_map hf g m -> NoDup ids ->
  (forall x, x ∈ ids -> is_Some (m !! x)) -> (forall x v, m !! x = Some v -> rk_good (change v)) ->
  (forall v, rk_id (change v) = rk_id v) ->
  exists hf' m', for_each (fun x hf => '(v, hf) ← rk_read hf x log; rk_update hf (change v) log) ids hf = Ok hf' /\
    same_shape hf hf' /\ holds_map hf' g m' /\
    forall x, m' !! x = if decide (x ∈ ids) then change <$> m !! x else m !! x.
Proof.
  intros S Nd Hs Hg Hid.
  set (I := fun (ys : list Z) hf' => exists m', same_shape hf hf' /\ holds_map hf' g m' /\
    forall x, m' !! x = if decide (x ∈ ys) then change <$> m !! x else m !! x).
  destruct (for_each_inv I (fun x hf => '(v, hf) ← rk_read hf x log; rk_update hf (change v) log) ids hf) as (hf' & E & m' & R).
  - exists m. split_and!; [done|done|]. intros x. by rewrite decide_False by apply not_elem_of_nil.
  - intros ys x zs hf0 Eq (m0 & Sh0 & S0 & M0). subst ids. apply NoDup_app in Nd as (_ & Nd & _).
    destruct (Hs x ltac:(set_solver)) as [v Ev].
    assert (E0 : m0 !! x = Some v) by (rewrite M0, decide_False; [done|intros Hx; apply (Nd x Hx); set_solver]).
    unfold holds_map in S0.
    destruct (rk_reads hf0 _ x v log S0) as (hf1 & E1 & S1 & Sh1); [by rewrite rk_all_set|]. rewrite E1. cbn [mbind res_bind].
    pose proof (rk_stored hf1 _ x v S1) as Ei. rewrite rk_all_set in Ei. specialize (Ei E0).
    destruct (rk_updated hf1 _ (change v) log S1) as (hf2 & E2 & S2 & Sh2);
      [rewrite rk_all_set, Hid, Ei, E0; by eexists|by eapply Hg|].
    exists hf2. split; [exact E2|]. exists (<[x := change v]> m0). rewrite rk_all_set, rk_set_set, Hid, Ei in S2.
    split_and!; [by rewrite Sh0, Sh1|done|]. intros y. rewrite lookup_insert, M0. destruct (decide (x = y)) as [<-|Hy].
    + rewrite decide_True by set_solver. by rewrite Ev.
    + apply decide_ext. set_solver.
  - by exists hf', m'.
Qed.

Lemma rk_update_if hf g m (o : option A) x log : holds_map hf g m -> (is_Some o -> is_Some (m !! x)) ->
  (forall r, o = Some r -> rk_good r) ->
  exists hf' m', update_if o (fun hf r => rk_update hf (rk_set_id r x) log) hf = Ok hf' /\ same_shape hf hf' /\
    holds_map hf' g m' /\
    forall y, m' !! y = if decide (y = x /\ is_Some o) then flip rk_set_id x <$> o else m !! y.
Proof.
  unfold holds_map. intros S Hs Hg. destruct o as [r|]; cbn [update_if].
  - destruct (rk_updated hf _ (rk_set_id r x) log S) as (hf' & E & S' & Sh);
      [rewrite rk_id_set, rk_all_set; apply Hs; by eexists|by apply rk_good_set, Hg|].
    exists hf', (<[x := rk_set_id r x]> m). rewrite rk_id_set, rk_all_set, rk_set_set in S'. split_and!; [done..|].
    intros y. rewrite lookup_insert. destruct (decide (x = y)) as [->|Hne].
    + by rewrite decide_True by (split; [done|by eexists]).
    + rewrite decide_False by (intros [? _]; congruence). done.
  - exists hf, m. split_and!; [done..|]. intros y. rewrite decide_False by (intros [_ []]; congruence). done.
Qed.

Lemma rk_mark hf g m x (b : bool) log : holds_map hf g m -> in_file (hf_cache hf) rk_node x ->
  exists hf' m', mark_slots hf rk_node x (if b then UCHAR_MAX else 0) log = Ok hf' /\ same_shape hf hf' /\
    holds_map hf' g m' /\ (is_Some (m' !! x) <-> b = true) /\ forall y, y <> x -> m' !! y = m !! y.
Proof.
  unfold holds_map. intros S I. destruct (mark_slots_ok hf _ rk_node x b log S I) as (hf' & E & S' & Sh).
  destruct (rk_marked (rk_set g m) (hf_cache hf) x b) as (o & Ho & Eo). rewrite Eo, rk_all_set, rk_set_set in S'.
  eexists hf', _. split; [done|]. split; [done|]. split; [exact S'|]. split.
  - by rewrite lookup_partial_alter_eq.
  - intros y Hy. by apply lookup_partial_alter_ne.
Qed.

(** The header bits and the records of two ids, of which at least one is in use. *)
Lemma rk_exchange hf g m a b log :
  holds_map hf g m -> in_file (hf_cache hf) rk_node a -> in_file (hf_cache hf) rk_node b -> a <> b ->
  (is_Some (m !! a) \/ is_Some (m !! b)) -> (forall x r, m !! x = Some r -> rk_good r) ->
  exists hf' m',
    (hf ← exchange_slots hf rk_node a b (bool_decide (is_Some (m !! a))) (bool_decide (is_Some (m !! b))) log;
     hf ← update_if (m !! a) (fun hf r => rk_update hf (rk_set_id r b) log) hf;
     update_if (m !! b) (fun hf r => rk_update hf (rk_set_id r a) log) hf) = Ok hf' /\ same_shape hf hf' /\
    holds_map hf' g m' /\
    forall x, m' !! swap_id a b x = flip rk_set_id (swap_id a b x) <$> m !! x.
Proof.
  intros S Ia Ib Hab Hs Hg.
  assert (X : exists hf1 m1, exchange_slots hf rk_node a b (bool_decide (is_Some (m !! a))) (bool_decide (is_Some (m !! b))) log = Ok hf1 /\
    same_shape hf hf1 /\ holds_map hf1 g m1 /\ (is_Some (m1 !! a) <-> is_Some (m !! b)) /\ (is_Some (m1 !! b) <-> is_Some (m !! a)) /\
    forall y, y <> a -> y <> b -> m1 !! y = m !! y).
  { unfold exchange_slots. set (ca := bool_decide (is_Some (m !! a))). set (cb := bool_decide (is_Some (m !! b))).
    assert (Ea : is_Some (m !! a) <-> ca = true) by (unfold ca; by rewrite bool_decide_eq_true).
    assert (Eb : is_Some (m !! b) <-> cb = true) by (unfold cb; by rewrite bool_decide_eq_true).
    destruct (Bool.eqb ca cb) eqn:Ec.
    - apply eqb_prop in Ec. exists hf, m. rewrite Ec in Ea. split_and!; [done|done|done|by rewrite Ea, Eb|by rewrite Ea, Eb|done].
    - destruct (rk_mark hf g m a cb log S Ia) as (hf1 & m1 & E1 & Sh1 & S1 & A1 & O1). rewrite E1. cbn [mbind res_bind].
      assert (Ib1 : in_file (hf_cache hf1) rk_node b) by (unfold in_file in *; by rewrite (sh_pages _ _ Sh1)).
      destruct (rk_mark hf1 g m1 b ca log S1 Ib1) as (hf2 & m2 & E2 & Sh2 & S2 & A2 & O2). rewrite E2.
      exists hf2, m2. split_and!; [done|by rewrite Sh1|done|rewrite O2 by done; by rewrite A1, Eb|by rewrite A2, Ea|].
      intros y Hya Hyb. rewrite O2, O1 by done. done. }
  destruct X as (hf1 & m1 & E1 & Sh1 & S1 & Xa & Xb & O1). rewrite E1. cbn [mbind res_bind].
  destruct (rk_update_if hf1 g m1 (m !! a) b log S1) as (hf2 & m2 & E2 & Sh2 & S2 & O2);
    [by rewrite Xb|intros r; apply Hg|]. rewrite E2. cbn [mbind res_bind].
  destruct (rk_update_if hf2 g m2 (m !! b) a log S2) as (hf3 & m3 & E3 & Sh3 & S3 & O3);
    [rewrite O2, decide_False by (by intros [? _]); by rewrite Xa|intros r; apply Hg|]. rewrite E3.
  exists hf3, m3. split_and!; [done|by rewrite Sh1, Sh2|done|].
  assert (None_of : forall o : option A, ~ is_Some o -> o = None) by (intros o; apply eq_None_not_Some).
  intros x. rewrite O3, O2. destruct (decide (x = a)) as [->|Ha]; [|destruct (decide (x = b)) as [->|Hb]].
  - rewrite swap_id_l, decide_False by (intros [? _]; congruence). case_decide as D; [done|].
    rewrite (None_of (m1 !! b)) by (rewrite Xb; tauto). rewrite (None_of (m !! a)) by tauto. done.
  - rewrite swap_id_r. case_decide as D; [done|]. rewrite decide_False by (intros [? _]; congruence).
    rewrite (None_of (m1 !! a)) by (rewrite Xa; tauto). rewrite (None_of (m !! b)) by tauto. done.
  - rewrite swap_id_other by done. rewrite !decide_False by (intros [? _]; congruence). rewrite O1 by done.
    destruct (m !! x) as [r|] eqn:E; [|done]. cbn. f_equal.
    pose proof (rk_stored hf (rk_set g m) x r S) as Ei. rewrite rk_all_set in Ei. rewrite <- (Ei E) at 1. by rewrite rk_set_same.
Qed.
End Exchange.
End Kinds.
