(* ===== verification/SwapRecords.v ===== *)
(** [swap_nodes] and [swap_relationships] of src/order/reorder_records.c rename two nodes or
    two relationships of the graph that the heap file stands for.

    Each has two parts: the references to the two records are rewritten in place, which makes
    every stored record refer to the new names ([redirect_all], [relink_all]), and then the
    records themselves change places ([rk_exchange] of RecordKinds). *)

From S2P Require Import Prelude Constants LinkedList ArrayList DiskFile PhysicalDatabase Page PageCache PageCacheInv HeaderPage Records HeapFile HeapFileInv HeapRecords HeapStore Chains Incidence HeapDelete Traversal Queries Walks Orders RandomOrders Renaming RecordKinds.
From Stdlib Require Import ZArith Lia.
From stdpp Require Import base list option fin_maps gmap.

#[local] Open Scope Z_scope.

(** ** Lists of references *)

Lemma spec_index_some {T} (eq : T -> T -> bool) xs v i :
  is_Some (spec_index_from eq i xs v) <-> exists e, e ∈ xs /\ eq e v = true.
Proof.
  revert i. induction xs as [|x xs IH]; intros i; simpl.
  - split; [by intros []|intros (e & He & _); by apply elem_of_nil in He].
  - destruct (eq x v) eqn:E.
    + split; [intros _; exists x; split; [left|done]|by eexists].
    + rewrite IH. split; intros (e & He & Ee).
      * exists e. split; [by right|done].
      * apply elem_of_cons in He as [->|He]; [congruence|]. by exists e.
Qed.

Lemma array_contains_ok {T} (leq : T -> T -> bool) l xs v : al_rep l xs ->
  exists b : bool, array_list_contains leq l v = Ok b /\ (b = true <-> exists e, e ∈ xs /\ leq v e = true).
Proof.
  intros R. unfold array_list_contains. rewrite (array_index_of_ok leq l xs v R). eexists. split; [reflexivity|].
  rewrite bool_decide_eq_true, fmap_is_Some. apply spec_index_some.
Qed.

(** The ids are collected once each. *)
Definition collected (l : alist Z) (ids : list Z) : Prop := al_appended l ids /\ NoDup ids.

Lemma append_new_ok l ids x : collected l ids -> Z.of_nat (length ids) < 2 ^ 59 ->
  exists l' ids', append_new l x = Ok l' /\ collected l' ids' /\ (length ids' <= S (length ids))%nat /\
    forall y, y ∈ ids' <-> y ∈ ids \/ y = x.
Proof.
  intros [Al Nd] B. unfold append_new.
  destruct (array_contains_ok unsigned_long_eq l ids x (proj1 Al)) as (c & -> & Hc). cbn [mbind res_bind].
  assert (Hx : c = true <-> x ∈ ids).
  { rewrite Hc. unfold unsigned_long_eq. split; [intros (e & He & ->%Z.eqb_eq); done|].
    intros Hx. exists x. by rewrite Z.eqb_refl. }
  destruct c.
  - exists l, ids. split_and!; [done|done|lia|]. intros y. split; [by left|]. intros [?| ->]; [done|by apply Hx].
  - destruct (array_append_ok l ids x Al B) as (l' & E & Al'). exists l', (ids ++ [x]). split_and!; [done| | |].
    + split; [done|]. apply NoDup_app. split_and!; [done| |by apply NoDup_singleton].
      intros y Hy ->%list_elem_of_singleton. by apply Hx in Hy.
    + rewrite length_app. simpl. lia.
    + intros y. by rewrite elem_of_app, list_elem_of_singleton.
Qed.

(** The references of a relationship to its neighbours. *)
Definition refers (r : relationship_t) (y : Z) : Prop :=
  y = prev_rel_source r \/ y = prev_rel_target r \/ y = next_rel_source r \/ y = next_rel_target r.

Lemma note_references_ok (first : bool) r ln ns lr rs : collected ln ns -> collected lr rs ->
  (length ns <= 8)%nat -> (length rs <= 8)%nat -> (first = true -> ns = [] /\ rs = []) ->
  exists ln' ns' lr' rs', note_references first r ln lr = Ok (ln', lr') /\ collected ln' ns' /\ collected lr' rs' /\
    (length ns' <= 2 + length ns)%nat /\ (length rs' <= 4 + length rs)%nat /\
    (forall n, n ∈ ns' <-> n ∈ ns \/ touches n r) /\ (forall y, y ∈ rs' <-> y ∈ rs \/ refers r y).
Proof.
  intros Cn Cr Bn Br Hf. unfold note_references.
  assert (F : forall (l : alist Z) ids x, collected l ids -> (first = true -> ids = []) -> (length ids <= 8)%nat ->
    exists l' ids', (if first then array_list_append l x else append_new l x) = Ok l' /\ collected l' ids' /\
      (length ids' <= S (length ids))%nat /\ forall y, y ∈ ids' <-> y ∈ ids \/ y = x).
  { intros l ids x C E B. destruct first; [|apply append_new_ok; [done|lia]]. rewrite E in * by done.
    destruct (array_append_ok l [] x (proj1 C)) as (l' & -> & Al'); [simpl; lia|]. exists l', [x].
    split_and!; [done|split; [done|apply NoDup_singleton]|simpl; lia|]. intros y. rewrite elem_of_nil, list_elem_of_singleton. tauto. }
  destruct (F ln ns (source_node r) Cn ltac:(intros; by apply Hf) Bn) as (l1 & n1 & -> & C1 & B1 & M1). cbn [mbind res_bind].
  destruct (append_new_ok l1 n1 (target_node r) C1 ltac:(lia)) as (l2 & n2 & -> & C2 & B2 & M2). cbn [mbind res_bind].
  destruct (F lr rs (prev_rel_source r) Cr ltac:(intros; by apply Hf) Br) as (l3 & r3 & -> & C3 & B3 & M3). cbn [mbind res_bind].
  destruct (append_new_ok l3 r3 (prev_rel_target r) C3 ltac:(lia)) as (l4 & r4 & -> & C4 & B4 & M4). cbn [mbind res_bind].
  destruct (append_new_ok l4 r4 (next_rel_source r) C4 ltac:(lia)) as (l5 & r5 & -> & C5 & B5 & M5). cbn [mbind res_bind].
  destruct (append_new_ok l5 r5 (next_rel_target r) C5 ltac:(lia)) as (l6 & r6 & -> & C6 & B6 & M6). cbn [mbind res_bind].
  exists l2, n2, l6, r6. split_and!; [done|done|done|lia|lia|..].
  - intros n. rewrite M2, M1. unfold touches. naive_solver.
  - intros y. rewrite M6, M5, M4, M3. unfold refers. naive_solver.
Qed.

Section Swap.
Context `{RecordPages}.
Implicit Types (hf : heap_file) (g : store) (G : graph) (log : bool) (r : relationship_t) (a b n x y : Z).

Lemma bad_swap_ok hf g node a b : holds_store hf g ->
  in_file (hf_cache hf) node a -> in_file (hf_cache hf) node b -> bad_swap hf node a b = false.
Proof.
  intros S Ia Ib. unfold bad_swap.
  assert (P : forall x, in_file (hf_cache hf) node x ->
    (x =? UNINITIALIZED_LONG) = false /\ (pages_of hf node <=? record_page x) = false /\
    (u64 (x + num_slots node - 1) mod SLOTS_PER_PAGE <? x mod SLOTS_PER_PAGE) = false).
  { intros x I. split_and!; [by apply (id_initialized hf g node x S)| |].
    - apply Z.leb_gt. rewrite record_page_eq. apply (in_file_page _ _ _ I).
    - destruct (in_file_u64 hf g node x S I) as [U _]. pose proof (in_file_page _ _ _ I) as Pg.
      pose proof (pages_small hf g node S) as Ps. change (n_pages (hf_cache hf) records (ft_of node)) with (pages_of hf node) in Pg.
      pose proof (id_parts x) as Ip. destruct I as [(_ & _ & Hm) _]. destruct rp_mult as [k Ek]. pose proof rp_min.
      apply Z.ltb_ge. assert (Hn : 1 <= num_slots node <= 4) by (destruct (num_slots_cases node) as [[-> _]|[-> _]]; lia).
      rewrite u64_small by (unfold is_u64; lia).
      destruct (div_mod_aligned SLOTS_PER_PAGE x (num_slots node - 1) (num_slots node)) as [_ Em]; [lia|lia| |done|lia|].
      + rewrite Ek. destruct (num_slots_cases node) as [[-> _]|[-> _]]; [apply Z.mod_1_r|]. rewrite Z.mul_comm. by apply Z.mod_mul.
      + replace (x + num_slots node - 1) with (x + (num_slots node - 1)) by lia. rewrite Em. lia. }
  destruct (P a Ia) as (-> & -> & ->), (P b Ib) as (-> & -> & ->). done.
Qed.

(** ** Nodes *)

Lemma expand_both hf g G n (node : node_t) log : represents g G -> st_nodes g !! n = Some node -> holds_store hf g ->
  exists l rs hf', expand hf n BOTH log = Ok (l, hf') /\ al_appended l rs /\ holds_store hf' g /\ same_shape hf hf' /\
    Forall (fun r => st_rels g !! r_id r = Some r) rs /\ NoDup rs /\ 
    forall x r, st_rels g !! x = Some r -> touches n r -> x ∈ r_id <$> rs.
Proof.
  intros R En S. destruct (expand_ok g G n node BOTH log R En hf S) as (l & rs & hf' & E & Al & I & F & S' & Sh).
  destruct (rg_chain _ _ R n node En) as [C _].
  exists l, rs, hf'. split_and!; [done..| |].
  - apply (NoDup_fmap_1 r_id). rewrite I. apply pick_nodup, (ch_nodup _ _ _ C).
  - intros x r Er T. rewrite I. apply pick_elem. split; [apply (ch_mem _ _ _ C); by exists r|].
    unfold sel. rewrite (graph_edge g G x R), Er. cbn. unfold dir_edge. cbn.
    destruct T as [->| ->]; rewrite Z.eqb_refl; [done|by rewrite orb_true_r].
Qed.

(** The relationships that are copied are stored too, and those of the second node are there. *)
Lemma add_missing_ok g l l2 (rs rs2 : list relationship_t) : al_appended l rs -> al_rep l2 rs2 ->
  Z.of_nat (length rs + length rs2) < 2 ^ 59 ->
  Forall (fun r => st_rels g !! r_id r = Some r) rs -> Forall (fun r => st_rels g !! r_id r = Some r) rs2 ->
  exists l' rs', add_missing l l2 = Ok l' /\ al_appended l' rs' /\ Forall (fun r => st_rels g !! r_id r = Some r) rs' /\
    forall x, x ∈ r_id <$> rs \/ x ∈ r_id <$> rs2 -> x ∈ r_id <$> rs'.
Proof.
  intros Al Al2 B F F2. unfold add_missing.
  rewrite (for_array l2 rs2 (fun rel rels => b ← array_list_contains relationship_equals rels rel;
    if b : bool then Ok rels else array_list_append rels (relationship_copy rel)) l Al2).
  set (I := fun (ys : list relationship_t) (l' : alist relationship_t) => exists rs', al_appended l' rs' /\
    (length rs' <= length rs + length ys)%nat /\ Forall (fun r => st_rels g !! r_id r = Some r) rs' /\
    forall x, x ∈ r_id <$> rs \/ x ∈ r_id <$> ys -> x ∈ r_id <$> rs').
  destruct (for_each_inv I (fun rel rels => b ← array_list_contains relationship_equals rels rel;
    if b : bool then Ok rels else array_list_append rels (relationship_copy rel)) rs2 l) as (l' & E & rs' & Al' & _ & F' & C').
  - exists rs. split_and!; [done|simpl; lia|done|]. intros x [?|Hx%elem_of_nil]; done.
  - intros ys r zs l0 Eq (rs0 & Al0 & B0 & F0 & C0). rewrite Eq, length_app in B. simpl in B.
    destruct (array_contains_ok relationship_equals l0 rs0 r (proj1 Al0)) as (c & -> & Hc). cbn [mbind res_bind]. destruct c.
    + exists l0. split; [done|]. exists rs0. split_and!; [done|rewrite length_app; simpl; lia|done|].
      destruct (proj1 Hc eq_refl) as (e & He & Ee). unfold relationship_equals in Ee. rewrite !andb_true_iff, !Z.eqb_eq in Ee.
      assert (Ei : r_id r = r_id e) by tauto.
      intros x. rewrite fmap_app, elem_of_app. intros [?|[?|Hx]]; [apply C0; by left|apply C0; by right|].
      apply list_elem_of_singleton in Hx as ->. cbn. rewrite Ei. by apply list_elem_of_fmap_2.
    + destruct (array_append_ok l0 rs0 (relationship_copy r) Al0 ltac:(lia)) as (l1 & E1 & Al1). exists l1. split; [done|].
      assert (Ec : relationship_copy r = r) by (by destruct r). rewrite Ec in Al1.
      exists (rs0 ++ [r]). split_and!; [done|rewrite !length_app; simpl; lia| |].
      * apply Forall_app. split; [done|]. apply Forall_singleton. rewrite Forall_forall in F2. apply F2. set_solver.
      * intros x. rewrite !fmap_app, !elem_of_app. intros [?|[?|?]]; [left; apply C0; by left|left; apply C0; by right|by right].
  - by exists l', rs'.
Qed.

(** Writing the relationships with exchanged ends: those with an end in [a] or [b] are all in
    the list, so every stored relationship now has exchanged ends. *)
Lemma redirect_all hf g G l rs a b log : holds_store hf g -> represents g G ->
  in_file (hf_cache hf) true a -> in_file (hf_cache hf) true b -> al_rep l rs ->
  Forall (fun r => st_rels g !! r_id r = Some r) rs ->
  (forall x r, st_rels g !! x = Some r -> touches a r \/ touches b r -> x ∈ r_id <$> rs) ->
  exists hf' g', redirect hf a b l log = Ok hf' /\ holds_store hf' g' /\ same_shape hf hf' /\
    st_nodes g' = st_nodes g /\ forall x, st_rels g' !! x = swap_ends a b <$> st_rels g !! x.
Proof.
  intros S R Ia Ib Al F Cov. unfold redirect.
  rewrite (for_array l rs (fun rel hf => update_relationship hf (swap_ends a b rel) log) hf Al).
  set (I := fun (ys : list relationship_t) hf' => exists g', holds_store hf' g' /\ same_shape hf hf' /\
    st_nodes g' = st_nodes g /\
    forall x, st_rels g' !! x = if decide (x ∈ r_id <$> ys) then swap_ends a b <$> st_rels g !! x else st_rels g !! x).
  destruct (in_file_u64 hf g true a S Ia) as [Ua Na], (in_file_u64 hf g true b S Ib) as [Ub Nb].
  destruct (for_each_inv I (fun rel hf => update_relationship hf (swap_ends a b rel) log) rs hf) as (hf' & E & g' & S' & Sh & En & Er).
  - exists g. split_and!; [done|done|done|]. intros x. by rewrite decide_False by apply not_elem_of_nil.
  - intros ys r zs hf0 Eq (g0 & S0 & Sh0 & En0 & Er0). rewrite Forall_forall in F.
    assert (Erg : st_rels g !! r_id r = Some r) by (apply F; set_solver).
    destruct (stored_fine' hf g G (r_id r) r S R Erg) as [[Rr [W1 [W2 W3]]] _].
    assert (Su : forall z, is_u64 z -> is_u64 (swap_id a b z)) by (intros z Hz; unfold swap_id; by repeat case_match).
    assert (Sn : forall z, z <> UNINITIALIZED_LONG -> swap_id a b z <> UNINITIALIZED_LONG)
      by (intros z Hz; unfold swap_id; by repeat case_match).
    destruct (update_rel_ok hf0 g0 (swap_ends a b r) log S0) as (hf1 & E1 & S1 & Sh1).
    + unfold has. apply bool_decide_true. cbn [swap_ends r_id]. rewrite Er0, Erg. case_decide; by eexists.
    + unfold rel_range, rel_words in *. cbn. rewrite !Forall_cons in *. naive_solver.
    + split_and!; cbn; auto.
    + exists hf1. split; [done|]. eexists. split; [exact S1|]. split; [by rewrite Sh0|]. split; [exact En0|].
      intros x. cbn [put_rel st_rels swap_ends r_id]. rewrite lookup_partial_alter. rewrite fmap_app.
      destruct (decide (r_id r = x)) as [<-|Hx].
      * rewrite decide_True by set_solver. by rewrite Erg.
      * rewrite Er0. apply decide_ext. set_solver.
  - exists hf', g'. split_and!; [done|done|done|done|]. intros x. rewrite Er. case_decide as D; [done|].
    destruct (st_rels g !! x) as [r|] eqn:Ex; [|done]. cbn. f_equal.
    assert (Nt : forall z, z = a \/ z = b -> ~ touches z r).
    { intros z [->| ->] T; apply D; apply (Cov x r Ex); auto. }
    pose proof (Nt a (or_introl eq_refl)) as Ta. pose proof (Nt b (or_intror eq_refl)) as Tb.
    destruct r as [i so ta ps ns pt nt w lb]. unfold touches in Ta, Tb. unfold swap_ends. cbn in *.
    by rewrite !swap_id_other by tauto.
Qed.

(** No stored relationship ends in a node that is not stored. *)
Lemma touched_node g G x r n : represents g G -> st_rels g !! x = Some r -> touches n r -> is_Some (st_nodes g !! n).
Proof. intros R Er T. destruct (rel_ends g G x r R Er) as ((k & Ek) & (k' & Ek') & _). destruct T as [<-|<-]; by eexists. Qed.

(** Exchanging ids that no record has, or an id with itself, changes nothing. *)
Lemma nodes_swapped_same hf g G a b : holds_store hf g -> represents g G ->
  (a = b \/ st_nodes g !! a = None /\ st_nodes g !! b = None) -> nodes_swapped a b g g.
Proof.
  intros S R C. split.
  - intros x. destruct (st_rels g !! x) as [r|] eqn:Er; [|done]. cbn. f_equal.
    destruct C as [->|[Ca Cb]]; [destruct r; unfold swap_ends; cbn; by rewrite !swap_id_same|].
    assert (Nt : forall n, n = a \/ n = b -> ~ touches n r).
    { intros n Hn T. destruct (touched_node g G x r n R Er T) as [k Ek]. destruct Hn as [->| ->]; congruence. }
    pose proof (Nt a (or_introl eq_refl)) as Ta. pose proof (Nt b (or_intror eq_refl)) as Tb.
    destruct r as [i so ta ps ns pt nt w lb]. unfold touches in Ta, Tb. unfold swap_ends. cbn in *.
    by rewrite !swap_id_other by tauto.
  - intros n. destruct (st_nodes g !! n) as [k|] eqn:Ek.
    + assert (E : swap_id a b n = n).
      { destruct C as [->|[Ca Cb]]; [apply swap_id_same|]. apply swap_id_other; congruence. }
      rewrite E, Ek. cbn. f_equal. destruct (stored_node hf g n k S Ek) as (<- & _). by destruct k.
    + cbn. destruct C as [->|[Ca Cb]]; [by rewrite swap_id_same|].
      unfold swap_id. destruct (Z.eqb_spec n a); [done|]. destruct (Z.eqb_spec n b); done.
Qed.

(** A relationship has more than one slot, so that there are fewer of them. *)
Lemma rel_ids_bound hf g (ids : list Z) :
  holds_store hf g -> NoDup ids -> Forall (in_file (hf_cache hf) false) ids -> Z.of_nat (length ids) < 2 ^ 58.
Proof.
  intros S Nd F. pose proof (quiet _ _ S) as Q. rewrite Forall_forall in F.
  set (N := n_pages (hf_cache hf) records relationship_ft * SLOTS_PER_PAGE).
  assert (Inj : forall x y, x ∈ ids -> y ∈ ids -> slot_no x = slot_no y -> x = y).
  { intros x y Hx%F Hy%F. apply slot_no_inj; [apply Hx|apply Hy]. }
  assert (L : (length ((slot_no <$> ids) ++ ((fun x => (slot_no x + 1)%Z) <$> ids)) <= length (seqZ 0 N))%nat).
  { apply submseteq_length, NoDup_submseteq.
    - apply NoDup_app. split_and!; [by apply NoDup_fmap_2_strong| |].
      + intros t (x & -> & Hx%F)%list_elem_of_fmap (y & E & Hy%F)%list_elem_of_fmap.
        pose proof (slot_no_aligned false x (proj1 Hx)) as Ax. pose proof (slot_no_aligned false y (proj1 Hy)) as Ay.
        change (num_slots false) with 4 in *. lia.
      + apply NoDup_fmap_2_strong; [|done]. intros x y Hx Hy E. apply Inj; [done|done|lia].
    - intros t Ht. assert (P : exists x, x ∈ ids /\ slot_no x <= t <= slot_no x + 1).
      { apply elem_of_app in Ht as [(x & -> & Hx)%list_elem_of_fmap|(x & -> & Hx)%list_elem_of_fmap]; exists x; (split; [done|lia]). }
      destruct P as (x & Hx%F & Ht'). apply elem_of_seqZ.
      pose proof (slot_no_bound (hf_cache hf) false x Q Hx) as B. change (num_slots false) with 4 in B. unfold N. cbn [ft_of] in B. lia. }
  rewrite length_app, !length_fmap, length_seqZ in L.
  pose proof (n_pages_bound (hf_cache hf) records relationship_ft Q) as B.
  pose proof SLOTS_PER_PAGE_size as Sp. unfold SLOT_SIZE in Sp. pose proof rp_min.
  assert (M : MAX_PAGE_NO * PAGE_SIZE <= LONG_MAX) by (unfold MAX_PAGE_NO; rewrite Z.mul_comm; apply Z.mul_div_le; lia).
  assert (N * 16 <= LONG_MAX) by (unfold N; nia). unfold LONG_MAX in *. lia.
Qed.

(** The references to the two nodes, in whichever case of the code. *)
Lemma redirect_cases hf g G a b log : holds_store hf g -> represents g G ->
  in_file (hf_cache hf) true a -> in_file (hf_cache hf) true b ->
  let fst_exists := bool_decide (is_Some (st_nodes g !! a)) in
  let snd_exists := bool_decide (is_Some (st_nodes g !! b)) in
  exists hf' g',
    ('(rels, hf) ← (if fst_exists then expand hf a BOTH log else Ok (array_list_create, hf));
     if snd_exists then
       '(rels_snd, hf) ← expand hf b BOTH log;
       rels ← add_missing rels rels_snd;
       redirect hf a b rels log
     else Ok hf) = Ok hf' /\ holds_store hf' g' /\ same_shape hf hf' /\
    st_nodes g' = st_nodes g /\
    forall x, st_rels g' !! x = if snd_exists then swap_ends a b <$> st_rels g !! x else st_rels g !! x.
Proof.
  intros S R Ia Ib fst_exists snd_exists.
  assert (X : exists l rs hf1, (if fst_exists then expand hf a BOTH log else Ok (array_list_create, hf)) = Ok (l, hf1) /\
    al_appended l rs /\ holds_store hf1 g /\ same_shape hf hf1 /\ Forall (fun r => st_rels g !! r_id r = Some r) rs /\ NoDup rs /\
    (forall x r, st_rels g !! x = Some r -> touches a r -> x ∈ r_id <$> rs)).
  { unfold fst_exists. case_bool_decide as D.
    - destruct D as [k Ek]. destruct (expand_both hf g G a k log R Ek S) as (l & rs & hf1 & P). by exists l, rs, hf1.
    - exists array_list_create, [], hf. split_and!; [done|apply array_create_appended|done|done|constructor|constructor|].
      intros x r Er T. destruct D. by eapply touched_node. }
  destruct X as (l & rs & hf1 & E1 & Al & S1 & Sh1 & F & Nd & Cov). rewrite E1. cbn [mbind res_bind].
  assert (Len : forall qs : list relationship_t, NoDup qs -> Forall (fun r => st_rels g !! r_id r = Some r) qs ->
    Z.of_nat (length qs) < 2 ^ 58).
  { intros qs Ndq Fq. rewrite <- (length_fmap r_id). rewrite Forall_forall in Fq. apply (rel_ids_bound hf g); [done| |].
    - apply NoDup_fmap_2_strong; [|done]. intros x y Hx%Fq Hy%Fq E. rewrite E in Hx. congruence.
    - apply Forall_forall. intros x (r & -> & Hr%Fq)%list_elem_of_fmap. apply (has_in_file hf g false _ S). by eapply has_rel. }
  unfold snd_exists. case_bool_decide as D.
  - destruct D as [k Ek]. destruct (expand_both hf1 g G b k log R Ek S1) as (l2 & rs2 & hf2 & E2 & Al2 & S2 & Sh2 & F2 & Nd2 & Cov2).
    rewrite E2. cbn [mbind res_bind].
    destruct (add_missing_ok g l l2 rs rs2 Al (proj1 Al2)) as (l3 & rs3 & E3 & Al3 & F3 & C3); [|done|done|].
    { pose proof (Len rs Nd F). pose proof (Len rs2 Nd2 F2). lia. }
    rewrite E3. cbn [mbind res_bind].
    assert (In2 : forall x, in_file (hf_cache hf) true x -> in_file (hf_cache hf2) true x).
    { intros x. unfold in_file. by rewrite (sh_pages _ _ Sh2), (sh_pages _ _ Sh1). }
    destruct (redirect_all hf2 g G l3 rs3 a b log S2 R (In2 a Ia) (In2 b Ib) (proj1 Al3) F3) as (hf3 & g3 & E4 & S3 & Sh3 & N3 & R3).
    { intros x r Er [T|T]; apply C3; [left; by eapply Cov|right; by eapply Cov2]. }
    exists hf3, g3. split_and!; [done|done|by rewrite Sh1, Sh2|done|done].
  - by exists hf1, g.
Qed.

(** What the code does: the relationships are redirected only if the second node exists. *)
Lemma swap_nodes_moves hf g G a b log : holds_store hf g -> represents g G ->
  in_file (hf_cache hf) true a -> in_file (hf_cache hf) true b ->
  exists hf' g', swap_nodes hf a b log = Ok hf' /\ holds_store hf' g' /\ same_shape hf hf' /\
    (forall x, st_rels g' !! x =
       if bool_decide (is_Some (st_nodes g !! b)) then swap_ends a b <$> st_rels g !! x else st_rels g !! x) /\
    forall n, st_nodes g' !! swap_id a b n = (fun k => set_node_id k (swap_id a b n)) <$> st_nodes g !! n.
Proof.
  intros S R Ia Ib. unfold swap_nodes. rewrite (bad_swap_ok hf g true a b S Ia Ib).
  destruct (check_exists_ok hf g true a log S Ia) as (hf1 & E1 & S1 & Sh1). rewrite E1. cbn [mbind res_bind].
  assert (In : forall hf', same_shape hf hf' -> forall x, in_file (hf_cache hf) true x -> in_file (hf_cache hf') true x).
  { intros hf' Sh x. unfold in_file. by rewrite (sh_pages _ _ Sh). }
  destruct (check_exists_ok hf1 g true b log S1 (In _ Sh1 b Ib)) as (hf2 & E2 & S2 & Sh2). rewrite E2. cbn [mbind res_bind].
  assert (Sh02 : same_shape hf hf2) by (by rewrite Sh1). unfold has.
  destruct ((a =? b) || (negb (bool_decide (is_Some (st_nodes g !! a))) && negb (bool_decide (is_Some (st_nodes g !! b))))) eqn:Et.
  { exists hf2, g. split_and!; [done|done|done|..].
    - intros x. destruct (bool_decide (is_Some (st_nodes g !! b))) eqn:Db; [|done]. apply (ns_rels a b), (nodes_swapped_same hf g G); [done|done|left].
      apply orb_true_iff in Et as [->%Z.eqb_eq|Et]; [done|].
      by apply andb_true_iff in Et as [_ ?%negb_true_iff].
    - apply (ns_nodes a b), (nodes_swapped_same hf g G); [done|done|].
      apply orb_true_iff in Et as [->%Z.eqb_eq|Et]; [by left|right].
      rewrite andb_true_iff, !negb_true_iff, !bool_decide_eq_false, <- !eq_None_not_Some in Et. done. }
  apply orb_false_iff in Et as [Hab%Z.eqb_neq Et].
  destruct (redirect_cases hf2 g G a b log S2 R (In _ Sh02 a Ia) (In _ Sh02 b Ib)) as (hf3 & g3 & E3 & S3 & Sh3 & N3 & R3).
  cbv zeta in E3. rewrite <- N3 in *. set (fe := bool_decide (is_Some (st_nodes g3 !! a))) in *.
  set (se := bool_decide (is_Some (st_nodes g3 !! b))) in *.
  destruct (if fe then expand hf2 a BOTH log else Ok (array_list_create, hf2)) as [[rels hf2']| | |]; try discriminate E3.
  cbn [mbind res_bind] in E3 |- *. rewrite E3. cbn [mbind res_bind].
  destruct (rk_read_if (A := node_t) hf3 g3 a log S3) as (hf4 & E4 & S4 & Sh4). cbn [rk_all rk_read node_kind] in E4. fold fe in E4. rewrite E4. cbn [mbind res_bind].
  destruct (rk_read_if (A := node_t) hf4 g3 b log S4) as (hf5 & E5 & S5 & Sh5). cbn [rk_all rk_read node_kind] in E5. fold se in E5. rewrite E5. cbn [mbind res_bind].
  set (hf6 := hf_log_when _ _ hf5). assert (S6 : holds_store hf6 g3) by (by apply holds_log).
  assert (Sh6 : same_shape hf hf6) by (apply shape_log; by rewrite Sh02, Sh3, Sh4).
  destruct (rk_exchange (A := node_t) hf6 g3 (st_nodes g3) a b log) as (hf7 & m & E7 & Sh7 & S7 & M7).
  - unfold holds_map. by replace (rk_set g3 (st_nodes g3)) with g3 by (by destruct g3).
  - by apply (In _ Sh6).
  - by apply (In _ Sh6).
  - done.
  - destruct fe eqn:Ef; [left; by apply bool_decide_eq_true in Ef|right]. destruct se eqn:Es; [by apply bool_decide_eq_true in Es|done].
  - intros x k Ek. by destruct (stored_node hf6 g3 x k S6 Ek) as (_ & ? & _).
  - cbn [rk_node rk_update rk_set_id node_kind] in E7. fold fe se in E7.
    exists hf7, (rk_set g3 m). split; [exact E7|]. split; [exact S7|]. split; [by rewrite Sh6|].
    split; [exact R3|]. exact M7.
Qed.

Lemma swap_nodes_ok hf g G a b log : holds_store hf g -> represents g G ->
  in_file (hf_cache hf) true a -> in_file (hf_cache hf) true b ->
  (is_Some (st_nodes g !! a) -> st_nodes g !! b = None -> g_inc G a = []) ->
  exists hf' g', swap_nodes hf a b log = Ok hf' /\ holds_store hf' g' /\ same_shape hf hf' /\ nodes_swapped a b g g'.
Proof.
  intros S R Ia Ib Hinc. destruct (swap_nodes_moves hf g G a b log S R Ia Ib) as (hf' & g' & E & S' & Sh & Rs & Ns).
  exists hf', g'. split_and!; [done..|]. split; [|done]. intros x. rewrite Rs. case_bool_decide as D; [done|].
  destruct (st_rels g !! x) as [r|] eqn:Er; [|done]. cbn. f_equal.
  assert (Tb : ~ touches b r) by (intros T; apply D; by eapply touched_node).
  assert (Ta : ~ touches a r).
  { intros T. destruct (touched_node g G x r a R Er T) as [k Ek]. destruct (rg_chain _ _ R a k Ek) as [C _].
    assert (Hx : x ∈ g_inc G a) by (apply (ch_mem _ _ _ C); by exists r).
    rewrite Hinc in Hx; [by apply elem_of_nil in Hx|by eexists|by apply eq_None_not_Some]. }
  destruct r as [i so ta ps ns pt nt w lb]. unfold touches in Ta, Tb. unfold swap_ends. cbn in *.
  by rewrite !swap_id_other by tauto.
Qed.
End Swap.
