(* ===== verification/SwapRels.v ===== *)
(** [swap_relationships] of src/order/reorder_records.c renames two relationships.

    The references to a relationship are the links of its neighbours and perhaps the first
    pointers of its ends: [refers_back] shows that a stored relationship with a link to [x] is
    a neighbour of [x], so that the lists that the code collects have all references. *)

From S2P Require Import Prelude Constants LinkedList ArrayList DiskFile PhysicalDatabase Page PageCache PageCacheInv HeaderPage Records HeapFile HeapFileInv HeapRecords HeapStore Chains Incidence HeapDelete Traversal Queries Walks Orders RandomOrders Renaming RecordKinds SwapRecords.
From Stdlib Require Import ZArith Lia.
From stdpp Require Import base list option fin_maps gmap.

#[local] Open Scope Z_scope.

Section SwapRels.
Context `{RecordPages}.
Implicit Types (hf : heap_file) (g : store) (G : graph) (log : bool) (r : relationship_t) (a b n x y : Z).

(** ** References *)

Lemma next_refers n y r : touches n r -> next_is n y r -> refers r y.
Proof. unfold refers. intros [T|T] [A B]; [rewrite A by done|rewrite B by done]; tauto. Qed.
Lemma prev_refers n y r : touches n r -> prev_is n y r -> refers r y.
Proof. unfold refers. intros [T|T] [A B]; [rewrite A by done|rewrite B by done]; tauto. Qed.

(** On the side of a node that it touches, a relationship and its neighbours refer to each other. *)
Lemma side_refers g G x r n (k : node_t) y : represents g G -> st_rels g !! x = Some r -> touches n r -> st_nodes g !! n = Some k ->
  next_is n y r \/ prev_is n y r -> exists r', st_rels g !! y = Some r' /\ refers r' x.
Proof.
  intros R Er T Ek Hy. destruct (rg_chain _ _ R n k Ek) as [C _].
  assert (Hx : x ∈ g_inc G n) by (apply (ch_mem _ _ _ C); by exists r).
  destruct Hy as [Hy|Hy].
  - destruct (cycle_succ _ _ Hx) as (z & Cz). pose proof (ch_next _ _ _ C _ _ r Cz Er) as Hz.
    assert (y = z) as -> by (by eapply next_is_unique).
    destruct (proj1 (ch_mem _ _ _ C z) (cycle_snd _ _ _ Cz)) as (r' & Er' & T'). exists r'. split; [done|].
    eapply prev_refers; [exact T'|]. by apply (ch_prev _ _ _ C x z).
  - destruct (cycle_pred _ _ Hx) as (z & Cz). pose proof (ch_prev _ _ _ C _ _ r Cz Er) as Hz.
    assert (y = z) as -> by (by eapply prev_is_unique).
    destruct (proj1 (ch_mem _ _ _ C z) (cycle_fst _ _ _ Cz)) as (r' & Er' & T'). exists r'. split; [done|].
    eapply next_refers; [exact T'|]. by apply (ch_next _ _ _ C z x).
Qed.

Lemma side_links g G x r n (k : node_t) : represents g G -> st_rels g !! x = Some r -> touches n r -> st_nodes g !! n = Some k ->
  exists y z, next_is n y r /\ prev_is n z r.
Proof.
  intros R Er T Ek. destruct (rg_chain _ _ R n k Ek) as [C _].
  assert (Hx : x ∈ g_inc G n) by (apply (ch_mem _ _ _ C); by exists r).
  destruct (cycle_succ _ _ Hx) as (y & Cy), (cycle_pred _ _ Hx) as (z & Cz). exists y, z.
  split; [by apply (ch_next _ _ _ C x y)|by apply (ch_prev _ _ _ C z x)].
Qed.

Lemma refers_back g G x r y : represents g G -> st_rels g !! x = Some r -> refers r y ->
  exists r', st_rels g !! y = Some r' /\ refers r' x.
Proof.
  intros R Er Hy. destruct (rel_ends g G x r R Er) as ((ks & Es) & (kt & Et) & _).
  destruct (side_links g G x r _ ks R Er (or_introl eq_refl) Es) as (ys & zs & Ns & Ps).
  destruct (side_links g G x r _ kt R Er (or_intror eq_refl) Et) as (yt & zt & Nt & Pt).
  destruct Hy as [->|[->|[->| ->]]].
  - apply (side_refers g G x r (source_node r) ks); [done|done|by left|done|right]. by rewrite (proj1 Ps eq_refl).
  - apply (side_refers g G x r (target_node r) kt); [done|done|by right|done|right]. by rewrite (proj2 Pt eq_refl).
  - apply (side_refers g G x r (source_node r) ks); [done|done|by left|done|left]. by rewrite (proj1 Ns eq_refl).
  - apply (side_refers g G x r (target_node r) kt); [done|done|by right|done|left]. by rewrite (proj2 Nt eq_refl).
Qed.

(** ** Rewriting the references *)

(** The lists: the neighbours and the ends of the two relationships, as far as they exist. *)
Record references g a b (ns rs : list Z) : Prop := References {
  rf_nodes : forall n, n ∈ ns <-> exists x r, (x = a \/ x = b) /\ st_rels g !! x = Some r /\ touches n r;
  rf_rels : forall y, y ∈ rs <-> exists x r, (x = a \/ x = b) /\ st_rels g !! x = Some r /\ refers r y }.

Lemma swap_links_fine a b r : is_u64 a -> is_u64 b -> fine r -> fine (swap_links a b r).
Proof.
  intros Ua Ub Fr. pose proof (fine_fields r Fr) as (A & B & C & D).
  assert (Su : forall z, is_u64 z -> is_u64 (swap_id a b z)) by (intros z Hz; unfold swap_id; by repeat case_match).
  apply fine_links; auto.
Qed.

Lemma relink_all hf g G ln ns lr rs a b log : holds_store hf g -> represents g G ->
  in_file (hf_cache hf) false a -> in_file (hf_cache hf) false b ->
  collected ln ns -> collected lr rs -> references g a b ns rs ->
  exists hf' g', (hf ← relink_rels hf a b lr log; relink_nodes hf a b ln log) = Ok hf' /\ holds_store hf' g' /\
    same_shape hf hf' /\
    (forall x, st_rels g' !! x = swap_links a b <$> st_rels g !! x) /\
    (forall n, st_nodes g' !! n = (fun k => set_first k (swap_id a b (first_relationship k))) <$> st_nodes g !! n).
Proof.
  intros S R Ia Ib [Aln Ndn] [Alr Ndr] [Fn Fr].
  destruct (in_file_u64 hf g false a S Ia) as [Ua Na], (in_file_u64 hf g false b S Ib) as [Ub Nb].
  unfold relink_rels, relink_nodes.
  rewrite (for_array lr rs (fun x hf => '(rel, hf) ← read_relationship hf x log; update_relationship hf (swap_links a b rel) log) hf (proj1 Alr)).
  destruct (rk_modify_all (A := relationship_t) hf g (st_rels g) rs (swap_links a b) log) as (hf1 & m & E1 & Sh1 & S1 & M1).
  { unfold holds_map. by replace (rk_set g (st_rels g)) with g by (by destruct g). } { done. }
  { intros y (x & r & Hx & Er & Hr)%Fr. destruct (refers_back g G x r y R Er Hr) as (r' & Er' & _). by exists r'. }
  { intros x r Er. apply swap_links_fine; [done|done|]. by destruct (stored_fine' hf g G x r S R Er). }
  { done. }
  cbn [rk_read rk_update rel_kind] in E1. rewrite E1. cbn [mbind res_bind]. unfold holds_map in S1. cbn [rk_set rel_kind] in S1.
  rewrite (for_array ln ns (fun x hf => '(node, hf) ← read_node hf x log;
    update_node hf (set_first node (swap_id a b (first_relationship node))) log) hf1 (proj1 Aln)).
  destruct (rk_modify_all (A := node_t) hf1 (Store (st_nodes g) m) (st_nodes g) ns
    (fun k => set_first k (swap_id a b (first_relationship k))) log) as (hf2 & m2 & E2 & Sh2 & S2 & M2).
  { exact S1. } { done. }
  { intros n (x & r & Hx & Er & T)%Fn. by eapply touched_node. }
  { intros n k Ek. destruct (stored_node hf g n k S Ek) as (_ & Rk & _).
    assert (Su : forall z, is_u64 z -> is_u64 (swap_id a b z)) by (intros z Hz; unfold swap_id; by repeat case_match).
    cbn [rk_good node_kind]. unfold node_range, node_words in *. cbn. rewrite !Forall_cons in *. naive_solver. }
  { done. }
  cbn [rk_read rk_update node_kind] in E2. rewrite E2. unfold holds_map in S2. cbn [rk_set node_kind st_rels] in S2.
  eexists hf2, _. split; [done|]. split; [exact S2|]. split; [by rewrite Sh1|]. cbn [st_rels st_nodes]. split.
  - intros x. rewrite M1. case_decide as D; [done|]. destruct (st_rels g !! x) as [r|] eqn:Er; [|done]. cbn. f_equal.
    assert (Nr : forall z, z = a \/ z = b -> ~ refers r z).
    { intros z Hz Rz. destruct (refers_back g G x r z R Er Rz) as (r' & Er' & Rx). apply D, Fr. by exists z, r'. }
    pose proof (Nr a (or_introl eq_refl)) as Ra. pose proof (Nr b (or_intror eq_refl)) as Rb.
    destruct r as [i so ta ps nx pt nt w lb]. unfold refers in Ra, Rb. unfold swap_links. cbn in *.
    by rewrite !swap_id_other by (intros ->; tauto).
  - intros n. rewrite M2. case_decide as D; [done|]. destruct (st_nodes g !! n) as [k|] eqn:Ek; [|done]. cbn. f_equal.
    destruct (rg_chain _ _ R n k Ek) as [C F].
    assert (Nf : forall z, z = a \/ z = b -> first_relationship k <> z).
    { intros z Hz E. destruct (g_inc G n) as [|h l] eqn:El; cbn in F; [by destruct Hz as [-> | ->]; congruence|].
      assert (Hh : z ∈ h :: l) by (rewrite <- E, F; set_solver). apply (ch_mem _ _ _ C) in Hh as (r & Er & T).
      apply D, Fn. by exists z, r. }
    rewrite swap_id_other by auto. by destruct k.
Qed.

(** ** The exchange *)

Lemma first_stored g G n (k : node_t) : represents g G -> st_nodes g !! n = Some k ->
  first_relationship k = UNINITIALIZED_LONG \/ is_Some (st_rels g !! first_relationship k).
Proof.
  intros R Ek. destruct (rg_chain _ _ R n k Ek) as [C ->]. destruct (g_inc G n) as [|h l]; [by left|right].
  destruct (proj1 (ch_mem _ _ _ C h) ltac:(set_solver)) as (r & Er & _). by exists r.
Qed.

Lemma rels_swapped_same hf g G a b : holds_store hf g -> represents g G ->
  a <> UNINITIALIZED_LONG -> b <> UNINITIALIZED_LONG ->
  (a = b \/ st_rels g !! a = None /\ st_rels g !! b = None) -> rels_swapped a b g g.
Proof.
  intros S R Ua Ub C.
  assert (Fix : forall y, (y = UNINITIALIZED_LONG \/ is_Some (st_rels g !! y)) -> swap_id a b y = y).
  { intros y Hy. destruct C as [->|[Ca Cb]]; [apply swap_id_same|].
    destruct Hy as [->|[r Er]]; apply swap_id_other; congruence. }
  split.
  - intros x. destruct (st_rels g !! x) as [r|] eqn:Er.
    + rewrite (Fix x) by (right; by eexists). rewrite Er. cbn. f_equal.
      assert (Hr : forall y, refers r y -> swap_id a b y = y).
      { intros y Hy. apply Fix. right. destruct (refers_back g G x r y R Er Hy) as (r' & -> & _). by eexists. }
      destruct (stored_rel hf g x r S Er) as (Ei & _).
      destruct r as [i so ta ps nx pt nt w lb]. unfold refers in Hr. unfold set_rel_id, swap_links. cbn in *.
      rewrite !Hr by tauto. by rewrite Ei.
    + cbn. destruct C as [->|[Ca Cb]]; [by rewrite swap_id_same|].
      unfold swap_id. destruct (Z.eqb_spec x a); [done|]. destruct (Z.eqb_spec x b); done.
  - intros n. destruct (st_nodes g !! n) as [k|] eqn:Ek; [|done]. cbn. f_equal.
    rewrite (Fix _ (first_stored g G n k R Ek)). by destruct k.
Qed.

(** The two lists. *)
Lemma references_cases hf g a b log : holds_store hf g ->
  let fst_exists := bool_decide (is_Some (st_rels g !! a)) in
  let snd_exists := bool_decide (is_Some (st_rels g !! b)) in
  exists ln ns lr rs hf',
    ('(nodes, rels, hf) ←
        (if fst_exists then
           '(fst_rel, hf) ← read_relationship hf a log;
           '(nodes, rels) ← note_references true fst_rel array_list_create array_list_create;
           Ok (nodes, rels, hf)
         else Ok (array_list_create, array_list_create, hf));
     if snd_exists then
       '(snd_rel, hf) ← read_relationship hf b log;
       '(nodes, rels) ← note_references false snd_rel nodes rels;
       Ok (nodes, rels, hf)
     else Ok (nodes, rels, hf)) = Ok (ln, lr, hf') /\ holds_store hf' g /\ same_shape hf hf' /\
    collected ln ns /\ collected lr rs /\ references g a b ns rs.
Proof.
  intros S fst_exists snd_exists.
  assert (Nil : collected array_list_create []) by (split; [apply array_create_appended|constructor]).
  assert (X : exists ln ns lr rs hf1, (if fst_exists then
           '(fst_rel, hf) ← read_relationship hf a log;
           '(nodes, rels) ← note_references true fst_rel array_list_create array_list_create;
           Ok (nodes, rels, hf)
         else Ok (array_list_create, array_list_create, hf)) = Ok (ln, lr, hf1) /\ holds_store hf1 g /\ same_shape hf hf1 /\
    collected ln ns /\ collected lr rs /\ (length ns <= 2)%nat /\ (length rs <= 4)%nat /\
    (forall n, n ∈ ns <-> exists r, st_rels g !! a = Some r /\ touches n r) /\
    (forall y, y ∈ rs <-> exists r, st_rels g !! a = Some r /\ refers r y)).
  { unfold fst_exists. case_bool_decide as D.
    - destruct D as [r Er]. destruct (read_rel_ok hf g a r log S Er) as (hf1 & -> & S1 & Sh1). cbn [mbind res_bind].
      destruct (note_references_ok true r array_list_create [] array_list_create [] Nil Nil) as (ln & ns & lr & rs & -> & Cn & Cr & Bn & Br & Mn & Mr);
        [simpl; lia|simpl; lia|done|]. cbn [mbind res_bind].
      exists ln, ns, lr, rs, hf1. split_and!; [done|done|done|done|done|simpl in *; lia|simpl in *; lia|..].
      + intros n. rewrite Mn, elem_of_nil, Er. naive_solver.
      + intros y. rewrite Mr, elem_of_nil, Er. naive_solver.
    - apply eq_None_not_Some in D. exists array_list_create, [], array_list_create, [], hf.
      split_and!; [done|done|done|done|done|simpl; lia|simpl; lia|..]; intros z; rewrite elem_of_nil, D; naive_solver. }
  destruct X as (ln & ns & lr & rs & hf1 & E1 & S1 & Sh1 & Cn & Cr & Bn & Br & Mn & Mr). rewrite E1. cbn [mbind res_bind].
  unfold snd_exists. case_bool_decide as D.
  - destruct D as [r Er]. destruct (read_rel_ok hf1 g b r log S1 Er) as (hf2 & -> & S2 & Sh2). cbn [mbind res_bind].
    destruct (note_references_ok false r ln ns lr rs Cn Cr) as (ln' & ns' & lr' & rs' & -> & Cn' & Cr' & _ & _ & Mn' & Mr'); [lia|lia|done|].
    cbn [mbind res_bind]. exists ln', ns', lr', rs', hf2. split_and!; [done|done|by rewrite Sh1|done|done|]. split.
    + intros n. rewrite Mn', Mn. split; [|naive_solver]. intros [(r' & ? & ?)|?]; eauto 10.
    + intros y. rewrite Mr', Mr. split; [|naive_solver]. intros [(r' & ? & ?)|?]; eauto 10.
  - apply eq_None_not_Some in D. exists ln, ns, lr, rs, hf1. split_and!; [done|done|done|done|done|]. split.
    + intros n. rewrite Mn. split; [|naive_solver]. intros (r' & ? & ?); eauto 10.
    + intros y. rewrite Mr. split; [|naive_solver]. intros (r' & ? & ?); eauto 10.
Qed.

Lemma swap_relationships_ok hf g G a b log : holds_store hf g -> represents g G ->
  in_file (hf_cache hf) false a -> in_file (hf_cache hf) false b ->
  exists hf' g', swap_relationships hf a b log = Ok hf' /\ holds_store hf' g' /\ same_shape hf hf' /\ rels_swapped a b g g'.
Proof.
  intros S R Ia Ib. unfold swap_relationships. rewrite (bad_swap_ok hf g false a b S Ia Ib).
  destruct (check_exists_ok hf g false a log S Ia) as (hf1 & E1 & S1 & Sh1). rewrite E1. cbn [mbind res_bind].
  assert (In : forall hf', same_shape hf hf' -> forall x, in_file (hf_cache hf) false x -> in_file (hf_cache hf') false x).
  { intros hf' Sh x. unfold in_file. by rewrite (sh_pages _ _ Sh). }
  destruct (check_exists_ok hf1 g false b log S1 (In _ Sh1 b Ib)) as (hf2 & E2 & S2 & Sh2). rewrite E2. cbn [mbind res_bind].
  assert (Sh02 : same_shape hf hf2) by (by rewrite Sh1). unfold has.
  destruct (in_file_u64 hf g false a S Ia) as [Ua Na], (in_file_u64 hf g false b S Ib) as [Ub Nb].
  destruct ((a =? b) || (negb (bool_decide (is_Some (st_rels g !! a))) && negb (bool_decide (is_Some (st_rels g !! b))))) eqn:Et.
  { exists hf2, g. split_and!; [done|done|done|]. apply (rels_swapped_same hf g G); [done|done|done|done|].
    apply orb_true_iff in Et as [->%Z.eqb_eq|Et]; [by left|right].
    rewrite andb_true_iff, !negb_true_iff, !bool_decide_eq_false, <- !eq_None_not_Some in Et. done. }
  apply orb_false_iff in Et as [Hab%Z.eqb_neq Et].
  destruct (references_cases hf2 g a b log S2) as (ln & ns & lr & rs & hf3 & E3 & S3 & Sh3 & Cn & Cr & Rf). cbv zeta in E3.
  assert (Sh03 : same_shape hf hf3) by (by rewrite Sh02).
  destruct (relink_all hf3 g G ln ns lr rs a b log S3 R (In _ Sh03 a Ia) (In _ Sh03 b Ib) Cn Cr Rf) as (hf4 & g4 & E4 & S4 & Sh4 & R4 & N4).
  assert (Ex : forall x, bool_decide (is_Some (st_rels g !! x)) = bool_decide (is_Some (st_rels g4 !! x))).
  { intros x. apply bool_decide_ext. by rewrite R4, fmap_is_Some. }
  rewrite !Ex in *. set (fe := bool_decide (is_Some (st_rels g4 !! a))) in *. set (se := bool_decide (is_Some (st_rels g4 !! b))) in *.
  match type of E3 with mbind ?f ?m = _ => destruct m as [[[nodes0 rels0] hf2']| | |]; try discriminate E3 end.
  cbn [mbind res_bind] in E3 |- *. rewrite E3. cbn [mbind res_bind].
  destruct (relink_rels hf3 a b lr log) as [hf3'| | |]; try discriminate E4.
  cbn [mbind res_bind] in E4 |- *. rewrite E4. cbn [mbind res_bind].
  destruct (rk_read_if (A := relationship_t) hf4 g4 b log S4) as (hf5 & E5 & S5 & Sh5). cbn [rk_all rk_read rel_kind] in E5.
  fold se in E5. rewrite E5. cbn [mbind res_bind].
  destruct (rk_read_if (A := relationship_t) hf5 g4 a log S5) as (hf6 & E6 & S6 & Sh6). cbn [rk_all rk_read rel_kind] in E6.
  fold fe in E6. rewrite E6. cbn [mbind res_bind].
  set (hf7 := hf_log_when _ _ hf6). assert (S7 : holds_store hf7 g4) by (by apply holds_log).
  assert (Sh7 : same_shape hf hf7) by (apply shape_log; by rewrite Sh03, Sh4, Sh5).
  destruct (rk_exchange (A := relationship_t) hf7 g4 (st_rels g4) a b log) as (hf8 & m & E8 & Sh8 & S8 & M8).
  - unfold holds_map. by replace (rk_set g4 (st_rels g4)) with g4 by (by destruct g4).
  - by apply (In _ Sh7).
  - by apply (In _ Sh7).
  - done.
  - destruct fe eqn:Ef; [left; by apply bool_decide_eq_true in Ef|right]. destruct se eqn:Es; [by apply bool_decide_eq_true in Es|done].
  - intros x r Er. rewrite R4 in Er. apply fmap_Some in Er as (r0 & Er0 & ->).
    apply swap_links_fine; [done|done|]. by destruct (stored_fine' hf g G x r0 S R Er0).
  - cbn [rk_node rk_update rk_set_id rel_kind] in E8. fold fe se in E8.
    exists hf8, (rk_set g4 m). split; [exact E8|]. split; [exact S8|]. split; [by rewrite Sh7|].
    split; [|exact N4]. intros x. cbn [rk_set rel_kind st_rels]. etransitivity; [exact (M8 x)|]. rewrite R4. by destruct (st_rels g !! x).
Qed.
End SwapRels.
