(* ===== verification/Reordering.v ===== *)
(** [reorder_nodes] and [reorder_relationships] of src/order/reorder_records.c give every
    record the id that the order assigns to it.

    [placed] is the invariant of the loop over the new ids: the file stands for the graph with
    the renaming [s] of the exchanges done so far, and a record that is now at [y] still has
    to go to [m y] if [y] is in the remaining order [m], and is where it belongs otherwise. *)

From S2P Require Import Prelude Constants LinkedList HTable ArrayList DiskFile PhysicalDatabase Page PageCache PageCacheInv HeaderPage Records HeapFile HeapFileInv HeapRecords HeapStore Chains Incidence Traversal Queries Walks Searches Paths Orders RandomOrders Renaming RecordKinds SwapRecords SwapRels HeapProps.
From Stdlib Require Import ZArith Lia.
From stdpp Require Import base list option fin_maps fin_sets gmap.

#[local] Open Scope Z_scope.

(** ** Exchanges on the graph *)

Lemma swapped_size {A B} a b (h : Z -> A -> B) (m : gmap Z A) (m' : gmap Z B) :
  (forall x, m' !! swap_id a b x = h x <$> m !! x) -> size m' = size m.
Proof.
  intros E. apply Nat.le_antisymm.
  - transitivity (length (swap_id a b <$> (map_to_list m').*1)); [by rewrite !length_fmap, length_map_to_list|].
    apply keys_length.
    + apply NoDup_fmap_2; [apply _|]. apply NoDup_fst_map_to_list.
    + intros x (y & -> & ([k v] & -> & Hk%elem_of_map_to_list)%list_elem_of_fmap)%list_elem_of_fmap. cbn.
      specialize (E (swap_id a b k)). rewrite swap_id_twice, Hk in E. symmetry in E. apply fmap_Some in E as (w & -> & _). by eexists.
  - transitivity (length (swap_id a b <$> (map_to_list m).*1)); [by rewrite !length_fmap, length_map_to_list|].
    apply keys_length.
    + apply NoDup_fmap_2; [apply _|]. apply NoDup_fst_map_to_list.
    + intros x (y & -> & ([k v] & -> & Hk%elem_of_map_to_list)%list_elem_of_fmap)%list_elem_of_fmap. cbn.
      rewrite E, Hk. by eexists.
Qed.

Lemma renamed_ext node f f' G G' : (forall x, f x = f' x) -> renamed node f G G' -> renamed node f' G G'.
Proof.
  intros E. destruct node; cbn [renamed]; intros [A B C]; split.
  - intros n. by rewrite <- E.
  - intros x. rewrite B. destruct (g_edges G !! x) as [e|]; [|done]. cbn. unfold rename_ends. by rewrite !E.
  - intros n Hn. rewrite <- E. by apply C.
  - done.
  - intros x. by rewrite <- E.
  - intros n Hn. rewrite C by done. apply list_fmap_ext. intros i x _. apply E.
Qed.

Section Reorder.
Context `{RecordPages}.
Implicit Types (hf : heap_file) (G : graph) (log : bool) (a b x y : Z).

(** An exchange renames the graph. If the second of two nodes is missing, the first must have
    no relationships. *)
Lemma swap_graph hf G node a b log : graph_file hf G -> in_file (hf_cache hf) node a -> in_file (hf_cache hf) node b ->
  (node = true -> is_Some (g_labels G !! a) -> g_labels G !! b = None -> g_inc G a = []) ->
  exists hf' G', swap_records node hf a b log = Ok hf' /\ graph_file hf' G' /\ renamed node (swap_id a b) G G' /\ same_shape hf hf'.
Proof.
  intros [(g & S & R) Nn Nr] Ia Ib Hinc.
  assert (Fin : forall hf' g' G', holds_store hf' g' -> represents g' G' -> same_shape hf hf' ->
    size (st_nodes g') = size (st_nodes g) -> size (st_rels g') = size (st_rels g) -> graph_file hf' G').
  { intros hf' g' G' S' R' Sh Zn Zr. apply (graph_of_store hf' g' G' S' R').
    - by rewrite (sh_nodes _ _ Sh), Nn, Zn, <- (rg_labels _ _ R), map_size_fmap.
    - by rewrite (sh_rels _ _ Sh), Nr, Zr, <- (rg_edges _ _ R), map_size_fmap. }
  assert (Un : forall x, in_file (hf_cache hf) node x -> x <> UNINITIALIZED_LONG) by (intros x Ix; by apply (in_file_u64 hf g node x S)).
  destruct node; cbn [swap_records renamed] in *.
  - specialize (Hinc eq_refl). rewrite !(graph_node g G _ R), fmap_is_Some, fmap_None in Hinc.
    destruct (swap_nodes_ok hf g G a b log S R Ia Ib Hinc) as (hf' & g' & E & S' & Sh & Sw).
    destruct (swap_nodes_represents a b g g' G R Sw) as (G' & R' & Rn).
    exists hf', G'. split_and!; [done| |done|done]. apply (Fin hf' g' G' S' R' Sh).
    + eapply swapped_size. apply (ns_nodes _ _ _ _ Sw).
    + apply (swapped_size 0 0 (fun _ => swap_ends a b)). intros x. rewrite swap_id_same. apply (ns_rels _ _ _ _ Sw).
  - destruct (swap_relationships_ok hf g G a b log S R Ia Ib) as (hf' & g' & E & S' & Sh & Sw).
    destruct (swap_rels_represents a b g g' G (Un a Ia) (Un b Ib) R Sw) as (G' & R' & Rn).
    exists hf', G'. split_and!; [done| |done|done]. apply (Fin hf' g' G' S' R' Sh).
    + eapply (swapped_size 0 0 (fun _ k => _)). intros x. rewrite swap_id_same. apply (rs_nodes _ _ _ _ Sw).
    + eapply swapped_size. apply (rs_rels _ _ _ _ Sw).
Qed.

Lemma stored_in_file hf G node x : graph_file hf G -> x ∈ ids_of node G -> in_file (hf_cache hf) node x.
Proof.
  intros [(g & S & R) _ _] Hx. apply (has_in_file hf g node x S).
  destruct node; cbn [ids_of] in Hx; apply elem_of_dom in Hx;
    [rewrite (graph_has_node g G x R)|rewrite (graph_has_rel g G x R)]; by apply bool_decide_true.
Qed.

Lemma swap_stored hf G node a b log : graph_file hf G -> a ∈ ids_of node G -> b ∈ ids_of node G ->
  exists hf' G', swap_records node hf a b log = Ok hf' /\ graph_file hf' G' /\ renamed node (swap_id a b) G G' /\
    ids_of node G' = ids_of node G /\ same_shape hf hf'.
Proof.
  intros GF Ha Hb. destruct (swap_graph hf G node a b log GF) as (hf' & G' & E & GF' & Rn & Sh).
  - by apply (stored_in_file hf G).
  - by apply (stored_in_file hf G).
  - intros -> _ Eb. cbn [ids_of] in Hb. apply elem_of_dom in Hb. rewrite Eb in Hb. by destruct Hb.
  - exists hf', G'. split_and!; [done..| |done]. apply set_eq. intros x.
    rewrite <- (swap_id_twice a b x), <- (renamed_ids node _ G G' Rn), swap_id_twice. by apply swap_id_in.
Qed.

(** ** The tables *)

(** [inv] maps the new ids back. *)
Definition inverse_of (m inv : gmap Z Z) : Prop := forall x v, inv !! v = Some x <-> m !! x = Some v.

Lemma invert_each fuel (t : dict_ul_ul) it kvs inv : iterate fuel t it = Ok kvs ->
  invert fuel t it inv = for_each (fun kv d => dict_insert d kv.2 kv.1) kvs inv.
Proof.
  revert it kvs inv. induction fuel as [|fuel IH]; intros it kvs inv; cbn [iterate invert]; [done|].
  destruct (iterator_next t it) as [[[[k v]|] it']| | |]; cbn [mbind res_bind]; try done.
  - destruct (iterate fuel t it') as [kvs'| | |] eqn:E; try done. intros [= <-]. cbn [for_each fst snd].
    destruct (dict_insert inv v k); cbn [mbind res_bind]; [|done..]. by apply IH.
  - by intros [= <-].
Qed.

Lemma invert_ok (t : dict_ul_ul) seed D : wf fnv_hash_ul t -> order_on D (contents t) ->
  exists t', invert (S (Z.to_nat (htable_size t))) t iterator_create (d_ul_ul_create seed) = Ok t' /\
    wf fnv_hash_ul t' /\ inverse_of (contents t) (contents t').
Proof.
  intros W O. pose proof W as [Sh U].
  assert (Nd : NoDup (entries t).*1) by (by eapply entries_nodup).
  assert (Mm : forall k v, (k, v) ∈ entries t <-> contents t !! k = Some v).
  { intros k v. split; [by apply elem_of_list_to_map_1|by apply elem_of_list_to_map_2]. }
  rewrite (invert_each _ t iterator_create (entries t)); cycle 1.
  { rewrite (iterate_ok fnv_hash_ul); unfold remaining; simpl; rewrite ?drop_0; [done|done|lia|].
    unfold htable_size. rewrite U. change (length (entries t) < S (Z.to_nat (Z.of_nat (length (entries t)))))%nat. lia. }
  set (I := fun (ys : list (Z * Z)) (t' : dict_ul_ul) => wf fnv_hash_ul t' /\
    forall x v, contents t' !! v = Some x <-> (x, v) ∈ ys).
  destruct (for_each_inv I (fun kv d => dict_insert d kv.2 kv.1) (entries t) (d_ul_ul_create seed)) as (t' & E & W' & C').
  - destruct (dict_create_ok seed) as [W0 C0]. split; [done|]. intros x v. by rewrite C0, lookup_empty, elem_of_nil.
  - intros ys [k v] zs t0 Eq [W0 C0]. destruct (dict_insert_ok t0 v k W0) as (t1 & E1 & W1 & C1). exists t1. split; [exact E1|].
    split; [done|]. intros x u. rewrite C1, lookup_insert, elem_of_app, list_elem_of_singleton.
    destruct (decide (v = u)) as [<-|Hv].
    + split; [intros [= ->]; by right|]. intros [Hin|[= ->]]; [|done]. f_equal.
      apply (on_inj _ _ O k x v); apply Mm; rewrite Eq; set_solver.
    + rewrite C0. split; [by left|]. intros [?|[= -> ->]]; done.
  - exists t'. split; [exact E|]. split; [exact W'|]. intros x v. by rewrite C', Mm.
Qed.

Lemma dict_get_opt (t : dict_ul_ul) k : wf fnv_hash_ul t -> dict_get t k = Ok (contents t !! k).
Proof. intros [S _]. unfold dict_get. apply (ht_get_ok fnv_hash_ul t k S). Qed.
Lemma dict_remove_ok (t : dict_ul_ul) k v : wf fnv_hash_ul t -> contents t !! k = Some v ->
  exists t', dict_remove t k = Ok t' /\ wf fnv_hash_ul t' /\ contents t' = delete k (contents t).
Proof.
  intros W E. pose proof (ht_remove_ok fnv_hash_ul t k W) as R. rewrite E in R.
  destruct R as (t' & Er & W' & C & _). by exists t'.
Qed.

(** The remaining order after the record at [o] has gone to [p]. *)
Definition advance (o p : Z) (m : gmap Z Z) : gmap Z Z :=
  let m' := delete o m in
  match (if decide (o = p) then None else m' !! p) with
  | Some q => <[o := q]> (delete p m')
  | None => m'
  end.

Lemma advance_lookup D m o p x : order_on D m -> m !! o = Some p ->
  advance o p m !! x = if decide (x = p) then None else m !! swap_id o p x.
Proof.
  intros [Dm Rg Inj Sur] Eo. unfold advance. destruct (decide (o = p)) as [->|Hop].
  - rewrite swap_id_same, lookup_delete. destruct (decide (p = x)) as [->|]; [by rewrite decide_True|by rewrite decide_False].
  - rewrite lookup_delete_ne by done. destruct (proj2 (Dm p) (Rg o p Eo)) as [q Eq]. rewrite Eq.
    rewrite lookup_insert. destruct (decide (o = x)) as [<-|Hox].
    + rewrite decide_False by done. by rewrite swap_id_l.
    + rewrite lookup_delete. destruct (decide (p = x)) as [<-|Hpx]; [by rewrite decide_True|].
      rewrite decide_False by done. rewrite lookup_delete_ne by done. by rewrite swap_id_other by done.
Qed.

Lemma advance_order D m o p : order_on D m -> m !! o = Some p -> order_on (D ∖ {[p]}) (advance o p m).
Proof.
  intros O Eo. pose proof O as [Dm Rg Inj Sur]. assert (Hp : p ∈ D) by (by eapply Rg).
  assert (Ho : o ∈ D) by (apply Dm; by eexists).
  assert (L : forall x v, advance o p m !! x = Some v <-> x <> p /\ m !! swap_id o p x = Some v).
  { intros x v. rewrite (advance_lookup D) by done. case_decide; [split; [done|tauto]|tauto]. }
  assert (Np : forall x v, x <> p -> m !! swap_id o p x = Some v -> v <> p).
  { intros x v Hx E ->. assert (X : swap_id o p x = o) by (by eapply Inj).
    apply Hx, (swap_id_inj o p). by rewrite swap_id_r. }
  split.
  - intros x. rewrite elem_of_difference, elem_of_singleton. unfold is_Some. setoid_rewrite L. split.
    + intros (v & Hx & E). split; [|done]. apply (swap_id_in D o p x Ho Hp), Dm. by eexists.
    + intros [Hx Hxp]. apply (swap_id_in D o p x Ho Hp), Dm in Hx as [v E]. by exists v.
  - intros x v [Hx E]%L. rewrite elem_of_difference, elem_of_singleton. split; [by eapply Rg|by eapply Np].
  - intros x y v [_ Ex]%L [_ Ey]%L. eapply swap_id_inj, Inj; done.
  - intros v. rewrite elem_of_difference, elem_of_singleton. intros [Hv Hvp]. destruct (Sur v Hv) as [y Ey].
    exists (swap_id o p y). apply L. rewrite swap_id_twice. split; [|done]. intros X. apply Hvp.
    assert (y = o) as -> by (apply (swap_id_inj o p); by rewrite swap_id_l). congruence.
Qed.

(** ** The loop *)

Record placed (node : bool) (f : Z -> Z) (G : graph) (D : gset Z) (s : placing) : Prop := Placed {
  pd_file : exists G1 t, graph_file (pl_file s) G1 /\ renamed node t G G1 /\ ids_of node G1 = ids_of node G /\
    forall x, default (t x) (contents (pl_new s) !! t x) = f x;
  pd_new : wf fnv_hash_ul (pl_new s) /\ order_on D (contents (pl_new s));
  pd_inverse : wf fnv_hash_ul (pl_inverse s) /\ inverse_of (contents (pl_new s)) (contents (pl_inverse s));
  pd_ids : D ⊆ ids_of node G }.

Lemma advance_inverse D m inv o p : order_on D m -> inverse_of m inv -> m !! o = Some p ->
  inverse_of (advance o p m)
    (let inv' := delete p inv in
     match (if decide (o = p) then None else m !! p) with
     | Some q => <[q := o]> (delete q inv')
     | None => inv'
     end).
Proof.
  intros O In Eo. pose proof O as [Dm Rg Inj Sur]. intros x v.
  assert (L : advance o p m !! x = Some v <-> x <> p /\ m !! swap_id o p x = Some v).
  { rewrite (advance_lookup D) by done. case_decide; [split; [done|tauto]|tauto]. }
  rewrite L. cbv zeta. destruct (decide (o = p)) as [->|Hop].
  - rewrite swap_id_same, lookup_delete. destruct (decide (p = v)) as [<-|Hv].
    + split; [done|]. intros [Hx Ex]. by apply (Inj x p p) in Eo.
    + rewrite (In x v). split; [intros Ex; split; [congruence|done]|tauto].
  - destruct (proj2 (Dm p) (Rg o p Eo)) as [q Eq]. rewrite Eq, lookup_insert. destruct (decide (q = v)) as [<-|Hq].
    + split.
      * intros [= <-]. split; [done|]. by rewrite swap_id_l.
      * intros [Hx Ex]. f_equal. apply (swap_id_inj o p). rewrite swap_id_l. by eapply Inj.
    + rewrite !lookup_delete_ne by done. rewrite lookup_delete. destruct (decide (p = v)) as [<-|Hv].
      * split; [done|]. intros [Hx Ex]. exfalso. apply Hx, (swap_id_inj o p). rewrite swap_id_r. by eapply Inj.
      * rewrite (In x v). split.
        -- intros Ex. split; [congruence|]. by rewrite swap_id_other by congruence.
        -- intros [Hx Ex]. destruct (decide (x = o)) as [->|Hxo]; [rewrite swap_id_l in Ex; congruence|].
           by rewrite swap_id_other in Ex by done.
Qed.

Lemma inverse_size D m inv : order_on D m -> inverse_of m inv -> size m = size inv.
Proof.
  intros [Dm Rg Inj Sur] In. rewrite <- !(size_dom (D := gset Z)). f_equal. apply set_eq. intros x.
  rewrite !elem_of_dom. rewrite Dm. split.
  - intros [y Ey]%Sur. exists y. by apply In.
  - intros [y Ey%In]. by eapply Rg.
Qed.

Lemma place_record_ok node f G D s p log : placed node f G D s ->
  exists s', place_record node p log s = Ok s' /\ placed node f G (D ∖ {[p]}) s'.
Proof.
  intros [(G1 & t & GF & Rn & Ids & Ft) [Wn On] [Wi In] Sub]. unfold place_record.
  rewrite dict_get_opt by done. cbn [mbind res_bind].
  set (m := contents (pl_new s)) in *. set (inv := contents (pl_inverse s)) in *.
  destruct (inv !! p) as [o|] eqn:Ep; cycle 1.
  { exists s. split; [done|]. assert (Hp : p ∉ D).
    { intros [x Ex]%(on_sur _ _ On). apply In in Ex. congruence. }
    replace (D ∖ {[p]}) with D by set_solver. split; [by exists G1, t|done|done|done]. }
  pose proof (proj1 (In o p) Ep) as Eo.
  assert (Hp : p ∈ ids_of node G1) by (rewrite Ids; by apply Sub, (on_range _ _ On o)).
  assert (Ho : o ∈ ids_of node G1) by (rewrite Ids; apply Sub, (on_dom _ _ On); by eexists).
  destruct (swap_stored (pl_file s) G1 node o p log GF Ho Hp) as (hf' & G2 & -> & GF2 & Rn2 & Ids2 & _). cbn [mbind res_bind].
  destruct (dict_remove_ok (pl_new s) o p Wn Eo) as (n1 & -> & Wn1 & C1). cbn [mbind res_bind].
  destruct (dict_remove_ok (pl_inverse s) p o Wi Ep) as (i1 & -> & Wi1 & D1). cbn [mbind res_bind].
  pose proof (advance_order D m o p On Eo) as On'. pose proof (advance_inverse D m inv o p On In Eo) as In'. cbv zeta in In'.
  assert (Fin : forall n2 i2, wf fnv_hash_ul n2 -> contents n2 = advance o p m -> wf fnv_hash_ul i2 ->
      inverse_of (advance o p m) (contents i2) -> placed node f G (D ∖ {[p]}) (Placing hf' n2 i2)).
  { intros n2 i2 W2 C2 W2' I2. split; cbn [pl_file pl_new pl_inverse]; rewrite ?C2; [|by split|by split|set_solver].
    exists G2, (fun x => swap_id o p (t x)). split_and!; [done|by eapply renamed_trans|by rewrite Ids2|].
    intros x. rewrite (advance_lookup D), swap_id_twice by done. rewrite <- Ft. destruct (decide (swap_id o p (t x) = p)) as [Dp|Dp].
    - assert (t x = o) as -> by (apply (swap_id_inj o p); by rewrite swap_id_l). rewrite Eo. cbn. by rewrite swap_id_l.
    - destruct (m !! t x) as [w|] eqn:Ew; [done|]. cbn. apply swap_id_other; [congruence|].
      intros E. destruct (proj2 (on_dom _ _ On p)) as [q Eq]; [by eapply (on_range _ _ On)|]. congruence. }
  unfold advance in Fin. destruct (Z.eqb_spec o p) as [->|Hop].
  - rewrite decide_True in Fin, In' by done. eexists. split; [reflexivity|]. apply Fin; [done|done|done|]. unfold advance in In'.
    rewrite decide_True in In' by done. by rewrite D1.
  - rewrite decide_False in Fin, In' by done. rewrite lookup_delete_ne in Fin by done.
    destruct (proj2 (on_dom _ _ On p) (on_range _ _ On o p Eo)) as [q Eq]. rewrite Eq in Fin, In'.
    assert (Eq1 : contents n1 !! p = Some q) by (rewrite C1; by rewrite lookup_delete_ne).
    rewrite dict_get_ok, Eq1 by done. cbn [or_exit mbind res_bind].
    destruct (dict_remove_ok n1 p q Wn1 Eq1) as (n2 & -> & Wn2 & C2). cbn [mbind res_bind].
    assert (Hqp : p <> q) by (intros <-; apply Hop; by apply (on_inj _ _ On o p p)).
    assert (Eq2 : contents i1 !! q = Some p) by (rewrite D1, lookup_delete_ne by done; by apply In).
    destruct (dict_remove_ok i1 q p Wi1 Eq2) as (i2 & -> & Wi2 & D2). cbn [mbind res_bind].
    destruct (dict_insert_ok n2 o q Wn2) as (n3 & -> & Wn3 & C3). cbn [mbind res_bind].
    destruct (dict_insert_ok i2 q o Wi2) as (i3 & -> & Wi3 & D3). cbn [mbind res_bind].
    assert (Cn : contents n3 = <[o := q]> (delete p (delete o m))) by (by rewrite C3, C2, C1).
    assert (Ci : contents i3 = <[q := o]> (delete q (delete p inv))) by (by rewrite D3, D2, D1).
    unfold advance in In', On'. rewrite decide_False, lookup_delete_ne, Eq in In', On' by done.
    rewrite (proj2 (Z.eqb_eq (htable_size n3) (htable_size i3))), orb_true_r; cycle 1.
    { rewrite !table_size by done. rewrite Cn, Ci. f_equal. by eapply inverse_size. }
    eexists. split; [reflexivity|]. apply Fin; [done|done|done|]. by rewrite Ci.
Qed.

(** The ids that the loop visits: it leaves a page when the last byte of the next record
    would be at slot 255 or above, which skips slot 255 for nodes. *)
Definition per_page (node : bool) : Z := if node then 255 else 64.
Definition visited_id (node : bool) (i : Z) : Z :=
  256 * (i / per_page node) + num_slots node * (i mod per_page node).

Lemma next_visited node i : 0 <= i ->
  if UCHAR_MAX <=? num_slots node * (i mod per_page node) + num_slots node
  then (i + 1) / per_page node = i / per_page node + 1 /\ (i + 1) mod per_page node = 0
  else (i + 1) / per_page node = i / per_page node /\ (i + 1) mod per_page node = i mod per_page node + 1.
Proof.
  intros Hi. unfold UCHAR_MAX. destruct node; cbn [per_page].
  - change (num_slots true) with 1. destruct (Z.leb_spec 255 (1 * (i mod 255) + 1)); lia.
  - change (num_slots false) with 4. destruct (Z.leb_spec 255 (4 * (i mod 64) + 4)); lia.
Qed.

Lemma visited_small node i : 0 <= i < 2 ^ 59 -> 0 <= i / per_page node < 2 ^ 56 /\
  0 <= num_slots node * (i mod per_page node) < 256.
Proof.
  intros Hi. destruct node; cbn [per_page].
  - change (num_slots true) with 1. lia.
  - change (num_slots false) with 4. lia.
Qed.

Lemma place_loop_ok node f G log n : forall i D s, 0 <= i -> i + Z.of_nat n < 2 ^ 59 -> placed node f G D s ->
  exists s' D', place_loop n node (i / per_page node) (num_slots node * (i mod per_page node)) log s = Ok s' /\
    placed node f G D' s' /\ forall x, x ∈ D' -> x ∈ D /\ forall j, i <= j < i + Z.of_nat n -> x <> visited_id node j.
Proof.
  induction n as [|n IH]; intros i D s Hi Hn Pl; cbn [place_loop].
  { exists s, D. split_and!; [done|done|]. intros x Hx. split; [done|]. lia. }
  destruct (visited_small node i ltac:(lia)) as [Hp Hs]. rewrite id_of_eq by done. fold (visited_id node i).
  destruct (place_record_ok node f G D s (visited_id node i) log Pl) as (s1 & -> & Pl1). cbn [mbind res_bind].
  destruct (pd_new _ _ _ _ _ Pl1) as [W1 O1].
  destruct (Z.eqb_spec (htable_size (pl_new s1)) 0) as [E0|E0].
  { exists s1, (D ∖ {[visited_id node i]}). split_and!; [done|done|]. intros x Hx. exfalso.
    apply (on_dom _ _ O1) in Hx as [v Hv]. rewrite table_size in E0 by done.
    assert (size (contents (pl_new s1)) = 0%nat) as Z0%map_size_empty_inv by lia.
    rewrite Z0 in Hv. by apply lookup_empty_Some in Hv. }
  pose proof (next_visited node i Hi) as Nx.
  assert (Rec : exists s' D', place_loop n node ((i + 1) / per_page node) (num_slots node * ((i + 1) mod per_page node)) log s1 = Ok s' /\
    placed node f G D' s' /\ forall x, x ∈ D' -> x ∈ D /\ forall j, i <= j < i + Z.of_nat (S n) -> x <> visited_id node j).
  { destruct (IH (i + 1) _ s1 ltac:(lia) ltac:(lia) Pl1) as (s' & D' & E & Pl' & Hd). exists s', D'. split_and!; [done|done|].
    intros x Hx. destruct (Hd x Hx) as [Hx1 Hj]. split; [set_solver|]. intros j Hj'.
    destruct (decide (j = i)) as [->|]; [set_solver|apply Hj; lia]. }
  destruct (UCHAR_MAX <=? num_slots node * (i mod per_page node) + num_slots node); destruct Nx as [N1 N2]; rewrite N1, N2 in Rec.
  - rewrite u64_small by (unfold is_u64; lia). by rewrite Z.mul_0_r in Rec.
  - by replace (num_slots node * (i mod per_page node) + num_slots node)
      with (num_slots node * (i mod per_page node + 1)) by lia.
Qed.

(** An order whose ids are all visited, but perhaps one, is carried out. *)
Lemma reorder_ok node hf G (t : dict_ul_ul) D log seed : graph_file hf G -> wf fnv_hash_ul t -> order_on D (contents t) ->
  D ⊆ ids_of node G ->
  (forall x y, x ∈ D -> y ∈ D -> (forall i, 0 <= i < Z.of_nat (size (ids_of node G)) -> x <> visited_id node i) ->
     (forall i, 0 <= i < Z.of_nat (size (ids_of node G)) -> y <> visited_id node i) -> x = y) ->
  exists hf' t' G', reorder node hf t log seed = Ok (hf', t') /\ graph_file hf' G' /\
    renamed node (fun x => default x (contents t !! x)) G G'.
Proof.
  intros GF W O Sub Vis. unfold reorder. destruct (invert_ok t seed D W O) as (inv & -> & Wi & In). cbn [mbind res_bind].
  pose proof GF as [(g & S & R) Nn Nr]. destruct (graph_sizes hf g G S R) as [Bn Br].
  assert (Cnt : (if node then n_nodes hf else n_rels hf) = Z.of_nat (size (ids_of node G)) /\
    Z.of_nat (size (ids_of node G)) < 2 ^ 59).
  { destruct node; cbn [ids_of]; rewrite size_dom; done. }
  destruct Cnt as [-> B]. rewrite Nat2Z.id. set (n := size (ids_of node G)) in *.
  set (f := fun x => default x (contents t !! x)).
  destruct (place_loop_ok node f G log n 0 D (Placing hf t inv)) as (s & D' & E & Pl & Hd); [lia|lia| |].
  { split; cbn [pl_file pl_new pl_inverse]; [|done|done|done]. exists G, (fun x => x). split_and!; [done|apply renamed_id|done|done]. }
  assert (Z0 : 0 / per_page node = 0 /\ num_slots node * (0 mod per_page node) = 0) by (destruct node; done).
  destruct Z0 as [Z1 Z2]. rewrite Z1, Z2 in E. rewrite E. cbn [mbind res_bind].
  destruct Pl as [(G1 & u & GF1 & Rn & _ & Ft) [Wn On] _ _].
  exists (pl_file s), (pl_new s), G1. split_and!; [done|done|]. eapply renamed_ext; [|exact Rn].
  intros x. change (u x = f x). rewrite <- Ft. destruct (contents (pl_new s) !! u x) as [v|] eqn:Ev; [|done]. cbn.
  assert (Hu : u x ∈ D') by (apply (on_dom _ _ On); by eexists). pose proof (on_range _ _ On _ _ Ev) as Hv.
  destruct (Hd _ Hu) as [Du Nu], (Hd _ Hv) as [Dv Nv]. apply Vis; [done|done|..]; intros i Hi; [apply Nu|apply Nv]; lia.
Qed.
End Reorder.
