(* ===== verification/SwapPages.v ===== *)
(** [swap_record_pages]: the exchange of all records of two pages, slot by slot.

    The exchanges compose to the permutation [page_swap] of the ids ([page_swap_step]), so
    that the graph is renamed by it ([swap_pages_ok]). *)

From S2P Require Import Prelude Constants DiskFile PhysicalDatabase Page PageCache PageCacheInv HeaderPage Records HeapFile HeapFileInv HeapRecords HeapStore Chains Incidence Orders RandomOrders Renaming Reordering.
From Stdlib Require Import ZArith Lia.
From stdpp Require Import base list option fin_maps gmap.

#[local] Open Scope Z_scope.

(** The ids of the records in slots below [bound] of two pages change pages. *)
Definition page_swap (node : bool) (fst snd bound x : Z) : Z :=
  if decide (x mod num_slots node = 0 /\ x mod 256 < bound) then
    if x / 256 =? fst then x + 256 * (snd - fst)
    else if x / 256 =? snd then x + 256 * (fst - snd)
    else x
  else x.

Lemma page_swap_step node fst snd k x : fst <> snd -> 0 <= k -> num_slots node * k < 256 ->
  swap_id (256 * fst + num_slots node * k) (256 * snd + num_slots node * k) (page_swap node fst snd (num_slots node * k) x) =
  page_swap node fst snd (num_slots node * (k + 1)) x.
Proof.
  intros Hd Hk Hb. unfold page_swap, swap_id.
  assert (Nn : num_slots node = 1 \/ num_slots node = 4) by (destruct node; vm_compute; auto).
  destruct Nn as [Nn|Nn]; rewrite Nn in *;
    (destruct (decide _) as [[A1 A2]|A], (decide _) as [[B1 B2]|B]; Z.div_mod_to_equations;
     repeat match goal with |- context [?a =? ?b] => destruct (Z.eqb_spec a b) end; lia).
Qed.

Lemma page_swap_none node fst snd x : page_swap node fst snd 0 x = x.
Proof. unfold page_swap. rewrite decide_False; [done|]. pose proof (Z.mod_pos_bound x 256). lia. Qed.

Section SwapPages.
Context `{RecordPages}.
Implicit Types (hf : heap_file) (G : graph) (log : bool).

Lemma page_slots node : (SLOTS_PER_PAGE + num_slots node - 1) / num_slots node = SLOTS_PER_PAGE / num_slots node /\
  num_slots node * (SLOTS_PER_PAGE / num_slots node) = SLOTS_PER_PAGE.
Proof.
  destruct rp_mult as [k ->]. assert (Nn : num_slots node = 1 \/ num_slots node = 4) by (destruct node; vm_compute; auto).
  destruct Nn as [-> | ->]; Z.div_mod_to_equations; lia.
Qed.

Lemma slot_in_file hf node p i : 0 <= p < pages_of hf node -> 0 <= i -> num_slots node * i < SLOTS_PER_PAGE ->
  in_file (hf_cache hf) node (256 * p + num_slots node * i).
Proof.
  intros Hp Hi Hs. pose proof rp_max.
  assert (Nn : num_slots node = 1 \/ num_slots node = 4) by (destruct node; vm_compute; auto).
  assert (0 <= num_slots node * i) by (destruct Nn as [-> | ->]; lia).
  assert (E : (256 * p + num_slots node * i) / 256 = p /\ (256 * p + num_slots node * i) mod 256 = num_slots node * i).
  { split; symmetry; [apply (Z.div_unique _ 256 _ (num_slots node * i))|apply (Z.mod_unique _ 256 p)]; lia. }
  destruct E as [E1 E2]. unfold in_file, valid. rewrite E1, E2. split_and!; [lia|lia| |apply Hp].
  destruct Nn as [-> | ->]; [apply Z.mod_1_r|]. replace (256 * p + 4 * i) with ((64 * p + i) * 4) by lia. by apply Z.mod_mul.
Qed.

Lemma swap_pages_ok hf G node fst snd log : graph_file hf G -> 0 <= fst < pages_of hf node -> 0 <= snd < pages_of hf node ->
  (node = true -> forall i, 0 <= i < SLOTS_PER_PAGE -> is_Some (g_labels G !! (256 * fst + i)) ->
     g_labels G !! (256 * snd + i) = None -> g_inc G (256 * fst + i) = []) ->
  exists hf' G', swap_record_pages hf fst snd (ft_of node) log = Ok hf' /\ graph_file hf' G' /\
    renamed node (page_swap node fst snd SLOTS_PER_PAGE) G G'.
Proof.
  intros GF Hf Hs Hinc. unfold swap_record_pages. pose proof GF as [(g & S & R) _ _]. pose proof (pages_small hf g node S) as Ps.
  pose proof (n_pages_bound (hf_cache hf) records (ft_of node) (quiet _ _ S)) as Mx.
  change (n_pages (hf_cache hf) records (ft_of node)) with (pages_of hf node) in Mx.
  rewrite (proj2 (Z.leb_gt MAX_PAGE_NO fst)), (proj2 (Z.ltb_ge MAX_PAGE_NO snd)) by lia. cbn [orb].
  destruct (Z.eqb_spec fst snd) as [<-|Hd].
  { exists hf, G. split; [done|]. split; [done|]. eapply renamed_ext; [|apply renamed_id]. intros x. unfold page_swap.
    case_decide; [|done]. destruct (x / 256 =? fst); lia. }
  replace (bool_decide (ft_of node = node_ft)) with node by (by destruct node). change (if node then NUM_SLOTS_PER_NODE else NUM_SLOTS_PER_REL) with (num_slots node).
  destruct (page_slots node) as [-> Sl]. set (n := SLOTS_PER_PAGE / num_slots node) in *.
  assert (Nn : num_slots node = 1 \/ num_slots node = 4) by (destruct node; vm_compute; auto). pose proof rp_max. pose proof rp_min.
  assert (Hn : 0 <= n) by (apply Z.div_pos; lia).
  set (I := fun k hf' => exists G', graph_file hf' G' /\ renamed node (page_swap node fst snd (num_slots node * k)) G G' /\ same_shape hf hf').
  match goal with |- context [for_loop ?m 0 ?b hf] => destruct (for_loop_inv I m 0 b hf) as (hf' & -> & G' & GF' & Rn & _) end.
  - exists G. split; [done|]. split; [|done]. eapply renamed_ext; [|apply renamed_id]. intros x. by rewrite Z.mul_0_r, page_swap_none.
  - intros k hf' Hk (G' & GF' & Rn & Sh). cbv beta zeta. rewrite Z2Nat.id in Hk by done.
    assert (Hi : num_slots node * k < SLOTS_PER_PAGE) by (rewrite <- Sl; apply Z.mul_lt_mono_pos_l; lia).
    rewrite !(Z.mul_comm k). assert (0 <= num_slots node * k) by (destruct Nn as [-> | ->]; lia).
    rewrite !id_of_eq by lia.
    assert (Pg : pages_of hf' node = pages_of hf node) by exact (sh_pages _ _ Sh records (ft_of node)).
    destruct (swap_graph hf' G' node (256 * fst + num_slots node * k) (256 * snd + num_slots node * k) log GF') as (hf2 & G2 & E2 & GF2 & Rn2 & Sh2).
    + apply slot_in_file; rewrite ?Pg; lia.
    + apply slot_in_file; rewrite ?Pg; lia.
    + intros -> Ha Hb. cbn [renamed] in Rn.
      assert (Fix : forall p, page_swap true fst snd (num_slots true * k) (256 * p + num_slots true * k) = 256 * p + num_slots true * k).
      { intros p. unfold page_swap. rewrite decide_False; [done|]. intros [_ C]. revert C.
        rewrite (Z.add_comm (256 * p)), (Z.mul_comm 256), Z.mod_add, Z.mod_small by lia. lia. }
      pose proof (nr_labels _ _ _ Rn (256 * fst + num_slots true * k)) as La. pose proof (nr_labels _ _ _ Rn (256 * snd + num_slots true * k)) as Lb.
      rewrite Fix in La, Lb. rewrite La in Ha. rewrite Lb in Hb.
      pose proof (nr_inc _ _ _ Rn _ Ha) as Ic. rewrite Fix in Ic. rewrite Ic. apply Hinc; [done|lia|done|done].
    + exists hf2. split; [exact E2|]. exists G2. split; [done|]. split; [|by rewrite Sh].
      eapply renamed_ext; [|by eapply renamed_trans]. intros x. cbv beta. apply page_swap_step; [done|lia|lia].
  - rewrite Z2Nat.id, Z.add_0_l, Sl in Rn by done. cbn [mbind res_bind]. eexists _, G'. split; [reflexivity|]. split; [|done].
    destruct GF' as [(g' & S' & R') Nn' Nr']. split; [|done|done]. exists g'. split; [by apply holds_log|done].
Qed.
End SwapPages.
