(* ===== verification/IncidenceSort.v ===== *)
(** [sort_incidence_list] of src/order/reorder_records.c relinks the relationships of every
    node in the order of their ids, beginning with the one the node's record points to.

    The ids are collected in a set and sorted ([sort_ids_ok]); [link_sorted_ok] says what the
    writes do to the records, and [relinked_chain] that the records are then a chain with the
    sorted ids.  A loop has links on both sides of which only one is written, so the graph must
    not have any. *)

From S2P Require Import Prelude Constants LinkedList HTable HSet ArrayList DiskFile PhysicalDatabase Page PageCache PageCacheInv HeaderPage Records HeapFile HeapFileInv HeapRecords HeapStore Chains Incidence HeapDelete Traversal Queries Walks Orders RandomOrders Renaming RecordKinds SwapRecords.
From Stdlib Require Import ZArith Lia Sorting.Sorted.
From stdpp Require Import base list option fin_maps fin_sets gmap sorting.

#[local] Open Scope Z_scope.

(** ** Sorted ids *)

Lemma ul_le_le a b : ul_le a b <-> a <= b.
Proof. unfold ul_le, ul_cmp. destruct (Z.ltb_spec a b), (Z.eqb_spec a b); lia. Qed.
#[export] Instance ul_le_trans : Transitive ul_le.
Proof. intros a b c. rewrite !ul_le_le. lia. Qed.
#[export] Instance ul_le_total : Total ul_le.
Proof. intros a b. rewrite !ul_le_le. lia. Qed.

(** The loop that reads the set writes its elements to the array. *)
Lemma set_elements_ok (s : hset Z) : forall fuel it i arr es, iterate fuel (to_table s) (to_iterator it) = Ok es ->
  (i + length es <= length arr)%nat ->
  set_elements fuel s it i arr = Ok (take i arr ++ es.*1 ++ drop (i + length es) arr).
Proof.
  induction fuel as [|fuel IH]; intros it i arr es; cbn [iterate set_elements]; [done|].
  rewrite set_iterator_next_sim. destruct (set_iterator_next s it) as [[[e|] it']| | |]; cbn [mbind res_bind option_map]; try done.
  - destruct (iterate fuel (to_table s) (to_iterator it')) as [es'| | |] eqn:E; cbn [mbind res_bind]; try done.
    intros [= <-] Hl. cbn in Hl. unfold mem_set. rewrite (proj2 (Nat.ltb_lt _ _)) by lia. cbn [mbind res_bind].
    rewrite (IH it' (S i) (<[i:=e]> arr) es' E) by (rewrite length_insert; lia). f_equal. cbn.
    rewrite (take_S_r _ _ e) by (apply list_lookup_insert_eq; lia). rewrite take_insert_ge by lia.
    rewrite drop_insert_lt by lia. rewrite <- app_assoc. cbn. do 4 f_equal. lia.
  - intros [= <-] Hl. cbn. by rewrite Nat.add_0_r, take_drop.
Qed.

Lemma StronglySorted_lt (ids : list Z) : StronglySorted ul_le ids -> NoDup ids -> StronglySorted Z.lt ids.
Proof.
  induction 1 as [|x ids S IH F]; [constructor|]. intros [Hx Nd]%NoDup_cons. constructor; [by apply IH|].
  apply Forall_forall. intros y Hy. rewrite Forall_forall in F. pose proof (proj1 (ul_le_le x y) (F y Hy)).
  assert (x <> y) by (intros ->; done). lia.
Qed.

Lemma sort_ids_ok l (rs : list relationship_t) seed : al_rep l rs -> NoDup (r_id <$> rs) ->
  exists ids, sort_ids l seed = Ok ids /\ ids ≡ₚ (r_id <$> rs) /\ StronglySorted Z.lt ids.
Proof.
  intros Al Nd. unfold sort_ids.
  rewrite (for_array l rs (fun rel s => set_insert fnv_hash_ul s_ul_cbs 0 s (r_id rel)) (set_create 0 seed) Al).
  set (I := fun (ys : list relationship_t) (s : hset Z) => set_ok fnv_hash_ul s /\
    (forall x, x ∈ members s <-> x ∈ r_id <$> ys) /\ HSet.set_size s = Z.of_nat (length ys)).
  destruct (for_each_inv I (fun rel s => set_insert fnv_hash_ul s_ul_cbs 0 s (r_id rel)) rs (set_create 0 seed)) as (s & E & So & M & Sz).
  - split_and!; [apply set_create_ok| |done]. intros x. split; [|by intros ?%elem_of_nil].
    intros Hx%members_elem. replace (contents (to_table (set_create 0 seed))) with (∅ : gmap Z unit) in Hx by reflexivity.
    rewrite lookup_empty in Hx. by destruct Hx.
  - intros ys r zs s0 Eq (S0 & M0 & Z0). rewrite Eq, fmap_app, fmap_cons in Nd.
    apply NoDup_app in Nd as (_ & Nd & _). specialize (Nd (r_id r)).
    destruct (set_insert_ok fnv_hash_ul s_ul_cbs 0 s0 (r_id r) eq_refl S0) as (s1 & E1 & S1 & M1 & Z1).
    exists s1. split; [exact E1|]. split; [exact S1|]. split.
    + intros x. rewrite M1, elem_of_union, elem_of_singleton, M0, fmap_app, elem_of_app. cbn. rewrite list_elem_of_singleton. tauto.
    + rewrite Z1, Z0, length_app, decide_False; [simpl; lia|]. intros Hx%M0. apply Nd; [done|left].
  - rewrite E. cbn [mbind res_bind].
    assert (Ne : NoDup (entries (to_table s)).*1) by (by eapply entries_nodup).
    assert (Me : (entries (to_table s)).*1 ≡ₚ r_id <$> rs).
    { apply NoDup_Permutation; [done|done|]. intros x. rewrite <- M, members_elem. split.
      - intros ([k u] & -> & Hk)%list_elem_of_fmap. exists u. by apply elem_of_list_to_map_1.
      - intros [u Hu]. apply list_elem_of_fmap. exists (x, u). split; [done|]. by apply elem_of_list_to_map_2. }
    assert (Le : length (entries (to_table s)) = length rs).
    { rewrite <- (length_fmap fst), Me. apply length_fmap. }
    rewrite Sz, Nat2Z.id.
    rewrite (set_elements_ok s (S (length rs)) set_iterator_create 0 _ (entries (to_table s))); cycle 1.
    { rewrite (iterate_ok fnv_hash_ul); unfold remaining; simpl; rewrite ?drop_0; [done|done|lia|].
      change (length (entries (to_table s)) < S (length rs))%nat. lia. }
    { rewrite length_replicate. lia. }
    cbn [mbind res_bind take]. rewrite drop_ge by (rewrite length_replicate; lia). rewrite app_nil_r. cbn [app].
    eexists. split; [reflexivity|]. split; [by rewrite merge_sort_Permutation|].
    apply StronglySorted_lt; [|by rewrite merge_sort_Permutation, Me]. apply (StronglySorted_merge_sort ul_le).
Qed.

(** ** The writes *)

Lemma links_lookup l e j : links l e !! j = (fun x => (x, default e (l !! S j))) <$> l !! j.
Proof.
  revert j. induction l as [|x l IH]; intros j; [done|]. destruct j as [|j]; cbn; [|apply IH]. by destruct l.
Qed.

(** The neighbours of position [k] in a circular list. *)
Definition pred_at (s : list Z) (k : nat) : Z := default 0 (s !! (if decide (k = 0%nat) then length s - 1 else k - 1)%nat).
Definition succ_at (s : list Z) (k : nat) : Z := default 0 (s !! (if decide (S k = length s) then 0 else S k)%nat).

Lemma cycle_at s x y : (x, y) ∈ cycle s -> exists k, s !! k = Some x /\ succ_at s k = y.
Proof.
  intros (k & E)%list_elem_of_lookup. unfold cycle in E. rewrite links_lookup in E.
  apply fmap_Some in E as (x' & Ex & [= <- ->]). exists k. split; [done|]. unfold succ_at.
  pose proof (lookup_lt_Some _ _ _ Ex) as Hk. case_decide as D.
  - rewrite (lookup_ge_None_2 s (S k)) by lia. by destruct s.
  - destruct (lookup_lt_is_Some_2 s (S k)) as [z ->]; [lia|done].
Qed.

Lemma cycle_at_pred s x y : (x, y) ∈ cycle s -> exists k, s !! k = Some y /\ pred_at s k = x.
Proof.
  intros (k & Ex & Ey)%cycle_at. pose proof (lookup_lt_Some _ _ _ Ex) as Hk. unfold succ_at in Ey. unfold pred_at.
  case_decide as D.
  - exists 0%nat. rewrite decide_True by done. destruct (lookup_lt_is_Some_2 s 0) as [z Ez]; [lia|]. rewrite Ez in Ey |- *.
    cbn in Ey. subst z. split; [done|]. replace (length s - 1)%nat with k by lia. by rewrite Ex.
  - exists (S k). rewrite decide_False by lia. destruct (lookup_lt_is_Some_2 s (S k)) as [z Ez]; [lia|]. rewrite Ez in Ey |- *.
    cbn in Ey. subst z. split; [done|]. replace (S k - 1)%nat with k by lia. by rewrite Ex.
Qed.

(** The records of the first [k] ids have their new links. *)
Record linked_upto (n : Z) (s : list Z) (k : nat) (m m' : gmap Z relationship_t) : Prop := LinkedUpto {
  lu_in : forall j x, s !! j = Some x ->
    m' !! x = if decide (j < k)%nat then link_between n (pred_at s j) (succ_at s j) <$> m !! x else m !! x;
  lu_out : forall x, x ∉ s -> m' !! x = m !! x }.

Section Links.
Context `{RecordPages}.
Implicit Types (hf : heap_file) (g : store) (G : graph) (log : bool) (r : relationship_t) (n x y : Z).

Lemma link_between_fine n p q r : is_u64 p -> is_u64 q -> fine r -> fine (link_between n p q r).
Proof.
  intros Up Uq F. pose proof (fine_fields r F) as (A & B & C & D). unfold link_between.
  case_match; unfold set_next_source, set_prev_source, set_next_target, set_prev_target; cbn; by apply (fine_links r).
Qed.

Section Write.
Context (g : store) (G : graph) (n : Z) (s : list Z) (log : bool).
Hypothesis R : represents g G.
Hypothesis Nd : NoDup s.
Hypothesis Stored : forall x, x ∈ s -> is_Some (st_rels g !! x).

Lemma link_at_ok hf m (k : nat) x (pi ni : nat) :
  holds_store hf (Store (st_nodes g) m) -> linked_upto n s k (st_rels g) m -> s !! k = Some x ->
  (forall x r, st_rels g !! x = Some r -> fine r /\ r_id r = x) ->
  (forall x, x ∈ s -> is_u64 x) ->
  s !! pi = Some (pred_at s k) -> s !! ni = Some (succ_at s k) ->
  exists hf' m', link_at hf n s (Z.of_nat pi) (Z.of_nat k) (Z.of_nat ni) log = Ok hf' /\ same_shape hf hf' /\
    holds_store hf' (Store (st_nodes g) m') /\ linked_upto n s (S k) (st_rels g) m'.
Proof.
  intros S [Li Lo] Ex Fi U Ep En. unfold link_at. rewrite !Nat2Z.id, Ex, Ep, En. cbn [deref mbind res_bind].
  destruct (Stored x) as [r Er]; [by eapply list_elem_of_lookup_2|].
  assert (Em : m !! x = Some r) by (rewrite (Li k x Ex), decide_False by lia; done).
  destruct (read_rel_ok hf _ x r log S Em) as (hf1 & E1 & S1 & Sh1). rewrite E1. cbn [mbind res_bind].
  destruct (Fi x r Er) as [Fr Ei].
  destruct (link_between_fine n (pred_at s k) (succ_at s k) r) as [Rr W];
    [apply U; by eapply list_elem_of_lookup_2|apply U; by eapply list_elem_of_lookup_2|done|].
  assert (Id : r_id (link_between n (pred_at s k) (succ_at s k) r) = x) by (rewrite <- Ei; unfold link_between; by case_match).
  destruct (update_rel_ok hf1 _ (link_between n (pred_at s k) (succ_at s k) r) log S1) as (hf2 & E2 & S2 & Sh2);
    [rewrite Id; by eapply has_rel|done|done|].
  rewrite E2. eexists hf2, _. split; [done|]. split; [by rewrite Sh1|]. rewrite Id in S2. split; [exact S2|]. cbn [st_rels]. split.
  - intros j y Ey. rewrite lookup_partial_alter. destruct (decide (x = y)) as [<-|Hne].
    + assert (j = k) as -> by (by eapply NoDup_lookup). rewrite decide_True by lia. by rewrite Er.
    + rewrite (Li j y Ey). apply decide_ext. split; [lia|]. intros Hj. destruct (decide (j = k)) as [->|]; [congruence|lia].
  - intros y Hy. rewrite lookup_partial_alter_ne; [by apply Lo|]. intros ->. apply Hy. by eapply list_elem_of_lookup_2.
Qed.

Lemma link_sorted_ok hf : holds_store hf g -> (2 <= length s)%nat ->
  exists hf' m, link_sorted hf n s (Z.of_nat (length s)) log = Ok hf' /\ same_shape hf hf' /\
    holds_store hf' (Store (st_nodes g) m) /\ linked_upto n s (length s) (st_rels g) m.
Proof.
  intros S Hl. set (N := length s) in *.
  assert (Fi : forall x r, st_rels g !! x = Some r -> fine r /\ r_id r = x) by (intros x r Er; by apply (stored_fine' hf g G)).
  assert (U : forall x, x ∈ s -> is_u64 x).
  { intros x [r Er]%Stored. by apply (in_file_u64 hf g false x S), (has_in_file hf g false x S), (has_rel g x r). }
  assert (At : forall k, (k < N)%nat -> exists x, s !! k = Some x) by (intros k Hk; by apply lookup_lt_is_Some_2).
  assert (Pr : forall k, (k < N)%nat -> s !! (if decide (k = 0%nat) then N - 1 else k - 1)%nat = Some (pred_at s k)).
  { intros k Hk. unfold pred_at. fold N. set (j := if decide (k = 0%nat) then _ else _). destruct (At j) as [z ->]; [|done].
    unfold j. case_decide; lia. }
  assert (Sc : forall k, (k < N)%nat -> s !! (if decide (Datatypes.S k = N) then 0 else Datatypes.S k)%nat = Some (succ_at s k)).
  { intros k Hk. unfold succ_at. fold N. set (j := if decide (Datatypes.S k = N) then _ else _). destruct (At j) as [z ->]; [|done].
    unfold j. case_decide; lia. }
  set (I := fun (i : Z) hf' => exists m, same_shape hf hf' /\ holds_store hf' (Store (st_nodes g) m) /\ linked_upto n s (Z.to_nat i) (st_rels g) m).
  assert (Step : forall (k pi ni : nat) hf0, (k < N)%nat -> I (Z.of_nat k) hf0 ->
    pi = (if decide (k = 0%nat) then N - 1 else k - 1)%nat -> ni = (if decide (Datatypes.S k = N) then 0 else Datatypes.S k)%nat ->
    exists hf1, link_at hf0 n s (Z.of_nat pi) (Z.of_nat k) (Z.of_nat ni) log = Ok hf1 /\ I (Z.of_nat k + 1) hf1).
  { intros k pi ni hf0 Hk (m & Sh0 & S0 & L0) -> ->. rewrite Nat2Z.id in L0. destruct (At k Hk) as [x Ex].
    destruct (link_at_ok hf0 m k x _ _ S0 L0 Ex Fi U (Pr k Hk) (Sc k Hk)) as (hf1 & m1 & E1 & Sh1 & S1 & L1).
    exists hf1. split; [exact E1|]. exists m1. split; [by rewrite Sh0|]. split; [done|].
    by replace (Z.to_nat (Z.of_nat k + 1)) with (Datatypes.S k) by lia. }
  assert (I0 : I (Z.of_nat 0) hf).
  { exists (st_rels g). split; [done|]. split; [by destruct g|]. split; [|done]. intros j x _. by rewrite decide_False by (simpl; lia). }
  unfold link_sorted. destruct (Step 0%nat (N - 1)%nat 1%nat hf ltac:(lia) I0 ltac:(done)) as (hf1 & E1 & I1).
  { by rewrite decide_False by lia. }
  replace (Z.of_nat N - 1) with (Z.of_nat (N - 1)) by lia. change (Z.of_nat 0) with 0 in E1. change (Z.of_nat 1) with 1 in E1.
  rewrite E1. cbn [mbind res_bind].
  destruct (for_loop_inv I (Z.to_nat (Z.of_nat N - 2)) 1 (fun j hf => link_at hf n s (j - 1) j (j + 1) log) hf1) as (hf2 & E2 & I2).
  { exact I1. }
  { intros j hf0 Hj Ij. destruct (Step (Z.to_nat j) (Z.to_nat j - 1)%nat (Datatypes.S (Z.to_nat j)) hf0) as (hf2 & E2 & I2).
    - lia.
    - by rewrite Z2Nat.id by lia.
    - by rewrite decide_False by lia.
    - by rewrite decide_False by lia.
    - replace (Z.of_nat (Z.to_nat j - 1)) with (j - 1) in E2 by lia. replace (Z.of_nat (Datatypes.S (Z.to_nat j))) with (j + 1) in E2 by lia.
      rewrite Z2Nat.id in E2, I2 by lia. by exists hf2. }
  rewrite E2. cbn [mbind res_bind].
  destruct (Step (N - 1)%nat (N - 2)%nat 0%nat hf2) as (hf3 & E3 & m & Sh3 & S3 & L3).
  - lia.
  - by replace (Z.of_nat (N - 1)) with (1 + Z.of_nat (Z.to_nat (Z.of_nat N - 2))) by lia.
  - rewrite decide_False by lia. lia.
  - by rewrite decide_True by lia.
  - replace (Z.of_nat (N - 2)) with (Z.of_nat N - 2) in E3 by lia. change (Z.of_nat 0) with 0 in E3. exists hf3, m. split; [exact E3|]. split_and!; [done|done|].
    by replace (Z.to_nat (Z.of_nat (N - 1) + 1)) with N in L3 by lia.
Qed.
End Write.

(** ** The graph *)

Definition loop_free G : Prop := forall x e, g_edges G !! x = Some e -> e_source e <> e_target e.

(** [l'] is [l] in increasing order, turned around so that it begins like [l]. *)
Definition sorted_from (l l' : list Z) : Prop :=
  (l' ≡ₚ l) /\ head l' = head l /\ exists s1 s2, l' = s2 ++ s1 /\ StronglySorted Z.lt (s1 ++ s2).

Lemma sorted_from_short l : NoDup l -> (length l < 3)%nat -> sorted_from l l.
Proof.
  intros Nd Hl. split; [done|]. split; [done|]. destruct l as [|a [|b [|c l]]]; [by exists [], []; split; constructor| | |simpl in Hl; lia].
  - exists [], [a]. split; [done|]. repeat constructor.
  - apply NoDup_cons in Nd as [Hab _]. assert (a <> b) by (intros ->; set_solver).
    destruct (Z.lt_total a b) as [Hlt|[?|Hlt]]; [|done|].
    + exists [], [a; b]. split; [done|]. repeat constructor. done.
    + exists [b], [a]. split; [done|]. repeat constructor. done.
Qed.

Lemma link_between_edge n p q r : edge_of (link_between n p q r) = edge_of r.
Proof. unfold link_between. by case_match. Qed.

Lemma relinked_chain g G n (k : node_t) s m : represents g G -> loop_free G -> st_nodes g !! n = Some k ->
  s ≡ₚ g_inc G n -> linked_upto n s (length s) (st_rels g) m ->
  chain m n s /\ forall n' (k' : node_t) l, n' <> n -> st_nodes g !! n' = Some k' -> chain (st_rels g) n' l -> chain m n' l.
Proof.
  intros R Lf Ek Ps [Li Lo]. destruct (rg_chain _ _ R n k Ek) as [C _].
  assert (Nd : NoDup s) by (rewrite Ps; apply C).
  assert (In : forall x r, st_rels g !! x = Some r -> touches n r -> x ∈ s).
  { intros x r Er T. rewrite Ps. apply (ch_mem _ _ _ C). by exists r. }
  assert (Lk : forall x, exists p q, m !! x = (fun r => if decide (x ∈ s) then link_between n p q r else r) <$> st_rels g !! x).
  { intros x. destruct (decide (x ∈ s)) as [Hx|Hx].
    - apply list_elem_of_lookup in Hx as (j & Ej). exists (pred_at s j), (succ_at s j).
      rewrite (Li j x Ej), decide_True by (by eapply lookup_lt_Some). done.
    - exists 0, 0. rewrite Lo by done. by destruct (st_rels g !! x). }
  assert (Back : forall x r', m !! x = Some r' -> exists r, st_rels g !! x = Some r /\ edge_of r' = edge_of r).
  { intros x r' Er. destruct (Lk x) as (p & q & E). rewrite Er in E. symmetry in E. apply fmap_Some in E as (r & -> & ->).
    exists r. split; [done|]. case_decide; [apply link_between_edge|done]. }
  assert (Fwd : forall x r, st_rels g !! x = Some r -> exists r', m !! x = Some r' /\ edge_of r' = edge_of r).
  { intros x r Er. destruct (Lk x) as (p & q & E). rewrite Er in E. eexists. split; [exact E|]. case_decide; [apply link_between_edge|done]. }
  assert (Nl : forall x r, st_rels g !! x = Some r -> source_node r <> target_node r).
  { intros x r Er. apply (Lf x (edge_of r)). by rewrite (graph_edge g G x R), Er. }
  split.
  - split; [done|..].
    + intros x. split.
      * intros Hx. rewrite Ps in Hx. apply (ch_mem _ _ _ C) in Hx as (r & Er & T). destruct (Fwd x r Er) as (r' & Er' & Ee).
        exists r'. split; [done|]. by apply (touches_edge n r r').
      * intros (r' & Er' & T). destruct (Back x r' Er') as (r & Er & Ee). apply (In x r Er). by apply (touches_edge n r r').
    + intros x y r' Cx Er'. destruct (cycle_at s x y Cx) as (j & Ej & <-).
      rewrite (Li j x Ej), decide_True in Er' by (by eapply lookup_lt_Some). apply fmap_Some in Er' as (r & Er & ->).
      specialize (Nl x r Er). unfold link_between, next_is. destruct (Z.eqb_spec (source_node r) n); cbn; split; intros; congruence.
    + intros x y r' Cx Er'. destruct (cycle_at_pred s x y Cx) as (j & Ej & <-).
      rewrite (Li j y Ej), decide_True in Er' by (by eapply lookup_lt_Some). apply fmap_Some in Er' as (r & Er & ->).
      specialize (Nl y r Er). unfold link_between, prev_is. destruct (Z.eqb_spec (source_node r) n); cbn; split; intros; congruence.
  - intros n' k' l Hn Ek' C'. apply (chain_other (st_rels g)); [done|..].
    + intros x r' Er' T. destruct (Lk x) as (p & q & E). rewrite Er' in E. symmetry in E. apply fmap_Some in E as (r & Er & ->).
      exists r. split; [done|]. case_decide as D; [|apply relinked_refl].
      assert (Tn : touches n r) by (rewrite Ps in D; apply (ch_mem _ _ _ C) in D as (r0 & Er0 & T0); congruence).
      specialize (Nl x r Er). unfold link_between. destruct (Z.eqb_spec (source_node r) n); split; try done; unfold next_is, prev_is; cbn.
      * intros _ y [A B]. split; [congruence|done].
      * intros _ y [A B]. split; [congruence|done].
      * intros _ y [A B]. split; [done|]. destruct Tn; congruence.
      * intros _ y [A B]. split; [done|]. destruct Tn; congruence.
    + intros x r Er _. apply Fwd, Er.
Qed.

(** A chain may begin anywhere on its cycle. *)
Lemma chain_rotate m n s1 s2 : chain m n (s1 ++ s2) -> chain m n (s2 ++ s1).
Proof.
  intros [Nd M Nx Pv]. split.
  - by rewrite Permutation_app_comm.
  - intros x. rewrite <- M, !elem_of_app. tauto.
  - intros x y r. rewrite cycle_rotate. apply Nx.
  - intros x y r. rewrite cycle_rotate. apply Pv.
Qed.

Definition with_inc G n l : graph := Graph (g_labels G) (g_edges G) (fun k => if decide (k = n) then l else g_inc G k).

Lemma relinked_represents g G n (k : node_t) s m : represents g G -> loop_free G -> st_nodes g !! n = Some k ->
  s ≡ₚ g_inc G n -> StronglySorted Z.lt s -> linked_upto n s (length s) (st_rels g) m ->
  exists l, represents (Store (st_nodes g) m) (with_inc G n l) /\ sorted_from (g_inc G n) l.
Proof.
  intros R Lf Ek Ps So Lk. destruct (relinked_chain g G n k s m R Lf Ek Ps Lk) as [C Oth].
  destruct (rg_chain _ _ R n k Ek) as [_ Hf].
  assert (exists s1 s2, s = s1 ++ s2 /\ head (s2 ++ s1) = head (g_inc G n)) as (s1 & s2 & -> & Hd).
  { destruct (g_inc G n) as [|h t].
    - apply Permutation_nil_r in Ps as ->. by exists [], [].
    - assert (Hin : h ∈ s) by (rewrite Ps; left). apply list_elem_of_split in Hin as (s1 & s2 & ->).
      by exists s1, (h :: s2). }
  exists (s2 ++ s1). split.
  - assert (Ed : edge_of <$> m = edge_of <$> st_rels g).
    { apply map_eq. intros x. rewrite !lookup_fmap. destruct Lk as [Li Lo].
      destruct (decide (x ∈ s1 ++ s2)) as [(j & Ej)%list_elem_of_lookup|Hx]; [|by rewrite Lo].
      rewrite (Li j x Ej), decide_True by (by eapply lookup_lt_Some).
      destruct (st_rels g !! x) as [r|]; [|done]. cbn. by rewrite link_between_edge. }
    split; cbn [st_nodes st_rels with_inc g_labels g_edges g_inc].
    + apply R.
    + rewrite Ed. apply R.
    + intros n' k' Ek'. destruct (decide (n' = n)) as [->|Hn].
      * assert (k' = k) as -> by congruence. split; [by apply chain_rotate|]. rewrite Hf.
        destruct (g_inc G n), (s2 ++ s1); cbn in Hd |- *; congruence.
      * destruct (rg_chain _ _ R n' k' Ek') as [C' Hf']. split; [by apply (Oth n' k')|done].
    + apply R.
    + pose proof (rg_uninit _ _ R) as U. apply (f_equal (fmap (M := option) edge_of)) in U.
      rewrite <- lookup_fmap, <- Ed, lookup_fmap in U. by destruct (m !! UNINITIALIZED_LONG).
  - split; [by rewrite Permutation_app_comm|]. split; [done|]. by exists s1, s2.
Qed.

Lemma sort_incidence_ok hf G n seed log (node : node_t) : graph_file hf G -> loop_free G -> is_Some (g_labels G !! n) -> n_id node = n ->
  exists hf' l, sort_incidence seed log node hf = Ok hf' /\ graph_file hf' (with_inc G n l) /\ sorted_from (g_inc G n) l.
Proof.
  intros GF Lf [lb Hn] <-. set (n := n_id node) in *. pose proof GF as [(g & S & R) Nn Nr].
  destruct (store_node g G n lb R Hn) as (k & Ek & _). destruct (rg_chain _ _ R n k Ek) as [C _].
  destruct (expand_ok g G n k BOTH log R Ek hf S) as (l & rs & hf1 & E1 & [Al _] & I & F & S1 & Sh1).
  assert (Ps : r_id <$> rs ≡ₚ g_inc G n).
  { rewrite I. apply NoDup_Permutation; [apply pick_nodup, C|apply C|]. intros x. rewrite pick_elem.
    split; [by intros []|]. intros Hx. split; [done|]. apply (ch_mem _ _ _ C) in Hx as (r & Er & T).
    rewrite (sel_rel g G _ x r R Er). unfold dir_edge. cbn. destruct T as [->| ->]; by rewrite Z.eqb_refl, ?orb_true_r. }
  assert (Ndi : NoDup (r_id <$> rs)) by (rewrite Ps; apply C).
  assert (Ln : array_list_size l = Z.of_nat (length (g_inc G n))).
  { unfold array_list_size. by rewrite (al_len_ok _ _ Al), <- Ps, length_fmap. }
  unfold sort_incidence. fold n. rewrite E1. cbn [mbind res_bind]. rewrite Ln. destruct (Z.ltb_spec (Z.of_nat (length (g_inc G n))) 3) as [Hl|Hl].
  - exists hf1, (g_inc G n). split; [done|]. split; [|apply sorted_from_short; [apply C|lia]].
    split; cbn; [|by rewrite (sh_nodes _ _ Sh1)|by rewrite (sh_rels _ _ Sh1)]. exists g. split; [done|].
    split; cbn; try apply R. intros n' k' Ek'. destruct (rg_chain _ _ R n' k' Ek') as [C' H']. by destruct (decide (n' = n)) as [->|].
  - destruct (sort_ids_ok l rs seed Al Ndi) as (ids & -> & Pi & So). cbn [mbind res_bind].
    assert (Li : length (g_inc G n) = length ids) by (by rewrite Pi, Ps). rewrite Li in Hl |- *.
    destruct (link_sorted_ok g G n ids log) with (hf := hf1) as (hf2 & m & E2 & Sh2 & S2 & L2); [done|..].
    + by rewrite Pi.
    + intros x Hx. rewrite Pi, Ps in Hx. apply (ch_mem _ _ _ C) in Hx as (r & -> & _). by eexists.
    + done.
    + lia.
    + destruct (relinked_represents g G n k ids m R Lf Ek) as (l' & R' & So'); [by rewrite Pi|done|done|].
      exists hf2, l'. split; [exact E2|]. split; [|done]. split; cbn; [by eexists|..].
      * by rewrite (sh_nodes _ _ Sh2), (sh_nodes _ _ Sh1).
      * by rewrite (sh_rels _ _ Sh2), (sh_rels _ _ Sh1).
Qed.

Lemma sort_all_ok hf G seed log : graph_file hf G -> loop_free G ->
  exists hf' G', sort_incidence_list hf log seed = Ok hf' /\ graph_file hf' G' /\
    g_labels G' = g_labels G /\ g_edges G' = g_edges G /\
    forall n, is_Some (g_labels G !! n) -> sorted_from (g_inc G n) (g_inc G' n).
Proof.
  intros GF Lf. unfold sort_incidence_list.
  destruct (nodes_serves hf G log GF) as (l & ns & hf1 & -> & Al & GF1 & P & Ln & _). cbn [mbind res_bind].
  rewrite <- Ln, Nat2Z.id, (for_upto l ns (sort_incidence seed log) hf1 Al).
  assert (Mem : forall n, n ∈ n_id <$> ns <-> is_Some (g_labels G !! n)).
  { intros n. destruct (keys_set _ _ P) as [Es _]. by rewrite <- elem_of_dom, <- Es, elem_of_list_to_set. }
  assert (Nd : NoDup (n_id <$> ns)) by (rewrite P; apply NoDup_fst_map_to_list).
  set (I := fun (ys : list node_t) hf' => exists G', graph_file hf' G' /\ g_labels G' = g_labels G /\ g_edges G' = g_edges G /\
    forall n, if decide (n ∈ n_id <$> ys) then sorted_from (g_inc G n) (g_inc G' n) else g_inc G' n = g_inc G n).
  destruct (for_each_inv I (sort_incidence seed log) ns hf1) as (hf' & E & G' & GF' & El & Ee & Ei).
  - exists G. split_and!; [done..|]. intros n. rewrite decide_False; [done|apply not_elem_of_nil].
  - intros ys node zs hf0 Eq (G0 & GF0 & El & Ee & Ei).
    assert (Lf0 : loop_free G0) by (intros x e; rewrite Ee; apply Lf).
    destruct (sort_incidence_ok hf0 G0 (n_id node) seed log node GF0 Lf0) as (hf2 & l2 & E2 & GF2 & So); [|done|].
    { rewrite El. apply Mem. rewrite Eq, fmap_app. set_solver. }
    exists hf2. split; [done|]. exists (with_inc G0 (n_id node) l2). split_and!; [done..|]. intros n. cbn [with_inc g_inc].
    rewrite Eq, fmap_app, fmap_cons in Nd. apply NoDup_app in Nd as (_ & Nd & _). specialize (Nd (n_id node)).
    rewrite fmap_app. cbn [fmap list_fmap]. specialize (Ei n). destruct (decide (n = n_id node)) as [->|Hn].
    + rewrite decide_True by set_solver. rewrite decide_False in Ei by (intros Hx; by apply Nd; [|left]). by rewrite <- Ei.
    + destruct (decide (n ∈ n_id <$> ys)); [rewrite decide_True by set_solver|rewrite decide_False by set_solver]; done.
  - exists hf', G'. split_and!; [done..|]. intros n Hn. specialize (Ei n). by rewrite decide_True in Ei by by apply Mem.
Qed.
End Links.
