(* ===== verification/OrderProps.v ===== *)
(** Properties of the orders of records: exchanges of two records rename the graph of the heap
    file by a transposition, reordering by a table renames it by the table, random orders are
    permutations, and the incidence lists are sorted. *)

From S2P Require Import Prelude Constants LinkedList HTable HSet ArrayList DiskFile PhysicalDatabase Page PageCache PageCacheInv HeaderPage Records HeapFile HeapFileInv HeapRecords HeapStore Chains Incidence HeapDelete Traversal HeapProps Queries Walks Searches Orders RandomOrders Renaming RecordKinds SwapRecords SwapRels Reordering SwapPages IncidenceSort.
From Stdlib Require Import ZArith Lia Sorting.Sorted.
From stdpp Require Import base list option fin_maps fin_sets gmap.

#[local] Open Scope Z_scope.

(** ** Samples *)

#[local] Existing Instance x86_pages.

(** The record beside another one on its page. *)
Lemma neighbour `{RecordPages} hf node x : in_file (hf_cache hf) node x -> exists y, y <> x /\ in_file (hf_cache hf) node y.
Proof.
  intros [(A & B & C) D]. pose proof rp_min. destruct rp_mult as [k Hk].
  assert (Nn : num_slots node = 1 \/ num_slots node = 4) by (destruct node; vm_compute; auto).
  destruct (Z.lt_ge_cases (x mod 256) (num_slots node)) as [Hs|Hs].
  - exists (x + num_slots node). split; [lia|].
    assert (Em : (x + num_slots node) mod 256 = x mod 256 + num_slots node /\ (x + num_slots node) / 256 = x / 256).
    { rewrite <- Zplus_mod_idemp_l. split; [apply Z.mod_small; lia|].
      symmetry. apply (Z.div_unique _ 256 _ (x mod 256 + num_slots node)); [lia|]. pose proof (Z.div_mod x 256). lia. }
    destruct Em as [Em Ed]. unfold in_file, valid. rewrite Em, Ed. split_and!; [lia|lia| |done].
    rewrite <- Zplus_mod_idemp_l, C. by destruct Nn as [->| ->].
  - exists (x - num_slots node). split; [lia|]. pose proof (Z.mod_pos_bound x 256 ltac:(lia)). pose proof (Z.div_mod x 256 ltac:(lia)).
    assert (0 <= x / 256) by (by apply Z.div_pos).
    assert (Em : (x - num_slots node) / 256 = x / 256 /\ (x - num_slots node) mod 256 = x mod 256 - num_slots node).
    { split; symmetry; [apply (Z.div_unique _ 256 _ (x mod 256 - num_slots node))|apply (Z.mod_unique _ 256 (x / 256))]; lia. }
    destruct Em as [Ed Em]. unfold in_file, valid. rewrite Em, Ed. split_and!; [lia|lia| |done].
    rewrite <- Zminus_mod_idemp_l, C. by destruct Nn as [->| ->].
Qed.

(** ** Exchanging two records *)

(** C20: The exchange of two relationships, of which one or both may be missing, gives each the id
    of the other, in the table of edges and in the chains of all nodes; nodes stay. *)
Theorem swap_relationships_renames `{RecordPages} (hf : heap_file) (G : graph) (a b : Z) (log : bool)
    (GF : graph_file hf G) (Ia : in_file (hf_cache hf) false a) (Ib : in_file (hf_cache hf) false b) :
  exists hf' G', swap_relationships hf a b log = Ok hf' /\ graph_file hf' G' /\ rels_renamed (swap_id a b) G G'.
Proof.
  destruct (swap_graph hf G false a b log GF Ia Ib) as (hf' & G' & E & GF' & Rn & _); [done|by exists hf', G'].
Qed.

(** A loop is moved to the slots beside its own. *)
Lemma swap_relationships_renames_witness :
  exists hf n x y hf' G', x <> y /\ sample (add_edge (add_node empty_graph n 7) x (Edge n n 5 9)) 900 hf /\
    swap_relationships hf x y true = Ok hf' /\ graph_file hf' G' /\ g_edges G' !! y = Some (Edge n n 5 9) /\ g_inc G' n = [y].
Proof.
  destruct sample_loop as (hf & n & x & S). pose proof S as [GF _].
  assert (Ix : in_file (hf_cache hf) false x).
  { apply (stored_in_file hf _ false x GF). cbn [ids_of add_edge g_edges]. rewrite elem_of_dom, lookup_insert_eq. eauto. }
  destruct (neighbour hf false x Ix) as (y & Hy & Iy).
  destruct (swap_relationships_renames hf _ x y true GF Ix Iy) as (hf' & G' & E & GF' & [_ Re Ri]).
  exists hf, n, x, y, hf', G'. split_and!; [congruence|exact S|exact E|exact GF'|..].
  - specialize (Re x). rewrite swap_id_l in Re. rewrite Re. apply lookup_insert_eq.
  - rewrite Ri; [|cbn; rewrite lookup_insert_eq; eauto]. cbn. rewrite decide_True by (by left). rewrite decide_True by done. cbn. by rewrite swap_id_l.
Defined.

(** C21: The exchange of two nodes gives each the id of the other, in the table of labels and at the
    ends of all relationships; the chains stay. If the second is missing, the first must have
    no relationships. *)
Theorem swap_nodes_renames `{RecordPages} (hf : heap_file) (G : graph) (a b : Z) (log : bool)
    (GF : graph_file hf G) (Ia : in_file (hf_cache hf) true a) (Ib : in_file (hf_cache hf) true b)
    (Hinc : is_Some (g_labels G !! a) -> g_labels G !! b = None -> g_inc G a = []) :
  exists hf' G', swap_nodes hf a b log = Ok hf' /\ graph_file hf' G' /\ nodes_renamed (swap_id a b) G G'.
Proof.
  destruct (swap_graph hf G true a b log GF Ia Ib) as (hf' & G' & E & GF' & Rn & _); [done|by exists hf', G'].
Qed.

(** The ends of an edge are exchanged with its nodes. *)
Lemma swap_nodes_renames_witness :
  exists hf a b x hf' G', a <> b /\ sample (add_edge (two_nodes a b) x (Edge a b 5 1)) 0 hf /\
    swap_nodes hf a b true = Ok hf' /\ graph_file hf' G' /\ g_edges G' !! x = Some (Edge b a 5 1) /\ g_labels G' !! b = Some 7.
Proof.
  destruct sample_two as (hf0 & a & b & Hab & GF0 & Rm).
  assert (La : g_labels (two_nodes a b) !! a = Some 7).
  { cbn [two_nodes add_node g_labels]. by rewrite lookup_insert_ne, lookup_insert_eq by congruence. }
  assert (Lb : g_labels (two_nodes a b) !! b = Some 8) by (cbn [two_nodes add_node g_labels]; by rewrite lookup_insert_eq).
  destruct (sample_edge hf0 (two_nodes a b) 0 a b 5 1) as (x & hf & _ & _ & S).
  1: split; [exact GF0|intros node; destruct (Rm node); pose proof rp_min; split; nia].
  1: lia. 1-2: by eexists. 1-2: split; [done|reflexivity]. 1: by vm_compute.
  pose proof S as [GF _]. set (G := add_edge _ _ _) in *.
  assert (In : forall n lb, g_labels G !! n = Some lb -> in_file (hf_cache hf) true n).
  { intros n lb En. apply (stored_in_file hf G true n GF). apply elem_of_dom. by exists lb. }
  destruct (swap_nodes_renames hf G a b true GF (In a _ La) (In b _ Lb)) as (hf' & G' & E & GF' & [Rl Re _]).
  { intros _ Hb. change (g_labels (two_nodes a b) !! b = None) in Hb. congruence. }
  exists hf, a, b, x, hf', G'. split_and!; [exact Hab|exact S|exact E|exact GF'|..].
  - rewrite Re. cbn [G add_edge g_edges]. rewrite lookup_insert_eq. cbn. unfold rename_ends. cbn. by rewrite swap_id_l, swap_id_r.
  - specialize (Rl a). rewrite swap_id_l in Rl. rewrite Rl. exact La.
Defined.

(** C29: The exchange of a node that has relationships with an id that no node has returns, but its
    relationships still end in the old id, so that the heap file stands for no graph: they are
    redirected only if the second node exists. *)
Theorem swap_nodes_strands_relationships `{RecordPages} (hf : heap_file) (G : graph) (a b : Z) (log : bool)
    (GF : graph_file hf G) (Ha : is_Some (g_labels G !! a)) (Hb : g_labels G !! b = None)
    (Ib : in_file (hf_cache hf) true b) (Hinc : g_inc G a <> []) :
  exists hf', swap_nodes hf a b log = Ok hf' /\ forall G', ~ graph_file hf' G'.
Proof.
  assert (Ia : in_file (hf_cache hf) true a) by (apply (stored_in_file hf G true a GF), elem_of_dom, Ha).
  destruct GF as [(g & S & R) _ _]. destruct (swap_nodes_moves hf g G a b log S R Ia Ib) as (hf' & g' & E & S' & _ & Rs & Ns).
  exists hf'. split; [done|]. intros G' [(g2 & S2 & R2) _ _]. rewrite (graph_node g G _ R), fmap_None in Hb.
  rewrite (graph_node g G _ R), fmap_is_Some in Ha. destruct Ha as [k Ek].
  destruct (g_inc G a) as [|x l] eqn:Ei; [done|]. destruct (chain_rel g G a k x R Ek) as (r & Er & T); [rewrite Ei; left|].
  assert (Er2 : st_rels g2 !! x = Some r).
  { rewrite (so_rels _ _ (hs_stores _ _ S2)), <- (so_rels _ _ (hs_stores _ _ S')), Rs, bool_decide_false; [done|]. rewrite Hb. by intros []. }
  destruct (touched_node g2 G' x r a R2 Er2 T) as [k2 Ek2].
  rewrite (so_nodes _ _ (hs_stores _ _ S2)), <- (so_nodes _ _ (hs_stores _ _ S')) in Ek2.
  specialize (Ns b). rewrite swap_id_r, Hb, Ek2 in Ns. done.
Qed.

Lemma swap_nodes_strands_relationships_witness :
  exists hf n b hf', swap_nodes hf n b true = Ok hf' /\ forall G', ~ graph_file hf' G'.
Proof.
  destruct sample_loop as (hf & n & x & GF & _).
  assert (Hn : g_labels (add_edge (add_node empty_graph n 7) x (Edge n n 5 9)) !! n = Some 7) by (cbn; apply lookup_insert_eq).
  destruct (neighbour hf true n) as (b & Hb & Ib); [apply (stored_in_file hf _ true n GF), elem_of_dom; by exists 7|].
  exists hf, n, b. apply (swap_nodes_strands_relationships hf _ n b true GF); [by exists 7| |done|].
  - cbn. by rewrite lookup_insert_ne by congruence.
  - cbn. rewrite decide_True by (by left). by rewrite decide_True.
Defined.

(** A file with more than 64 relationships has two pages for them. *)
Lemma added_edges (es : list edge) : forall ids G, length ids = length es ->
  dom (g_edges (foldl (fun G xe => add_edge G xe.1 xe.2) G (zip ids es))) = dom (g_edges G) ∪ list_to_set ids.
Proof.
  induction es as [|e es IH]; intros [|x ids] G Hl; try discriminate Hl; cbn [zip zip_with foldl]; [set_solver|].
  rewrite IH by (by injection Hl). cbn [add_edge g_edges fst list_to_set]. set_solver.
Qed.

Lemma two_pages : exists hf G, graph_file hf G /\ 2 <= pages_of hf false.
Proof.
  destruct sample_two as (hf0 & a & b & Hab & GF0 & Rm).
  set (es := replicate 65 (Edge a b 5 1)).
  destruct (sample_edges hf0 (two_nodes a b) es) as (hf & ids & Le & Nd & _ & GF & _).
  - split; [exact GF0|]. intros node. destruct (Rm node). pose proof rp_min. unfold es. rewrite length_replicate. split; nia.
  - apply Forall_replicate. cbn [e_source e_target e_weight e_label].
    split_and!; [|cbn; rewrite lookup_insert_eq; eauto|by split|by split|by vm_compute].
    cbn. rewrite lookup_insert_ne, lookup_insert_eq by congruence. eauto.
  - exists hf. eexists. split; [exact GF|]. set (G := foldl _ _ _) in GF.
    assert (F : forall x, x ∈ ids -> in_file (hf_cache hf) false x).
    { intros x Hx. apply (stored_in_file hf G false x GF). cbn [ids_of]. unfold G. rewrite (added_edges es ids _ Le). set_solver. }
    destruct (Z.le_gt_cases 2 (pages_of hf false)) as [|Hp]; [done|]. exfalso.
    set (q := (fun x : Z => x / 4) <$> ids). assert (L : (length q <= length (seqZ 0 64))%nat).
    { assert (Q : forall x, x ∈ ids -> 0 <= x < 256 /\ x mod 4 = 0).
      { intros x Hx. destruct (F x Hx) as [(A & B & C) D]. change (num_slots false) with 4 in C.
        change (x / 256 < pages_of hf false) in D. split; [|done]. Z.div_mod_to_equations. lia. }
      apply submseteq_length, NoDup_submseteq.
      - apply NoDup_fmap_2_strong; [|done]. intros x y Hx%Q Hy%Q E. Z.div_mod_to_equations. lia.
      - intros y (x & -> & Hx%Q)%list_elem_of_fmap. apply elem_of_seqZ. Z.div_mod_to_equations. lia. }
    unfold q in L. rewrite length_fmap, Le in L. unfold es in L. rewrite length_replicate, length_seqZ in L. lia.
Qed.

(** Nodes without relationships, as many as asked for. *)
Lemma sample_nodes (n : nat) : forall hf G k, sample G (k + Z.of_nat n) hf -> 0 <= k ->
  exists hf' G' ids, length ids = n /\ NoDup ids /\ Forall (fun x => g_labels G !! x = None) ids /\
    Forall (fun x => is_Some (g_labels G' !! x)) ids /\ (forall x, is_Some (g_labels G !! x) -> is_Some (g_labels G' !! x)) /\
    ((forall x, g_inc G x = []) -> forall x, g_inc G' x = []) /\ sample G' k hf'.
Proof.
  induction n as [|n IH]; intros hf G k S Hk.
  { exists hf, G, []. rewrite Z.add_0_r in S. split_and!; try done; constructor. }
  destruct (sample_node hf G (k + Z.of_nat n) 7) as (x & hf1 & _ & Fr & S1);
    [by replace (k + Z.of_nat n + 1) with (k + Z.of_nat (Datatypes.S n)) by lia|lia|by split|].
  destruct (IH hf1 (add_node G x 7) k S1 Hk) as (hf2 & G2 & ids & Le & Nd & Fi & Si & Kp & In & S2).
  rewrite Forall_forall in Fi. assert (Hx : forall y, y ∈ ids -> y <> x).
  { intros y Hy ->. specialize (Fi x Hy). cbn in Fi. by rewrite lookup_insert_eq in Fi. }
  exists hf2, G2, (x :: ids). split_and!; [by rewrite <- Le|constructor; [intros Hi; by apply (Hx x)|done]| | | | |done].
  - constructor; [done|]. apply Forall_forall. intros y Hy. specialize (Fi y Hy). cbn in Fi.
    rewrite lookup_insert_ne in Fi; [done|]. intros ->. by apply (Hx y).
  - constructor; [|done]. apply Kp. cbn. rewrite lookup_insert_eq. eauto.
  - intros y Hy. apply Kp. cbn. rewrite lookup_insert_is_Some. destruct (decide (x = y)); auto.
  - intros Ie. apply In. intros y. cbn. by case_decide.
Qed.

(** Of more than 256 ids, two differ and belong to the same slot of their pages. *)
Lemma same_slot (ids : list Z) : NoDup ids -> (256 < length ids)%nat ->
  exists a b, a ∈ ids /\ b ∈ ids /\ a <> b /\ a mod 256 = b mod 256.
Proof.
  intros Nd L. destruct (decide (Exists (fun a => Exists (fun b => a <> b /\ a mod 256 = b mod 256) ids) ids)) as [X|X].
  { apply Exists_exists in X as (a & Ha & (b & Hb & Hn & Hm)%Exists_exists). by exists a, b. }
  exfalso. set (q := (fun x : Z => x mod 256) <$> ids).
  assert (Le : (length q <= length (seqZ 0 256))%nat).
  { apply submseteq_length, NoDup_submseteq.
    - apply NoDup_fmap_2_strong; [|done]. intros x y Hx Hy E. destruct (decide (x = y)) as [|Hn]; [done|]. destruct X.
      apply Exists_exists. exists x. split; [done|]. apply Exists_exists. by exists y.
    - intros y (x & -> & _)%list_elem_of_fmap. apply elem_of_seqZ. pose proof (Z.mod_pos_bound x 256). lia. }
  unfold q in Le. rewrite length_fmap, length_seqZ in Le. lia.
Qed.

(** Two nodes in the same slot of two pages, an edge between them, and many other nodes. *)
Lemma two_node_pages : exists hf G a b x, graph_file hf G /\ a <> b /\ a mod 256 = b mod 256 /\
  in_file (hf_cache hf) true a /\ in_file (hf_cache hf) true b /\ is_Some (g_labels G !! a) /\ is_Some (g_labels G !! b) /\
  g_edges G !! x = Some (Edge a b 5 1) /\ g_inc G a = [x] /\ (forall n, n <> a -> n <> b -> g_inc G n = []).
Proof.
  destruct new_file_sample as (pc & hf0 & _ & _ & _ & _ & S0).
  destruct (sample_nodes 257 hf0 empty_graph 743 S0) as (hf1 & G1 & ids & Le & Nd & _ & Si & _ & In & S1); [lia|].
  destruct (same_slot ids Nd) as (a & b & Ha & Hb & Hn & Hm); [lia|]. rewrite Forall_forall in Si.
  destruct (sample_edge hf1 G1 742 a b 5 1 S1) as (x & hf & _ & _ & GF & _); [lia|by apply Si|by apply Si|by split|by split|by vm_compute|].
  exists hf, (add_edge G1 x (Edge a b 5 1)), a, b, x. split_and!; try done; try (by apply Si).
  1-2: apply (stored_in_file hf _ true _ GF), elem_of_dom; by apply Si.
  - cbn. by rewrite lookup_insert_eq.
  - cbn. rewrite decide_True by (by left). by rewrite In.
  - intros n Na Nb. cbn. rewrite decide_False by (intros [?|?]; congruence). by apply In.
Qed.

(** C25: The exchange of two pages of nodes or of relationships, page by page and slot by slot,
    moves every record of the one to the same slot of the other and back: the graph is renamed
    by that permutation of ids.  It is assumed that no node of the first page that has
    relationships comes to a slot that is free: the relationships of such a node are left
    behind. *)
Theorem swap_record_pages_renames `{RecordPages} (node : bool) (hf : heap_file) (G : graph) (fst snd : Z) (log : bool)
    (GF : graph_file hf G) (Hf : 0 <= fst < pages_of hf node) (Hs : 0 <= snd < pages_of hf node)
    (Hinc : node = true -> forall i, 0 <= i < SLOTS_PER_PAGE -> is_Some (g_labels G !! (256 * fst + i)) ->
       g_labels G !! (256 * snd + i) = None -> g_inc G (256 * fst + i) = []) :
  exists hf' G', swap_record_pages hf fst snd (ft_of node) log = Ok hf' /\ graph_file hf' G' /\
    renamed node (page_swap node fst snd SLOTS_PER_PAGE) G G'.
Proof. by apply swap_pages_ok. Qed.

(** Two pages of relationships; and two pages of nodes, of which two that are in the same slot
    are joined by an edge, and the others come to slots that are in use or free. *)
Lemma swap_record_pages_renames_witness :
  (exists hf G hf' G', graph_file hf G /\ swap_record_pages hf 0 1 relationship_ft true = Ok hf' /\ graph_file hf' G' /\
     g_edges G' !! 256 = g_edges G !! 0) /\
  exists hf G a b x hf' G', graph_file hf G /\ a <> b /\ g_inc G a <> [] /\ g_edges G !! x = Some (Edge a b 5 1) /\
    swap_record_pages hf (a / 256) (b / 256) node_ft true = Ok hf' /\ graph_file hf' G' /\
    g_edges G' !! x = Some (Edge b a 5 1) /\ g_labels G' !! b = g_labels G !! a.
Proof.
  split.
  { destruct two_pages as (hf & G & GF & Hp).
    destruct (swap_record_pages_renames false hf G 0 1 true GF) as (hf' & G' & E & GF' & [_ Re _]); [lia|lia|done|].
    exists hf, G, hf', G'. split_and!; [done|exact E|done|]. exact (Re 0). }
  destruct two_node_pages as (hf & G & a & b & x & GF & Hab & Hm & [(A0 & A1 & _) Ap] & [(B0 & B1 & _) Bp] & La & Lb & Ex & Ia & Ni).
  pose proof (Z.div_mod a 256 ltac:(lia)) as Da. pose proof (Z.div_mod b 256 ltac:(lia)) as Db.
  assert (Hp : a / 256 <> b / 256) by lia.
  destruct (swap_record_pages_renames true hf G (a / 256) (b / 256) true GF) as (hf' & G' & E & GF' & [Rl Re _]).
  - split; [apply Z.div_pos; lia|exact Ap].
  - split; [apply Z.div_pos; lia|exact Bp].
  - intros _ i Hi Hs Hf. destruct (decide (256 * (a / 256) + i = a)) as [Ea|Ea].
    { replace (256 * (b / 256) + i) with b in Hf by lia. rewrite Hf in Lb. by destruct Lb. }
    apply Ni; [done|]. intros Eb. pose proof (rp_max (RecordPages := x86_record_pages)).
    apply Hp. rewrite <- Eb. rewrite (Z.mul_comm 256), Z.div_add_l, (Z.div_small i) by lia. lia.
  - assert (Sa : page_swap true (a / 256) (b / 256) SLOTS_PER_PAGE a = b).
    { unfold page_swap. rewrite decide_True by (split; [apply Z.mod_1_r|done]). rewrite Z.eqb_refl. lia. }
    assert (Sb : page_swap true (a / 256) (b / 256) SLOTS_PER_PAGE b = a).
    { unfold page_swap. rewrite decide_True by (split; [apply Z.mod_1_r|done]).
      rewrite (proj2 (Z.eqb_neq _ _)), Z.eqb_refl by lia. lia. }
    exists hf, G, a, b, x, hf', G'. split_and!; [exact GF|exact Hab|by rewrite Ia|exact Ex|exact E|exact GF'| |].
    + rewrite Re, Ex. cbn. unfold rename_ends. cbn. by rewrite Sa, Sb.
    + specialize (Rl a). rewrite Sa in Rl. exact Rl.
Defined.

(** ** Reordering *)

(** A node of a graph without relationships moves. *)
Lemma move_node hf G x y k : graph_file hf G -> dom (g_labels G) = {[x; y]} -> g_edges G = ∅ -> in_file (hf_cache hf) true k ->
  exists hf' G', graph_file hf' G' /\ dom (g_labels G') = {[swap_id x k x; swap_id x k y]} /\ g_edges G' = ∅ /\ same_shape hf hf'.
Proof.
  intros GF Hd He Ik. assert (Hx : x ∈ ids_of true G) by (cbn [ids_of]; rewrite Hd; set_solver).
  destruct (swap_graph hf G true x k true GF (stored_in_file _ _ _ _ GF Hx) Ik) as (hf' & G' & _ & GF' & Rn & Sh).
  - intros _ [lb Hl] _. destruct GF as [(g & S & R) _ _]. destruct (store_node g G x lb R Hl) as (nd & En & _).
    destruct (g_inc G x) as [|z l] eqn:Ei; [done|]. destruct (chain_rel g G x nd z R En) as (r & Er & _); [rewrite Ei; left|].
    pose proof (graph_edge g G z R) as Ee. by rewrite Er, He, lookup_empty in Ee.
  - exists hf', G'. split_and!; [done| | |done].
    + apply set_eq. intros n. pose proof (renamed_ids true _ G G' Rn (swap_id x k n)) as I. rewrite swap_id_twice in I.
      cbn [ids_of] in I. rewrite <- I, Hd, !elem_of_union, !elem_of_singleton. clear.
      split; (intros [E|E]; [left|right]; apply (f_equal (swap_id x k)) in E; by rewrite swap_id_twice in E).
    + apply map_eq. intros z. rewrite (nr_edges _ _ _ Rn), He. by rewrite lookup_empty.
Qed.

(** Two nodes without relationships with the ids 0 and 1. *)
Lemma two_at_front : exists hf G, graph_file hf G /\ dom (g_labels G) = {[0; 1]} /\ g_edges G = ∅.
Proof.
  destruct sample_two as (hf & a & b & Hab & GF & _).
  assert (Hd : dom (g_labels (two_nodes a b)) = {[a; b]}) by (cbn [two_nodes add_node g_labels]; set_solver).
  assert (In : in_file (hf_cache hf) true 0 /\ in_file (hf_cache hf) true 1).
  { assert (Ia : in_file (hf_cache hf) true a) by (apply (stored_in_file hf _ true a GF); cbn [ids_of]; set_solver).
    destruct Ia as [(A & _) B]. assert (0 <= a / 256) by (by apply Z.div_pos).
    split; (split; [split_and!; [done|reflexivity|reflexivity]|]); [change (0 / 256) with 0|change (1 / 256) with 0]; lia. }
  destruct In as [I0 I1].
  destruct (move_node hf (two_nodes a b) a b 0 GF Hd eq_refl I0) as (hf1 & G1 & GF1 & D1 & E1 & Sh1).
  rewrite swap_id_l in D1. set (c := swap_id a 0 b) in *.
  assert (Hc : c <> 0) by (intros E; rewrite <- (swap_id_l a 0) in E; apply swap_id_inj in E; congruence).
  assert (I1' : in_file (hf_cache hf1) true 1) by (unfold in_file; by rewrite (sh_pages _ _ Sh1)).
  rewrite (union_comm_L {[0]} {[c]}) in D1.
  destruct (move_node hf1 G1 c 0 1 GF1 D1 E1 I1') as (hf2 & G2 & GF2 & D2 & E2 & _).
  exists hf2, G2. split_and!; [done| |done]. rewrite D2, swap_id_l, swap_id_other by lia. set_solver.
Qed.

(** C22: Reordering by a table that permutes ids in use gives every record the id that the table has
    for it, whatever the table's order of iteration: the graph is renamed.  It is assumed that
    the loop over pages and slots visits all ids of the table but at most one.  The loop makes
    as many rounds as there are records, from the first slot on, and skips the last slot of a
    page of 256 nodes, so that this can fail for ids with gaps and for that slot. *)
Theorem reorder_renames `{RecordPages} (node : bool) (hf : heap_file) (G : graph) (t : dict_ul_ul) (D : gset Z)
    (log : bool) (seed : Z) (GF : graph_file hf G) (W : wf fnv_hash_ul t) (O : order_on D (contents t))
    (Sub : D ⊆ ids_of node G)
    (Vis : forall x y, x ∈ D -> y ∈ D ->
       (forall i, 0 <= i < Z.of_nat (size (ids_of node G)) -> x <> visited_id node i) ->
       (forall i, 0 <= i < Z.of_nat (size (ids_of node G)) -> y <> visited_id node i) -> x = y) :
  exists hf' t' G', reorder node hf t log seed = Ok (hf', t') /\ graph_file hf' G' /\
    renamed node (fun x => default x (contents t !! x)) G G'.
Proof. by apply (reorder_ok node hf G t D). Qed.

(** Two nodes change places. *)
Lemma reorder_renames_witness :
  exists hf G t hf' t' G', graph_file hf G /\ dom (g_labels G) = {[0; 1]} /\ reorder_nodes hf t true 0 = Ok (hf', t') /\
    graph_file hf' G' /\ g_labels G' !! 1 = g_labels G !! 0 /\ g_labels G' !! 0 = g_labels G !! 1.
Proof.
  destruct two_at_front as (hf & G & GF & D & _).
  destruct (dict_create_ok 0) as [W0 C0].
  destruct (dict_insert_ok (d_ul_ul_create 0) 0 1 W0) as (t1 & _ & W1 & C1).
  destruct (dict_insert_ok t1 1 0 W1) as (t & _ & W & C). rewrite C1, C0 in C.
  assert (Lk : forall x v, contents t !! x = Some v <-> (x = 0 /\ v = 1) \/ (x = 1 /\ v = 0)).
  { intros x v. rewrite C, !lookup_insert_Some, lookup_empty. split; [|naive_solver].
    intros [[<- <-]|[? [[<- <-]|[? [=]]]]]; auto. }
  destruct (reorder_renames true hf G t {[0; 1]} true 0 GF W) as (hf' & t' & G' & E & GF' & [Rl _ _]).
  - split.
    + intros x. rewrite elem_of_union, !elem_of_singleton. split.
      * intros [v Hv%Lk]. naive_solver.
      * intros [->| ->]; [exists 1|exists 0]; apply Lk; auto.
    + intros x v Hv%Lk. set_solver.
    + intros x y v Hx%Lk Hy%Lk. naive_solver.
    + intros v. rewrite elem_of_union, !elem_of_singleton. intros [->| ->]; [exists 1|exists 0]; apply Lk; auto.
  - cbn [ids_of]. by rewrite D.
  - intros x y Hx _ Nx _. exfalso. assert (Sz : size (ids_of true G) = 2%nat) by (cbn [ids_of]; rewrite D; reflexivity).
    rewrite Sz in Nx. apply elem_of_union in Hx as [Hx%elem_of_singleton|Hx%elem_of_singleton]; subst x.
    + apply (Nx 0); [lia|reflexivity].
    + apply (Nx 1); [lia|reflexivity].
  - exists hf, G, t, hf', t', G'. split_and!; [done|done|exact E|done|..].
    + specialize (Rl 0). rewrite (proj2 (Lk 0 1)) in Rl by auto. exact Rl.
    + specialize (Rl 1). rewrite (proj2 (Lk 1 0)) in Rl by auto. exact Rl.
Defined.

(** C30: The orders are permutations of the ids of the stored records: the identity, and after the
    random exchanges still a bijection, for every sequence of values that [rand()] returns;
    the graph in the heap file stays as it is. *)
Theorem random_orders_permute `{RecordPages} (hf : heap_file) (G : graph) (seed : Z) (rnd : Z -> Z) (GF : graph_file hf G) :
  (exists t hf', identity_node_order hf seed = Ok (t, hf') /\ graph_file hf' G /\ wf fnv_hash_ul t /\
     forall x, contents t !! x = if decide (x ∈ dom (g_labels G)) then Some x else None) /\
  (exists t hf', random_node_order hf seed rnd = Ok (t, hf') /\ graph_file hf' G /\ wf fnv_hash_ul t /\
     order_on (dom (g_labels G)) (contents t)) /\
  (exists t hf', random_relationship_order hf seed rnd = Ok (t, hf') /\ graph_file hf' G /\ wf fnv_hash_ul t /\
     order_on (dom (g_edges G)) (contents t)).
Proof. by apply random_orders_ok. Qed.

(** A random order of two nodes is one that [reorder_nodes] can follow. *)
Lemma random_orders_permute_witness :
  exists hf G t hf1 hf2 t' G', graph_file hf G /\ random_node_order hf 0 (fun i => i * 7 + 1) = Ok (t, hf1) /\
    reorder_nodes hf1 t true 0 = Ok (hf2, t') /\ graph_file hf2 G' /\ renamed true (fun x => default x (contents t !! x)) G G'.
Proof.
  destruct two_at_front as (hf & G & GF & D & _).
  destruct (random_orders_permute hf G 0 (fun i => i * 7 + 1) GF) as (_ & (t & hf1 & E1 & GF1 & W & O) & _).
  destruct (reorder_ok true hf1 G t _ true 0 GF1 W O) as (hf2 & t' & G' & E2 & GF2 & Rn); [done| |].
  - intros x y Hx _ Nx _. exfalso. cbn [ids_of] in Nx. rewrite D in Hx, Nx. change (size _) with 2%nat in Nx.
    apply elem_of_union in Hx as [Hx%elem_of_singleton|Hx%elem_of_singleton]; subst x; [apply (Nx 0)|apply (Nx 1)]; first [lia|reflexivity].
  - by exists hf, G, t, hf1, hf2, t', G'.
Defined.

(** ** Incidence lists *)

(** C28: On a graph without loops, [sort_incidence_list] ends; afterwards the chain of every node
    has the same relationships in the increasing order of their ids, turned so that it begins
    with the relationship that the node's record points to, and nothing else has changed. *)
Theorem sort_incidence_list_sorts `{RecordPages} (hf : heap_file) (G : graph) (log : bool) (seed : Z)
    (GF : graph_file hf G) (Lf : loop_free G) :
  exists hf' G', sort_incidence_list hf log seed = Ok hf' /\ graph_file hf' G' /\
    g_labels G' = g_labels G /\ g_edges G' = g_edges G /\
    forall n, is_Some (g_labels G !! n) -> sorted_from (g_inc G n) (g_inc G' n).
Proof. by apply sort_all_ok. Qed.

(** Three relationships between two nodes. *)
Lemma sort_incidence_list_sorts_witness :
  exists hf a b G hf' G', a <> b /\ graph_file hf G /\ length (g_inc G a) = 3%nat /\
    sort_incidence_list hf true 0 = Ok hf' /\ graph_file hf' G' /\ sorted_from (g_inc G a) (g_inc G' a).
Proof.
  destruct sample_two as (hf0 & a & b & Hab & GF0 & Rm).
  assert (S : sample (two_nodes a b) 3 hf0).
  { split; [exact GF0|]. intros node. destruct (Rm node). pose proof rp_min. split; nia. }
  assert (La : is_Some (g_labels (two_nodes a b) !! a)).
  { cbn [two_nodes add_node g_labels]. rewrite lookup_insert_ne, lookup_insert_eq by congruence. eauto. }
  assert (Lb : is_Some (g_labels (two_nodes a b) !! b)) by (cbn [two_nodes add_node g_labels]; rewrite lookup_insert_eq; eauto).
  destruct (sample_edges hf0 (two_nodes a b) [Edge a b 5 1; Edge b a 5 2; Edge a b 5 3] S) as (hf & ids & Le & Nd & _ & GF & _).
  { repeat (apply Forall_cons; split; [split; [done|split; [done|split; [by split|split; [by split|by vm_compute]]]]|]). constructor. }
  destruct ids as [|x [|y [|z [|? ?]]]]; try discriminate Le. cbn [foldl zip zip_with fst snd] in GF.
  set (G := add_edge _ _ _) in GF.
  destruct (sort_incidence_list_sorts hf G true 0 GF) as (hf' & G' & E & GF' & _ & _ & So).
  - intros i e. cbn [G add_edge g_edges two_nodes add_node empty_graph].
    rewrite !lookup_insert_Some, lookup_empty. intros C. assert (e ∈ [Edge a b 5 1; Edge b a 5 2; Edge a b 5 3]) as He by set_solver.
    rewrite !elem_of_cons in He. destruct He as [->|[->|[->|He]]]; cbn; try congruence. by apply elem_of_nil in He.
  - exists hf, a, b, G, hf', G'. split_and!; [exact Hab|exact GF| |exact E|exact GF'|apply So; exact La].
    cbn. repeat case_decide; try done; exfalso; intuition congruence.
Defined.
