(* ===== verification/Importer.v ===== *)
(** The import of data sets from the SNAP collection (src/src/query/snap_importer.c).

    A data set is a text: a line that begins with ['#'] is a comment, any other line holds the
    numbers of two nodes, and a weight if the data set is weighted.  Every number gets a node
    when it is first seen, whose label it is, and every line a relationship, labelled with the
    number of lines before it.  Two tables translate the numbers of nodes and lines to ids.

    The text is what [fopen] finds at the path, [None] if it cannot be opened.  [fgets] and the
    conversion [%lu] of [sscanf] are defined here; the conversion [%lf] is an argument, and so
    are the seeds of the tables and what the downloads return.  The heap file and the graph in
    memory are filled by the same loop, over the class [EdgeSink] of their two operations.
    The messages about the progress are not modelled. *)

From S2P Require Import Prelude Constants HTable ArrayList DiskFile PhysicalDatabase Page PageCache HeaderPage Records HeapFile Queries MemGraph.
From Stdlib Require Import ZArith Lia Ascii String.
From stdpp Require Import base list option gmap strings.

#[local] Open Scope Z_scope.

(** ** Data sets *)

Inductive dataset_t :=
  C_ELEGANS | EMAIL_EU_CORE | DBLP | AMAZON | YOUTUBE | WIKIPEDIA | LIVE_JOURNAL | ORKUT | FRIENDSTER.

Definition get_url (data : dataset_t) : string :=
  match data with
  | C_ELEGANS => "https://snap.stanford.edu/data/C-elegans-frontal.txt.gz"
  | EMAIL_EU_CORE => "https://snap.stanford.edu/data/email-Eu-core.txt.gz"
  | DBLP => "https://snap.stanford.edu/data/bigdata/communities/com-dblp.ungraph.txt.gz"
  | AMAZON => "https://snap.stanford.edu/data/bigdata/communities/com-amazon.ungraph.txt.gz"
  | YOUTUBE => "https://snap.stanford.edu/data/bigdata/communities/com-youtube.ungraph.txt.gz"
  | WIKIPEDIA => "https://snap.stanford.edu/data/wiki-topcats.txt.gz"
  | LIVE_JOURNAL => "https://snap.stanford.edu/data/bigdata/communities/com-lj.ungraph.txt.gz"
  | ORKUT => "https://snap.stanford.edu/data/bigdata/communities/com-orkut.ungraph.txt.gz"
  | FRIENDSTER => "https://snap.stanford.edu/data/bigdata/communities/com-friendster.ungraph.txt.gz"
  end%string.

Definition get_no_nodes (data : dataset_t) : Z :=
  match data with
  | C_ELEGANS => 131
  | EMAIL_EU_CORE => 1005
  | DBLP => 317080
  | AMAZON => 334863
  | YOUTUBE => 1134890
  | WIKIPEDIA => 1791489
  | LIVE_JOURNAL => 3997962
  | ORKUT => 3072441
  | FRIENDSTER => 65608366
  end.

Definition get_no_rels (data : dataset_t) : Z :=
  match data with
  | C_ELEGANS => 764
  | EMAIL_EU_CORE => 25571
  | DBLP => 1049866
  | AMAZON => 925872
  | YOUTUBE => 2987624
  | WIKIPEDIA => 28511807
  | LIVE_JOURNAL => 34681189
  | ORKUT => 117185083
  | FRIENDSTER => 1806067135
  end.

(** ** Reading lines *)

Abbreviation text := (list ascii).

Definition CHUNK : Z := Z.shiftl 1 19.

Definition newline : ascii := ascii_of_nat 10.
Definition is_space (c : ascii) : bool :=
  let n := Z.of_N (N_of_ascii c) in (n =? 32) || ((9 <=? n) && (n <=? 13)).
Definition digit_of (c : ascii) : option Z :=
  let n := Z.of_N (N_of_ascii c) in if (48 <=? n) && (n <=? 57) then Some (n - 48) else None.

(** At most [n] characters, up to the end of the line. *)
Fixpoint get_line (n : Z) (s : text) : text * text :=
  match s with
  | [] => ([], [])
  | c :: s' =>
      if n <=? 0 then ([], s)
      else if Ascii.eqb c newline then ([c], s')
      else let '(l, rest) := get_line (n - 1) s' in (c :: l, rest)
  end.
(** [fgets(buf, CHUNK, in_file)]: [None] at the end of the file. *)
Definition fgets (s : text) : option (text * text) :=
  match s with [] => None | _ => Some (get_line (CHUNK - 1) s) end.

(** The characters of [buf] as a string: up to the first NUL. *)
Fixpoint c_string (s : text) : text :=
  match s with
  | [] => []
  | c :: s' => if Ascii.eqb c zero then [] else c :: c_string s'
  end.

Fixpoint skip_space (s : text) : text :=
  match s with
  | c :: s' => if is_space c then skip_space s' else s
  | [] => []
  end.
Fixpoint scan_digits (s : text) (acc : Z) : Z * text :=
  match s with
  | c :: s' => match digit_of c with Some d => scan_digits s' (10 * acc + d) | None => (acc, s) end
  | [] => (acc, [])
  end.

Definition scan_sign (s : text) : bool * text :=
  match s with
  | c :: s' => if Ascii.eqb c "+" then (false, s') else if Ascii.eqb c "-" then (true, s') else (false, s)
  | [] => (false, [])
  end.

(** The conversion [%lu]: a number with a sign, negated modulo 2^64 after a minus; the
    behaviour for other numbers than those of the type is undefined. *)
Definition scan_lu (s : text) : res (option (Z * text)) :=
  let '(negative, s) := scan_sign (skip_space s) in
  match s with
  | c :: _ =>
      if bool_decide (is_Some (digit_of c)) then
        let '(n, rest) := scan_digits s 0 in
        if ULONG_MAX <? n then Undef else Ok (Some (if negative then u64 (- n) else n, rest))
      else Ok None
  | [] => Ok None
  end.

(** ** The loop *)

(** What is filled: [create_node(g, label)] and [create_relationship(g, from, to, weight, label)]. *)
Class EdgeSink (G : Type) := {
  sink_node : G -> Z -> res (Z * G);
  sink_relationship : G -> Z -> Z -> Z -> Z -> res (Z * G) }.

Record import_state {G : Type} := ImportState {
  im_graph : G;
  txt_to_db_id_n : dict_ul_ul;
  txt_to_db_id_r : dict_ul_ul;
  im_lines : Z }.
Arguments import_state : clear implicits.
Arguments ImportState {G}.

Section Scan.
(** The conversion [%lf]. *)
Context (scan_lf : text -> option (Z * text)).

(** [sscanf(buf, "%lu %lu\n", ...) == 2], or [sscanf(buf, "%lu %lu %lf\n", ...) == 3]. *)
Definition scan_line (weighted : bool) (buf : text) : res (option (list Z * Z)) :=
  o ← scan_lu buf;
  match o with
  | None => Ok None
  | Some (from, rest) =>
      o ← scan_lu (skip_space rest);
      match o with
      | None => Ok None
      | Some (to, rest) =>
          if weighted then
            match scan_lf (skip_space rest) with
            | Some (weight, _) => Ok (Some ([from; to], weight))
            | None => Ok None
            end
          else Ok (Some ([from; to], DOUBLE_ONE))
      end
  end.

Section Loop.
Context {G : Type} `{EdgeSink G}.
Implicit Types s : import_state G.

(** The node for [from_to[i]], created if the number is new. *)
Definition import_field (i : Z) (p : list Z * import_state G) : res (list Z * import_state G) :=
  let '(from_to, s) := p in
  x ← deref (from_to !! Z.to_nat i);
  b ← dict_contains (txt_to_db_id_n s) x;
  if b : bool then
    id ← dict_get_direct (txt_to_db_id_n s) x;
    Ok (<[Z.to_nat i := id]> from_to, s)
  else
    '(db_id, g) ← sink_node (im_graph s) x;
    txt_n ← dict_insert (txt_to_db_id_n s) x db_id;
    Ok (<[Z.to_nat i := db_id]> from_to, ImportState g txt_n (txt_to_db_id_r s) (im_lines s)).

(** The rest of the round for a line that was scanned. *)
Definition import_edge (weighted : bool) (from_to : list Z) (weight : Z) s : res (import_state G) :=
  '(from_to, s) ← for_loop (if weighted then 3 else 2) 0 import_field (from_to, s);
  from ← deref (from_to !! 0%nat);
  to ← deref (from_to !! 1%nat);
  '(db_id, g) ← sink_relationship (im_graph s) from to weight (im_lines s);
  txt_r ← dict_insert (txt_to_db_id_r s) (im_lines s) db_id;
  Ok (ImportState g (txt_to_db_id_n s) txt_r (u64 (im_lines s + 1))).

(** The round for a line that is not a comment. *)
Definition import_line (weighted : bool) (buf : text) s : res (import_state G) :=
  o ← scan_line weighted buf;
  match o with
  | None => Exit
  | Some (from_to, weight) => import_edge weighted from_to weight s
  end.

Definition is_comment (buf : text) : bool :=
  match buf with c :: _ => Ascii.eqb c "#" | [] => false end.

(** [while (fgets(buf, sizeof(buf), in_file))] *)
Fixpoint import_lines (fuel : nat) (weighted : bool) (in_file : text) s : res (import_state G) :=
  match fuel with
  | O => NoFuel
  | S fuel' =>
      match fgets in_file with
      | None => Ok s
      | Some (line, rest) =>
          let buf := c_string line in
          s ← (if is_comment buf then Ok s else import_line weighted buf s);
          import_lines fuel' weighted rest s
      end
  end.

Definition import_text (g : G) (in_file : option text) (weighted : bool) (seed_n seed_r : Z)
    : res (import_state G) :=
  match in_file with
  | None => Exit
  | Some s => import_lines (S (length s)) weighted s (ImportState g (d_ul_ul_create seed_n) (d_ul_ul_create seed_r) 0)
  end.
End Loop.

(** ** The graph in memory *)

(** [in_memory_create_relationship] is the one for the weight 1. *)
#[export] Instance in_memory_sink : EdgeSink in_memory_graph := {|
  sink_node := in_memory_create_node;
  sink_relationship := in_memory_create_relationship_weighted |}.

(** The tables that are returned, and the graph. *)
Definition in_memory_import_from_txt (g : in_memory_graph) (in_file : option text) (weighted : bool)
    (seed_n seed_r : Z) : res (dict_ul_ul * dict_ul_ul * in_memory_graph) :=
  s ← import_text g in_file weighted seed_n seed_r;
  Ok (txt_to_db_id_n s, txt_to_db_id_r s, im_graph s).

(** ** The heap file *)

Section Heap.
Context `{Sysconf}.

#[export] Instance heap_file_sink : EdgeSink heap_file := {|
  sink_node hf label := create_node hf label false;
  sink_relationship hf from to weight label := create_relationship hf from to weight label false |}.

Definition set_bulk (hf : heap_file) (b : bool) : heap_file := set_cache hf (set_bulk_import (hf_cache hf) b).

(** The pages for [n] records of [slots] slots. *)
Definition import_pages (n slots : Z) : Z :=
  n * slots / SLOTS_PER_PAGE + (if n * slots mod SLOTS_PER_PAGE =? 0 then 0 else 1).

Definition import_from_txt (hf : heap_file) (in_file : option text) (weighted : bool) (dataset : dataset_t)
    (seed_n seed_r : Z) : res (dict_ul_ul * dict_ul_ul * heap_file) :=
  if bool_decide (in_file = None) then Exit
  else
    let hf := set_bulk hf true in
    db ← allocate_pages (pdb (hf_cache hf)) node_ft (import_pages (get_no_nodes dataset) NUM_SLOTS_PER_NODE) false;
    db ← allocate_pages db relationship_ft (import_pages (get_no_rels dataset) NUM_SLOTS_PER_REL) false;
    let hf := set_cache hf (set_pdb (hf_cache hf) db) in
    s ← import_text hf in_file weighted seed_n seed_r;
    Ok (txt_to_db_id_n s, txt_to_db_id_r s, set_bulk (im_graph s) false).

(** [import]: with what the download and the decompression return, and the text they leave. *)
Definition import (hf : heap_file) (weighted : bool) (dataset : dataset_t) (downloaded uncompressed : Z)
    (dataset_txt : option text) (seed_n seed_r : Z) : res heap_file :=
  if negb (downloaded =? 0) then Exit
  else if negb (uncompressed =? 0) then Exit
  else
    '(_, hf) ← import_from_txt hf dataset_txt weighted dataset seed_n seed_r;
    Ok hf.
End Heap.
End Scan.
