(* ===== verification/ImportProps.v ===== *)
(** Properties of the import of data sets: a text that is printed from a list of comments and
    edges is read back as that list, the graph in memory that is filled by it has a node per
    number and an edge per line, and a weighted data set cannot be imported. *)

From S2P Require Import Prelude Constants HTable ArrayList DiskFile PhysicalDatabase Page PageCache HeaderPage Records HeapFile Chains Incidence HeapDelete Traversal Queries Walks Searches MemGraph MemGraphInv Importer.
From Stdlib Require Import ZArith Lia Ascii String.
From stdpp Require Import base list list_numbers option fin_maps gmap.

#[local] Open Scope Z_scope.

(** ** Printing a data set *)

Definition digit (d : Z) : ascii := ascii_of_N (Z.to_N (48 + d)).
Fixpoint to_digits (fuel : nat) (n : Z) : text :=
  match fuel with
  | O => []
  | S fuel' => (if n <? 10 then [] else to_digits fuel' (n / 10)) ++ [digit (n mod 10)]
  end.
(** Twenty digits are enough for a number of 64 bits. *)
Definition print_number (n : Z) : text := to_digits 20 n.

(** A comment without its first character, or two numbers and the blank between them. *)
Inductive data_line :=
  | Comment (body : text)
  | Data (from to : Z) (blank : ascii).
Definition print_line (l : data_line) : text :=
  match l with
  | Comment body => "#"%char :: (body ++ [newline])
  | Data from to blank => (print_number from ++ (blank :: print_number to)) ++ [newline]
  end.
Definition print_lines (ls : list data_line) : text := concat (map print_line ls).

Definition line_ok (l : data_line) : Prop :=
  match l with
  | Comment body => (newline ∉ body) /\ Z.of_nat (length body) < CHUNK - 2
  | Data from to blank => is_u64 from /\ is_u64 to /\ is_space blank = true /\ blank <> newline
  end.
Definition edges_of (ls : list data_line) : list (Z * Z) :=
  omap (fun l => match l with Comment _ => None | Data from to _ => Some (from, to) end) ls.

(** ** Digits *)

Lemma digit_code d : 0 <= d < 10 -> Z.of_N (N_of_ascii (digit d)) = 48 + d.
Proof. intros Hd. unfold digit. rewrite N_ascii_embedding by lia. lia. Qed.

Lemma digit_of_digit d : 0 <= d < 10 -> digit_of (digit d) = Some d.
Proof.
  intros Hd. unfold digit_of. rewrite digit_code by done.
  replace ((48 <=? 48 + d) && (48 + d <=? 57)) with true by lia. f_equal. lia.
Qed.

(** A digit is none of the characters the scanner looks for. *)
Lemma digit_plain c d : digit_of c = Some d -> is_space c = false /\ c <> newline /\ c <> zero /\ c <> "+"%char /\ c <> "-"%char /\ c <> "#"%char.
Proof.
  unfold digit_of, is_space. destruct ((48 <=? Z.of_N (N_of_ascii c)) && (Z.of_N (N_of_ascii c) <=? 57)) eqn:E; [|done].
  intros _. split; [lia|]. repeat split; intros Hc; rewrite Hc in E; vm_compute in E; discriminate.
Qed.

Lemma to_digits_all fuel n : 0 <= n -> Forall (fun c => is_Some (digit_of c)) (to_digits fuel n).
Proof.
  revert n. induction fuel as [|fuel IH]; intros n Hn; cbn [to_digits]; [constructor|].
  apply Forall_app. split.
  - destruct (n <? 10); [constructor|]. apply IH. by apply Z.div_pos.
  - apply Forall_singleton. rewrite digit_of_digit; [by eexists|]. by apply Z.mod_pos_bound.
Qed.

Lemma to_digits_cons fuel n : 0 <= n -> exists c s, to_digits (S fuel) n = c :: s /\ is_Some (digit_of c).
Proof.
  intros Hn. pose proof (to_digits_all (S fuel) n Hn) as F. cbn [to_digits] in F |- *.
  set (s := if n <? 10 then [] else to_digits fuel (n / 10)) in *. destruct s as [|c s].
  - cbn [app] in F |- *. apply Forall_cons in F as [F _]. by exists (digit (n mod 10)), [].
  - cbn [app] in F |- *. apply Forall_cons in F as [Hc _]. by exists c, (s ++ [digit (n mod 10)]).
Qed.

Lemma scan_digits_print fuel : forall n s, 0 <= n < 10 ^ Z.of_nat fuel -> (0 < fuel)%nat ->
  scan_digits (to_digits fuel n ++ s) 0 = scan_digits s n.
Proof.
  induction fuel as [|fuel IH]; intros n s Hn Hf; [lia|]. cbn [to_digits].
  pose proof (Z.mod_pos_bound n 10 ltac:(lia)). destruct (Z.ltb_spec n 10) as [Hl|Hl].
  - rewrite Z.mod_small by lia. cbn [app scan_digits]. rewrite digit_of_digit by lia. by replace (10 * 0 + n) with n by lia.
  - rewrite <- app_assoc, IH.
    + cbn [app scan_digits]. rewrite digit_of_digit by lia. pose proof (Z.div_mod n 10). by replace (10 * (n / 10) + n mod 10) with n by lia.
    + split; [by apply Z.div_pos; lia|]. apply Z.div_lt_upper_bound; [lia|].
      rewrite Nat2Z.inj_succ, Z.pow_succ_r in Hn by lia. lia.
    + destruct fuel; [|lia]. cbn in Hn. lia.
Qed.

(** A blank ends a number. *)
Lemma scan_digits_stop s n : match s with c :: _ => is_space c = true | [] => True end -> scan_digits s n = (n, s).
Proof.
  destruct s as [|c s]; [done|]. intros Hc. cbn. destruct (digit_of c) as [d|] eqn:E; [|done].
  apply digit_plain in E as [E _]. congruence.
Qed.

Lemma scan_number n s : is_u64 n -> match s with c :: _ => is_space c = true | [] => True end ->
  scan_lu (print_number n ++ s) = Ok (Some (n, s)).
Proof.
  intros Hn Hs. destruct (to_digits_cons 19 n) as (c & t & E & [d Hd]); [apply Hn|].
  pose proof (scan_digits_print 20 n s) as Sc. rewrite (scan_digits_stop s n Hs) in Sc.
  unfold print_number, scan_lu. rewrite E in *. cbn [app] in *. pose proof (digit_plain c d Hd) as (Sp & _ & _ & P & M & _).
  cbn [skip_space]. rewrite Sp. cbn [scan_sign].
  rewrite (proj2 (Ascii.eqb_neq c _) P), (proj2 (Ascii.eqb_neq c _) M).
  rewrite bool_decide_true by (by exists d). rewrite Sc.
  - destruct (Z.ltb_spec ULONG_MAX n) as [Hl|]; [|done]. destruct Hn. unfold ULONG_MAX in Hl. lia.
  - destruct Hn. split; [done|]. change (10 ^ Z.of_nat 20) with 100000000000000000000. lia.
  - lia.
Qed.

(** ** Lines *)

Lemma get_line_ok s rest : forall n, newline ∉ s -> Z.of_nat (length s) < n ->
  get_line n (s ++ newline :: rest) = (s ++ [newline], rest).
Proof.
  induction s as [|c s IH]; intros n Hs Hn; cbn [app get_line].
  - cbn in Hn. rewrite (proj2 (Z.leb_gt n 0)) by lia. by rewrite Ascii.eqb_refl.
  - apply not_elem_of_cons in Hs as [Hc Hs]. cbn [length] in Hn. rewrite (proj2 (Z.leb_gt n 0)) by lia.
    rewrite (proj2 (Ascii.eqb_neq c newline)) by congruence. rewrite IH; [done|done|lia].
Qed.

Lemma c_string_id s : zero ∉ s -> c_string s = s.
Proof.
  induction s as [|c s IH]; [done|]. intros [Hc Hs]%not_elem_of_cons. cbn [c_string].
  rewrite (proj2 (Ascii.eqb_neq c zero)) by congruence. by rewrite IH.
Qed.

Lemma to_digits_length fuel n : (length (to_digits fuel n) <= fuel)%nat.
Proof.
  revert n. induction fuel as [|fuel IH]; intros n; cbn [to_digits]; [done|]. rewrite length_app. cbn [length].
  destruct (n <? 10); [cbn; lia|]. pose proof (IH (n / 10)). lia.
Qed.

(** The characters of a printed number. *)
Lemma print_number_not n c : 0 <= n -> digit_of c = None -> c ∉ print_number n.
Proof.
  intros Hn Hc Hin. pose proof (to_digits_all 20 n Hn) as F. rewrite Forall_forall in F.
  destruct (F c Hin) as [d Hd]. congruence.
Qed.

Lemma space_plain c : is_space c = true -> c <> zero /\ digit_of c = None.
Proof.
  intros Hc. split; [by intros ->|]. destruct (digit_of c) as [d|] eqn:E; [|done]. apply digit_plain in E as [E _]. congruence.
Qed.

(** The first line of a printed data set. *)
Lemma fgets_line l rest : line_ok l -> fgets (print_line l ++ rest) = Some (print_line l, rest).
Proof.
  intros Ok. assert (exists s, print_line l = s ++ [newline] /\ (newline ∉ s) /\ Z.of_nat (length s) < CHUNK - 1) as (s & -> & Hs & Hl).
  { destruct l as [body|from to blank]; cbn [print_line line_ok] in *.
    - destruct Ok as [Hb Hl]. exists ("#"%char :: body). split; [done|]. split; [by apply not_elem_of_cons|]. cbn [length]. lia.
    - destruct Ok as ([Hf _] & [Ht _] & _ & Hn). eexists. split; [reflexivity|]. split.
      + rewrite elem_of_app, elem_of_cons. intros [C|[C|C]]; [|congruence|]; by apply print_number_not in C.
      + rewrite length_app. cbn [length]. pose proof (to_digits_length 20 from). pose proof (to_digits_length 20 to).
        unfold print_number. change (CHUNK - 1) with 524287. lia. }
  rewrite <- app_assoc. cbn [app]. unfold fgets.
  rewrite <- (get_line_ok s rest (CHUNK - 1) Hs Hl). by destruct s.
Qed.

Section Sink.
Context (scan_lf : text -> option (Z * text)) {G : Type} `{EdgeSink G}.
Implicit Types s : import_state G.

(** A printed edge is scanned. *)
Lemma scan_data from to blank : line_ok (Data from to blank) ->
  let buf := c_string (print_line (Data from to blank)) in
  is_comment buf = false /\ scan_line scan_lf false buf = Ok (Some ([from; to], DOUBLE_ONE)).
Proof.
  intros (Hf & Ht & Hb & Hn). cbn [print_line]. destruct (space_plain blank Hb) as [Hz Hd].
  rewrite c_string_id; cycle 1.
  { rewrite !elem_of_app, elem_of_cons, list_elem_of_singleton. intros [[C|[C|C]]|C]; [|congruence| |by discriminate C].
    all: by apply print_number_not in C; [|apply Hf || apply Ht|]. }
  rewrite <- app_assoc. split.
  - unfold print_number. destruct (to_digits_cons 19 from) as (c & t & -> & [d Hc]); [apply Hf|]. cbn.
    apply Ascii.eqb_neq. by apply (digit_plain c d).
  - unfold scan_line. cbn [app]. rewrite scan_number by done. cbn [mbind res_bind skip_space]. rewrite Hb.
    assert (Sk : forall t, skip_space (print_number to ++ t) = print_number to ++ t).
    { intros t. unfold print_number. destruct (to_digits_cons 19 to) as (c & u & -> & [d Hc]); [apply Ht|].
      cbn [app skip_space]. by destruct (digit_plain c d Hc) as [-> _]. }
    rewrite Sk, scan_number by done. done.
Qed.

(** The loop over a printed data set is the one over its edges. *)
Lemma import_lines_print ls : forall fuel s, Forall line_ok ls -> (length (print_lines ls) < fuel)%nat ->
  import_lines scan_lf fuel false (print_lines ls) s =
  for_each (fun '(from, to) s => import_edge false [from; to] DOUBLE_ONE s) (edges_of ls) s.
Proof.
  induction ls as [|l ls IH]; intros fuel s F Hf; (destruct fuel as [|fuel]; [lia|]); [done|].
  apply Forall_cons in F as [Ok F]. cbn [import_lines]. unfold print_lines in *. cbn [map concat] in *.
  rewrite (fgets_line l _ Ok). cbv zeta. rewrite length_app in Hf.
  assert (Hl : (1 <= length (print_line l))%nat) by (destruct l; cbn [print_line]; rewrite ?length_app; cbn; lia).
  destruct l as [body|from to blank].
  - cbn [print_line c_string is_comment]. replace (is_comment _) with true by done. cbn [mbind res_bind]. apply IH; [done|lia].
  - destruct (scan_data from to blank Ok) as [Cm Sc]. cbv zeta in Cm, Sc. rewrite Cm. unfold import_line. rewrite Sc.
    cbn [mbind res_bind]. cbn [edges_of omap list_omap for_each].
    destruct (import_edge false [from; to] DOUBLE_ONE s) as [s'| | |]; cbn [mbind res_bind]; [|done..]. apply IH; [done|lia].
Qed.
End Sink.

(** ** The graph in memory *)

(** The numbers in the order in which they are first seen: number [i] is that of node [i]. *)
Definition see (seen : list Z) (x : Z) : list Z := if decide (x ∈ seen) then seen else seen ++ [x].
Definition first_seen (es : list (Z * Z)) : list Z := foldl (fun seen e => see (see seen e.1) e.2) [] es.

(** The graph has a node per number that was seen, labelled with it, and a relationship per edge,
    labelled with its position, whose ends are the nodes of its two numbers; the chain of a node
    has its relationships in their order.  The tables map numbers and positions to ids. *)
Record filled (seen : list Z) (es : list (Z * Z)) (G : graph) (db : in_memory_graph) (ids_n ids_r : dict_ul_ul) : Prop := Filled {
  fl_graph : mem_graph db G;
  fl_labels : g_labels G = by_id seen;
  fl_nodes : length (node_structs db) = length seen;
  fl_rels : length (rel_structs db) = length es;
  fl_dom : forall x, is_Some (g_edges G !! x) <-> 0 <= x < Z.of_nat (length es);
  fl_edges : forall j a b, es !! j = Some (a, b) -> exists from to, by_id seen !! from = Some a /\ by_id seen !! to = Some b /\
    g_edges G !! Z.of_nat j = Some (Edge from to DOUBLE_ONE (Z.of_nat j));
  fl_inc : forall n, g_inc G n = pick G (dir_edge n BOTH) (seqZ 0 (Z.of_nat (length es)));
  fl_wf_n : wf fnv_hash_ul ids_n;
  fl_ids_n : forall x i, contents ids_n !! x = Some i <-> by_id seen !! i = Some x;
  fl_wf_r : wf fnv_hash_ul ids_r;
  fl_ids_r : forall x, contents ids_r !! x = if decide (0 <= x < Z.of_nat (length es)) then Some x else None }.

Definition filled_by seen es G (s : import_state in_memory_graph) : Prop :=
  filled seen es G (im_graph s) (txt_to_db_id_n s) (txt_to_db_id_r s) /\ im_lines s = Z.of_nat (length es).

Lemma see_mono seen x i y : by_id seen !! i = Some y -> by_id (see seen x) !! i = Some y.
Proof.
  unfold see. case_decide; [done|]. rewrite by_id_snoc. intros E. rewrite lookup_insert_ne; [done|].
  intros <-. by rewrite by_id_fresh in E.
Qed.

Lemma see_elem seen x : exists i, by_id (see seen x) !! i = Some x.
Proof.
  unfold see. case_decide as D.
  - apply list_elem_of_lookup in D as [j Ej]. exists (Z.of_nat j). by rewrite by_id_nat.
  - exists (Z.of_nat (length seen)). rewrite by_id_snoc. apply lookup_insert_eq.
Qed.

Lemma see_length seen x : (length seen <= length (see seen x) <= S (length seen))%nat.
Proof. unfold see. case_decide; [lia|]. rewrite length_app. cbn. lia. Qed.

Lemma pick_ext G G' p l : (forall x, x ∈ l -> sel G p x = sel G' p x) -> pick G p l = pick G' p l.
Proof.
  induction l as [|x l IH]; intros E; [done|]. rewrite !pick_cons, (E x) by left. rewrite IH; [done|]. intros y Hy. apply E. by right.
Qed.

(** A node that the graph does not have is no end of an edge. *)
Lemma pick_missing g G n l : represents g G -> g_labels G !! n = None -> pick G (dir_edge n BOTH) l = [].
Proof.
  intros R Hn. induction l as [|x l IH]; [done|]. rewrite pick_cons, IH. unfold sel. destruct (g_edges G !! x) as [e|] eqn:E; [|done].
  destruct (rg_ends _ _ R x e E) as (Hs & Ht & _). unfold dir_edge. cbn.
  destruct (Z.eqb_spec (e_source e) n) as [<-|_]; [rewrite Hn in Hs; by destruct Hs|].
  destruct (Z.eqb_spec (e_target e) n) as [<-|_]; [rewrite Hn in Ht; by destruct Ht|]. done.
Qed.

Lemma import_field_ok seen es G s from_to i x : filled_by seen es G s -> Z.of_nat (length seen) < 2 ^ 59 ->
  from_to !! Z.to_nat i = Some x ->
  exists id s' G', import_field i (from_to, s) = Ok (<[Z.to_nat i := id]> from_to, s') /\
    filled_by (see seen x) es G' s' /\ by_id (see seen x) !! id = Some x.
Proof.
  intros [F L] Hs Ei. pose proof F as [M Lb Ln Lr Dm Ed Inc Wn In Wr Ir].
  unfold import_field. rewrite Ei. cbn [deref mbind res_bind]. rewrite (dict_contains_get _ _ Wn). cbn [mbind res_bind].
  unfold see. case_bool_decide as D.
  - destruct D as [id Hid]. rewrite (dict_get_ok _ _ Wn), Hid. cbn [or_exit mbind res_bind]. apply In in Hid.
    exists id, s, G. split; [done|]. rewrite decide_True; [done|]. apply by_id_lookup in Hid as [_ Hid]. by eapply list_elem_of_lookup_2.
  - assert (Nx : x ∉ seen).
    { intros (j & Ej)%list_elem_of_lookup. apply D. exists (Z.of_nat j). apply In. by rewrite by_id_nat. }
    rewrite decide_False by done.
    destruct (create_node_mem _ G x M) as (db' & E & Fr & M' & Rs & Ns); [by rewrite Ln|].
    cbn [sink_node in_memory_sink]. rewrite E. cbn [mbind res_bind]. pose proof (mg_n_nodes _ _ M) as N. rewrite Ln in N. rewrite N in *.
    destruct (dict_insert_ok (txt_to_db_id_n s) x (Z.of_nat (length seen)) Wn) as (t' & -> & W' & C'). cbn [mbind res_bind].
    eexists _, _, (add_node G (Z.of_nat (length seen)) x). split; [reflexivity|]. split; [|rewrite by_id_snoc; apply lookup_insert_eq].
    split; [|done]. cbn [im_graph txt_to_db_id_n txt_to_db_id_r]. split; cbn [add_node g_labels g_edges g_inc].
    + done.
    + by rewrite by_id_snoc, Lb.
    + rewrite Ns, Ln, length_app. cbn. lia.
    + by rewrite Rs.
    + done.
    + intros j a b Ej. destruct (Ed j a b Ej) as (from & to & Ha & Hb & He). exists from, to.
      pose proof (see_mono seen x) as Mo. unfold see in Mo. rewrite decide_False in Mo by done. by split_and!; [apply Mo|apply Mo|].
    + intros n. rewrite Inc. case_decide as Dn; [|done]. subst n. symmetry.
      rewrite <- (pick_missing _ G _ (seqZ 0 (Z.of_nat (length es))) (mg_represents _ _ M) Fr). by apply pick_ext.
    + done.
    + intros y k. rewrite C', by_id_snoc, !lookup_insert_Some. split.
      * intros [[<- <-]|[Hy Hk%In]]; [by left|]. right. split; [|done]. intros <-. by rewrite by_id_fresh in Hk.
      * intros [[<- <-]|[Hy Hk]]; [by left|]. right. split; [|by apply In]. intros <-. apply by_id_lookup in Hk as [_ Hk]. apply Nx. by eapply list_elem_of_lookup_2.
    + done.
    + done.
Qed.

Lemma import_edge_ok seen es G s a b : filled_by seen es G s -> Z.of_nat (length seen) + 2 < 2 ^ 59 -> Z.of_nat (length es) + 1 < 2 ^ 59 ->
  exists s' G', import_edge false [a; b] DOUBLE_ONE s = Ok s' /\ filled_by (see (see seen a) b) (es ++ [(a, b)]) G' s'.
Proof.
  intros F Hs He. unfold import_edge.
  destruct (import_field_ok seen es G s [a; b] 0 a F) as (from & s1 & G1 & E1 & F1 & Hf); [lia|done|].
  pose proof (see_length seen a) as L1.
  destruct (import_field_ok (see seen a) es G1 s1 [from; b] 1 b F1) as (to & s2 & G2 & E2 & [F2 Ln2] & Ht); [lia|done|].
  cbn [for_loop]. rewrite E1. cbn [mbind res_bind]. change (<[Z.to_nat 0 := from]> [a; b]) with [from; b]. rewrite Z.add_0_l, E2.
  cbn [mbind res_bind]. change (<[Z.to_nat 1 := to]> [from; b]) with [from; to]. cbn [lookup list_lookup deref mbind res_bind].
  apply (see_mono _ b) in Hf. set (seen' := see (see seen a) b) in *. pose proof F2 as [M Lb Ln Lr Dm Ed Inc Wn In Wr Ir].
  destruct (create_relationship_mem (im_graph s2) G2 M from to DOUBLE_ONE (im_lines s2)) as (db' & E & Fr & M' & Ns & Rs);
    [by rewrite Lb, Hf|by rewrite Lb, Ht|by vm_compute|cbv zeta; rewrite Lr; lia|].
  cbv zeta in E, Fr, M'.
  rewrite Lr, Ln2 in *. cbn [sink_relationship in_memory_sink]. rewrite E. cbn [mbind res_bind].
  set (m := Z.of_nat (length es)) in *.
  destruct (dict_insert_ok (txt_to_db_id_r s2) m m Wr) as (t' & -> & W' & C'). cbn [mbind res_bind].
  eexists _, _. split; [reflexivity|]. assert (Lm : Z.of_nat (length (es ++ [(a, b)])) = m + 1) by (rewrite length_app; cbn; lia).
  split; [|cbn [im_lines]; rewrite Lm; apply u64_small; split; [lia|]; unfold m; lia].
  cbn [im_graph txt_to_db_id_n txt_to_db_id_r]. split; [exact M'|..]; cbn [add_edge g_labels g_edges g_inc].
  - done.
  - by rewrite Ns.
  - rewrite Rs, length_app. cbn. lia.
  - intros x. rewrite Lm, lookup_insert_is_Some, Dm. lia.
  - intros j c d Ej. destruct (decide (j = length es)) as [->|Hj].
    + rewrite lookup_app_r, Nat.sub_diag in Ej by lia. injection Ej as <- <-. exists from, to.
      split_and!; [done|done|apply lookup_insert_eq].
    + assert (j < length (es ++ [(a, b)]))%nat by (by eapply lookup_lt_Some). rewrite length_app in *. cbn in *.
      rewrite lookup_app_l in Ej by lia. destruct (Ed j c d Ej) as (f & t & Ha & Hb & He'). exists f, t.
      split_and!; [done|done|]. rewrite lookup_insert_ne; [done|unfold m; lia].
  - intros n. rewrite Inc, Lm, seqZ_app, pick_app by lia. cbn [seqZ].
    assert (Old : pick (add_edge G2 m (Edge from to DOUBLE_ONE m)) (dir_edge n BOTH) (seqZ 0 m) = pick G2 (dir_edge n BOTH) (seqZ 0 m)).
    { apply pick_ext. intros x Hx%elem_of_seqZ. unfold sel. cbn [add_edge g_edges]. rewrite lookup_insert_ne by lia. done. }
    fold m. rewrite Old. replace (seqZ (0 + m) 1) with [m] by (unfold seqZ; cbn; f_equal; lia).
    rewrite pick_cons. unfold sel. cbn [add_edge g_edges]. rewrite lookup_insert_eq. unfold dir_edge. cbn [e_source e_target].
    case_decide as D.
    + by destruct D as [-> | ->]; rewrite Z.eqb_refl, ?orb_true_r.
    + apply Decidable.not_or in D as [D1 D2]. rewrite (proj2 (Z.eqb_neq from n) D1), (proj2 (Z.eqb_neq to n) D2). cbn. by rewrite app_nil_r.
  - done.
  - done.
  - done.
  - intros x. rewrite C', Lm, lookup_insert. destruct (decide (m = x)) as [<-|Hx]; [by rewrite decide_True by lia|].
    rewrite Ir. apply decide_ext. fold m. lia.
Qed.

Lemma first_seen_snoc es a b : first_seen (es ++ [(a, b)]) = see (see (first_seen es) a) b.
Proof. unfold first_seen. by rewrite foldl_app. Qed.

Lemma first_seen_length es : (length (first_seen es) <= 2 * length es)%nat.
Proof.
  induction es as [|[a b] es IH] using rev_ind; [done|]. rewrite first_seen_snoc, length_app. cbn.
  pose proof (see_length (first_seen es) a). pose proof (see_length (see (first_seen es) a) b). lia.
Qed.

Lemma import_edges_ok es seed_nodes seed_rels seed_n seed_r : 2 * Z.of_nat (length es) < 2 ^ 59 ->
  exists s G, for_each (fun '(from, to) s => import_edge false [from; to] DOUBLE_ONE s) es
    (ImportState (in_memory_graph_create seed_nodes seed_rels) (d_ul_ul_create seed_n) (d_ul_ul_create seed_r) 0) = Ok s /\
    filled_by (first_seen es) es G s.
Proof.
  intros Hl. set (I := fun ys (s : import_state in_memory_graph) => exists G, filled_by (first_seen ys) ys G s).
  destruct (for_each_inv I (fun '(from, to) s => import_edge false [from; to] DOUBLE_ONE s) es
    (ImportState (in_memory_graph_create seed_nodes seed_rels) (d_ul_ul_create seed_n) (d_ul_ul_create seed_r) 0)) as (s & E & G & F).
  - exists empty_graph. split; [|done]. cbn [im_graph txt_to_db_id_n txt_to_db_id_r].
    destruct (dict_create_ok seed_n) as [Wn Cn], (dict_create_ok seed_r) as [Wr Cr].
    split; [apply in_memory_graph_create_ok|done|done|done|..]; cbn [empty_graph g_edges g_labels g_inc length].
    + intros x. rewrite lookup_empty. split; [by intros []|lia].
    + done.
    + done.
    + done.
    + intros x i. rewrite Cn, lookup_empty. split; [done|]. intros [_ E]%by_id_lookup. done.
    + done.
    + intros x. rewrite Cr, lookup_empty, decide_False by lia. done.
  - intros ys [a b] zs s Eq [G F]. assert (Hy : (length ys < length es)%nat) by (rewrite Eq, length_app; cbn; lia).
    pose proof (first_seen_length ys). destruct (import_edge_ok (first_seen ys) ys G s a b F) as (s' & G' & E & F'); [lia|lia|].
    exists s'. split; [done|]. exists G'. by rewrite first_seen_snoc.
  - by exists s, G.
Qed.

(** ** Weighted data sets *)

(** The text has a line that is not a comment. *)
Fixpoint has_data (fuel : nat) (s : text) : bool :=
  match fuel with
  | O => false
  | S fuel' =>
      match fgets s with
      | None => false
      | Some (line, rest) => negb (is_comment (c_string line)) || has_data fuel' rest
      end
  end.

Section Weighted.
Context (scan_lf : text -> option (Z * text)) {G : Type} `{EdgeSink G}.
Implicit Types s : import_state G.

Lemma import_field_length i from_to s from_to' s' : import_field i (from_to, s) = Ok (from_to', s') -> length from_to' = length from_to.
Proof.
  unfold import_field. destruct (from_to !! Z.to_nat i) as [x|]; cbn [deref mbind res_bind]; [|done].
  destruct (dict_contains _ _) as [[]| | |]; cbn [mbind res_bind]; try done.
  - destruct (dict_get_direct _ _) as [id| | |]; cbn [mbind res_bind]; try done. intros [= <- _]. apply length_insert.
  - destruct (sink_node _ _) as [[id g]| | |]; cbn [mbind res_bind]; try done.
    destruct (dict_insert _ _ _); cbn [mbind res_bind]; try done. intros [= <- _]. apply length_insert.
Qed.

(** The third field is read past the end of [from_to]. *)
Lemma weighted_edge_fails from_to w s : length from_to = 2%nat -> forall s', import_edge true from_to w s <> Ok s'.
Proof.
  intros Hl s'. unfold import_edge. rewrite !for_loop_S.
  destruct (import_field 0 (from_to, s)) as [[ft1 s1]| | |] eqn:E1; cbn [mbind res_bind]; try done. rewrite for_loop_S.
  destruct (import_field (0 + 1) (ft1, s1)) as [[ft2 s2]| | |] eqn:E2; cbn [mbind res_bind]; try done. rewrite for_loop_S.
  assert (L2 : length ft2 = 2%nat) by (by rewrite (import_field_length _ _ _ _ _ E2), (import_field_length _ _ _ _ _ E1)).
  assert (import_field (0 + 1 + 1) (ft2, s2) = Undef) as ->; [|done].
  unfold import_field. rewrite (lookup_ge_None_2 ft2); [done|]. rewrite L2. reflexivity.
Qed.

Lemma weighted_lines_fail fuel : forall t s s', has_data fuel t = true -> import_lines scan_lf fuel true t s <> Ok s'.
Proof.
  induction fuel as [|fuel IH]; intros t s s'; cbn [has_data import_lines]; [done|].
  destruct (fgets t) as [[line rest]|]; [|done]. cbv zeta. destruct (is_comment (c_string line)); cbn [negb orb mbind res_bind]; [apply IH|].
  intros _. unfold import_line, scan_line. destruct (scan_lu (c_string line)) as [[[from r]|]| | |]; cbn [mbind res_bind]; try done.
  destruct (scan_lu (skip_space r)) as [[[to r']|]| | |]; cbn [mbind res_bind]; try done.
  destruct (scan_lf (skip_space r')) as [[w r'']|]; [|done]. cbn [mbind res_bind].
  destruct (import_edge true [from; to] w s) as [s1| | |] eqn:E; try done.
  destruct (weighted_edge_fails [from; to] w s eq_refl s1 E).
Qed.
End Weighted.

(** ** Properties *)

(** C26: A text printed from comments and pairs of numbers, with any blank between the numbers, is
    read back: the import ends and adds the pairs one after the other, to whatever is filled. *)
Theorem import_reads_printed_lines {G : Type} `{EdgeSink G} (scan_lf : text -> option (Z * text)) (ls : list data_line)
    (g : G) (seed_n seed_r : Z) (Hls : Forall line_ok ls) :
  import_text scan_lf g (Some (print_lines ls)) false seed_n seed_r =
  for_each (fun '(from, to) s => import_edge false [from; to] DOUBLE_ONE s) (edges_of ls)
    (ImportState g (d_ul_ul_create seed_n) (d_ul_ul_create seed_r) 0).
Proof. unfold import_text. apply import_lines_print; [done|lia]. Qed.

Definition tab : ascii := ascii_of_nat 9.
Definition sample_lines : list data_line :=
  [Comment (list_ascii_of_string " FromNodeId ToNodeId"); Data 30 1412 tab; Data 3352 30 " "%char; Data 30 30 tab].
Lemma sample_lines_ok : Forall line_ok sample_lines.
Proof.
  repeat (apply Forall_cons; split); [..|constructor]; cbn [line_ok].
  - split; [|done]. intros Hn. by vm_compute in Hn; repeat (apply elem_of_cons in Hn as [Hn|Hn]; [discriminate Hn|]); apply elem_of_nil in Hn.
  - split_and!; [by split|by split|done|done].
  - split_and!; [by split|by split|done|done].
  - split_and!; [by split|by split|done|done].
Qed.

Lemma import_reads_printed_lines_witness :
  string_of_list_ascii (firstn 29 (print_lines sample_lines)) = ("# FromNodeId ToNodeId" ++ string_of_list_ascii [newline] ++ "30" ++ string_of_list_ascii [tab] ++ "1412")%string /\
  import_text (fun _ => None) (in_memory_graph_create 1 2) (Some (print_lines sample_lines)) false 3 4 =
  for_each (fun '(from, to) s => import_edge false [from; to] DOUBLE_ONE s) [(30, 1412); (3352, 30); (30, 30)]
    (ImportState (in_memory_graph_create 1 2) (d_ul_ul_create 3) (d_ul_ul_create 4) 0).
Proof.
  split; [vm_compute; reflexivity|].
  exact (import_reads_printed_lines (fun _ => None) sample_lines (in_memory_graph_create 1 2) 3 4 sample_lines_ok).
Defined.

(** C23: The import into a new graph in memory ends, and the graph has one node per number of the
    text and one relationship per line of data, between the nodes of its two numbers; the
    tables that are returned map the numbers and the lines to their ids. *)
Theorem in_memory_import_builds_graph (scan_lf : text -> option (Z * text)) (ls : list data_line)
    (seed_nodes seed_rels seed_n seed_r : Z) (Hls : Forall line_ok ls) (Hl : 2 * Z.of_nat (length (edges_of ls)) < 2 ^ 59) :
  exists ids_n ids_r db G,
    in_memory_import_from_txt scan_lf (in_memory_graph_create seed_nodes seed_rels) (Some (print_lines ls)) false seed_n seed_r
      = Ok (ids_n, ids_r, db) /\
    filled (first_seen (edges_of ls)) (edges_of ls) G db ids_n ids_r.
Proof.
  destruct (import_edges_ok (edges_of ls) seed_nodes seed_rels seed_n seed_r Hl) as (s & G & E & F & _).
  exists (txt_to_db_id_n s), (txt_to_db_id_r s), (im_graph s), G. split; [|exact F].
  unfold in_memory_import_from_txt, import_text. rewrite import_lines_print by (done || lia). by rewrite E.
Qed.

Lemma in_memory_import_builds_graph_witness :
  exists ids_n ids_r db G,
    in_memory_import_from_txt (fun _ => None) (in_memory_graph_create 1 2) (Some (print_lines sample_lines)) false 3 4
      = Ok (ids_n, ids_r, db) /\
    mem_graph db G /\ g_labels G !! 2 = Some 3352 /\ g_inc G 0 = [0; 1; 2] /\ contents ids_n !! 1412 = Some 1.
Proof.
  destruct (in_memory_import_builds_graph (fun _ => None) sample_lines 1 2 3 4 sample_lines_ok) as (ids_n & ids_r & db & G & E & F); [done|].
  exists ids_n, ids_r, db, G. pose proof (fl_edges _ _ _ _ _ _ F) as Ed. split; [exact E|]. split; [apply F|]. split; [by rewrite (fl_labels _ _ _ _ _ _ F)|].
  split; [|by apply (fl_ids_n _ _ _ _ _ _ F)]. rewrite (fl_inc _ _ _ _ _ _ F). change (seqZ 0 _) with [0; 1; 2].
  assert (At : forall k, by_id (first_seen (edges_of sample_lines)) !! k = Some 30 -> k = 0).
  { intros k [Hk E']%by_id_lookup. assert (Z.to_nat k < 3)%nat by (by apply lookup_lt_Some in E').
    assert (k = 0 \/ k = 1 \/ k = 2) as [-> |[-> | ->]] by lia; [done|discriminate E'|discriminate E']. }
  destruct (Ed 0%nat 30 1412 eq_refl) as (f0 & t0 & H0 & _ & E0), (Ed 1%nat 3352 30 eq_refl) as (f1 & t1 & _ & H1 & E1),
    (Ed 2%nat 30 30 eq_refl) as (f2 & t2 & H2 & _ & E2).
  apply At in H0, H1, H2. subst f0 t1 f2. unfold pick. cbn [List.filter]. unfold sel.
  change (Z.of_nat 0) with 0 in E0. change (Z.of_nat 1) with 1 in E1. change (Z.of_nat 2) with 2 in E2.
  rewrite E0, E1, E2. unfold dir_edge. cbn. by rewrite orb_true_r.
Defined.

(** C27: A weighted data set cannot be imported, into a heap file or into memory: unless all lines
    are comments, the import does not return, since it takes the weight for a third node and
    reads past the end of [from_to]. *)
Theorem weighted_import_never_returns `{Sysconf} (scan_lf : text -> option (Z * text)) (t : text) (seed_n seed_r : Z)
    (Hd : has_data (S (length t)) t = true) :
  (forall g r, in_memory_import_from_txt scan_lf g (Some t) true seed_n seed_r <> Ok r) /\
  (forall hf dataset r, import_from_txt scan_lf hf (Some t) true dataset seed_n seed_r <> Ok r).
Proof.
  split.
  - intros g r. unfold in_memory_import_from_txt, import_text.
    destruct (import_lines _ _ _ _ _) as [s| | |] eqn:E; cbn [mbind res_bind]; try done. by apply weighted_lines_fail in E.
  - intros hf dataset r. unfold import_from_txt. rewrite bool_decide_false by done.
    destruct (allocate_pages _ node_ft _ _) as [db| | |]; cbn [mbind res_bind]; try done.
    destruct (allocate_pages db _ _ _) as [db'| | |]; cbn [mbind res_bind]; try done. unfold import_text.
    destruct (import_lines _ _ _ _ _) as [s| | |] eqn:E; cbn [mbind res_bind]; try done. by apply weighted_lines_fail in E.
Qed.

(** One relationship with a weight: undefined behaviour. *)
Lemma weighted_import_never_returns_witness :
  let t := list_ascii_of_string "1 2 0.5" in
  let scan_lf := fun s : text => match s with [] => None | _ => Some (DOUBLE_ONE, []) end in
  in_memory_import_from_txt scan_lf (in_memory_graph_create 1 2) (Some t) true 3 4 = Undef /\
  forall r, in_memory_import_from_txt scan_lf (in_memory_graph_create 1 2) (Some t) true 3 4 <> Ok r.
Proof.
  intros t scan_lf. split; [vm_compute; reflexivity|]. intros r.
  apply (weighted_import_never_returns (H := x86_pages) scan_lf t 3 4); vm_compute; reflexivity.
Defined.
