(* ===== verification/HeapSteps.v ===== *)
(** The operations on the heap file and on the orders of records as one labelled transition
    system, and the graph they act on as another.

    [run_op] runs an operation, [graph_step] says what it may do to a graph, and [admissible]
    when a client may call it.  An admissible operation on a heap file that stands for a graph
    ends, and the heap file then stands for a graph after a step of the operation; so does
    every heap file that is reached by admissible operations. *)

From S2P Require Import Prelude Constants LinkedList HTable HSet ArrayList DiskFile PhysicalDatabase Page PageCache PageCacheInv HeaderPage Records HeapFile HeapFileInv HeapRecords HeapStore Chains Incidence HeapDelete Traversal HeapProps Queries Walks Searches Orders RandomOrders Renaming RecordKinds SwapRecords SwapRels Reordering IncidenceSort.
From Stdlib Require Import ZArith Lia.
From stdpp Require Import base list option relations fin_maps fin_sets gmap.

#[local] Open Scope Z_scope.

(** ** Operations *)

Inductive operation :=
  | CreateNode (label : Z)
  | CreateRelationship (from to weight label : Z)
  | DeleteRelationship (id : Z)
  | DeleteNode (id : Z)
  | Expand (id : Z) (direction : direction_t)
  | SwapNodes (fst snd : Z)
  | SwapRelationships (fst snd : Z)
  | SortIncidence (seed : Z).

(** What an operation may do to a graph; the ids of new records are any that are free. *)
Inductive graph_step : operation -> graph -> graph -> Prop :=
  | StepNode G id label : g_labels G !! id = None -> graph_step (CreateNode label) G (add_node G id label)
  | StepRelationship G id from to w label : g_edges G !! id = None ->
      is_Some (g_labels G !! from) -> is_Some (g_labels G !! to) ->
      graph_step (CreateRelationship from to w label) G (add_edge G id (Edge from to w label))
  | StepDeleteRelationship G id : is_Some (g_edges G !! id) -> graph_step (DeleteRelationship id) G (del_edge G id)
  | StepDeleteNode G id : is_Some (g_labels G !! id) ->
      graph_step (DeleteNode id) G (del_node (del_edges G (reverse (g_inc G id))) id)
  | StepExpand G id d : is_Some (g_labels G !! id) -> graph_step (Expand id d) G G
  | StepSwapNodes G G' a b : nodes_renamed (swap_id a b) G G' -> graph_step (SwapNodes a b) G G'
  | StepSwapRelationships G G' a b : rels_renamed (swap_id a b) G G' -> graph_step (SwapRelationships a b) G G'
  | StepSort G G' seed : g_labels G' = g_labels G -> g_edges G' = g_edges G ->
      (forall n, is_Some (g_labels G !! n) -> sorted_from (g_inc G n) (g_inc G' n)) ->
      graph_step (SortIncidence seed) G G'.

Section Steps.
Context `{RecordPages}.
Implicit Types (hf : heap_file) (G : graph) (log : bool).

Definition run_op log (o : operation) hf : res heap_file :=
  match o with
  | CreateNode label => '(_, hf) ← create_node hf label log; Ok hf
  | CreateRelationship from to w label => '(_, hf) ← create_relationship hf from to w label log; Ok hf
  | DeleteRelationship id => delete_relationship hf id log
  | DeleteNode id => delete_node hf id log
  | Expand id d => '(_, hf) ← expand hf id d log; Ok hf
  | SwapNodes a b => swap_nodes hf a b log
  | SwapRelationships a b => swap_relationships hf a b log
  | SortIncidence seed => sort_incidence_list hf log seed
  end.

(** The files may still grow, ids are those of records, fields have the width of the format,
    and no deletion or exchange is one of those that leave dangling references. *)
Definition admissible (o : operation) hf G : Prop :=
  match o with
  | CreateNode label => room hf true 1 /\ is_u64 label
  | CreateRelationship from to w label =>
      room hf false 1 /\ is_Some (g_labels G !! from) /\ is_Some (g_labels G !! to) /\
      is_u64 w /\ is_u64 label /\ double_eqb w UNINITIALIZED_WEIGHT = false
  | DeleteRelationship id => is_Some (g_edges G !! id) /\ clean G id
  | DeleteNode id => is_Some (g_labels G !! id) /\ clean_seq G (reverse (g_inc G id))
  | Expand id _ => is_Some (g_labels G !! id)
  | SwapNodes a b => in_file (hf_cache hf) true a /\ in_file (hf_cache hf) true b /\
      (is_Some (g_labels G !! a) -> g_labels G !! b = None -> g_inc G a = [])
  | SwapRelationships a b => in_file (hf_cache hf) false a /\ in_file (hf_cache hf) false b
  | SortIncidence _ => loop_free G
  end.

Lemma expand_graph hf G n d log : graph_file hf G -> is_Some (g_labels G !! n) ->
  exists l hf', expand hf n d log = Ok (l, hf') /\ graph_file hf' G.
Proof. intros GF Hn. destruct (expand_serves hf G n d log GF Hn) as (l & rs & hf' & E & _ & _ & _ & GF'). by exists l, hf'. Qed.

Lemma op_simulates log o hf G : graph_file hf G -> admissible o hf G ->
  exists hf' G', run_op log o hf = Ok hf' /\ graph_file hf' G' /\ graph_step o G G'.
Proof.
  intros GF A. destruct o as [lb|from to w lb|id|id|id d|a b|a b|seed]; cbn [run_op admissible] in *.
  - destruct A as [Rm U]. destruct (create_node_graph hf G lb log GF Rm U) as (id & hf' & -> & Fr & GF' & _).
    eexists _, _. split_and!; [done|done|by constructor].
  - destruct A as (Rm & Hf & Ht & Uw & Ul & W).
    destruct (create_relationship_graph hf G from to w lb log GF Rm Hf Ht Uw Ul W) as (id & hf' & -> & Fr & GF' & _).
    eexists _, _. split_and!; [done|done|by constructor].
  - destruct A as [Hi Cl]. destruct (delete_relationship_graph hf G id log GF Hi Cl) as (hf' & -> & GF' & _).
    eexists _, _. split_and!; [done|done|by constructor].
  - destruct A as [Hn Cl]. destruct (delete_node_graph hf G id log GF Hn Cl) as (hf' & -> & GF').
    eexists _, _. split_and!; [done|done|by constructor].
  - destruct (expand_graph hf G id d log GF A) as (l & hf' & -> & GF'). eexists _, _. split_and!; [done|done|by constructor].
  - destruct A as (Ia & Ib & Hinc). destruct (swap_graph hf G true a b log GF Ia Ib) as (hf' & G' & E & GF' & Rn & _); [done|].
    exists hf', G'. split_and!; [done|done|by constructor].
  - destruct A as [Ia Ib]. destruct (swap_graph hf G false a b log GF Ia Ib) as (hf' & G' & E & GF' & Rn & _); [done|].
    exists hf', G'. split_and!; [done|done|by constructor].
  - destruct (sort_all_ok hf G seed log GF A) as (hf' & G' & E & GF' & L & Ed & So).
    exists hf', G'. split_and!; [done|done|by constructor].
Qed.

(** A step of a client that calls an operation when it is admissible for what the heap file stands for. *)
Definition client_step hf hf' : Prop :=
  exists o log, (forall G, graph_file hf G -> admissible o hf G) /\ run_op log o hf = Ok hf'.
Definition any_step G G' : Prop := exists o, graph_step o G G'.

(** C2: Every operation that is admissible makes progress and keeps the heap file well formed: it
    returns, without an error and without running forever, and the heap file then stands for
    the graph after a step of that operation. *)
Theorem operations_progress_and_preserve (log : bool) (o : operation) (hf : heap_file) (G : graph)
    (GF : graph_file hf G) (A : admissible o hf G) :
  exists hf' G', run_op log o hf = Ok hf' /\ graph_file hf' G' /\ graph_step o G G'.
Proof. by apply op_simulates. Qed.

(** C3: The heap files that a client reaches by admissible operations simulate the graph: each
    stands for a graph that is reached by steps on the graph of the first. *)
Theorem reachable_heap_files_are_graphs (hf hf' : heap_file) (G : graph) (GF : graph_file hf G) (Re : rtc client_step hf hf') :
  exists G', graph_file hf' G' /\ rtc any_step G G'.
Proof.
  revert G GF. induction Re as [hf|hf hf1 hf' (o & log & A & E) _ IH]; intros G GF; [by exists G|].
  destruct (op_simulates log o hf G GF (A G GF)) as (hf2 & G1 & E1 & GF1 & St). rewrite E in E1. injection E1 as <-.
  destruct (IH G1 GF1) as (G' & GF' & Rs). exists G'. split; [done|]. eapply rtc_l; [by exists o|done].
Qed.
End Steps.

#[local] Existing Instance x86_pages.

(** A node of a new heap file is created and expanded. *)
Lemma operations_progress_and_preserve_witness :
  exists hf hf1 G1 hf2 G2 id, graph_file hf empty_graph /\ run_op true (CreateNode 7) hf = Ok hf1 /\ graph_file hf1 G1 /\
    run_op true (Expand id BOTH) hf1 = Ok hf2 /\ graph_file hf2 G2 /\ g_labels G2 !! id = Some 7.
Proof.
  destruct sample_new as (pc & hf & _ & _ & _ & GF & Rm).
  destruct (operations_progress_and_preserve true (CreateNode 7) hf empty_graph GF) as (hf1 & G1 & E1 & GF1 & S1).
  { split; [|by split]. pose proof rp_min. destruct (Rm true). split; nia. }
  inversion S1 as [? id ? Fr Eq1 Eq2 Eq3| | | | | | |]; subst.
  destruct (operations_progress_and_preserve true (Expand id BOTH) hf1 _ GF1) as (hf2 & G2 & E2 & GF2 & S2).
  { cbn. rewrite lookup_insert_eq. by eexists. }
  inversion S2; subst. eexists hf, hf1, _, hf2, _, id. split_and!; [exact GF|exact E1|exact GF1|exact E2|exact GF2|].
  cbn. apply lookup_insert_eq.
Defined.

Lemma reachable_heap_files_are_graphs_witness :
  exists hf hf' G', graph_file hf empty_graph /\ client_step hf hf' /\ graph_file hf' G' /\ rtc any_step empty_graph G'.
Proof.
  destruct sample_new as (pc & hf & _ & _ & _ & GF & Rm).
  assert (A : forall G, graph_file hf G -> admissible (CreateNode 7) hf G).
  { intros G _. split; [|by split]. pose proof rp_min. destruct (Rm true). split; nia. }
  destruct (op_simulates true (CreateNode 7) hf empty_graph GF (A _ GF)) as (hf' & _ & E & _ & _).
  assert (St : client_step hf hf') by (by exists (CreateNode 7), true).
  destruct (reachable_heap_files_are_graphs hf hf' empty_graph GF (rtc_once _ _ St)) as (G' & GF' & Rs).
  by exists hf, hf', G'.
Defined.
