(* ===== verification/Backends.v ===== *)
(** The heap file and the graph in memory, which give their records different ids, agree: on
    the same graph up to the names of nodes and relationships, both copies of expand list the
    same relationships in the same order. *)

From S2P Require Import Prelude Constants LinkedList HTable ArrayList DiskFile PhysicalDatabase Page PageCache PageCacheInv HeaderPage Records HeapFile HeapFileInv HeapRecords Chains Incidence Traversal HeapProps MemGraph MemGraphInv MemTraversal Orders RandomOrders Renaming.
From Stdlib Require Import ZArith Lia.
From stdpp Require Import base list option fin_maps gmap.

#[local] Open Scope Z_scope.

(** [G2] is [G1] with each node [n] called [fn n] and each relationship [x] called [fr x]. *)
Record same_graph (fn fr : Z -> Z) (G1 G2 : graph) : Prop := SameGraph {
  sg_renamed : exists G, nodes_renamed fn G1 G /\ rels_renamed fr G G2;
  sg_inj : forall n n', is_Some (g_labels G1 !! n) -> is_Some (g_labels G1 !! n') -> fn n = fn n' -> n = n' }.

Section Pick.
Context (fn fr : Z -> Z) (G1 G2 : graph).
Hypothesis Sg : same_graph fn fr G1 G2.
Hypothesis Ends : forall x e, g_edges G1 !! x = Some e -> is_Some (g_labels G1 !! e_source e) /\ is_Some (g_labels G1 !! e_target e).

Lemma same_label n : g_labels G2 !! fn n = g_labels G1 !! n.
Proof. destruct (sg_renamed _ _ _ _ Sg) as (G & Rn & Rr). by rewrite (rr_labels _ _ _ Rr), (nr_labels _ _ _ Rn). Qed.
Lemma same_edge x : g_edges G2 !! fr x = rename_ends fn <$> g_edges G1 !! x.
Proof. destruct (sg_renamed _ _ _ _ Sg) as (G & Rn & Rr). by rewrite (rr_edges _ _ _ Rr), (nr_edges _ _ _ Rn). Qed.
Lemma same_inc n : is_Some (g_labels G1 !! n) -> g_inc G2 (fn n) = fr <$> g_inc G1 n.
Proof.
  intros Hn. destruct (sg_renamed _ _ _ _ Sg) as (G & Rn & Rr).
  rewrite (rr_inc _ _ _ Rr) by (by rewrite (nr_labels _ _ _ Rn)). by rewrite (nr_inc _ _ _ Rn).
Qed.

Lemma same_sel n d x : is_Some (g_labels G1 !! n) -> sel G2 (dir_edge (fn n) d) (fr x) = sel G1 (dir_edge n d) x.
Proof.
  intros Hn. unfold sel. rewrite same_edge. destruct (g_edges G1 !! x) as [e|] eqn:E; [|done]. cbn.
  destruct (Ends x e E) as [Hs Ht]. unfold dir_edge. cbn [rename_ends e_source e_target].
  assert (Eq : forall m, is_Some (g_labels G1 !! m) -> (fn m =? fn n) = (m =? n)).
  { intros m Hm. destruct (Z.eqb_spec m n) as [->|Hne]; [apply Z.eqb_refl|]. apply Z.eqb_neq. intros C. by apply Hne, (sg_inj _ _ _ _ Sg). }
  by rewrite !Eq.
Qed.

Lemma same_pick n d l : is_Some (g_labels G1 !! n) -> pick G2 (dir_edge (fn n) d) (fr <$> l) = fr <$> pick G1 (dir_edge n d) l.
Proof.
  intros Hn. induction l as [|x l IH]; [done|]. rewrite fmap_cons, !pick_cons, same_sel, IH by done.
  by destruct (sel G1 (dir_edge n d) x).
Qed.
End Pick.

(** C24: On a heap file and a graph in memory for the same graph, [expand] and [in_memory_expand] of
    the same node return lists of the same length whose entries correspond one by one: the
    same edges under the new names, in the same order, for every direction. *)
Theorem expand_agrees_in_memory `{RecordPages} (hf : heap_file) (db : in_memory_graph) (G1 G2 : graph) (fn fr : Z -> Z)
    (n : Z) (d : direction_t) (log : bool) (GF : graph_file hf G1) (M : mem_graph db G2) (Sg : same_graph fn fr G1 G2)
    (Hn : is_Some (g_labels G1 !! n)) :
  exists l xs hf' l' ps, expand hf n d log = Ok (l, hf') /\ al_rep l xs /\ graph_file hf' G1 /\
    in_memory_expand db (fn n) d = Ok l' /\ al_rep l' ps /\
    Forall2 (fun r p => exists r', rel_structs db !! p = Some r' /\ r_id r' = fr (r_id r) /\
                          edge_of r' = rename_ends fn (edge_of r)) xs ps.
Proof.
  destruct GF as [(g & S & R) Nn Nr]. pose proof Hn as [lb El]. destruct (store_node g G1 n lb R El) as (node & En & _).
  destruct (expand_ok g G1 n node d log R En hf S) as (l & xs & hf' & E & [A _] & I & F & S' & Sh).
  rewrite <- (same_label fn fr G1 G2 Sg) in El. pose proof (mg_represents _ _ M) as R2.
  destruct (store_node _ G2 (fn n) lb R2 El) as (node2 & En2 & _).
  destruct (expand_mem db G2 M (fn n) node2 d En2) as (l' & E' & [A' _]).
  assert (Ends : forall x e, g_edges G1 !! x = Some e -> is_Some (g_labels G1 !! e_source e) /\ is_Some (g_labels G1 !! e_target e)).
  { intros x e Ee. destruct (rg_ends _ _ R x e Ee) as (? & ? & _). done. }
  exists l, xs, hf', l'. eexists. split; [exact E|]. split; [exact A|]. split.
  { split; [by exists g|by rewrite (sh_nodes _ _ Sh)|by rewrite (sh_rels _ _ Sh)]. }
  split; [exact E'|]. split; [exact A'|].
  assert (Inc2 : g_inc G2 (fn n) = fr <$> g_inc G1 n) by (by apply (same_inc fn fr G1 G2)).
  assert (Pk : pick G2 (dir_edge (fn n) d) (g_inc G2 (fn n)) = fr <$> (r_id <$> xs)).
  { rewrite Inc2, I. by apply same_pick. }
  rewrite Pk. rewrite !Forall2_fmap_r. apply Forall_Forall2_diag. rewrite Forall_forall in F |- *. intros r Hr.
  assert (Hx : fr (r_id r) ∈ g_inc G2 (fn n)).
  { assert (Hp : fr (r_id r) ∈ pick G2 (dir_edge (fn n) d) (g_inc G2 (fn n))) by (rewrite Pk; by do 2 apply list_elem_of_fmap_2).
    by apply pick_elem in Hp as [? _]. }
  destruct (chain_struct db G2 M (fn n) node2 d En2 _ Hx) as (r' & Er & _ & _ & _ & _ & Ei & _).
  exists r'. pose proof Er as [_ Es]%by_id_lookup. split_and!; [exact Es|exact Ei|].
  pose proof (graph_edge _ _ (fr (r_id r)) R2) as Ee. rewrite Er, (same_edge fn fr G1 G2 Sg), (graph_edge g G1 _ R), (F r Hr) in Ee.
  cbn in Ee. symmetry. by apply (inj Some).
Qed.

(** A loop on one node, on disk and in memory. *)
Lemma expand_agrees_in_memory_witness :
  exists hf db n l xs hf' l' ps, expand (H := x86_pages) hf n BOTH true = Ok (l, hf') /\ al_rep l xs /\
    in_memory_expand db 0 BOTH = Ok l' /\ al_rep l' ps /\ length xs = length ps.
Proof.
  destruct sample_loop as (hf & n & x & GF & _).
  pose proof (in_memory_graph_create_ok 1 2) as M0.
  destruct (create_node_mem _ _ 7 M0) as (db1 & _ & _ & M1 & R1 & N1); [by vm_compute|].
  assert (L1 : rel_structs db1 = []) by (by rewrite R1).
  destruct (create_relationship_mem _ _ M1 0 0 5 9) as (db2 & _ & _ & M2 & _); [by eexists..|done|by rewrite L1|].
  cbv zeta in M2. rewrite L1 in M2. cbn in M2. set (G2 := add_edge _ _ _) in M2.
  destruct (expand_agrees_in_memory hf db2 _ G2 (swap_id n 0) (swap_id x 0) n BOTH true GF M2) as (l & xs & hf' & l' & ps & E & A & _ & E' & A' & F).
  - set (G1 := add_edge _ x _). split; [|intros; by eapply swap_id_inj].
    exists (add_edge (add_node empty_graph 0 7) x (Edge 0 0 5 9)). split; split.
    + intros k. cbn. destruct (decide (k = n)) as [->|Hk]; [by rewrite swap_id_l, !lookup_insert_eq|].
      rewrite (lookup_insert_ne _ n) by congruence. rewrite lookup_insert_ne; [by rewrite !lookup_empty|].
      intros C. apply Hk. rewrite <- (swap_id_twice n 0 k), <- C. apply swap_id_r.
    + intros k. cbn. destruct (decide (k = x)) as [->|Hk]; [rewrite !lookup_insert_eq; cbn; unfold rename_ends; cbn; by rewrite swap_id_l|].
      by rewrite !lookup_insert_ne, lookup_empty by congruence.
    + intros k [lb Hk]. cbn in Hk. destruct (decide (k = n)) as [->|Hne]; [|by rewrite lookup_insert_ne, lookup_empty in Hk by congruence].
      rewrite swap_id_l. cbn. repeat case_decide; try done; exfalso; intuition congruence.
    + done.
    + intros k. cbn. destruct (decide (k = x)) as [->|Hk]; [by rewrite swap_id_l, !lookup_insert_eq|].
      rewrite (lookup_insert_ne _ x) by congruence. rewrite lookup_insert_ne; [by rewrite !lookup_empty|].
      intros C. apply Hk. rewrite <- (swap_id_twice x 0 k), <- C. apply swap_id_r.
    + intros k [lb Hk]. cbn in Hk. destruct (decide (k = 0)) as [->|Hne]; [|by rewrite lookup_insert_ne, lookup_empty in Hk by congruence].
      change ([0] = [swap_id x 0 x]). by rewrite swap_id_l.
  - cbn. rewrite lookup_insert_eq. by eexists.
  - rewrite swap_id_l in E'. exists hf, db2, n, l, xs, hf', l', ps. split_and!; [exact E|exact A|exact E'|exact A'|]. by eapply Forall2_length.
Defined.
